(* ===== verification/_CoqProject ===== *)
-Q . S2P
Prelude.v
GoStr.v
Netip.v
NetipText.v
Records.v
PolicyConflict.v
CidrColumn.v
PolicyConflictSpec.v
Store.v
Events.v
Tokens.v
TokensSpec.v
ControlState.v
AgentCommands.v
PolicySync.v
CommandLifecycle.v
DeliveryCoherence.v
CommandQueueSpec.v
PolicySnapshot.v
PolicySnapshotSpec.v
Nodes.v
NodesSpec.v
IPGroups.v
IPGroupsSpec.v
PolicyRules.v
Addressing.v
Lifecycle.v
PublicNetwork.v
Routes.v
RuntimeAuth.v
CommandStream.v
Tenants.v
Registration.v
RegistrationSpec.v
Sessions.v
Access.v
AccessSpec.v
RolesSpec.v
Dispatch.v
PolicyValidation.v
PolicyAdmin.v
GroupAdmin.v
NodeAdmin.v
AgentAdmin.v
AgentSync.v
PolicyAdminSpec.v
PolicyMachineSpec.v
PolicyRequestsSpec.v
BatchSpec.v
Relations.v
Backup.v
BackupSpec.v
BackupRestoreSpec.v
AgentRest.v
AgentRestSpec.v
Upkeep.v
Durations.v
TokenAdmin.v
TokenAdminSpec.v
Monitoring.v
MonitoringSpec.v
MetricsServer.v
Metrics.v
DeliveryStatus.v
DeliveryStatusSpec.v
MetricsSpec.v
PolicyPages.v
PolicyPagesSpec.v
NodePages.v
NodePagesSpec.v
MetricsServerSpec.v
TenantAdmin.v
AssistantTools.v
Assistant.v
TenantApi.v
TenantApiSpec.v
AssistantSpec.v
Messaging.v
MessagingSpec.v
Commands.v
