(* ===== verification/Prelude.v ===== *)
(** * Aria SD-WAN controller: a verification development

    Aria is a multi-tenant SD-WAN controller in Go.  It keeps tenants, users, roles,
    nodes, policies, commands and certificates in PostgreSQL
    ([pkg/controllerstorage]); agents on the nodes register, synchronise, fetch
    commands and report metrics over gRPC ([internal/controller/grpc]) or HTTP;
    operators act through an HTTP API ([internal/api]), an assistant, chat platforms
    and a command line; routines of the process ([internal/cli]) keep the state up to
    date.  This library models all of these over one model of the tables, and proves
    what they promise.

    ** How the parts interact

    A node registers ([processRegistration]) with an enrolment token, which is
    consumed, or with the runtime token it got before; it gets an address, a
    certificate and a place among the nodes of its tenant.  Its requests carry the
    runtime token, which the interceptor checks against the node and tenant rows.  An
    operator logs in, gets a token with role and tenant, and passes the permission
    checks with the permissions the role has in the tenant.  A request that changes a
    rule, a group or the routes of a node is checked, written, compared with the other
    rules of the node and followed by a [sync] command, a policy delivery and a new
    desired state version, in one transaction; older syncs are superseded.  The
    command stream pushes the next command; the agent compiles in the rules and groups
    of its snapshot and reports the result, which closes the command and its
    deliveries and moves the node's control state; failures raise alerts, most steps
    write audit events.  Metrics of agents become statistics of rules and signs of
    life; sweeps move silent nodes offline and back.  Lifecycle transitions take nodes
    and tenants out of service: certificates are revoked, commands closed, token
    versions raised.  Pages show rules, deliveries, nodes, events and the series of a
    metrics server; backups export and replace the configuration of all tenants.

    ** Files

    Foundations:
    - [Prelude] (this file): errors and results, record update, automation, machine
      integers, stable sorting, lists.
    - [GoStr], [Durations], [Netip], [NetipText]: what the code uses of Go's [strings],
      [strconv], [fmt], [time], [net] and [net/netip], with round trips of their texts.
    - [Records], [CidrColumn]: the structs of rules and groups; columns of networks.
    - [Store]: the tables, statements, failures and transactions; a storage method is a
      computation in the monad [M].
    - [Events]: [audit_events.go], [alerts.go], [alert_generator.go].

    Commands, deliveries and the state of nodes:
    - [ControlState], [AgentCommands], [PolicySync]: [node_control_states.go],
      [agent_commands.go], [policy_sync.go] with [policy_deliveries.go].
    - [CommandLifecycle], [DeliveryCoherence], [CommandQueueSpec]: queue and deliveries
      as a step machine, with invariants, and the behaviour of each operation.
    - [Nodes], [NodesSpec], [Lifecycle], [Addressing], [Routes], [PublicNetwork]: node
      rows of [postgres.go], [certificates.go], [certificate_lifecycle.go],
      [node_lifecycle.go], [auth_state.go], [routes.go], [internal/nodeidentity].
    - [Upkeep]: the clean-up routine of [cli/controller_serve.go] and its sweeps.

    Policies:
    - [PolicyConflict], [PolicyConflictSpec], [PolicyRules], [IPGroups],
      [IPGroupsSpec]: [network_policy.go], [ip_groups.go].
    - [PolicySnapshot], [PolicySnapshotSpec]: [grpc/policy_snapshot.go], the compiler
      from rule records to the messages an agent gets.
    - [Dispatch], [PolicyValidation], [PolicyAdmin], [GroupAdmin], [NodeAdmin],
      [AgentAdmin]: the policy, group, node and command requests of [api/v2/security.go],
      [api/v2/ip_groups.go], [api/v2/setup.go], [api/v2/operations.go].
    - [PolicyAdminSpec], [PolicyMachineSpec], [PolicyRequestsSpec], [BatchSpec]: what
      these requests keep.

    Agents:
    - [Tokens], [TokensSpec]: [internal/token], and the ledger it implements.
    - [Registration], [RegistrationSpec]: registration and certificates in
      [cli/controller_serve.go] and [security/certissuance].
    - [RuntimeAuth], [CommandStream], [AgentSync], [AgentRest], [AgentRestSpec],
      [Metrics], [MetricsSpec]: [auth/runtime_token.go], [grpc/auth_interceptor.go],
      [grpc/server.go] and the HTTP endpoints of agents.  [CommandStream] is written
      over the interface [CommandQueue], which [AgentCommands] implements.

    Operators:
    - [Tenants], [Sessions], [Access], [AccessSpec], [RolesSpec]: tenant rows,
      [rbac.go], [auth/jwt.go], [middleware/jwt_auth.go], [handlers/auth.go],
      [handlers/tenant.go], [v2/roles.go]; the requests as a machine.
    - [TokenAdmin], [TokenAdminSpec], [TenantAdmin]: the token pages and the tenants.
    - [Monitoring], [MonitoringSpec], [MetricsServer], [MetricsServerSpec],
      [DeliveryStatus], [DeliveryStatusSpec], [PolicyPages], [PolicyPagesSpec],
      [NodePages], [NodePagesSpec]: [v2/monitoring.go], [monitoring_queries.go],
      [monitoring_detail_state.go] and the pages of [v2/security.go], [v2/setup.go].
    - [Relations], [Backup], [BackupSpec], [BackupRestoreSpec]: [v2/settings.go] over
      tables by name.
    - [AssistantTools], [Assistant], [AssistantSpec], [Messaging], [MessagingSpec]:
      [internal/agent], [internal/service], [handlers/chat.go], [internal/im].
    - [TenantApi], [TenantApiSpec]: the dispatch of every path below a tenant.
    - [Commands]: the platform administrator a start provides, and the command line.

    ** Correspondence

    Definitions have the names of the Go functions, types and constants.  A
    table is a finite map from the primary key to a row record with the column
    names; a nullable column is an option.  A method that returns [(T, error)] is a
    value of [M T], a function of the environment (clocks, generated identifiers,
    which statements fail) and the tables.  An HTTP handler is such a value too: an
    error is the status, code and message it writes.  Definitions in lower case
    with underscores name an SQL statement, a WHERE clause or the part of a
    function between two early returns.

    ** What the theorems show

    - Commands and deliveries: over any interleaving of calls with any statement
      failing, a terminal command never changes, and every delivery is open exactly
      while its command is and ends as the command ended.  Each queue operation does
      what it says; a batch answers what happened; a completed sync converges the node's
      state.  A command stream pushes only commands of the node its token names.
    - Policies: after any sequence of requests the policy of a node compiles unless a
      blacklist rule of it names no network, and groups of a tenant are disjoint; a refused request changes nothing; what the
      validation accepts is read alike by the conflict check; groups read back as
      written; the detectors decide exactly the overlap of address sets; compiling is
      idempotent.
    - Agents: the token store refines a ledger whose uses never exceed the budget; a
      registration is authorised only by a credential for its tenant, not for a node
      it finds stopped, and spends one use; an agent that registered is admitted with its
      token; a request reaches a handler only for a node in service; a synchronisation
      gives the current peers, address and version; reported metrics are what the pages
      show.
    - Nodes: transitions take exactly the node or tenant out of service, or change
      nothing; sweeps settle every node and never revive a stopped one; the allocator
      hands out free addresses; stored public addresses are public.
    - Operators: a start provides a platform administrator and a second one changes
      nothing; a session that ended stays ended until a backup is restored, no request makes a platform
      administrator, system roles keep their permissions, whatever is asked below a
      tenant needs a token with the permission there, token pages stay in their tenant.
    - Pages: the references of a group are complete when read page by page, and so is
      the event feed when no two events have the same time; delivery status is exact,
      and the lists of rules agree with it; queries to the metrics server select only hosts of the tenant.
    - Backups: tables change only in a restore that a platform administrator confirmed
      and nothing blocks; a backup with its secrets restores the columns it holds.
    - The assistant reads only rows of the caller's tenant, and a chat platform reaches
      no table at all; both are proved by comparing runs on two databases.

    ** Modelling decisions

    - Calls run one after another.  Row locks and SKIP LOCKED, which order
      concurrent transactions, are not modelled; a tick of a routine is one call.
    - Any statement, Begin or Commit may fail ([env_fault]); a failed transaction
      changes nothing.  Theorems about success assume [no_faults].
    - Primary, unique and foreign keys and NOT NULL columns of the modelled tables
      are checked where a statement can violate them.  Lengths of VARCHAR columns and
      the syntax of INET columns are not; columns of networks hold prefixes, with their
      texts as the class [CidrText]; of the version counters only those of user sessions
      overflow.  Of the statements that PostgreSQL refuses for the types of their
      expressions, that of the learned routes always fails, and the update of a tenant
      runs either way, by the parameter [case_accepted].
      Backups work on all tables at once, as rows of named columns ([Relations]); a cascade
      follows as many foreign keys as there are tables.
    - NOW() and time.Now() are read once per call, in microseconds; the session of
      the database is in UTC.  Rows that ORDER BY does not separate come in storage
      order, but for the pages of the event feed, where the class [TieOrder] orders them
      anew on each page; texts are ordered bytewise.
    - An identifier is the canonical text of its UUID.  [uuid.Parse] reads other forms,
      too, one of them with any characters at its ends; of it is assumed
      [trimmed_names_same], where at all.  Case mapping and trimming
      treat ASCII; the text of an error a message wraps is left out.
    - JSON values other than null, texts and booleans are kept as they render; a
      handler gets its body decoded, the dispatch below a tenant one decoding for each
      handler.  Floating-point numbers are those of [SpecFloat].
    - A panic is an error ([Panic]) that no caller turns into an answer.
    - Libraries are parameters: JSON web tokens ([JWT], [UserJWT]), bcrypt, X.509,
      SHA-256, HMAC, [uuid.Parse], [strconv.ParseFloat], the decoding of JSON texts,
      random bytes and serial numbers, with their documented laws as classes that a toy
      instance satisfies.  So are the language model, the metrics server and the chat
      platforms: any function of what they are sent.
    - Loops are structural recursions over lists or counters.  Fuel is used by the
      clients that follow pages, where the theorems say how much is enough; by the
      parser of durations, which consumes a character for each unit; and by the eight
      groups of an IPv6 address.
    - CreatePolicyDelivery and UpdatePolicyDeliveryStatusByCommand have no caller
      in the program and are outside the step machine; a sync request names the
      public key of its own node, as every caller does.

    ** Not modelled

    Start-up wiring, configuration and logging; the Redis cache and its notices; the
    pages that serve the installer and the version of the controller; the text of
    [next_action]; what commands of the command line print; generated protocol code;
    and functions without a caller: older address pools, device configurations and the
    log of the assistant in [postgres.go], the keys of rules at run time in
    [security.go], the decryption of chat events and the notifications of chat
    platforms, the scoped storage and the tenant lookup of the middleware. *)

From stdpp Require Export base tactics list gmap strings pretty sorting.
From Stdlib Require Export ZArith Lia Ascii.

(** ** Results

    A Go call that returns [(T, error)] is a value of [result T]. *)

(** The errors the modelled code creates or passes on.  An error built with
    [errors.New] or [fmt.Errorf] is its message. *)
Inductive error :=
  | ErrNoRows                          (* sql.ErrNoRows *)
  | ErrDriver                          (* a statement, Begin or Commit that failed *)
  | ErrConstraint (name : string)      (* a constraint PostgreSQL enforces *)
  | ErrorString (msg : string)         (* errors.New, fmt.Errorf *)
  | ErrAmbiguousPolicyConflict (msg : string)
  | RouteConflictError (CIDR ExistingCIDR NodeHostname NodeRegion NodePublicKey
                        TargetRegion TargetPublicKey : string)
  | ErrTokenNotFound
  | ErrTokenExpired
  | ErrTokenExhausted
  | ErrTokenRevoked
  | ErrTokenInvalid
  | ErrInvalidToken
  | ErrExpiredToken
  | StatusError (code msg : string)    (* google.golang.org/grpc/status *)
  | RegistrationAuthError (status : Z) (message : string)
  | HTTPError (status : Z) (code message : string)    (* apibase.WriteError *)
  | Panic (msg : string).              (* a Go panic, which nobody recovers *)

#[export] Instance error_eq_dec : EqDecision error.
Proof. solve_decision. Defined.

Inductive result (A : Type) :=
  | Ok (a : A)
  | Err (e : error).
Arguments Ok {A} a.
Arguments Err {A} e.

#[export] Instance result_eq_dec `{EqDecision A} : EqDecision (result A).
Proof. solve_decision. Defined.

#[export] Instance result_ret : MRet result := λ A a, Ok a.
#[export] Instance result_bind : MBind result := λ A B k m,
  match m with Ok a => k a | Err e => Err e end.

Definition is_ok {A} (r : result A) : bool :=
  match r with Ok _ => true | Err _ => false end.

(** ** Functional record update

    [r <| p := v |>] is [r] with the field [p] set to [v]; the SET clause of
    an UPDATE names some columns and leaves the others.  A record type joins
    in by declaring its eta expansion. *)
Class Eta (R : Type) := eta : R → R.
Class Updatable {R T : Type} (p : R → T) := upd : (T → T) → R → R.

Ltac build_upd p :=
  match type of p with
  | ?R → ?T =>
    let i := constr:(_ : Eta R) in
    let e := eval hnf in i in
    match eval pattern p in e with
    | ?b _ =>
      let t := eval cbv beta in
        (λ (f : T → T) (r : R), b (λ x, f (p x)) r) in exact t
    end
  end.
#[export] Hint Extern 1 (@Updatable _ _ ?p) => build_upd p : typeclass_instances.

Declare Scope aria_scope.
Delimit Scope aria_scope with aria.
Notation "r <| p := v |>" := (upd (p:=p) (λ _, v) r)
  (at level 1, left associativity, p at level 9, v at level 99) : aria_scope.
Open Scope aria_scope.

(** ** Automation *)

(** Lemmas that reduce a boolean test to the proposition it decides, and
    lemmas on lookups that hold without side conditions. *)
Create HintDb aria discriminated.

(** Case analysis on every [match] and [if] of the context and the goal, with
    the equations that follow. *)
Ltac cases := repeat (case_match; simplify_eq/=; try done).

(** Split a conjunction of boolean tests into propositions. *)
Ltac bools :=
  repeat match goal with
  | H : (_ && _) = true |- _ => apply andb_true_iff in H; destruct H
  | H : (_ || _) = false |- _ => apply orb_false_iff in H; destruct H
  | H : negb _ = true |- _ => apply negb_true_iff in H
  | H : negb _ = false |- _ => apply negb_false_iff in H
  | H : bool_decide _ = true |- _ => apply bool_decide_eq_true in H
  | H : bool_decide _ = false |- _ => apply bool_decide_eq_false in H
  | H : (_ =? _)%Z = true |- _ => apply Z.eqb_eq in H
  | H : (_ =? _)%Z = false |- _ => apply Z.eqb_neq in H
  | H : (_ <? _)%Z = true |- _ => apply Z.ltb_lt in H
  | H : (_ <? _)%Z = false |- _ => apply Z.ltb_ge in H
  | H : (_ <=? _)%Z = true |- _ => apply Z.leb_le in H
  | H : (_ <=? _)%Z = false |- _ => apply Z.leb_gt in H
  | H : (_ =? _)%string = true |- _ => apply String.eqb_eq in H
  | H : (_ =? _)%string = false |- _ => apply String.eqb_neq in H
  end.

(** ** Machine integers *)

Definition MaxUint8 : Z := 255.
Definition MaxUint16 : Z := 65535.

(** Conversion of a Go [int] to [uint32] and to [uint64]: the value modulo
    the width. *)
Definition uint32 (z : Z) : Z := (z mod 2 ^ 32)%Z.
Definition uint64 (z : Z) : Z := (z mod 2 ^ 64)%Z.

(** Wrap-around of signed integers. *)
Definition int32 (z : Z) : Z := ((z + 2 ^ 31) mod 2 ^ 32 - 2 ^ 31)%Z.
Definition int64 (z : Z) : Z := ((z + 2 ^ 63) mod 2 ^ 64 - 2 ^ 63)%Z.

Lemma int32_small z : (- 2 ^ 31 ≤ z < 2 ^ 31)%Z → int32 z = z.
Proof. intros. unfold int32. rewrite Z.mod_small; lia. Qed.
Lemma int64_small z : (- 2 ^ 63 ≤ z < 2 ^ 63)%Z → int64 z = z.
Proof. intros. unfold int64. rewrite Z.mod_small; lia. Qed.
Lemma uint32_small z : (0 ≤ z < 2 ^ 32)%Z → uint32 z = z.
Proof. intros. by apply Z.mod_small. Qed.
Lemma uint64_small z : (0 ≤ z < 2 ^ 64)%Z → uint64 z = z.
Proof. intros. by apply Z.mod_small. Qed.
Lemma uint32_range z : (0 ≤ uint32 z < 2 ^ 32)%Z.
Proof. by apply Z.mod_pos_bound. Qed.
Lemma uint64_range z : (0 ≤ uint64 z < 2 ^ 64)%Z.
Proof. by apply Z.mod_pos_bound. Qed.

(** ** Stable sorting

    [sort.SliceStable(s, less)]; [sort.Slice] and [sort.Strings] on keys that
    are equal only for equal elements. *)
Section stable_sort.
Context {A : Type} (less : A → A → bool).

Fixpoint insert_stable (x : A) (l : list A) : list A :=
  match l with
  | [] => [x]
  | y :: l' => if less y x then y :: insert_stable x l' else x :: y :: l'
  end.
Definition SliceStable (l : list A) : list A := foldr insert_stable [] l.

Lemma insert_stable_Permutation x l : insert_stable x l ≡ₚ x :: l.
Proof.
  induction l as [|y l IH]; simpl; [done|].
  destruct (less y x); [|done]. rewrite IH. apply Permutation_swap.
Qed.
Lemma SliceStable_Permutation l : SliceStable l ≡ₚ l.
Proof.
  induction l as [|x l IH]; simpl; [done|].
  by rewrite insert_stable_Permutation, IH.
Qed.

(** Adjacent elements of the sorted list are in order. *)
Definition in_order (x y : A) : Prop := less y x = false.

Lemma insert_stable_Sorted x l :
  (∀ a b, less a b = true → less b a = false) →
  Sorted in_order l → Sorted in_order (insert_stable x l).
Proof.
  intros Hasym. induction 1 as [|y l Hl IH Hhd]; simpl; [by repeat constructor|].
  destruct (less y x) eqn:Hyx; [|by repeat constructor].
  constructor; [done|]. destruct l as [|z l]; simpl in *.
  - constructor. by apply Hasym.
  - destruct (less z x); constructor; [by inversion Hhd|by apply Hasym].
Qed.
Lemma SliceStable_Sorted l :
  (∀ a b, less a b = true → less b a = false) → Sorted in_order (SliceStable l).
Proof.
  intros Hasym. induction l; simpl; [constructor|by apply insert_stable_Sorted].
Qed.

(** Nothing comes before the first element. *)
Lemma SliceStable_first l x y :
  (∀ a b, less a b = true → less b a = false) →
  (∀ a b c, less b a = false → less c b = false → less c a = false) →
  head (SliceStable l) = Some x → y ∈ l → less y x = false.
Proof.
  intros Hasym Hneg Hh Hy. pose proof (SliceStable_Sorted l Hasym) as Hs.
  rewrite <- SliceStable_Permutation in Hy.
  apply Sorted_StronglySorted in Hs; [|intros a b c; unfold in_order; apply Hneg].
  destruct (SliceStable l) as [|z l']; simplify_eq/=.
  apply StronglySorted_inv in Hs as [_ Hall]. rewrite Forall_forall in Hall.
  apply elem_of_cons in Hy as [->|Hy]; [|by apply Hall].
  destruct (less x x) eqn:Hx; [|done]. by rewrite (Hasym _ _ Hx) in Hx.
Qed.

(** [ORDER BY ... LIMIT 1], without sorting the rest. *)
Definition first_by (l : list A) : option A :=
  foldr (λ x acc, match acc with
                  | Some y => if less y x then Some y else Some x
                  | None => Some x
                  end) None l.
Lemma first_by_head l : first_by l = head (SliceStable l).
Proof.
  induction l as [|x l IH]; [done|]. unfold first_by in *. cbn [foldr SliceStable]. rewrite IH.
  unfold SliceStable. simpl. destruct (foldr insert_stable [] l) as [|y l']; [done|].
  simpl. by destruct (less y x).
Qed.
Lemma first_by_elem l x : first_by l = Some x → x ∈ l.
Proof.
  rewrite first_by_head. intros Hh. rewrite <- SliceStable_Permutation.
  destruct (SliceStable l); simplify_eq/=. by left.
Qed.
Lemma first_by_None l : first_by l = None ↔ l = [].
Proof.
  rewrite first_by_head. split; [|by intros ->]. pose proof (SliceStable_Permutation l) as Hp.
  destruct (SliceStable l); [|done]. intros _. by apply Permutation_nil in Hp.
Qed.

(** Elements that no test separates keep their relative order. *)
Lemma insert_stable_filter (P : A → Prop) `{∀ x, Decision (P x)} x l :
  (∀ a b, P a → P b → less a b = false) →
  filter P (insert_stable x l) = filter P (x :: l).
Proof.
  intros HP. induction l as [|y l IH]; simpl; [done|].
  destruct (less y x) eqn:Hyx; [|done].
  rewrite !filter_cons in *. rewrite IH.
  destruct (decide (P y)), (decide (P x)); try done.
  by rewrite HP in Hyx.
Qed.
Lemma SliceStable_stable (P : A → Prop) `{∀ x, Decision (P x)} l :
  (∀ a b, P a → P b → less a b = false) → filter P (SliceStable l) = filter P l.
Proof.
  intros HP. induction l as [|x l IH]; [done|].
  simpl. rewrite insert_stable_filter by done.
  by rewrite !filter_cons, IH.
Qed.

(** Sorting commutes with leaving elements out. *)
Lemma insert_stable_keep (P : A → Prop) `{∀ x, Decision (P x)} x l :
  (∀ a b c, less b a = false → less c b = false → less c a = false) →
  StronglySorted in_order l →
  filter P (insert_stable x l) = if decide (P x) then insert_stable x (filter P l) else filter P l.
Proof.
  intros Hneg. induction 1 as [|y l Hs IH Hall]; simpl.
  { rewrite filter_cons. by destruct (decide (P x)). }
  destruct (less y x) eqn:Hyx.
  - rewrite !filter_cons, IH. destruct (decide (P x)), (decide (P y)); try done. simpl. by rewrite Hyx.
  - rewrite filter_cons. destruct (decide (P x)); [|done].
    assert (Forall (λ z, less z x = false) (filter P (y :: l))) as Hz.
    { apply Forall_forall. intros z [_ [->|Hz]%elem_of_cons]%list_elem_of_filter; [done|].
      rewrite Forall_forall in Hall. eapply Hneg; [exact Hyx|by apply Hall]. }
    destruct (filter P (y :: l)) as [|z l']; [done|]. apply Forall_cons_1 in Hz as [Hz _]. simpl. by rewrite Hz.
Qed.
Lemma SliceStable_filter (P : A → Prop) `{∀ x, Decision (P x)} l :
  (∀ a b, less a b = true → less b a = false) →
  (∀ a b c, less b a = false → less c b = false → less c a = false) →
  filter P (SliceStable l) = SliceStable (filter P l).
Proof.
  intros Hasym Hneg. induction l as [|x l IH]; [done|]. simpl.
  rewrite insert_stable_keep, IH; [|done|].
  - rewrite filter_cons. by destruct (decide (P x)).
  - apply Sorted_StronglySorted; [|by apply SliceStable_Sorted]. intros a b c. unfold in_order. apply Hneg.
Qed.
End stable_sort.

(** ** Lists *)

Lemma list_filter_bool {A} (p : A → bool) l : List.filter p l = filter (λ x, p x = true) l.
Proof. induction l as [|x l IH]; [done|]. cbn [List.filter]. rewrite filter_cons, IH. by destruct (p x). Qed.
Lemma filter_fmap_list {A B} (f : A → B) (P : B → Prop) `{∀ x, Decision (P x)} (l : list A) :
  filter P (f <$> l) = f <$> filter (λ x, P (f x)) l.
Proof. induction l as [|x l IH]; [done|]. rewrite fmap_cons, !filter_cons, IH. by destruct (decide (P (f x))). Qed.
Lemma filter_ext_in {A} (P Q : A → Prop) `{∀ x, Decision (P x)} `{∀ x, Decision (Q x)} (l : list A) :
  (∀ x, x ∈ l → P x ↔ Q x) → filter P l = filter Q l.
Proof.
  induction l as [|x l IH]; intros Hpq; [done|]. rewrite !filter_cons, IH by (intros; apply Hpq; by right).
  pose proof (Hpq x (list_elem_of_here _ _)). destruct (decide (P x)), (decide (Q x)); tauto.
Qed.

(** [for ... range] with an early return: the first [Some]. *)
Fixpoint find_map {A B} (f : A → option B) (l : list A) : option B :=
  match l with
  | [] => None
  | x :: l' => match f x with Some b => Some b | None => find_map f l' end
  end.

Lemma find_map_Some {A B} (f : A → option B) l b :
  find_map f l = Some b → ∃ x, x ∈ l ∧ f x = Some b.
Proof.
  induction l as [|x l IH]; simpl; [done|]. destruct (f x) eqn:Hx; intros.
  - simplify_eq. exists x. split; [by left|done].
  - destruct IH as (y & ? & ?); [done|]. exists y. split; [by right|done].
Qed.
Lemma find_map_None {A B} (f : A → option B) l :
  find_map f l = None ↔ ∀ x, x ∈ l → f x = None.
Proof.
  induction l as [|x l IH]; simpl; [split; [|done]; intros _ ? ?%elem_of_nil; done|].
  split.
  - destruct (f x) eqn:Hx; [done|]. intros Hl y [->|Hy]%elem_of_cons; [done|].
    by apply IH.
  - intros Hall. rewrite (Hall x) by by left. apply IH. intros y ?.
    apply Hall. by right.
Qed.

Lemma elem_of_filter_list {A} (P : A → Prop) `{∀ x, Decision (P x)} (l : list A) x :
  x ∈ filter P l ↔ P x ∧ x ∈ l.
Proof. apply list_elem_of_filter. Qed.
