(* ===== verification/GoStr.v ===== *)
(** * Go strings

    The functions of Go's [strings], [strconv] and [fmt] packages that the
    controller calls, on byte strings.  Case mapping and white space are those
    of ASCII, which is what every keyword, address and number the controller
    compares is made of. *)

From S2P Require Import Prelude.

Abbreviation text := (list ascii).

Definition is_space (c : ascii) : bool :=
  match c with
  | " "%char | "009"%char | "010"%char | "011"%char | "012"%char | "013"%char => true
  | _ => false
  end.

Fixpoint trim_left (l : text) : text :=
  match l with
  | c :: l' => if is_space c then trim_left l' else l
  | [] => []
  end.
Definition trim (l : text) : text := rev (trim_left (rev (trim_left l))).

Definition TrimSpace (s : string) : string :=
  String.string_of_list_ascii (trim (String.list_ascii_of_string s)).

Definition lower_char (c : ascii) : ascii :=
  let n := N_of_ascii c in
  if (65 <=? n)%N && (n <=? 90)%N then ascii_of_N (n + 32) else c.
Fixpoint ToLower (s : string) : string :=
  match s with
  | EmptyString => EmptyString
  | String c s' => String (lower_char c) (ToLower s')
  end.

Definition EqualFold (s t : string) : bool := (ToLower s =? ToLower t)%string.

(** [strings.Split(s, sep)] for a one-byte separator: always at least one
    field. *)
Fixpoint split_char (sep : ascii) (l : text) : list text :=
  match l with
  | [] => [[]]
  | c :: l' =>
    if Ascii.eqb c sep then [] :: split_char sep l'
    else match split_char sep l' with
         | f :: fs => (c :: f) :: fs
         | [] => [[c]]
         end
  end.
Definition Split (s : string) (sep : ascii) : list string :=
  String.string_of_list_ascii <$> split_char sep (String.list_ascii_of_string s).

(** The text before and after the first occurrence of a byte. *)
Fixpoint cut_char (sep : ascii) (l : text) : option (text * text) :=
  match l with
  | [] => None
  | c :: l' =>
    if Ascii.eqb c sep then Some ([], l')
    else match cut_char sep l' with
         | Some (a, b) => Some (c :: a, b)
         | None => None
         end
  end.
Definition Cut (s : string) (sep : ascii) : option (string * string) :=
  match cut_char sep (String.list_ascii_of_string s) with
  | Some (a, b) => Some (String.string_of_list_ascii a, String.string_of_list_ascii b)
  | None => None
  end.

(** The text before and after the last occurrence of a byte. *)
Definition cut_last (sep : ascii) (l : text) : option (text * text) :=
  match cut_char sep (rev l) with
  | Some (a, b) => Some (rev b, rev a)
  | None => None
  end.

Definition HasPrefix (s p : string) : bool := String.prefix p s.
Definition strings_Contains (s sub : string) : bool :=
  match String.index 0 sub s with Some _ => true | None => false end.

(** [fmt.Sprintf("%d", z)]. *)
Definition Itoa (z : Z) : string := pretty z.

(** [strconv.Atoi]: an optional sign and at least one decimal digit, within
    the range of a 64-bit [int]. *)
Definition digit_val (c : ascii) : option Z :=
  let n := N_of_ascii c in
  if (48 <=? n)%N && (n <=? 57)%N then Some (Z.of_N n - 48)%Z else None.
Fixpoint digits_val (acc : Z) (l : text) : option Z :=
  match l with
  | [] => Some acc
  | c :: l' => d ← digit_val c; digits_val (acc * 10 + d)%Z l'
  end.
Definition unsigned_val (l : text) : option Z :=
  match l with [] => None | _ => digits_val 0 l end.
Definition int64_range (z : Z) : bool := ((- 2 ^ 63 <=? z) && (z <? 2 ^ 63))%Z.
Definition atoi_text (l : text) : option Z :=
  v ← match l with
      | "+"%char :: l' => unsigned_val l'
      | "-"%char :: l' => Z.opp <$> unsigned_val l'
      | _ => unsigned_val l
      end;
  if int64_range v then Some v else None.
Definition Atoi (s : string) : option Z := atoi_text (String.list_ascii_of_string s).

(** [t.UTC().Format(time.RFC3339)] of a number of microseconds since 1970, for
    the years 0 to 9999: the civil date of a day by the cycle of 400 years. *)
Definition pad (width : nat) (n : Z) : string :=
  let s := Itoa n in
  String.string_of_list_ascii (replicate (width - String.length s) "0"%char) +:+ s.
Definition civil_date (days : Z) : Z * Z * Z :=
  (let z := days + 719468 in
   let era := z / 146097 in
   let doe := z mod 146097 in
   let yoe := (doe - doe / 1460 + doe / 36524 - doe / 146096) / 365 in
   let doy := doe - (365 * yoe + yoe / 4 - yoe / 100) in
   let mp := (5 * doy + 2) / 153 in
   let d := doy - (153 * mp + 2) / 5 + 1 in
   let m := if mp <? 10 then mp + 3 else mp - 9 in
   let y := yoe + era * 400 + if m <=? 2 then 1 else 0 in
   (y, m, d))%Z.
Definition RFC3339 (t : Z) : string :=
  let secs := (t / 1000000)%Z in
  let '(y, m, d) := civil_date (secs / 86400)%Z in
  let s := (secs mod 86400)%Z in
  pad 4 y +:+ "-" +:+ pad 2 m +:+ "-" +:+ pad 2 d +:+ "T" +:+ pad 2 (s / 3600)%Z +:+ ":"
  +:+ pad 2 ((s / 60) mod 60)%Z +:+ ":" +:+ pad 2 (s mod 60)%Z +:+ "Z".
Example RFC3339_examples :
  (RFC3339 0, RFC3339 1709210096000000, RFC3339 4102444799999999)
  = ("1970-01-01T00:00:00Z", "2024-02-29T12:34:56Z", "2099-12-31T23:59:59Z").
Proof. vm_compute. reflexivity. Qed.

(** Go's [<] on strings: bytewise lexicographic. *)
Definition str_ltb (s t : string) : bool := String.ltb s t.

(** ** Lemmas *)

Lemma list_string_list l :
  String.list_ascii_of_string (String.string_of_list_ascii l) = l.
Proof. apply String.list_ascii_of_string_of_list_ascii. Qed.
Lemma string_list_string s :
  String.string_of_list_ascii (String.list_ascii_of_string s) = s.
Proof. apply String.string_of_list_ascii_of_string. Qed.

(** A text with no white space at either end. *)
Definition trimmed_left (l : text) : Prop :=
  match l with [] => True | c :: _ => is_space c = false end.

Lemma trim_left_trimmed l : trimmed_left (trim_left l).
Proof. induction l as [|c l IH]; simpl; [done|]. by destruct (is_space c) eqn:?. Qed.
Lemma trim_left_id l : trimmed_left l → trim_left l = l.
Proof. destruct l as [|c l]; simpl; [done|]. by intros ->. Qed.
Lemma trim_left_suffix l : ∃ k, l = k ++ trim_left l.
Proof.
  induction l as [|c l [k IH]]; simpl; [by exists []|].
  destruct (is_space c); [|by exists []]. exists (c :: k). simpl. by f_equal.
Qed.
(** Dropping trailing white space keeps the first byte. *)
Lemma trim_left_rev_trimmed l :
  trimmed_left l → trimmed_left (rev (trim_left (rev l))).
Proof.
  destruct (trim_left_suffix (rev l)) as [k Hk].
  apply (f_equal (@rev ascii)) in Hk. rewrite rev_involutive, rev_app_distr in Hk.
  rewrite Hk at 1. destruct (rev (trim_left (rev l))); simpl; [done|done].
Qed.

Lemma trim_trim l : trim (trim l) = trim l.
Proof.
  unfold trim.
  rewrite (trim_left_id (rev (trim_left (rev (trim_left l)))))
    by apply trim_left_rev_trimmed, trim_left_trimmed.
  rewrite rev_involutive. by rewrite (trim_left_id _ (trim_left_trimmed _)).
Qed.

Lemma TrimSpace_idemp s : TrimSpace (TrimSpace s) = TrimSpace s.
Proof. unfold TrimSpace. by rewrite list_string_list, trim_trim. Qed.

Lemma lower_char_idemp c : lower_char (lower_char c) = lower_char c.
Proof. destruct c as [[] [] [] [] [] [] [] []]; reflexivity. Qed.
Lemma ToLower_idemp s : ToLower (ToLower s) = ToLower s.
Proof. induction s; simpl; [done|]. by rewrite lower_char_idemp, IHs. Qed.

Lemma is_space_lower c : is_space (lower_char c) = is_space c.
Proof. destruct c as [[] [] [] [] [] [] [] []]; reflexivity. Qed.

Lemma ToLower_list s :
  String.list_ascii_of_string (ToLower s) = lower_char <$> String.list_ascii_of_string s.
Proof. induction s; simpl; [done|]. by rewrite IHs. Qed.
Lemma string_of_lower l :
  String.string_of_list_ascii (lower_char <$> l) = ToLower (String.string_of_list_ascii l).
Proof. induction l; simpl; [done|]. by rewrite <-IHl. Qed.

Lemma trim_left_lower l : trim_left (lower_char <$> l) = lower_char <$> trim_left l.
Proof. induction l as [|c l IH]; simpl; [done|]. rewrite is_space_lower. by destruct (is_space c). Qed.
Lemma rev_fmap {A B} (f : A → B) (l : list A) : rev (f <$> l) = f <$> rev l.
Proof. symmetry. apply map_rev. Qed.
Lemma trim_lower l : trim (lower_char <$> l) = lower_char <$> trim l.
Proof. unfold trim. by rewrite trim_left_lower, rev_fmap, trim_left_lower, rev_fmap. Qed.

(** Trimming and lowering commute, so a normalised keyword is stable. *)
Lemma TrimSpace_ToLower s : TrimSpace (ToLower s) = ToLower (TrimSpace s).
Proof. unfold TrimSpace. by rewrite ToLower_list, trim_lower, string_of_lower. Qed.

Lemma EqualFold_refl s : EqualFold s s = true.
Proof. apply String.eqb_refl. Qed.

(** A text that starts with a visible character is not blank. *)
Lemma trim_left_snoc l c : is_space c = false → trim_left (l ++ [c]) ≠ [].
Proof.
  intros Hc. induction l as [|d l IH]; simpl; [by rewrite Hc|]. by destruct (is_space d).
Qed.
Lemma TrimSpace_visible c s : is_space c = false → TrimSpace (String c s) ≠ "".
Proof.
  intros Hc. unfold TrimSpace, trim. simpl. rewrite Hc. simpl.
  pose proof (trim_left_snoc (rev (String.list_ascii_of_string s)) c Hc) as Hn.
  destruct (trim_left _) as [|x l]; [done|]. simpl.
  destruct (rev l ++ [x]) as [|y l'] eqn:Hr; [|done]. by destruct (rev l).
Qed.

(** [%q] of [fmt]: [strconv.Quote] on ASCII. *)
Definition hex_digit (n : N) : ascii :=
  ascii_of_N (if (n <? 10)%N then (48 + n)%N else (87 + n)%N).
Definition quote_char (c : ascii) : text :=
  let n := N_of_ascii c in
  let bs := "\"%char in
  if (n =? 34)%N || (n =? 92)%N then [bs; c]
  else if (n =? 7)%N then [bs; "a"%char] else if (n =? 8)%N then [bs; "b"%char]
  else if (n =? 9)%N then [bs; "t"%char] else if (n =? 10)%N then [bs; "n"%char]
  else if (n =? 11)%N then [bs; "v"%char] else if (n =? 12)%N then [bs; "f"%char]
  else if (n =? 13)%N then [bs; "r"%char]
  else if (n <? 32)%N || (n =? 127)%N then [bs; "x"%char; hex_digit (n / 16); hex_digit (n mod 16)]
  else [c].
Definition Quote (s : string) : string :=
  String.string_of_list_ascii
    ("034"%char :: (String.list_ascii_of_string s ≫= quote_char) ++ ["034"%char]).

(** ** Decimal texts *)

Definition is_digit (c : ascii) : Prop := is_Some (digit_val c).

Lemma pretty_char_val x : (x < 10)%N → digit_val (pretty_N_char x) = Some (Z.of_N x).
Proof.
  intros Hx. assert (x = 0 ∨ x = 1 ∨ x = 2 ∨ x = 3 ∨ x = 4 ∨ x = 5 ∨ x = 6 ∨ x = 7 ∨ x = 8 ∨ x = 9)%N
    as H by lia. by repeat destruct H as [-> | H]; subst.
Qed.

Lemma pretty_N_go_digits x s :
  digits_val 0 (String.list_ascii_of_string (pretty_N_go x s)) =
  digits_val (Z.of_N x) (String.list_ascii_of_string s) ∧
  (Forall is_digit (String.list_ascii_of_string s) →
   Forall is_digit (String.list_ascii_of_string (pretty_N_go x s))).
Proof.
  revert s. induction (N.lt_wf_0 x) as [x _ IH]. intros s.
  destruct (decide (x = 0)%N) as [-> | Hx]; [by rewrite pretty_N_go_0|].
  rewrite pretty_N_go_step by lia.
  assert (x mod 10 < 10)%N as Hm by (apply N.mod_lt; lia).
  pose proof (N.div_mod x 10 ltac:(done)) as Hdm.
  destruct (IH (x / 10)%N ltac:(apply N.div_lt; lia) (String (pretty_N_char (x mod 10)) s)) as [IH1 IH2].
  split.
  - rewrite IH1. simpl. rewrite pretty_char_val by done. simpl. f_equal. lia.
  - intros Hs. apply IH2. simpl. constructor; [|done].
    unfold is_digit. rewrite pretty_char_val by done. by eexists.
Qed.

Lemma Itoa_nonneg n : (0 ≤ n)%Z → Itoa n = pretty (Z.to_N n).
Proof. intros Hn. unfold Itoa, pretty, pretty_Z. by destruct n. Qed.

Lemma Itoa_digits n : (0 ≤ n)%Z → Forall is_digit (String.list_ascii_of_string (Itoa n)).
Proof.
  intros Hn. rewrite Itoa_nonneg by done. unfold pretty, pretty_N.
  case_decide; [apply Forall_cons; split; [by eexists|by apply Forall_nil]|].
  apply pretty_N_go_digits. by apply Forall_nil.
Qed.
Lemma Itoa_val n : (0 ≤ n)%Z → digits_val 0 (String.list_ascii_of_string (Itoa n)) = Some n.
Proof.
  intros Hn. rewrite Itoa_nonneg by done. unfold pretty, pretty_N.
  case_decide as H0.
  - simpl. f_equal. lia.
  - rewrite (proj1 (pretty_N_go_digits _ _)). simpl. f_equal. lia.
Qed.
Lemma Itoa_cons n : (0 ≤ n)%Z → ∃ c l, String.list_ascii_of_string (Itoa n) = c :: l ∧ is_digit c.
Proof.
  intros Hn. pose proof (Itoa_digits n Hn) as Hd. pose proof (Itoa_val n Hn) as Hv.
  destruct (String.list_ascii_of_string (Itoa n)) as [|c l] eqn:Hl.
  - exfalso. apply (f_equal String.string_of_list_ascii) in Hl.
    rewrite string_list_string in Hl. rewrite Itoa_nonneg in Hl by done.
    unfold pretty, pretty_N in Hl. case_decide; [done|].
    rewrite pretty_N_go_step in Hl by lia.
    apply (f_equal String.list_ascii_of_string) in Hl. simpl in Hl.
    pose proof (proj1 (pretty_N_go_digits (Z.to_N n / 10)
      (String (pretty_N_char (Z.to_N n mod 10)) ""))) as Hx.
    rewrite Hl in Hx. simpl in Hx.
    rewrite pretty_char_val in Hx by (apply N.mod_lt; lia). simpl in Hx. simplify_eq.
    pose proof (N.div_mod (Z.to_N n) 10 ltac:(done)). lia.
  - inversion Hd; subst. by eexists _, _.
Qed.

(** A digit is no white space, sign or separator. *)
Lemma digit_other c : is_digit c →
  is_space c = false ∧ c ≠ "-"%char ∧ c ≠ "+"%char ∧ c ≠ ","%char ∧ c ≠ ":"%char ∧
  lower_char c = c ∧ c ≠ "a"%char.
Proof.
  intros [d Hd]. destruct c as [[] [] [] [] [] [] [] []]; try discriminate Hd; done.
Qed.

(** [strconv.Atoi] reads back what [%d] prints. *)
Lemma Atoi_Itoa n : (0 ≤ n < 2 ^ 63)%Z → Atoi (Itoa n) = Some n.
Proof.
  intros [Hn Hmax]. unfold Atoi, atoi_text.
  pose proof (Itoa_val n Hn) as Hv. destruct (Itoa_cons n Hn) as (c & l & Hl & Hc).
  rewrite Hl in *. apply digit_other in Hc as (_ & Hm & Hp & _).
  assert (unsigned_val (c :: l) = Some n) as Hu by done.
  assert (int64_range n = true) as Hr.
  { unfold int64_range. apply andb_true_iff. split; [apply Z.leb_le; lia|by apply Z.ltb_lt]. }
  destruct c as [[] [] [] [] [] [] [] []]; try done; rewrite Hu; simpl; by rewrite Hr.
Qed.

(** ** Texts without a separator *)

Lemma trim_left_nospace l : Forall (λ c, is_space c = false) l → trim_left l = l.
Proof. destruct l; [done|]. inversion 1 as [|? ? Hs]; subst. simpl. by rewrite Hs. Qed.
Lemma TrimSpace_nospace s :
  Forall (λ c, is_space c = false) (String.list_ascii_of_string s) → TrimSpace s = s.
Proof.
  intros H. unfold TrimSpace, trim. rewrite (trim_left_nospace _ H), trim_left_nospace.
  - by rewrite rev_involutive, string_list_string.
  - by apply Forall_rev.
Qed.
Lemma list_ascii_app s t :
  String.list_ascii_of_string (s +:+ t) = String.list_ascii_of_string s ++ String.list_ascii_of_string t.
Proof. induction s; simpl; [done|]. by f_equal. Qed.
Lemma trim_id l : trimmed_left l → trimmed_left (rev l) → trim l = l.
Proof. intros H1 H2. unfold trim. by rewrite (trim_left_id l H1), trim_left_id, rev_involutive. Qed.
(** A text that starts and ends with no white space is not trimmed. *)
Lemma TrimSpace_app_nospace p s :
  match p with EmptyString => False | String c _ => is_space c = false end →
  s ≠ "" → Forall (λ c, is_space c = false) (String.list_ascii_of_string s) →
  TrimSpace (p +:+ s) = p +:+ s.
Proof.
  intros Hp Hne Hs. unfold TrimSpace. rewrite trim_id; [apply string_list_string|by destruct p|].
  rewrite list_ascii_app, rev_app_distr. apply Forall_rev in Hs.
  destruct (rev (String.list_ascii_of_string s)) as [|c l] eqn:Hr; [|by inversion Hs].
  apply (f_equal (@rev ascii)) in Hr. rewrite rev_involutive in Hr. by destruct s.
Qed.
Lemma split_char_none sep l : Forall (λ c, c ≠ sep) l → split_char sep l = [l].
Proof.
  induction 1 as [|c l Hc _ IH]; simpl; [done|]. by rewrite (proj2 (Ascii.eqb_neq c sep) Hc), IH.
Qed.
Lemma cut_char_none sep l : Forall (λ c, c ≠ sep) l → cut_char sep l = None.
Proof.
  induction 1 as [|c l Hc _ IH]; simpl; [done|]. by rewrite (proj2 (Ascii.eqb_neq c sep) Hc), IH.
Qed.
Lemma cut_char_at sep l l' : Forall (λ c, c ≠ sep) l → cut_char sep (l ++ sep :: l') = Some (l, l').
Proof.
  induction 1 as [|c l Hc _ IH]; simpl; [by rewrite Ascii.eqb_refl|].
  by rewrite (proj2 (Ascii.eqb_neq c sep) Hc), IH.
Qed.
Lemma split_char_at sep l l' :
  Forall (λ c, c ≠ sep) l → split_char sep (l ++ sep :: l') = l :: split_char sep l'.
Proof.
  induction 1 as [|c l Hc _ IH]; simpl; [by rewrite Ascii.eqb_refl|].
  by rewrite (proj2 (Ascii.eqb_neq c sep) Hc), IH.
Qed.
