(* ===== verification/Netip.v ===== *)
(** * net/netip

    The part of Go's [net/netip] the controller uses: parsing an address and
    a prefix, masking, and containment.  An address is its family and its
    value as a 32-bit or 128-bit unsigned integer. *)

From S2P Require Import Prelude GoStr.

Open Scope Z_scope.

Record Addr := mkAddr { addr_is4 : bool; addr_val : Z; addr_zone : string }.
Record Prefix := mkPrefix { prefix_addr : Addr; prefix_bits : Z }.

#[export] Instance Addr_eq_dec : EqDecision Addr.
Proof. solve_decision. Defined.
#[export] Instance Prefix_eq_dec : EqDecision Prefix.
Proof. solve_decision. Defined.

Definition Is4 (a : Addr) : bool := addr_is4 a.
Definition BitLen (a : Addr) : Z := if addr_is4 a then 32 else 128.

(** ** Parsing *)

(** One decimal field of a dotted address: no leading zero, at most 255. *)
Definition parse_octet (l : text) : option Z :=
  match l with
  | ["0"%char] => Some 0
  | "0"%char :: _ => None
  | _ => v ← unsigned_val l; if v <=? 255 then Some v else None
  end.
Definition parse_v4_fields (l : text) : option (Z * Z * Z * Z) :=
  match split_char "."%char l with
  | [a; b; c; d] =>
    a ← parse_octet a; b ← parse_octet b; c ← parse_octet c; d ← parse_octet d;
    Some (a, b, c, d)
  | _ => None
  end.
Definition v4_val (f : Z * Z * Z * Z) : Z :=
  let '(a, b, c, d) := f in ((a * 256 + b) * 256 + c) * 256 + d.
Definition parseIPv4 (l : text) : option Addr :=
  f ← parse_v4_fields l; Some (mkAddr true (v4_val f) "").

Definition hex_val (c : ascii) : option Z :=
  let n := N_of_ascii c in
  if (48 <=? n)%N && (n <=? 57)%N then Some (Z.of_N n - 48)
  else if (97 <=? n)%N && (n <=? 102)%N then Some (Z.of_N n - 87)
  else if (65 <=? n)%N && (n <=? 70)%N then Some (Z.of_N n - 55)
  else None.
(** The longest run of hexadecimal digits: its length, its value, the rest. *)
Fixpoint hex_run (n : nat) (acc : Z) (l : text) : nat * Z * text :=
  match l with
  | c :: l' => match hex_val c with
               | Some d => hex_run (S n) (acc * 16 + d) l'
               | None => (n, acc, l)
               end
  | [] => (n, acc, [])
  end.

(** The loop of [parseIPv6] over 16-bit groups.  [fuel] is the number of
    groups that still fit; the loop of the library ends after eight. *)
Fixpoint v6_groups (fuel : nat) (gs : list Z) (ell : option nat) (s : text)
    : option (list Z * option nat * text) :=
  match fuel with
  | O => Some (gs, ell, s)
  | S fuel' =>
    let '(n, v, rest) := hex_run 0 0 s in
    if (Nat.eqb n 0 || Nat.ltb 4 n)%nat then None else
    match rest with
    | "."%char :: _ =>
      if (match ell with None => negb (Nat.eqb (length gs) 6) | Some _ => false end
          || Nat.ltb 6 (length gs))%nat then None else
      '(a, b, c, d) ← parse_v4_fields s;
      Some (gs ++ [a * 256 + b; c * 256 + d], ell, [])
    | [] => Some (gs ++ [v], ell, [])
    | ":"%char :: [] => None
    | ":"%char :: ":"%char :: r =>
      match ell with
      | Some _ => None
      | None =>
        match r with
        | [] => Some (gs ++ [v], Some (S (length gs)), [])
        | _ => v6_groups fuel' (gs ++ [v]) (Some (S (length gs))) r
        end
      end
    | ":"%char :: r => v6_groups fuel' (gs ++ [v]) ell r
    | _ => None
    end
  end.
Definition groups_val (gs : list Z) : Z := foldl (λ acc g, acc * 65536 + g) 0 gs.
Definition v6_finish (gs : list Z) (ell : option nat) : option Z :=
  if (length gs <? 8)%nat then
    match ell with
    | None => None
    | Some k => Some (groups_val (take k gs ++ replicate (8 - length gs) 0 ++ drop k gs))
    end
  else match ell with None => Some (groups_val gs) | Some _ => None end.
Definition v6_addr (zone : string) (read : option (list Z * option nat * text)) : option Addr :=
  '(gs, ell, rest) ← read;
  match rest with
  | [] => v ← v6_finish gs ell; Some (mkAddr false v zone)
  | _ => None
  end.
(** What follows a leading ["::"]. *)
Definition after_ellipsis (s : text) : option text :=
  match s with
  | ":"%char :: ":"%char :: s' => Some s'
  | _ => None
  end.
Definition v6_text (zone : string) (s : text) : option Addr :=
  match after_ellipsis s with
  | Some [] => Some (mkAddr false 0 zone)
  | Some s' => v6_addr zone (v6_groups 8 [] (Some 0%nat) s')
  | None => v6_addr zone (v6_groups 8 [] None s)
  end.
Definition parseIPv6 (l : text) : option Addr :=
  match cut_char "%"%char l with
  | None => v6_text "" l
  | Some (_, []) => None
  | Some (s, z) => v6_text (String.string_of_list_ascii z) s
  end.

(** The first ['.'], [':'] or ['%'] decides the family. *)
Fixpoint parse_addr_kind (l : text) : option ascii :=
  match l with
  | [] => None
  | c :: l' =>
    match c with
    | "."%char | ":"%char | "%"%char => Some c
    | _ => parse_addr_kind l'
    end
  end.
Definition parse_addr (l : text) : option Addr :=
  match parse_addr_kind l with
  | Some "."%char => parseIPv4 l
  | Some ":"%char => parseIPv6 l
  | _ => None
  end.
Definition ParseAddr (s : string) : option Addr :=
  parse_addr (String.list_ascii_of_string s).

Definition withoutZone (a : Addr) : Addr := mkAddr (addr_is4 a) (addr_val a) "".
(** [netip.PrefixFrom]; the controller only passes the address's own width. *)
Definition PrefixFrom (a : Addr) (bits : Z) : Prefix := mkPrefix (withoutZone a) bits.

Definition parse_bits (l : text) : option Z :=
  match l with
  | c :: _ :: _ =>
    let n := N_of_ascii c in
    if (n <? 49)%N || (57 <? n)%N then None else atoi_text l
  | _ => atoi_text l
  end.
Definition ParsePrefix (s : string) : option Prefix :=
  '(a, b) ← cut_last "/"%char (String.list_ascii_of_string s);
  addr ← parse_addr a;
  if negb (addr_is4 addr) && negb (addr_zone addr =? "")%string then None else
  bits ← parse_bits b;
  if (bits <? 0) || (BitLen addr <? bits) then None else Some (PrefixFrom addr bits).

(** ** Prefixes *)

Definition host_bits (p : Prefix) : Z := BitLen (prefix_addr p) - prefix_bits p.

(** [Prefix.Masked]: the host bits cleared. *)
Definition Masked (p : Prefix) : Prefix :=
  let a := prefix_addr p in
  mkPrefix (mkAddr (addr_is4 a)
    (Z.shiftl (Z.shiftr (addr_val a) (host_bits p)) (host_bits p)) (addr_zone a))
    (prefix_bits p).

(** [Prefix.Contains]: same family, no zone, and no difference above the host
    bits. *)
Definition Contains (p : Prefix) (a : Addr) : bool :=
  (addr_zone a =? "")%string && Bool.eqb (addr_is4 (prefix_addr p)) (addr_is4 a) &&
  (Z.shiftr (Z.lxor (addr_val a) (addr_val (prefix_addr p))) (host_bits p) =? 0).

(** A prefix as [ParsePrefix] and [PrefixFrom] build it: no zone, and a length
    within the family's width. *)
Definition prefix_wf (p : Prefix) : Prop :=
  addr_zone (prefix_addr p) = "" ∧ 0 ≤ prefix_bits p ≤ BitLen (prefix_addr p).

Lemma host_bits_nonneg p : prefix_wf p → 0 ≤ host_bits p.
Proof. unfold prefix_wf, host_bits. lia. Qed.

Lemma lxor_shiftr_0 a b k : 0 ≤ k →
  Z.shiftr (Z.lxor a b) k = 0 ↔ Z.shiftr a k = Z.shiftr b k.
Proof. intros. rewrite Z.shiftr_lxor. apply Z.lxor_eq_0_iff. Qed.

(** Containment is agreement of the network part. *)
Lemma Contains_spec p a : prefix_wf p →
  Contains p a = true ↔
  addr_zone a = "" ∧ addr_is4 (prefix_addr p) = addr_is4 a ∧
  Z.shiftr (addr_val a) (host_bits p) = Z.shiftr (addr_val (prefix_addr p)) (host_bits p).
Proof.
  intros Hwf. unfold Contains.
  rewrite !andb_true_iff, String.eqb_eq, eqb_true_iff, Z.eqb_eq,
    lxor_shiftr_0 by by apply host_bits_nonneg.
  tauto.
Qed.

Lemma shiftr_eq_le a b k j : 0 ≤ k ≤ j →
  Z.shiftr a k = Z.shiftr b k → Z.shiftr a j = Z.shiftr b j.
Proof.
  intros [Hk Hj] Heq. replace j with (k + (j - k)) by lia.
  rewrite <-!Z.shiftr_shiftr by lia. by rewrite Heq.
Qed.

Lemma Contains_self p : prefix_wf p → Contains p (prefix_addr p) = true.
Proof. intros Hwf. apply Contains_spec; [done|]. by destruct Hwf. Qed.

(** Two prefixes that share an address are nested: the one with fewer bits
    contains everything the other contains. *)
Lemma Contains_nested p q a b :
  prefix_wf p → prefix_wf q → prefix_bits p ≤ prefix_bits q →
  Contains p a = true → Contains q a = true → Contains q b = true →
  Contains p b = true.
Proof.
  intros Hp Hq Hbits. rewrite !Contains_spec by done.
  intros (Ha & Hpa & Hav) (_ & Hqa & Hqv) (Hb & Hqb & Hbv).
  split_and!; [done|congruence|]. rewrite <-Hav.
  assert (host_bits q ≤ host_bits p).
  { unfold host_bits, BitLen. rewrite Hpa, Hqa. lia. }
  apply (shiftr_eq_le _ _ (host_bits q)); [|congruence].
  split; [by apply host_bits_nonneg|done].
Qed.

(** Values in range. *)
Definition addr_in_range (a : Addr) : Prop := 0 ≤ addr_val a < 2 ^ BitLen a.

(** A strictly longer prefix inside a shorter one leaves out an address: its
    base address with the lowest network bit flipped. *)
Lemma longer_prefix_proper p q :
  prefix_wf p → prefix_wf q → addr_is4 (prefix_addr p) = addr_is4 (prefix_addr q) →
  prefix_bits p < prefix_bits q → Contains p (prefix_addr q) = true →
  ∃ a, Contains p a = true ∧ Contains q a = false.
Proof.
  intros Hp Hq Hfam Hbits Hin.
  pose proof (host_bits_nonneg _ Hq) as Hhq.
  exists (mkAddr (addr_is4 (prefix_addr q))
    (Z.lxor (addr_val (prefix_addr q)) (Z.shiftl 1 (host_bits q))) "").
  split.
  - apply Contains_spec in Hin as (_ & _ & Hv); [|done].
    apply Contains_spec; [done|]. simpl. split_and!; [done|done|].
    rewrite Z.shiftr_lxor, Hv.
    assert (Z.shiftr (Z.shiftl 1 (host_bits q)) (host_bits p) = 0) as ->;
      [|apply Z.lxor_0_r].
    rewrite Z.shiftl_1_l. apply Z.shiftr_eq_0; [lia|].
    rewrite Z.log2_pow2 by lia. unfold host_bits, BitLen in *. rewrite Hfam. lia.
  - destruct (Contains q _) eqn:Hc; [|done].
    apply Contains_spec in Hc as (_ & _ & Hv); [|done]. simpl in Hv.
    rewrite Z.shiftr_lxor, Z.shiftr_shiftl_l, Z.sub_diag, Z.shiftl_0_r in Hv by lia.
    apply (f_equal (λ z, Z.lxor z (Z.shiftr (addr_val (prefix_addr q)) (host_bits q)))) in Hv.
    rewrite Z.lxor_nilpotent, Z.lxor_comm, <-Z.lxor_assoc, Z.lxor_nilpotent, Z.lxor_0_l in Hv.
    done.
Qed.

Lemma Masked_wf p : prefix_wf p → prefix_wf (Masked p).
Proof. by destruct p as [[] ?]. Qed.

Lemma host_bits_Masked p : host_bits (Masked p) = host_bits p.
Proof. reflexivity. Qed.

(** Masking changes the base address, not the set of addresses. *)
Lemma Contains_Masked p a : prefix_wf p → Contains (Masked p) a = Contains p a.
Proof.
  intros Hwf. apply eq_bool_prop_intro. rewrite !Is_true_true.
  rewrite !Contains_spec by (done || by apply Masked_wf).
  rewrite host_bits_Masked. simpl.
  pose proof (host_bits_nonneg _ Hwf).
  rewrite Z.shiftr_shiftl_l, Z.sub_diag, Z.shiftl_0_r by lia. done.
Qed.

Lemma PrefixFrom_full_wf a : prefix_wf (PrefixFrom a (BitLen a)).
Proof. unfold prefix_wf, PrefixFrom, BitLen. simpl. destruct (addr_is4 a); lia || done. Qed.

Lemma ParsePrefix_wf s p : ParsePrefix s = Some p → prefix_wf p.
Proof.
  unfold ParsePrefix. intros H.
  apply bind_Some in H as ([a b] & _ & H).
  apply bind_Some in H as (addr & _ & H). case_match; [done|].
  apply bind_Some in H as (bits & _ & H). case_match eqn:Hr; [done|].
  simplify_eq/=. bools. split; [done|]. unfold BitLen in *. simpl. lia.
Qed.

(** ** Package net *)

(** [net.ParseIP]: an address without a zone. *)
Definition ParseIP (s : string) : option Addr :=
  a ← ParseAddr s; if (addr_zone a =? "")%string then Some a else None.
(** [IP.To4]: the four bytes of an IPv4 or IPv4-mapped address. *)
Definition To4 (a : Addr) : option Z :=
  if addr_is4 a then Some (addr_val a) else
  if addr_val a / 2 ^ 32 =? 65535 then Some (addr_val a mod 2 ^ 32) else None.

(** [net.ParseCIDR]: the network, its address and mask as [IPNet.Contains]
    takes them, an IPv4-mapped network as the IPv4 network it stands for. *)
Definition unmapped (p : Prefix) : Prefix :=
  if addr_is4 (prefix_addr p) then p else
  match To4 (prefix_addr p) with
  | Some v => mkPrefix (mkAddr true v "") (prefix_bits p - 96)
  | None => p
  end.
Definition ParseCIDR (s : string) : option Prefix :=
  '(a, m) ← cut_char "/"%char (String.list_ascii_of_string s);
  addr ← parse_addr a;
  if negb (addr_zone addr =? "")%string then None else
  n ← unsigned_val m;
  if BitLen addr <? n then None else Some (unmapped (Masked (PrefixFrom addr n))).

(** A parsed IPv4 address has four octets. *)
Lemma digits_val_nonneg acc l v : 0 ≤ acc → digits_val acc l = Some v → 0 ≤ v.
Proof.
  revert acc. induction l as [|c l IH]; simpl; intros acc Hacc; [by intros [= <-]|].
  unfold digit_val. case_match eqn:Hc; [|done]. simpl. intros Hv.
  apply andb_true_iff in Hc as [Hc%N.leb_le _]. eapply IH; [|exact Hv]. lia.
Qed.
Lemma parse_octet_range l v : parse_octet l = Some v → 0 ≤ v ≤ 255.
Proof.
  intros Hv. assert (v = 0 ∨ (unsigned_val l ≫= λ v, if v <=? 255 then Some v else None) = Some v)
    as [-> |H].
  { unfold parse_octet in Hv. repeat case_match; simplify_eq; auto. }
  - lia.
  - apply bind_Some in H as (w & Hw & H). case_match eqn:Hl; simplify_eq. bools.
    split; [|done]. unfold unsigned_val in Hw. destruct l; [done|]. by eapply digits_val_nonneg in Hw.
Qed.
Lemma parseIPv4_range l a : parseIPv4 l = Some a → addr_is4 a = true ∧ 0 ≤ addr_val a < 2 ^ 32.
Proof.
  unfold parseIPv4, parse_v4_fields. intros (f & Hf & [= <-])%bind_Some. split; [done|].
  destruct (split_char _ l) as [|? [|? [|? [|? [|? ?]]]]]; try done.
  apply bind_Some in Hf as (o1 & H1%parse_octet_range & Hf).
  apply bind_Some in Hf as (o2 & H2%parse_octet_range & Hf).
  apply bind_Some in Hf as (o3 & H3%parse_octet_range & Hf).
  apply bind_Some in Hf as (o4 & H4%parse_octet_range & [= <-]). simpl. lia.
Qed.
Lemma v6_addr_family zone r a : v6_addr zone r = Some a → addr_is4 a = false.
Proof.
  intros ([[gs ell] rest] & _ & Hr)%bind_Some. destruct rest; [|done].
  by apply bind_Some in Hr as (v & _ & [= <-]).
Qed.
Lemma v6_text_cases zone s :
  v6_text zone s = Some (mkAddr false 0 zone) ∨
  ∃ ell s', v6_text zone s = v6_addr zone (v6_groups 8 [] ell s').
Proof.
  unfold v6_text. repeat (case_match; try (right; by eexists _, _)). by left.
Qed.
Lemma parseIPv6_family l a : parseIPv6 l = Some a → addr_is4 a = false.
Proof.
  unfold parseIPv6. intros H.
  assert (∃ zone s, v6_text zone s = Some a) as (zone & s & Hs)
    by (repeat case_match; by eauto).
  destruct (v6_text_cases zone s) as [Hz|(ell & s' & Hz)]; rewrite Hz in Hs.
  - by simplify_eq.
  - by apply v6_addr_family in Hs.
Qed.
Lemma To4_range s a v : ParseAddr s = Some a → To4 a = Some v → 0 ≤ v < 2 ^ 32.
Proof.
  intros Ha Hv. unfold To4 in Hv. destruct (addr_is4 a) eqn:H4.
  - simplify_eq. unfold ParseAddr, parse_addr in Ha. repeat case_match; try done.
    all: first [by apply parseIPv4_range in Ha as [_ ?]|by apply parseIPv6_family in Ha; congruence].
  - case_match; simplify_eq. apply Z.mod_pos_bound. lia.
Qed.

Lemma unmapped_wf p : prefix_wf p → prefix_wf (unmapped (Masked p)).
Proof.
  intros Hwf. pose proof (Masked_wf _ Hwf) as Hm. unfold unmapped.
  destruct (addr_is4 (prefix_addr (Masked p))) eqn:H4; [done|].
  unfold To4. rewrite H4. destruct (_ / 2 ^ 32 =? 65535) eqn:Hv; [|done]. bools. split; [done|].
  destruct Hwf as [_ [Hb0 Hb]]. cbn [Masked prefix_addr prefix_bits addr_is4 addr_val] in *.
  unfold BitLen in *. rewrite H4 in Hb. cbn [addr_is4].
  split; [|lia]. destruct (decide (96 ≤ prefix_bits p)); [lia|]. exfalso.
  unfold host_bits, BitLen in Hv. rewrite H4 in Hv.
  rewrite Z.shiftl_mul_pow2 in Hv by lia.
  replace (128 - prefix_bits p) with (32 + (1 + (95 - prefix_bits p))) in Hv at 2 by lia.
  rewrite (Z.pow_add_r 2 32), (Z.pow_add_r 2 1) in Hv by lia.
  set (x := Z.shiftr _ _) in Hv. set (y := 2 ^ (95 - prefix_bits p)) in Hv.
  replace (x * (2 ^ 32 * (2 ^ 1 * y))) with ((x * y * 2) * 2 ^ 32) in Hv by ring.
  rewrite Z.div_mul in Hv by lia. lia.
Qed.
Lemma ParseCIDR_wf s p : ParseCIDR s = Some p → prefix_wf p.
Proof.
  unfold ParseCIDR. intros ([a m] & _ & H)%bind_Some.
  apply bind_Some in H as (addr & _ & H). case_match; [done|].
  apply bind_Some in H as (n & Hn & H). case_match eqn:Hb; [done|]. injection H as <-.
  apply unmapped_wf. bools. split; [done|]. unfold BitLen in *. simpl. split; [|done].
  unfold unsigned_val in Hn. destruct m; [done|]. by eapply digits_val_nonneg in Hn.
Qed.

Example parse_cidr_mapped : ParseCIDR "::ffff:10.1.2.3/104" = ParseCIDR "10.0.0.0/08".
Proof. reflexivity. Qed.
Example parse_cidr_v4 : ParseCIDR "10.1.2.3/8" = Some (mkPrefix (mkAddr true 167772160 "") 8).
Proof. reflexivity. Qed.

Example parse_v4 : ParsePrefix "10.1.2.3/8" =
  Some (mkPrefix (mkAddr true 167838211 "") 8).
Proof. reflexivity. Qed.
Example parse_v6 : ParseAddr "2001:db8::1" =
  Some (mkAddr false 42540766411282592856903984951653826561 "").
Proof. reflexivity. Qed.
Example parse_v6_embedded : ParseAddr "::ffff:1.2.3.4" =
  Some (mkAddr false 281470698652420 "").
Proof. reflexivity. Qed.
Example parse_bad :
  (ParsePrefix "10.0.0.0/33", ParsePrefix "10.0.0.0/08", ParseAddr "10.0.00.1",
   ParseAddr "1::2::3", ParseAddr "1:2:3:4:5:6:7::8")
  = (None, None, None, None, None).
Proof. reflexivity. Qed.

(** ** Printing *)

(** Byte [i] of a 32-bit address, counted from the most significant. *)
Definition octet (v i : Z) : Z := Z.land (Z.shiftr v (24 - 8 * i)) 255.
(** [net.IP.String] of four bytes. *)
Definition v4_string (v : Z) : string :=
  Itoa (octet v 0) +:+ "." +:+ Itoa (octet v 1) +:+ "." +:+ Itoa (octet v 2) +:+ "."
  +:+ Itoa (octet v 3).

Lemma octet_div v i : 0 ≤ i ≤ 3 → octet v i = (v / 2 ^ (24 - 8 * i)) mod 256.
Proof.
  intros Hi. unfold octet. rewrite Z.shiftr_div_pow2 by lia.
  change 255 with (Z.ones 8). by rewrite Z.land_ones.
Qed.
Lemma octet_range v i : 0 ≤ i ≤ 3 → 0 ≤ octet v i < 256.
Proof. intros Hi. rewrite octet_div by done. apply Z.mod_pos_bound. lia. Qed.
Lemma v4_val_octets v : 0 ≤ v < 2 ^ 32 →
  v4_val (octet v 0, octet v 1, octet v 2, octet v 3) = v.
Proof.
  intros Hv. unfold v4_val. rewrite !octet_div by lia. simpl Z.sub. simpl Z.mul.
  change (2 ^ 24) with 16777216. change (2 ^ 16) with 65536. change (2 ^ 8) with 256.
  change (2 ^ 0) with 1. Z.div_mod_to_equations. lia.
Qed.

Lemma parse_octet_Itoa n : 0 ≤ n < 256 →
  parse_octet (String.list_ascii_of_string (Itoa n)) = Some n.
Proof.
  intros Hn. assert (Forall (λ n, parse_octet (String.list_ascii_of_string (Itoa n)) = Some n)
                       (seqZ 0 256)) as Hall by (apply (bool_decide_unpack _); vm_compute; exact I).
  rewrite Forall_forall in Hall. apply Hall. apply elem_of_seqZ. lia.
Qed.

Definition octet_text (n : Z) : text := String.list_ascii_of_string (Itoa n).
Lemma octet_text_no_dot n : 0 ≤ n → Forall (λ c, c ≠ "."%char) (octet_text n).
Proof.
  intros Hn. eapply Forall_impl; [by apply Itoa_digits|]. by intros c [d Hd] ->.
Qed.
Lemma parse_addr_kind_dot l l' :
  Forall is_digit l → parse_addr_kind (l ++ "."%char :: l') = Some "."%char.
Proof.
  induction 1 as [|c l [d Hd] _ IH]; [done|]. simpl. rewrite IH.
  destruct c as [[] [] [] [] [] [] [] []]; try discriminate Hd; done.
Qed.

(** The parser reads back what the printer writes. *)
Lemma ParseAddr_v4_string v : 0 ≤ v < 2 ^ 32 → ParseAddr (v4_string v) = Some (mkAddr true v "").
Proof.
  intros Hv. unfold ParseAddr, v4_string. rewrite !list_ascii_app. fold (octet_text (octet v 0)).
  fold (octet_text (octet v 1)) (octet_text (octet v 2)) (octet_text (octet v 3)).
  pose proof (octet_range v 0 ltac:(lia)). pose proof (octet_range v 1 ltac:(lia)).
  pose proof (octet_range v 2 ltac:(lia)). pose proof (octet_range v 3 ltac:(lia)).
  change (String.list_ascii_of_string ".") with ["."%char]. cbn [app].
  unfold parse_addr. rewrite parse_addr_kind_dot by (apply Itoa_digits; lia).
  unfold parseIPv4, parse_v4_fields.
  rewrite !split_char_at, split_char_none by (apply octet_text_no_dot; lia).
  unfold octet_text. rewrite !parse_octet_Itoa by lia. cbn [mbind option_bind].
  by rewrite v4_val_octets.
Qed.
