(* ===== verification/NetipText.v ===== *)
(** * Texts of addresses and prefixes

    [Addr.String] and [Prefix.String] of Go's [net/netip], and that the parsers
    read back what they write: a prefix is determined by its text. *)

From S2P Require Import Prelude GoStr Netip.

Open Scope Z_scope.

(** ** Printing *)

Definition hex_char (d : Z) : ascii := hex_digit (Z.to_N d).
(** [appendHex] of a 16-bit group: lower case, no leading zero. *)
Definition hex_text (v : Z) : text :=
  (if 4096 <=? v then [hex_char (Z.shiftr v 12)] else [])
  ++ (if 256 <=? v then [hex_char (Z.land (Z.shiftr v 8) 15)] else [])
  ++ (if 16 <=? v then [hex_char (Z.land (Z.shiftr v 4) 15)] else [])
  ++ [hex_char (Z.land v 15)].

(** The last [n] 16-bit groups of a value, the most significant first. *)
Fixpoint groups_of (n : nat) (v : Z) : list Z :=
  match n with
  | O => []
  | S n' => groups_of n' (v / 65536) ++ [v mod 65536]
  end.

(** The number of zero groups at the front. *)
Fixpoint zeros (gs : list Z) : nat :=
  match gs with
  | g :: gs' => if g =? 0 then S (zeros gs') else O
  | [] => O
  end.
(** The first longest run of at least two zero groups: its start and length. *)
Fixpoint zero_run_from (i : nat) (best : nat * nat) (gs : list Z) : nat * nat :=
  match gs with
  | [] => best
  | _ :: gs' =>
    let l := zeros gs in
    zero_run_from (S i) (if (2 <=? l)%nat && (best.2 <? l)%nat then (i, l) else best) gs'
  end.
Definition zero_run (gs : list Z) : nat * nat := zero_run_from 0 (0, 0)%nat gs.

Fixpoint join_groups (gs : list Z) : text :=
  match gs with
  | [] => []
  | [g] => hex_text g
  | g :: gs' => hex_text g ++ ":"%char :: join_groups gs'
  end.
(** [string6]: the groups, with the run of zeros as ["::"]. *)
Definition text6 (gs : list Z) : text :=
  let '(i, l) := zero_run gs in
  if (l =? 0)%nat then join_groups gs
  else join_groups (take i gs) ++ ":"%char :: ":"%char :: join_groups (drop (i + l) gs).

Definition zone_text (zone : string) : string := if (zone =? "")%string then "" else "%" +:+ zone.
Definition Is4In6 (a : Addr) : bool := negb (addr_is4 a) && (addr_val a / 2 ^ 32 =? 65535).
Definition Addr_String (a : Addr) : string :=
  if addr_is4 a then v4_string (addr_val a) else
  (if Is4In6 a then "::ffff:" +:+ v4_string (addr_val a mod 2 ^ 32)
   else String.string_of_list_ascii (text6 (groups_of 8 (addr_val a))))
  +:+ zone_text (addr_zone a).
Definition Prefix_String (p : Prefix) : string :=
  Addr_String (prefix_addr p) +:+ "/" +:+ Itoa (prefix_bits p).

Example Prefix_String_examples :
  (λ s, Prefix_String <$> ParsePrefix s) <$>
    ["10.1.2.3/8"; "2001:DB8:0:0:1:0:0:0/64"; "::/0"; "0:0:1::/48"; "::ffff:10.0.0.1/128";
     "1:0:2:3:4:5:6:7/128"; "fe80::1/10"] =
  Some <$> ["10.1.2.3/8"; "2001:db8:0:0:1::/64"; "::/0"; "0:0:1::/48"; "::ffff:10.0.0.1/128";
     "1:0:2:3:4:5:6:7/128"; "fe80::1/10"].
Proof. vm_compute. reflexivity. Qed.

(** ** Groups *)

Definition in16 (g : Z) : Prop := 0 ≤ g < 65536.

Lemma groups_of_length n v : length (groups_of n v) = n.
Proof. revert v. induction n; intros v; simpl; [done|]. rewrite length_app, IHn. simpl. lia. Qed.
Lemma groups_of_in16 n v : Forall in16 (groups_of n v).
Proof.
  revert v. induction n; intros v; simpl; [constructor|]. apply Forall_app_2; [done|].
  constructor; [|constructor]. apply Z.mod_pos_bound. lia.
Qed.
Lemma groups_val_snoc gs g : groups_val (gs ++ [g]) = groups_val gs * 65536 + g.
Proof. unfold groups_val. by rewrite foldl_app. Qed.
Lemma groups_val_of n v : 0 ≤ v < 65536 ^ Z.of_nat n → groups_val (groups_of n v) = v.
Proof.
  revert v. induction n as [|n IH]; intros v Hv; simpl; [simpl in Hv; unfold groups_val; simpl; lia|].
  rewrite groups_val_snoc, IH.
  - pose proof (Z.div_mod v 65536 ltac:(done)). lia.
  - rewrite Nat2Z.inj_succ, Z.pow_succ_r in Hv by lia. split; [apply Z.div_pos; lia|].
    apply Z.div_lt_upper_bound; lia.
Qed.
Lemma groups_val_range gs : Forall in16 gs → 0 ≤ groups_val gs < 65536 ^ Z.of_nat (length gs).
Proof.
  induction gs as [|g gs IH] using rev_ind; intros Hg; [done|].
  apply Forall_app in Hg as [Hg Hx]. inversion Hx; subst. specialize (IH Hg).
  rewrite groups_val_snoc, length_app, Nat2Z.inj_add, Z.pow_add_r by lia.
  change (65536 ^ Z.of_nat (length [g])) with 65536. unfold in16 in *. lia.
Qed.

Lemma zeros_run gs : (zeros gs ≤ length gs)%nat ∧ take (zeros gs) gs = replicate (zeros gs) 0.
Proof.
  induction gs as [|g gs [IHl IHt]]; simpl; [done|]. destruct (Z.eqb_spec g 0) as [-> |]; simpl; [|by split; [lia|]].
  split; [lia|]. by rewrite IHt.
Qed.

(** A run inside a list of groups. *)
Definition run_of (gs : list Z) (r : nat * nat) : Prop :=
  r.2 ≠ 0%nat → (r.1 + r.2 ≤ length gs)%nat ∧ take r.2 (drop r.1 gs) = replicate r.2 0.
Lemma zero_run_from_ok pre gs best :
  run_of (pre ++ gs) best → run_of (pre ++ gs) (zero_run_from (length pre) best gs).
Proof.
  revert pre best. induction gs as [|g gs IH]; intros pre best Hb; cbn [zero_run_from]; [done|].
  cbv zeta. replace (pre ++ g :: gs) with ((pre ++ [g]) ++ gs) in * by by rewrite <-app_assoc.
  replace (S (length pre)) with (length (pre ++ [g])) by (rewrite length_app; simpl; lia).
  apply IH. case_match; [|done]. intros _. cbn [fst snd].
  rewrite <-app_assoc. cbn [app]. pose proof (zeros_run (g :: gs)) as [Hl Ht].
  rewrite drop_app_length, length_app. split; [lia|done].
Qed.
Lemma zero_run_ok gs : run_of gs (zero_run gs).
Proof. apply (zero_run_from_ok []). done. Qed.

(** A run of zeros taken out and put back. *)
Lemma run_split gs i l : (i + l ≤ length gs)%nat → take l (drop i gs) = replicate l 0 →
  gs = take i gs ++ replicate l 0 ++ drop (i + l) gs.
Proof. intros Hl Ht. by rewrite <-Ht, <-drop_drop, !take_drop. Qed.

(** ** Reading groups back *)

Definition no_hex_head (l : text) : Prop :=
  match l with c :: _ => hex_val c = None | [] => True end.

Lemma hex_run_app n acc l n' v rest :
  no_hex_head rest → hex_run n acc l = (n', v, []) → hex_run n acc (l ++ rest) = (n', v, rest).
Proof.
  intros Hr. revert n acc. induction l as [|c l IH]; simpl; intros n acc Hl.
  - simplify_eq. destruct rest as [|c rest]; simpl in *; [done|]. by rewrite Hr.
  - destruct (hex_val c); [by apply IH|done].
Qed.
Lemma hex_run_all n acc l n' v :
  hex_run n acc l = (n', v, []) → Forall (λ c, is_Some (hex_val c)) l.
Proof.
  revert n acc. induction l as [|c l IH]; simpl; intros n acc Hl; [constructor|].
  destruct (hex_val c) eqn:Hc; [|done]. constructor; [by eexists|by eapply IH].
Qed.

(** Each of the 65536 groups is read back, from one to four digits. *)
Definition hex_read (v : Z) : bool :=
  match hex_run 0 0 (hex_text v) with
  | (n, v', []) => (v' =? v) && negb (Nat.eqb n 0) && negb (Nat.ltb 4 n)
  | _ => false
  end.
Lemma hex_read_all :
  forallb (λ hi, forallb (λ lo, hex_read (hi * 256 + lo)) (seqZ 0 256)) (seqZ 0 256) = true.
Proof. vm_compute. reflexivity. Qed.
Lemma hex_text_read v : in16 v → ∃ n, hex_run 0 0 (hex_text v) = (n, v, []) ∧
  (Nat.eqb n 0 || Nat.ltb 4 n)%nat = false.
Proof.
  intros Hv. pose proof hex_read_all as Hall. rewrite forallb_forall in Hall. unfold in16 in Hv.
  assert (hex_read v = true) as Hr.
  { pose proof (Z.div_mod v 256 ltac:(done)). pose proof (Z.mod_pos_bound v 256 ltac:(lia)).
    specialize (Hall (v / 256)). rewrite forallb_forall in Hall.
    replace v with (v / 256 * 256 + v mod 256) by lia.
    apply Hall; apply list_elem_of_In, elem_of_seqZ; lia. }
  unfold hex_read in Hr. destruct (hex_run 0 0 (hex_text v)) as [[n v'] [|]]; [|done]. bools.
  subst. exists n. split; [done|]. apply orb_false_iff. by split.
Qed.
Lemma hex_text_hex v : in16 v → Forall (λ c, is_Some (hex_val c)) (hex_text v).
Proof. intros (n & Hr & _)%hex_text_read. by eapply hex_run_all. Qed.
Lemma hex_text_cons v : in16 v → ∃ c l, hex_text v = c :: l ∧ is_Some (hex_val c).
Proof.
  intros Hv. pose proof (hex_text_hex v Hv) as Hf. destruct (hex_text_read v Hv) as (n & Hr & Hn).
  destruct (hex_text v); simpl in *; [by simplify_eq|]. inversion Hf; subst. by eexists _, _.
Qed.

Lemma join_groups_cons g h gs :
  join_groups (g :: h :: gs) = hex_text g ++ ":"%char :: join_groups (h :: gs).
Proof. done. Qed.
Lemma join_groups_head gs : gs ≠ [] → Forall in16 gs →
  ∃ c l, join_groups gs = c :: l ∧ is_Some (hex_val c).
Proof.
  destruct gs as [|g [|h gs]]; [done|..]; intros _ Hf; inversion Hf; subst.
  - by apply hex_text_cons.
  - rewrite join_groups_cons. destruct (hex_text_cons g) as (c & l & -> & Hc); [done|].
    by eexists _, _.
Qed.

(** One turn of the loop on a group that another one follows. *)
Lemma v6_groups_next fuel gs ell v c rest :
  in16 v → is_Some (hex_val c) →
  v6_groups (S fuel) gs ell (hex_text v ++ ":"%char :: c :: rest)
  = v6_groups fuel (gs ++ [v]) ell (c :: rest).
Proof.
  intros (n & Hr & Hn)%hex_text_read [d Hd]. cbn [v6_groups].
  rewrite (hex_run_app _ _ _ _ _ (":"%char :: c :: rest) eq_refl Hr), Hn.
  destruct c as [[] [] [] [] [] [] [] []]; try discriminate Hd; reflexivity.
Qed.
Lemma v6_groups_join gs fuel acc ell :
  gs ≠ [] → Forall in16 gs → (length gs ≤ fuel)%nat →
  v6_groups fuel acc ell (join_groups gs) = Some (acc ++ gs, ell, []).
Proof.
  revert fuel acc. induction gs as [|g gs IH]; intros fuel acc Hne Hf Hl; [done|].
  inversion Hf as [|? ? Hg Hgs]; subst. destruct fuel as [|fuel]; simpl in Hl; [lia|].
  destruct gs as [|h gs].
  - simpl. destruct (hex_text_read g Hg) as (n & -> & ->). done.
  - rewrite join_groups_cons. destruct (join_groups_head (h :: gs)) as (c & l & Hj & Hc); [done..|].
    rewrite Hj, v6_groups_next, <-Hj, IH by (done || lia). by rewrite <-app_assoc.
Qed.
Lemma v6_groups_ellipsis gs fuel acc r :
  gs ≠ [] → Forall in16 gs → (length gs ≤ fuel)%nat →
  v6_groups fuel acc None (join_groups gs ++ ":"%char :: ":"%char :: r)
  = match r with
    | [] => Some (acc ++ gs, Some (length (acc ++ gs)), [])
    | _ => v6_groups (fuel - length gs) (acc ++ gs) (Some (length (acc ++ gs))) r
    end.
Proof.
  revert fuel acc. induction gs as [|g gs IH]; intros fuel acc Hne Hf Hl; [done|].
  inversion Hf as [|? ? Hg Hgs]; subst. destruct fuel as [|fuel]; simpl in Hl; [lia|].
  destruct gs as [|h gs].
  - cbn [join_groups v6_groups]. destruct (hex_text_read g Hg) as (n & Hr & Hn).
    rewrite (hex_run_app _ _ _ _ _ (":"%char :: ":"%char :: r) eq_refl Hr), Hn.
    rewrite length_app, Nat.add_1_r. cbn [length Nat.sub].
    by rewrite Nat.sub_0_r.
  - rewrite join_groups_cons, <-app_assoc. cbn [app].
    destruct (join_groups_head (h :: gs)) as (c & l & Hj & Hc); [done..|].
    rewrite Hj. cbn [app]. rewrite v6_groups_next by done.
    change (c :: l ++ ":"%char :: ":"%char :: r) with ((c :: l) ++ ":"%char :: ":"%char :: r).
    rewrite <-Hj, IH by (done || lia). rewrite <-!app_assoc. done.
Qed.

Lemma v6_finish_run gs i l : length gs = 8%nat → (2 ≤ l)%nat → (i + l ≤ 8)%nat →
  take l (drop i gs) = replicate l 0 →
  v6_finish (take i gs ++ drop (i + l) gs) (Some i) = Some (groups_val gs).
Proof.
  intros Hlen Hl Hil Hz. unfold v6_finish.
  assert (length (take i gs) = i) as Hi by (rewrite length_take; lia).
  rewrite length_app, Hi, length_drop, Hlen.
  rewrite (proj2 (Nat.ltb_lt _ _)) by lia. rewrite take_app_le, take_ge by lia.
  rewrite drop_app_ge, Hi, Nat.sub_diag, drop_0 by lia.
  replace (8 - (i + (8 - (i + l))))%nat with l by lia.
  by rewrite <-run_split by (lia || done).
Qed.

(** ** Reading addresses back *)

(** The characters of an address without a zone. *)
Definition addr_char (c : ascii) : Prop := is_Some (hex_val c) ∨ c = ":"%char ∨ c = "."%char.
Lemma addr_char_other c : addr_char c → c ≠ "%"%char ∧ c ≠ "/"%char.
Proof. by intros [[d Hd]|[-> | ->]]; [destruct c as [[] [] [] [] [] [] [] []]|..]. Qed.
Lemma hex_addr_char c : is_Some (hex_val c) → addr_char c.
Proof. by left. Qed.
Lemma join_groups_chars gs : Forall in16 gs → Forall addr_char (join_groups gs).
Proof.
  induction gs as [|g [|h gs] IH]; intros Hf; inversion Hf; subst; [constructor|..].
  - eapply Forall_impl; [by apply hex_text_hex|apply hex_addr_char].
  - rewrite join_groups_cons. apply Forall_app_2.
    + eapply Forall_impl; [by apply hex_text_hex|apply hex_addr_char].
    + constructor; [by right; left|by apply IH].
Qed.
Lemma text6_chars gs : Forall in16 gs → Forall addr_char (text6 gs).
Proof.
  intros Hf. unfold text6. destruct (zero_run gs) as [i l]. case_match; [by apply join_groups_chars|].
  apply Forall_app_2; [by apply join_groups_chars, Forall_take|].
  do 2 (constructor; [by right; left|]). by apply join_groups_chars, Forall_drop.
Qed.

Lemma no_percent l : Forall addr_char l → cut_char "%"%char l = None.
Proof. intros H. apply cut_char_none. eapply Forall_impl; [exact H|]. intros c Hc. by apply addr_char_other. Qed.
#[local] Opaque v6_addr.
Lemma parseIPv6_plain c s : Forall addr_char (c :: s) → is_Some (hex_val c) →
  parseIPv6 (c :: s) = v6_addr "" (v6_groups 8 [] None (c :: s)).
Proof.
  intros Hf [d Hd]. unfold parseIPv6. rewrite no_percent by done.
  destruct c as [[] [] [] [] [] [] [] []]; try discriminate Hd; exact eq_refl.
Qed.
Lemma parseIPv6_ellipsis c s : Forall addr_char (c :: s) →
  parseIPv6 (":"%char :: ":"%char :: c :: s) = v6_addr "" (v6_groups 8 [] (Some 0%nat) (c :: s)).
Proof.
  intros Hf. unfold parseIPv6. rewrite no_percent; [exact eq_refl|].
  do 2 (constructor; [by right; left|]). exact Hf.
Qed.

#[local] Transparent v6_addr.

Lemma zero_run_from_size i best gs :
  (best.2 = 0 ∨ 2 ≤ best.2)%nat →
  ((zero_run_from i best gs).2 = 0 ∨ 2 ≤ (zero_run_from i best gs).2)%nat.
Proof.
  revert i best. induction gs as [|g gs IH]; intros i best Hb; cbn [zero_run_from]; [done|].
  cbv zeta. apply IH. case_match eqn:Hc; [|done]. right.
  apply andb_true_iff in Hc as [Hc%Nat.leb_le _]. done.
Qed.

Lemma parseIPv6_text6 gs : length gs = 8%nat → Forall in16 gs →
  parseIPv6 (text6 gs) = Some (mkAddr false (groups_val gs) "").
Proof.
  intros Hlen Hf. pose proof (text6_chars gs Hf) as Hc. unfold text6 in *.
  pose proof (zero_run_ok gs) as Hr. pose proof (zero_run_from_size 0 (0, 0)%nat gs (or_introl eq_refl)) as Hs.
  unfold zero_run in *. destruct (zero_run_from _ _ gs) as [i l]. cbn [fst snd] in *.
  assert (gs ≠ []) as Hne by by destruct gs.
  revert Hc. destruct (Nat.eqb_spec l 0) as [Hl|Hl]; intros Hc.
  - destruct (join_groups_head gs) as (c & s & Hj & Hx); [done..|].
    rewrite Hj in *. rewrite parseIPv6_plain, <-Hj, v6_groups_join by (done || lia).
    unfold v6_addr. cbn [mbind option_bind app]. unfold v6_finish. by rewrite Hlen.
  - destruct (Hr Hl) as [Hil Hz]. cbn [fst snd] in Hil, Hz. rewrite Hlen in Hil. assert (2 ≤ l)%nat as H2 by lia.
    pose proof (v6_finish_run gs i l Hlen H2 Hil Hz) as Hfin.
    assert (∀ k, Forall in16 (drop k gs)) as Hd by (intros; by apply Forall_drop).
    assert (length (drop (i + l) gs) = 8 - (i + l))%nat as Hdl by (by rewrite length_drop, Hlen).
    assert (length (take i gs) = i) as Htl by (rewrite length_take, Hlen; lia).
    destruct (decide (i = 0%nat)) as [-> |Hi].
    + change (take 0 gs) with (@nil Z) in *. cbn [join_groups app Nat.add] in *.
      destruct (decide (drop l gs = [])) as [He|He].
      * rewrite He in *. cbn [join_groups length] in *. assert (l = 8)%nat as -> by lia.
        assert (gs = replicate 8 0) as -> by (by rewrite <-Hz, drop_0, take_ge by lia).
        reflexivity.
      * destruct (join_groups_head (drop l gs)) as (c & s & Hj & Hx); [done..|].
        rewrite Hj in *. inversion Hc as [|? ? _ Hc']; subst. inversion Hc' as [|? ? _ Hc'']; subst.
        rewrite parseIPv6_ellipsis, <-Hj, v6_groups_join by (done || lia).
        unfold v6_addr. cbn [mbind option_bind app]. by rewrite Hfin.
    + assert (take i gs ≠ []) as Ht by (intros He; rewrite He in Htl; simpl in Htl; lia).
      destruct (join_groups_head (take i gs)) as (c & s & Hj & Hx); [done|by apply Forall_take|].
      rewrite Hj in *. cbn [app] in *. rewrite parseIPv6_plain by done.
      change (c :: s ++ ?r) with ((c :: s) ++ r).
      rewrite <-Hj, v6_groups_ellipsis by (done || (by apply Forall_take) || lia).
      cbn [app]. rewrite Htl. destruct (drop (i + l) gs) as [|g gs'] eqn:He.
      * cbn [join_groups]. unfold v6_addr. cbn [mbind option_bind].
        rewrite app_nil_r in Hfin. by rewrite Hfin.
      * destruct (join_groups_head (g :: gs')) as (c' & s' & Hj' & Hx'); [done|by rewrite <-He|].
        rewrite Hj'. rewrite <-Hj', v6_groups_join by (done || (by rewrite <-He) || lia).
        unfold v6_addr. cbn [mbind option_bind]. by rewrite Hfin.
Qed.

(** The family of a text is decided by its first separator. *)
Lemma parse_addr_kind_colon l l' :
  Forall (λ c, is_Some (hex_val c)) l → parse_addr_kind (l ++ ":"%char :: l') = Some ":"%char.
Proof.
  induction 1 as [|c l [d Hd] _ IH]; [done|]. simpl. rewrite IH.
  destruct c as [[] [] [] [] [] [] [] []]; try discriminate Hd; done.
Qed.
Lemma join_groups_colon g h gs r : in16 g →
  parse_addr_kind (join_groups (g :: h :: gs) ++ r) = Some ":"%char.
Proof.
  intros Hg. rewrite join_groups_cons, <-app_assoc. cbn [app].
  by apply parse_addr_kind_colon, hex_text_hex.
Qed.
Lemma text6_colon gs : length gs = 8%nat → Forall in16 gs →
  parse_addr_kind (text6 gs) = Some ":"%char.
Proof.
  intros Hlen Hf. unfold text6. destruct (zero_run gs) as [i l]. case_match.
  - destruct gs as [|g [|h gs]]; try done. inversion Hf; subst.
    rewrite <-(app_nil_r (join_groups _)). by apply join_groups_colon.
  - pose proof (Forall_take in16 i _ Hf) as Ht. destruct (take i gs) as [|g [|h gs']]; [done|..].
    + inversion Ht; subst. by apply parse_addr_kind_colon, hex_text_hex.
    + inversion Ht; subst. by apply join_groups_colon.
Qed.

(** A dotted address after ["::ffff:"]. *)
Lemma digit_hex c : is_digit c → is_Some (hex_val c).
Proof. intros [d Hd]. by destruct c as [[] [] [] [] [] [] [] []]. Qed.
Lemma digits_hex_run n acc l : Forall is_digit l → ∃ n' v, hex_run n acc l = (n', v, []) ∧
  n' = (n + length l)%nat.
Proof.
  intros Hf. revert n acc. induction Hf as [|c l Hc _ IH]; intros n acc; simpl.
  - eexists _, _. split; [done|lia].
  - apply digit_hex in Hc as [d ->]. destruct (IH (S n) (acc * 16 + d)) as (n' & v & -> & ->).
    eexists _, _. split; [done|lia].
Qed.
Lemma octet_text_length n : 0 ≤ n < 256 → (1 ≤ length (octet_text n) ≤ 3)%nat.
Proof.
  intros Hn. assert (Forall (λ n, 1 ≤ length (octet_text n) ≤ 3)%nat (seqZ 0 256)) as Hall
    by (apply (bool_decide_unpack _); vm_compute; exact I).
  rewrite Forall_forall in Hall. apply Hall. apply elem_of_seqZ. lia.
Qed.

Definition v4_text (v : Z) : text := String.list_ascii_of_string (v4_string v).
Lemma v4_text_eq v : v4_text v = octet_text (octet v 0) ++ "."%char :: octet_text (octet v 1)
  ++ "."%char :: octet_text (octet v 2) ++ "."%char :: octet_text (octet v 3).
Proof. unfold v4_text, v4_string. rewrite !list_ascii_app. reflexivity. Qed.
Lemma v4_text_fields v :
  parse_v4_fields (v4_text v) = Some (octet v 0, octet v 1, octet v 2, octet v 3).
Proof.
  pose proof (octet_range v 0 ltac:(lia)). pose proof (octet_range v 1 ltac:(lia)).
  pose proof (octet_range v 2 ltac:(lia)). pose proof (octet_range v 3 ltac:(lia)).
  rewrite v4_text_eq. unfold parse_v4_fields.
  rewrite !split_char_at, split_char_none by (apply octet_text_no_dot; lia).
  unfold octet_text. by rewrite !parse_octet_Itoa by lia.
Qed.
Lemma v4_text_chars v : Forall addr_char (v4_text v).
Proof.
  assert (∀ i, 0 ≤ i ≤ 3 → Forall addr_char (octet_text (octet v i))) as Ho.
  { intros i Hi. pose proof (octet_range v i Hi). eapply Forall_impl; [apply Itoa_digits; lia|].
    intros c Hc. by left; apply digit_hex. }
  rewrite v4_text_eq. repeat (apply Forall_app_2; [apply Ho; lia|constructor; [by right; right|]]).
  apply Ho. lia.
Qed.
Lemma v6_groups_v4 fuel gs v : (length gs ≤ 6)%nat →
  v6_groups (S fuel) gs (Some 0%nat) (v4_text v)
  = Some (gs ++ [octet v 0 * 256 + octet v 1; octet v 2 * 256 + octet v 3], Some 0%nat, []).
Proof.
  intros Hl. pose proof (octet_range v 0 ltac:(lia)) as Ho.
  destruct (digits_hex_run 0 0 (octet_text (octet v 0))) as (n & w & Hr & ->).
  { apply Itoa_digits. lia. }
  cbn [v6_groups]. rewrite v4_text_fields. rewrite v4_text_eq at 1.
  rewrite (hex_run_app _ _ _ _ _ ("."%char :: _) eq_refl Hr).
  pose proof (octet_text_length _ Ho) as Hlen. cbn [Nat.add].
  rewrite (proj2 (Nat.eqb_neq _ _)), (proj2 (Nat.ltb_ge 4 _)) by lia.
  rewrite (proj2 (Nat.ltb_ge 6 _)) by lia. done.
Qed.

(** The fields of an IPv4-mapped address. *)
Lemma mapped_val w : 0 ≤ w < 2 ^ 32 →
  v6_finish [65535; octet w 0 * 256 + octet w 1; octet w 2 * 256 + octet w 3] (Some 0%nat)
  = Some (65535 * 2 ^ 32 + w).
Proof.
  intros Hw. unfold v6_finish. cbn. f_equal. pose proof (v4_val_octets w Hw) as Hv.
  unfold v4_val in Hv. change (2 ^ 32) with 4294967296. lia.
Qed.
Lemma parseIPv6_mapped w : 0 ≤ w < 2 ^ 32 →
  parse_addr (String.list_ascii_of_string "::ffff:" ++ v4_text w)
  = Some (mkAddr false (65535 * 2 ^ 32 + w) "").
Proof.
  intros Hw. change (String.list_ascii_of_string "::ffff:")
    with (":"%char :: ":"%char :: "f"%char :: hex_text 4095 ++ [":"%char]).
  rewrite <-!app_comm_cons. unfold parse_addr. cbn [parse_addr_kind].
  rewrite parseIPv6_ellipsis.
  2: { apply (Forall_app_2 _ (hex_text 65535)); [by eapply Forall_impl, hex_addr_char; apply hex_text_hex|].
       constructor; [by right; left|apply v4_text_chars]. }
  change ("f"%char :: (hex_text 4095 ++ [":"%char]) ++ v4_text w)
    with (hex_text 65535 ++ ":"%char :: v4_text w).
  assert (∃ c l, v4_text w = c :: l ∧ is_Some (hex_val c)) as (c & l & Hcl & Hc).
  { rewrite v4_text_eq. destruct (Itoa_cons (octet w 0)) as (c & l & Hl & Hc).
    - by apply octet_range.
    - unfold octet_text at 1. rewrite Hl. apply digit_hex in Hc. by eexists _, _. }
  rewrite Hcl, v6_groups_next, <-Hcl, v6_groups_v4 by (done || simpl; lia).
  unfold v6_addr. cbn [mbind option_bind app]. by rewrite mapped_val.
Qed.

Lemma ParseAddr_String a : addr_in_range a → addr_zone a = "" → ParseAddr (Addr_String a) = Some a.
Proof.
  destruct a as [is4 v zone]. unfold addr_in_range, BitLen, Addr_String, Is4In6.
  cbn [addr_is4 addr_val addr_zone]. intros Hv ->. change (zone_text "") with "".
  assert (∀ s, s +:+ "" = s) as Happ.
  { intros s. rewrite <-(string_list_string (s +:+ "")), list_ascii_app. simpl.
    by rewrite app_nil_r, string_list_string. }
  destruct is4; [by apply ParseAddr_v4_string|]. rewrite Happ. cbn [negb andb]. unfold ParseAddr.
  destruct (Z.eqb_spec (v / 2 ^ 32) 65535) as [Hm|Hm].
  - rewrite list_ascii_app. fold (v4_text (v mod 2 ^ 32)).
    pose proof (Z.mod_pos_bound v (2 ^ 32) ltac:(lia)). rewrite parseIPv6_mapped by done.
    rewrite <-Hm. pose proof (Z.div_mod v (2 ^ 32) ltac:(lia)). do 2 f_equal. lia.
  - rewrite list_string_list. unfold parse_addr.
    rewrite text6_colon, parseIPv6_text6 by (apply groups_of_length || apply groups_of_in16).
    by rewrite groups_val_of.
Qed.

(** ** Addresses stay in range *)

Lemma hex_val_range c d : hex_val c = Some d → 0 ≤ d < 16.
Proof. destruct c as [[] [] [] [] [] [] [] []]; intros [= <-]; lia. Qed.
Lemma hex_run_range n acc l n' v r :
  0 ≤ acc < 16 ^ Z.of_nat n → hex_run n acc l = (n', v, r) → 0 ≤ v < 16 ^ Z.of_nat n'.
Proof.
  revert n acc. induction l as [|c l IH]; simpl; intros n acc Ha H; [by simplify_eq|].
  destruct (hex_val c) as [d|] eqn:Hc; [|by simplify_eq]. eapply IH; [|exact H].
  apply hex_val_range in Hc. rewrite Nat2Z.inj_succ, Z.pow_succ_r by lia. lia.
Qed.
Lemma hex_group l n v r :
  hex_run 0 0 l = (n, v, r) → (Nat.eqb n 0 || Nat.ltb 4 n)%nat = false → in16 v.
Proof.
  intros Hr%hex_run_range [_ Hn%Nat.ltb_ge]%orb_false_iff; [|done]. unfold in16.
  assert (16 ^ Z.of_nat n ≤ 16 ^ 4) by (apply Z.pow_le_mono_r; lia).
  change (16 ^ 4) with 65536 in *. lia.
Qed.
Lemma fields_range l a b c d :
  parse_v4_fields l = Some (a, b, c, d) →
  0 ≤ a ≤ 255 ∧ 0 ≤ b ≤ 255 ∧ 0 ≤ c ≤ 255 ∧ 0 ≤ d ≤ 255.
Proof.
  unfold parse_v4_fields. destruct (split_char _ l) as [|? [|? [|? [|? [|? ?]]]]]; try done.
  intros (o1 & H1%parse_octet_range & (o2 & H2%parse_octet_range & (o3 & H3%parse_octet_range &
    (o4 & H4%parse_octet_range & [= <- <- <- <-])%bind_Some)%bind_Some)%bind_Some)%bind_Some. done.
Qed.

Lemma v6_groups_ok fuel gs ell s gs' ell' r :
  Forall in16 gs → (length gs + fuel ≤ 8)%nat →
  v6_groups fuel gs ell s = Some (gs', ell', r) → Forall in16 gs' ∧ (length gs' ≤ 8)%nat.
Proof.
  revert gs ell s. induction fuel as [|fuel IH]; intros gs ell s Hg Hl H; cbn [v6_groups] in H.
  { simplify_eq. split; [done|lia]. }
  destruct (hex_run 0 0 s) as [[n v] rest] eqn:Hr. case_match eqn:Hn; [done|].
  pose proof (hex_group _ _ _ _ Hr Hn) as Hv.
  assert (Forall in16 (gs ++ [v]) ∧ (length (gs ++ [v]) = S (length gs))%nat) as [Hg' Hl'].
  { rewrite length_app. split; [by apply Forall_app_2, Forall_singleton|simpl; lia]. }
  assert (∀ ell s, v6_groups fuel (gs ++ [v]) ell s = Some (gs', ell', r) →
    Forall in16 gs' ∧ (length gs' ≤ 8)%nat) as Hnext by (intros; eapply IH; [done|lia|done]).
  repeat case_match; try done; try (by eapply Hnext); simplify_eq; try (split; [done|lia]).
  all: match goal with H : (_ ≫= _) = Some _ |- _ =>
    apply bind_Some in H as ([[[a b] c] d] & Hf%fields_range & [= <- _ _]) end.
  all: match goal with H : (_ || (6 <? _))%nat = false |- _ =>
    apply orb_false_iff in H as [_ H6%Nat.ltb_ge] end.
  all: rewrite length_app; split; [|simpl; lia].
  all: apply Forall_app_2; [done|]; unfold in16; repeat constructor; lia.
Qed.
Lemma v6_finish_range gs ell v :
  Forall in16 gs → (length gs ≤ 8)%nat → v6_finish gs ell = Some v → 0 ≤ v < 2 ^ 128.
Proof.
  intros Hg Hl H. assert (∃ gs8, v = groups_val gs8 ∧ Forall in16 gs8 ∧ length gs8 = 8%nat)
    as (gs8 & -> & Hf & H8).
  { unfold v6_finish in H. case_match eqn:Hlt.
    - apply Nat.ltb_lt in Hlt. destruct ell as [k|]; simplify_eq. eexists. split; [done|]. split.
      + apply Forall_app_2; [by apply Forall_take|]. apply Forall_app_2; [|by apply Forall_drop].
        apply Forall_replicate. by split.
      + rewrite !length_app, length_take, length_drop, length_replicate. lia.
    - apply Nat.ltb_ge in Hlt. destruct ell; simplify_eq. exists gs. split_and!; [done|done|lia]. }
  pose proof (groups_val_range gs8 Hf) as Hr. rewrite H8 in Hr. done.
Qed.

Lemma v6_addr_Some zone r a : v6_addr zone r = Some a →
  ∃ gs ell v, r = Some (gs, ell, []) ∧ v6_finish gs ell = Some v ∧ a = mkAddr false v zone.
Proof.
  intros ([[gs ell] rest] & -> & Hr)%bind_Some. destruct rest; [|done].
  apply bind_Some in Hr as (v & Hv & [= <-]). by eexists _, _, _.
Qed.
(** What the parsers return is an address of its family's width. *)
Lemma ParseAddr_range s a : ParseAddr s = Some a → addr_in_range a.
Proof.
  unfold ParseAddr, addr_in_range, BitLen. intros H.
  assert (parseIPv4 (String.list_ascii_of_string s) = Some a ∨
          parseIPv6 (String.list_ascii_of_string s) = Some a) as [H4|H6].
  { unfold parse_addr in H. repeat case_match; auto; done. }
  { by apply parseIPv4_range in H4 as [-> ?]. }
  rewrite (parseIPv6_family _ _ H6). unfold parseIPv6 in H6.
  assert (∃ zone t, v6_text zone t = Some a) as (zone & t & Ht)
    by (repeat case_match; by eauto).
  destruct (v6_text_cases zone t) as [Hz|(ell & s' & Hz)]; rewrite Hz in Ht; [by simplify_eq|].
  apply v6_addr_Some in Ht as (gs & ell' & v & Hg & Hv & ->).
  eapply v6_groups_ok in Hg as [Hg Hl]; [|constructor|done]. by eapply v6_finish_range in Hv.
Qed.

(** ** Networks *)

(** A prefix that holds no host bits, as [Masked] leaves it. *)
Definition network (p : Prefix) : Prop :=
  prefix_wf p ∧ addr_in_range (prefix_addr p) ∧ Masked p = p.

Lemma ParsePrefix_range s p : ParsePrefix s = Some p → addr_in_range (prefix_addr p).
Proof.
  unfold ParsePrefix. intros ([a b] & _ & H)%bind_Some. apply bind_Some in H as (addr & Ha & H).
  destruct (negb _ && negb _); [done|]. apply bind_Some in H as (bits & _ & H).
  destruct (_ || _); [done|]. injection H as <-. simpl.
  apply (ParseAddr_range (String.string_of_list_ascii a) addr). unfold ParseAddr.
  by rewrite list_string_list.
Qed.
Lemma Masked_network p : prefix_wf p → addr_in_range (prefix_addr p) → network (Masked p).
Proof.
  intros Hwf Hr. pose proof (host_bits_nonneg p Hwf) as Hh. split; [by apply Masked_wf|].
  unfold addr_in_range, Masked in *. cbn [prefix_addr addr_is4 addr_val prefix_bits addr_zone] in *.
  split.
  - change (BitLen (mkAddr _ _ _)) with (BitLen (prefix_addr p)).
    rewrite Z.shiftl_mul_pow2, Z.shiftr_div_pow2 by done.
    assert (0 < 2 ^ host_bits p) by (apply Z.pow_pos_nonneg; lia).
    pose proof (Z.mul_div_le (addr_val (prefix_addr p)) (2 ^ host_bits p) ltac:(done)).
    pose proof (Z.div_pos (addr_val (prefix_addr p)) (2 ^ host_bits p)). nia.
  - change (host_bits (mkPrefix (mkAddr _ _ _) _)) with (host_bits p).
    by rewrite Z.shiftr_shiftl_l, Z.sub_diag, Z.shiftl_0_r by done.
Qed.
Lemma PrefixFrom_full_network s a : ParseAddr s = Some a → network (PrefixFrom a (BitLen a)).
Proof.
  intros Ha%ParseAddr_range. assert (host_bits (PrefixFrom a (BitLen a)) = 0) as Hh.
  { unfold host_bits, PrefixFrom, withoutZone, BitLen. simpl. lia. }
  split; [apply PrefixFrom_full_wf|]. split; [done|]. unfold Masked. by rewrite Hh, Z.shiftr_0_r, Z.shiftl_0_r.
Qed.

(** ** Reading prefixes back *)

Lemma cut_last_at sep l r : Forall (λ c, c ≠ sep) r → cut_last sep (l ++ sep :: r) = Some (l, r).
Proof.
  intros Hr. unfold cut_last. rewrite rev_app_distr. simpl. rewrite <-app_assoc. simpl.
  rewrite cut_char_at by by apply Forall_rev. by rewrite !rev_involutive.
Qed.
Lemma parse_bits_Itoa n : 0 ≤ n ≤ 128 → parse_bits (String.list_ascii_of_string (Itoa n)) = Some n.
Proof.
  intros Hn. assert (Forall (λ n, parse_bits (String.list_ascii_of_string (Itoa n)) = Some n)
                       (seqZ 0 129)) as Hall by (apply (bool_decide_unpack _); vm_compute; exact I).
  rewrite Forall_forall in Hall. apply Hall. apply elem_of_seqZ. lia.
Qed.

(** [netip.ParsePrefix] reads back what [Prefix.String] writes. *)
Lemma ParsePrefix_String p : prefix_wf p → addr_in_range (prefix_addr p) →
  ParsePrefix (Prefix_String p) = Some p.
Proof.
  intros [Hz Hb] Hr. pose proof (ParseAddr_String _ Hr Hz) as Ha.
  assert (0 ≤ prefix_bits p ≤ 128) as Hb' by (unfold BitLen in Hb; destruct (addr_is4 _); lia).
  unfold ParsePrefix, Prefix_String. rewrite !list_ascii_app. cbn [String.list_ascii_of_string app].
  rewrite cut_last_at by (eapply Forall_impl; [apply Itoa_digits; lia|by intros c [d Hd] ->]).
  cbn [mbind option_bind]. unfold ParseAddr in Ha. rewrite Ha. cbn [mbind option_bind].
  rewrite Hz, andb_false_r, parse_bits_Itoa by done. cbn [mbind option_bind].
  rewrite (proj2 (Z.ltb_ge _ _)), (proj2 (Z.ltb_ge _ _)) by lia. cbn [orb].
  f_equal. destruct p as [[is4 v zone] b]. simpl in *. by subst.
Qed.
(** So different prefixes have different texts. *)
Lemma Prefix_String_inj p q : network p → network q → Prefix_String p = Prefix_String q → p = q.
Proof.
  intros (Hp & Hpr & _) (Hq & Hqr & _) Heq. apply (inj Some).
  by rewrite <-(ParsePrefix_String p), <-(ParsePrefix_String q), Heq.
Qed.
