(* ===== verification/Records.v ===== *)
(** * Policy records

    The Go structs of [pkg/controllerstorage/network_policy.go] and
    [pkg/controllerstorage/ip_groups.go].  A [uuid.UUID] is its canonical text,
    so [UUID.String] is the identity; a [uuid.NullUUID] is an option; a pointer
    that may be nil is an option; a [time.Time] is a number of microseconds.
    Fields that only the HTTP layer fills for display (statistics and delivery
    history) are left out: storage neither reads nor writes them. *)

From S2P Require Import Prelude GoStr.

Abbreviation UUID := string.
Definition uuid_Nil : UUID := "00000000-0000-0000-0000-000000000000".
Abbreviation NullUUID := (option UUID).

(** What the code relies on when it reads one identifier text both as it is and
    without the blanks around it, of [uuid.Parse] (github.com/google/uuid): the
    trimmed text may be refused where the text was read (the 38-byte form drops its
    first and last byte unseen, so a blank there passes for a brace), but when both
    are read they name the same identifier. *)
Definition trimmed_names_same (parse : string → option UUID) : Prop :=
  ∀ s id id', parse s = Some id → parse (TrimSpace s) = Some id' → id' = id.
Abbreviation Time := Z.

Record IPGroupMemberRecord := mkMember {
  m_ID : UUID;
  m_GroupID : UUID;
  m_CIDR : string;
  m_Note : string;
}.

Record IPGroupRecord := mkIPGroup {
  g_ID : UUID;
  g_TenantID : UUID;
  g_Name : string;
  g_Description : string;
  g_Kind : string;
  g_CreatedBy : option string;
  g_Members : list IPGroupMemberRecord;
  g_CreatedAt : Time;
  g_UpdatedAt : Time;
}.

Record QoSRuleRecord := mkQoS {
  q_ID : UUID;
  q_TenantID : UUID;
  q_NodeID : UUID;
  q_SrcCIDR : string;
  q_DstCIDR : string;
  q_GroupID : NullUUID;
  q_Group : option IPGroupRecord;
  q_SrcPort : Z;
  q_DstPort : Z;
  q_Protocol : Z;
  q_BandwidthMbps : Z;
  q_Direction : string;
  q_RateBps : Z;
  q_BurstBytes : Z;
  q_Priority : Z;
  q_Mode : string;
  q_Enabled : bool;
  q_Description : string;
  q_CreatedAt : Time;
  q_UpdatedAt : Time;
}.

Record ACLRuleRecord := mkACL {
  a_ID : UUID;
  a_TenantID : UUID;
  a_NodeID : UUID;
  a_Name : string;
  a_Action : string;
  a_SrcCIDR : string;
  a_DstCIDR : string;
  a_SrcGroupID : NullUUID;
  a_DstGroupID : NullUUID;
  a_SrcGroup : option IPGroupRecord;
  a_DstGroup : option IPGroupRecord;
  a_DstPort : Z;
  a_Protocol : Z;
  a_Direction : string;
  a_Ports : string;
  a_Priority : Z;
  a_Enabled : bool;
  a_Description : string;
  a_CreatedAt : Time;
  a_UpdatedAt : Time;
}.

Record BlacklistRuleRecord := mkBlacklist {
  b_ID : UUID;
  b_TenantID : UUID;
  b_NodeID : UUID;
  b_Scope : string;
  b_CIDR : string;
  b_Port : Z;
  b_Enabled : bool;
  b_Description : string;
  b_CreatedAt : Time;
  b_UpdatedAt : Time;
}.

#[export] Instance eta_IPGroupMemberRecord : Eta IPGroupMemberRecord := λ r,
  mkMember (m_ID r) (m_GroupID r) (m_CIDR r) (m_Note r).
#[export] Instance eta_IPGroupRecord : Eta IPGroupRecord := λ r,
  mkIPGroup (g_ID r) (g_TenantID r) (g_Name r) (g_Description r) (g_Kind r)
    (g_CreatedBy r) (g_Members r) (g_CreatedAt r) (g_UpdatedAt r).
#[export] Instance eta_QoSRuleRecord : Eta QoSRuleRecord := λ r,
  mkQoS (q_ID r) (q_TenantID r) (q_NodeID r) (q_SrcCIDR r) (q_DstCIDR r)
    (q_GroupID r) (q_Group r) (q_SrcPort r) (q_DstPort r) (q_Protocol r)
    (q_BandwidthMbps r) (q_Direction r) (q_RateBps r) (q_BurstBytes r)
    (q_Priority r) (q_Mode r) (q_Enabled r) (q_Description r) (q_CreatedAt r)
    (q_UpdatedAt r).
#[export] Instance eta_ACLRuleRecord : Eta ACLRuleRecord := λ r,
  mkACL (a_ID r) (a_TenantID r) (a_NodeID r) (a_Name r) (a_Action r)
    (a_SrcCIDR r) (a_DstCIDR r) (a_SrcGroupID r) (a_DstGroupID r) (a_SrcGroup r)
    (a_DstGroup r) (a_DstPort r) (a_Protocol r) (a_Direction r) (a_Ports r)
    (a_Priority r) (a_Enabled r) (a_Description r) (a_CreatedAt r) (a_UpdatedAt r).
#[export] Instance eta_BlacklistRuleRecord : Eta BlacklistRuleRecord := λ r,
  mkBlacklist (b_ID r) (b_TenantID r) (b_NodeID r) (b_Scope r) (b_CIDR r)
    (b_Port r) (b_Enabled r) (b_Description r) (b_CreatedAt r) (b_UpdatedAt r).

#[export] Instance IPGroupMemberRecord_eq_dec : EqDecision IPGroupMemberRecord.
Proof. solve_decision. Defined.
#[export] Instance IPGroupRecord_eq_dec : EqDecision IPGroupRecord.
Proof. solve_decision. Defined.
#[export] Instance ACLRuleRecord_eq_dec : EqDecision ACLRuleRecord.
Proof. solve_decision. Defined.
#[export] Instance QoSRuleRecord_eq_dec : EqDecision QoSRuleRecord.
Proof. solve_decision. Defined.

(** Membership of a keyword in the cases of a Go [switch]. *)
Definition one_of (s : string) (l : list string) : bool := existsb (String.eqb s) l.

Lemma one_of_spec s l : one_of s l = true ↔ s ∈ l.
Proof.
  unfold one_of. rewrite existsb_exists. setoid_rewrite String.eqb_eq.
  rewrite list_elem_of_In. split; [by intros (x & ? & ->)|by exists s].
Qed.
Lemma one_of_false s l : one_of s l = false ↔ s ∉ l.
Proof. rewrite <-one_of_spec, not_true_iff_false. done. Qed.
