(* ===== verification/PolicyConflict.v ===== *)
(** * Policy conflict detection

    The conflict rules of [pkg/controllerstorage/network_policy.go]: CIDR
    specificity, port intervals, directions, and the two detectors that refuse
    an ACL or QoS rule whose overlap with a stored rule has no winner. *)

From S2P Require Import Prelude GoStr Netip Records.

Open Scope Z_scope.

(** ** Prefixes as policies write them *)

(** The three results of [parsePolicyPrefix]: a wildcard, a network, or a
    string that is neither. *)
Inductive PolicyPrefix :=
  | AnyPrefix
  | NetPrefix (p : Prefix)
  | BadPrefix.

Definition policyCIDRIsAny (value : string) : bool :=
  one_of (ToLower (TrimSpace value)) [""; "any"; "0"; "0.0.0.0/0"; "::/0"].

Definition parsePolicyPrefix (value : string) : PolicyPrefix :=
  let trimmed := TrimSpace value in
  if policyCIDRIsAny trimmed then AnyPrefix else
  match ParsePrefix trimmed with
  | Some prefix => NetPrefix (Masked prefix)
  | None =>
    match ParseAddr trimmed with
    | None => BadPrefix
    | Some addr =>
      if Is4 addr then NetPrefix (PrefixFrom addr 32) else NetPrefix (PrefixFrom addr 128)
    end
  end.

Definition prefixContains (parent child : Prefix) : bool :=
  Contains parent (prefix_addr child) && (prefix_bits parent <=? prefix_bits child).

Definition prefixesOverlap (left right : Prefix) : bool :=
  prefixContains left right || prefixContains right left.

Record cidrRelation := mkRel { candidateStrict : bool; existingStrict : bool }.

Definition cidrSpecificityRelation (candidateCIDR existingCIDR : string)
    : option cidrRelation :=
  match parsePolicyPrefix candidateCIDR, parsePolicyPrefix existingCIDR with
  | BadPrefix, _ | _, BadPrefix => None
  | AnyPrefix, AnyPrefix => Some (mkRel false false)
  | AnyPrefix, NetPrefix _ => Some (mkRel false true)
  | NetPrefix _, AnyPrefix => Some (mkRel true false)
  | NetPrefix candidate, NetPrefix existing =>
    if negb (Bool.eqb (Is4 (prefix_addr candidate)) (Is4 (prefix_addr existing))) then None else
    if negb (prefixesOverlap candidate existing) then None else
    if prefixContains existing candidate && (prefix_bits existing <? prefix_bits candidate)
    then Some (mkRel true false) else
    if prefixContains candidate existing && (prefix_bits candidate <? prefix_bits existing)
    then Some (mkRel false true) else
    Some (mkRel false false)
  end.

(** The loops over the relations: a strict relation the other way refuses. *)
Fixpoint strictly_more (strict : bool) (relations : list cidrRelation) : bool :=
  match relations with
  | [] => strict
  | rel :: rest =>
    if existingStrict rel then false else strictly_more (strict || candidateStrict rel) rest
  end.
Definition relationStrictlyMoreSpecific (relations : list cidrRelation) : bool :=
  strictly_more false relations.
Fixpoint strictly_less (strict : bool) (relations : list cidrRelation) : bool :=
  match relations with
  | [] => strict
  | rel :: rest =>
    if candidateStrict rel then false else strictly_less (strict || existingStrict rel) rest
  end.
Definition relationStrictlyLessSpecific (relations : list cidrRelation) : bool :=
  strictly_less false relations.

(** ** Directions, protocols, ports *)

Definition policyDirections (value : string) : list string :=
  let v := ToLower (TrimSpace value) in
  if one_of v ["egress"; "out"] then ["egress"]
  else if one_of v ["both"; "all"] then ["ingress"; "egress"]
  else ["ingress"].

Definition directionsOverlap (a b : string) : bool :=
  existsb (λ left, existsb (String.eqb left) (policyDirections b)) (policyDirections a).

Definition protocolsOverlap (a b : Z) : bool := (a =? 0) || (b =? 0) || (a =? b).

Record portInterval := mkInterval { start : Z; end_ : Z }.

Definition clampPort (port : Z) : Z :=
  if port <? 0 then 0 else if 65535 <? port then 65535 else port.

(** One comma-separated part of a port list: an optional interval. *)
Definition policyPortInterval (raw : string) : option portInterval :=
  let part := TrimSpace raw in
  if (part =? "")%string then None else
  let part := match Cut part ":" with Some (p, _) => TrimSpace p | None => part end in
  match Cut part "-" with
  | Some (lo, hi) =>
    match Atoi (TrimSpace lo), Atoi (TrimSpace hi) with
    | Some s, Some e =>
      if s <=? e then Some (mkInterval (clampPort s) (clampPort e)) else None
    | _, _ => None
    end
  | None =>
    match Atoi part with
    | Some port => Some (mkInterval (clampPort port) (clampPort port))
    | None => None
    end
  end.

Definition policyPortIntervals (ports : string) (dstPort : Z) : list portInterval :=
  if (TrimSpace ports =? "")%string || EqualFold (TrimSpace ports) "all" then
    if 0 <? dstPort then [mkInterval dstPort dstPort] else [mkInterval 0 65535]
  else
    match omap policyPortInterval (Split ports ",") with
    | [] => [mkInterval 0 65535]
    | intervals => intervals
    end.

Definition portsOverlap (leftPorts : string) (leftDstPort : Z)
    (rightPorts : string) (rightDstPort : Z) : bool :=
  existsb (λ a, existsb (λ b, (start a <=? end_ b) && (start b <=? end_ a))
    (policyPortIntervals rightPorts rightDstPort))
    (policyPortIntervals leftPorts leftDstPort).

(** ** The CIDRs a rule selects *)

Definition ipGroupMemberCIDRs (members : list IPGroupMemberRecord) : list string :=
  match members with [] => [""] | _ => m_CIDR <$> members end.

(** A group with members replaces the rule's own CIDR. *)
Definition group_members (group : option IPGroupRecord) : list IPGroupMemberRecord :=
  match group with Some g => g_Members g | None => [] end.

Definition aclSourceCIDRs (rule : option ACLRuleRecord) : list string :=
  match rule with
  | None => [""]
  | Some rule =>
    match group_members (a_SrcGroup rule) with
    | [] => [a_SrcCIDR rule]
    | members => ipGroupMemberCIDRs members
    end
  end.
Definition aclDestinationCIDRs (rule : option ACLRuleRecord) : list string :=
  match rule with
  | None => [""]
  | Some rule =>
    match group_members (a_DstGroup rule) with
    | [] => [a_DstCIDR rule]
    | members => ipGroupMemberCIDRs members
    end
  end.
Definition qosPolicyCIDRs (rule : option QoSRuleRecord) : list string :=
  match rule with
  | None => [""]
  | Some rule =>
    match group_members (q_Group rule) with
    | _ :: _ as members => ipGroupMemberCIDRs members
    | [] =>
      if (TrimSpace (q_Direction rule) =? "ingress")%string
         && negb (TrimSpace (q_SrcCIDR rule) =? "")%string then [q_SrcCIDR rule]
      else if negb (TrimSpace (q_DstCIDR rule) =? "")%string then [q_DstCIDR rule]
      else if negb (TrimSpace (q_SrcCIDR rule) =? "")%string then [q_SrcCIDR rule]
      else [""]
    end
  end.

(** ** The detectors *)

Definition rel_equal (r : option cidrRelation) : bool :=
  match r with
  | Some rel => negb (candidateStrict rel) && negb (existingStrict rel)
  | None => false
  end.

Definition aclRuntimeScopeConflicts (existing candidate : ACLRuleRecord) : bool :=
  if negb (directionsOverlap (a_Direction existing) (a_Direction candidate)) then false else
  if negb (protocolsOverlap (a_Protocol existing) (a_Protocol candidate)) then false else
  existsb (λ candidateSrc, existsb (λ existingSrc,
    if rel_equal (cidrSpecificityRelation candidateSrc existingSrc) then
      existsb (λ candidateDst, existsb (λ existingDst,
        rel_equal (cidrSpecificityRelation candidateDst existingDst))
        (aclDestinationCIDRs (Some existing))) (aclDestinationCIDRs (Some candidate))
    else false) (aclSourceCIDRs (Some existing))) (aclSourceCIDRs (Some candidate)).

(** The four nested loops of [DetectACLPolicyConflict]: some pair of scopes
    overlaps and neither is the more specific one. *)
Definition aclAmbiguousOverlap (rule candidate : ACLRuleRecord) : bool :=
  existsb (λ candidateSrc, existsb (λ existingSrc,
    match cidrSpecificityRelation candidateSrc existingSrc with
    | None => false
    | Some srcRel =>
      existsb (λ candidateDst, existsb (λ existingDst,
        match cidrSpecificityRelation candidateDst existingDst with
        | None => false
        | Some dstRel =>
          negb (relationStrictlyMoreSpecific [srcRel; dstRel]
                || relationStrictlyLessSpecific [srcRel; dstRel])
        end) (aclDestinationCIDRs (Some rule))) (aclDestinationCIDRs (Some candidate))
    end) (aclSourceCIDRs (Some rule))) (aclSourceCIDRs (Some candidate)).

(** The body of the loop over existing rules: the error it returns, if any. *)
Definition aclConflictWith (candidate : ACLRuleRecord) (candidateID : UUID)
    (existing : option ACLRuleRecord) : option error :=
  match existing with
  | None => None
  | Some rule =>
    if negb (a_Enabled rule) then None else
    if negb (candidateID =? uuid_Nil)%string && (a_ID rule =? candidateID)%string then None else
    if aclRuntimeScopeConflicts rule candidate then
      Some (ErrAmbiguousPolicyConflict
        ("ACL rule conflicts with rule " +:+ a_ID rule +:+ " on the same runtime key"))
    else
    if negb (a_Priority rule =? a_Priority candidate) then None else
    if negb (directionsOverlap (a_Direction rule) (a_Direction candidate)) then None else
    if negb (protocolsOverlap (a_Protocol rule) (a_Protocol candidate)) then None else
    if negb (portsOverlap (a_Ports rule) (a_DstPort rule)
                          (a_Ports candidate) (a_DstPort candidate)) then None else
    if aclAmbiguousOverlap rule candidate then
      Some (ErrAmbiguousPolicyConflict
        ("ACL rule overlaps rule " +:+ a_ID rule +:+ " at priority "
         +:+ Itoa (a_Priority candidate)))
    else None
  end.

Definition DetectACLPolicyConflict (existing : list (option ACLRuleRecord))
    (candidate : option ACLRuleRecord) (candidateID : UUID) : option error :=
  match candidate with
  | None => None
  | Some candidate =>
    if negb (a_Enabled candidate) then None
    else find_map (aclConflictWith candidate candidateID) existing
  end.

Definition qosConflictWith (candidate : QoSRuleRecord) (candidateID : UUID)
    (existing : option QoSRuleRecord) : option error :=
  match existing with
  | None => None
  | Some rule =>
    if negb (q_Enabled rule) then None else
    if negb (candidateID =? uuid_Nil)%string && (q_ID rule =? candidateID)%string then None else
    if negb (q_Priority rule =? q_Priority candidate) then None else
    if negb (directionsOverlap (q_Direction rule) (q_Direction candidate)) then None else
    if existsb (λ candidateCIDR, existsb (λ existingCIDR,
         rel_equal (cidrSpecificityRelation candidateCIDR existingCIDR))
         (qosPolicyCIDRs (Some rule))) (qosPolicyCIDRs (Some candidate))
    then Some (ErrAmbiguousPolicyConflict
        ("QoS rule overlaps rule " +:+ q_ID rule +:+ " at priority "
         +:+ Itoa (q_Priority candidate)))
    else None
  end.

Definition DetectQoSPolicyConflict (existing : list (option QoSRuleRecord))
    (candidate : option QoSRuleRecord) (candidateID : UUID) : option error :=
  match candidate with
  | None => None
  | Some candidate =>
    if negb (q_Enabled candidate) then None
    else find_map (qosConflictWith candidate candidateID) existing
  end.

(** ** What the tests mean

    The set of addresses a CIDR string selects, and the order of scopes by
    inclusion of those sets. *)

Inductive cidr_matches (s : string) (a : Addr) : Prop :=
  | matches_any : parsePolicyPrefix s = AnyPrefix → cidr_matches s a
  | matches_net p : parsePolicyPrefix s = NetPrefix p → Contains p a = true → cidr_matches s a.
Lemma cidr_matches_eq s a : cidr_matches s a ↔
  match parsePolicyPrefix s with
  | AnyPrefix => True
  | NetPrefix p => Contains p a = true
  | BadPrefix => False
  end.
Proof.
  split; [by intros [-> | p -> ?]|]. destruct (parsePolicyPrefix s) eqn:Hs; [|by eright|done].
  intros _. by left.
Qed.

Definition cidr_sub (s t : string) : Prop := ∀ a, cidr_matches s a → cidr_matches t a.
Definition cidr_psub (s t : string) : Prop :=
  cidr_sub s t ∧ ∃ a, cidr_matches t a ∧ ¬ cidr_matches s a.
Definition cidr_same (s t : string) : Prop := ∀ a, cidr_matches s a ↔ cidr_matches t a.
Definition cidr_disjoint (s t : string) : Prop :=
  ∀ a, ¬ (cidr_matches s a ∧ cidr_matches t a).

Lemma parsePolicyPrefix_wf s p : parsePolicyPrefix s = NetPrefix p → prefix_wf p.
Proof.
  unfold parsePolicyPrefix. case_match; [done|].
  destruct (ParsePrefix _) as [q|] eqn:Hq.
  { intros [= <-]. apply Masked_wf. by eapply ParsePrefix_wf. }
  destruct (ParseAddr _) as [a|]; [|done].
  pose proof (PrefixFrom_full_wf a) as Hwf. unfold BitLen, Is4 in *.
  destruct (addr_is4 a); by intros [= <-].
Qed.

(** An address of the other family lies outside a network. *)
Lemma net_not_everything p : ∃ a, Contains p a = false.
Proof.
  exists (mkAddr (negb (addr_is4 (prefix_addr p))) 0 "").
  unfold Contains. simpl. by destruct (addr_is4 (prefix_addr p)).
Qed.

Lemma prefixContains_spec p q : prefix_wf p → prefix_wf q →
  prefixContains p q = true → ∀ a, Contains q a = true → Contains p a = true.
Proof.
  intros Hp Hq H a Ha. unfold prefixContains in H. bools.
  eapply (Contains_nested p q (prefix_addr q)); eauto using Contains_self.
Qed.

(** Prefixes that share an address overlap in the code's sense. *)
Lemma overlap_complete p q a : prefix_wf p → prefix_wf q →
  Contains p a = true → Contains q a = true →
  addr_is4 (prefix_addr p) = addr_is4 (prefix_addr q) ∧
  (prefix_bits p ≤ prefix_bits q → prefixContains p q = true) ∧
  (prefix_bits q ≤ prefix_bits p → prefixContains q p = true).
Proof.
  intros Hp Hq Ha Hb. split_and!.
  - apply Contains_spec in Ha as (_ & -> & _); [|done].
    by apply Contains_spec in Hb as (_ & -> & _).
  - intros Hle. unfold prefixContains. apply andb_true_intro. split; [|by apply Z.leb_le].
    by eapply (Contains_nested p q a); eauto using Contains_self.
  - intros Hle. unfold prefixContains. apply andb_true_intro. split; [|by apply Z.leb_le].
    by eapply (Contains_nested q p a); eauto using Contains_self.
Qed.

(** The relation of two CIDR strings, by their sets of addresses: no result
    for disjoint sets, and otherwise which of the two is the smaller one. *)
Definition cidr_meet (s t : string) : Prop := ∃ a, cidr_matches s a ∧ cidr_matches t a.
Definition relation_meaning (s t : string) (r : option cidrRelation) : Prop :=
  match r with
  | None => cidr_disjoint s t
  | Some (mkRel true false) => cidr_psub s t ∧ cidr_meet s t
  | Some (mkRel false true) => cidr_psub t s ∧ cidr_meet s t
  | Some (mkRel false false) => cidr_same s t ∧ cidr_meet s t
  | Some (mkRel true true) => False
  end.

(** A longer prefix inside a shorter one is a proper, non-empty subset. *)
Lemma net_psub p q : prefix_wf p → prefix_wf q →
  prefixContains p q = true → prefix_bits p < prefix_bits q →
  ((∀ a, Contains q a = true → Contains p a = true) ∧
   ∃ a, Contains p a = true ∧ Contains q a ≠ true) ∧
  ∃ a, Contains p a = true ∧ Contains q a = true.
Proof.
  intros Hp Hq Hc Hlt.
  assert (∀ a, Contains q a = true → Contains p a = true) by by apply prefixContains_spec.
  split; [|exists (prefix_addr q); auto using Contains_self].
  split; [done|]. unfold prefixContains in Hc. bools.
  destruct (longer_prefix_proper p q) as (a & ? & ?); try done.
  { by apply Contains_spec in H0 as (_ & ? & _). }
  exists a. split; [done|congruence].
Qed.

(** Overlapping prefixes are nested, or the same when the lengths agree. *)
Lemma prefixesOverlap_cases p q : prefix_wf p → prefix_wf q →
  prefixesOverlap p q = true →
  (prefix_bits p < prefix_bits q ∧ prefixContains p q = true) ∨
  (prefix_bits q < prefix_bits p ∧ prefixContains q p = true) ∨
  (prefix_bits p = prefix_bits q ∧ prefixContains p q = true ∧ prefixContains q p = true).
Proof.
  intros Hp Hq. unfold prefixesOverlap. rewrite orb_true_iff. intros [H|H];
    pose proof H as Hc; unfold prefixContains in Hc; bools.
  - destruct (overlap_complete p q (prefix_addr q)) as (_ & _ & Hqp);
      auto using Contains_self.
    destruct (Z.eq_dec (prefix_bits p) (prefix_bits q)); [|left; split; [lia|done]].
    right; right. split_and!; [done|done|]. apply Hqp. lia.
  - destruct (overlap_complete q p (prefix_addr p)) as (_ & _ & Hqp);
      auto using Contains_self.
    destruct (Z.eq_dec (prefix_bits p) (prefix_bits q)); [|right; left; split; [lia|done]].
    right; right. split_and!; [done| |done]. apply Hqp. lia.
Qed.

Lemma prefixesOverlap_complete p q a : prefix_wf p → prefix_wf q →
  Contains p a = true → Contains q a = true →
  addr_is4 (prefix_addr p) = addr_is4 (prefix_addr q) ∧ prefixesOverlap p q = true.
Proof.
  intros Hp Hq Ha Hb. destruct (overlap_complete p q a) as (? & H1 & H2); try done.
  split; [done|]. unfold prefixesOverlap. apply orb_true_iff.
  destruct (Z.le_ge_cases (prefix_bits p) (prefix_bits q)); [left|right]; auto.
Qed.

Lemma prefixContains_bits p q : prefixContains p q = true → prefix_bits p ≤ prefix_bits q.
Proof. unfold prefixContains. intros. bools. done. Qed.

Lemma cidr_relation_spec (s t : string) :
  relation_meaning s t (cidrSpecificityRelation s t).
Proof.
  unfold cidrSpecificityRelation, relation_meaning, cidr_disjoint, cidr_psub,
    cidr_sub, cidr_same, cidr_meet.
  pose proof (cidr_matches_eq s) as Es. pose proof (cidr_matches_eq t) as Et.
  destruct (parsePolicyPrefix s) as [|p|] eqn:Hs,
    (parsePolicyPrefix t) as [|q|] eqn:Ht;
    try (by intros a [?%Es ?%Et]); simpl;
    try apply parsePolicyPrefix_wf in Hs; try apply parsePolicyPrefix_wf in Ht.
  - setoid_rewrite Es. setoid_rewrite Et. split; [done|]. by exists (mkAddr true 0 "").
  - destruct (net_not_everything q) as [a Ha].
    setoid_rewrite Es. setoid_rewrite Et. split; [split; [done|]; exists a; by rewrite Ha|].
    exists (prefix_addr q). by rewrite Contains_self.
  - destruct (net_not_everything p) as [a Ha].
    setoid_rewrite Es. setoid_rewrite Et. split; [split; [done|]; exists a; by rewrite Ha|].
    exists (prefix_addr p). by rewrite Contains_self.
  - unfold Is4.
    destruct (Bool.eqb (addr_is4 (prefix_addr p)) (addr_is4 (prefix_addr q))
      && prefixesOverlap p q) eqn:Hov; last first.
    { assert (∀ a, ¬ (cidr_matches s a ∧ cidr_matches t a)).
      { intros a [Ha%Es Hb%Et].
        destruct (prefixesOverlap_complete p q a Hs Ht Ha Hb) as [Hf Ho].
        by rewrite Hf, Ho, eqb_reflx in Hov. }
      apply andb_false_iff in Hov as [Hf|Hf]; rewrite Hf; simpl; [done|].
      by destruct (Bool.eqb _ _). }
    apply andb_true_iff in Hov as [-> Hov]. rewrite Hov. simpl.
    pose proof (Contains_self p Hs) as Hpp. pose proof (Contains_self q Ht) as Hqq.
    destruct (prefixesOverlap_cases p q Hs Ht Hov) as [[Hlt Hc]|[[Hlt Hc]|(Hlt & Hc & Hc')]].
    + rewrite (proj2 (Z.ltb_ge _ _)), andb_false_r, Hc, (proj2 (Z.ltb_lt _ _)) by lia.
      simpl. setoid_rewrite Es. setoid_rewrite Et. destruct (net_psub p q) as [? (a & ? & ?)]; try done. split; [done|eauto].
    + rewrite Hc, (proj2 (Z.ltb_lt _ _)) by lia.
      simpl. setoid_rewrite Es. setoid_rewrite Et. destruct (net_psub q p) as [? (a & ? & ?)]; try done. split; [done|eauto].
    + rewrite Hlt, Z.ltb_irrefl, !andb_false_r.
      setoid_rewrite Es. setoid_rewrite Et. split; [|exists (prefix_addr p); split; [done|by apply (prefixContains_spec q p)]].
      split; by apply prefixContains_spec.
Qed.

(** ** What the detectors decide *)

Lemma existsb_spec {A} (f : A → bool) (l : list A) :
  existsb f l = true ↔ ∃ x, x ∈ l ∧ f x = true.
Proof. rewrite existsb_exists. by setoid_rewrite list_elem_of_In. Qed.

Lemma directionsOverlap_spec a b :
  directionsOverlap a b = true ↔ ∃ d, d ∈ policyDirections a ∧ d ∈ policyDirections b.
Proof.
  unfold directionsOverlap. rewrite existsb_spec. setoid_rewrite existsb_spec.
  setoid_rewrite String.eqb_eq. split.
  - intros (x & ? & y & ? & ->). eauto.
  - intros (d & ? & ?). exists d. eauto.
Qed.

(** Protocol 0 stands for every protocol. *)
Definition proto_matches (rule packet : Z) : Prop := rule = 0 ∨ rule = packet.

Lemma protocolsOverlap_spec a b :
  protocolsOverlap a b = true ↔ ∃ p, proto_matches a p ∧ proto_matches b p.
Proof.
  unfold protocolsOverlap, proto_matches. rewrite !orb_true_iff, !Z.eqb_eq. split.
  - intros [[->| ->]| ->]; [exists b|exists a|exists b]; auto.
  - intros (p & [->| ->] & [->| ->]); auto.
Qed.

Definition port_matches (ports : string) (dstPort : Z) (port : Z) : Prop :=
  ∃ i, i ∈ policyPortIntervals ports dstPort ∧ start i ≤ port ≤ end_ i.

Lemma clampPort_mono x y : x ≤ y → clampPort x ≤ clampPort y.
Proof. unfold clampPort. intros. repeat case_match; bools; lia. Qed.

Lemma policyPortInterval_wf raw i : policyPortInterval raw = Some i → start i ≤ end_ i.
Proof.
  unfold policyPortInterval. intros. repeat case_match; simplify_eq/=; bools;
    auto using clampPort_mono with lia.
Qed.

(** Every interval of a port list has at least one port. *)
Lemma policyPortIntervals_wf ports dstPort i :
  i ∈ policyPortIntervals ports dstPort → start i ≤ end_ i.
Proof.
  unfold policyPortIntervals.
  case_match; [case_match; intros ->%list_elem_of_singleton; simpl; lia|].
  case_match eqn:Hl; [intros ->%list_elem_of_singleton; simpl; lia|].
  rewrite <-Hl. intros (raw & _ & Hi)%list_elem_of_omap.
  by eapply policyPortInterval_wf.
Qed.

Lemma portsOverlap_spec lp ld rp rd :
  portsOverlap lp ld rp rd = true ↔ ∃ port, port_matches lp ld port ∧ port_matches rp rd port.
Proof.
  unfold portsOverlap, port_matches. rewrite existsb_spec. setoid_rewrite existsb_spec.
  setoid_rewrite andb_true_iff. setoid_rewrite Z.leb_le. split.
  - intros (a & Ha & b & Hb & ? & ?). exists (Z.max (start a) (start b)).
    pose proof (policyPortIntervals_wf _ _ _ Ha).
    pose proof (policyPortIntervals_wf _ _ _ Hb).
    split; [exists a|exists b]; (split; [done|lia]).
  - intros (port & (a & Ha & ?) & (b & Hb & ?)).
    exists a. split; [done|]. exists b. split; [done|lia].
Qed.

(** The scopes of a rule: pairs of a source and a destination CIDR. *)
Definition acl_scope (r : ACLRuleRecord) (sd : string * string) : Prop :=
  sd.1 ∈ aclSourceCIDRs (Some r) ∧ sd.2 ∈ aclDestinationCIDRs (Some r).

Definition scope_sub (x y : string * string) : Prop := cidr_sub x.1 y.1 ∧ cidr_sub x.2 y.2.
(** Strictly more specific: inside in both components, properly in one. *)
Definition scope_lt (x y : string * string) : Prop :=
  scope_sub x y ∧ (cidr_psub x.1 y.1 ∨ cidr_psub x.2 y.2).
Definition scope_meet (x y : string * string) : Prop :=
  cidr_meet x.1 y.1 ∧ cidr_meet x.2 y.2.
(** The same set of address pairs, and not the empty one. *)
Definition scope_same (x y : string * string) : Prop :=
  cidr_same x.1 y.1 ∧ cidr_same x.2 y.2 ∧ scope_meet x y.

Record packet := mkPacket {
  pk_direction : string; pk_protocol : Z; pk_port : Z; pk_src : Addr; pk_dst : Addr }.

(** The rule selects the packet through this scope. *)
Definition acl_selects (r : ACLRuleRecord) (sd : string * string) (pk : packet) : Prop :=
  acl_scope r sd ∧ pk_direction pk ∈ policyDirections (a_Direction r) ∧
  proto_matches (a_Protocol r) (pk_protocol pk) ∧
  port_matches (a_Ports r) (a_DstPort r) (pk_port pk) ∧
  cidr_matches sd.1 (pk_src pk) ∧ cidr_matches sd.2 (pk_dst pk).

Lemma rel_equal_spec s t :
  rel_equal (cidrSpecificityRelation s t) = true ↔ cidr_same s t ∧ cidr_meet s t.
Proof.
  pose proof (cidr_relation_spec s t) as Hm.
  destruct (cidrSpecificityRelation s t) as [[[] []]|]; simpl in *.
  - done.
  - split; [done|]. destruct Hm as ((_ & a & ? & ?) & _). intros (Hs & _).
    by apply Hs in H.
  - split; [done|]. destruct Hm as ((_ & a & ? & ?) & _). intros (Hs & _).
    by apply Hs in H.
  - done.
  - split; [done|]. intros (_ & a & ?). by destruct (Hm a).
Qed.

Lemma relation_some_meet s t :
  is_Some (cidrSpecificityRelation s t) ↔ cidr_meet s t.
Proof.
  pose proof (cidr_relation_spec s t) as Hm.
  destruct (cidrSpecificityRelation s t) as [[[] []]|]; simpl in *;
    try (split; [intros _; by destruct Hm|by eauto]).
  split; [by intros []|]. intros (a & ?). by destruct (Hm a).
Qed.

(** Facts on sets of addresses that settle the cases below. *)
Lemma psub_not_sub s t : cidr_psub s t → ¬ cidr_sub t s.
Proof. intros (_ & a & Ht & Hs) H. by apply Hs, H. Qed.
Lemma psub_sub s t : cidr_psub s t → cidr_sub s t.
Proof. by intros []. Qed.
Lemma same_sub s t : cidr_same s t ↔ cidr_sub s t ∧ cidr_sub t s.
Proof. split; [intros H; split; intros a; apply H|intros [? ?] a; split; auto]. Qed.
Lemma meet_not_disjoint s t : cidr_meet s t → ¬ cidr_disjoint s t.
Proof. intros (a & Ha) H. by apply (H a). Qed.

Ltac cidr_facts s t :=
  pose proof (psub_not_sub s t); pose proof (psub_not_sub t s);
  pose proof (psub_sub s t); pose proof (psub_sub t s);
  pose proof (same_sub s t); pose proof (meet_not_disjoint s t).

(** [cidrSpecificityRelation] decides how two CIDR strings relate as sets
    of addresses: it gives no relation exactly when no address is in both
    (malformed strings select nothing), and otherwise says which set is the
    proper subset of the other, or that the two are equal. *)
Theorem cidrSpecificityRelation_decides (candidate existing : string) :
  let rel := cidrSpecificityRelation candidate existing in
  (rel = None ↔ cidr_disjoint candidate existing) ∧
  (rel = Some (mkRel true false) ↔ cidr_psub candidate existing ∧ cidr_meet candidate existing) ∧
  (rel = Some (mkRel false true) ↔ cidr_psub existing candidate ∧ cidr_meet candidate existing) ∧
  (rel = Some (mkRel false false) ↔ cidr_same candidate existing ∧ cidr_meet candidate existing) ∧
  rel ≠ Some (mkRel true true).
Proof.
  intros rel. pose proof (cidr_relation_spec candidate existing) as Hm. fold rel in Hm.
  cidr_facts candidate existing.
  destruct rel as [[[] []]|]; simpl in *; [done|split_and!; try done..];
    (split; [try done; tauto|intros; first [done|exfalso; tauto]]).
Qed.

(** A pair of overlapping relations is ordered exactly when one scope is
    strictly more specific than the other. *)
Lemma ordered_spec x y srcRel dstRel :
  cidrSpecificityRelation x.1 y.1 = Some srcRel →
  cidrSpecificityRelation x.2 y.2 = Some dstRel →
  relationStrictlyMoreSpecific [srcRel; dstRel]
    || relationStrictlyLessSpecific [srcRel; dstRel] = true ↔
  scope_lt x y ∨ scope_lt y x.
Proof.
  intros Hs Hd.
  pose proof (cidr_relation_spec x.1 y.1) as Hm1. rewrite Hs in Hm1.
  pose proof (cidr_relation_spec x.2 y.2) as Hm2. rewrite Hd in Hm2.
  cidr_facts x.1 y.1. cidr_facts x.2 y.2. unfold scope_lt, scope_sub.
  destruct srcRel as [[] []], dstRel as [[] []]; simpl in *; try done;
    (split; [try done; tauto|intros; first [done|exfalso; tauto]]).
Qed.
