(* ===== verification/CidrColumn.v ===== *)
(** * CIDR columns

    PostgreSQL's type [cidr] as the rule and group tables use it: its input and
    output functions are parameters with the laws their documentation states,
    and its values are prefixes without host bits.  The operators the statements
    use are equality, overlap ([&&]) and [masklen], which are those of prefixes
    ([PolicyConflict.prefixesOverlap], [prefix_bits]). *)

From S2P Require Import Prelude GoStr Netip NetipText Records PolicyConflict.

Open Scope Z_scope.

(** [text::cidr] and [cidr::text]. *)
Class CidrText := {
  cidr_in : string → option Prefix;
  cidr_out : Prefix → string;
}.
(** The input function accepts a network written the usual way and refuses host
    bits; what the output function writes, [netip.ParsePrefix] reads; a network of
    length zero is written as everyone writes it. *)
Class CidrTextLaws `{CidrText} := {
  cidr_in_network s p : cidr_in s = Some p → network p;
  cidr_in_text p : network p → cidr_in (Prefix_String p) = Some p;
  cidr_out_read p : network p → ParsePrefix (cidr_out p) = Some p;
  cidr_out_trim p : network p → TrimSpace (cidr_out p) = cidr_out p;
  cidr_out_zero p : network p → prefix_bits p = 0 → cidr_out p = Prefix_String p;
}.

(** ** Texts of networks *)

Lemma Prefix_String_nospace p : network p →
  Forall (λ c, is_space c = false) (String.list_ascii_of_string (Prefix_String p)).
Proof.
  intros ([Hz Hb] & Hr & _). assert (∀ c, addr_char c → is_space c = false) as Hc.
  { intros c [[d Hd]|[-> | ->]]; [|done..].
    by destruct c as [[] [] [] [] [] [] [] []]; try discriminate Hd. }
  assert (0 ≤ prefix_bits p) by lia.
  unfold Prefix_String. rewrite !list_ascii_app.
  apply Forall_app_2; [|apply Forall_app_2; [by repeat constructor|]].
  - eapply Forall_impl; [|exact Hc]. unfold Addr_String. rewrite Hz.
    destruct (addr_is4 _); [apply v4_text_chars|]. rewrite list_ascii_app. apply Forall_app_2; [|done].
    destruct (Is4In6 _).
    + rewrite list_ascii_app. apply Forall_app_2; [|apply v4_text_chars].
      apply (bool_decide_unpack (Forall (λ c, is_Some (hex_val c) ∨ c = ":"%char ∨ c = "."%char) _)).
      vm_compute. exact I.
    + rewrite list_string_list. by apply text6_chars, groups_of_in16.
  - eapply Forall_impl; [by apply Itoa_digits|]. intros c Hd. apply Hc. by left; apply digit_hex.
Qed.
Lemma Prefix_String_trim p : network p → TrimSpace (Prefix_String p) = Prefix_String p.
Proof. intros Hp. by apply TrimSpace_nospace, Prefix_String_nospace. Qed.

(** A text that lowers to one without letters is that text. *)
Lemma lower_char_plain c d :
  lower_char c = d → (N_of_ascii d <? 97)%N || (122 <? N_of_ascii d)%N = true → c = d.
Proof. intros <-. destruct c as [[] [] [] [] [] [] [] []]; done. Qed.
Lemma ToLower_plain s t :
  forallb (λ d, (N_of_ascii d <? 97)%N || (122 <? N_of_ascii d)%N) (String.list_ascii_of_string t) = true →
  ToLower s = t → s = t.
Proof.
  revert s. induction t as [|d t IH]; intros [|c s] Hp Heq; simpl in *; try done.
  injection Heq as Hc Hs. apply andb_true_iff in Hp as [Hd Hp].
  f_equal; [by apply lower_char_plain|by apply IH].
Qed.

(** The wildcards of [policyCIDRIsAny] that are prefixes have length zero. *)
Lemma prefix_any s p : ParsePrefix s = Some p → TrimSpace s = s → policyCIDRIsAny s = true →
  prefix_bits p = 0.
Proof.
  intros Hp Ht Ha. unfold policyCIDRIsAny in Ha. rewrite Ht in Ha. apply one_of_spec in Ha.
  repeat (apply elem_of_cons in Ha as [Ha|Ha]); [| | | | |by apply elem_of_nil in Ha].
  2: { exfalso. destruct s as [|c1 [|c2 [|c3 [|c4 s]]]]; try done. simpl in Ha. injection Ha as H1 H2 H3.
       unfold ParsePrefix in Hp. cbn [String.list_ascii_of_string] in Hp.
       assert (∀ c d, lower_char c = d → (d =? "/")%char = false → c ≠ "/"%char) as Hne
         by (intros c d <- Hd ->; done).
       unfold cut_last in Hp. rewrite cut_char_none in Hp; [done|]. apply Forall_rev.
       repeat constructor; by eapply Hne. }
  all: apply ToLower_plain in Ha; [subst s|done]; vm_compute in Hp; by simplify_eq.
Qed.
(** There is one network of length zero in each family. *)
Lemma network_zero p : network p → prefix_bits p = 0 →
  Prefix_String p = if addr_is4 (prefix_addr p) then "0.0.0.0/0" else "::/0".
Proof.
  intros ([Hz _] & Hr & Hm) Hb. destruct p as [[is4 v zone] b]. simpl in *. subst b zone.
  unfold addr_in_range, BitLen in Hr. simpl in Hr.
  unfold Masked, host_bits, BitLen in Hm. cbn [prefix_addr addr_is4 addr_val prefix_bits] in Hm.
  injection Hm as Hv.
  assert (v = 0) as ->; [|by destruct is4]. rewrite <-Hv, Z.shiftr_div_pow2 by (destruct is4; lia).
  rewrite Z.div_small; [apply Z.shiftl_0_l|]. destruct is4; simpl in *; lia.
Qed.

(** A network's text read as a policy: the wildcard or the network itself. *)
Lemma parsePolicyPrefix_text s p :
  network p → ParsePrefix s = Some p → TrimSpace s = s →
  (prefix_bits p = 0 → s = Prefix_String p) →
  parsePolicyPrefix s = if prefix_bits p =? 0 then AnyPrefix else NetPrefix p.
Proof.
  intros Hn Hp Ht Hzero. unfold parsePolicyPrefix. rewrite Ht.
  destruct (Z.eqb_spec (prefix_bits p) 0) as [Hb|Hb].
  - rewrite (Hzero Hb), (network_zero p Hn Hb). by destruct (addr_is4 _).
  - destruct (policyCIDRIsAny s) eqn:Ha; [by eapply prefix_any in Ha|].
    rewrite Hp. by destruct Hn as (_ & _ & ->).
Qed.
Lemma parsePolicyPrefix_String p : network p →
  parsePolicyPrefix (Prefix_String p) = if prefix_bits p =? 0 then AnyPrefix else NetPrefix p.
Proof.
  intros Hn. apply parsePolicyPrefix_text; [done| |by apply Prefix_String_trim|done].
  destruct Hn as (? & ? & _). by apply ParsePrefix_String.
Qed.
Lemma parsePolicyPrefix_out `{CidrTextLaws} p : network p →
  parsePolicyPrefix (cidr_out p) = if prefix_bits p =? 0 then AnyPrefix else NetPrefix p.
Proof.
  intros Hn. apply parsePolicyPrefix_text; [done|by apply cidr_out_read|by apply cidr_out_trim|].
  by apply cidr_out_zero.
Qed.

(** ** An instance *)

(** Input by [netip.ParsePrefix] without host bits, output by [Prefix.String]. *)
Definition go_cidr : CidrText :=
  {| cidr_in s := p ← ParsePrefix s; if bool_decide (Masked p = p) then Some p else None;
     cidr_out := Prefix_String |}.
Lemma go_cidr_laws : @CidrTextLaws go_cidr.
Proof.
  constructor; simpl.
  - intros s p (q & Hq & H)%bind_Some. case_bool_decide as Hm; simplify_eq.
    split_and!; [by eapply ParsePrefix_wf|by eapply ParsePrefix_range|done].
  - intros p (Hw & Hr & Hm). rewrite ParsePrefix_String by done. simpl. by rewrite bool_decide_true.
  - intros p (Hw & Hr & Hm). by apply ParsePrefix_String.
  - apply Prefix_String_trim.
  - done.
Qed.
