(* ===== verification/PolicyConflictSpec.v ===== *)
(** * What the conflict detectors decide

    The detectors of [PolicyConflict] accept a rule exactly when no packet is
    left without a winner. *)

From S2P Require Import Prelude GoStr Netip Records PolicyConflict.

Open Scope Z_scope.

Lemma aclRuntimeScopeConflicts_spec existing candidate :
  aclRuntimeScopeConflicts existing candidate = true ↔
  directionsOverlap (a_Direction existing) (a_Direction candidate) = true ∧
  protocolsOverlap (a_Protocol existing) (a_Protocol candidate) = true ∧
  ∃ x y, acl_scope candidate x ∧ acl_scope existing y ∧ scope_same x y.
Proof.
  unfold aclRuntimeScopeConflicts, acl_scope, scope_same, scope_meet.
  destruct (directionsOverlap _ _); simpl; [|by split; [|intros []]].
  destruct (protocolsOverlap _ _); simpl; [|by split; [|intros (_ & ? & _)]].
  rewrite existsb_spec. setoid_rewrite existsb_spec. split.
  - intros (s & Hs & s' & Hs' & Hb). case_match eqn:Hr; [|done].
    apply existsb_spec in Hb as (d & Hd & (d' & Hd' & Hr')%existsb_spec).
    apply rel_equal_spec in Hr, Hr'.
    split_and!; [done|done|]. exists (s, d), (s', d'). simpl. tauto.
  - intros (_ & _ & [s d] & [s' d'] & [Hs Hd] & [Hs' Hd'] & Hx & Hy & Hmx & Hmy).
    simpl in *. exists s. split; [done|]. exists s'. split; [done|].
    rewrite (proj2 (rel_equal_spec s s')) by done.
    apply existsb_spec. exists d. split; [done|].
    apply existsb_spec. exists d'. split; [done|]. by apply rel_equal_spec.
Qed.

Lemma aclAmbiguousOverlap_spec rule candidate :
  aclAmbiguousOverlap rule candidate = true ↔
  ∃ x y, acl_scope candidate x ∧ acl_scope rule y ∧ scope_meet x y ∧
    ¬ (scope_lt x y ∨ scope_lt y x).
Proof.
  unfold aclAmbiguousOverlap, acl_scope, scope_meet.
  rewrite existsb_spec. setoid_rewrite existsb_spec. split.
  - intros (s & Hs & s' & Hs' & Hb). case_match eqn:Hr; [|done].
    apply existsb_spec in Hb as (d & Hd & (d' & Hd' & Hb)%existsb_spec).
    case_match eqn:Hr'; [|done]. exists (s, d), (s', d'). simpl.
    rewrite <-!relation_some_meet, Hr, Hr'. split_and!; try done; try by eexists.
    rewrite <-(ordered_spec (s, d) (s', d')) by done.
    apply negb_true_iff in Hb. by rewrite Hb.
  - intros ([s d] & [s' d'] & [Hs Hd] & [Hs' Hd'] & [Hm Hm'] & Hord).
    apply relation_some_meet in Hm as [r Hr]. apply relation_some_meet in Hm' as [r' Hr'].
    rewrite <-(ordered_spec (s, d) (s', d')) in Hord by done. simpl in *.
    exists s. split; [done|]. exists s'. split; [done|]. rewrite Hr.
    apply existsb_spec. exists d. split; [done|].
    apply existsb_spec. exists d'. split; [done|]. rewrite Hr'.
    by apply negb_true_iff, not_true_iff_false.
Qed.

(** The stored rule is one the detector compares with: enabled and not the
    rule being replaced. *)
Definition acl_compared (candidateID : UUID) (r : ACLRuleRecord) : Prop :=
  a_Enabled r = true ∧ (candidateID = uuid_Nil ∨ a_ID r ≠ candidateID).

(** Two rules have no ambiguity: no shared runtime key, and at equal priority
    every packet both select is decided by specificity. *)
Definition acl_unambiguous (candidate r : ACLRuleRecord) : Prop :=
  (∀ x y dir proto,
    dir ∈ policyDirections (a_Direction r) → dir ∈ policyDirections (a_Direction candidate) →
    proto_matches (a_Protocol r) proto → proto_matches (a_Protocol candidate) proto →
    acl_scope candidate x → acl_scope r y → ¬ scope_same x y) ∧
  (a_Priority r = a_Priority candidate →
   ∀ pk x y, acl_selects candidate x pk → acl_selects r y pk → scope_lt x y ∨ scope_lt y x).

Lemma runtime_scope_none r candidate :
  aclRuntimeScopeConflicts r candidate = false ↔
  ∀ x y dir proto,
    dir ∈ policyDirections (a_Direction r) → dir ∈ policyDirections (a_Direction candidate) →
    proto_matches (a_Protocol r) proto → proto_matches (a_Protocol candidate) proto →
    acl_scope candidate x → acl_scope r y → ¬ scope_same x y.
Proof.
  rewrite <-not_true_iff_false, aclRuntimeScopeConflicts_spec, directionsOverlap_spec,
    protocolsOverlap_spec. split.
  - intros H x y dir proto ? ? ? ? ? ? ?. apply H. split_and!; eauto.
  - intros H ((dir & ? & ?) & (proto & ? & ?) & x & y & ? & ? & ?). by eapply H.
Qed.

Lemma overlap_packet r candidate :
  (directionsOverlap (a_Direction r) (a_Direction candidate) = true ∧
   protocolsOverlap (a_Protocol r) (a_Protocol candidate) = true ∧
   portsOverlap (a_Ports r) (a_DstPort r) (a_Ports candidate) (a_DstPort candidate) = true ∧
   aclAmbiguousOverlap r candidate = true) ↔
  ∃ pk x y, acl_selects candidate x pk ∧ acl_selects r y pk ∧ ¬ (scope_lt x y ∨ scope_lt y x).
Proof.
  rewrite directionsOverlap_spec, protocolsOverlap_spec, portsOverlap_spec,
    aclAmbiguousOverlap_spec. unfold acl_selects, scope_meet, cidr_meet. split.
  - intros ((dir & ? & ?) & (proto & ? & ?) & (port & ? & ?) & x & y & ? & ? &
      [(a & ? & ?) (b & ? & ?)] & ?).
    exists (mkPacket dir proto port a b), x, y. simpl. tauto.
  - intros ([dir proto port a b] & x & y & Hc & Hr & ?). simpl in *. destruct_and!.
    split_and!; [by exists dir|by exists proto|by exists port|].
    exists x, y. split_and!; try done; by eexists.
Qed.

Lemma ordered_dec x y : scope_meet x y →
  (scope_lt x y ∨ scope_lt y x) ∨ ¬ (scope_lt x y ∨ scope_lt y x).
Proof.
  intros [[r Hr]%relation_some_meet [r' Hr']%relation_some_meet].
  rewrite <-(ordered_spec x y r r') by done. destruct (_ || _); auto.
Qed.

Lemma no_ambiguous_packet r candidate :
  (¬ ∃ pk x y, acl_selects candidate x pk ∧ acl_selects r y pk
     ∧ ¬ (scope_lt x y ∨ scope_lt y x)) ↔
  ∀ pk x y, acl_selects candidate x pk → acl_selects r y pk → scope_lt x y ∨ scope_lt y x.
Proof.
  split.
  - intros H pk x y Hx Hy. assert (scope_meet x y) as Hm.
    { unfold acl_selects in *. destruct_and!. split; eexists; eauto. }
    destruct (ordered_dec x y Hm) as [|Hn]; [done|]. destruct H. by exists pk, x, y.
  - intros H (pk & x & y & ? & ? & Hn). eauto.
Qed.

(** The test that skips the rule being replaced. *)
Lemma not_replaced (candidateID id : UUID) :
  negb (candidateID =? uuid_Nil)%string && (id =? candidateID)%string = false ↔
  candidateID = uuid_Nil ∨ id ≠ candidateID.
Proof. by rewrite andb_false_iff, negb_false_iff, String.eqb_eq, String.eqb_neq. Qed.

Lemma aclConflictWith_None candidate candidateID r :
  aclConflictWith candidate candidateID (Some r) = None ↔
  (acl_compared candidateID r → acl_unambiguous candidate r).
Proof.
  unfold acl_compared, acl_unambiguous. simpl.
  rewrite <-runtime_scope_none, <-no_ambiguous_packet, <-overlap_packet.
  destruct (a_Enabled r); simpl; [|split; [by intros _ [? _]|done]].
  pose proof (not_replaced candidateID (a_ID r)) as Hcmp.
  destruct (negb _ && _); [split; [|done]; intros _ [_ H]; by apply Hcmp in H|].
  assert (true = true ∧ (candidateID = uuid_Nil ∨ a_ID r ≠ candidateID)) as Hc
    by (split; [done|by apply Hcmp]).
  destruct (aclRuntimeScopeConflicts r candidate); [split; [done|]; intros H; by destruct (H Hc)|].
  destruct (Z.eqb_spec (a_Priority r) (a_Priority candidate)); simpl; [|tauto].
  destruct (directionsOverlap _ _), (protocolsOverlap _ _), (portsOverlap _ _ _ _),
    (aclAmbiguousOverlap r candidate); simpl;
    try (split; [intros _ _; split; [done|by intros _ (? & ? & ? & ?)]|done]).
  split; [done|]. intros H. destruct (H Hc) as [_ H']. by destruct H'.
Qed.

(** [DetectACLPolicyConflict] accepts an enabled candidate exactly when,
    against every enabled rule other than the one it replaces, no two scopes
    have the same runtime key (whatever the priorities), and at equal priority
    every packet that both rules select is selected through scopes of which
    one is strictly more specific. *)
Theorem DetectACLPolicyConflict_exact existing candidate candidateID :
  DetectACLPolicyConflict existing (Some candidate) candidateID = None ↔
  (a_Enabled candidate = true →
   ∀ r, Some r ∈ existing → acl_compared candidateID r → acl_unambiguous candidate r).
Proof.
  unfold DetectACLPolicyConflict. destruct (a_Enabled candidate); simpl; [|done].
  rewrite find_map_None. split.
  - intros H _ r Hr. by apply aclConflictWith_None, H.
  - intros H [r|] Hr; [|done]. apply aclConflictWith_None. auto.
Qed.

(** The QoS detector. *)
Definition qos_compared (candidateID : UUID) (r : QoSRuleRecord) : Prop :=
  q_Enabled r = true ∧ (candidateID = uuid_Nil ∨ q_ID r ≠ candidateID).

(** Two QoS rules contend: same priority, a shared direction, and CIDRs that
    select the same addresses. *)
Definition qos_contend (candidate r : QoSRuleRecord) : Prop :=
  q_Priority r = q_Priority candidate ∧
  (∃ dir, dir ∈ policyDirections (q_Direction r) ∧
          dir ∈ policyDirections (q_Direction candidate)) ∧
  ∃ s t, s ∈ qosPolicyCIDRs (Some candidate) ∧ t ∈ qosPolicyCIDRs (Some r) ∧
         cidr_same s t ∧ cidr_meet s t.

Lemma qosConflictWith_spec candidate candidateID r :
  qosConflictWith candidate candidateID (Some r) =
  None ↔ ¬ (qos_compared candidateID r ∧ qos_contend candidate r).
Proof.
  unfold qos_compared, qos_contend. simpl. rewrite <-directionsOverlap_spec.
  destruct (q_Enabled r); simpl; [|split; [by intros _ ((? & _) & _)|done]].
  pose proof (not_replaced candidateID (q_ID r)) as Hcmp.
  destruct (negb _ && _); [split; [|done]; intros _ [[_ H] _]; by apply Hcmp in H|].
  destruct (Z.eqb_spec (q_Priority r) (q_Priority candidate)); simpl; [|split; [tauto|done]].
  destruct (directionsOverlap _ _); simpl; [|split; [by intros _ (_ & _ & ? & _)|done]].
  assert (existsb (λ s, existsb (λ t, rel_equal (cidrSpecificityRelation s t))
    (qosPolicyCIDRs (Some r))) (qosPolicyCIDRs (Some candidate)) = true ↔
    ∃ s t, s ∈ qosPolicyCIDRs (Some candidate) ∧ t ∈ qosPolicyCIDRs (Some r) ∧
         cidr_same s t ∧ cidr_meet s t) as Hex.
  { rewrite existsb_spec. setoid_rewrite existsb_spec. setoid_rewrite rel_equal_spec.
    split; [intros (s & ? & t & ?)|intros (s & t & ?)]; destruct_and!;
      [exists s, t|exists s; split; [done|]; exists t]; done. }
  destruct (existsb _ _); [split; [done|]; intros H; exfalso; apply H|split; [|done]; intros _ H].
  - split; [by split; [|apply Hcmp]|]. split_and!; [done|done|by apply Hex].
  - destruct H as (_ & _ & _ & H). apply Hex in H. done.
Qed.

(** [DetectQoSPolicyConflict] refuses an enabled candidate exactly when an
    enabled rule other than the one it replaces has the same priority, shares
    a direction and selects the same addresses. *)
Theorem DetectQoSPolicyConflict_exact existing candidate candidateID :
  DetectQoSPolicyConflict existing (Some candidate) candidateID = None ↔
  (q_Enabled candidate = true →
   ∀ r, Some r ∈ existing → ¬ (qos_compared candidateID r ∧ qos_contend candidate r)).
Proof.
  unfold DetectQoSPolicyConflict. destruct (q_Enabled candidate); simpl; [|done].
  rewrite find_map_None. split.
  - intros H _ r Hr. by apply qosConflictWith_spec, H.
  - intros H [r|] Hr; [|done]. apply qosConflictWith_spec. auto.
Qed.
