(* ===== verification/Store.v ===== *)
(** * The store

    The PostgreSQL tables the controller keeps ([pkg/controllerstorage]) and
    the monad its storage methods run in.  A table is a finite map from the
    primary key to the other columns; a nullable column is an option.  A
    statement is a function on the tables; [stmt] runs one statement, which
    may fail, and [tx] runs a transaction, which keeps its changes only when it
    commits. *)

From Stdlib Require SpecFloat.
From S2P Require Import Prelude GoStr Netip Records.

(** A float64. *)
Abbreviation spec_float := SpecFloat.spec_float.

Open Scope Z_scope.

(** A value of a [map[string]interface{}]: the cases the controller looks at,
    any other value as the JSON text it renders to, and a value [json.Marshal]
    refuses. *)
Inductive json :=
  | JNull
  | JString (s : string)
  | JBool (b : bool)
  | JOther (rendered : string)
  | JUnsupported.
#[export] Instance json_eq_dec : EqDecision json.
Proof. solve_decision. Defined.
Abbreviation object := (gmap string json).
Abbreviation strmap := (gmap string string).

(** [json.Marshal] of an object succeeds. *)
Definition marshals (o : object) : bool :=
  forallb (λ kv, negb (bool_decide (kv.2 = JUnsupported))) (map_to_list o).

(** ** Rows *)

Record CommandRow := mkCommandRow {
  ac_node_public_key : string;
  ac_command : string;
  ac_params : object;
  ac_status : string;
  ac_message : option string;
  ac_priority : Z;
  ac_timeout_seconds : Z;
  ac_result : strmap;
  ac_sent_at : option Time;
  ac_acknowledged_at : option Time;
  ac_completed_at : option Time;
  ac_created_at : Time;
  ac_updated_at : Time;
  ac_deadline_at : option Time;
}.

Record DeliveryRow := mkDeliveryRow {
  pd_tenant_id : UUID;
  pd_node_id : UUID;
  pd_policy_domain : string;
  pd_policy_ref : string;
  pd_policy_name : option string;
  pd_action : string;
  pd_command_id : UUID;
  pd_command_status : string;
  pd_last_error : option string;
  pd_metadata : object;
  pd_completed_at : option Time;
  pd_created_at : Time;
  pd_updated_at : Time;
}.

Record ControlRow := mkControlRow {
  cs_tenant_id : UUID;
  cs_desired_state_version : option string;
  cs_desired_state_metadata : object;
  cs_desired_state_updated_at : option Time;
  cs_applied_state_version : option string;
  cs_applied_state_updated_at : option Time;
  cs_observed_state : string;             (* NOT NULL DEFAULT 'idle' *)
  cs_observed_message : option string;
  cs_observed_at : option Time;
  cs_last_sync_at : option Time;
  cs_last_sync_error : option string;
  cs_created_at : Time;
  cs_updated_at : Time;
}.

(** [SaveNode], the only INSERT, leaves no NULL in the text columns, so these
    are plain texts; a NULL status stands for a row older than the column. *)
Record NodeRow := mkNodeRow {
  n_public_key : string;                  (* UNIQUE *)
  n_machine_id : string;
  n_tenant_id : UUID;
  n_endpoint : string;
  n_private_ip : string;
  n_public_ip : string;
  n_region : string;
  n_vpc_id : string;
  n_hostname : string;
  n_assigned_ip : string;
  n_ip_offset : Z;
  n_last_seen : Z;                        (* seconds *)
  n_registered_at : Z;
  n_role : string;
  n_runtime_mode : option string;
  n_kernel_version : option string;
  n_has_aesni : option bool;
  n_status : option string;
  n_offline_since : option Z;
  n_advertised_routes : list string;
  n_enrolled_with_token : option string;
  n_runtime_token_version : Z;
  n_created_at : Time;
  n_updated_at : Time;
}.

Record TenantRow := mkTenantRow {
  t_name : string;
  t_code : option string;                 (* UNIQUE *)
  t_email : option string;
  t_phone : option string;
  t_status : option string;
  t_resource_quota : option string;       (* JSON *)
  t_created_at : Time;
  t_updated_at : Time;
}.

(** Every INSERT gives a role. *)
Record UserRow := mkUserRow {
  u_username : string;                    (* UNIQUE *)
  u_password_hash : string;
  u_tenant_id : option UUID;
  u_role : string;
  u_email : option string;
  u_must_change_password : option bool;
  u_token_version : Z;
  u_created_at : Time;
  u_updated_at : Time;
}.

Record CertRow := mkCertRow {
  c_id : UUID;
  c_tenant_id : UUID;
  c_serial_number : string;
  c_cert_pem : string;
  c_ca_pem : string;
  c_not_before : Time;
  c_not_after : Time;
  c_status : string;
  c_issued_at : Time;
  c_revoked_at : option Time;
  c_revoke_reason : option string;
  c_renewed_from : option UUID;
  c_updated_at : Time;
}.

Record AuditRow := mkAuditRow {
  ae_tenant_id : UUID;
  ae_node_id : option UUID;
  ae_event_type : string;
  ae_actor : string;
  ae_summary : string;
  ae_detail : object;
  ae_created_at : Time;
}.

Record AlertRow := mkAlertRow {
  al_tenant_id : UUID;
  al_node_id : option UUID;
  al_alert_type : string;
  al_severity : string;
  al_title : string;
  al_message : option string;
  al_context : object;
  al_status : string;
  al_created_at : Time;
  al_resolved_at : option Time;
}.

(** Rows that refer to nodes and that only the clean-up of nodes touches here. *)
Record DeviceConfigRow := mkDeviceConfigRow {
  dc_node_id : option UUID;
  dc_version : Z;
  dc_config_body : object;
}.
Record TunnelRow := mkTunnelRow {
  tl_src_node_id : option UUID;
  tl_dst_node_id : option UUID;
  tl_link_type : option string;
  tl_status : option string;
}.
Record AllocationRow := mkAllocationRow {
  ia_pool_id : option Z;
  ia_node_id : option UUID;
  ia_ip_address : string;
  ia_ip_offset : Z;
}.
(** The statistics of a node as they are stored: numbers of the node, the text of
    the time, and the numbers of its rules. *)
Inductive stat :=
  | StatNumber (x : spec_float)
  | StatText (s : string)
  | StatRules (rules : gmap string (gmap string spec_float)).
Record StatsRow := mkStatsRow {
  ns_tenant_id : UUID;
  ns_stats : gmap string stat;
  ns_updated_at : Time;
}.

(** [Create] in [internal/token], the only INSERT, leaves no NULL in the
    columns that are plain here. *)
Record TokenRow := mkTokenRow {
  tk_token : string;                      (* UNIQUE *)
  tk_tag : string;
  tk_tenant_id : option UUID;
  tk_max_uses : Z;
  tk_used_count : Z;
  tk_expires_at : Time;
  tk_created_at : Time;
  tk_created_by : string;
  tk_status : string;
  tk_last_used_at : option Time;
  tk_last_used_by : option string;
}.

Record RoleRow := mkRoleRow {
  rl_tenant_id : UUID;                    (* UNIQUE with the name *)
  rl_name : string;
  rl_description : string;
  rl_is_system : bool;
  rl_permissions : list string;
  rl_created_at : Time;
  rl_updated_at : Time;
}.

Record IPGroupRow := mkIPGroupRow {
  ig_tenant_id : UUID;                    (* UNIQUE with the name *)
  ig_name : string;
  ig_description : string;
  ig_kind : string;
  ig_created_by : option UUID;
  ig_created_at : Time;
  ig_updated_at : Time;
}.

Record IPGroupMemberRow := mkIPGroupMemberRow {
  im_tenant_id : UUID;
  im_group_id : UUID;                     (* UNIQUE with the cidr *)
  im_cidr : Prefix;                       (* CIDR: no host bits *)
  im_note : string;
  im_created_at : Time;
}.

(** The rule tables.  The INSERTs give every column that is plain here; the
    columns kept for the old data plane are [ar_src_net] to [ar_max_port]. *)
Record ACLRow := mkACLRow {
  ar_tenant_id : UUID;
  ar_node_id : UUID;
  ar_name : string;
  ar_action : string;
  ar_src_group_id : option UUID;
  ar_dst_group_id : option UUID;
  ar_src_cidr : option Prefix;
  ar_dst_cidr : option Prefix;
  ar_dst_port : option Z;
  ar_protocol : Z;
  ar_direction : string;
  ar_ports : string;
  ar_priority : Z;
  ar_enabled : bool;
  ar_description : string;
  ar_src_net : Prefix;
  ar_dst_net : Prefix;
  ar_min_port : Z;
  ar_max_port : Z;
  ar_created_at : Time;
  ar_updated_at : Time;
}.

Record QoSRow := mkQoSRow {
  qr_tenant_id : UUID;
  qr_node_id : UUID;
  qr_group_id : option UUID;
  qr_src_cidr : option Prefix;
  qr_dst_cidr : option Prefix;
  qr_src_port : option Z;
  qr_dst_port : option Z;
  qr_protocol : option Z;
  qr_bandwidth_mbps : Z;
  qr_direction : string;
  qr_rate_bps : Z;
  qr_burst_bytes : Z;
  qr_priority : Z;
  qr_mode : string;
  qr_enabled : bool;
  qr_description : string;
  qr_created_at : Time;
  qr_updated_at : Time;
}.

Record BlacklistRow := mkBlacklistRow {
  br_tenant_id : UUID;
  br_node_id : UUID;
  br_scope : string;
  br_cidr : option Prefix;
  br_port : option Z;
  br_enabled : bool;
  br_description : string;
  br_created_at : Time;
  br_updated_at : Time;
}.

#[export] Instance eta_ACLRow : Eta ACLRow := λ r,
  mkACLRow (ar_tenant_id r) (ar_node_id r) (ar_name r) (ar_action r) (ar_src_group_id r)
    (ar_dst_group_id r) (ar_src_cidr r) (ar_dst_cidr r) (ar_dst_port r) (ar_protocol r)
    (ar_direction r) (ar_ports r) (ar_priority r) (ar_enabled r) (ar_description r)
    (ar_src_net r) (ar_dst_net r) (ar_min_port r) (ar_max_port r) (ar_created_at r)
    (ar_updated_at r).
#[export] Instance eta_QoSRow : Eta QoSRow := λ r,
  mkQoSRow (qr_tenant_id r) (qr_node_id r) (qr_group_id r) (qr_src_cidr r) (qr_dst_cidr r)
    (qr_src_port r) (qr_dst_port r) (qr_protocol r) (qr_bandwidth_mbps r) (qr_direction r)
    (qr_rate_bps r) (qr_burst_bytes r) (qr_priority r) (qr_mode r) (qr_enabled r)
    (qr_description r) (qr_created_at r) (qr_updated_at r).
#[export] Instance eta_BlacklistRow : Eta BlacklistRow := λ r,
  mkBlacklistRow (br_tenant_id r) (br_node_id r) (br_scope r) (br_cidr r) (br_port r)
    (br_enabled r) (br_description r) (br_created_at r) (br_updated_at r).
#[export] Instance eta_TokenRow : Eta TokenRow := λ r,
  mkTokenRow (tk_token r) (tk_tag r) (tk_tenant_id r) (tk_max_uses r) (tk_used_count r)
    (tk_expires_at r) (tk_created_at r) (tk_created_by r) (tk_status r)
    (tk_last_used_at r) (tk_last_used_by r).
#[export] Instance eta_RoleRow : Eta RoleRow := λ r,
  mkRoleRow (rl_tenant_id r) (rl_name r) (rl_description r) (rl_is_system r)
    (rl_permissions r) (rl_created_at r) (rl_updated_at r).
#[export] Instance eta_IPGroupRow : Eta IPGroupRow := λ r,
  mkIPGroupRow (ig_tenant_id r) (ig_name r) (ig_description r) (ig_kind r)
    (ig_created_by r) (ig_created_at r) (ig_updated_at r).
#[export] Instance eta_IPGroupMemberRow : Eta IPGroupMemberRow := λ r,
  mkIPGroupMemberRow (im_tenant_id r) (im_group_id r) (im_cidr r) (im_note r)
    (im_created_at r).
#[export] Instance eta_CommandRow : Eta CommandRow := λ r,
  mkCommandRow (ac_node_public_key r) (ac_command r) (ac_params r) (ac_status r)
    (ac_message r) (ac_priority r) (ac_timeout_seconds r) (ac_result r) (ac_sent_at r)
    (ac_acknowledged_at r) (ac_completed_at r) (ac_created_at r) (ac_updated_at r)
    (ac_deadline_at r).
#[export] Instance eta_DeliveryRow : Eta DeliveryRow := λ r,
  mkDeliveryRow (pd_tenant_id r) (pd_node_id r) (pd_policy_domain r) (pd_policy_ref r)
    (pd_policy_name r) (pd_action r) (pd_command_id r) (pd_command_status r)
    (pd_last_error r) (pd_metadata r) (pd_completed_at r) (pd_created_at r) (pd_updated_at r).
#[export] Instance eta_ControlRow : Eta ControlRow := λ r,
  mkControlRow (cs_tenant_id r) (cs_desired_state_version r) (cs_desired_state_metadata r)
    (cs_desired_state_updated_at r) (cs_applied_state_version r)
    (cs_applied_state_updated_at r) (cs_observed_state r) (cs_observed_message r)
    (cs_observed_at r) (cs_last_sync_at r) (cs_last_sync_error r) (cs_created_at r)
    (cs_updated_at r).
#[export] Instance eta_NodeRow : Eta NodeRow := λ r,
  mkNodeRow (n_public_key r) (n_machine_id r) (n_tenant_id r) (n_endpoint r)
    (n_private_ip r) (n_public_ip r) (n_region r) (n_vpc_id r) (n_hostname r) (n_assigned_ip r)
    (n_ip_offset r) (n_last_seen r) (n_registered_at r) (n_role r) (n_runtime_mode r)
    (n_kernel_version r) (n_has_aesni r) (n_status r) (n_offline_since r)
    (n_advertised_routes r) (n_enrolled_with_token r) (n_runtime_token_version r)
    (n_created_at r) (n_updated_at r).
#[export] Instance eta_TenantRow : Eta TenantRow := λ r,
  mkTenantRow (t_name r) (t_code r) (t_email r) (t_phone r) (t_status r) (t_resource_quota r)
    (t_created_at r) (t_updated_at r).
#[export] Instance eta_UserRow : Eta UserRow := λ r,
  mkUserRow (u_username r) (u_password_hash r) (u_tenant_id r) (u_role r) (u_email r)
    (u_must_change_password r) (u_token_version r) (u_created_at r) (u_updated_at r).
#[export] Instance eta_CertRow : Eta CertRow := λ r,
  mkCertRow (c_id r) (c_tenant_id r) (c_serial_number r) (c_cert_pem r) (c_ca_pem r)
    (c_not_before r) (c_not_after r) (c_status r) (c_issued_at r) (c_revoked_at r)
    (c_revoke_reason r) (c_renewed_from r) (c_updated_at r).
#[export] Instance eta_AuditRow : Eta AuditRow := λ r,
  mkAuditRow (ae_tenant_id r) (ae_node_id r) (ae_event_type r) (ae_actor r) (ae_summary r)
    (ae_detail r) (ae_created_at r).
#[export] Instance eta_AlertRow : Eta AlertRow := λ r,
  mkAlertRow (al_tenant_id r) (al_node_id r) (al_alert_type r) (al_severity r)
    (al_title r) (al_message r) (al_context r) (al_status r) (al_created_at r)
    (al_resolved_at r).

Record DB := mkDB {
  agent_commands : gmap UUID CommandRow;
  policy_deliveries : gmap UUID DeliveryRow;
  node_control_states : gmap UUID ControlRow;    (* by node_id *)
  nodes : gmap UUID NodeRow;
  tenants : gmap UUID TenantRow;
  users : gmap UUID UserRow;
  node_certificates : gmap UUID CertRow;         (* by node_id, UNIQUE *)
  audit_events : list AuditRow;
  alerts : gmap UUID AlertRow;
  next_offset : option Z;                        (* state, key 'next_offset' *)
  acl_rules : gmap UUID ACLRow;
  qos_rules : gmap UUID QoSRow;
  blacklist_rules : gmap UUID BlacklistRow;
  device_configs : list DeviceConfigRow;
  tunnel_links : list TunnelRow;
  ip_allocations : list AllocationRow;
  node_policy_stats : gmap UUID StatsRow;        (* by node_id *)
  tokens : gmap UUID TokenRow;
  roles : gmap UUID RoleRow;
  ip_groups : gmap UUID IPGroupRow;
  ip_group_members : gmap UUID IPGroupMemberRow;
}.
#[export] Instance eta_DB : Eta DB := λ r,
  mkDB (agent_commands r) (policy_deliveries r) (node_control_states r) (nodes r)
    (tenants r) (users r) (node_certificates r) (audit_events r) (alerts r)
    (next_offset r) (acl_rules r) (qos_rules r) (blacklist_rules r) (device_configs r)
    (tunnel_links r) (ip_allocations r) (node_policy_stats r) (tokens r) (roles r)
    (ip_groups r) (ip_group_members r).

(** ** Statements on a table *)

(** The range of an INTEGER column. *)
Definition int4 (n : Z) : bool := (- 2 ^ 31 <=? n) && (n <? 2 ^ 31).

Section table.
Context {R : Type}.
Implicit Types (p : UUID → R → bool) (f : R → R) (m : gmap UUID R).

(** [UPDATE ... SET f WHERE p]. *)
Definition update_where p f m : gmap UUID R :=
  map_imap (λ k r, Some (if p k r then f r else r)) m.
(** The rows [WHERE p] selects, in storage order. *)
Definition select_where p m : list (UUID * R) :=
  filter (λ kr, p kr.1 kr.2 = true) (map_to_list m).
(** [DELETE ... WHERE p]. *)
Definition delete_where p m : gmap UUID R := filter (λ kr, p kr.1 kr.2 = false) m.
(** [RowsAffected]. *)
Definition count_where p m : Z := Z.of_nat (length (select_where p m)).

Lemma lookup_update_where p f m k :
  update_where p f m !! k = (λ r, if p k r then f r else r) <$> m !! k.
Proof. unfold update_where. rewrite map_lookup_imap. by destruct (m !! k). Qed.

Lemma lookup_update_where_Some p f m k r' :
  update_where p f m !! k = Some r' ↔
  ∃ r, m !! k = Some r ∧ r' = if p k r then f r else r.
Proof. rewrite lookup_update_where, fmap_Some. done. Qed.

Lemma select_where_elem p m k r :
  (k, r) ∈ select_where p m ↔ m !! k = Some r ∧ p k r = true.
Proof. unfold select_where. rewrite list_elem_of_filter, elem_of_map_to_list. simpl. tauto. Qed.

Lemma count_where_0 p m :
  count_where p m = 0 ↔ ∀ k r, m !! k = Some r → p k r = false.
Proof.
  unfold count_where. split.
  - intros H k r Hk. destruct (p k r) eqn:Hp; [|done].
    assert ((k, r) ∈ select_where p m) as Hin by by apply select_where_elem.
    destruct (select_where p m); [by apply elem_of_nil in Hin|simpl in H; lia].
  - intros H. destruct (select_where p m) as [|[k r] l] eqn:Hl; [done|].
    assert ((k, r) ∈ select_where p m) as Hin by (rewrite Hl; left).
    apply select_where_elem in Hin as [Hk Hp]. by rewrite (H k r Hk) in Hp.
Qed.

(** [EXISTS (SELECT 1 ... WHERE p)]. *)
Definition exists_where p m : bool := negb (count_where p m =? 0).
Lemma exists_where_spec p m :
  exists_where p m = true ↔ ∃ k r, m !! k = Some r ∧ p k r = true.
Proof.
  unfold exists_where. rewrite negb_true_iff, Z.eqb_neq. split.
  - intros Hn. destruct (select_where p m) as [|[k r] l] eqn:Hl.
    { exfalso. apply Hn. unfold count_where. by rewrite Hl. }
    exists k, r. apply select_where_elem. rewrite Hl. left.
  - intros (k & r & Hk & Hp) H0. rewrite count_where_0 in H0.
    by rewrite (H0 k r Hk) in Hp.
Qed.
Lemma exists_where_false p m :
  exists_where p m = false ↔ ∀ k r, m !! k = Some r → p k r = false.
Proof. unfold exists_where. by rewrite negb_false_iff, Z.eqb_eq, count_where_0. Qed.

Lemma lookup_delete_where p m k :
  delete_where p m !! k =
  match m !! k with Some r => if p k r then None else Some r | None => None end.
Proof.
  unfold delete_where. rewrite map_lookup_filter. destruct (m !! k) as [r|]; simpl; [|done].
  destruct (p k r) eqn:Hp; case_guard; simpl in *; congruence.
Qed.

Lemma update_where_none p f m :
  (∀ k r, m !! k = Some r → p k r = false) → update_where p f m = m.
Proof.
  intros H. apply map_eq. intros k. rewrite lookup_update_where.
  destruct (m !! k) as [r|] eqn:Hk; simpl; [|done]. by rewrite (H k r Hk).
Qed.

(** An UPDATE that selects one row. *)
Lemma update_where_one p f m k r :
  m !! k = Some r → p k r = true → (∀ j x, m !! j = Some x → p j x = true → j = k) →
  update_where p f m = <[k := f r]> m.
Proof.
  intros Hk Hp Honly. apply map_eq. intros j. rewrite lookup_update_where.
  destruct (decide (j = k)) as [-> | Hne].
  - rewrite Hk, lookup_insert_eq. simpl. by rewrite Hp.
  - rewrite lookup_insert_ne by done. destruct (m !! j) as [x|] eqn:Hj; [|done]. simpl.
    destruct (p j x) eqn:Hx; [|done]. by apply Honly in Hx.
Qed.

Lemma dom_update_where p f m : dom (update_where p f m) = dom m.
Proof.
  apply set_eq. intros k. rewrite !elem_of_dom, lookup_update_where.
  by destruct (m !! k).
Qed.
End table.

(** ** The monad *)

(** What a call reads from outside: the database's [NOW()], Go's
    [time.Now()], the identifiers [gen_random_uuid()] and [uuid.New()] give,
    and which statements fail. *)
Record Env := mkEnv {
  env_now : Time;
  env_go_now : Time;
  env_uuid : nat → nat → UUID;     (* by round trip, and by row of its statement *)
  env_fault : nat → bool;
}.

(** The tables and the number of database round trips so far. *)
Record St := mkSt { st_db : DB; st_tick : nat }.

Definition M (A : Type) : Type := Env → St → result A * St.

#[export] Instance M_ret : MRet M := λ A a e st, (Ok a, st).
#[export] Instance M_bind : MBind M := λ A B k m e st,
  match m e st with
  | (Ok a, st') => k a e st'
  | (Err x, st') => (Err x, st')
  end.

(** [return ..., err]. *)
Definition fail {A} (x : error) : M A := λ e st, (Err x, st).
(** A call whose error the caller looks at. *)
Definition attempt {A} (m : M A) : M (result A) := λ e st,
  let (r, st') := m e st in (Ok r, st').
(** The error of a best-effort write is logged and dropped. *)
Definition best_effort {A} (m : M A) : M unit := _ ← attempt m; mret ().
(** [fmt.Errorf("msg: %v", err)]: the cause's text is left out. *)
Definition wrap {A} (msg : string) (m : M A) : M A := λ e st,
  match m e st with
  | (Ok a, st') => (Ok a, st')
  | (Err _, st') => (Err (ErrorString msg), st')
  end.
Definition ask {A} (f : Env → A) : M A := λ e st, (Ok (f e), st).
(** A computation that touches no table. *)
Definition lift {A} (f : Env → result A) : M A := λ e st, (f e, st).
(** [uuid.New()] in Go. *)
Definition new_uuid : M UUID := λ e st,
  (Ok (env_uuid e (st_tick st) 0%nat), mkSt (st_db st) (S (st_tick st))).

(** One statement: it fails, or computes a result and the new tables; the
    identifiers are those a DEFAULT gen_random_uuid() column would get, row by
    row. *)
Definition stmt_rows {A} (f : Env → (nat → UUID) → DB → result (A * DB)) : M A := λ e st,
  let t := st_tick st in
  if env_fault e t then (Err ErrDriver, mkSt (st_db st) (S t)) else
  match f e (env_uuid e t) (st_db st) with
  | Ok (a, db') => (Ok a, mkSt db' (S t))
  | Err x => (Err x, mkSt (st_db st) (S t))
  end.
Definition stmt {A} (f : Env → UUID → DB → result (A * DB)) : M A :=
  stmt_rows (λ e ids db, f e (ids 0%nat) db).
(** A statement that changes tables and cannot violate a constraint. *)
Definition exec {A} (f : Env → DB → A * DB) : M A :=
  stmt (λ e _ db, Ok (f e db)).
(** A SELECT. *)
Definition query {A} (f : Env → DB → A) : M A :=
  stmt (λ e _ db, Ok (f e db, db)).
(** A SELECT scanned into a row: [sql.ErrNoRows] when there is none. *)
Definition query_row {A} (f : Env → DB → option A) : M A :=
  stmt (λ e _ db, match f e db with Some a => Ok (a, db) | None => Err ErrNoRows end).

(** How the body of a transaction leaves it. *)
Inductive outcome (A : Type) :=
  | Commit (a : A)                  (* tx.Commit() *)
  | Abandon (a : A).                (* return without it: the rollback runs *)
Arguments Commit {A} a.
Arguments Abandon {A} a.

(** [Begin], the body, and [Commit] or the deferred rollback. *)
Definition tx {A} (body : M (outcome A)) : M A := λ e st,
  if env_fault e (st_tick st) then (Err ErrDriver, mkSt (st_db st) (S (st_tick st))) else
  match body e (mkSt (st_db st) (S (st_tick st))) with
  | (Err x, st') => (Err x, mkSt (st_db st) (st_tick st'))
  | (Ok (Abandon a), st') => (Ok a, mkSt (st_db st) (st_tick st'))
  | (Ok (Commit a), st') =>
    if env_fault e (st_tick st')
    then (Err ErrDriver, mkSt (st_db st) (S (st_tick st')))
    else (Ok a, mkSt (st_db st') (S (st_tick st')))
  end.

(** ** Running *)

Definition no_faults (e : Env) : Prop := ∀ t, env_fault e t = false.

(** Inversion of a successful run. *)
Lemma bind_ok {A B} (k : A → M B) (m : M A) e st b st' :
  (m ≫= k) e st = (Ok b, st') →
  ∃ a st1, m e st = (Ok a, st1) ∧ k a e st1 = (Ok b, st').
Proof.
  unfold mbind, M_bind. destruct (m e st) as [[a|x] st1]; [|done]. eauto.
Qed.

Lemma stmt_rows_ok {A} (f : Env → (nat → UUID) → DB → result (A * DB)) e st a st' :
  stmt_rows f e st = (Ok a, st') →
  f e (env_uuid e (st_tick st)) (st_db st) = Ok (a, st_db st') ∧
  st_tick st' = S (st_tick st) ∧ env_fault e (st_tick st) = false.
Proof.
  unfold stmt_rows. destruct (env_fault e (st_tick st)); [done|].
  destruct (f _ _ _) as [[a' db']|x] eqn:Hf; [|done]. intros [= <- <-]. done.
Qed.
Lemma stmt_ok {A} (f : Env → UUID → DB → result (A * DB)) e st a st' :
  stmt f e st = (Ok a, st') →
  f e (env_uuid e (st_tick st) 0%nat) (st_db st) = Ok (a, st_db st') ∧
  st_tick st' = S (st_tick st) ∧ env_fault e (st_tick st) = false.
Proof. apply stmt_rows_ok. Qed.

Lemma wrap_ok {A} msg (m : M A) e st a st' :
  wrap msg m e st = (Ok a, st') → m e st = (Ok a, st').
Proof. unfold wrap. by destruct (m e st) as [[?|?] ?]. Qed.

Lemma query_row_ok {A} (f : Env → DB → option A) e st a st' :
  query_row f e st = (Ok a, st') →
  f e (st_db st) = Some a ∧ st_db st' = st_db st.
Proof.
  unfold query_row. intros (Hf & _ & _)%stmt_ok. destruct (f e (st_db st)); naive_solver.
Qed.

Lemma query_ok {A} (f : Env → DB → A) e st a st' :
  query f e st = (Ok a, st') → a = f e (st_db st) ∧ st_db st' = st_db st.
Proof. unfold query. intros (Hf & _ & _)%stmt_ok. naive_solver. Qed.

Lemma exec_ok {A} (f : Env → DB → A * DB) e st a st' :
  exec f e st = (Ok a, st') → a = (f e (st_db st)).1 ∧ st_db st' = (f e (st_db st)).2.
Proof.
  unfold exec. intros (Hf & _ & _)%stmt_ok. destruct (f e (st_db st)). naive_solver.
Qed.

Lemma tx_ok {A} (body : M (outcome A)) e st a st' :
  tx body e st = (Ok a, st') →
  ∃ st1, (body e (mkSt (st_db st) (S (st_tick st))) = (Ok (Commit a), st1) ∧
          st_db st' = st_db st1)
       ∨ (body e (mkSt (st_db st) (S (st_tick st))) = (Ok (Abandon a), st1) ∧
          st_db st' = st_db st).
Proof.
  unfold tx. destruct (env_fault e (st_tick st)); [done|].
  destruct (body _ _) as [[[b|b]|x] st1] eqn:Hb; [|intros [= <- <-]; eauto|done].
  destruct (env_fault e (st_tick st1)); [done|]. intros [= <- <-]; eauto.
Qed.

(** A transaction that returns an error changes no table. *)
Lemma tx_err {A} (body : M (outcome A)) e st x st' :
  tx body e st = (Err x, st') → st_db st' = st_db st.
Proof.
  unfold tx. destruct (env_fault e (st_tick st)); [by intros [= <- <-]|].
  destruct (body _ _) as [[[b|b]|y] st1] eqn:Hb; [|done|by intros [= <- <-]].
  destruct (env_fault e (st_tick st1)); [by intros [= <- <-]|done].
Qed.

(** The steps of a run that succeeds. *)
Lemma bind_run {A B} (m : M A) (k : A → M B) e st a st' :
  m e st = (Ok a, st') → (m ≫= k) e st = k a e st'.
Proof. unfold mbind, M_bind. by intros ->. Qed.
Lemma exec_run {A} (f : Env → DB → A * DB) e st :
  no_faults e → exec f e st = (Ok (f e (st_db st)).1, mkSt (f e (st_db st)).2 (S (st_tick st))).
Proof. intros Hf. unfold exec, stmt, stmt_rows. rewrite Hf. by destruct (f _ _). Qed.
Lemma query_run {A} (f : Env → DB → A) e st :
  no_faults e → query f e st = (Ok (f e (st_db st)), mkSt (st_db st) (S (st_tick st))).
Proof. intros Hf. unfold query, stmt, stmt_rows. by rewrite Hf. Qed.
Lemma query_row_run {A} (f : Env → DB → option A) e st a :
  no_faults e → f e (st_db st) = Some a →
  query_row f e st = (Ok a, mkSt (st_db st) (S (st_tick st))).
Proof. intros Hf Ha. unfold query_row, stmt, stmt_rows. by rewrite Hf, Ha. Qed.
Lemma wrap_run {A} msg (m : M A) e st a st' :
  m e st = (Ok a, st') → wrap msg m e st = (Ok a, st').
Proof. unfold wrap. by intros ->. Qed.
Lemma attempt_run {A} (m : M A) e st a st' :
  m e st = (Ok a, st') → attempt m e st = (Ok (Ok a), st').
Proof. unfold attempt. by intros ->. Qed.
Lemma tx_run {A} (body : M (outcome A)) e st a st' :
  no_faults e → body e (mkSt (st_db st) (S (st_tick st))) = (Ok (Commit a), st') →
  tx body e st = (Ok a, mkSt (st_db st') (S (st_tick st'))).
Proof. intros Hf Hb. unfold tx. rewrite Hf, Hb. by rewrite Hf. Qed.

(** ** Relations and invariants of calls *)

(** Whatever the result, the tables before and after a call are related. *)
Definition changes {A} (R : DB → DB → Prop) (m : M A) : Prop :=
  ∀ e st, R (st_db st) (st_db (m e st).2).
(** Whatever the result, a call keeps an invariant. *)
Definition keeps {A} (I : DB → Prop) (m : M A) : Prop :=
  ∀ e st, I (st_db st) → I (st_db (m e st).2).

Section changes.
Context (R : DB → DB → Prop) `{!PreOrder R}.

Lemma changes_ret {A} (a : A) : changes R (mret a).
Proof. intros e st. reflexivity. Qed.
Lemma changes_fail {A} x : changes R (fail (A:=A) x).
Proof. intros e st. reflexivity. Qed.
Lemma changes_ask {A} (f : Env → A) : changes R (ask f).
Proof. intros e st. reflexivity. Qed.
Lemma changes_lift {A} (f : Env → result A) : changes R (lift f).
Proof. intros e st. reflexivity. Qed.
Lemma changes_new_uuid : changes R new_uuid.
Proof. intros e st. reflexivity. Qed.
Lemma changes_bind {A B} (m : M A) (k : A → M B) :
  changes R m → (∀ a, changes R (k a)) → changes R (m ≫= k).
Proof.
  intros Hm Hk e st. specialize (Hm e st). unfold mbind, M_bind.
  destruct (m e st) as [[a|x] st']; simpl in *; [|done].
  etrans; [done|]. apply Hk.
Qed.
Lemma changes_attempt {A} (m : M A) : changes R m → changes R (attempt m).
Proof. intros Hm e st. specialize (Hm e st). unfold attempt. by destruct (m e st). Qed.
Lemma changes_wrap {A} msg (m : M A) : changes R m → changes R (wrap msg m).
Proof. intros Hm e st. specialize (Hm e st). unfold wrap. by destruct (m e st) as [[?|?] ?]. Qed.
Lemma changes_best_effort {A} (m : M A) : changes R m → changes R (best_effort m).
Proof. intros Hm. by apply changes_bind; [apply changes_attempt|intros; apply changes_ret]. Qed.
Lemma changes_stmt_rows {A} (f : Env → (nat → UUID) → DB → result (A * DB)) :
  (∀ e ids db a db', f e ids db = Ok (a, db') → R db db') → changes R (stmt_rows f).
Proof.
  intros Hf e st. unfold stmt_rows. case_match; [reflexivity|].
  destruct (f _ _ _) as [[a db']|] eqn:Hr; [by eapply Hf|reflexivity].
Qed.
Lemma changes_stmt {A} (f : Env → UUID → DB → result (A * DB)) :
  (∀ e id db a db', f e id db = Ok (a, db') → R db db') → changes R (stmt f).
Proof. intros Hf. apply changes_stmt_rows. intros e ids. apply Hf. Qed.
Lemma changes_exec {A} (f : Env → DB → A * DB) :
  (∀ e db, R db (f e db).2) → changes R (exec f).
Proof. intros Hf. apply changes_stmt. intros e ? db a db' [= Heq]. specialize (Hf e db). by rewrite Heq in Hf. Qed.
Lemma changes_query {A} (f : Env → DB → A) : changes R (query f).
Proof. apply changes_stmt. intros. simplify_eq. reflexivity. Qed.
Lemma changes_query_row {A} (f : Env → DB → option A) : changes R (query_row f).
Proof. apply changes_stmt. intros. case_match; simplify_eq. reflexivity. Qed.
(** A transaction relates what its committing paths relate. *)
Lemma changes_tx_commit {A} (body : M (outcome A)) :
  (∀ e st a st', body e st = (Ok (Commit a), st') → R (st_db st) (st_db st')) →
  changes R (tx body).
Proof.
  intros Hb e st. unfold tx. case_match; [reflexivity|].
  destruct (body _ _) as [[[a|a]|x] st'] eqn:Hr; try reflexivity.
  case_match; [reflexivity|]. apply (Hb _ _ _ _ Hr).
Qed.
Lemma changes_tx {A} (body : M (outcome A)) : changes R body → changes R (tx body).
Proof.
  intros Hb e st. unfold tx. case_match; [reflexivity|].
  specialize (Hb e (mkSt (st_db st) (S (st_tick st)))).
  destruct (body _ _) as [[[a|a]|x] st']; simpl in *; try reflexivity.
  case_match; [reflexivity|done].
Qed.
End changes.

Section keeps.
Context (I : DB → Prop).

(** A transaction keeps what its committing paths keep. *)
Lemma keeps_tx {A} (body : M (outcome A)) :
  (∀ e st a st', body e st = (Ok (Commit a), st') → I (st_db st) → I (st_db st')) →
  keeps I (tx body).
Proof.
  intros Hb e st Hi. unfold tx. case_match; [done|].
  destruct (body _ _) as [[[a|a]|x] st'] eqn:Hr; try done.
  case_match; [done|]. simpl. by eapply Hb.
Qed.
(** So does a call that returns an error only before its first change. *)
Lemma keeps_bind {A B} (m : M A) (k : A → M B) :
  keeps I m → (∀ a, keeps I (k a)) → keeps I (m ≫= k).
Proof.
  intros Hm Hk e st Hi. specialize (Hm e st Hi). unfold mbind, M_bind.
  destruct (m e st) as [[a|x] st']; simpl in *; [by apply Hk|done].
Qed.
Lemma keeps_ret {A} (a : A) : keeps I (mret a).
Proof. by intros e st. Qed.
Lemma keeps_fail {A} x : keeps I (fail (A:=A) x).
Proof. by intros e st. Qed.
Lemma keeps_attempt {A} (m : M A) : keeps I m → keeps I (attempt m).
Proof. intros Hm e st Hi. specialize (Hm e st Hi). unfold attempt. by destruct (m e st). Qed.
Lemma keeps_stmt_rows {A} (f : Env → (nat → UUID) → DB → result (A * DB)) :
  (∀ e ids db a db', f e ids db = Ok (a, db') → I db → I db') → keeps I (stmt_rows f).
Proof.
  intros Hf e st Hi. unfold stmt_rows. case_match; [done|].
  destruct (f _ _ _) as [[a db']|] eqn:Hr; [by eapply Hf|done].
Qed.
Lemma keeps_stmt {A} (f : Env → UUID → DB → result (A * DB)) :
  (∀ e id db a db', f e id db = Ok (a, db') → I db → I db') → keeps I (stmt f).
Proof. intros Hf. apply keeps_stmt_rows. intros e ids. apply Hf. Qed.
Lemma keeps_query {A} (f : Env → DB → A) : keeps I (query f).
Proof. apply keeps_stmt. by intros; simplify_eq. Qed.
Lemma keeps_changes {A} (R : DB → DB → Prop) (m : M A) :
  (∀ db db', R db db' → I db → I db') → changes R m → keeps I m.
Proof. intros HR Hm e st Hi. by eapply HR, Hi. Qed.
End keeps.
#[export] Hint Resolve keeps_bind keeps_ret keeps_fail keeps_attempt keeps_query : aria.

(** [for _, x := range l { body(x) }]. *)
Fixpoint for_each {A} (l : list A) (body : A → M unit) : M unit :=
  match l with [] => mret () | x :: l' => _ ← body x; for_each l' body end.

Lemma changes_for_each (R : DB → DB → Prop) `{!PreOrder R} {A} (l : list A) body :
  (∀ x, changes R (body x)) → changes R (for_each l body).
Proof.
  intros Hb. induction l; simpl; [apply (changes_ret R)|]. by apply (changes_bind R).
Qed.

(** The same with the values of the body appended to a slice. *)
Fixpoint map_each {A B} (f : A → M B) (l : list A) : M (list B) :=
  match l with
  | [] => mret []
  | x :: l' => y ← f x; ys ← map_each f l'; mret (y :: ys)
  end.

Lemma changes_map_each (R : DB → DB → Prop) `{!PreOrder R} {A B} (l : list A) (f : A → M B) :
  (∀ x, changes R (f x)) → changes R (map_each f l).
Proof.
  intros Hb. induction l; simpl; [apply (changes_ret R)|].
  apply (changes_bind R); [done|intros y]. apply (changes_bind R); [done|intros ys].
  apply (changes_ret R).
Qed.
Lemma map_each_ok {A B} (f : A → M B) l e st ys st' (P : A → B → Prop) :
  (∀ x st y st', f x e st = (Ok y, st') → st_db st' = st_db st) →
  (∀ x st1 y st1', st_db st1 = st_db st → f x e st1 = (Ok y, st1') → P x y) →
  map_each f l e st = (Ok ys, st') → st_db st' = st_db st ∧ Forall2 P l ys.
Proof.
  intros Hkeep. revert st ys. induction l as [|x l IH]; intros st ys HP H; cbn [map_each] in H.
  - unfold mret, M_ret in H. simplify_eq. by split.
  - apply bind_ok in H as (y & st1 & H1 & H). apply bind_ok in H as (ys' & st2 & H2 & H).
    unfold mret, M_ret in H. simplify_eq. pose proof (Hkeep _ _ _ _ H1) as Hdb.
    apply IH in H2 as [Hdb2 Hf]; [|intros z s1 w s1' Hs; apply HP; by rewrite Hs].
    split; [by rewrite Hdb2|]. constructor; [by apply (HP x st y st1)|done].
Qed.

(** A call that never returns an error. *)
Definition total {A} (m : M A) : Prop := ∀ e st, is_ok (m e st).1 = true.
Lemma total_ret {A} (a : A) : total (mret a).
Proof. done. Qed.
Lemma total_attempt {A} (m : M A) : total (attempt m).
Proof. intros e st. unfold attempt. by destruct (m e st). Qed.
Lemma total_bind {A B} (m : M A) (k : A → M B) : total m → (∀ a, total (k a)) → total (m ≫= k).
Proof.
  intros Hm Hk e st. specialize (Hm e st). unfold mbind, M_bind.
  destruct (m e st) as [[a|x] st']; [apply Hk|done].
Qed.
Lemma total_best_effort {A} (m : M A) : total (best_effort m).
Proof. apply total_bind; [apply total_attempt|by intros]. Qed.
Lemma total_for_each {A} (l : list A) body : (∀ x, total (body x)) → total (for_each l body).
Proof. intros Hb. induction l; simpl; [done|]. by apply total_bind. Qed.
#[export] Hint Resolve total_ret total_attempt total_bind total_best_effort total_for_each : aria.

(** Walk through a call whose calls are known to be related by [R]; what is
    left are the statements of its own. *)
Ltac chg_step :=
  match goal with
  | |- changes ?R (mret _) => apply (changes_ret R)
  | |- changes ?R (fail _) => apply (changes_fail R)
  | |- changes ?R (ask _) => apply (changes_ask R)
  | |- changes ?R (lift _) => apply (changes_lift R)
  | |- changes ?R new_uuid => apply (changes_new_uuid R)
  | |- changes ?R (query _) => apply (changes_query R)
  | |- changes ?R (query_row _) => apply (changes_query_row R)
  | |- changes ?R (attempt _) => apply (changes_attempt R)
  | |- changes ?R (wrap _ _) => apply (changes_wrap R)
  | |- changes ?R (best_effort _) => apply (changes_best_effort R)
  | |- changes ?R (_ ≫= _) => apply (changes_bind R); [|intros ?]
  | |- changes ?R (for_each _ _) => apply (changes_for_each R); intros ?
  | |- changes ?R (map_each _ _) => apply (changes_map_each R); intros ?
  | |- changes _ (match ?x with _ => _ end) => destruct x eqn:?
  | |- changes _ (let _ := _ in _) => cbv zeta
  | |- changes _ _ => solve [eauto with aria]
  end.
Ltac chg := repeat chg_step.

(** A part of the tables is the same. *)
Definition same {T} (f : DB → T) (db db' : DB) : Prop := f db' = f db.
#[export] Instance same_preorder {T} (f : DB → T) : PreOrder (same f).
Proof. unfold same. split; [done|]. intros a b c. congruence. Qed.
(** ... and so are the statements of a call that leave it alone. *)
Ltac frame_step :=
  match goal with
  | |- changes ?R (exec _) => apply (changes_exec R); intros; reflexivity
  | |- changes ?R (stmt _) =>
    apply (changes_stmt R); intros; repeat (case_match; simplify_eq/=; try done); try reflexivity
  | |- changes ?R (tx _) => apply (changes_tx R)
  end.
Ltac frames := repeat first [chg_step | frame_step].

(** Split a successful run into its steps. *)
Ltac run_ok :=
  repeat match goal with
  | H : (_ ≫= _) _ _ = (Ok _, _) |- _ =>
    let a := fresh "a" in let s := fresh "st" in let H1 := fresh "Hstep" in
    apply bind_ok in H as (a & s & H1 & H)
  | H : mret _ _ _ = (Ok _, _) |- _ =>
    unfold mret, M_ret in H; simplify_eq/=
  | H : ask _ _ _ = (Ok _, _) |- _ => unfold ask in H; simplify_eq/=
  | H : lift _ _ _ = (Ok _, _) |- _ => unfold lift in H; simplify_eq/=
  | H : fail _ _ _ = (Ok _, _) |- _ => discriminate H
  | H : wrap _ _ _ _ = (Ok _, _) |- _ => apply wrap_ok in H
  | H : stmt_rows _ _ _ = (Ok _, _) |- _ =>
    let H1 := fresh "Hf" in let H2 := fresh "Htick" in
    apply stmt_rows_ok in H as (H1 & H2 & _); simplify_eq/=
  | H : stmt _ _ _ = (Ok _, _) |- _ =>
    let H1 := fresh "Hf" in let H2 := fresh "Htick" in
    apply stmt_ok in H as (H1 & H2 & _); simplify_eq/=
  | H : exec _ _ _ = (Ok _, _) |- _ =>
    let H1 := fresh "Hval" in let H2 := fresh "Hdb" in
    apply exec_ok in H as (H1 & H2); cbn [fst snd] in H1, H2
  | H : query _ _ _ = (Ok _, _) |- _ =>
    let H1 := fresh "Hval" in let H2 := fresh "Hdb" in
    apply query_ok in H as (H1 & H2)
  | H : query_row _ _ _ = (Ok _, _) |- _ =>
    let H1 := fresh "Hrow" in let H2 := fresh "Hdb" in
    apply query_row_ok in H as (H1 & H2)
  end.

(** ** Concrete inputs *)

(** The tables after [Migrate] on an empty database. *)
Definition empty_db : DB :=
  mkDB ∅ ∅ ∅ ∅ ∅ ∅ ∅ [] ∅ None ∅ ∅ ∅ [] [] [] ∅ ∅ ∅ ∅ ∅.
(** A run at time [t] in which every statement succeeds; identifiers are
    numbered by round trip. *)
Definition env_at (t : Time) : Env :=
  mkEnv t t (λ n i, "uuid-" +:+ pretty n +:+ "-" +:+ pretty i) (λ _, false).
