(* ===== verification/Events.v ===== *)
(** * Audit events and alerts

    [pkg/controllerstorage/audit_events.go], [alerts.go] and
    [alert_generator.go]: the writers the other components call. *)

From S2P Require Import Prelude GoStr Records Store.

Open Scope Z_scope.

(** The foreign keys of [audit_events] and [alerts]. *)
Definition tenant_exists (db : DB) (tenantID : UUID) : bool :=
  bool_decide (is_Some (tenants db !! tenantID)).
Definition node_exists (db : DB) (nodeID : UUID) : bool :=
  bool_decide (is_Some (nodes db !! nodeID)).
Definition node_ref_ok (db : DB) (nodeID : option UUID) : bool :=
  match nodeID with Some n => node_exists db n | None => true end.

(** ** Audit events *)

Record AuditEvent := mkAuditEvent {
  ev_TenantID : UUID;
  ev_NodeID : option UUID;
  ev_EventType : string;
  ev_Actor : string;
  ev_Summary : string;
  ev_Detail : object;
}.

Definition AuditCommandQueued : string := "command.queued".
Definition AuditCommandResult : string := "command.result".
Definition AuditCertRevoked : string := "cert.revoked".

(** The INSERT shared by [CreateAuditEvent] and the lifecycle transactions. *)
Definition insert_audit_event (event : AuditEvent) : M AuditRow :=
  stmt (λ e _ db,
    if negb (tenant_exists db (ev_TenantID event) && node_ref_ok db (ev_NodeID event))
    then Err (ErrConstraint "audit_events foreign key") else
    let row := mkAuditRow (ev_TenantID event) (ev_NodeID event) (ev_EventType event)
      (ev_Actor event) (ev_Summary event) (ev_Detail event) (env_now e) in
    Ok (row, db <| audit_events := audit_events db ++ [row] |>)).

Definition CreateAuditEvent (event : AuditEvent) : M AuditRow :=
  if negb (marshals (ev_Detail event))
  then fail (ErrorString "failed to marshal audit event detail")
  else insert_audit_event event.

(** ** Alerts *)

Record Alert := mkAlert {
  ar_TenantID : UUID;
  ar_NodeID : option UUID;
  ar_AlertType : string;
  ar_Severity : string;
  ar_Title : string;
  ar_Message : string;
  ar_Context : object;
}.

Definition CreateAlert (alert : Alert) : M (UUID * AlertRow) :=
  if negb (marshals (ar_Context alert))
  then fail (ErrorString "failed to marshal alert context") else
  stmt (λ e id db,
    if negb (tenant_exists db (ar_TenantID alert) && node_ref_ok db (ar_NodeID alert))
    then Err (ErrConstraint "alerts foreign key") else
    match alerts db !! id with
    | Some _ => Err (ErrConstraint "alerts_pkey")
    | None =>
      let row := mkAlertRow (ar_TenantID alert) (ar_NodeID alert) (ar_AlertType alert)
        (ar_Severity alert) (ar_Title alert) (Some (ar_Message alert))
        (ar_Context alert) "active" (env_now e) None in
      Ok ((id, row), db <| alerts := <[id := row]> (alerts db) |>)
    end).

Definition ResolveAlert (alertID : UUID) : M AlertRow :=
  stmt (λ e _ db,
    match alerts db !! alertID with
    | Some r =>
      if (al_status r =? "active")%string then
        let r' := r <| al_status := "resolved" |> <| al_resolved_at := Some (env_now e) |> in
        Ok (r', db <| alerts := <[alertID := r']> (alerts db) |>)
      else Err ErrNoRows
    | None => Err ErrNoRows
    end).

Definition active_alert (tenantID nodeID : UUID) (alertType : string)
    (_ : UUID) (r : AlertRow) : bool :=
  (al_tenant_id r =? tenantID)%string && bool_decide (al_node_id r = Some nodeID)
  && (al_alert_type r =? alertType)%string && (al_status r =? "active")%string.

Definition GetActiveAlertByNodeAndType (tenantID nodeID : UUID) (alertType : string)
    : M (option (UUID * AlertRow)) :=
  query (λ _ db, head (select_where (active_alert tenantID nodeID alertType) (alerts db))).

(** [GenerateNodeOfflineAlert]: an error of the lookup is returned. *)
Definition GenerateNodeOfflineAlert (tenantID nodeID : UUID) (hostname : string) : M unit :=
  existing ← GetActiveAlertByNodeAndType tenantID nodeID "node_offline";
  match existing with
  | Some _ => mret ()
  | None =>
    _ ← CreateAlert (mkAlert tenantID (Some nodeID) "node_offline" "critical"
          ("节点 " +:+ hostname +:+ " 离线") "" {["hostname" := JString hostname]});
    best_effort (CreateAuditEvent (mkAuditEvent tenantID (Some nodeID) "alert_created"
      "system" ("告警创建: 节点 " +:+ hostname +:+ " 离线") ∅))
  end.

Definition ResolveNodeOfflineAlert (tenantID nodeID : UUID) : M unit :=
  existing ← GetActiveAlertByNodeAndType tenantID nodeID "node_offline";
  match existing with
  | None => mret ()
  | Some (id, _) =>
    _ ← ResolveAlert id;
    best_effort (CreateAuditEvent (mkAuditEvent tenantID (Some nodeID) "alert_resolved"
      "system" "告警解除: 节点离线告警已自动解除" ∅))
  end.

(** [GenerateSyncFailedAlert] and [GeneratePolicyFailedAlert] drop the error of
    the lookup: a failed lookup counts as no alert. *)
Definition GenerateSyncFailedAlert (tenantID nodeID : UUID) (commandID errorMsg : string)
    : M unit :=
  existing ← attempt (GetActiveAlertByNodeAndType tenantID nodeID "sync_failed");
  match existing with
  | Ok (Some _) => mret ()
  | _ =>
    _ ← CreateAlert (mkAlert tenantID (Some nodeID) "sync_failed" "warning" "命令执行失败" ""
          (<["command_id" := JString commandID]> {["error" := JString errorMsg]}));
    best_effort (CreateAuditEvent (mkAuditEvent tenantID (Some nodeID) "alert_created"
      "system" "告警创建: 命令执行失败" ∅))
  end.

Definition GeneratePolicyFailedAlert (tenantID nodeID : UUID)
    (domain ref commandID errorMsg : string) : M unit :=
  existing ← attempt (GetActiveAlertByNodeAndType tenantID nodeID "policy_failed");
  match existing with
  | Ok (Some _) => mret ()
  | _ =>
    _ ← CreateAlert (mkAlert tenantID (Some nodeID) "policy_failed" "warning" "策略下发失败"
          ("策略 " +:+ domain +:+ "/" +:+ ref +:+ " 下发失败: " +:+ errorMsg)
          (<["policy_domain" := JString domain]> (<["policy_ref" := JString ref]>
           (<["command_id" := JString commandID]> {["error" := JString errorMsg]}))));
    best_effort (CreateAuditEvent (mkAuditEvent tenantID (Some nodeID) "alert_created"
      "system" "告警创建: 策略下发失败" ∅))
  end.

(** ** Alerts about certificates *)

(** Raise an alert unless one of its type is active; an error of either step is
    returned. *)
Definition raise_alert (alert : Alert) (nodeID : UUID) : M unit :=
  existing ← wrap ("failed to check existing " +:+ ar_AlertType alert +:+ " alert")
    (GetActiveAlertByNodeAndType (ar_TenantID alert) nodeID (ar_AlertType alert));
  match existing with
  | Some _ => mret ()
  | None =>
    _ ← wrap ("failed to create " +:+ ar_AlertType alert +:+ " alert") (CreateAlert alert); mret ()
  end.
(** Resolve the active alert of a type, if there is one. *)
Definition clear_alert (tenantID nodeID : UUID) (alertType : string) : M unit :=
  existing ← wrap ("failed to find active " +:+ alertType +:+ " alert")
    (GetActiveAlertByNodeAndType tenantID nodeID alertType);
  match existing with
  | None => mret ()
  | Some (id, _) =>
    _ ← wrap ("failed to resolve " +:+ alertType +:+ " alert") (ResolveAlert id); mret ()
  end.

Definition GenerateCertificateExpiringAlert (tenantID nodeID : UUID) (hostname : string)
    (notAfter : Time) : M unit :=
  raise_alert (mkAlert tenantID (Some nodeID) "certificate_expiring" "warning" "节点证书即将到期"
    ("节点 " +:+ hostname +:+ " 的客户端证书将在 " +:+ RFC3339 notAfter +:+ " 过期")
    (<["hostname" := JString hostname]> {["not_after" := JString (RFC3339 notAfter)]})) nodeID.
Definition GenerateCertificateExpiredAlert (tenantID nodeID : UUID) (hostname : string)
    (notAfter : Time) : M unit :=
  raise_alert (mkAlert tenantID (Some nodeID) "certificate_expired" "critical" "节点证书已过期"
    ("节点 " +:+ hostname +:+ " 的客户端证书已于 " +:+ RFC3339 notAfter +:+ " 过期")
    (<["hostname" := JString hostname]> {["not_after" := JString (RFC3339 notAfter)]})) nodeID.
Definition GenerateCertificateRenewFailedAlert (tenantID nodeID : UUID) (hostname message : string)
    : M unit :=
  raise_alert (mkAlert tenantID (Some nodeID) "certificate_renew_failed" "warning" "节点证书续签失败"
    ("节点 " +:+ hostname +:+ " 的客户端证书续签失败: " +:+ message)
    (<["hostname" := JString hostname]> {["error" := JString message]})) nodeID.
Definition ResolveCertificateExpiringAlert (tenantID nodeID : UUID) : M unit :=
  clear_alert tenantID nodeID "certificate_expiring".
Definition ResolveCertificateRenewFailedAlert (tenantID nodeID : UUID) : M unit :=
  clear_alert tenantID nodeID "certificate_renew_failed".

(** ** Frames: a writer of one table leaves the others *)

(** The tables other than [audit_events] and [alerts]. *)
Definition same_core (db db' : DB) : Prop :=
  agent_commands db' = agent_commands db ∧ policy_deliveries db' = policy_deliveries db ∧
  node_control_states db' = node_control_states db ∧ nodes db' = nodes db ∧
  tenants db' = tenants db ∧ users db' = users db ∧
  node_certificates db' = node_certificates db ∧ next_offset db' = next_offset db ∧
  acl_rules db' = acl_rules db ∧ qos_rules db' = qos_rules db ∧
  blacklist_rules db' = blacklist_rules db ∧ device_configs db' = device_configs db ∧
  tunnel_links db' = tunnel_links db ∧ ip_allocations db' = ip_allocations db ∧
  node_policy_stats db' = node_policy_stats db ∧ tokens db' = tokens db ∧
  roles db' = roles db ∧ ip_groups db' = ip_groups db ∧
  ip_group_members db' = ip_group_members db.

#[export] Instance same_core_preorder : PreOrder same_core.
Proof.
  unfold same_core. split; [done|].
  intros a b c Hab Hbc. destruct_and!. split_and!; congruence.
Qed.

(** Whatever the result, a call changes only audit events and alerts. *)
Abbreviation only_logs := (changes same_core).

Lemma CreateAuditEvent_logs event : only_logs (CreateAuditEvent event).
Proof.
  unfold CreateAuditEvent, insert_audit_event. chg.
  apply (changes_stmt same_core). intros. cases.
Qed.
Lemma CreateAlert_logs alert : only_logs (CreateAlert alert).
Proof.
  unfold CreateAlert. chg. apply (changes_stmt same_core). intros. cases.
Qed.
Lemma ResolveAlert_logs id : only_logs (ResolveAlert id).
Proof. apply (changes_stmt same_core). intros. cases. Qed.
#[export] Hint Resolve CreateAuditEvent_logs CreateAlert_logs ResolveAlert_logs : aria.

Lemma GenerateSyncFailedAlert_logs t n c msg : only_logs (GenerateSyncFailedAlert t n c msg).
Proof. unfold GenerateSyncFailedAlert, GetActiveAlertByNodeAndType. chg. Qed.
Lemma GeneratePolicyFailedAlert_logs t n d r c msg :
  only_logs (GeneratePolicyFailedAlert t n d r c msg).
Proof. unfold GeneratePolicyFailedAlert, GetActiveAlertByNodeAndType. chg. Qed.
Lemma raise_alert_logs alert n : only_logs (raise_alert alert n).
Proof. unfold raise_alert, GetActiveAlertByNodeAndType. chg. Qed.
Lemma clear_alert_logs t n ty : only_logs (clear_alert t n ty).
Proof. unfold clear_alert, GetActiveAlertByNodeAndType. chg. Qed.
Lemma GenerateNodeOfflineAlert_logs t n h : only_logs (GenerateNodeOfflineAlert t n h).
Proof. unfold GenerateNodeOfflineAlert, GetActiveAlertByNodeAndType. chg. Qed.
Lemma ResolveNodeOfflineAlert_logs t n : only_logs (ResolveNodeOfflineAlert t n).
Proof. unfold ResolveNodeOfflineAlert, GetActiveAlertByNodeAndType. chg. Qed.
#[export] Hint Resolve GenerateSyncFailedAlert_logs GeneratePolicyFailedAlert_logs
  raise_alert_logs clear_alert_logs GenerateNodeOfflineAlert_logs ResolveNodeOfflineAlert_logs : aria.

(** ** At most one active alert of a type per node *)

Definition alerts_unique (alertType : string) (db : DB) : Prop :=
  ∀ t n id id' r r',
    alerts db !! id = Some r → alerts db !! id' = Some r' →
    active_alert t n alertType id r = true → active_alert t n alertType id' r' = true →
    id = id'.

Lemma head_select_None {R} p (m : gmap UUID R) :
  head (select_where p m) = None → ∀ k r, m !! k = Some r → p k r = false.
Proof.
  intros Hh k r Hk. destruct (p k r) eqn:Hp; [|done].
  assert ((k, r) ∈ select_where p m) as Hin by by apply select_where_elem.
  destruct (select_where p m); [by apply elem_of_nil in Hin|done].
Qed.

Lemma active_alert_spec t n ty id r :
  active_alert t n ty id r = true ↔
  al_tenant_id r = t ∧ al_node_id r = Some n ∧ al_alert_type r = ty ∧ al_status r = "active".
Proof.
  unfold active_alert. rewrite !andb_true_iff, !String.eqb_eq, bool_decide_eq_true. tauto.
Qed.

(** Adding an alert where the lookup found none keeps uniqueness. *)
Lemma alerts_unique_insert ty db id row t n :
  alerts_unique ty db → alerts db !! id = None →
  al_tenant_id row = t → al_node_id row = Some n →
  (∀ k r, alerts db !! k = Some r → active_alert t n ty k r = false) →
  alerts_unique ty (db <| alerts := <[id := row]> (alerts db) |>).
Proof.
  intros Hu Hfresh Ht Hn Hnone t' n' k k' r r'. simpl. rewrite !lookup_insert_Some.
  intros [[<- <-]|[? Hk]] [[<- <-]|[? Hk']] Ha Ha'; try done.
  - apply active_alert_spec in Ha as (?&?&?&?). simplify_eq.
    by rewrite (Hnone _ _ Hk') in Ha'.
  - apply active_alert_spec in Ha' as (?&?&?&?). simplify_eq.
    by rewrite (Hnone _ _ Hk) in Ha.
  - by eapply Hu.
Qed.

Lemma alerts_unique_ext ty db db' :
  alerts db' = alerts db → alerts_unique ty db → alerts_unique ty db'.
Proof. unfold alerts_unique. by intros ->. Qed.

Lemma CreateAuditEvent_alerts event e st :
  alerts (st_db (CreateAuditEvent event e st).2) = alerts (st_db st).
Proof. unfold CreateAuditEvent, insert_audit_event, fail, stmt, stmt_rows. cases. Qed.
Lemma best_effort_st {A} (m : M A) e st : (best_effort m e st).2 = (m e st).2.
Proof.
  unfold best_effort, mbind, M_bind, attempt. by destruct (m e st) as [? ?].
Qed.

(** [CreateAlert] for a node without an active alert of the type. *)
Lemma CreateAlert_unique ty alert n e st :
  ar_NodeID alert = Some n →
  (∀ k r, alerts (st_db st) !! k = Some r → active_alert (ar_TenantID alert) n ty k r = false) →
  alerts_unique ty (st_db st) → alerts_unique ty (st_db (CreateAlert alert e st).2).
Proof.
  intros Hn Hnone Hu. unfold CreateAlert, fail, stmt, stmt_rows.
  repeat (case_match; simplify_eq/=; try done).
  by eapply alerts_unique_insert.
Qed.

(** Whatever statements fail, [GenerateNodeOfflineAlert] keeps at most one
    active [node_offline] alert per node: it raises an alert only after a
    lookup that succeeded and found none. *)
Theorem GenerateNodeOfflineAlert_unique tenantID nodeID hostname e st :
  alerts_unique "node_offline" (st_db st) →
  alerts_unique "node_offline" (st_db (GenerateNodeOfflineAlert tenantID nodeID hostname e st).2).
Proof.
  intros Hu. unfold GenerateNodeOfflineAlert, GetActiveAlertByNodeAndType.
  unfold query. unfold mbind at 1, M_bind, stmt at 1, stmt_rows at 1.
  destruct (env_fault e (st_tick st)); [done|].
  destruct (head _) as [[id r]|] eqn:Hh; [done|].
  pose proof (head_select_None _ _ Hh) as Hnone.
  unfold mbind, M_bind. set (st1 := mkSt _ _).
  set (alert := mkAlert _ _ _ _ _ _ _).
  pose proof (CreateAlert_unique "node_offline" alert nodeID e st1 eq_refl Hnone Hu) as Hc.
  destruct (CreateAlert alert e st1) as [[a|x] st2]; simpl in *; [|done].
  rewrite best_effort_st. eapply alerts_unique_ext; [apply CreateAuditEvent_alerts|done].
Qed.

Lemma GenerateNodeOfflineAlert_unique_witness :
  let st := mkSt (empty_db <| tenants := {["t1" := mkTenantRow "T" None None None (Some "active") None 0 0]} |>
                           <| nodes := ∅ |>) 0 in
  alerts_unique "node_offline" (st_db st) ∧
  alerts_unique "node_offline"
    (st_db (GenerateNodeOfflineAlert "t1" "n1" "edge-1" (env_at 5) st).2).
Proof.
  intros st. assert (alerts_unique "node_offline" (st_db st)) as Hu.
  { intros t n id id' r r' H. simpl in H. by rewrite lookup_empty in H. }
  split; [exact Hu|]. exact (GenerateNodeOfflineAlert_unique "t1" "n1" "edge-1" (env_at 5) st Hu).
Defined.
