(* ===== verification/Tokens.v ===== *)
(** * Enrolment tokens

    [internal/token]: [token.go], [generator.go], [store.go] and
    [validator.go].  An operator issues a token with a number of uses and a
    life time; a node that registers with it consumes one use.  [uuid.Parse] and
    the bytes of [crypto/rand] are arguments. *)

From S2P Require Import Prelude GoStr Records Store Events.

Open Scope Z_scope.

Definition StatusActive : string := "active".
Definition StatusExhausted : string := "exhausted".
Definition StatusExpired : string := "expired".
Definition StatusRevoked : string := "revoked".

Record Token := mkToken {
  tok_ID : UUID;
  tok_Token : string;
  tok_Tag : string;
  tok_TenantID : string;
  tok_MaxUses : Z;
  tok_UsedCount : Z;
  tok_ExpiresAt : Time;
  tok_CreatedAt : Time;
  tok_CreatedBy : string;
  tok_Status : string;
  tok_LastUsedAt : option Time;      (* None: the zero time *)
  tok_LastUsedBy : string;
}.
#[export] Instance Token_eq_dec : EqDecision Token.
Proof. solve_decision. Defined.
#[export] Instance eta_Token : Eta Token := λ t,
  mkToken (tok_ID t) (tok_Token t) (tok_Tag t) (tok_TenantID t) (tok_MaxUses t) (tok_UsedCount t) (tok_ExpiresAt t)
    (tok_CreatedAt t) (tok_CreatedBy t) (tok_Status t) (tok_LastUsedAt t) (tok_LastUsedBy t).

(** ** The token itself *)

(** [now] is [time.Now().UTC()]. *)
Definition IsExpired (now : Time) (t : Token) : bool := tok_ExpiresAt t <? now.
Definition IsValid (now : Time) (t : Token) : bool :=
  if negb (tok_Status t =? StatusActive)%string then false else
  if tok_ExpiresAt t <? now then false else
  if (0 <? tok_MaxUses t) && (tok_MaxUses t <=? tok_UsedCount t) then false else
  true.
Definition RemainingUses (t : Token) : Z :=
  if tok_MaxUses t =? 0 then -1 else
  let remaining := tok_MaxUses t - tok_UsedCount t in
  if remaining <? 0 then 0 else remaining.
Definition TimeUntilExpiry (now : Time) (t : Token) : Z := tok_ExpiresAt t - now.

(** ** Generation *)

Definition TokenPrefix : string := "tk_".
Definition TokenRandomBytes : nat := 8.

Record GenerateOptions := mkGenerateOptions {
  go_Tag : string;
  go_TenantID : string;
  go_MaxUses : Z;
  go_TTL : Z;
  go_Creator : string;
}.
Definition DefaultOptions : GenerateOptions :=
  mkGenerateOptions "" "" 1 (24 * 3600 * 1000000) "".

(** [hex.EncodeToString]. *)
Definition hex_byte (c : ascii) : text :=
  let n := N_of_ascii c in [hex_digit (n / 16); hex_digit (n mod 16)].
Definition EncodeToString (bytes : text) : string :=
  String.string_of_list_ascii (bytes ≫= hex_byte).

Section generate.
Context (uuid_Parse : string → result UUID).

(** [bytes] is what [rand.Read] puts into the buffer, or its error. *)
Definition Generate (bytes : result text) (opts : GenerateOptions) : M Token :=
  _ ← (if (go_TenantID opts =? "")%string then mret () else
       match uuid_Parse (go_TenantID opts) with
       | Ok _ => mret ()
       | Err _ => fail (ErrorString "invalid tenant_id format")
       end);
  match bytes with
  | Err x => fail x
  | Ok bytes =>
    let tokenStr := TokenPrefix +:+ EncodeToString bytes in
    now ← ask env_go_now;
    mret (mkToken uuid_Nil tokenStr (go_Tag opts) (go_TenantID opts) (go_MaxUses opts) 0
      (now + go_TTL opts) now (go_Creator opts) StatusActive None "")
  end.

Definition GenerateSimple (bytes : result text) (tag : string) (maxUses ttl : Z) : M Token :=
  Generate bytes (mkGenerateOptions tag "" maxUses ttl "").
End generate.

(** ** The store *)

Definition is_token (tokenStr : string) (_ : UUID) (r : TokenRow) : bool :=
  (tk_token r =? tokenStr)%string.

(** The INSERT of both branches; the result is the token with its [ID]. *)
Definition Create (t : Token) : M Token :=
  let tenant := if (tok_TenantID t =? "")%string then None else Some (tok_TenantID t) in
  stmt (λ e id db,
    if negb (int4 (tok_MaxUses t) && int4 (tok_UsedCount t))
    then Err (ErrConstraint "integer out of range") else
    if negb (match tenant with Some n => tenant_exists db n | None => true end)
    then Err (ErrConstraint "tokens_tenant_id_fkey") else
    if exists_where (is_token (tok_Token t)) (tokens db)
    then Err (ErrConstraint "tokens_token_key") else
    match tokens db !! id with
    | Some _ => Err (ErrConstraint "tokens_pkey")
    | None =>
      let row := mkTokenRow (tok_Token t) (tok_Tag t) tenant (tok_MaxUses t) (tok_UsedCount t)
        (tok_ExpiresAt t) (env_now e) (tok_CreatedBy t) (tok_Status t) None None in
      Ok (mkToken id (tok_Token t) (tok_Tag t) (tok_TenantID t) (tok_MaxUses t)
            (tok_UsedCount t) (tok_ExpiresAt t) (tok_CreatedAt t) (tok_CreatedBy t)
            (tok_Status t) (tok_LastUsedAt t) (tok_LastUsedBy t),
          db <| tokens := <[id := row]> (tokens db) |>)
    end).

Definition scanToken (kr : UUID * TokenRow) : Token :=
  let r := kr.2 in
  mkToken kr.1 (tk_token r) (tk_tag r) (default "" (tk_tenant_id r)) (tk_max_uses r)
    (tk_used_count r) (tk_expires_at r) (tk_created_at r) (tk_created_by r) (tk_status r)
    (tk_last_used_at r) (default "" (tk_last_used_by r)).

Definition GetByToken (tokenStr : string) : M (option Token) :=
  query (λ _ db, scanToken <$> head (select_where (is_token tokenStr) (tokens db))).

Definition GetByID (id : UUID) : M (option Token) :=
  if (id =? "")%string then fail (ErrorString "token id cannot be empty") else
  query (λ _ db, (λ r, scanToken (id, r)) <$> tokens db !! id).

Definition token_newer (a b : UUID * TokenRow) : bool := tk_created_at b.2 <? tk_created_at a.2.
Definition List (status : string) : M (list Token) :=
  query (λ _ db,
    let all := (status =? "")%string || (status =? "all")%string in
    scanToken <$> SliceStable token_newer
      (select_where (λ _ r, all || (tk_status r =? status)%string) (tokens db))).

(** The row an UPDATE of [IncrementUsage] takes, and what it becomes. *)
Definition usable (tokenStr : string) (id : UUID) (r : TokenRow) : bool :=
  is_token tokenStr id r && (tk_status r =? "active")%string
  && ((tk_max_uses r =? 0) || (tk_used_count r <? tk_max_uses r)).
Definition used_by (deviceID : string) (now : Time) (r : TokenRow) : TokenRow :=
  r <| tk_used_count := tk_used_count r + 1 |>
    <| tk_last_used_at := Some now |>
    <| tk_last_used_by := Some deviceID |>
    <| tk_status := if (0 <? tk_max_uses r) && (tk_max_uses r <=? tk_used_count r + 1)
                    then "exhausted" else tk_status r |>.

(** Why no row was taken. *)
Definition inactive_reason (tokenStr : string) : M unit :=
  t ← wrap "failed to re-fetch token after update" (GetByToken tokenStr);
  match t with
  | None => fail ErrTokenNotFound
  | Some t =>
    if (tok_Status t =? StatusExpired)%string then fail ErrTokenExpired else
    if (tok_Status t =? StatusExhausted)%string then fail ErrTokenExhausted else
    if (tok_Status t =? StatusRevoked)%string then fail ErrTokenRevoked else
    fail (ErrorString ("token not active (current status: " +:+ tok_Status t +:+ ")"))
  end.

Definition IncrementUsage (tokenStr deviceID : string) : M unit :=
  affected ← stmt (λ e _ db,
    if exists_where (λ id r, usable tokenStr id r && negb (int4 (tk_used_count r + 1))) (tokens db)
    then Err (ErrConstraint "integer out of range") else
    Ok (count_where (usable tokenStr) (tokens db),
        db <| tokens := update_where (usable tokenStr) (used_by deviceID (env_now e))
                          (tokens db) |>));
  if affected =? 0 then inactive_reason tokenStr else mret ().

(** An UPDATE of the status, and the rows it affects. *)
Definition set_token_status (p : UUID → TokenRow → bool) (status : string) : M Z :=
  exec (λ _ db,
    (count_where p (tokens db),
     db <| tokens := update_where p (λ r, r <| tk_status := status |>) (tokens db) |>)).

Definition UpdateStatus (id : UUID) (status : string) : M unit :=
  if (id =? "")%string then fail (ErrorString "token id cannot be empty") else
  _ ← set_token_status (λ k _, (k =? id)%string) status; mret ().

Definition Revoke (tokenStr : string) : M unit :=
  affected ← set_token_status (is_token tokenStr) "revoked";
  if affected =? 0 then fail ErrTokenNotFound else mret ().

Definition RevokeByID (id : UUID) : M unit :=
  if (id =? "")%string then fail (ErrorString "token id cannot be empty") else
  affected ← set_token_status (λ k _, (k =? id)%string) "revoked";
  if affected =? 0 then fail ErrTokenNotFound else mret ().

Definition Delete (tokenStr : string) : M unit :=
  exec (λ _ db, ((), db <| tokens := delete_where (is_token tokenStr) (tokens db) |>)).

Definition CleanupExpired : M Z :=
  now ← ask env_now;
  set_token_status (λ _ r, (tk_status r =? "active")%string && (tk_expires_at r <? now)) "expired".

(** ** The validator *)

Definition Validate (tokenStr : string) : M Token :=
  if (tokenStr =? "")%string then fail ErrTokenInvalid else
  token ← wrap "database query failed" (GetByToken tokenStr);
  match token with
  | None => fail ErrTokenNotFound
  | Some token =>
    if (tok_Status token =? StatusRevoked)%string then fail ErrTokenRevoked else
    if (tok_Status token =? StatusExpired)%string then fail ErrTokenExpired else
    if (tok_Status token =? StatusExhausted)%string then fail ErrTokenExhausted else
    now ← ask env_go_now;
    if tok_ExpiresAt token <? now then
      _ ← best_effort (UpdateStatus (tok_ID token) StatusExpired); fail ErrTokenExpired
    else if (0 <? tok_MaxUses token) && (tok_MaxUses token <=? tok_UsedCount token) then
      _ ← best_effort (UpdateStatus (tok_ID token) StatusExhausted); fail ErrTokenExhausted
    else mret token
  end.

Definition ConsumeToken (tokenStr deviceID : string) : M unit :=
  r ← attempt (IncrementUsage tokenStr deviceID);
  match r with
  | Ok _ => mret ()
  | Err err =>
    v ← attempt (Validate tokenStr);
    match v with Err validateErr => fail validateErr | Ok _ => fail err end
  end.

Definition ValidateOnly (tokenStr : string) : M unit := _ ← Validate tokenStr; mret ().
