(* ===== verification/TokensSpec.v ===== *)
(** * What enrolment tokens promise

    The abstract specification of [internal/token] is a ledger: each token has a
    budget of uses, the uses spent and a life; a step spends one use, issues,
    closes or removes a token.  Every call of the store, whichever statements
    fail, is one step of the ledger, and a call of [ConsumeToken] succeeds exactly
    when the step spends a use.  The bound on the number of registrations is then
    a fact about the ledger. *)

From S2P Require Import Prelude GoStr Records Store Events Tokens.

Open Scope Z_scope.

(** ** The ledger *)

Inductive life := Active | Exhausted | Expired | Revoked.
#[export] Instance life_eq_dec : EqDecision life.
Proof. solve_decision. Defined.

Record enrolment := mkEnrolment {
  budget : option N;             (* None: unlimited *)
  uses : N;
  alive : life;
}.
Abbreviation ledger := (gmap string enrolment).

(** One more use is within the budget. *)
Definition affordable (t : enrolment) : bool :=
  match budget t with None => true | Some m => (uses t <? m)%N end.
(** Spending one use; the last one exhausts the token. *)
Definition spend (t : enrolment) : option enrolment :=
  match alive t with
  | Active =>
    if affordable t then
      let t' := mkEnrolment (budget t) (uses t + 1) Active in
      Some (mkEnrolment (budget t) (uses t + 1) (if affordable t' then Active else Exhausted))
    else None
  | _ => None
  end.
Definition close (l : life) (t : enrolment) : enrolment := mkEnrolment (budget t) (uses t) l.
(** How a token may be closed. *)
Definition may_close (l : life) (t : enrolment) : Prop :=
  match l with
  | Revoked => True
  | Expired => alive t = Active
  | Exhausted => alive t = Active ∧ affordable t = false
  | Active => False
  end.
Definition sweep (expired : string → bool) (L : ledger) : ledger :=
  map_imap (λ s t, Some (if expired s && bool_decide (alive t = Active) then close Expired t else t)) L.

Inductive event := Spent (s : string) | Removed (s : string) | Silent.
#[export] Instance event_eq_dec : EqDecision event.
Proof. solve_decision. Defined.

Inductive move (L : ledger) : event → ledger → Prop :=
  | move_stay : move L Silent L
  | move_issue s b : L !! s = None → move L Silent (<[s := mkEnrolment b 0 Active]> L)
  | move_spend s t t' : L !! s = Some t → spend t = Some t' → move L (Spent s) (<[s := t']> L)
  | move_close s t l : L !! s = Some t → may_close l t → move L Silent (<[s := close l t]> L)
  | move_sweep expired : move L Silent (sweep expired L)
  | move_remove s : move L (Removed s) (delete s L).

Inductive moves : ledger → list event → ledger → Prop :=
  | moves_nil L : moves L [] L
  | moves_cons L ev L' evs L'' : move L ev L' → moves L' evs L'' → moves L (ev :: evs) L''.

(** The uses of a token that were spent. *)
Definition times_spent (s : string) (evs : list event) : N :=
  N.of_nat (length (filter (λ ev, ev = Spent s) evs)).

Definition within_budget (t : enrolment) : Prop :=
  match budget t with None => True | Some m => (uses t ≤ m)%N end.

Lemma spend_uses t t' :
  spend t = Some t' → budget t' = budget t ∧ uses t' = (uses t + 1)%N ∧
  (within_budget t → within_budget t').
Proof.
  unfold spend, within_budget. destruct (alive t); try done.
  destruct (affordable t) eqn:Ha; [|done]. intros [= <-]. simpl. split_and!; try done.
  unfold affordable in Ha. destruct (budget t); [|done].
  apply N.ltb_lt in Ha. lia.
Qed.

(** One step on a token that is not removed. *)
Lemma move_token L ev L' s t :
  move L ev L' → L !! s = Some t → ev ≠ Removed s →
  ∃ t', L' !! s = Some t' ∧ budget t' = budget t ∧
        uses t' = (uses t + if decide (ev = Spent s) then 1 else 0)%N ∧
        (within_budget t → within_budget t').
Proof.
  intros Hm Hs Hr. destruct Hm as [|s' b Hn|s' u u' Hu Hsp|s' u l Hu Hc|f|s'].
  - exists t. split_and!; try done. case_decide; [done|lia].
  - exists t. rewrite lookup_insert_ne by congruence. split_and!; try done.
    case_decide; [done|lia].
  - destruct (decide (s' = s)) as [-> | Hne].
    + simplify_eq. apply spend_uses in Hsp as (? & ? & ?).
      exists u'. rewrite lookup_insert_eq. split_and!; try done.
      by rewrite decide_True.
    + exists t. rewrite lookup_insert_ne by done. split_and!; try done.
      rewrite decide_False by congruence. lia.
  - destruct (decide (s' = s)) as [-> | Hne].
    + simplify_eq. exists (close l u). rewrite lookup_insert_eq. split_and!; try done.
      case_decide; [done|simpl; lia].
    + exists t. rewrite lookup_insert_ne by done. split_and!; try done.
      case_decide; [done|lia].
  - eexists. unfold sweep. rewrite map_lookup_imap, Hs. simpl. split; [reflexivity|].
    case_match; split_and!; try done; case_decide; simpl; try done; lia.
  - exists t. rewrite lookup_delete_ne by congruence. split_and!; try done.
    case_decide; [done|lia].
Qed.

(** A token that is not removed counts its uses and stays within its budget. *)
Lemma moves_token L evs L' s t :
  moves L evs L' → L !! s = Some t → Removed s ∉ evs →
  ∃ t', L' !! s = Some t' ∧ budget t' = budget t ∧
        uses t' = (uses t + times_spent s evs)%N ∧ (within_budget t → within_budget t').
Proof.
  intros Hm. revert t. induction Hm as [L|L ev L1 evs L2 H1 Hm IH]; intros t Hs Hr.
  - exists t. split_and!; try done. unfold times_spent. simpl. lia.
  - rewrite not_elem_of_cons in Hr. destruct Hr as [Hr1 Hr2].
    destruct (move_token _ _ _ _ _ H1 Hs (not_eq_sym Hr1)) as (t1 & Hs1 & Hb1 & Hu1 & Hw1).
    destruct (IH t1 Hs1 Hr2) as (t2 & Hs2 & Hb2 & Hu2 & Hw2).
    exists t2. split_and!; [done|congruence| |by eauto].
    rewrite Hu2, Hu1. unfold times_spent. rewrite filter_cons.
    case_decide; simpl; lia.
Qed.

(** ** The rows stand for a ledger *)

Definition life_of (status : string) : life :=
  if (status =? StatusExhausted)%string then Exhausted else
  if (status =? StatusExpired)%string then Expired else
  if (status =? StatusRevoked)%string then Revoked else Active.
Definition known_statuses : list string :=
  [StatusActive; StatusExhausted; StatusExpired; StatusRevoked].
Definition enrolment_of (r : TokenRow) : enrolment :=
  mkEnrolment (if tk_max_uses r =? 0 then None else Some (Z.to_N (tk_max_uses r)))
    (Z.to_N (tk_used_count r)) (life_of (tk_status r)).
Definition token_row_ok (r : TokenRow) : Prop :=
  0 ≤ tk_used_count r < 2 ^ 31 ∧ tk_status r ∈ known_statuses.

Record models (L : ledger) (db : DB) : Prop := {
  models_row id r : tokens db !! id = Some r → L !! tk_token r = Some (enrolment_of r);
  models_all s t : L !! s = Some t → ∃ id r, tokens db !! id = Some r ∧ tk_token r = s;
  models_unique id id' r r' :
    tokens db !! id = Some r → tokens db !! id' = Some r' → tk_token r = tk_token r' → id = id';
  models_ok id r : tokens db !! id = Some r → token_row_ok r;
}.

Lemma models_ext L db db' : tokens db' = tokens db → models L db → models L db'.
Proof. intros Ht [H1 H2 H3 H4]. split; rewrite Ht; eauto. Qed.

(** The row of a token. *)
Definition token_row (s : string) (db : DB) : option (UUID * TokenRow) :=
  head (select_where (is_token s) (tokens db)).
Lemma is_token_spec s id r : is_token s id r = true ↔ tk_token r = s.
Proof. apply String.eqb_eq. Qed.
Lemma token_row_Some s db id r :
  token_row s db = Some (id, r) → tokens db !! id = Some r ∧ tk_token r = s.
Proof.
  unfold token_row. intros Hh.
  assert ((id, r) ∈ select_where (is_token s) (tokens db)) as Hin.
  { destruct (select_where _ _); simplify_eq/=. left. }
  by apply select_where_elem in Hin as [? ?%is_token_spec].
Qed.
Lemma token_row_None s db :
  token_row s db = None → ∀ id r, tokens db !! id = Some r → tk_token r ≠ s.
Proof.
  intros Hh id r Hid Hs. apply (head_select_None _ _ Hh id r) in Hid.
  by rewrite (proj2 (is_token_spec s id r) Hs) in Hid.
Qed.

(** An UPDATE of the row of one token moves that token of the ledger. *)
Lemma models_update L db (p : UUID → TokenRow → bool) f id r :
  models L db → tokens db !! id = Some r →
  (∀ k x, tokens db !! k = Some x → p k x = true → k = id) → p id r = true →
  tk_token (f r) = tk_token r → token_row_ok (f r) →
  models (<[tk_token r := enrolment_of (f r)]> L)
    (db <| tokens := update_where p f (tokens db) |>).
Proof.
  intros [H1 H2 H3 H4] Hid Honly Hp Htok Hok.
  assert (∀ k x, update_where p f (tokens db) !! k = Some x →
    (k = id ∧ x = f r) ∨ (k ≠ id ∧ tokens db !! k = Some x)) as Hrows.
  { intros k x (y & Hy & ->)%lookup_update_where_Some.
    destruct (p k y) eqn:Hk.
    - left. assert (k = id) as -> by eauto. by simplify_eq.
    - right. split; [|done]. intros ->. simplify_eq. congruence. }
  assert (update_where p f (tokens db) !! id = Some (f r)) as Hid'.
  { apply lookup_update_where_Some. exists r. by rewrite Hp. }
  split; simpl.
  - intros k x [[-> ->] | [Hne Hx]]%Hrows.
    + rewrite Htok. by rewrite lookup_insert_eq.
    + rewrite lookup_insert_ne; [by eapply H1|]. intros Heq. apply Hne. by eapply H3.
  - intros s t [[<- <-] | [Hne Hs]]%lookup_insert_Some; [eauto|].
    destruct (H2 _ _ Hs) as (k & x & Hx & <-). exists k, x. split; [|done].
    apply lookup_update_where_Some. exists x. split; [done|].
    destruct (p k x) eqn:Hk; [|done]. assert (k = id) as -> by eauto. by simplify_eq.
  - intros k k' x x' [[-> ->] | [Hne Hx]]%Hrows [[-> ->] | [Hne' Hx']]%Hrows; try done;
      rewrite ?Htok; intros; by eauto.
  - intros k x [[-> ->] | [Hne Hx]]%Hrows; eauto.
Qed.

(** ** Each call is one step of the ledger *)

Abbreviation same_tokens := (same tokens).

Lemma inactive_reason_fails s e st :
  ∃ x st', inactive_reason s e st = (Err x, st') ∧ st_db st' = st_db st.
Proof.
  unfold inactive_reason, wrap, GetByToken, query, stmt, stmt_rows, fail, mbind, M_bind.
  repeat (case_match; simplify_eq/=); eauto.
Qed.

Lemma usable_spec s id r :
  usable s id r = true ↔
  tk_token r = s ∧ tk_status r = "active" ∧ (tk_max_uses r = 0 ∨ tk_used_count r < tk_max_uses r).
Proof.
  unfold usable. rewrite !andb_true_iff, is_token_spec, String.eqb_eq, orb_true_iff,
    Z.eqb_eq, Z.ltb_lt. tauto.
Qed.

Lemma spend_used_by s id r d now :
  token_row_ok r → usable s id r = true →
  spend (enrolment_of r) = Some (enrolment_of (used_by d now r)).
Proof.
  intros [[Hu _] _] (_ & Hs & Hm)%usable_spec. unfold spend, enrolment_of, affordable. simpl.
  rewrite Hs. simpl.
  replace (Z.to_N (tk_used_count r + 1)) with (Z.to_N (tk_used_count r) + 1)%N by lia.
  destruct (tk_max_uses r =? 0) eqn:H0; bools.
  - rewrite H0. done.
  - destruct Hm as [?|Hm]; [done|].
    rewrite (proj2 (N.ltb_lt _ _)) by lia.
    rewrite (proj2 (Z.ltb_lt 0 (tk_max_uses r))) by lia. simpl.
    destruct (tk_max_uses r <=? tk_used_count r + 1) eqn:Hl; bools.
    + by rewrite (proj2 (N.ltb_ge _ _)) by lia.
    + by rewrite (proj2 (N.ltb_lt _ _)) by lia.
Qed.

Lemma used_by_ok s id r d now :
  token_row_ok r → usable s id r = true → int4 (tk_used_count r + 1) = true →
  token_row_ok (used_by d now r).
Proof.
  intros [[Hu _] Hk] (_ & Hs & Hm)%usable_spec Hi. unfold int4 in Hi. bools.
  split; simpl; [lia|]. case_match; [set_solver|done].
Qed.

Lemma IncrementUsage_sim L s d e st r st' :
  models L (st_db st) → IncrementUsage s d e st = (r, st') →
  match r with
  | Ok _ => ∃ t t', L !! s = Some t ∧ spend t = Some t' ∧ models (<[s := t']> L) (st_db st')
  | Err _ => same_tokens (st_db st) (st_db st')
  end.
Proof.
  intros HL. unfold IncrementUsage, mbind, M_bind, stmt, stmt_rows.
  destruct (env_fault e (st_tick st)); [by intros [= <- <-]|].
  destruct (exists_where _ _) eqn:Hover; [by intros [= <- <-]|]. cbn [st_db].
  destruct (count_where _ _ =? 0) eqn:Hc; bools.
  - destruct (inactive_reason_fails s e (mkSt ((st_db st) <| tokens := update_where (usable s)
      (used_by d (env_now e)) (tokens (st_db st)) |>) (S (st_tick st)))) as (x & st1 & Hx & Hdb).
    rewrite Hx. intros [= <- <-]. unfold same. rewrite Hdb. simpl.
    apply update_where_none. by apply count_where_0.
  - intros [= <- <-]. cbn [st_db].
    assert (exists_where (usable s) (tokens (st_db st)) = true) as (id & r0 & Hid & Hp)%exists_where_spec.
    { unfold exists_where. by rewrite (proj2 (Z.eqb_neq _ _) Hc). }
    assert (int4 (tk_used_count r0 + 1) = true) as Hi.
    { rewrite exists_where_false in Hover. specialize (Hover id r0 Hid). rewrite Hp in Hover.
      by apply negb_false_iff in Hover. }
    pose proof (models_ok _ _ HL _ _ Hid) as Hok.
    pose proof Hp as (Hs & _)%usable_spec.
    eexists _, _. split; [rewrite <- Hs; by eapply models_row|].
    split; [by eapply spend_used_by|]. rewrite <- Hs at 1.
    eapply models_update; try done; [|by eapply used_by_ok].
    intros k x Hk (Hx & _)%usable_spec. eapply (models_unique _ _ HL); [done..|congruence].
Qed.

(** A token that is closed. *)
Definition closes (s : string) (L : ledger) (db : DB) : Prop :=
  ∃ t l, L !! s = Some t ∧ may_close l t ∧ models (<[s := close l t]> L) db.

Lemma models_set_status L db p id r status :
  models L db → tokens db !! id = Some r → status ∈ known_statuses →
  (∀ k x, tokens db !! k = Some x → p k x = true → k = id) → p id r = true →
  may_close (life_of status) (enrolment_of r) →
  closes (tk_token r) L
    (db <| tokens := update_where p (λ r, r <| tk_status := status |>) (tokens db) |>).
Proof.
  intros HL Hid Hk Honly Hp Hm. eexists _, _.
  split; [by eapply models_row|]. split; [exact Hm|].
  change (close _ _) with (enrolment_of (r <| tk_status := status |>)).
  eapply (models_update L db p (λ r, r <| tk_status := status |>)); try done.
  destruct (models_ok _ _ HL _ _ Hid). by split.
Qed.

Lemma UpdateStatus_sim L e st id r status :
  models L (st_db st) → tokens (st_db st) !! id = Some r → status ∈ known_statuses →
  may_close (life_of status) (enrolment_of r) →
  let st' := (UpdateStatus id status e st).2 in
  same_tokens (st_db st) (st_db st') ∨ closes (tk_token r) L (st_db st').
Proof.
  intros HL Hid Hk Hm. unfold UpdateStatus, set_token_status, exec, stmt, stmt_rows, mbind, M_bind.
  destruct (id =? "")%string; [by left|]. destruct (env_fault e _); [by left|]. right. simpl.
  apply (models_set_status L (st_db st) _ id r status HL Hid Hk); [|apply String.eqb_refl|done].
  intros k x _ Hx. by apply String.eqb_eq.
Qed.

Lemma best_effort_fail {A B} (m : M A) x e st :
  (best_effort m ≫= λ _, fail (A:=B) x) e st = (Err x, (m e st).2).
Proof. unfold best_effort, attempt, mbind, M_bind, fail. by destruct (m e st). Qed.

Lemma Validate_sim L s e st r st' :
  models L (st_db st) → Validate s e st = (r, st') →
  same_tokens (st_db st) (st_db st') ∨ closes s L (st_db st').
Proof.
  intros HL. unfold Validate. destruct (s =? "")%string; [intros [= <- <-]; by left|].
  unfold GetByToken. unfold wrap, query, stmt, stmt_rows at 1, mbind at 1, M_bind at 1.
  destruct (env_fault e (st_tick st)); [intros [= <- <-]; by left|].
  fold (token_row s (st_db st)). destruct (token_row s (st_db st)) as [[id r0]|] eqn:Hr; [|intros [= <- <-]; by left].
  apply token_row_Some in Hr as [Hid Hs]. cbn [fmap option_fmap option_map].
  pose proof (models_ok _ _ HL _ _ Hid) as [_ Hk].
  destruct (_ =? StatusRevoked)%string eqn:H1; [intros [= <- <-]; by left|].
  destruct (_ =? StatusExpired)%string eqn:H2; [intros [= <- <-]; by left|].
  destruct (_ =? StatusExhausted)%string eqn:H3; [intros [= <- <-]; by left|]. bools. cbn [scanToken tok_Status tok_MaxUses tok_ExpiresAt tok_UsedCount tok_ID snd fst] in *.
  assert (tk_status r0 = "active") as Ha by set_solver.
  assert (alive (enrolment_of r0) = Active) as Hal by (simpl; by rewrite Ha).
  unfold ask, mbind at 1, M_bind at 1.
  destruct (tk_expires_at r0 <? env_go_now e); [|destruct (_ && _) eqn:Hx; [|intros [= <- <-]; by left]];
    rewrite best_effort_fail; intros [= <- <-]; rewrite <- Hs.
  - apply (UpdateStatus_sim L e (mkSt (st_db st) (S (st_tick st))) id r0 StatusExpired); try done.
    set_solver.
  - apply (UpdateStatus_sim L e (mkSt (st_db st) (S (st_tick st))) id r0 StatusExhausted); try done.
    { set_solver. }
    split; [done|]. bools. unfold affordable. simpl.
    rewrite (proj2 (Z.eqb_neq _ _)) by lia. apply N.ltb_ge. lia.
Qed.

Lemma ConsumeToken_sim L s d e st r st' :
  models L (st_db st) → ConsumeToken s d e st = (r, st') →
  match r with
  | Ok _ => ∃ t t', L !! s = Some t ∧ spend t = Some t' ∧ models (<[s := t']> L) (st_db st')
  | Err _ => same_tokens (st_db st) (st_db st') ∨ closes s L (st_db st')
  end.
Proof.
  intros HL. unfold ConsumeToken, attempt, mbind, M_bind.
  destruct (IncrementUsage s d e st) as [r1 st1] eqn:H1.
  pose proof (IncrementUsage_sim _ _ _ _ _ _ _ HL H1) as Hi.
  destruct r1 as [[]|x]; [by intros [= <- <-]|].
  destruct (Validate s e st1) as [r2 st2] eqn:H2.
  pose proof (Validate_sim _ _ _ _ _ _ (models_ext _ _ _ Hi HL) H2) as Hv.
  assert (same_tokens (st_db st) (st_db st2) ∨ closes s L (st_db st2)).
  { destruct Hv as [Hv|Hv]; [left; by etrans|by right]. }
  destruct r2; by intros [= <- <-].
Qed.

Lemma set_token_status_run p status e st :
  set_token_status p status e st =
    if env_fault e (st_tick st) then (Err ErrDriver, mkSt (st_db st) (S (st_tick st))) else
    (Ok (count_where p (tokens (st_db st))),
     mkSt ((st_db st) <| tokens := update_where p (λ r, r <| tk_status := status |>)
             (tokens (st_db st)) |>) (S (st_tick st))).
Proof. unfold set_token_status, exec, stmt, stmt_rows. by case_match. Qed.

(** Revoking the rows [p] selects, at most one. *)
Lemma revoke_sim L db p :
  models L db →
  (∀ k k' x x', tokens db !! k = Some x → tokens db !! k' = Some x' →
     p k x = true → p k' x' = true → k = k') →
  let db' := db <| tokens := update_where p (λ r, r <| tk_status := "revoked" |>) (tokens db) |> in
  same_tokens db db' ∨ ∃ s, closes s L db'.
Proof.
  intros HL Honly. destruct (exists_where p (tokens db)) eqn:He.
  - apply exists_where_spec in He as (k & x & Hk & Hp). right. exists (tk_token x).
    by apply (models_set_status L db p k x StatusRevoked); [done|done|set_solver|eauto|done|].
  - left. unfold same. simpl. apply update_where_none. by apply exists_where_false.
Qed.

Lemma sweep_sim L db now :
  models L db →
  let p := λ (_ : UUID) r, (tk_status r =? "active")%string && (tk_expires_at r <? now) in
  let expired := λ s, match token_row s db with
                      | Some (_, r) => tk_expires_at r <? now
                      | None => false
                      end in
  models (sweep expired L)
    (db <| tokens := update_where p (λ r, r <| tk_status := "expired" |>) (tokens db) |>).
Proof.
  intros HL p expired.
  assert (∀ id r, tokens db !! id = Some r → expired (tk_token r) = (tk_expires_at r <? now)) as Hexp.
  { intros id r Hid. unfold expired. destruct (token_row (tk_token r) db) as [[id' r']|] eqn:Hr.
    - apply token_row_Some in Hr as [Hid' Hs].
      assert (id' = id) as -> by (by eapply models_unique). by simplify_eq.
    - by eapply token_row_None in Hr. }
  split; simpl.
  - intros id r' (r & Hid & ->)%lookup_update_where_Some.
    assert (sweep expired L !! tk_token r =
      Some (enrolment_of (if p id r then r <| tk_status := "expired" |> else r))) as Hgoal.
    { unfold sweep. rewrite map_lookup_imap, (models_row _ _ HL _ _ Hid). simpl.
      rewrite (Hexp id r Hid). unfold p.
      destruct (models_ok _ _ HL _ _ Hid) as [_ Hk].
      destruct (tk_status r =? "active")%string eqn:Ha; bools.
      - rewrite bool_decide_eq_true_2 by (simpl; by rewrite Ha).
        rewrite andb_true_r. by destruct (tk_expires_at r <? now).
      - rewrite bool_decide_eq_false_2, andb_false_r; [done|]. simpl.
        assert (tk_status r = "exhausted" ∨ tk_status r = "expired" ∨ tk_status r = "revoked")
          as [-> | [-> | ->]] by set_solver; done. }
    by destruct (p id r).
  - intros s t Hs. unfold sweep in Hs. rewrite map_lookup_imap in Hs.
    destruct (L !! s) as [t0|] eqn:Ht; [|done].
    destruct (models_all _ _ HL _ _ Ht) as (id & r & Hid & Hr).
    eexists id, _. rewrite lookup_update_where, Hid. split; [done|]. by destruct (p id r).
  - intros id id' r r' (x & Hx & ->)%lookup_update_where_Some (x' & Hx' & ->)%lookup_update_where_Some.
    intros Heq. eapply (models_unique _ _ HL); [done..|]. by destruct (p id x), (p id' x').
  - intros id r' (r & Hid & ->)%lookup_update_where_Some.
    pose proof (models_ok _ _ HL _ _ Hid) as [? ?]. destruct (p id r); split; simpl; set_solver.
Qed.

Lemma delete_sim L db s :
  models L db →
  models (delete s L) (db <| tokens := delete_where (is_token s) (tokens db) |>).
Proof.
  intros HL. assert (∀ id r, delete_where (is_token s) (tokens db) !! id = Some r ↔
    tokens db !! id = Some r ∧ tk_token r ≠ s) as Hd.
  { intros id r. rewrite lookup_delete_where. destruct (tokens db !! id) as [x|]; [|naive_solver].
    destruct (is_token s id x) eqn:Hx.
    - apply is_token_spec in Hx. naive_solver.
    - split; [intros [= ->]|naive_solver]. split; [done|].
      intros Hs%(is_token_spec s id). congruence. }
  split; simpl.
  - intros id r [Hid Hs]%Hd. rewrite lookup_delete_ne by done. by eapply models_row.
  - intros s' t [Hne Ht]%lookup_delete_Some.
    destruct (models_all _ _ HL _ _ Ht) as (id & r & Hid & <-). exists id, r.
    split; [|done]. by apply Hd.
  - intros id id' r r' [Hid _]%Hd [Hid' _]%Hd. by eapply models_unique.
  - intros id r [Hid _]%Hd. by eapply models_ok.
Qed.

(** An issued token: generated, then stored. *)
Definition issue (uuid_Parse : string → result UUID) (bytes : result text)
    (opts : GenerateOptions) : M Token :=
  t ← Generate uuid_Parse bytes opts; Create t.

Lemma Create_sim L t e st r st' :
  models L (st_db st) → tok_UsedCount t = 0 → tok_Status t = StatusActive →
  Create t e st = (r, st') →
  same_tokens (st_db st) (st_db st') ∨
  ∃ b, L !! tok_Token t = None ∧
       models (<[tok_Token t := mkEnrolment b 0 Active]> L) (st_db st').
Proof.
  intros HL H0 Hact. unfold Create, stmt, stmt_rows.
  destruct (env_fault e (st_tick st)); [intros [= <- <-]; by left|].
  destruct (negb (int4 _ && _)); [intros [= <- <-]; by left|].
  destruct (negb _); [intros [= <- <-]; by left|].
  destruct (exists_where _ _) eqn:Hfresh; [intros [= <- <-]; by left|].
  destruct (tokens (st_db st) !! _) eqn:Hid; [intros [= <- <-]; by left|].
  intros [= <- <-]. right. rewrite exists_where_false in Hfresh.
  assert (∀ id r, tokens (st_db st) !! id = Some r → tk_token r ≠ tok_Token t) as Hnew.
  { intros id x Hx Hs%(is_token_spec _ id). specialize (Hfresh id x Hx). congruence. }
  eexists (if tok_MaxUses t =? 0 then None else Some (Z.to_N (tok_MaxUses t))). split.
  { destruct (L !! tok_Token t) as [u|] eqn:Hu; [|done].
    destruct (models_all _ _ HL _ _ Hu) as (id & x & Hx & Hs). by apply Hnew in Hx. }
  set (row := mkTokenRow _ _ _ _ _ _ _ _ _ _ _).
  assert (token_row_ok row) as Hok by (split; simpl; [lia|set_solver]).
  assert (enrolment_of row = mkEnrolment (if tok_MaxUses t =? 0 then None
    else Some (Z.to_N (tok_MaxUses t))) 0 Active) as Hrow.
  { unfold enrolment_of, row. simpl. by rewrite H0, Hact. }
  rewrite <- Hrow. split; simpl.
  - intros id x [[<- <-] | [Hn Hx]]%lookup_insert_Some; [by rewrite lookup_insert_eq|].
    rewrite lookup_insert_ne by (symmetry; by eapply Hnew). by eapply models_row.
  - intros s u [[<- <-] | [Hn Hs]]%lookup_insert_Some.
    { eexists _, row. by rewrite lookup_insert_eq. }
    destruct (models_all _ _ HL _ _ Hs) as (id & x & Hx & <-). exists id, x.
    rewrite lookup_insert_ne by congruence. done.
  - intros id id' x x' [[<- <-] | [Hn Hx]]%lookup_insert_Some
      [[<- <-] | [Hn' Hx']]%lookup_insert_Some; try done.
    + simpl. intros Heq. by apply Hnew in Hx'.
    + simpl. intros Heq. by apply Hnew in Hx.
    + by eapply (models_unique _ _ HL).
  - intros id x [[<- <-] | [Hn Hx]]%lookup_insert_Some; [done|by eapply models_ok].
Qed.

(** ** The machine of calls *)

Inductive token_call :=
  | CallIssue (bytes : result text) (opts : GenerateOptions)
  | CallConsume (tokenStr deviceID : string)
  | CallValidate (tokenStr : string)
  | CallRevoke (tokenStr : string)
  | CallRevokeByID (id : UUID)
  | CallDelete (tokenStr : string)
  | CallCleanupExpired.

Section machine.
Context (uuid_Parse : string → result UUID).

Definition token_step (c : token_call) : M unit :=
  match c with
  | CallIssue bytes opts => _ ← issue uuid_Parse bytes opts; mret ()
  | CallConsume s d => ConsumeToken s d
  | CallValidate s => ValidateOnly s
  | CallRevoke s => Revoke s
  | CallRevokeByID id => RevokeByID id
  | CallDelete s => Delete s
  | CallCleanupExpired => _ ← CleanupExpired; mret ()
  end.

(** What the caller sees of a call. *)
Definition observe (c : token_call) (r : result unit) : event :=
  match c, r with
  | CallConsume s _, Ok _ => Spent s
  | CallDelete s, Ok _ => Removed s
  | _, _ => Silent
  end.

Lemma closes_move s L db : closes s L db → ∃ L', move L Silent L' ∧ models L' db.
Proof. intros (t & l & Ht & Hl & Hm). eexists. split; [by eapply move_close|done]. Qed.
Lemma stay_move L db db' : models L db → same_tokens db db' → ∃ L', move L Silent L' ∧ models L' db'.
Proof. intros HL Hs. exists L. split; [constructor|by eapply models_ext]. Qed.

(** Revocation by either key. *)
Lemma revoke_move L p e st r st' :
  models L (st_db st) →
  (∀ k k' x x', tokens (st_db st) !! k = Some x → tokens (st_db st) !! k' = Some x' →
     p k x = true → p k' x' = true → k = k') →
  (affected ← set_token_status p "revoked";
   if affected =? 0 then fail ErrTokenNotFound else mret ()) e st = (r, st') →
  ∃ L', move L Silent L' ∧ models L' (st_db st').
Proof.
  intros HL Hp. unfold mbind, M_bind. rewrite set_token_status_run.
  destruct (env_fault e (st_tick st)); [intros [= <- <-]; by eapply stay_move|].
  set (st1 := mkSt _ _). intros Hr.
  assert (st_db st' = st_db st1) as ->.
  { destruct (_ =? 0); unfold fail, mret, M_ret in Hr; by simplify_eq. }
  destruct (revoke_sim L (st_db st) p HL Hp) as [Hs|[s Hs]];
    [by eapply stay_move|by eapply closes_move].
Qed.

(** Every call, whichever statements fail, is one step of the ledger. *)
Lemma token_step_sim L c e st r st' :
  models L (st_db st) → token_step c e st = (r, st') →
  ∃ L', move L (observe c r) L' ∧ models L' (st_db st').
Proof.
  intros HL Hr. destruct c as [bytes opts|s d|s|s|id|s|]; simpl in Hr.
  - assert (observe (CallIssue bytes opts) r = Silent) as -> by by destruct r.
    unfold issue, Generate, mbind, M_bind, fail, ask, mret, M_ret in Hr.
    assert (∀ t, tok_UsedCount t = 0 → tok_Status t = StatusActive →
      ∃ L', move L Silent L' ∧ models L' (st_db (Create t e st).2)) as Hc.
    { intros t H0 Ha. destruct (Create t e st) as [r' st2] eqn:Hcr.
      destruct (Create_sim _ _ _ _ _ _ HL H0 Ha Hcr) as [Hs|(b & Hn & Hm)];
        [by eapply stay_move|]. eexists. split; [by apply move_issue|done]. }
    repeat (case_match; simplify_eq/=); try (by eapply stay_move).
    all: match goal with H : Create ?t _ _ = (_, _) |- _ =>
           specialize (Hc t eq_refl eq_refl); by rewrite H in Hc end.
  - pose proof (ConsumeToken_sim _ _ _ _ _ _ _ HL Hr) as Hs. destruct r as [[]|x]; simpl.
    + destruct Hs as (t & t' & Ht & Hsp & Hm). eexists. split; [by eapply move_spend|done].
    + destruct Hs; [by eapply stay_move|by eapply closes_move].
  - unfold ValidateOnly, mbind, M_bind in Hr.
    destruct (Validate s e st) as [r1 st1] eqn:Hv.
    assert (observe (CallValidate s) r = Silent ∧ st1 = st') as [-> ->]
      by (destruct r1; unfold mret, M_ret in Hr; simplify_eq; by split).
    destruct (Validate_sim _ _ _ _ _ _ HL Hv); [by eapply stay_move|by eapply closes_move].
  - assert (observe (CallRevoke s) r = Silent) as -> by by destruct r.
    eapply (revoke_move L (is_token s)); [done| |exact Hr].
    intros k k' x x' Hk Hk' Hx%is_token_spec Hx'%is_token_spec.
    eapply (models_unique _ _ HL); [done..|congruence].
  - assert (observe (CallRevokeByID id) r = Silent) as -> by by destruct r.
    unfold RevokeByID in Hr. destruct (id =? "")%string;
      [unfold fail in Hr; simplify_eq; by eapply stay_move|].
    eapply (revoke_move L (λ k _, (k =? id)%string)); [done| |exact Hr].
    intros k k' x x' _ _ Hx Hx'. bools. congruence.
  - unfold Delete, exec, stmt, stmt_rows in Hr.
    destruct (env_fault e (st_tick st)); simplify_eq/=; [by eapply stay_move|].
    eexists. split; [apply move_remove|by apply delete_sim].
  - assert (observe CallCleanupExpired r = Silent) as -> by by destruct r.
    unfold CleanupExpired, ask, mbind, M_bind, mret, M_ret in Hr.
    rewrite set_token_status_run in Hr.
    destruct (env_fault e (st_tick st)); simplify_eq/=; [by eapply stay_move|].
    eexists. split; [apply move_sweep|by apply sweep_sim].
Qed.

(** A history: the calls in order, each with its clock and failures. *)
Fixpoint run_tokens (l : list (Env * token_call)) (st : St) : list event * St :=
  match l with
  | [] => ([], st)
  | (e, c) :: l' =>
    let (r, st1) := token_step c e st in
    let (evs, st2) := run_tokens l' st1 in
    (observe c r :: evs, st2)
  end.

Lemma run_tokens_sim l L st evs st' :
  models L (st_db st) → run_tokens l st = (evs, st') →
  ∃ L', moves L evs L' ∧ models L' (st_db st').
Proof.
  revert L st evs. induction l as [|[e c] l IH]; intros L st evs HL Hr; simpl in Hr.
  - simplify_eq. exists L. split; [constructor|done].
  - destruct (token_step c e st) as [r st1] eqn:H1.
    destruct (run_tokens l st1) as [evs' st2] eqn:H2. simplify_eq.
    destruct (token_step_sim _ _ _ _ _ _ HL H1) as (L1 & Hm1 & HL1).
    destruct (IH _ _ _ HL1 H2) as (L2 & Hm2 & HL2).
    exists L2. split; [by econstructor|done].
Qed.
End machine.

(** ** Tables of tokens *)

(** Token texts are unique, counters fit their columns, statuses are known. *)
Definition tokens_wf (db : DB) : Prop :=
  (∀ id id' r r', tokens db !! id = Some r → tokens db !! id' = Some r' →
     tk_token r = tk_token r' → id = id') ∧
  (∀ id r, tokens db !! id = Some r → token_row_ok r).

Lemma models_wf L db : models L db → tokens_wf db.
Proof. intros [_ _ H3 H4]. by split. Qed.

(** Such a table stands for a ledger. *)
Definition ledger_of (db : DB) : ledger :=
  list_to_map ((λ kr, (tk_token kr.2, enrolment_of kr.2)) <$> map_to_list (tokens db)).
Lemma wf_models db : tokens_wf db → models (ledger_of db) db.
Proof.
  intros [Hu Hok].
  assert (∀ s t, ledger_of db !! s = Some t ↔
    ∃ id r, tokens db !! id = Some r ∧ tk_token r = s ∧ enrolment_of r = t) as Hl.
  { intros s t. unfold ledger_of. rewrite <- elem_of_list_to_map.
    - rewrite list_elem_of_fmap. split.
      + intros ([id r] & [= -> ->] & Hin%elem_of_map_to_list). eauto.
      + intros (id & r & Hid & <- & <-). exists (id, r). by rewrite elem_of_map_to_list.
    - rewrite <- list_fmap_compose. apply NoDup_fmap_2_strong; [|apply NoDup_map_to_list].
      intros [id r] [id' r'] Hin%elem_of_map_to_list Hin'%elem_of_map_to_list Heq.
      simpl in Heq. assert (id = id') as -> by (by eapply Hu). by simplify_eq. }
  split.
  - intros id r Hid. apply Hl. eauto.
  - intros s t (id & r & ? & ? & _)%Hl. eauto.
  - done.
  - done.
Qed.

(** C3. The token store refines the ledger: from any well-formed table, any
    history of issuing, consuming, validating, revoking, deleting and expiring
    tokens, with any statement failing at any point, is a run of the ledger of
    that table in which [ConsumeToken] succeeds exactly at the steps that spend
    one use, and the final table stands for the final ledger. *)
Theorem tokens_refine_ledger uuid_Parse l st evs st' :
  tokens_wf (st_db st) → run_tokens uuid_Parse l st = (evs, st') →
  ∃ L', moves (ledger_of (st_db st)) evs L' ∧ models L' (st_db st').
Proof. intros Hwf. apply run_tokens_sim. by apply wf_models. Qed.

(** C36. A token is consumed at most as often as its [max_uses] allows: over any
    history of calls and failures in which the token is not deleted, its
    [used_count] grows by exactly the number of successful calls of
    [ConsumeToken], and a limited token that starts within its limit ends within
    it. *)
Theorem tokens_spent_within_budget uuid_Parse l st evs st' id r :
  tokens_wf (st_db st) → tokens (st_db st) !! id = Some r →
  run_tokens uuid_Parse l st = (evs, st') → Removed (tk_token r) ∉ evs →
  ∃ id' r', tokens (st_db st') !! id' = Some r' ∧ tk_token r' = tk_token r ∧
    tk_used_count r' = tk_used_count r + Z.of_N (times_spent (tk_token r) evs) ∧
    (0 < tk_max_uses r → tk_used_count r ≤ tk_max_uses r →
     tk_used_count r + Z.of_N (times_spent (tk_token r) evs) ≤ tk_max_uses r).
Proof.
  intros Hwf Hid Hrun Hdel. pose proof (wf_models _ Hwf) as HL.
  destruct (run_tokens_sim _ _ _ _ _ _ HL Hrun) as (L' & Hm & HL').
  pose proof (models_row _ _ HL _ _ Hid) as Hr.
  destruct (moves_token _ _ _ _ _ Hm Hr Hdel) as (t' & Ht' & Hb & Hu & Hw).
  destruct (models_all _ _ HL' _ _ Ht') as (id' & r' & Hid' & Hs').
  pose proof (models_row _ _ HL' _ _ Hid') as Hr'. rewrite Hs', Ht' in Hr'. simplify_eq.
  destruct (models_ok _ _ HL _ _ Hid) as [[Hr0 _] _].
  destruct (models_ok _ _ HL' _ _ Hid') as [[Hr1 _] _]. simpl in Hu.
  exists id', r'. split_and!; [done|done|lia|]. intros Hpos Hle.
  unfold within_budget in Hw. rewrite Hb in Hw. simpl in Hw, Hu.
  rewrite (proj2 (Z.eqb_neq _ _)) in Hw by lia. lia.
Qed.

Definition sample_token (maxUses usedCount : Z) : TokenRow :=
  mkTokenRow "tk_00" "edge" None maxUses usedCount 100 0 "admin" "active" None None.
Definition token_db (r : TokenRow) : DB := empty_db <| tokens := {["id1" := r]} |>.
Lemma token_db_wf r : token_row_ok r → tokens_wf (token_db r).
Proof.
  intros Hok. split; simpl.
  - by intros id id' x x' [<- _]%lookup_singleton_Some [<- _]%lookup_singleton_Some.
  - by intros id x [_ <-]%lookup_singleton_Some.
Qed.
Lemma sample_token_wf : tokens_wf (token_db (sample_token 2 0)).
Proof. apply token_db_wf. split; simpl; [lia|set_solver]. Qed.

(** Three registrations, one lost to a failing statement, and a fourth. *)
Definition sample_history : list (Env * token_call) :=
  [(env_at 1, CallConsume "tk_00" "a");
   (mkEnv 2 2 (λ _ _, "u") (λ _, true), CallConsume "tk_00" "b");
   (env_at 3, CallConsume "tk_00" "b"); (env_at 4, CallConsume "tk_00" "c")].

Lemma tokens_refine_ledger_witness :
  let st := mkSt (token_db (sample_token 2 0)) 0 in
  let (evs, st') := run_tokens (λ s, Ok s) sample_history st in
  evs = [Spent "tk_00"; Silent; Spent "tk_00"; Silent] ∧
  ∃ L', moves (ledger_of (st_db st)) evs L' ∧ models L' (st_db st').
Proof.
  intros st. destruct (run_tokens _ _ st) as [evs st'] eqn:Hrun. split.
  - change evs with (evs, st').1. rewrite <- Hrun. vm_compute. reflexivity.
  - exact (tokens_refine_ledger (λ s, Ok s) sample_history st evs st' sample_token_wf Hrun).
Defined.

Lemma tokens_spent_within_budget_witness :
  let st := mkSt (token_db (sample_token 2 0)) 0 in
  let (evs, st') := run_tokens (λ s, Ok s) sample_history st in
  times_spent "tk_00" evs = 2%N ∧
  ∃ id' r', tokens (st_db st') !! id' = Some r' ∧ tk_token r' = "tk_00" ∧
    tk_used_count r' = 0 + Z.of_N (times_spent "tk_00" evs) ∧
    (0 < 2 → 0 ≤ 2 → 0 + Z.of_N (times_spent "tk_00" evs) ≤ 2).
Proof.
  intros st. destruct (run_tokens _ _ st) as [evs st'] eqn:Hrun.
  assert (evs = [Spent "tk_00"; Silent; Spent "tk_00"; Silent]) as Hevs.
  { change evs with (evs, st').1. rewrite <- Hrun. vm_compute. reflexivity. }
  split; [by rewrite Hevs|].
  refine (tokens_spent_within_budget (λ s, Ok s) sample_history st evs st' "id1"
    (sample_token 2 0) sample_token_wf eq_refl Hrun _).
  rewrite Hevs. intros Hin. repeat (apply elem_of_cons in Hin as [?|Hin]; [done|]).
  by apply elem_of_nil in Hin.
Defined.

(** ** What a caller of [ConsumeToken] gets *)

Lemma token_row_unique s db id r :
  tokens_wf db → token_row s db = Some (id, r) →
  tokens db !! id = Some r ∧ tk_token r = s ∧
  (∀ k x, tokens db !! k = Some x → tk_token x = s → k = id).
Proof.
  intros [Hu _] [Hid Hs]%token_row_Some. split_and!; [done..|].
  intros k x Hk Hx. eapply Hu; [done..|congruence].
Qed.

Lemma usable_where s db id r :
  tokens_wf db → token_row s db = Some (id, r) →
  exists_where (usable s) (tokens db) = usable s id r.
Proof.
  intros Hwf Hr. destruct (token_row_unique _ _ _ _ Hwf Hr) as (Hid & Hs & Honly).
  destruct (usable s id r) eqn:Hu; [apply exists_where_spec; eauto|].
  apply exists_where_false. intros k x Hk. destruct (usable s k x) eqn:Hx; [|done].
  assert (k = id) as -> by (eapply Honly; [done|by apply usable_spec in Hx as []]).
  congruence.
Qed.

(** Without failures [IncrementUsage] takes the row of the token when it is
    usable. *)
Lemma IncrementUsage_run s d e st id r :
  no_faults e → tokens_wf (st_db st) → token_row s (st_db st) = Some (id, r) →
  tk_used_count r + 1 < 2 ^ 31 →
  if usable s id r then
    IncrementUsage s d e st =
    (Ok (), mkSt ((st_db st) <| tokens := <[id := used_by d (env_now e) r]> (tokens (st_db st)) |>)
              (S (st_tick st)))
  else ∃ x st', IncrementUsage s d e st = (Err x, st') ∧ same_tokens (st_db st) (st_db st').
Proof.
  intros Hf Hwf Hr Hmax. pose proof (usable_where _ _ _ _ Hwf Hr) as Hw.
  destruct (token_row_unique _ _ _ _ Hwf Hr) as (Hid & Hs & Honly).
  assert (∀ k x, tokens (st_db st) !! k = Some x → usable s k x = true → k = id) as Honly'.
  { intros k x Hk [Hx _]%usable_spec. eauto. }
  destruct (proj2 Hwf _ _ Hid) as [[Hr0 _] _].
  unfold IncrementUsage, mbind, M_bind, stmt, stmt_rows. rewrite Hf.
  rewrite (proj2 (exists_where_false _ _)).
  2:{ intros k x Hk. destruct (usable s k x) eqn:Hx; [|done].
      assert (k = id) as -> by eauto. simplify_eq. unfold int4.
      rewrite (proj2 (Z.leb_le _ _)), (proj2 (Z.ltb_lt _ _)) by lia. done. }
  cbn [st_db]. destruct (usable s id r) eqn:Hu.
  - unfold exists_where in Hw. apply negb_true_iff in Hw. rewrite Hw.
    by rewrite (update_where_one _ _ _ id r).
  - unfold exists_where in Hw. apply negb_false_iff in Hw. rewrite Hw.
    match goal with |- context [inactive_reason s e ?st1] =>
      destruct (inactive_reason_fails s e st1) as (x & st2 & Hx & Hdb) end.
    exists x, st2. split; [done|]. unfold same. rewrite Hdb. simpl.
    apply update_where_none. apply exists_where_false. unfold exists_where. by rewrite Hw.
Qed.

Lemma UpdateStatus_run id status e st r :
  no_faults e → id ≠ "" → tokens (st_db st) !! id = Some r →
  (UpdateStatus id status e st).2 =
  mkSt ((st_db st) <| tokens := <[id := r <| tk_status := status |>]> (tokens (st_db st)) |>)
    (S (st_tick st)).
Proof.
  intros Hf Hne Hid. unfold UpdateStatus, mbind, M_bind.
  rewrite (proj2 (String.eqb_neq _ _) Hne), set_token_status_run, Hf.
  simpl. rewrite (update_where_one _ _ _ id r); [done|done|apply String.eqb_refl|].
  intros. by apply String.eqb_eq.
Qed.

(** [Validate] of a token that cannot be consumed. *)
Lemma Validate_run s e st id r :
  no_faults e → tokens_wf (st_db st) → s ≠ "" → id ≠ "" →
  token_row s (st_db st) = Some (id, r) → 0 ≤ tk_max_uses r → usable s id r = false →
  let toks := tokens (st_db st) in
  ∃ x st', Validate s e st = (Err x, st') ∧
    (x, tokens (st_db st')) =
    match life_of (tk_status r) with
    | Revoked => (ErrTokenRevoked, toks)
    | Expired => (ErrTokenExpired, toks)
    | Exhausted => (ErrTokenExhausted, toks)
    | Active =>
      if tk_expires_at r <? env_go_now e
      then (ErrTokenExpired, <[id := r <| tk_status := StatusExpired |>]> toks)
      else (ErrTokenExhausted, <[id := r <| tk_status := StatusExhausted |>]> toks)
    end.
Proof.
  intros Hf Hwf Hs Hne Hr Hmax Hu toks.
  destruct (token_row_unique _ _ _ _ Hwf Hr) as (Hid & Htok & _).
  destruct (proj2 Hwf _ _ Hid) as [_ Hk].
  unfold Validate. rewrite (proj2 (String.eqb_neq _ _) Hs).
  unfold GetByToken. rewrite (bind_run _ _ e st (scanToken <$> token_row s (st_db st))
    (mkSt (st_db st) (S (st_tick st)))) by (apply wrap_run; by rewrite query_run).
  rewrite Hr. cbn [fmap option_fmap option_map scanToken tok_Status tok_MaxUses
    tok_ExpiresAt tok_UsedCount tok_ID fst snd].
  assert (tk_status r = "active" ∨ tk_status r = "exhausted" ∨ tk_status r = "expired" ∨
    tk_status r = "revoked") as Hst by set_solver.
  destruct Hst as [Ha | [-> | [-> | ->]]]; [|by eexists _, _..].
  rewrite Ha. simpl. unfold ask. unfold mbind at 1, M_bind at 1.
  destruct (tk_expires_at r <? env_go_now e).
  { rewrite best_effort_fail. eexists _, _. split; [reflexivity|].
    by rewrite (UpdateStatus_run id _ e _ r). }
  assert ((0 <? tk_max_uses r) && (tk_max_uses r <=? tk_used_count r) = true) as ->.
  { apply not_true_iff_false in Hu. rewrite usable_spec in Hu. apply andb_true_iff.
    rewrite Z.ltb_lt, Z.leb_le.
    destruct (decide (tk_max_uses r = 0)), (decide (tk_used_count r < tk_max_uses r));
      [tauto..|lia]. }
  rewrite best_effort_fail. eexists _, _. split; [reflexivity|].
  by rewrite (UpdateStatus_run id _ e _ r).
Qed.

(** Without failures [ConsumeToken] takes one use of an active token within
    its limit and of no other: a revoked, expired or exhausted token is refused
    with the error of its status, and an active one without uses left is marked
    and refused as expired or exhausted. *)
Theorem ConsumeToken_outcome s d e st id r :
  no_faults e → tokens_wf (st_db st) → s ≠ "" → id ≠ "" →
  token_row s (st_db st) = Some (id, r) → 0 ≤ tk_max_uses r → tk_used_count r + 1 < 2 ^ 31 →
  let toks := tokens (st_db st) in
  let (res, st') := ConsumeToken s d e st in
  (res, tokens (st_db st')) =
  if usable s id r then (Ok (), <[id := used_by d (env_now e) r]> toks) else
  match life_of (tk_status r) with
  | Revoked => (Err ErrTokenRevoked, toks)
  | Expired => (Err ErrTokenExpired, toks)
  | Exhausted => (Err ErrTokenExhausted, toks)
  | Active =>
    if tk_expires_at r <? env_go_now e
    then (Err ErrTokenExpired, <[id := r <| tk_status := StatusExpired |>]> toks)
    else (Err ErrTokenExhausted, <[id := r <| tk_status := StatusExhausted |>]> toks)
  end.
Proof.
  intros Hf Hwf Hs Hne Hr Hmax Hover toks.
  pose proof (IncrementUsage_run s d e st id r Hf Hwf Hr Hover) as Hi.
  unfold ConsumeToken, attempt, mbind, M_bind.
  destruct (usable s id r) eqn:Hu; [by rewrite Hi|].
  destruct Hi as (x & st1 & -> & Hsame). unfold same in Hsame.
  destruct (Validate_run s e st1 id r) as (y & st2 & -> & Hv); try done.
  - unfold tokens_wf. by rewrite Hsame.
  - unfold token_row. by rewrite Hsame.
  - rewrite Hsame in Hv. fold toks in Hv.
    revert Hv. destruct (life_of _); [destruct (_ <? _)|..]; intros [= Hy Ht]; simpl; by rewrite Hy, Ht.
Qed.

Lemma ConsumeToken_outcome_witness :
  let st := mkSt (token_db (sample_token 2 2)) 0 in
  let (res, st') := ConsumeToken "tk_00" "a" (env_at 5) st in
  (res, tokens (st_db st')) =
  (Err ErrTokenExhausted,
   <["id1" := (sample_token 2 2) <| tk_status := StatusExhausted |>]> (tokens (st_db st))).
Proof.
  intros st.
  assert (tokens_wf (st_db st)) as Hwf by (apply token_db_wf; split; simpl; [lia|set_solver]).
  assert (token_row "tk_00" (st_db st) = Some ("id1", sample_token 2 2)) as Hr by reflexivity.
  exact (ConsumeToken_outcome "tk_00" "a" (env_at 5) st "id1" (sample_token 2 2)
    (λ _, eq_refl) Hwf ltac:(done) ltac:(done) Hr ltac:(simpl; lia) ltac:(simpl; lia)).
Defined.
