(* ===== verification/ControlState.v ===== *)
(** * Desired, applied and observed state of a node

    [pkg/controllerstorage/node_control_states.go]. *)

From S2P Require Import Prelude GoStr Records Store Events.

Open Scope Z_scope.

(** ** Data *)

Inductive ConvergenceStatus := StatusConverged | StatusPending | StatusDiverged | StatusOffline.
#[export] Instance ConvergenceStatus_eq_dec : EqDecision ConvergenceStatus.
Proof. solve_decision. Defined.

Record NodeControlState := mkNodeControlState {
  ncs_TenantID : UUID;
  ncs_NodeID : UUID;
  ncs_DesiredStateVersion : string;
  ncs_DesiredStateMetadata : object;
  ncs_DesiredStateUpdatedAt : option Time;
  ncs_AppliedStateVersion : string;
  ncs_AppliedStateUpdatedAt : option Time;
  ncs_ObservedState : string;
  ncs_ObservedMessage : string;
  ncs_ObservedAt : option Time;
  ncs_LastSyncAt : option Time;
  ncs_LastSyncError : string;
  ncs_CreatedAt : Time;
  ncs_UpdatedAt : Time;
}.

Record NodeControlStateReport := mkReport {
  r_AppliedStateVersion : string;
  r_ObservedState : string;
  r_ObservedMessage : string;
  r_LastSyncAt : option Time;
  r_LastSyncError : string;
}.

Definition GetConvergenceStatus (s : NodeControlState) (isOnline : bool) : ConvergenceStatus :=
  if negb isOnline then StatusOffline
  else if negb (ncs_LastSyncError s =? "")%string then StatusDiverged
  else if (ncs_DesiredStateVersion s =? "")%string
       || (ncs_DesiredStateVersion s =? ncs_AppliedStateVersion s)%string
  then StatusConverged
  else StatusPending.

(** [dsv-<unix seconds>-<first eight characters of a uuid>]. *)
Definition NewDesiredStateVersion : M string :=
  now ← ask env_go_now;
  id ← new_uuid;
  mret ("dsv-" +:+ Itoa (now / 1000000) +:+ "-" +:+ String.substring 0 8 id).

Fixpoint firstString (values : list string) : string :=
  match values with
  | [] => ""
  | value :: rest =>
    let value := TrimSpace value in
    if (value =? "")%string then firstString rest else value
  end.

Definition stringValue (value : option json) : string :=
  match value with Some (JString s) => s | _ => "" end.

(** [COALESCE(column, '')] and [NULLIF(text, '')]. *)
Definition coalesce (o : option string) : string := default "" o.
Definition nullif (s : string) : option string := if (s =? "")%string then None else Some s.

Definition scanNodeControlState (nodeID : UUID) (r : ControlRow) : NodeControlState :=
  mkNodeControlState (cs_tenant_id r) nodeID (coalesce (cs_desired_state_version r))
    (cs_desired_state_metadata r) (cs_desired_state_updated_at r)
    (coalesce (cs_applied_state_version r)) (cs_applied_state_updated_at r)
    (cs_observed_state r) (coalesce (cs_observed_message r)) (cs_observed_at r)
    (cs_last_sync_at r) (coalesce (cs_last_sync_error r)) (cs_created_at r) (cs_updated_at r).

(** ** Operations *)

Definition GetNodeControlState (tenantID nodeID : UUID) : M (option NodeControlState) :=
  query (λ _ db,
    match node_control_states db !! nodeID with
    | Some r => if (cs_tenant_id r =? tenantID)%string
                then Some (scanNodeControlState nodeID r) else None
    | None => None
    end).

(** The foreign keys of [node_control_states]. *)
Definition control_refs_ok (db : DB) (tenantID nodeID : UUID) : bool :=
  tenant_exists db tenantID && node_exists db nodeID.

Definition set_control (nodeID : UUID) (r : ControlRow) (db : DB) : DB :=
  db <| node_control_states := <[nodeID := r]> (node_control_states db) |>.

Definition upsertNodeDesiredState (tenantID nodeID : UUID) (version : string)
    (metadata : option object) : M NodeControlState :=
  version ← (if (TrimSpace version =? "")%string then NewDesiredStateVersion else mret version);
  let metadata := default ∅ metadata in
  if negb (marshals metadata) then fail (ErrorString "json: unsupported type") else
  stmt (λ e _ db,
    if negb (control_refs_ok db tenantID nodeID)
    then Err (ErrConstraint "node_control_states foreign key") else
    let now := env_now e in
    let row := match node_control_states db !! nodeID with
      | None =>
        mkControlRow tenantID (Some version) metadata (Some now) None None "idle"
          None None None None now now
      | Some r => r <| cs_tenant_id := tenantID |> <| cs_desired_state_version := Some version |>
          <| cs_desired_state_metadata := metadata |>
          <| cs_desired_state_updated_at := Some now |> <| cs_updated_at := now |>
      end in
    Ok (scanNodeControlState nodeID row, set_control nodeID row db)).
Definition UpsertNodeDesiredState := upsertNodeDesiredState.

(** The row a report inserts, and the row [ON CONFLICT (node_id) DO UPDATE]
    makes of an existing one; [observed] is the observed state, not empty. *)
Definition report_insert (now : Time) (tenantID : UUID) (report : NodeControlStateReport)
    (observed : string) : ControlRow :=
  let applied := nullif (r_AppliedStateVersion report) in
  mkControlRow tenantID None ∅ None applied
    (match applied with Some _ => Some now | None => None end) observed
    (nullif (r_ObservedMessage report)) (Some now) (r_LastSyncAt report)
    (nullif (r_LastSyncError report)) now now.

Definition report_update (now : Time) (tenantID : UUID) (report : NodeControlStateReport)
    (observed : string) (r : ControlRow) : ControlRow :=
  let applied := nullif (r_AppliedStateVersion report) in
  let message := nullif (r_ObservedMessage report) in
  let sync_at := r_LastSyncAt report in
  let sync_error := nullif (r_LastSyncError report) in
  r <| cs_tenant_id := tenantID |>
    <| cs_applied_state_version :=
         match applied with Some v => Some v | None => cs_applied_state_version r end |>
    <| cs_applied_state_updated_at :=
         match applied with Some _ => Some now | None => cs_applied_state_updated_at r end |>
    <| cs_observed_state := observed |>
    <| cs_observed_message :=
         match message, sync_at, sync_error with
         | Some m, _, _ => Some m
         | None, Some _, None => Some ""
         | None, _, _ => cs_observed_message r
         end |>
    <| cs_observed_at := Some now |>
    <| cs_last_sync_at :=
         match sync_at with Some t => Some t | None => cs_last_sync_at r end |>
    <| cs_last_sync_error :=
         match sync_at, sync_error with
         | _, Some x => Some x
         | Some _, None => Some ""
         | None, None => cs_last_sync_error r
         end |>
    <| cs_updated_at := now |>.

(** The proposed row has [observed_state = NULLIF($4, '')], and the column is
    NOT NULL: PostgreSQL checks the proposed row before it looks for a
    conflict. *)
Definition reportNodeControlState (tenantID nodeID : UUID) (report : NodeControlStateReport)
    : M NodeControlState :=
  stmt (λ e _ db,
    match nullif (r_ObservedState report) with
    | None => Err (ErrConstraint "node_control_states.observed_state NOT NULL")
    | Some observed =>
      if negb (control_refs_ok db tenantID nodeID)
      then Err (ErrConstraint "node_control_states foreign key") else
      let row := match node_control_states db !! nodeID with
        | None => report_insert (env_now e) tenantID report observed
        | Some r => report_update (env_now e) tenantID report observed r
        end in
      Ok (scanNodeControlState nodeID row, set_control nodeID row db)
    end).
Definition ReportNodeControlState := reportNodeControlState.

(** The JOIN of a command with the node it is for. *)
Definition node_by_key (db : DB) (publicKey : string) : option (UUID * NodeRow) :=
  head (select_where (λ _ n, (n_public_key n =? publicKey)%string) (nodes db)).
Definition command_node (db : DB) (commandID : UUID) : option (CommandRow * UUID * NodeRow) :=
  c ← agent_commands db !! commandID;
  '(nodeID, n) ← node_by_key db (ac_node_public_key c);
  Some (c, nodeID, n).

(** What a command report says of the node's state. *)
Definition command_report (command : string) (params : object) (status message : string)
    (result : strmap) (now : Time) : NodeControlStateReport :=
  let desiredVersion := TrimSpace (firstString
    [default "" (result !! "desired_state_version");
     stringValue (params !! "desired_state_version")]) in
  let appliedVersion := TrimSpace (default "" (result !! "applied_state_version")) in
  let observedState := TrimSpace (default "" (result !! "observed_state")) in
  let observedMessage := TrimSpace (default "" (result !! "observed_message")) in
  let appliedVersion :=
    if (status =? "completed")%string && (command =? "sync")%string
       && (appliedVersion =? "")%string
    then desiredVersion else appliedVersion in
  let observedState :=
    if negb (observedState =? "")%string then observedState
    else if (status =? "completed")%string then
      if (command =? "sync")%string && negb (appliedVersion =? "")%string
      then "applied" else "healthy"
    else if (status =? "failed")%string then "error"
    else if (status =? "acknowledged")%string || (status =? "sent")%string
    then "in_progress" else observedState in
  let observedMessage :=
    if (observedMessage =? "")%string then TrimSpace message else observedMessage in
  let lastSyncError :=
    if (observedState =? "error")%string || (status =? "failed")%string
    then firstString [observedMessage; TrimSpace message] else "" in
  mkReport appliedVersion observedState observedMessage (Some now) lastSyncError.

Definition syncNodeControlStateForCommandTx (commandID status message : string)
    (result : strmap) : M unit :=
  found ← query (λ _ db, command_node db commandID);
  match found with
  | None => mret ()
  | Some (c, nodeID, n) =>
    now ← ask env_go_now;
    _ ← reportNodeControlState (n_tenant_id n) nodeID
          (command_report (ac_command c) (ac_params c) status message result now);
    mret ()
  end.

(** ** Properties *)

Lemma nullif_Some s v : nullif s = Some v ↔ s = v ∧ s ≠ "".
Proof. unfold nullif. destruct (String.eqb_spec s ""); naive_solver. Qed.
Lemma nullif_None s : nullif s = None ↔ s = "".
Proof. unfold nullif. destruct (String.eqb_spec s ""); naive_solver. Qed.
Lemma coalesce_nullif s : coalesce (nullif s) = s.
Proof. unfold nullif. by destruct (String.eqb_spec s ""). Qed.

Lemma firstString_trimmed l : TrimSpace (firstString l) = firstString l.
Proof. induction l as [|v l IH]; simpl; [done|]. case_match; [done|apply TrimSpace_idemp]. Qed.

(** A report that names an observed state, as an equation. *)
Lemma reportNodeControlState_run t n rep e st :
  env_fault e (st_tick st) = false → r_ObservedState rep ≠ "" →
  control_refs_ok (st_db st) t n = true →
  reportNodeControlState t n rep e st =
  let row := match node_control_states (st_db st) !! n with
    | None => report_insert (env_now e) t rep (r_ObservedState rep)
    | Some r => report_update (env_now e) t rep (r_ObservedState rep) r
    end in
  (Ok (scanNodeControlState n row), mkSt (set_control n row (st_db st)) (S (st_tick st))).
Proof.
  intros Hf Ho Hr. unfold reportNodeControlState, stmt, stmt_rows. rewrite Hf, Hr.
  unfold nullif at 1. by destruct (String.eqb_spec (r_ObservedState rep) "").
Qed.

Lemma reportNodeControlState_ok t n rep e st s st' :
  reportNodeControlState t n rep e st = (Ok s, st') →
  r_ObservedState rep ≠ "" ∧ control_refs_ok (st_db st) t n = true ∧
  ∃ row, st_db st' = set_control n row (st_db st) ∧ s = scanNodeControlState n row.
Proof.
  unfold reportNodeControlState. intros (Hf & _)%stmt_ok.
  destruct (nullif _) eqn:Hn; [|done]. apply nullif_Some in Hn as [-> ?].
  destruct (control_refs_ok _ _ _); simpl in Hf; [|done].
  split_and!; try done. simplify_eq. eauto.
Qed.

(** The four statuses an agent reports. *)
Definition report_statuses : list string := ["sent"; "acknowledged"; "completed"; "failed"].

Lemma command_report_observed command params status message result now :
  status ∈ report_statuses →
  r_ObservedState (command_report command params status message result now) ≠ "".
Proof.
  intros Hs. unfold command_report; simpl.
  destruct (String.eqb_spec (TrimSpace (default "" (result !! "observed_state"))) "") as [_|?];
    simpl; [|done].
  unfold report_statuses in Hs. rewrite !elem_of_cons, elem_of_nil in Hs.
  destruct Hs as [->|[->|[->|[->|[]]]]]; simpl; try done. by case_match.
Qed.

(** The tables a report leaves alone. *)
Definition only_control (db db' : DB) : Prop :=
  ∃ cs, db' = db <| node_control_states := cs |>.

#[export] Instance only_control_preorder : PreOrder only_control.
Proof.
  split.
  - intros db. exists (node_control_states db). by destruct db.
  - intros a b c [cs ->] [cs' ->]. by exists cs'.
Qed.

Lemma set_control_only n r db : only_control db (set_control n r db).
Proof. by eexists. Qed.

Lemma sync_for_command_ok id status message result e st st' :
  syncNodeControlStateForCommandTx id status message result e st = (Ok (), st') →
  only_control (st_db st) (st_db st').
Proof.
  unfold syncNodeControlStateForCommandTx. intros H. run_ok.
  destruct a as [[[c n] nr]|]; run_ok.
  - apply reportNodeControlState_ok in Hstep0 as (_ & _ & row & -> & _).
    rewrite Hdb. apply set_control_only.
  - by rewrite Hdb.
Qed.

Lemma reportNodeControlState_only t n rep : changes only_control (reportNodeControlState t n rep).
Proof.
  apply (changes_stmt only_control). intros. cases; apply set_control_only.
Qed.
Lemma upsertNodeDesiredState_only t n version md :
  changes only_control (upsertNodeDesiredState t n version md).
Proof.
  unfold upsertNodeDesiredState, NewDesiredStateVersion. chg;
    apply (changes_stmt only_control); intros; cases; apply set_control_only.
Qed.

(** The row a command report leaves, when no statement fails. *)
Lemma sync_for_command_run id status message result e st c nodeID n :
  no_faults e → status ∈ report_statuses →
  command_node (st_db st) id = Some (c, nodeID, n) →
  control_refs_ok (st_db st) (n_tenant_id n) nodeID = true →
  let rep := command_report (ac_command c) (ac_params c) status message result (env_go_now e) in
  let row := match node_control_states (st_db st) !! nodeID with
    | None => report_insert (env_now e) (n_tenant_id n) rep (r_ObservedState rep)
    | Some r => report_update (env_now e) (n_tenant_id n) rep (r_ObservedState rep) r
    end in
  syncNodeControlStateForCommandTx id status message result e st =
  (Ok (), mkSt (set_control nodeID row (st_db st)) (S (S (st_tick st)))).
Proof.
  intros Hf Hs Hc Hr rep row. unfold syncNodeControlStateForCommandTx, query.
  unfold mbind at 1, M_bind, stmt at 1, stmt_rows at 1. rewrite Hf, Hc. unfold mbind, M_bind, ask.
  rewrite reportNodeControlState_run by (done || by apply command_report_observed). done.
Qed.

(** The version a completed sync names: the one the agent says it applied, or else
    the desired one it names, or else that of the command. *)
Definition reported_version (result : strmap) (v : string) : string :=
  let applied := TrimSpace (default "" (result !! "applied_state_version")) in
  if (applied =? "")%string then firstString [default "" (result !! "desired_state_version"); v] else applied.
(** The error a completed command reports. *)
Definition reported_error (result : strmap) (message : string) : string :=
  if (TrimSpace (default "" (result !! "observed_state")) =? "error")%string
  then firstString [default "" (result !! "observed_message"); message] else "".
Lemma command_report_completed_sync params message result now v :
  params !! "desired_state_version" = Some (JString v) →
  r_AppliedStateVersion (command_report "sync" params "completed" message result now) = reported_version result v.
Proof.
  intros Hp. unfold command_report, reported_version. cbn [r_AppliedStateVersion]. rewrite Hp.
  cbn [stringValue]. change ("completed" =? "completed")%string with true.
  change ("sync" =? "sync")%string with true. cbn [andb].
  destruct (String.eqb_spec (TrimSpace (default "" (result !! "applied_state_version"))) ""); [|done].
  apply firstString_trimmed.
Qed.
Lemma command_report_completed_error command params message result now :
  r_LastSyncError (command_report command params "completed" message result now) = reported_error result message.
Proof.
  unfold command_report, reported_error. cbn [r_LastSyncError]. change ("completed" =? "completed")%string with true.
  change ("completed" =? "failed")%string with false. rewrite orb_false_r. cbv zeta.
  set (o := TrimSpace (default "" (result !! "observed_state"))).
  assert (∀ d, (if negb (o =? "")%string then o else if (d : bool) then "applied" else "healthy") = "error" ↔ o = "error") as Ho.
  { intros d. destruct (String.eqb_spec o "") as [->|]; [by destruct d|done]. }
  match goal with |- (if (?x =? "error")%string then _ else _) = _ => destruct (String.eqb_spec x "error") as [H|H] end.
  - apply Ho in H. rewrite H, String.eqb_refl. cbn [firstString].
    destruct (String.eqb_spec (TrimSpace (default "" (result !! "observed_message"))) "") as [He|He].
    + rewrite !TrimSpace_idemp. by destruct (String.eqb_spec (TrimSpace message) "").
    + rewrite !TrimSpace_idemp. by destruct (String.eqb_spec (TrimSpace (default "" (result !! "observed_message"))) "").
  - destruct (String.eqb_spec o "error") as [He|He]; [|done]. by destruct H; apply Ho.
Qed.
Lemma reported_version_named result v : TrimSpace v ≠ "" → reported_version result v ≠ "".
Proof.
  intros Hv. unfold reported_version. cbn [firstString].
  destruct (String.eqb_spec (TrimSpace (default "" (result !! "applied_state_version"))) ""); [|done].
  destruct (String.eqb_spec (TrimSpace (default "" (result !! "desired_state_version"))) ""); [|done].
  by apply String.eqb_neq in Hv as Hv'; rewrite Hv'.
Qed.

(** When the agent completes the sync command of a node, the report succeeds, the
    applied version becomes the one it names, the desired one stays, and the online
    node counts as converged exactly when the two agree and no error is reported. *)
Lemma completed_sync_converges id message result e st c nodeID n r v d :
  no_faults e →
  command_node (st_db st) id = Some (c, nodeID, n) → ac_command c = "sync" →
  ac_params c !! "desired_state_version" = Some (JString v) → TrimSpace v ≠ "" →
  control_refs_ok (st_db st) (n_tenant_id n) nodeID = true →
  node_control_states (st_db st) !! nodeID = Some r →
  cs_desired_state_version r = Some d → d ≠ "" →
  ∃ st' r', syncNodeControlStateForCommandTx id "completed" message result e st = (Ok (), st') ∧
    node_control_states (st_db st') !! nodeID = Some r' ∧
    cs_desired_state_version r' = Some d ∧ cs_applied_state_version r' = Some (reported_version result v) ∧
    (GetConvergenceStatus (scanNodeControlState nodeID r') true = StatusConverged ↔
       reported_version result v = d ∧ reported_error result message = "").
Proof.
  intros Hf Hc Hsync Hp Hv Hr Hrow Hd Hdv.
  rewrite (sync_for_command_run _ _ _ _ _ _ c nodeID n) by (done || set_solver).
  rewrite Hrow. set (rep := command_report _ _ _ _ _ _).
  assert (r_AppliedStateVersion rep = reported_version result v) as Happ
    by (unfold rep; rewrite Hsync; by apply command_report_completed_sync).
  assert (r_LastSyncError rep = reported_error result message) as Herr by by apply command_report_completed_error.
  assert (is_Some (r_LastSyncAt rep)) as [now Hnow] by by eexists.
  pose proof (reported_version_named result v Hv) as Hw.
  clearbody rep. eexists _, _. split; [done|]. simpl. rewrite lookup_insert_eq.
  split; [done|]. unfold GetConvergenceStatus, scanNodeControlState; simpl.
  rewrite Happ, Herr, Hnow, Hd. unfold nullif. apply String.eqb_neq in Hw as ->.
  split_and!; [done|done|]. simpl.
  destruct (String.eqb_spec (reported_error result message) "") as [->|He]; simpl.
  - apply String.eqb_neq in Hdv as ->. simpl. destruct (String.eqb_spec d (reported_version result v)); naive_solver.
  - apply String.eqb_neq in He as Hx. rewrite Hx. naive_solver.
Qed.

Definition demo_node : NodeRow :=
  mkNodeRow "pk" "m" "t1" "" "" "" "" "" "edge-1" "100.64.0.2" 2 0 0 "spoke" None None None
    (Some "online") None [] None 1 0 0.
Definition demo_command (params : object) : CommandRow :=
  mkCommandRow "pk" "sync" params "sent" None 0 30 ∅ None None None 0 0 None.
Definition demo_control : ControlRow :=
  mkControlRow "t1" (Some "v2") ∅ (Some 1) (Some "v1") (Some 0) "idle" None None None
    (Some "old error") 0 0.
Definition demo_db : DB :=
  empty_db <| tenants := {["t1" := mkTenantRow "T" None None None (Some "active") None 0 0]} |>
           <| nodes := {["n1" := demo_node]} |>
           <| agent_commands :=
                {["c1" := demo_command {["desired_state_version" := JString "v2"]}]} |>
           <| node_control_states := {["n1" := demo_control]} |>.

(** A failed command marks an online node diverged exactly when the agent
    gave a reason: a non-blank message or a non-blank [observed_message]. *)
Theorem failed_command_diverges id message result e st c nodeID n :
  no_faults e →
  command_node (st_db st) id = Some (c, nodeID, n) →
  control_refs_ok (st_db st) (n_tenant_id n) nodeID = true →
  ∃ st' r', syncNodeControlStateForCommandTx id "failed" message result e st = (Ok (), st') ∧
    node_control_states (st_db st') !! nodeID = Some r' ∧
    (GetConvergenceStatus (scanNodeControlState nodeID r') true = StatusDiverged ↔
     TrimSpace message ≠ "" ∨ TrimSpace (default "" (result !! "observed_message")) ≠ "").
Proof.
  intros Hf Hc Hr.
  rewrite (sync_for_command_run _ _ _ _ _ _ c nodeID n) by (done || set_solver).
  set (rep := command_report _ _ _ _ _ _).
  assert (r_LastSyncError rep = "" ↔ TrimSpace message = "" ∧
    TrimSpace (default "" (result !! "observed_message")) = "") as Herr.
  { unfold rep, command_report; simpl. rewrite orb_true_r.
    destruct (String.eqb_spec (TrimSpace (default "" (result !! "observed_message"))) "") as [Hm|Hm];
      rewrite !TrimSpace_idemp; repeat case_match; bools; naive_solver. }
  assert (is_Some (r_LastSyncAt rep)) as [now Hnow] by by eexists.
  clearbody rep. eexists _, _. split; [done|]. simpl. rewrite lookup_insert_eq.
  split; [done|]. unfold GetConvergenceStatus, scanNodeControlState; simpl.
  set (row := match node_control_states _ !! _ with Some _ => _ | None => _ end).
  assert (coalesce (cs_last_sync_error row) = r_LastSyncError rep) as Hrow.
  { unfold row. destruct (node_control_states (st_db st) !! nodeID); simpl;
      [|apply coalesce_nullif]. rewrite Hnow. destruct (nullif (r_LastSyncError rep)) eqn:Hn.
    - by apply nullif_Some in Hn as [-> _].
    - apply nullif_None in Hn. by rewrite Hn. }
  rewrite Hrow. destruct (String.eqb_spec (r_LastSyncError rep) "") as [Hx|Hx]; simpl.
  - apply Herr in Hx as [Hm Ho]. split; [by case_match|]. intros [?|?]; done.
  - split; [intros _|done]. destruct (decide (TrimSpace message = "")); [|by left].
    right. intros Hn. by apply Hx, Herr.
Qed.

Lemma failed_command_diverges_witness :
  ∃ st' r', syncNodeControlStateForCommandTx "c1" "failed" "boom" ∅ (env_at 9) (mkSt demo_db 0)
      = (Ok (), st') ∧
    node_control_states (st_db st') !! "n1" = Some r' ∧
    (GetConvergenceStatus (scanNodeControlState "n1" r') true = StatusDiverged ↔
     TrimSpace "boom" ≠ "" ∨ TrimSpace (default "" ((∅ : strmap) !! "observed_message")) ≠ "").
Proof.
  refine (failed_command_diverges "c1" "boom" ∅ (env_at 9) (mkSt demo_db 0)
    (demo_command {["desired_state_version" := JString "v2"]}) "n1" demo_node _ _ _); done.
Defined.

(** A report without an observed state never succeeds, with or without a
    stored row, and leaves the tables as they were: the clause of
    [ON CONFLICT] that would keep the stored observed state is never reached. *)
Theorem report_without_observed_state_fails tenantID nodeID applied message sync_at sync_error e st :
  let rep := mkReport applied "" message sync_at sync_error in
  is_ok (reportNodeControlState tenantID nodeID rep e st).1 = false ∧
  st_db (reportNodeControlState tenantID nodeID rep e st).2 = st_db st.
Proof. unfold reportNodeControlState, stmt, stmt_rows. simpl. by case_match. Qed.
