(* ===== verification/AgentCommands.v ===== *)
(** * The agent command queue

    [pkg/controllerstorage/agent_commands.go]: commands the controller queues
    for a node, hands out over the command stream, and closes when the agent
    reports or a deadline passes. *)

From S2P Require Import Prelude GoStr Records Store Events ControlState.

Open Scope Z_scope.

(** ** Data *)

Definition AgentCommandStatusPending : string := "pending".
Definition AgentCommandStatusSent : string := "sent".
Definition AgentCommandStatusAcknowledged : string := "acknowledged".
Definition AgentCommandStatusCompleted : string := "completed".
Definition AgentCommandStatusFailed : string := "failed".
Definition AgentCommandStatusStale : string := "stale".

Definition allowedAgentCommands : list string := ["sync"; "health_check"; "config_reload"].

Record AgentCommand := mkAgentCommand {
  ID : UUID;
  NodePublicKey : string;
  Command : string;
  RawParams : object;
  Params : strmap;
  Status : string;
  Message : string;
  Priority : Z;
  TimeoutSeconds : Z;
  CreatedAt : Time;
  UpdatedAt : Time;
  SentAt : option Time;
  AcknowledgedAt : option Time;
  CompletedAt : option Time;
  Result : strmap;
}.
#[export] Instance eta_AgentCommand : Eta AgentCommand := λ r,
  mkAgentCommand (ID r) (NodePublicKey r) (Command r) (RawParams r) (Params r) (Status r)
    (Message r) (Priority r) (TimeoutSeconds r) (CreatedAt r) (UpdatedAt r) (SentAt r)
    (AcknowledgedAt r) (CompletedAt r) (Result r).

Definition IsAllowedAgentCommand (command : string) : bool :=
  one_of (TrimSpace command) allowedAgentCommands.

(** The text of one parameter; a value [json.Marshal] refuses becomes empty. *)
Definition stringifyCommandParam (value : json) : string :=
  match value with
  | JNull => ""
  | JString v => v
  | JBool true => "true"
  | JBool false => "false"
  | JOther rendered => rendered
  | JUnsupported => ""
  end.
Definition stringifyCommandParams (params : object) : strmap :=
  stringifyCommandParam <$> params.

Definition scanAgentCommandRow (id : UUID) (r : CommandRow) : AgentCommand :=
  mkAgentCommand id (ac_node_public_key r) (ac_command r) (ac_params r)
    (stringifyCommandParams (ac_params r)) (ac_status r) (coalesce (ac_message r))
    (ac_priority r) (ac_timeout_seconds r) (ac_created_at r) (ac_updated_at r)
    (ac_sent_at r) (ac_acknowledged_at r) (ac_completed_at r) (ac_result r).

(** [make_interval(secs => n)]; times are in microseconds. *)
Definition seconds (n : Z) : Z := n * 1000000.

Definition set_commands (m : gmap UUID CommandRow) (db : DB) : DB :=
  db <| agent_commands := m |>.
Definition set_deliveries (m : gmap UUID DeliveryRow) (db : DB) : DB :=
  db <| policy_deliveries := m |>.

(** [status IN ('pending', 'sent', 'acknowledged')]. *)
Definition incomplete_statuses : list string := ["pending"; "sent"; "acknowledged"].
Definition incomplete (status : string) : bool := one_of status incomplete_statuses.

(** ** Queueing *)

(** The row an INSERT makes. *)
Definition new_command_row (e : Env) (nodePublicKey command : string) (params : object)
    (priority timeoutSeconds : Z) : CommandRow :=
  mkCommandRow nodePublicKey command params AgentCommandStatusPending None priority
    timeoutSeconds ∅ None None None (env_now e) (env_now e)
    (Some (env_now e + seconds timeoutSeconds)).

Definition insert_command (id : UUID) (row : CommandRow) (db : DB) : result DB :=
  if negb (int4 (ac_priority row) && int4 (ac_timeout_seconds row))
  then Err (ErrConstraint "integer out of range")
  else match agent_commands db !! id with
  | Some _ => Err (ErrConstraint "agent_commands_pkey")
  | None => Ok (set_commands (<[id := row]> (agent_commands db)) db)
  end.

Definition queueAgentCommand (nodePublicKey command : string) (params : option object)
    (priority timeoutSeconds : Z) : M AgentCommand :=
  if (nodePublicKey =? "")%string then fail (ErrorString "node public key is required") else
  let command := TrimSpace command in
  if (command =? "")%string then fail (ErrorString "command is required") else
  if negb (IsAllowedAgentCommand command)
  then fail (ErrorString ("unsupported agent command: " +:+ command)) else
  let timeoutSeconds := if timeoutSeconds <=? 0 then 30 else timeoutSeconds in
  let params := default ∅ params in
  if negb (marshals params) then fail (ErrorString "json: unsupported type") else
  stmt (λ e id db,
    db' ← insert_command id
            (new_command_row e nodePublicKey command params priority timeoutSeconds) db;
    Ok (mkAgentCommand id nodePublicKey command params (stringifyCommandParams params)
          AgentCommandStatusPending "" priority timeoutSeconds (env_now e) (env_now e)
          None None None ∅, db')).
Definition QueueAgentCommand := queueAgentCommand.

(** The rows of a multi-row INSERT, numbered from [i], with what RETURNING
    gives for each. *)
Fixpoint insert_commands (e : Env) (ids : nat → UUID) (i : nat) (targets : list string)
    (command : string) (params : object) (priority timeoutSeconds : Z) (db : DB)
    : result (list (string * UUID) * DB) :=
  match targets with
  | [] => Ok ([], db)
  | key :: rest =>
    db' ← insert_command (ids i)
            (new_command_row e key command params priority timeoutSeconds) db;
    '(returned, db'') ← insert_commands e ids (S i) rest command params priority
                          timeoutSeconds db';
    Ok ((key, ids i) :: returned, db'')
  end.

(** The map [byNode]: a later row of the same key replaces an earlier one. *)
Definition by_node (returned : list (string * UUID)) : strmap :=
  foldl (λ m kv, <[kv.1 := kv.2]> m) ∅ returned.

(** The result lists one command per target, in the order of the targets. *)
Definition collect_commands (e : Env) (byNode : strmap) (targets : list string)
    (command : string) (params : object) (priority timeoutSeconds : Z)
    : result (list AgentCommand) :=
  mapM (λ key, match byNode !! key with
    | Some id => Ok (mkAgentCommand id key command params (stringifyCommandParams params)
        AgentCommandStatusPending "" priority timeoutSeconds (env_now e) (env_now e)
        None None None ∅)
    | None => Err (ErrorString ("queued agent command missing for node " +:+ key))
    end) targets.

Definition QueueAgentCommands (targets : list string) (command : string)
    (params : option object) (priority timeoutSeconds : Z) : M (list AgentCommand) :=
  match targets with
  | [] => mret []
  | _ =>
    let command := TrimSpace command in
    if (command =? "")%string then fail (ErrorString "command is required") else
    if negb (IsAllowedAgentCommand command)
    then fail (ErrorString ("unsupported agent command: " +:+ command)) else
    let timeoutSeconds := if timeoutSeconds <=? 0 then 30 else timeoutSeconds in
    let params := default ∅ params in
    if negb (marshals params) then fail (ErrorString "json: unsupported type") else
    if existsb (λ key, (key =? "")%string) targets
    then fail (ErrorString "node public key is required") else
    returned ← stmt_rows (λ e ids db,
      insert_commands e ids 0 targets command params priority timeoutSeconds db);
    lift (λ e, collect_commands e (by_node returned) targets command params priority
                 timeoutSeconds)
  end.

(** ** Handing out *)

(** [sent] and past its deadline. *)
Definition overdue (now : Time) (r : CommandRow) : bool :=
  match ac_deadline_at r with Some d => d <? now | None => false end.

Definition requeue_row (now : Time) (r : CommandRow) : CommandRow :=
  r <| ac_status := AgentCommandStatusPending |>
    <| ac_message := Some "command delivery timed out; requeued" |>
    <| ac_sent_at := None |> <| ac_updated_at := now |>.

Definition requeue_overdue (nodePublicKey : string) (now : Time) (db : DB) : DB :=
  set_commands (update_where
    (λ _ r, (ac_node_public_key r =? nodePublicKey)%string
            && (ac_status r =? AgentCommandStatusSent)%string && overdue now r)
    (requeue_row now) (agent_commands db)) db.

(** [ORDER BY priority DESC, created_at ASC]. *)
Definition command_before (a b : UUID * CommandRow) : bool :=
  (ac_priority b.2 <? ac_priority a.2)
  || ((ac_priority a.2 =? ac_priority b.2) && (ac_created_at a.2 <? ac_created_at b.2)).

Definition pending_for (nodePublicKey : string) (_ : UUID) (r : CommandRow) : bool :=
  (ac_node_public_key r =? nodePublicKey)%string
  && (ac_status r =? AgentCommandStatusPending)%string.

Definition next_pending (nodePublicKey : string) (db : DB) : option (UUID * CommandRow) :=
  head (SliceStable command_before (select_where (pending_for nodePublicKey) (agent_commands db))).

Definition send_row (now : Time) (r : CommandRow) : CommandRow :=
  r <| ac_status := AgentCommandStatusSent |> <| ac_sent_at := Some now |>
    <| ac_deadline_at := Some (now + seconds (ac_timeout_seconds r)) |>
    <| ac_updated_at := now |>.

(** Without a pending command the transaction is rolled back. *)
Definition GetNextPendingAgentCommand (nodePublicKey : string) : M (option AgentCommand) :=
  tx (
    _ ← exec (λ e db, ((), requeue_overdue nodePublicKey (env_now e) db));
    found ← query (λ _ db, next_pending nodePublicKey db);
    match found with
    | None => mret (Abandon None)
    | Some (id, row) =>
      now ← ask env_go_now;
      _ ← exec (λ _ db, ((), set_commands
            (update_where (λ k _, (k =? id)%string) (send_row now) (agent_commands db)) db));
      mret (Commit (Some ((scanAgentCommandRow id row)
        <| Status := AgentCommandStatusSent |> <| SentAt := Some now |>
        <| UpdatedAt := now |>)))
    end).

Definition RequeueSentAgentCommand (commandID nodePublicKey message : string) : M unit :=
  if (commandID =? "")%string then fail (ErrorString "command id is required") else
  if (nodePublicKey =? "")%string then fail (ErrorString "node public key is required") else
  let message := if (message =? "")%string then "command delivery failed; requeued" else message in
  let p := λ id r, (id =? commandID)%string && (ac_node_public_key r =? nodePublicKey)%string
                   && (ac_status r =? AgentCommandStatusSent)%string in
  affected ← exec (λ e db, (count_where p (agent_commands db),
    set_commands (update_where p (λ r,
      r <| ac_status := AgentCommandStatusPending |> <| ac_message := Some message |>
        <| ac_sent_at := None |>
        <| ac_deadline_at := Some (env_now e + seconds (ac_timeout_seconds r)) |>
        <| ac_updated_at := env_now e |>) (agent_commands db)) db));
  if affected =? 0
  then fail (ErrorString ("sent agent command " +:+ commandID +:+
                          " was not requeued for node " +:+ nodePublicKey))
  else mret ().

(** ** Closing *)

(** The rows of deliveries whose command the subquery selects. *)
Definition close_deliveries (p : UUID → CommandRow → bool) (status message : string)
    (now : Time) (db : DB) : DB :=
  set_deliveries (update_where
    (λ _ d, match agent_commands db !! pd_command_id d with
            | Some c => p (pd_command_id d) c | None => false end)
    (λ d, d <| pd_command_status := status |> <| pd_last_error := Some message |>
            <| pd_updated_at := now |> <| pd_completed_at := Some now |>)
    (policy_deliveries db)) db.

Definition close_row (status message : string) (now : Time) (r : CommandRow) : CommandRow :=
  r <| ac_status := status |> <| ac_message := Some message |>
    <| ac_updated_at := now |> <| ac_completed_at := Some now |>.
Definition close_commands (p : UUID → CommandRow → bool) (status message : string)
    (now : Time) (db : DB) : DB :=
  set_commands (update_where p (close_row status message now) (agent_commands db)) db.

Definition incomplete_for (nodePublicKey : string) (_ : UUID) (r : CommandRow) : bool :=
  (ac_node_public_key r =? nodePublicKey)%string && incomplete (ac_status r).
Definition timed_out_for (nodePublicKey : string) (now : Time) (k : UUID) (r : CommandRow) : bool :=
  incomplete_for nodePublicKey k r && overdue now r.

Definition failTimedOutAgentCommandsForNodeTx (nodePublicKey : string) : M Z :=
  if (nodePublicKey =? "")%string then fail (ErrorString "node public key is required") else
  let message := "command timed out waiting for agent result" in
  _ ← exec (λ e db, ((), close_deliveries (timed_out_for nodePublicKey (env_now e))
              AgentCommandStatusFailed message (env_now e) db));
  exec (λ e db, (count_where (timed_out_for nodePublicKey (env_now e)) (agent_commands db),
    close_commands (timed_out_for nodePublicKey (env_now e))
      AgentCommandStatusFailed message (env_now e) db)).

Definition FailTimedOutAgentCommandsForNode (nodePublicKey : string) : M Z :=
  tx (affected ← failTimedOutAgentCommandsForNodeTx nodePublicKey; mret (Commit affected)).

Definition failIncompleteAgentCommandsForNodeTx (nodePublicKey message : string) : M unit :=
  if (nodePublicKey =? "")%string then fail (ErrorString "node public key is required") else
  let message := if (message =? "")%string then "node is no longer active" else message in
  _ ← exec (λ e db, ((), close_deliveries (incomplete_for nodePublicKey)
              AgentCommandStatusFailed message (env_now e) db));
  exec (λ e db, ((), close_commands (incomplete_for nodePublicKey)
              AgentCommandStatusFailed message (env_now e) db)).

Definition FailIncompleteAgentCommandsForNode (nodePublicKey message : string) : M unit :=
  tx (_ ← failIncompleteAgentCommandsForNodeTx nodePublicKey message; mret (Commit ())).

(** ** Reports *)

Definition isAgentCommandReportStatus (status : string) : bool := one_of status report_statuses.

(** The error, or none. *)
Definition validateAgentCommandStatusTransition (currentStatus nextStatus : string)
    : option error :=
  let invalid := Some (ErrorString ("invalid agent command status transition: "
                   +:+ currentStatus +:+ " -> " +:+ nextStatus)) in
  if one_of currentStatus [AgentCommandStatusCompleted; AgentCommandStatusFailed]
  then Some (ErrorString ("terminal agent command status " +:+ currentStatus
               +:+ " cannot transition to " +:+ nextStatus))
  else if (currentStatus =? AgentCommandStatusPending)%string then
    if one_of nextStatus [AgentCommandStatusSent; AgentCommandStatusFailed]
    then None else invalid
  else if (currentStatus =? AgentCommandStatusSent)%string then
    if one_of nextStatus [AgentCommandStatusAcknowledged; AgentCommandStatusCompleted;
                          AgentCommandStatusFailed]
    then None else invalid
  else if (currentStatus =? AgentCommandStatusAcknowledged)%string then
    if one_of nextStatus [AgentCommandStatusCompleted; AgentCommandStatusFailed]
    then None else invalid
  else if (currentStatus =? AgentCommandStatusStale)%string then None
  else Some (ErrorString ("unsupported current agent command status: " +:+ currentStatus)).

(** [id = $1 AND node_public_key = $2], the second test only with a key. *)
Definition command_matches (commandID nodePublicKey : string) (k : UUID) (r : CommandRow) : bool :=
  (k =? commandID)%string
  && ((nodePublicKey =? "")%string || (ac_node_public_key r =? nodePublicKey)%string).

Definition command_status (commandID nodePublicKey : string) (db : DB) : option string :=
  match agent_commands db !! commandID with
  | Some r => if command_matches commandID nodePublicKey commandID r
              then Some (ac_status r) else None
  | None => None
  end.
Definition lockAgentCommandStatusTx (commandID nodePublicKey : string) : M string :=
  query_row (λ _ db, command_status commandID nodePublicKey db).
Definition currentAgentCommandStatusTx (commandID nodePublicKey : string) : M string :=
  query_row (λ _ db, command_status commandID nodePublicKey db).

Definition report_row (status message : string) (result : strmap) (now : Time)
    (r : CommandRow) : CommandRow :=
  r <| ac_status := status |> <| ac_message := Some message |> <| ac_result := result |>
    <| ac_updated_at := now |>
    <| ac_acknowledged_at :=
         if (status =? "acknowledged")%string
         then match ac_acknowledged_at r with Some t => Some t | None => Some now end
         else ac_acknowledged_at r |>
    <| ac_completed_at :=
         if one_of status ["completed"; "failed"] then Some now else ac_completed_at r |>
    <| ac_deadline_at :=
         if one_of status ["sent"; "acknowledged"]
         then Some (now + seconds (ac_timeout_seconds r)) else ac_deadline_at r |>.

Definition report_delivery (status message : string) (now : Time) (d : DeliveryRow) : DeliveryRow :=
  d <| pd_command_status := status |>
    <| pd_last_error :=
         if (status =? "failed")%string then Some message
         else if (status =? "completed")%string then Some "" else pd_last_error d |>
    <| pd_updated_at := now |>
    <| pd_completed_at :=
         if one_of status ["completed"; "failed"] then Some now else pd_completed_at d |>.
Definition report_deliveries (commandID status message : string) (now : Time) (db : DB) : DB :=
  set_deliveries (update_where (λ _ d, (pd_command_id d =? commandID)%string)
    (report_delivery status message now) (policy_deliveries db)) db.

(** [WHERE ... AND status <> 'stale']. *)
Definition reportable (commandID nodePublicKey : string) (k : UUID) (r : CommandRow) : bool :=
  command_matches commandID nodePublicKey k r && negb (ac_status r =? "stale")%string.

Definition not_owned (commandID nodePublicKey : string) : error :=
  ErrorString ("agent command " +:+ commandID +:+ " does not belong to node " +:+ nodePublicKey).

(** The body of the transaction: whether it committed a change. *)
Definition updateAgentCommandStatusTx (commandID nodePublicKey status message : string)
    (result : strmap) : M (outcome bool) :=
  locked ← attempt (lockAgentCommandStatusTx commandID nodePublicKey);
  match locked with
  | Err x => fail (if (nodePublicKey =? "")%string then x else not_owned commandID nodePublicKey)
  | Ok currentStatus =>
    if (currentStatus =? AgentCommandStatusStale)%string then mret (Abandon false) else
    if (currentStatus =? status)%string then mret (Abandon false) else
    match validateAgentCommandStatusTransition currentStatus status with
    | Some x => fail x
    | None =>
      affected ← exec (λ e db,
        (count_where (reportable commandID nodePublicKey) (agent_commands db),
         set_commands (update_where (reportable commandID nodePublicKey)
           (report_row status message result (env_now e)) (agent_commands db)) db));
      if affected =? 0 then
        current ← attempt (currentAgentCommandStatusTx commandID nodePublicKey);
        match current with
        | Ok now_status =>
          if (now_status =? AgentCommandStatusStale)%string then mret (Abandon false)
          else fail (if (nodePublicKey =? "")%string
                     then ErrorString ("agent command " +:+ commandID +:+ " was not updated")
                     else not_owned commandID nodePublicKey)
        | Err x => fail (if (nodePublicKey =? "")%string then x
                         else not_owned commandID nodePublicKey)
        end
      else
        _ ← exec (λ e db, ((), report_deliveries commandID status message (env_now e) db));
        _ ← syncNodeControlStateForCommandTx commandID status message result;
        mret (Commit true)
    end
  end.

(** Audit events of the deliveries a command carried; every write is best
    effort. *)
Definition emitPolicyDeliveryAlertAndAudit (commandID status errorMsg : string)
    (tenantID nodeID : UUID) : M unit :=
  rows ← attempt (query (λ _ db,
    select_where (λ _ d, (pd_command_id d =? commandID)%string) (policy_deliveries db)));
  match rows with
  | Err _ => mret ()
  | Ok rows =>
    for_each rows (λ kd,
      let domain := pd_policy_domain kd.2 in
      let ref := pd_policy_ref kd.2 in
      if (status =? AgentCommandStatusFailed)%string then
        _ ← best_effort (GeneratePolicyFailedAlert tenantID nodeID domain ref commandID errorMsg);
        best_effort (CreateAuditEvent (mkAuditEvent tenantID (Some nodeID) "policy_failed"
          "system" ("策略下发失败: " +:+ domain +:+ "/" +:+ ref)
          (<["command_id" := JString commandID]> (<["policy_domain" := JString domain]>
           (<["policy_ref" := JString ref]> {["error" := JString errorMsg]})))))
      else if (status =? AgentCommandStatusCompleted)%string then
        best_effort (CreateAuditEvent (mkAuditEvent tenantID (Some nodeID) "policy_delivered"
          "system" ("策略下发成功: " +:+ domain +:+ "/" +:+ ref)
          (<["command_id" := JString commandID]> (<["policy_domain" := JString domain]>
           {["policy_ref" := JString ref]}))))
      else mret ())
  end.

Definition emitCommandAlertAndAudit (commandID status errorMsg : string) : M unit :=
  found ← attempt (query_row (λ _ db, command_node db commandID));
  match found with
  | Err _ => mret ()
  | Ok (c, nodeID, n) =>
    let tenantID := n_tenant_id n in
    _ ← (if (status =? AgentCommandStatusFailed)%string then
           _ ← best_effort (GenerateSyncFailedAlert tenantID nodeID commandID errorMsg);
           best_effort (CreateAuditEvent (mkAuditEvent tenantID (Some nodeID)
             AuditCommandResult "system" ("命令执行失败: " +:+ ac_command c)
             (<["command_id" := JString commandID]> (<["status" := JString status]>
              {["error" := JString errorMsg]}))))
         else if (status =? AgentCommandStatusCompleted)%string then
           best_effort (CreateAuditEvent (mkAuditEvent tenantID (Some nodeID)
             AuditCommandResult "system" ("命令执行成功: " +:+ ac_command c)
             (<["command_id" := JString commandID]> {["status" := JString status]})))
         else mret ());
    emitPolicyDeliveryAlertAndAudit commandID status errorMsg tenantID nodeID
  end.

Definition updateAgentCommandStatus (commandID nodePublicKey status message : string)
    (result : option strmap) : M unit :=
  if (commandID =? "")%string then fail (ErrorString "command id is required") else
  let status := TrimSpace status in
  if (status =? "")%string then fail (ErrorString "status is required") else
  if negb (isAgentCommandReportStatus status)
  then fail (ErrorString ("unsupported agent command status: " +:+ status)) else
  committed ← tx (updateAgentCommandStatusTx commandID nodePublicKey status message
                    (default ∅ result));
  if (committed : bool) && one_of status [AgentCommandStatusCompleted; AgentCommandStatusFailed]
  then emitCommandAlertAndAudit commandID status message
  else mret ().

Definition UpdateAgentCommandStatus (commandID status message : string)
    (result : option strmap) : M unit :=
  updateAgentCommandStatus commandID "" status message result.
Definition UpdateAgentCommandStatusForNode (commandID nodePublicKey status message : string)
    (result : option strmap) : M unit :=
  if (nodePublicKey =? "")%string then fail (ErrorString "node public key is required")
  else updateAgentCommandStatus commandID nodePublicKey status message result.

(** ** Queries *)

Definition CountIncompleteAgentCommands (nodePublicKey : string) : M Z :=
  query (λ _ db, count_where (incomplete_for nodePublicKey) (agent_commands db)).

(** [ORDER BY created_at DESC]. *)
Definition commands_of (nodePublicKey : string) (db : DB) : list (UUID * CommandRow) :=
  SliceStable (λ a b, ac_created_at b.2 <? ac_created_at a.2)
    (select_where (λ _ r, (ac_node_public_key r =? nodePublicKey)%string) (agent_commands db)).

Definition GetLastAgentCommandID (nodePublicKey : string) : M string :=
  query (λ _ db, match head (commands_of nodePublicKey db) with
                 | Some (id, _) => id | None => "" end).
Definition GetLastAgentCommand (nodePublicKey : string) : M (option AgentCommand) :=
  query (λ _ db, (λ kr, scanAgentCommandRow kr.1 kr.2) <$> head (commands_of nodePublicKey db)).
Definition ListRecentAgentCommands (nodePublicKey : string) (limit : Z) : M (list AgentCommand) :=
  let limit := if limit <=? 0 then 10 else limit in
  query (λ _ db, (λ kr, scanAgentCommandRow kr.1 kr.2) <$>
                   take (Z.to_nat limit) (commands_of nodePublicKey db)).

(** ** Logs *)

Lemma emitPolicyDeliveryAlertAndAudit_logs id status msg t n :
  only_logs (emitPolicyDeliveryAlertAndAudit id status msg t n).
Proof. unfold emitPolicyDeliveryAlertAndAudit. chg. Qed.
#[export] Hint Resolve emitPolicyDeliveryAlertAndAudit_logs : aria.
Lemma emitCommandAlertAndAudit_logs id status msg :
  only_logs (emitCommandAlertAndAudit id status msg).
Proof. unfold emitCommandAlertAndAudit. chg. Qed.
#[export] Hint Resolve emitCommandAlertAndAudit_logs : aria.

Lemma emitPolicyDeliveryAlertAndAudit_total id status msg t n :
  total (emitPolicyDeliveryAlertAndAudit id status msg t n).
Proof.
  unfold emitPolicyDeliveryAlertAndAudit. apply total_bind; [auto with aria|].
  intros [rows|]; [|auto with aria]. apply total_for_each. intros kd.
  repeat case_match; auto with aria.
Qed.
Lemma emitCommandAlertAndAudit_total id status msg : total (emitCommandAlertAndAudit id status msg).
Proof.
  unfold emitCommandAlertAndAudit. apply total_bind; [auto with aria|].
  intros [[[c nodeID] n]|]; [|auto with aria]. apply total_bind.
  - repeat case_match; auto with aria.
  - intros _. apply emitPolicyDeliveryAlertAndAudit_total.
Qed.
