(* ===== verification/PolicySync.v ===== *)
(** * Policy deliveries and policy sync

    [pkg/controllerstorage/policy_deliveries.go] and [policy_sync.go]: a policy
    change sets the node's desired version, closes the syncs it supersedes,
    queues a sync command and records the delivery, in one transaction. *)

From S2P Require Import Prelude GoStr Records Store Events ControlState AgentCommands.

Open Scope Z_scope.

(** ** Deliveries *)

Record PolicyDelivery := mkPolicyDelivery {
  d_ID : UUID;
  d_TenantID : UUID;
  d_NodeID : UUID;
  d_PolicyDomain : string;
  d_PolicyRef : string;
  d_PolicyName : string;
  d_Action : string;
  d_CommandID : UUID;
  d_CommandStatus : string;
  d_LastError : string;
  d_Metadata : object;
  d_CreatedAt : Time;
  d_UpdatedAt : Time;
  d_CompletedAt : option Time;
}.

Record PolicyDeliveryRef := mkPolicyDeliveryRef {
  dr_NodeID : UUID;
  dr_PolicyDomain : string;
  dr_PolicyRef : string;
}.
#[export] Instance PolicyDeliveryRef_eq_dec : EqDecision PolicyDeliveryRef.
Proof. solve_decision. Defined.
#[export] Instance PolicyDeliveryRef_countable : Countable PolicyDeliveryRef.
Proof.
  refine (inj_countable' (λ r, (dr_NodeID r, dr_PolicyDomain r, dr_PolicyRef r))
    (λ t, mkPolicyDeliveryRef t.1.1 t.1.2 t.2) _). by intros [].
Defined.

Definition scanPolicyDelivery (id : UUID) (r : DeliveryRow) : PolicyDelivery :=
  mkPolicyDelivery id (pd_tenant_id r) (pd_node_id r) (pd_policy_domain r) (pd_policy_ref r)
    (coalesce (pd_policy_name r)) (pd_action r) (pd_command_id r) (pd_command_status r)
    (coalesce (pd_last_error r)) (pd_metadata r) (pd_created_at r) (pd_updated_at r)
    (pd_completed_at r).

(** What the caller fills in; the other columns are generated. *)
Record NewDelivery := mkNewDelivery {
  nd_TenantID : UUID;
  nd_NodeID : UUID;
  nd_PolicyDomain : string;
  nd_PolicyRef : string;
  nd_PolicyName : string;
  nd_Action : string;
  nd_CommandID : UUID;
  nd_CommandStatus : string;
  nd_LastError : string;
  nd_Metadata : option object;
}.

Definition command_exists (db : DB) (commandID : UUID) : bool :=
  bool_decide (is_Some (agent_commands db !! commandID)).

Definition createPolicyDelivery (delivery : NewDelivery) : M PolicyDelivery :=
  let metadata := default ∅ (nd_Metadata delivery) in
  if negb (marshals metadata) then fail (ErrorString "json: unsupported type") else
  stmt (λ e id db,
    if negb (tenant_exists db (nd_TenantID delivery) && node_exists db (nd_NodeID delivery)
             && command_exists db (nd_CommandID delivery))
    then Err (ErrConstraint "policy_deliveries foreign key") else
    match policy_deliveries db !! id with
    | Some _ => Err (ErrConstraint "policy_deliveries_pkey")
    | None =>
      let row := mkDeliveryRow (nd_TenantID delivery) (nd_NodeID delivery)
        (nd_PolicyDomain delivery) (nd_PolicyRef delivery) (Some (nd_PolicyName delivery))
        (nd_Action delivery) (nd_CommandID delivery) (nd_CommandStatus delivery)
        (Some (nd_LastError delivery)) metadata None (env_now e) (env_now e) in
      Ok (scanPolicyDelivery id row, set_deliveries (<[id := row]> (policy_deliveries db)) db)
    end).
Definition CreatePolicyDelivery := createPolicyDelivery.

Definition UpdatePolicyDeliveryStatusByCommand (commandID status message : string) : M unit :=
  exec (λ e db, ((), report_deliveries commandID status message (env_now e) db)).

(** [ORDER BY created_at DESC]. *)
Definition newest_deliveries (p : UUID → DeliveryRow → bool) (db : DB) : list (UUID * DeliveryRow) :=
  SliceStable (λ a b, pd_created_at b.2 <? pd_created_at a.2)
    (select_where p (policy_deliveries db)).

Definition ListPolicyDeliveriesByNodeAndDomain (tenantID nodeID : UUID) (domain : string)
    (limit : Z) : M (list PolicyDelivery) :=
  let limit := if limit <=? 0 then 100 else limit in
  query (λ _ db, (λ kd, scanPolicyDelivery kd.1 kd.2) <$> take (Z.to_nat limit)
    (newest_deliveries (λ _ d, (pd_tenant_id d =? tenantID)%string
       && (pd_node_id d =? nodeID)%string && (pd_policy_domain d =? domain)%string) db)).

Definition delivery_ref (d : DeliveryRow) : PolicyDeliveryRef :=
  mkPolicyDeliveryRef (pd_node_id d) (pd_policy_domain d) (pd_policy_ref d).

(** [DISTINCT ON (node_id, policy_domain, policy_ref) ... ORDER BY ...,
    created_at DESC] scanned into a map: the newest delivery of each key. *)
Definition ListLatestPolicyDeliveriesByRefs (tenantID : UUID) (items : list PolicyDeliveryRef)
    : M (gmap PolicyDeliveryRef PolicyDelivery) :=
  match items with
  | [] => mret ∅
  | _ => query (λ _ db,
      foldl (λ m item,
          match head (newest_deliveries (λ _ d, (pd_tenant_id d =? tenantID)%string
                        && bool_decide (delivery_ref d = item)) db) with
          | Some (id, d) => <[item := scanPolicyDelivery id d]> m
          | None => m
          end) ∅ items)
  end.

(** ** Requests *)

Record PolicySyncRequest := mkPolicySyncRequest {
  rq_TenantID : UUID;
  rq_NodeID : UUID;
  rq_NodePublicKey : string;
  rq_Domain : string;
  rq_Action : string;
  rq_PolicyRef : string;
  rq_PolicyName : string;
  rq_DesiredStateVersion : string;
  rq_DesiredMetadata : option object;
  rq_CommandParams : option object;
  rq_DeliveryMetadata : option object;
  rq_Priority : Z;
  rq_TimeoutSeconds : Z;
}.
#[export] Instance eta_PolicySyncRequest : Eta PolicySyncRequest := λ r,
  mkPolicySyncRequest (rq_TenantID r) (rq_NodeID r) (rq_NodePublicKey r) (rq_Domain r)
    (rq_Action r) (rq_PolicyRef r) (rq_PolicyName r) (rq_DesiredStateVersion r)
    (rq_DesiredMetadata r) (rq_CommandParams r) (rq_DeliveryMetadata r) (rq_Priority r)
    (rq_TimeoutSeconds r).

Record PolicySyncResult := mkPolicySyncResult {
  sr_DesiredStateVersion : string;
  sr_ControlState : NodeControlState;
  sr_Command : AgentCommand;
  sr_Delivery : option PolicyDelivery;
}.

(** The request with its texts trimmed; the checks of the required fields. *)
Definition trim_request (req : PolicySyncRequest) : PolicySyncRequest :=
  req <| rq_NodePublicKey := TrimSpace (rq_NodePublicKey req) |>
      <| rq_Domain := TrimSpace (rq_Domain req) |>
      <| rq_Action := TrimSpace (rq_Action req) |>
      <| rq_PolicyRef := TrimSpace (rq_PolicyRef req) |>
      <| rq_PolicyName := TrimSpace (rq_PolicyName req) |>
      <| rq_DesiredStateVersion := TrimSpace (rq_DesiredStateVersion req) |>.
Definition missing_field (req : PolicySyncRequest) : option error :=
  if (rq_TenantID req =? uuid_Nil)%string then Some (ErrorString "tenant id is required") else
  if (rq_NodeID req =? uuid_Nil)%string then Some (ErrorString "node id is required") else
  if (rq_NodePublicKey req =? "")%string then Some (ErrorString "node public key is required") else
  if (rq_Domain req =? "")%string then Some (ErrorString "policy domain is required") else
  if (rq_Action req =? "")%string then Some (ErrorString "policy action is required") else None.

Definition normalizePolicySyncRequest (req : PolicySyncRequest) : M PolicySyncRequest :=
  let req := trim_request req in
  match missing_field req with
  | Some x => fail x
  | None =>
    version ← (if (rq_DesiredStateVersion req =? "")%string then NewDesiredStateVersion
               else mret (rq_DesiredStateVersion req));
    mret (req <| rq_DesiredStateVersion := version |>
              <| rq_DesiredMetadata := Some (default ∅ (rq_DesiredMetadata req)) |>
              <| rq_CommandParams := Some (default ∅ (rq_CommandParams req)) |>
              <| rq_DeliveryMetadata := Some (default ∅ (rq_DeliveryMetadata req)) |>)
  end.

(** ** Superseding *)

(** The incomplete deliveries of the node. *)
Definition open_delivery (tenantID nodeID : UUID) (d : DeliveryRow) : bool :=
  (pd_tenant_id d =? tenantID)%string && (pd_node_id d =? nodeID)%string
  && incomplete (pd_command_status d).

(** The incomplete commands of the node that carry one of them. *)
Definition superseded (req : PolicySyncRequest) (db : DB) (id : UUID) (r : CommandRow) : bool :=
  (ac_node_public_key r =? rq_NodePublicKey req)%string && incomplete (ac_status r)
  && exists_where (λ _ d, (pd_command_id d =? id)%string
                          && open_delivery (rq_TenantID req) (rq_NodeID req) d)
       (policy_deliveries db).

Definition markSupersededPolicySyncsTx (req : PolicySyncRequest) : M unit :=
  let message := "superseded by desired state " +:+ rq_DesiredStateVersion req in
  _ ← exec (λ e db, ((), close_commands (superseded req db) AgentCommandStatusStale message
                           (env_now e) db));
  exec (λ e db, ((), set_deliveries (update_where
    (λ _ d, open_delivery (rq_TenantID req) (rq_NodeID req) d)
    (λ d, d <| pd_command_status := AgentCommandStatusStale |>
            <| pd_last_error := Some message |> <| pd_updated_at := env_now e |>
            <| pd_completed_at := Some (env_now e) |>)
    (policy_deliveries db)) db)).

(** ** Queueing a sync *)

Definition queuePolicySyncTx (req : PolicySyncRequest) : M PolicySyncResult :=
  req ← normalizePolicySyncRequest req;
  state ← upsertNodeDesiredState (rq_TenantID req) (rq_NodeID req)
            (rq_DesiredStateVersion req) (rq_DesiredMetadata req);
  _ ← markSupersededPolicySyncsTx req;
  cmd ← queueAgentCommand (rq_NodePublicKey req) "sync" (rq_CommandParams req)
          (rq_Priority req) (rq_TimeoutSeconds req);
  delivery ← (if negb (rq_PolicyRef req =? "")%string then
      d ← createPolicyDelivery (mkNewDelivery (rq_TenantID req) (rq_NodeID req)
            (rq_Domain req) (rq_PolicyRef req) (rq_PolicyName req) (rq_Action req)
            (ID cmd) (Status cmd) "" (rq_DeliveryMetadata req));
      mret (Some d)
    else mret None);
  mret (mkPolicySyncResult (rq_DesiredStateVersion req) state cmd delivery).

Definition recordCommandQueuedAudit (req : PolicySyncRequest) (cmd : AgentCommand) : M unit :=
  best_effort (CreateAuditEvent (mkAuditEvent (rq_TenantID req) (Some (rq_NodeID req))
    AuditCommandQueued "controller" ("Command queued: " +:+ Command cmd)
    (<["command_id" := JString (ID cmd)]> (<["command" := JString (Command cmd)]>
     (<["policy_domain" := JString (rq_Domain req)]>
      (<["policy_ref" := JString (rq_PolicyRef req)]>
       {["desired_state_version" := JString (rq_DesiredStateVersion req)]})))))).

Definition QueuePolicySync (req : PolicySyncRequest) : M PolicySyncResult :=
  req ← normalizePolicySyncRequest req;
  result ← tx (r ← queuePolicySyncTx req; mret (Commit r));
  _ ← recordCommandQueuedAudit req (sr_Command result);
  mret result.

(** [mutate] is the closure of the caller: it changes policy rows through the
    transaction and returns the sync to queue. *)
Definition MutatePolicyAndQueueSync (mutate : M PolicySyncRequest) : M PolicySyncResult :=
  '(req, result) ← tx (req ← mutate; r ← queuePolicySyncTx req; mret (Commit (req, r)));
  _ ← recordCommandQueuedAudit req (sr_Command result);
  mret result.

(** The two ways to set the advertised routes of a node: the one inside a policy
    mutation, and the one that refuses nodes no longer in service. *)
Definition update_routes (p : UUID → NodeRow → bool) (routes : list string) : M unit :=
  affected ← exec (λ e db, (count_where p (nodes db),
    db <| nodes := update_where p (λ n, n <| n_advertised_routes := routes |>
            <| n_updated_at := env_now e |>) (nodes db) |>));
  if affected =? 0 then fail ErrNoRows else mret ().

Definition UpdateTenantNodeRoutes (nodeID tenantID : UUID) (routes : list string) : M unit :=
  update_routes (λ id n, (id =? nodeID)%string && (n_tenant_id n =? tenantID)%string) routes.

(** [status NOT IN (...)] is not true of a NULL status. *)
Definition UpdateTenantNodeAdvertisedRoutes (nodeID tenantID : UUID) (routes : list string)
    : M unit :=
  update_routes (λ id n, (id =? nodeID)%string && (n_tenant_id n =? tenantID)%string
    && match n_status n with
       | Some s => negb (one_of s ["deleted"; "suspended"; "banned"]) | None => false end) routes.

(** ** What queueing a sync leaves *)

(** Inversions of the successful runs. *)
Lemma NewDesiredStateVersion_ok e st v st' :
  NewDesiredStateVersion e st = (Ok v, st') →
  st_db st' = st_db st ∧ ∃ s, v = "dsv-" +:+ s.
Proof.
  unfold NewDesiredStateVersion. intros H. run_ok. unfold new_uuid in *. simplify_eq/=.
  split; [done|]. by eexists.
Qed.

Lemma TrimSpace_dsv s : TrimSpace ("dsv-" +:+ s) ≠ "".
Proof. by apply TrimSpace_visible. Qed.

Lemma normalize_ok req e st req' st' :
  normalizePolicySyncRequest req e st = (Ok req', st') →
  st_db st' = st_db st ∧ missing_field (trim_request req) = None ∧
  TrimSpace (rq_DesiredStateVersion req') ≠ "" ∧
  (TrimSpace (rq_DesiredStateVersion req) ≠ "" →
   rq_DesiredStateVersion req' = TrimSpace (rq_DesiredStateVersion req)) ∧
  ∃ v, req' = (trim_request req) <| rq_DesiredStateVersion := v |>
    <| rq_DesiredMetadata := Some (default ∅ (rq_DesiredMetadata req)) |>
    <| rq_CommandParams := Some (default ∅ (rq_CommandParams req)) |>
    <| rq_DeliveryMetadata := Some (default ∅ (rq_DeliveryMetadata req)) |>.
Proof.
  unfold normalizePolicySyncRequest. destruct (missing_field _) eqn:Hm; [done|].
  intros H. run_ok. destruct (String.eqb_spec (TrimSpace (rq_DesiredStateVersion req)) "") as [He|He].
  - apply NewDesiredStateVersion_ok in Hstep as (Hdb & s & ->). split_and!; try done.
    + apply TrimSpace_dsv.
    + by eexists.
  - run_ok. split_and!; try done; [|by eexists]. by rewrite TrimSpace_idemp.
Qed.

Lemma upsertNodeDesiredState_ok t n version md e st s st' :
  TrimSpace version ≠ "" →
  upsertNodeDesiredState t n version md e st = (Ok s, st') →
  ∃ row, st_db st' = set_control n row (st_db st) ∧ s = scanNodeControlState n row ∧
    cs_tenant_id row = t ∧ cs_desired_state_version row = Some version ∧
    (∀ old, node_control_states (st_db st) !! n = Some old →
       cs_applied_state_version row = cs_applied_state_version old ∧
       cs_observed_state row = cs_observed_state old ∧
       cs_last_sync_error row = cs_last_sync_error old).
Proof.
  intros Hv. unfold upsertNodeDesiredState. intros H. run_ok.
  destruct (String.eqb_spec (TrimSpace version) ""); [done|]. run_ok.
  destruct (negb (marshals _)); [done|]. run_ok. destruct (negb _); simplify_eq/=.
  eexists. split; [done|]. split; [done|].
  destruct (node_control_states (st_db st0) !! n); split_and!; try done.
  by intros old [= <-].
Qed.

Lemma queueAgentCommand_ok key command params priority timeout e st cmd st' :
  queueAgentCommand key command params priority timeout e st = (Ok cmd, st') →
  let timeout := if timeout <=? 0 then 30 else timeout in
  let row := new_command_row e key (TrimSpace command) (default ∅ params) priority timeout in
  agent_commands (st_db st) !! ID cmd = None ∧
  st_db st' = set_commands (<[ID cmd := row]> (agent_commands (st_db st))) (st_db st) ∧
  cmd = mkAgentCommand (ID cmd) key (TrimSpace command) (default ∅ params)
    (stringifyCommandParams (default ∅ params)) AgentCommandStatusPending "" priority timeout
    (env_now e) (env_now e) None None None ∅.
Proof.
  unfold queueAgentCommand. repeat (case_match; [done|]). intros (Hf & _)%stmt_ok.
  unfold insert_command in Hf. destruct (negb _) in Hf; [done|].
  destruct (agent_commands _ !! _) eqn:Hid in Hf; [done|]. simpl in Hf. by simplify_eq.
Qed.

Lemma createPolicyDelivery_ok nd e st d st' :
  createPolicyDelivery nd e st = (Ok d, st') →
  ∃ row, policy_deliveries (st_db st) !! d_ID d = None ∧ d = scanPolicyDelivery (d_ID d) row ∧
    st_db st' = set_deliveries (<[d_ID d := row]> (policy_deliveries (st_db st))) (st_db st) ∧
    pd_tenant_id row = nd_TenantID nd ∧ pd_node_id row = nd_NodeID nd ∧
    pd_policy_domain row = nd_PolicyDomain nd ∧ pd_policy_ref row = nd_PolicyRef nd ∧
    pd_command_id row = nd_CommandID nd ∧ pd_command_status row = nd_CommandStatus nd.
Proof.
  unfold createPolicyDelivery. case_match; [done|]. intros (Hf & _)%stmt_ok.
  destruct (negb _) in Hf; [done|].
  destruct (policy_deliveries _ !! _) eqn:Hid in Hf; [done|]. simplify_eq/=. by eexists.
Qed.
