(* ===== verification/CommandLifecycle.v ===== *)
(** * The life of a command

    The operations of [agent_commands.go] and [policy_sync.go] as the steps of
    one machine: what a command's status can become, and how the deliveries
    follow the commands, over any interleaving of calls and any failures. *)

From S2P Require Import Prelude GoStr Records Store Events ControlState AgentCommands PolicySync.

Open Scope Z_scope.

(** ** The status graph *)

Inductive command_step : string → string → Prop :=
  | step_send : command_step "pending" "sent"
  | step_requeue : command_step "sent" "pending"
  | step_acknowledge : command_step "sent" "acknowledged"
  | step_complete_sent : command_step "sent" "completed"
  | step_complete : command_step "acknowledged" "completed"
  | step_fail s : incomplete s = true → command_step s "failed"
  | step_supersede s : incomplete s = true → command_step s "stale".

Definition terminal_statuses : list string := ["completed"; "failed"; "stale"].
Definition terminal (s : string) : Prop := s ∈ terminal_statuses.

Lemma terminal_not_incomplete s : terminal s → incomplete s = false.
Proof.
  unfold terminal, terminal_statuses. rewrite !elem_of_cons, elem_of_nil.
  by intros [->|[->|[->|[]]]].
Qed.

Lemma terminal_no_step s s' : terminal s → ¬ command_step s s'.
Proof.
  intros Ht Hs. pose proof (terminal_not_incomplete _ Ht) as Hi.
  inversion Hs; subst; simplify_eq/=; try (by rewrite Hi in *).
Qed.

Lemma terminal_rtc s s' : terminal s → rtc command_step s s' → s' = s.
Proof.
  intros Ht Hs. destruct Hs as [|? y ? Hxy]; [done|]. by apply terminal_no_step in Hxy.
Qed.

(** The guard of a report allows only steps of the graph. *)
Lemma validate_step cur next :
  isAgentCommandReportStatus next = true → cur ≠ "stale" →
  validateAgentCommandStatusTransition cur next = None →
  command_step cur next ∧ incomplete cur = true.
Proof.
  intros _ Hstale. unfold validateAgentCommandStatusTransition.
  destruct (one_of cur _); [done|].
  repeat case_match; try done; intros _; bools; subst; try done;
    match goal with H : one_of next _ = true |- _ =>
      apply one_of_spec in H; rewrite !elem_of_cons, elem_of_nil in H end;
    destruct_or?; subst; try done; (split; [|done]); by constructor.
Qed.

(** ** Commands evolve along the graph *)

(** No command disappears, changes its node, command or parameters, and each
    status moves along the graph. *)
Definition row_evolves (r r' : CommandRow) : Prop :=
  ac_node_public_key r' = ac_node_public_key r ∧ ac_command r' = ac_command r ∧
  ac_params r' = ac_params r ∧ rtc command_step (ac_status r) (ac_status r').
Definition commands_evolve (db db' : DB) : Prop :=
  ∀ id r, agent_commands db !! id = Some r →
  ∃ r', agent_commands db' !! id = Some r' ∧ row_evolves r r'.

#[export] Instance row_evolves_preorder : PreOrder row_evolves.
Proof.
  split; [by intros r; repeat split|]. intros a b c (?&?&?&?) (?&?&?&?).
  split_and!; try congruence. by etrans.
Qed.
#[export] Instance commands_evolve_preorder : PreOrder commands_evolve.
Proof.
  split.
  - intros db id r H. exists r. split; [done|reflexivity].
  - intros a b c Hab Hbc id r Hr. apply Hab in Hr as (r1 & Hr1 & He1).
    apply Hbc in Hr1 as (r2 & Hr2 & He2). exists r2. split; [done|by etrans].
Qed.

Lemma commands_evolve_eq db db' :
  agent_commands db' = agent_commands db → commands_evolve db db'.
Proof. intros Heq id r Hr. rewrite Heq. exists r. split; [done|reflexivity]. Qed.

Lemma commands_evolve_logs db db' : same_core db db' → commands_evolve db db'.
Proof. intros (Hc & _). by apply commands_evolve_eq. Qed.

Lemma changes_weaken (R R' : DB → DB → Prop) {A} (m : M A) :
  (∀ db db', R db db' → R' db db') → changes R m → changes R' m.
Proof. intros H Hm e st. apply H, Hm. Qed.

(** An UPDATE whose rows all evolve. *)
Lemma update_evolves p f db :
  (∀ k r, agent_commands db !! k = Some r → p k r = true → row_evolves r (f r)) →
  commands_evolve db (set_commands (update_where p f (agent_commands db)) db).
Proof.
  intros Hp id r Hr. simpl. rewrite lookup_update_where, Hr. simpl. eexists. split; [done|].
  destruct (p id r) eqn:Hpr; [by eapply Hp|reflexivity].
Qed.

Lemma close_evolves p status message now db :
  (∀ k r, p k r = true → incomplete (ac_status r) = true) →
  status = "failed" ∨ status = "stale" →
  commands_evolve db (close_commands p status message now db).
Proof.
  intros Hp Hs. apply update_evolves. intros k r _ Hpr.
  repeat split; simpl. apply rtc_once.
  destruct Hs as [-> | ->]; constructor; by eapply Hp.
Qed.

Lemma incomplete_for_incomplete key k r :
  incomplete_for key k r = true → incomplete (ac_status r) = true.
Proof. unfold incomplete_for. intros ?. by bools. Qed.
Lemma timed_out_for_incomplete key now k r :
  timed_out_for key now k r = true → incomplete (ac_status r) = true.
Proof. unfold timed_out_for. intros ?. bools. by eapply incomplete_for_incomplete. Qed.
Lemma superseded_incomplete req db k r :
  superseded req db k r = true → incomplete (ac_status r) = true.
Proof. unfold superseded. intros ?. by bools. Qed.

Lemma insert_command_evolves id row db db' :
  insert_command id row db = Ok db' → commands_evolve db db'.
Proof.
  unfold insert_command. case_match; [done|].
  destruct (agent_commands db !! id) eqn:Hid; [done|]. intros [= <-].
  intros k r Hk. simpl. exists r. split; [|reflexivity].
  rewrite lookup_insert_ne; [done|]. intros ->. congruence.
Qed.

Lemma insert_commands_evolves e ids i targets command params priority timeout db l db' :
  insert_commands e ids i targets command params priority timeout db = Ok (l, db') →
  commands_evolve db db'.
Proof.
  revert i db l. induction targets as [|key rest IH]; simpl; intros i db l H; [by simplify_eq|].
  destruct (insert_command _ _ _) as [db1|] eqn:H1; [|done]. simpl in H.
  destruct (insert_commands e ids (S i) _ _ _ _ _ _) as [[l2 db2]|] eqn:H2; [|done].
  simpl in H. simplify_eq. etrans; [by eapply insert_command_evolves|by eapply IH].
Qed.

Lemma queueAgentCommand_evolves key command params priority timeout :
  changes commands_evolve (queueAgentCommand key command params priority timeout).
Proof.
  unfold queueAgentCommand. chg. apply (changes_stmt commands_evolve).
  intros e id db a db' H.
  destruct (insert_command _ _ _) as [db1|] eqn:H1; [|done]. simpl in H. simplify_eq.
  by eapply insert_command_evolves.
Qed.
Lemma QueueAgentCommands_evolves targets command params priority timeout :
  changes commands_evolve (QueueAgentCommands targets command params priority timeout).
Proof.
  unfold QueueAgentCommands. chg. apply (changes_stmt_rows commands_evolve).
  intros e ids db a db'. apply insert_commands_evolves.
Qed.

Lemma requeue_overdue_evolves key now db : commands_evolve db (requeue_overdue key now db).
Proof.
  apply update_evolves. intros k r _ Hp. bools. repeat split. simpl.
  replace (ac_status r) with "sent". apply rtc_once. constructor.
Qed.

Lemma next_pending_spec key db id r :
  next_pending key db = Some (id, r) →
  agent_commands db !! id = Some r ∧ ac_node_public_key r = key ∧ ac_status r = "pending".
Proof.
  unfold next_pending. intros H.
  assert ((id, r) ∈ select_where (pending_for key) (agent_commands db)) as Hin.
  { rewrite <- (SliceStable_Permutation command_before).
    destruct (SliceStable _ _); simplify_eq/=. left. }
  apply select_where_elem in Hin as [Hl Hp]. unfold pending_for in Hp. by bools.
Qed.

Lemma send_evolves id now db r :
  agent_commands db !! id = Some r → ac_status r = "pending" →
  commands_evolve db (set_commands
    (update_where (λ k _, (k =? id)%string) (send_row now) (agent_commands db)) db).
Proof.
  intros Hr Hs. apply update_evolves. intros k r' Hk Hp. bools. subst k.
  simplify_eq. repeat split. simpl. rewrite Hs. apply rtc_once. constructor.
Qed.

Lemma GetNextPendingAgentCommand_evolves key :
  changes commands_evolve (GetNextPendingAgentCommand key).
Proof.
  apply (changes_tx_commit commands_evolve). intros e st a st' H. run_ok.
  destruct a1 as [[id r]|]; run_ok. symmetry in Hval0.
  apply next_pending_spec in Hval0 as (Hr & _ & Hs).
  rewrite Hdb1, Hdb0. rewrite Hdb in *. etrans; [apply requeue_overdue_evolves|].
  by eapply send_evolves.
Qed.

Lemma RequeueSentAgentCommand_evolves id key message :
  changes commands_evolve (RequeueSentAgentCommand id key message).
Proof.
  unfold RequeueSentAgentCommand. chg. apply (changes_exec commands_evolve). intros e db. simpl.
  apply update_evolves. intros k r _ Hp. bools. repeat split. simpl.
  replace (ac_status r) with "sent". apply rtc_once. constructor.
Qed.

Lemma failTimedOut_evolves key : changes commands_evolve (failTimedOutAgentCommandsForNodeTx key).
Proof.
  unfold failTimedOutAgentCommandsForNodeTx. chg; apply (changes_exec commands_evolve);
    intros e db; simpl; [by apply commands_evolve_eq|].
  apply close_evolves; [apply timed_out_for_incomplete|by left].
Qed.
Lemma failIncomplete_evolves key message :
  changes commands_evolve (failIncompleteAgentCommandsForNodeTx key message).
Proof.
  unfold failIncompleteAgentCommandsForNodeTx. chg; apply (changes_exec commands_evolve);
    intros e db; simpl; [by apply commands_evolve_eq|].
  apply close_evolves; [apply incomplete_for_incomplete|by left].
Qed.
#[export] Hint Resolve queueAgentCommand_evolves QueueAgentCommands_evolves
  GetNextPendingAgentCommand_evolves RequeueSentAgentCommand_evolves
  failTimedOut_evolves failIncomplete_evolves : aria.

(** What a committed report did: the status it found, and the tables before
    the node's control state is updated. *)
Definition reported (id status message : string) (result : strmap) (now : Time) (key : string)
    (db : DB) : DB :=
  report_deliveries id status message now
    (set_commands (update_where (reportable id key) (report_row status message result now)
                     (agent_commands db)) db).

Lemma command_status_Some id key db s :
  command_status id key db = Some s ↔
  ∃ r, agent_commands db !! id = Some r ∧ ac_status r = s ∧
       (key = "" ∨ ac_node_public_key r = key).
Proof.
  unfold command_status, command_matches. rewrite String.eqb_refl. simpl.
  destruct (agent_commands db !! id) as [r|]; [|naive_solver].
  destruct (String.eqb_spec key ""), (String.eqb_spec (ac_node_public_key r) key); naive_solver.
Qed.

Lemma updateTx_commit id key status message result e st b st' :
  updateAgentCommandStatusTx id key status message result e st = (Ok (Commit b), st') →
  b = true ∧ ∃ r, agent_commands (st_db st) !! id = Some r ∧
    (key = "" ∨ ac_node_public_key r = key) ∧ ac_status r ≠ "stale" ∧
    validateAgentCommandStatusTransition (ac_status r) status = None ∧
    only_control (reported id status message result (env_now e) key (st_db st)) (st_db st').
Proof.
  unfold updateAgentCommandStatusTx, lockAgentCommandStatusTx. intros H. run_ok.
  unfold attempt in Hstep. destruct (query_row _ _ _) as [[cur|x] st1] eqn:Hq;
    simplify_eq/=; run_ok.
  apply command_status_Some in Hrow as (r & Hr & <- & Hkey).
  destruct (String.eqb_spec (ac_status r) AgentCommandStatusStale); [by run_ok|].
  destruct (String.eqb_spec (ac_status r) status); [by run_ok|].
  destruct (validateAgentCommandStatusTransition _ _) eqn:Hv; [by run_ok|]. run_ok.
  destruct (a =? 0); run_ok.
  { destruct a0; [case_match|]; by run_ok. }
  match goal with H : syncNodeControlStateForCommandTx _ _ _ _ _ _ = (Ok ?u, _) |- _ =>
    destruct u; apply sync_for_command_ok in H as Hc end.
  rewrite Hdb1, Hdb0, Hdb in Hc. split; [done|]. exists r. by split_and!.
Qed.

Lemma only_control_commands db db' : only_control db db' → agent_commands db' = agent_commands db.
Proof. by intros [cs ->]. Qed.
Lemma only_control_deliveries db db' :
  only_control db db' → policy_deliveries db' = policy_deliveries db.
Proof. by intros [cs ->]. Qed.

Lemma reportable_id id key k r :
  reportable id key k r = true → k = id ∧ ac_status r ≠ "stale".
Proof. unfold reportable, command_matches. intros ?. bools. done. Qed.

Lemma updateAgentCommandStatus_evolves id key status message result :
  changes commands_evolve (updateAgentCommandStatus id key status message result).
Proof.
  unfold updateAgentCommandStatus. chg.
  - apply (changes_tx_commit commands_evolve). intros e st b st' H.
    apply updateTx_commit in H as (_ & r & Hr & _ & Hns & Hv & Hc).
    etrans; [|by apply commands_evolve_eq, only_control_commands].
    etrans; [|by apply commands_evolve_eq]. apply update_evolves.
    intros k r' Hk Hp. apply reportable_id in Hp as [-> _]. simplify_eq.
    repeat split. simpl. apply rtc_once. apply validate_step; [|done|done].
    match goal with H : negb _ = false |- _ => by apply negb_false_iff in H end.
  - eapply changes_weaken; [apply commands_evolve_logs|eauto with aria].
Qed.

Lemma only_control_evolves db db' : only_control db db' → commands_evolve db db'.
Proof. intros. by apply commands_evolve_eq, only_control_commands. Qed.

Lemma createPolicyDelivery_evolves d : changes commands_evolve (createPolicyDelivery d).
Proof.
  unfold createPolicyDelivery. chg. apply (changes_stmt commands_evolve).
  intros. cases. by apply commands_evolve_eq.
Qed.
Lemma normalize_changes (R : DB → DB → Prop) `{!PreOrder R} req :
  changes R (normalizePolicySyncRequest req).
Proof. unfold normalizePolicySyncRequest, NewDesiredStateVersion. chg. Qed.
Lemma markSuperseded_evolves req : changes commands_evolve (markSupersededPolicySyncsTx req).
Proof.
  unfold markSupersededPolicySyncsTx. chg; apply (changes_exec commands_evolve);
    intros e db; simpl; [|by apply commands_evolve_eq].
  apply close_evolves; [apply superseded_incomplete|by right].
Qed.
Lemma upsert_evolves t n version md :
  changes commands_evolve (upsertNodeDesiredState t n version md).
Proof. eapply changes_weaken, upsertNodeDesiredState_only. apply only_control_evolves. Qed.
Lemma report_evolves t n rep : changes commands_evolve (reportNodeControlState t n rep).
Proof. eapply changes_weaken, reportNodeControlState_only. apply only_control_evolves. Qed.
Lemma recordCommandQueuedAudit_logs req cmd : only_logs (recordCommandQueuedAudit req cmd).
Proof. unfold recordCommandQueuedAudit. chg. Qed.
#[export] Hint Resolve createPolicyDelivery_evolves normalize_changes markSuperseded_evolves
  upsert_evolves report_evolves updateAgentCommandStatus_evolves : aria.

Lemma queuePolicySyncTx_evolves req : changes commands_evolve (queuePolicySyncTx req).
Proof.
  unfold queuePolicySyncTx. chg. apply (normalize_changes commands_evolve).
Qed.
#[export] Hint Resolve queuePolicySyncTx_evolves : aria.

Lemma QueuePolicySync_evolves req : changes commands_evolve (QueuePolicySync req).
Proof.
  unfold QueuePolicySync. chg.
  - apply (normalize_changes commands_evolve).
  - apply (changes_tx commands_evolve). chg.
  - eapply changes_weaken; [apply commands_evolve_logs|apply recordCommandQueuedAudit_logs].
Qed.
#[export] Hint Resolve QueuePolicySync_evolves : aria.

(** ** The machine *)

(** The calls that touch commands, deliveries or control states. *)
Inductive op :=
  | OpQueue (key command : string) (params : option object) (priority timeout : Z)
  | OpQueueMany (keys : list string) (command : string) (params : option object)
      (priority timeout : Z)
  | OpNext (key : string)
  | OpRequeue (id key message : string)
  | OpFailTimedOut (key : string)
  | OpFailIncomplete (key message : string)
  | OpReport (id status message : string) (result : option strmap)
  | OpReportForNode (id key status message : string) (result : option strmap)
  | OpSync (req : PolicySyncRequest)
  | OpDesired (tenantID nodeID : UUID) (version : string) (metadata : option object)
  | OpObserved (tenantID nodeID : UUID) (report : NodeControlStateReport).

Definition ignore {A} (m : M A) : M unit := _ ← m; mret ().
Definition run_op (o : op) : M unit :=
  match o with
  | OpQueue key command params priority timeout =>
    ignore (QueueAgentCommand key command params priority timeout)
  | OpQueueMany keys command params priority timeout =>
    ignore (QueueAgentCommands keys command params priority timeout)
  | OpNext key => ignore (GetNextPendingAgentCommand key)
  | OpRequeue id key message => RequeueSentAgentCommand id key message
  | OpFailTimedOut key => ignore (FailTimedOutAgentCommandsForNode key)
  | OpFailIncomplete key message => FailIncompleteAgentCommandsForNode key message
  | OpReport id status message result => UpdateAgentCommandStatus id status message result
  | OpReportForNode id key status message result =>
    UpdateAgentCommandStatusForNode id key status message result
  | OpSync req => ignore (QueuePolicySync req)
  | OpDesired t n version metadata => ignore (UpsertNodeDesiredState t n version metadata)
  | OpObserved t n report => ignore (ReportNodeControlState t n report)
  end.

(** A policy sync names the node and that node's own public key. *)
Definition op_ok (o : op) (db : DB) : Prop :=
  match o with
  | OpSync req => ∃ n, nodes db !! rq_NodeID req = Some n ∧
                       n_public_key n = TrimSpace (rq_NodePublicKey req)
  | _ => True
  end.

(** One call, which may fail at any of its statements. *)
Inductive step : St → St → Prop :=
  | step_op e o st : op_ok o (st_db st) → step st (run_op o e st).2.

Lemma changes_ignore (R : DB → DB → Prop) `{!PreOrder R} {A} (m : M A) :
  changes R m → changes R (ignore m).
Proof. intros. unfold ignore. by chg. Qed.

Lemma run_op_evolves o : changes commands_evolve (run_op o).
Proof.
  destruct o; simpl; repeat (apply changes_ignore; [apply _|]); eauto with aria.
  - apply (changes_tx commands_evolve). chg.
  - apply (changes_tx commands_evolve). chg.
  - unfold UpdateAgentCommandStatusForNode. chg.
Qed.

Lemma rtc_step_evolves st st' : rtc step st st' → commands_evolve (st_db st) (st_db st').
Proof.
  induction 1 as [|? y ? [e o st1 _] _ IH]; [reflexivity|].
  etrans; [apply run_op_evolves|done].
Qed.

(** C16. Over any sequence of calls, with any statement failing, a command
    that reached [completed], [failed] or [stale] is still there with that
    status, for the same node and with the same parameters. *)
Theorem terminal_commands_are_final st st' id r :
  rtc step st st' → agent_commands (st_db st) !! id = Some r → terminal (ac_status r) →
  ∃ r', agent_commands (st_db st') !! id = Some r' ∧ ac_status r' = ac_status r ∧
    ac_node_public_key r' = ac_node_public_key r ∧ ac_params r' = ac_params r.
Proof.
  intros Hs Hr Ht. apply rtc_step_evolves in Hs. apply Hs in Hr as (r' & Hr' & Hk & _ & Hp & He).
  exists r'. split_and!; try done. by apply terminal_rtc.
Qed.

Definition done_command : CommandRow :=
  mkCommandRow "pk" "sync" ∅ "completed" None 0 30 ∅ None None (Some 1) 0 0 None.
Lemma terminal_commands_are_final_witness :
  let st := mkSt (set_commands {["c1" := done_command]} empty_db) 0 in
  let st' := (run_op (OpReport "c1" "failed" "late" None) (env_at 1) st).2 in
  ∃ r', agent_commands (st_db st') !! "c1" = Some r' ∧ ac_status r' = "completed" ∧
    ac_node_public_key r' = "pk" ∧ ac_params r' = ∅.
Proof.
  intros st st'. apply (terminal_commands_are_final st st' "c1" done_command).
  - apply rtc_once. by constructor.
  - reflexivity.
  - left.
Defined.
