(* ===== verification/DeliveryCoherence.v ===== *)
(** * Deliveries follow their commands

    An invariant of the machine of [CommandLifecycle]: a policy delivery is open
    as long as its command is, and ends with the status the command ended with. *)

From S2P Require Import Prelude GoStr Records Store Events ControlState AgentCommands PolicySync CommandLifecycle.

Open Scope Z_scope.

(** ** The invariant *)

Definition follows (command delivery : string) : Prop :=
  (incomplete command = true ∧ incomplete delivery = true) ∨
  (terminal command ∧ delivery = command).

(** Every delivery has its command, addressed to the delivery's node, and no
    command carries two deliveries. *)
Definition attached (db : DB) : Prop :=
  ∀ k d, policy_deliveries db !! k = Some d →
  ∃ c n, agent_commands db !! pd_command_id d = Some c ∧ nodes db !! pd_node_id d = Some n ∧
    ac_node_public_key c = n_public_key n ∧ follows (ac_status c) (pd_command_status d).
Definition one_delivery (db : DB) : Prop :=
  ∀ k k' d d', policy_deliveries db !! k = Some d → policy_deliveries db !! k' = Some d' →
  pd_command_id d = pd_command_id d' → k = k'.
Definition coherent (db : DB) : Prop := attached db ∧ one_delivery db.

Definition same_three (db db' : DB) : Prop :=
  agent_commands db' = agent_commands db ∧ policy_deliveries db' = policy_deliveries db ∧
  nodes db' = nodes db.
Lemma coherent_ext db db' : same_three db db' → coherent db → coherent db'.
Proof. unfold coherent, attached, one_delivery. by intros (-> & -> & ->). Qed.
Lemma same_core_three db db' : same_core db db' → same_three db db'.
Proof. intros (?&?&?&?&_). by split_and!. Qed.
Lemma only_control_three db db' : only_control db db' → same_three db db'.
Proof. by intros [cs ->]. Qed.

Lemma keeps_logs {A} (m : M A) : only_logs m → keeps coherent m.
Proof. apply keeps_changes. intros. by eapply coherent_ext; [apply same_core_three|]. Qed.
Lemma keeps_control {A} (m : M A) : changes only_control m → keeps coherent m.
Proof. apply keeps_changes. intros. by eapply coherent_ext; [apply only_control_three|]. Qed.

(** An UPDATE of commands together with an UPDATE of deliveries. *)
Lemma coherent_update (p : UUID → CommandRow → bool) f (q : UUID → DeliveryRow → bool) g db db' :
  agent_commands db' = update_where p f (agent_commands db) →
  policy_deliveries db' = update_where q g (policy_deliveries db) →
  nodes db' = nodes db →
  (∀ r, ac_node_public_key (f r) = ac_node_public_key r) →
  (∀ d, pd_command_id (g d) = pd_command_id d ∧ pd_node_id (g d) = pd_node_id d) →
  (∀ k d c n, policy_deliveries db !! k = Some d → agent_commands db !! pd_command_id d = Some c →
     nodes db !! pd_node_id d = Some n → ac_node_public_key c = n_public_key n →
     follows (ac_status c) (pd_command_status d) →
     follows (ac_status (if p (pd_command_id d) c then f c else c))
             (pd_command_status (if q k d then g d else d))) →
  coherent db → coherent db'.
Proof.
  intros Hc Hd Hn Hf Hg Hstep [Hcoh Hone]. split.
  - intros k d'. rewrite Hd, lookup_update_where_Some.
    intros (d & Hk & ->). destruct (Hcoh k d Hk) as (c & n & Hcid & Hnid & Hkey & Hfol).
    assert (pd_command_id (if q k d then g d else d) = pd_command_id d) as ->
      by (destruct (q k d); [apply Hg|done]).
    assert (pd_node_id (if q k d then g d else d) = pd_node_id d) as ->
      by (destruct (q k d); [apply Hg|done]).
    rewrite Hc, lookup_update_where, Hcid, Hn. simpl. eexists _, n. split_and!; try done.
    + by destruct (p _ c); rewrite ?Hf.
    + by eapply Hstep.
  - intros k k' d d'. rewrite Hd, !lookup_update_where_Some.
    intros (d1 & Hk & ->) (d2 & Hk' & ->) Heq. eapply Hone; [done..|].
    destruct (q k d1), (q k' d2); by rewrite ?(proj1 (Hg _)) in Heq.
Qed.

(** An UPDATE of commands alone, between open statuses. *)
Lemma coherent_update_open p f db :
  (∀ r, ac_node_public_key (f r) = ac_node_public_key r) →
  (∀ k r, agent_commands db !! k = Some r → p k r = true →
     incomplete (ac_status r) = true ∧ incomplete (ac_status (f r)) = true) →
  coherent db → coherent (set_commands (update_where p f (agent_commands db)) db).
Proof.
  intros Hf Hp. apply (coherent_update p f (λ _ _, false) id); try done.
  { simpl. by rewrite update_where_none. }
  intros k d c n _ Hc _ _ Hfol. destruct (p _ c) eqn:Hpc; [|done].
  destruct (Hp _ _ Hc Hpc) as [Hi Hi']. left. split; [done|].
  destruct Hfol as [[_ ?]|[Ht _]]; [done|]. apply terminal_not_incomplete in Ht. congruence.
Qed.

(** Closing the commands a condition selects, with their deliveries. *)
Lemma coherent_close p status message now db :
  terminal status →
  coherent db → coherent (close_commands p status message now
                            (close_deliveries p status message now db)).
Proof.
  intros Ht. eapply (coherent_update p (close_row status message now)); try done.
  intros k d c n _ Hc _ _ Hfol. simpl. rewrite Hc. destruct (p _ c); [|done]. by right.
Qed.

(** ** Every call keeps it *)

Lemma insert_command_coherent id row db db' :
  insert_command id row db = Ok db' → coherent db → coherent db'.
Proof.
  unfold insert_command. case_match; [done|].
  destruct (agent_commands db !! id) eqn:Hid; [done|]. intros [= <-] [Hcoh Hone].
  split; [|done]. intros k d Hk. simpl in *. destruct (Hcoh k d Hk) as (c & n & Hc & ?). exists c, n. split; [|done].
  rewrite lookup_insert_ne; [done|]. intros ->. congruence.
Qed.
Lemma insert_commands_coherent e ids i targets command params priority timeout db l db' :
  insert_commands e ids i targets command params priority timeout db = Ok (l, db') →
  coherent db → coherent db'.
Proof.
  revert i db l. induction targets as [|key rest IH]; simpl; intros i db l H; [by simplify_eq|].
  destruct (insert_command _ _ _) as [db1|] eqn:H1; [|done]. simpl in H.
  destruct (insert_commands e ids (S i) _ _ _ _ _ _) as [[l2 db2]|] eqn:H2; [|done].
  simpl in H. simplify_eq. intros. by eapply IH, insert_command_coherent.
Qed.

Lemma queueAgentCommand_coherent key command params priority timeout :
  keeps coherent (queueAgentCommand key command params priority timeout).
Proof.
  unfold queueAgentCommand. repeat (case_match; [apply keeps_fail|]). apply keeps_stmt.
  intros e id db a db' Hins. destruct (insert_command _ _ _) as [db1|] eqn:Hi; [|done].
  simpl in Hins. simplify_eq. by eapply insert_command_coherent.
Qed.
Lemma QueueAgentCommands_coherent targets command params priority timeout :
  keeps coherent (QueueAgentCommands targets command params priority timeout).
Proof.
  unfold QueueAgentCommands. case_match; [apply keeps_ret|].
  repeat (case_match; [apply keeps_fail|]).
  apply keeps_bind; [|by intros ? ? ?]. apply keeps_stmt_rows. intros e ids db a db'.
  apply insert_commands_coherent.
Qed.

Lemma requeue_overdue_coherent key now db : coherent db → coherent (requeue_overdue key now db).
Proof.
  apply coherent_update_open; [done|]. intros k r _ Hp. bools. by replace (ac_status r) with "sent".
Qed.
Lemma GetNextPendingAgentCommand_coherent key : keeps coherent (GetNextPendingAgentCommand key).
Proof.
  apply keeps_tx. intros e st a st' H Hcoh. run_ok. destruct a1 as [[id r]|]; run_ok.
  symmetry in Hval0. apply next_pending_spec in Hval0 as (Hr & _ & Hs).
  rewrite Hdb1, Hdb0. rewrite Hdb in *. apply coherent_update_open; [done| |].
  - intros k r' Hk Hp. bools. subst k. simplify_eq. by rewrite Hs.
  - by apply requeue_overdue_coherent.
Qed.
Lemma RequeueSentAgentCommand_coherent id key message :
  keeps coherent (RequeueSentAgentCommand id key message).
Proof.
  unfold RequeueSentAgentCommand. repeat (case_match; [apply keeps_fail|]).
  apply keeps_bind; [|intros; case_match; [apply keeps_fail|apply keeps_ret]].
  apply keeps_stmt. intros e ? db a db' [= <- <-]. apply coherent_update_open; [done|].
  intros k r _ Hp. bools. by replace (ac_status r) with "sent".
Qed.
Lemma FailTimedOut_coherent key : keeps coherent (FailTimedOutAgentCommandsForNode key).
Proof.
  apply keeps_tx. intros e st a st' H Hcoh. unfold failTimedOutAgentCommandsForNodeTx in H.
  run_ok. case_match; run_ok. rewrite Hdb, Hdb0. apply coherent_close; [|done].
  right; left.
Qed.
Lemma FailIncomplete_coherent key message :
  keeps coherent (FailIncompleteAgentCommandsForNode key message).
Proof.
  apply keeps_tx. intros e st a st' H Hcoh. unfold failIncompleteAgentCommandsForNodeTx in H.
  run_ok. case_match; run_ok. rewrite Hdb, Hdb0. apply coherent_close; [|done].
  right; left.
Qed.

(** A report moves the command and its deliveries together. *)
Lemma reported_coherent id key status message result now db r :
  agent_commands db !! id = Some r → (key = "" ∨ ac_node_public_key r = key) →
  ac_status r ≠ "stale" → isAgentCommandReportStatus status = true →
  validateAgentCommandStatusTransition (ac_status r) status = None →
  coherent db → coherent (reported id status message result now key db).
Proof.
  intros Hr Hkey Hns Hrep Hv.
  eapply (coherent_update (reportable id key) (report_row status message result now)); try done.
  intros k d c n _ Hc _ _ Hfol. simpl.
  destruct (String.eqb_spec (pd_command_id d) id) as [Hid|Hid].
  - rewrite Hid, Hr in Hc. injection Hc as <-. rename r into c.
    assert (reportable id key id c = true) as Hmatch.
    { unfold reportable, command_matches. rewrite String.eqb_refl. simpl.
      apply andb_true_iff. rewrite orb_true_iff, !String.eqb_eq.
      split; [done|]. apply negb_true_iff. by apply String.eqb_neq. }
    rewrite Hid, Hmatch. simpl.
    apply one_of_spec in Hrep. unfold report_statuses in Hrep.
    rewrite !elem_of_cons, elem_of_nil in Hrep.
    destruct Hrep as [->|[->|[->|[->|[]]]]]; [by left|by left|right..];
      (split; [|done]); unfold terminal, terminal_statuses; set_solver.
  - destruct (reportable id key _ c) eqn:Hmatch; [|done].
    by apply reportable_id in Hmatch as [? _].
Qed.

Lemma updateAgentCommandStatus_coherent id key status message result :
  keeps coherent (updateAgentCommandStatus id key status message result).
Proof.
  unfold updateAgentCommandStatus. repeat (case_match; [apply keeps_fail|]).
  apply keeps_bind; [|intros; case_match; [apply keeps_logs; eauto with aria|apply keeps_ret]].
  apply keeps_tx. intros e st b st' Hrun Hcoh.
  apply updateTx_commit in Hrun as (_ & r & Hr & Hkey & Hns & Hv & Hc).
  eapply coherent_ext; [by apply only_control_three|]. eapply reported_coherent; try done.
  match goal with H : negb _ = false |- _ => by apply negb_false_iff in H end.
Qed.

(** A node's open deliveries all belong to its own commands, so closing both
    keeps the invariant. *)
Definition superseded_db (req : PolicySyncRequest) (now : Time) (db : DB) : DB :=
  let message := "superseded by desired state " +:+ rq_DesiredStateVersion req in
  let db1 := close_commands (superseded req db) AgentCommandStatusStale message now db in
  set_deliveries (update_where (λ _ d, open_delivery (rq_TenantID req) (rq_NodeID req) d)
    (λ d, d <| pd_command_status := AgentCommandStatusStale |>
            <| pd_last_error := Some message |> <| pd_updated_at := now |>
            <| pd_completed_at := Some now |>)
    (policy_deliveries db1)) db1.

Lemma markSuperseded_ok req e st u st' :
  markSupersededPolicySyncsTx req e st = (Ok u, st') →
  st_db st' = superseded_db req (env_now e) (st_db st).
Proof. unfold markSupersededPolicySyncsTx. intros H. run_ok. by rewrite Hdb, Hdb0. Qed.

Lemma superseded_coherent req now db n :
  nodes db !! rq_NodeID req = Some n → n_public_key n = rq_NodePublicKey req →
  coherent db → coherent (superseded_db req now db).
Proof.
  intros Hn Hkey Hcoh. assert (one_delivery db) as Hone by apply Hcoh. revert Hcoh.
  eapply (coherent_update (superseded req db)
    (close_row AgentCommandStatusStale _ now)); try done.
  intros k d c n' Hd Hc Hn' Hcn Hfol. simpl.
  destruct (superseded req db _ c) eqn:Hs, (open_delivery _ _ d) eqn:Ho; simpl.
  - right. split; [|done]. unfold terminal, terminal_statuses. set_solver.
  - exfalso. unfold superseded in Hs. apply andb_true_iff in Hs as [_ Hex].
    apply exists_where_spec in Hex as (k' & d' & Hd' & Hx).
    apply andb_true_iff in Hx as [Hx Ho']. apply String.eqb_eq in Hx.
    assert (k' = k) as -> by by eapply Hone. simplify_eq. congruence.
  - assert (superseded req db (pd_command_id d) c = true); [|congruence].
    unfold superseded. apply andb_true_iff. split.
    + unfold open_delivery in Ho. bools. apply andb_true_iff. rewrite String.eqb_eq.
      destruct Hfol as [[? ?]|[Ht Heq]].
      * split; [|done]. congruence.
      * apply terminal_not_incomplete in Ht. congruence.
    + apply exists_where_spec. exists k, d. split; [done|].
      by rewrite String.eqb_refl, Ho.
  - done.
Qed.

(** ** Queueing a sync *)

(** The request after normalisation, as far as the tables depend on it. *)
Definition normalized (req req' : PolicySyncRequest) : Prop :=
  rq_TenantID req' = rq_TenantID req ∧ rq_NodeID req' = rq_NodeID req ∧
  rq_NodePublicKey req' = TrimSpace (rq_NodePublicKey req) ∧
  rq_PolicyRef req' = TrimSpace (rq_PolicyRef req) ∧
  rq_Domain req' = TrimSpace (rq_Domain req) ∧
  rq_CommandParams req' = Some (default ∅ (rq_CommandParams req)) ∧
  (TrimSpace (rq_DesiredStateVersion req) ≠ "" →
   rq_DesiredStateVersion req' = TrimSpace (rq_DesiredStateVersion req)) ∧
  TrimSpace (rq_DesiredStateVersion req') ≠ "".
Lemma normalize_normalized req e st req' st' :
  normalizePolicySyncRequest req e st = (Ok req', st') →
  st_db st' = st_db st ∧ normalized req req'.
Proof.
  intros (Hdb & _ & Hv & Hv' & v & Heq)%normalize_ok. split; [done|].
  unfold normalized. rewrite Heq in *. by split_and!.
Qed.
Lemma normalized_trans a b c : normalized a b → normalized b c → normalized a c.
Proof.
  intros (?&?&Hk&Hr&Hd&Hp&Hv&Hn) (?&?&Hk'&Hr'&Hd'&Hp'&Hv'&Hn').
  unfold normalized. rewrite Hk', Hr', Hd', Hp', Hk, Hr, Hd, Hp, !TrimSpace_idemp.
  split_and!; try done; [congruence..|].
  intros Hne. specialize (Hv Hne). rewrite Hv in *. rewrite Hv', TrimSpace_idemp by done.
  done.
Qed.

(** The tables a queued sync leaves. *)
Definition synced (req : PolicySyncRequest) (res : PolicySyncResult) (now : Time) (db db' : DB)
    : Prop :=
  ∃ control row,
    let db1 := superseded_db req now (set_control (rq_NodeID req) control db) in
    let cid := ID (sr_Command res) in
    cs_tenant_id control = rq_TenantID req ∧
    cs_desired_state_version control = Some (rq_DesiredStateVersion req) ∧
    (∀ old, node_control_states db !! rq_NodeID req = Some old →
       cs_applied_state_version control = cs_applied_state_version old) ∧
    agent_commands db1 !! cid = None ∧ Status (sr_Command res) = "pending" ∧
    ac_node_public_key row = rq_NodePublicKey req ∧ ac_command row = "sync" ∧
    ac_status row = "pending" ∧ Some (ac_params row) = rq_CommandParams req ∧
    let db2 := set_commands (<[cid := row]> (agent_commands db1)) db1 in
    match sr_Delivery res with
    | None => rq_PolicyRef req = "" ∧ db' = db2
    | Some d =>
      rq_PolicyRef req ≠ "" ∧ policy_deliveries db !! d_ID d = None ∧
      ∃ drow, db' = set_deliveries (<[d_ID d := drow]> (policy_deliveries db2)) db2 ∧
        pd_tenant_id drow = rq_TenantID req ∧ pd_node_id drow = rq_NodeID req ∧
        pd_policy_ref drow = rq_PolicyRef req ∧ pd_command_id drow = cid ∧
        pd_command_status drow = "pending"
    end.

Lemma queuePolicySyncTx_ok req e st res st' :
  queuePolicySyncTx req e st = (Ok res, st') →
  ∃ req', normalized req req' ∧ sr_DesiredStateVersion res = rq_DesiredStateVersion req' ∧
    synced req' res (env_now e) (st_db st) (st_db st').
Proof.
  unfold queuePolicySyncTx. intros H. apply bind_ok in H as (req' & st1 & Hn & H).
  apply normalize_normalized in Hn as [Hdb Hn]. exists req'. split; [done|].
  apply bind_ok in H as (s & st2 & Hu & H).
  apply upsertNodeDesiredState_ok in Hu as (control & Hdb2 & -> & Ht & Hd & Hold); [|apply Hn].
  apply bind_ok in H as (u & st3 & Hm & H). apply markSuperseded_ok in Hm as Hdb3.
  apply bind_ok in H as (cmd & st4 & Hc & H).
  apply queueAgentCommand_ok in Hc as (Hfresh & Hdb4 & Hcmd).
  apply bind_ok in H as (del & st5 & Hdel & H). run_ok. split; [done|].
  rewrite Hdb2, Hdb in Hdb3. rewrite Hdb3 in *. rewrite Hdb in Hold.
  assert (Some (default ∅ (rq_CommandParams req')) = rq_CommandParams req') as Hpar.
  { destruct Hn as (_&_&_&_&_&->&_). done. }
  exists control, (new_command_row e (rq_NodePublicKey req') "sync"
    (default ∅ (rq_CommandParams req')) (rq_Priority req')
    (if rq_TimeoutSeconds req' <=? 0 then 30 else rq_TimeoutSeconds req')).
  split_and!; try done; [intros old Ho; by apply Hold|by rewrite Hcmd|].
  cbv zeta. cbn [sr_Delivery sr_Command].
  destruct (String.eqb_spec (rq_PolicyRef req') "") as [He|He]; simpl in Hdel; run_ok.
  - split; [done|]. by rewrite Hdb4.
  - apply createPolicyDelivery_ok in Hstep as (drow & Hf & _ & Hdb5 & ? & ? & _ & ? & ? & Hst).
    rewrite Hdb4 in *. split; [done|]. split.
    { simpl in Hf. rewrite lookup_update_where in Hf.
      by destruct (policy_deliveries (st_db st) !! d_ID a). }
    exists drow. split_and!; try done. by rewrite Hst, Hcmd.
Qed.

(** A new command and a delivery of it. *)
Lemma insert_coherent cid row did drow db n :
  agent_commands db !! cid = None → policy_deliveries db !! did = None →
  pd_command_id drow = cid → nodes db !! pd_node_id drow = Some n →
  ac_node_public_key row = n_public_key n → follows (ac_status row) (pd_command_status drow) →
  coherent db →
  let db2 := set_commands (<[cid := row]> (agent_commands db)) db in
  coherent (set_deliveries (<[did := drow]> (policy_deliveries db2)) db2).
Proof.
  intros Hc Hd Hcid Hn Hkey Hfol [Hatt Hone]. simpl. split; simpl.
  - intros k d. simpl. rewrite lookup_insert_Some. intros [[<- <-]|[? Hk]].
    + exists row, n. rewrite Hcid, lookup_insert_eq. by split_and!.
    + destruct (Hatt k d Hk) as (c & n' & Hcd & ?). exists c, n'. split; [|done].
      rewrite lookup_insert_ne; [done|]. intros ->. congruence.
  - intros k k' d d'. simpl. rewrite !lookup_insert_Some.
    intros [[<- <-]|[? Hk]] [[<- <-]|[? Hk']] Heq; try done; [| |by eapply Hone].
    + destruct (Hatt k' d' Hk') as (c & _ & Hcd & _). congruence.
    + destruct (Hatt k d Hk) as (c & _ & Hcd & _). congruence.
Qed.

Lemma insert_command_row_coherent cid row db :
  agent_commands db !! cid = None → coherent db →
  coherent (set_commands (<[cid := row]> (agent_commands db)) db).
Proof.
  intros Hc [Hatt Hone]. split; [|done]. intros k d Hk. simpl in *.
  destruct (Hatt k d Hk) as (c & n & Hcd & ?). exists c, n. split; [|done].
  rewrite lookup_insert_ne; [done|]. intros ->. congruence.
Qed.

Lemma synced_coherent req res now db db' n :
  nodes db !! rq_NodeID req = Some n → n_public_key n = rq_NodePublicKey req →
  synced req res now db db' → coherent db → coherent db'.
Proof.
  intros Hn Hkey (control & row & _ & _ & _ & Hfresh & _ & Hk & _ & Hs & _ & Hd) Hcoh.
  set (db1 := superseded_db req now (set_control (rq_NodeID req) control db)) in *.
  assert (coherent db1) as Hcoh1.
  { eapply (superseded_coherent _ _ _ n); [done|done|].
    eapply coherent_ext; [apply only_control_three, set_control_only|done]. }
  destruct (sr_Delivery res) as [d|].
  - destruct Hd as (_ & Hdf & drow & -> & _ & Hnode & _ & Hcid & Hst).
    apply (insert_coherent _ _ _ _ _ n); try done.
    + simpl. by rewrite lookup_update_where, Hdf.
    + by rewrite Hnode.
    + congruence.
    + rewrite Hs, Hst. by left.
  - destruct Hd as [_ ->]. by apply insert_command_row_coherent.
Qed.

Lemma QueuePolicySync_ok req e st res st' :
  QueuePolicySync req e st = (Ok res, st') →
  ∃ req' db', normalized req req' ∧ sr_DesiredStateVersion res = rq_DesiredStateVersion req' ∧
    synced req' res (env_now e) (st_db st) db' ∧ same_core db' (st_db st').
Proof.
  unfold QueuePolicySync. intros H. apply bind_ok in H as (req1 & st1 & Hn & H).
  apply normalize_normalized in Hn as [Hdb1 Hn].
  apply bind_ok in H as (r & st2 & Ht & H). apply bind_ok in H as (u & st4 & Ha & H).
  injection H as -> ->. apply tx_ok in Ht as (st3 & [[Hb Hdb]|[Hb _]]);
    apply bind_ok in Hb as (r' & st5 & Hq & Hb); [|discriminate Hb]. injection Hb as -> ->.
  apply queuePolicySyncTx_ok in Hq as (req' & Hn' & Hv & Hs). cbn [st_db] in Hs.
  exists req', (st_db st2). rewrite Hdb, <- Hdb1. split; [by eapply normalized_trans|].
  split; [done|]. split; [done|]. rewrite <- Hdb.
  pose proof (recordCommandQueuedAudit_logs req1 (sr_Command res) e st2) as Hl.
  by rewrite Ha in Hl.
Qed.

(** A failed call leaves the tables as they were. *)
Lemma bind_tx_err {A B} (body : M (outcome A)) (k : A → M B) e st x st' :
  (∀ a, total (k a)) →
  (tx body ≫= k) e st = (Err x, st') → st_db st' = st_db st.
Proof.
  intros Hk. unfold mbind, M_bind. destruct (tx body e st) as [[a|y] st1] eqn:Ht.
  - intros H. specialize (Hk a e st1). by rewrite H in Hk.
  - intros [= <- <-]. by eapply tx_err.
Qed.
Lemma best_effort_ok {A B} (m : M A) (b : B) : total (best_effort m ≫= λ _, mret b).
Proof. auto with aria. Qed.

Lemma normalize_db req e st : st_db (normalizePolicySyncRequest req e st).2 = st_db st.
Proof.
  unfold normalizePolicySyncRequest, NewDesiredStateVersion. destruct (missing_field _); [done|].
  by destruct (rq_DesiredStateVersion _ =? "")%string.
Qed.

Lemma QueuePolicySync_err req e st x st' :
  QueuePolicySync req e st = (Err x, st') → st_db st' = st_db st.
Proof.
  unfold QueuePolicySync. intros H. pose proof (normalize_db req e st) as Hn.
  unfold mbind at 1, M_bind at 1 in H.
  destruct (normalizePolicySyncRequest req e st) as [[req1|y] st1]; simpl in Hn.
  - apply bind_tx_err in H; [congruence|]. intros. apply best_effort_ok.
  - by injection H as <- <-.
Qed.

Lemma ignore_st {A} (m : M A) e st : (ignore m e st).2 = (m e st).2.
Proof. unfold ignore, mbind, M_bind. by destruct (m e st) as [[]]. Qed.
Lemma keeps_ignore {A} (I : DB → Prop) (m : M A) : keeps I m → keeps I (ignore m).
Proof. intros Hm e st. rewrite ignore_st. apply Hm. Qed.

Lemma QueuePolicySync_coherent req e st :
  op_ok (OpSync req) (st_db st) → coherent (st_db st) →
  coherent (st_db (QueuePolicySync req e st).2).
Proof.
  intros (n & Hn & Hkey) Hcoh. destruct (QueuePolicySync req e st) as [[res|x] st'] eqn:Hq.
  - apply QueuePolicySync_ok in Hq as (req' & db' & (_ & Hid & Hk & _) & _ & Hs & Hl).
    eapply coherent_ext; [by apply same_core_three|].
    apply (synced_coherent _ _ _ _ _ n) in Hs; [done| |congruence|done]. by rewrite Hid.
  - simpl. by rewrite (QueuePolicySync_err _ _ _ _ _ Hq).
Qed.

Lemma run_op_coherent o e st :
  op_ok o (st_db st) → coherent (st_db st) → coherent (st_db (run_op o e st).2).
Proof.
  intros Hok Hcoh. destruct o; simpl in *; rewrite ?ignore_st.
  - by apply queueAgentCommand_coherent.
  - by apply QueueAgentCommands_coherent.
  - by apply GetNextPendingAgentCommand_coherent.
  - by apply RequeueSentAgentCommand_coherent.
  - by apply FailTimedOut_coherent.
  - by apply FailIncomplete_coherent.
  - by apply updateAgentCommandStatus_coherent.
  - unfold UpdateAgentCommandStatusForNode. case_match; [done|].
    by apply updateAgentCommandStatus_coherent.
  - by apply QueuePolicySync_coherent.
  - by apply keeps_control; [apply upsertNodeDesiredState_only|].
  - by apply keeps_control; [apply reportNodeControlState_only|].
Qed.

(** C2. Over any sequence of calls, with any statement failing, every policy
    delivery keeps its command, addressed to the delivery's node; it is open
    exactly while the command is, and ends [completed], [failed] or [stale]
    together with it. *)
Theorem deliveries_follow_commands st st' :
  rtc step st st' → coherent (st_db st) → coherent (st_db st').
Proof.
  induction 1 as [|? y ? [e o st1 Hok] _ IH]; [done|]. intros. by apply IH, run_op_coherent.
Qed.

Definition demo_req : PolicySyncRequest :=
  mkPolicySyncRequest "t1" "n1" "pk" "acl" "create" "rule-1" "Rule 1" "v3" None
    (Some {["desired_state_version" := JString "v3"]}) None 5 60.

(** The demo database with one delivery of the command [c1]. *)
Definition demo_delivery : DeliveryRow :=
  mkDeliveryRow "t1" "n1" "acl" "rule-0" None "create" "c1" "pending" None ∅ None 0 0.
Definition delivering_db : DB := set_deliveries {["d0" := demo_delivery]} demo_db.

Lemma delivering_coherent : coherent delivering_db.
Proof.
  split.
  - intros k d. simpl. rewrite lookup_singleton_Some. intros [<- <-].
    eexists _, demo_node. split; [reflexivity|]. split; [reflexivity|]. split; [done|]. by left.
  - intros k k' d d'. simpl. rewrite !lookup_singleton_Some. by intros [<- _] [<- _].
Qed.

Lemma deliveries_follow_commands_witness :
  let st := mkSt delivering_db 0 in
  let st1 := (run_op (OpSync demo_req) (env_at 5) st).2 in
  let st2 := (run_op (OpReportForNode "c1" "pk" "completed" "late" None) (env_at 6) st1).2 in
  coherent (st_db st2) ∧
  (pd_command_status <$> policy_deliveries (st_db st2) !! "d0") = Some "stale".
Proof.
  intros st st1 st2. split; [|by vm_compute].
  apply (deliveries_follow_commands st st2); [|exact delivering_coherent].
  apply rtc_l with st1; [|apply rtc_once; by constructor].
  constructor. by exists demo_node.
Defined.
