(* ===== verification/CommandQueueSpec.v ===== *)
(** * The contract of the command queue

    What [pkg/controllerstorage/agent_commands.go] promises its callers: which
    command is handed out, that a command which could not be delivered is
    handed out again, that closing a node closes all its commands, and who may
    report on a command; then what a queued policy sync guarantees. *)

From S2P Require Import Prelude GoStr Records Store Events ControlState AgentCommands PolicySync CommandLifecycle DeliveryCoherence.

Open Scope Z_scope.

(** ** Handing out *)

Lemma command_before_asym a b : command_before a b = true → command_before b a = false.
Proof.
  unfold command_before. rewrite orb_true_iff, orb_false_iff, andb_true_iff, andb_false_iff.
  rewrite !Z.ltb_lt, !Z.ltb_ge, !Z.eqb_eq, !Z.eqb_neq. lia.
Qed.
Lemma command_before_neg_trans a b c :
  command_before b a = false → command_before c b = false → command_before c a = false.
Proof.
  unfold command_before. rewrite !orb_false_iff, !andb_false_iff.
  rewrite !Z.ltb_ge, !Z.eqb_neq. lia.
Qed.

Lemma next_pending_first key db id r id' r' :
  next_pending key db = Some (id, r) → agent_commands db !! id' = Some r' →
  pending_for key id' r' = true → command_before (id', r') (id, r) = false.
Proof.
  unfold next_pending. intros Hh Hk Hp.
  apply (SliceStable_first command_before) with (l := select_where (pending_for key) (agent_commands db));
    [apply command_before_asym|apply command_before_neg_trans|done|].
  by apply select_where_elem.
Qed.

Lemma next_pending_none key db :
  next_pending key db = None ↔
  ∀ id r, agent_commands db !! id = Some r → pending_for key id r = false.
Proof.
  unfold next_pending. rewrite <- count_where_0. unfold count_where.
  pose proof (SliceStable_Permutation command_before
    (select_where (pending_for key) (agent_commands db))) as Hp.
  apply Permutation_length in Hp. rewrite <- Hp. by destruct (SliceStable _ _).
Qed.

(** A command the node may be given: pending, or sent and past its deadline. *)
Definition due (key : string) (now : Time) (r : CommandRow) : Prop :=
  ac_node_public_key r = key ∧
  (ac_status r = "pending" ∨ ac_status r = "sent" ∧ overdue now r = true).

(** [a] comes before [b] in the order of the queue. *)
Definition queue_before (a b : CommandRow) : Prop :=
  ac_priority b < ac_priority a ∨
  (ac_priority a = ac_priority b ∧ ac_created_at a < ac_created_at b).

Lemma requeued_lookup key now db id r :
  agent_commands (requeue_overdue key now db) !! id = Some r ↔
  ∃ r0, agent_commands db !! id = Some r0 ∧
    r = if (ac_node_public_key r0 =? key)%string && (ac_status r0 =? "sent")%string
           && overdue now r0 then requeue_row now r0 else r0.
Proof. simpl. by rewrite lookup_update_where_Some. Qed.

(** After the overdue commands are requeued, the pending ones are those due. *)
Lemma pending_due key now db id r0 :
  agent_commands db !! id = Some r0 →
  (∃ r, agent_commands (requeue_overdue key now db) !! id = Some r ∧
        pending_for key id r = true ∧ ac_priority r = ac_priority r0 ∧
        ac_created_at r = ac_created_at r0) ↔ due key now r0.
Proof.
  intros Hr0. unfold pending_for, due. split.
  - intros (r & Hr & Hp & _). apply requeued_lookup in Hr as (r0' & Hr0' & ->). simplify_eq.
    set (b := _ && _ && overdue _ _) in Hp. destruct b eqn:Hc; unfold b in Hc; bools;
      (split; [done|]); first [by left | by right].
  - intros [Hk Hs]. eexists. split; [apply requeued_lookup; eexists; split; [done|reflexivity]|].
    rewrite Hk, String.eqb_refl. simpl.
    destruct Hs as [Hs|[Hs Ho]].
    + rewrite Hs. simpl. by rewrite Hk, Hs, String.eqb_refl.
    + rewrite Hs, Ho. simpl. by rewrite Hk, String.eqb_refl.
Qed.

(** The run when no statement fails. *)
Lemma GetNext_run key e st :
  no_faults e →
  let db1 := requeue_overdue key (env_now e) (st_db st) in
  let now := env_go_now e in
  match next_pending key db1 with
  | None => ∃ t, GetNextPendingAgentCommand key e st = (Ok None, mkSt (st_db st) t)
  | Some (id, r) => ∃ t, GetNextPendingAgentCommand key e st =
      (Ok (Some ((scanAgentCommandRow id r) <| Status := "sent" |> <| SentAt := Some now |>
                   <| UpdatedAt := now |>)),
       mkSt (set_commands (update_where (λ k _, (k =? id)%string) (send_row now)
               (agent_commands db1)) db1) t)
  end.
Proof.
  intros Hf db1 now. unfold GetNextPendingAgentCommand, tx. rewrite Hf.
  unfold exec, query, mbind, M_bind, stmt, stmt_rows. cbn [st_tick st_db]. rewrite !Hf.
  cbn [st_tick st_db]. fold db1. destruct (next_pending key db1) as [[id r]|]; [|eexists; reflexivity].
  unfold ask. cbn [st_tick st_db]. rewrite Hf. unfold mret, M_ret. cbn [st_tick st_db].
  rewrite Hf. by eexists.
Qed.

(** C27. When no statement fails, the queue hands a node the due command that
    comes first: highest priority, then oldest.  The command becomes [sent]
    with a fresh deadline of its own timeout, in the row as in the answer.
    Without a due command the answer is none and no table changes. *)
Theorem GetNextPendingAgentCommand_first key e st :
  no_faults e →
  (∃ st', GetNextPendingAgentCommand key e st = (Ok None, st') ∧ st_db st' = st_db st ∧
     ∀ id r, agent_commands (st_db st) !! id = Some r → ¬ due key (env_now e) r) ∨
  (∃ cmd st' r r', GetNextPendingAgentCommand key e st = (Ok (Some cmd), st') ∧
     agent_commands (st_db st) !! ID cmd = Some r ∧ due key (env_now e) r ∧
     (∀ id r0, agent_commands (st_db st) !! id = Some r0 → due key (env_now e) r0 →
        ¬ queue_before r0 r) ∧
     agent_commands (st_db st') !! ID cmd = Some r' ∧
     ac_status r' = "sent" ∧ Status cmd = "sent" ∧ Params cmd = stringifyCommandParams (ac_params r) ∧
     ac_deadline_at r' = Some (env_go_now e + seconds (ac_timeout_seconds r))).
Proof.
  intros Hf. pose proof (GetNext_run key e st Hf) as Hrun. cbv zeta in Hrun.
  set (db1 := requeue_overdue key (env_now e) (st_db st)) in *.
  destruct (next_pending key db1) as [[id r]|] eqn:Hnext; destruct Hrun as [t Hrun]; [right|left].
  - pose proof (next_pending_spec _ _ _ _ Hnext) as (Hr & Hkey & Hs).
    pose proof Hr as Hr1. apply requeued_lookup in Hr1 as (r0 & Hr0 & Hreq).
    assert (ac_priority r = ac_priority r0 ∧ ac_created_at r = ac_created_at r0 ∧
      ac_params r = ac_params r0 ∧ ac_timeout_seconds r = ac_timeout_seconds r0)
      as (Hp & Hc & Hpar & Hto) by (rewrite Hreq; by destruct (_ && _)).
    eexists _, _, r0, _. split; [exact Hrun|]. split; [done|]. split; [|split].
    + apply (pending_due _ _ _ _ _ Hr0). exists r. split_and!; try done.
      unfold pending_for. by rewrite Hkey, Hs, String.eqb_refl.
    + intros id2 r2 Hr2 Hdue Hbefore.
      apply (pending_due _ _ _ _ _ Hr2) in Hdue as (r2' & Hr2' & Hp2 & Hpr & Hcr).
      pose proof (next_pending_first _ _ _ _ _ _ Hnext Hr2' Hp2) as Hno.
      unfold command_before, queue_before in *. simpl in Hno. rewrite Hpr, Hcr, Hp, Hc in Hno.
      apply orb_false_iff in Hno as [Hno1 Hno2]. apply andb_false_iff in Hno2.
      rewrite Z.ltb_ge in Hno1. rewrite Z.eqb_neq, Z.ltb_ge in Hno2. lia.
    + cbn [st_db]. unfold set_commands at 1. cbn [agent_commands upd]. simpl ID.
      rewrite lookup_update_where. fold db1. rewrite Hr. simpl. rewrite String.eqb_refl.
      split; [done|]. simpl. by rewrite Hpar, Hto.
  - exists (mkSt (st_db st) t). split_and!; try done. intros id r Hr Hdue.
    apply (pending_due _ _ _ _ _ Hr) in Hdue as (r' & Hr' & Hp & _).
    rewrite next_pending_none in Hnext. by rewrite (Hnext _ _ Hr') in Hp.
Qed.

(** Three commands of one node: [c2] is urgent but already handed out, [c3]
    and [c1] wait, [c3] with the higher priority. *)
Definition queue_db : DB :=
  set_commands {[
    "c1" := mkCommandRow "pk" "sync" ∅ "pending" None 0 30 ∅ None None None 1 1 (Some 100);
    "c2" := mkCommandRow "pk" "sync" ∅ "sent" None 9 30 ∅ (Some 2) None None 2 2 (Some 100);
    "c3" := mkCommandRow "pk" "health_check" ∅ "pending" None 5 30 ∅ None None None 3 3 (Some 100)
  ]} empty_db.

Lemma GetNextPendingAgentCommand_first_witness :
  (∃ st', GetNextPendingAgentCommand "pk" (env_at 50) (mkSt queue_db 0) = (Ok None, st') ∧
     st_db st' = queue_db ∧
     ∀ id r, agent_commands queue_db !! id = Some r → ¬ due "pk" 50 r) ∨
  (∃ cmd st' r r', GetNextPendingAgentCommand "pk" (env_at 50) (mkSt queue_db 0)
        = (Ok (Some cmd), st') ∧
     agent_commands queue_db !! ID cmd = Some r ∧ due "pk" 50 r ∧
     (∀ id r0, agent_commands queue_db !! id = Some r0 → due "pk" 50 r0 → ¬ queue_before r0 r) ∧
     agent_commands (st_db st') !! ID cmd = Some r' ∧
     ac_status r' = "sent" ∧ Status cmd = "sent" ∧ Params cmd = stringifyCommandParams (ac_params r) ∧
     ac_deadline_at r' = Some (50 + seconds (ac_timeout_seconds r))).
Proof. exact (GetNextPendingAgentCommand_first "pk" (env_at 50) (mkSt queue_db 0) (λ _, eq_refl)). Defined.

Example queue_hands_out_c3_then_c2 :
  let run t st := GetNextPendingAgentCommand "pk" (env_at t) st in
  let '(r1, st1) := run 50 (mkSt queue_db 0) in
  let '(r2, _) := run 101 st1 in
  ((λ c, ID c) <$> match r1 with Ok c => c | Err _ => None end,
   (λ c, ID c) <$> match r2 with Ok c => c | Err _ => None end) = (Some "c3", Some "c2").
Proof. by vm_compute. Qed.

(** ** Delivering again *)

(** A command that was handed out and could not be delivered is not lost:
    once [RequeueSentAgentCommand] succeeds, the node's next request (no
    statement failing) is answered with a command, and the requeued one is
    among the due ones it is chosen from. *)
Theorem requeued_command_is_due id key message e st st' e' :
  RequeueSentAgentCommand id key message e st = (Ok (), st') → no_faults e' →
  (∃ r, agent_commands (st_db st') !! id = Some r ∧ due key (env_now e') r) ∧
  ∃ cmd st'', GetNextPendingAgentCommand key e' st' = (Ok (Some cmd), st'').
Proof.
  unfold RequeueSentAgentCommand. do 2 (case_match; [done|]). intros Hrun Hf. run_ok.
  destruct (a =? 0) eqn:Ha; run_ok.
  assert (∃ r, agent_commands (st_db st') !! id = Some r ∧ due key (env_now e') r) as Hdue.
  { set (p := λ (i : UUID) r, (i =? id)%string && _ && _) in *.
    assert (exists_where p (agent_commands (st_db st)) = true) as Hex
      by (unfold exists_where; by rewrite Ha).
    apply exists_where_spec in Hex as (k & r & Hr & Hp). pose proof Hp as Hm. unfold p in Hm. bools.
    subst k. rewrite Hdb. simpl. rewrite lookup_update_where, Hr. simpl. rewrite Hp.
    eexists. split; [done|]. split; [done|by left]. }
  split; [done|]. destruct Hdue as (r & Hr & Hdue).
  pose proof (GetNext_run key e' st' Hf) as Hnext. cbv zeta in Hnext.
  destruct (next_pending key _) as [[id' r']|] eqn:Hn.
  - destruct Hnext as [t ->]. eauto.
  - apply (pending_due _ _ _ _ _ Hr) in Hdue as (r' & Hr' & Hp & _).
    rewrite next_pending_none in Hn. by rewrite (Hn _ _ Hr') in Hp.
Qed.

Lemma requeued_command_is_due_witness :
  ∃ st', RequeueSentAgentCommand "c2" "pk" "stream closed" (env_at 60) (mkSt queue_db 0)
      = (Ok (), st') ∧
    (∃ r, agent_commands (st_db st') !! "c2" = Some r ∧ due "pk" 70 r) ∧
    ∃ cmd st'', GetNextPendingAgentCommand "pk" (env_at 70) st' = (Ok (Some cmd), st'').
Proof.
  destruct (RequeueSentAgentCommand "c2" "pk" "stream closed" (env_at 60) (mkSt queue_db 0))
    as [[[]|x] st'] eqn:Hrun; [|by vm_compute in Hrun].
  exists st'. split; [done|].
  exact (requeued_command_is_due "c2" "pk" "stream closed" (env_at 60) (mkSt queue_db 0) st'
    (env_at 70) Hrun (λ _, eq_refl)).
Defined.

(** ** Closing a node *)

Lemma incomplete_closed status key k r now message :
  incomplete status = false → incomplete_for key k (close_row status message now r) = false.
Proof. intros Hs. unfold incomplete_for. simpl. by rewrite Hs, andb_false_r. Qed.

(** Failing the commands of a node leaves the node without an open
    command, fails every delivery that was open with one, and touches neither
    the commands of other nodes nor the closed ones. *)
Theorem FailIncompleteAgentCommandsForNode_closes key message e st st' :
  FailIncompleteAgentCommandsForNode key message e st = (Ok (), st') →
  count_where (incomplete_for key) (agent_commands (st_db st')) = 0 ∧
  (∀ k d c, policy_deliveries (st_db st) !! k = Some d →
     agent_commands (st_db st) !! pd_command_id d = Some c →
     incomplete_for key (pd_command_id d) c = true →
     pd_command_status <$> policy_deliveries (st_db st') !! k = Some "failed") ∧
  (∀ id r, agent_commands (st_db st) !! id = Some r → incomplete_for key id r = false →
     agent_commands (st_db st') !! id = Some r).
Proof.
  unfold FailIncompleteAgentCommandsForNode. intros H.
  apply tx_ok in H as (st1 & [[Hb Hdb]|[Hb _]]);
    unfold failIncompleteAgentCommandsForNodeTx in Hb; run_ok; case_match; run_ok.
  cbn [st_db] in *. rewrite Hdb, Hdb0, Hdb1. split; [|split].
  - apply count_where_0. intros k r. simpl. rewrite lookup_update_where_Some.
    intros (r0 & _ & ->). destruct (incomplete_for key k r0) eqn:Hi; [|done].
    by apply incomplete_closed.
  - intros k d c Hd Hc Hi. simpl. rewrite lookup_update_where, Hd. simpl. by rewrite Hc, Hi.
  - intros id r Hr Hi. simpl. rewrite lookup_update_where, Hr. simpl. by rewrite Hi.
Qed.

Lemma FailIncompleteAgentCommandsForNode_closes_witness :
  ∃ st', FailIncompleteAgentCommandsForNode "pk" "" (env_at 60) (mkSt delivering_db 0) = (Ok (), st') ∧
    count_where (incomplete_for "pk") (agent_commands (st_db st')) = 0 ∧
    pd_command_status <$> policy_deliveries (st_db st') !! "d0" = Some "failed".
Proof.
  destruct (FailIncompleteAgentCommandsForNode "pk" "" (env_at 60) (mkSt delivering_db 0))
    as [[[]|x] st'] eqn:Hrun; [|by vm_compute in Hrun].
  pose proof (FailIncompleteAgentCommandsForNode_closes "pk" "" (env_at 60) (mkSt delivering_db 0)
    st' Hrun) as (H0 & Hd & _).
  exists st'. split; [done|]. split; [done|]. by eapply (Hd "d0" demo_delivery).
Defined.

(** ** Reports *)

(** A node may report only on its own commands: for a command that does
    not exist or belongs to another node, the report returns an error and no
    table changes, whatever statements fail. *)
Theorem report_for_foreign_command_refused id key status message result e st :
  (∀ r, agent_commands (st_db st) !! id = Some r → ac_node_public_key r ≠ key) →
  let run := UpdateAgentCommandStatusForNode id key status message result e st in
  is_ok run.1 = false ∧ st_db run.2 = st_db st.
Proof.
  intros Hforeign run.
  assert (∀ e st1, st_db st1 = st_db st →
    (updateAgentCommandStatusTx id key (TrimSpace status) message (default ∅ result) e st1).1 =
    Err (not_owned id key) ∨ key = "") as Hbody.
  { intros e1 st1 Hst1. destruct (decide (key = "")) as [|Hkey]; [by right|left].
    unfold updateAgentCommandStatusTx, lockAgentCommandStatusTx, query_row.
    assert (command_status id key (st_db st1) = None) as Hnone.
    { destruct (command_status id key (st_db st1)) eqn:Hc; [|done].
      apply command_status_Some in Hc as (r & Hr & _ & [?|?]); [done|].
      rewrite Hst1 in Hr. by apply Hforeign in Hr. }
    unfold mbind, M_bind, attempt, stmt, stmt_rows. rewrite Hnone.
    apply String.eqb_neq in Hkey. rewrite Hkey. by destruct (env_fault _ _). }
  unfold run, UpdateAgentCommandStatusForNode, updateAgentCommandStatus.
  destruct (String.eqb_spec key "") as [|Hkey]; [done|]. repeat (case_match; [done|]).
  unfold mbind, M_bind. destruct (tx _ _ _) as [[b|x] st'] eqn:Ht.
  - apply tx_ok in Ht as (st1 & [[Hb _]|[Hb _]]);
      destruct (Hbody e (mkSt (st_db st) (S (st_tick st))) eq_refl) as [Herr|]; try done;
      by rewrite Hb in Herr.
  - simpl. by apply tx_err in Ht.
Qed.

Lemma report_for_foreign_command_refused_witness :
  let run := UpdateAgentCommandStatusForNode "c1" "intruder" "completed" "" None (env_at 3)
               (mkSt delivering_db 0) in
  is_ok run.1 = false ∧ st_db run.2 = delivering_db.
Proof.
  apply (report_for_foreign_command_refused "c1" "intruder" "completed" "" None (env_at 3)
    (mkSt delivering_db 0)).
  intros r Hr. vm_compute in Hr. by injection Hr as <-.
Defined.

(** ** Convergence *)

Lemma command_node_reported id key status message result now db c nodeID n :
  command_node db id = Some (c, nodeID, n) →
  command_node (reported id status message result now key db) id =
  Some (if reportable id key id c then report_row status message result now c else c, nodeID, n).
Proof.
  intros H. set (db' := reported _ _ _ _ _ _ db).
  assert (∀ k, node_by_key db' k = node_by_key db k) as Hnode by done.
  unfold command_node in *. rewrite (lookup_update_where _ _ _ id : agent_commands db' !! id = _).
  destruct (agent_commands db !! id) as [c0|]; [|done]. simpl in *. rewrite Hnode.
  assert (∀ b : bool, ac_node_public_key
    (if b then report_row status message result now c0 else c0) = ac_node_public_key c0) as ->
    by by intros [].
  by destruct (node_by_key db (ac_node_public_key c0)) as [[nid nr]|]; simplify_eq/=.
Qed.

(** The committed report, as far as the control state of the node goes. *)
Lemma updateTx_run id key status message result e st c st1 :
  no_faults e → agent_commands (st_db st) !! id = Some c →
  (key = "" ∨ ac_node_public_key c = key) → ac_status c ≠ "stale" → ac_status c ≠ status →
  validateAgentCommandStatusTransition (ac_status c) status = None →
  syncNodeControlStateForCommandTx id status message result e
    (mkSt (reported id status message result (env_now e) key (st_db st)) (S (S (S (st_tick st)))))
    = (Ok (), st1) →
  updateAgentCommandStatusTx id key status message result e st = (Ok (Commit true), st1).
Proof.
  intros Hf Hc Hkey Hns Hne Hv Hsync. unfold updateAgentCommandStatusTx, lockAgentCommandStatusTx.
  erewrite bind_run by (apply attempt_run, query_row_run; [done|];
    apply command_status_Some; by exists c).
  apply String.eqb_neq in Hns as Hns', Hne. unfold AgentCommandStatusStale. rewrite Hns', Hne, Hv.
  erewrite bind_run by by apply exec_run. cbn [fst snd st_db st_tick].
  assert ((count_where (reportable id key) (agent_commands (st_db st)) =? 0) = false) as ->.
  { apply negb_true_iff. apply exists_where_spec. exists id, c. split; [done|].
    unfold reportable, command_matches. rewrite String.eqb_refl, Hns'. simpl.
    rewrite andb_true_r, orb_true_iff, !String.eqb_eq. done. }
  erewrite bind_run by by apply exec_run. cbn [fst snd st_db st_tick].
  by erewrite bind_run by exact Hsync.
Qed.

(** C24. The loop closes: when a node reports its sync command as completed and no
    statement fails, the report succeeds, the command and its deliveries are
    completed and the applied version is the one the report names - the version it
    says it applied, or else the desired one it names, or else the command's - and
    the online node counts as converged exactly when that is the version desired of
    it and the report carries no error. *)
Theorem completed_report_converges id message result e st c nodeID n r v d :
  no_faults e → id ≠ "" → ac_node_public_key c ≠ "" →
  command_node (st_db st) id = Some (c, nodeID, n) → ac_command c = "sync" →
  ac_status c = "sent" ∨ ac_status c = "acknowledged" →
  ac_params c !! "desired_state_version" = Some (JString v) → TrimSpace v ≠ "" →
  control_refs_ok (st_db st) (n_tenant_id n) nodeID = true →
  node_control_states (st_db st) !! nodeID = Some r → cs_desired_state_version r = Some d → d ≠ "" →
  ∃ st' c' r', UpdateAgentCommandStatusForNode id (ac_node_public_key c) "completed" message
      (Some result) e st = (Ok (), st') ∧
    agent_commands (st_db st') !! id = Some c' ∧ ac_status c' = "completed" ∧
    (∀ k p, policy_deliveries (st_db st) !! k = Some p → pd_command_id p = id →
       pd_command_status <$> policy_deliveries (st_db st') !! k = Some "completed") ∧
    node_control_states (st_db st') !! nodeID = Some r' ∧
    cs_desired_state_version r' = Some d ∧ cs_applied_state_version r' = Some (reported_version result v) ∧
    (GetConvergenceStatus (scanNodeControlState nodeID r') true = StatusConverged ↔
       reported_version result v = d ∧ reported_error result message = "").
Proof.
  intros Hf Hid Hkey Hcn Hsync Hst Hpar Hv Hrefs Hr Hdes Hd.
  set (key := ac_node_public_key c) in *.
  assert (agent_commands (st_db st) !! id = Some c) as Hc.
  { unfold command_node in Hcn. destruct (agent_commands _ !! id); [|done]. simpl in Hcn.
    by destruct (node_by_key _ _) as [[]|]; simplify_eq/=. }
  assert (ac_status c ≠ "stale" ∧ ac_status c ≠ "completed" ∧
    validateAgentCommandStatusTransition (ac_status c) "completed" = None) as (Hns & Hne & Hval)
    by by destruct Hst as [-> | ->].
  assert (reportable id key id c = true) as Hrep.
  { unfold reportable, command_matches. rewrite !String.eqb_refl, orb_true_r. simpl.
    apply negb_true_iff. by apply String.eqb_neq. }
  set (st0 := mkSt (st_db st) (S (st_tick st))).
  destruct (completed_sync_converges id message result e
    (mkSt (reported id "completed" message result (env_now e) key (st_db st))
       (S (S (S (st_tick st0)))))
    (report_row "completed" message result (env_now e) c) nodeID n r v d)
    as (st1 & r' & Hrun & Hr' & Hdes' & Happ & Hconv); try done.
  { pose proof (command_node_reported id key "completed" message result (env_now e) _ _ _ _ Hcn) as Hx.
    by rewrite Hrep in Hx. }
  assert (only_control (reported id "completed" message result (env_now e) key (st_db st)) (st_db st1))
    as Hoc by (apply sync_for_command_ok in Hrun; done).
  pose proof (updateTx_run id key "completed" message result e st0 c st1 Hf Hc (or_intror eq_refl)
    Hns Hne Hval Hrun) as Hbody.
  pose proof (tx_run _ e st _ _ Hf Hbody) as Htx.
  pose proof (emitCommandAlertAndAudit_total id "completed" message e
    (mkSt (st_db st1) (S (st_tick st1)))) as Htot.
  pose proof (emitCommandAlertAndAudit_logs id "completed" message e
    (mkSt (st_db st1) (S (st_tick st1)))) as (Hcmds & Hdels & Hctl & _).
  assert (UpdateAgentCommandStatusForNode id key "completed" message (Some result) e st =
    emitCommandAlertAndAudit id "completed" message e (mkSt (st_db st1) (S (st_tick st1)))) as ->.
  { unfold UpdateAgentCommandStatusForNode, updateAgentCommandStatus.
    apply String.eqb_neq in Hkey as Hk, Hid as Hi. rewrite Hk, Hi. cbv zeta.
    change (TrimSpace "completed") with "completed".
    change (negb (isAgentCommandReportStatus "completed")) with false.
    change ("completed" =? "")%string with false. cbv iota. cbn [default].
    by erewrite bind_run by exact Htx. }
  destruct (emitCommandAlertAndAudit _ _ _ _ _) as [[[]|x] st2]; [|done]. cbn [snd st_db] in *.
  destruct Hoc as [cs Hst1]. eexists st2, _, r'. rewrite Hctl, Hr', Hcmds, Hdels, Hst1.
  split; [done|]. simpl. rewrite lookup_update_where, Hc. simpl. rewrite Hrep.
  split_and!; try done. intros k p Hk' Hdid. rewrite lookup_update_where, Hk'. simpl.
  by rewrite Hdid, String.eqb_refl.
Qed.

Lemma completed_report_converges_witness :
  let result := {["applied_state_version" := "v2"; "observed_state" := "applied"]} in
  ∃ st' c' r', UpdateAgentCommandStatusForNode "c1" "pk" "completed" "done" (Some result) (env_at 9)
      (mkSt delivering_db 0) = (Ok (), st') ∧
    agent_commands (st_db st') !! "c1" = Some c' ∧ ac_status c' = "completed" ∧
    node_control_states (st_db st') !! "n1" = Some r' ∧ cs_applied_state_version r' = Some "v2" ∧
    GetConvergenceStatus (scanNodeControlState "n1" r') true = StatusConverged.
Proof.
  intros result.
  unshelve epose proof (completed_report_converges "c1" "done" result (env_at 9) (mkSt delivering_db 0)
    (demo_command {["desired_state_version" := JString "v2"]}) "n1" demo_node demo_control "v2" "v2"
    _ _ _ _ _ _ _ _ _ _ _ _) as Hx; [try done; by left..|].
  destruct Hx as (st' & c' & r' & Hrun & Hc' & Hst & _ & Hr' & _ & Happ & Hconv).
  exists st', c', r'. split_and!; [exact Hrun|exact Hc'|exact Hst|exact Hr'|exact Happ|].
  apply Hconv. split; vm_compute; reflexivity.
Defined.

(** ** What a queued policy sync guarantees

    The contract of [QueuePolicySync] and [MutatePolicyAndQueueSync]
    ([pkg/controllerstorage/policy_sync.go]): the tables after success, and
    the tables after failure. *)

(** *** Success *)

(** The deliveries of the node that are open. *)
Definition open_at (tenantID nodeID : UUID) (db : DB) (k : UUID) : Prop :=
  ∃ row, policy_deliveries db !! k = Some row ∧ open_delivery tenantID nodeID row = true.

Lemma superseded_db_none_open req now db k :
  ¬ open_at (rq_TenantID req) (rq_NodeID req) (superseded_db req now db) k.
Proof.
  intros (row & Hrow & Ho). simpl in Hrow. apply lookup_update_where_Some in Hrow as (d & _ & ->).
  destruct (open_delivery _ _ d) eqn:Hd; [|congruence].
  unfold open_delivery in Ho. simpl in Ho. by rewrite andb_false_r in Ho.
Qed.

Lemma synced_open req res now db db' d :
  synced req res now db db' → sr_Delivery res = Some d →
  ∀ k, open_at (rq_TenantID req) (rq_NodeID req) db' k ↔ k = d_ID d.
Proof.
  intros (control & row & _ & _ & _ & _ & _ & _ & _ & _ & _ & Hd) Hsome k. rewrite Hsome in Hd.
  destruct Hd as (_ & _ & drow & -> & Ht & Hn & _ & _ & Hst). unfold open_at. simpl. split.
  - intros (r & Hr & Ho). apply lookup_insert_Some in Hr as [[-> _]|[_ Hr]]; [done|].
    exfalso. apply (superseded_db_none_open req now (set_control (rq_NodeID req) control db) k).
    by exists r.
  - intros ->. exists drow. rewrite lookup_insert_eq. split; [done|].
    unfold open_delivery. by rewrite Ht, Hn, Hst, !String.eqb_refl.
Qed.

(** The commands a sync supersedes. *)
Definition carried (req : PolicySyncRequest) (db : DB) (id : UUID) (r : CommandRow) : Prop :=
  ac_node_public_key r = TrimSpace (rq_NodePublicKey req) ∧ incomplete (ac_status r) = true ∧
  ∃ k d, policy_deliveries db !! k = Some d ∧ pd_command_id d = id ∧
         open_delivery (rq_TenantID req) (rq_NodeID req) d = true.

Lemma carried_superseded req req' db control id r :
  normalized req req' → carried req db id r →
  superseded req' (set_control (rq_NodeID req') control db) id r = true.
Proof.
  intros (Ht & Hn & Hk & _) (Hkey & Hi & k & d & Hd & Hid & Ho). unfold superseded.
  rewrite !andb_true_iff, String.eqb_eq. split; [split; [congruence|done]|].
  apply exists_where_spec. exists k, d. split; [done|].
  by rewrite Hid, String.eqb_refl, Ht, Hn, Ho.
Qed.

(** Every command the sync does not supersede keeps its row. *)
Lemma synced_commands req res now db db' id r :
  synced req res now db db' → agent_commands db !! id = Some r →
  ∃ control, agent_commands db' !! id =
    Some (if superseded req (set_control (rq_NodeID req) control db) id r
          then close_row "stale" ("superseded by desired state " +:+ rq_DesiredStateVersion req)
                 now r else r).
Proof.
  intros (control & row & _ & _ & _ & Hfresh & _ & _ & _ & _ & _ & Hd) Hr. exists control.
  simpl in Hfresh. rewrite lookup_update_where in Hfresh.
  assert (agent_commands db' = <[ID (sr_Command res) := row]> (agent_commands
    (superseded_db req now (set_control (rq_NodeID req) control db)))) as ->.
  { destruct (sr_Delivery res); [|by destruct Hd as [_ ->]].
    by destruct Hd as (_ & _ & drow & -> & _). }
  rewrite lookup_insert_ne; [|intros Heq; rewrite Heq in Hfresh; by rewrite Hr in Hfresh].
  simpl. by rewrite lookup_update_where, Hr.
Qed.

(** C20. A policy sync with a policy reference that succeeds leaves, for its
    node, exactly one open delivery: the one it returns, of the command it
    returns, which is a pending [sync] command for the node's key carrying the
    given parameters.  The node's desired version is the returned one (the
    requested one if it was given), its applied version is untouched, and every
    open command that carried an open delivery of the node is [stale]. *)
Theorem QueuePolicySync_one_open req e st res st' :
  QueuePolicySync req e st = (Ok res, st') → TrimSpace (rq_PolicyRef req) ≠ "" →
  (∃ d, sr_Delivery res = Some d ∧
     ∀ k, open_at (rq_TenantID req) (rq_NodeID req) (st_db st') k ↔ k = d_ID d) ∧
  (∃ c, agent_commands (st_db st') !! ID (sr_Command res) = Some c ∧ ac_status c = "pending" ∧
     ac_command c = "sync" ∧ ac_node_public_key c = TrimSpace (rq_NodePublicKey req) ∧
     ac_params c = default ∅ (rq_CommandParams req)) ∧
  (∃ row, node_control_states (st_db st') !! rq_NodeID req = Some row ∧
     cs_desired_state_version row = Some (sr_DesiredStateVersion res) ∧
     ∀ old, node_control_states (st_db st) !! rq_NodeID req = Some old →
       cs_applied_state_version row = cs_applied_state_version old) ∧
  (TrimSpace (rq_DesiredStateVersion req) ≠ "" →
   sr_DesiredStateVersion res = TrimSpace (rq_DesiredStateVersion req)) ∧
  (∀ id r, agent_commands (st_db st) !! id = Some r → carried req (st_db st) id r →
     ∃ r', agent_commands (st_db st') !! id = Some r' ∧ ac_status r' = "stale").
Proof.
  intros H Href. apply QueuePolicySync_ok in H as (req' & db' & Hn & Hv & Hs & Hl).
  destruct Hl as (Hc & Hd & Hcs & _). rewrite Hc, Hcs, Hv. unfold open_at. rewrite Hd.
  pose proof Hn as (Ht & Hid & Hk & Hr & _ & Hp & Hver & _).
  pose proof Hs as (control & row & _ & Hdes & Happ & _ & _ & Hkey & Hcmd & Hst & Hpar & Hdel).
  split_and!; [| | |done|].
  - destruct (sr_Delivery res) as [d|] eqn:Hsome; [|destruct Hdel as [He _]; congruence].
    exists d. split; [done|]. rewrite <- Ht, <- Hid. by eapply synced_open.
  - exists row. rewrite <- Hk. split_and!; try done; [|congruence].
    destruct (sr_Delivery res);
      [destruct Hdel as (_ & _ & drow & -> & _)|destruct Hdel as [_ ->]]; apply lookup_insert_eq.
  - exists control. rewrite <- Hid. split_and!; try done.
    destruct (sr_Delivery res);
      [destruct Hdel as (_ & _ & drow & -> & _)|destruct Hdel as [_ ->]]; apply lookup_insert_eq.
  - intros id r Hr' Hcar. destruct (synced_commands _ _ _ _ _ _ _ Hs Hr') as (ctl & Hlk).
    rewrite (carried_superseded req) in Hlk by done. eauto.
Qed.

Lemma QueuePolicySync_one_open_witness :
  let st := mkSt delivering_db 0 in
  ∃ res st', QueuePolicySync demo_req (env_at 5) st = (Ok res, st') ∧
    (∃ d, sr_Delivery res = Some d ∧ ∀ k, open_at "t1" "n1" (st_db st') k ↔ k = d_ID d) ∧
    sr_DesiredStateVersion res = "v3".
Proof.
  intros st. destruct (QueuePolicySync demo_req (env_at 5) st) as [[res|x] st'] eqn:Hrun;
    [|by vm_compute in Hrun].
  pose proof (QueuePolicySync_one_open demo_req (env_at 5) st res st' Hrun) as Hspec.
  destruct Hspec as (Hopen & _ & _ & Hver & _); [done|].
  exists res, st'. split; [done|]. split; [exact Hopen|]. by apply Hver.
Defined.

(** *** Failure *)

(** A policy change and its sync are one unit: when
    [MutatePolicyAndQueueSync] returns an error, whatever the mutation wrote
    and whichever statement failed, every table is as it was before the call. *)
Theorem MutatePolicyAndQueueSync_atomic mutate e st x st' :
  MutatePolicyAndQueueSync mutate e st = (Err x, st') → st_db st' = st_db st.
Proof.
  unfold MutatePolicyAndQueueSync. apply bind_tx_err. intros [req r] e' st1. apply best_effort_ok.
Qed.

(** A mutation that writes routes, and whose sync is refused: the node is
    unknown to the tenant. *)
Lemma MutatePolicyAndQueueSync_atomic_witness :
  let st := mkSt delivering_db 0 in
  let mutate := _ ← UpdateTenantNodeRoutes "n1" "t1" ["10.9.0.0/16"];
                mret (demo_req <| rq_NodeID := "n2" |>) in
  ∃ x st', MutatePolicyAndQueueSync mutate (env_at 5) st = (Err x, st') ∧ st_db st' = st_db st.
Proof.
  intros st mutate. destruct (MutatePolicyAndQueueSync mutate (env_at 5) st) as [[r|x] st'] eqn:Hrun;
    [by vm_compute in Hrun|].
  exists x, st'. split; [done|].
  exact (MutatePolicyAndQueueSync_atomic mutate (env_at 5) st x st' Hrun).
Defined.
