(* ===== verification/PolicySnapshot.v ===== *)
(** * The policy snapshot an agent receives

    [internal/controller/grpc/policy_snapshot.go]: stored policy records are
    normalised, ordered and compiled to the messages of the agent protocol
    ([pkg/grpc/agentpb]). *)

From S2P Require Import Prelude GoStr Netip Records PolicyConflict.

Open Scope Z_scope.

(** ** Messages *)

(** [agentpb.ACLRule]; the numbers are [uint32]. *)
Record ACLRule := mkACLRule {
  pa_Id : string;
  pa_SrcNet : string;
  pa_DstNet : string;
  pa_Protocol : Z;
  pa_MinPort : Z;
  pa_MaxPort : Z;
  pa_Action : string;
  pa_Direction : string;
  pa_Ports : string;
  pa_SrcGroupId : string;
  pa_DstGroupId : string;
  pa_Priority : Z;
}.
(** [agentpb.QoSRule]; [BandwidthMbps], [RateBps] and [BurstBytes] are
    [uint64], the other numbers [uint32]. *)
Record QoSRule := mkQoSRule {
  pq_Id : string;
  pq_SrcIp : string;
  pq_DstIp : string;
  pq_SrcPort : Z;
  pq_DstPort : Z;
  pq_Protocol : Z;
  pq_BandwidthMbps : Z;
  pq_Direction : string;
  pq_RateBps : Z;
  pq_BurstBytes : Z;
  pq_Priority : Z;
  pq_Mode : string;
  pq_GroupId : string;
}.
Record BlacklistRule := mkBlacklistRule {
  pb_Scope : string;
  pb_Cidr : string;
  pb_Port : Z;
}.
Record IPGroup := mkIPGroupMsg {
  pg_Id : string;
  pg_Name : string;
  pg_Cidrs : list string;
  pg_Kind : string;
}.
Record agentPolicySnapshot := mkSnapshot {
  IPGroups : list IPGroup;
  ACLRules : list ACLRule;
  QoSRules : list QoSRule;
}.
#[export] Instance eta_QoSRule : Eta QoSRule := λ r,
  mkQoSRule (pq_Id r) (pq_SrcIp r) (pq_DstIp r) (pq_SrcPort r) (pq_DstPort r) (pq_Protocol r)
    (pq_BandwidthMbps r) (pq_Direction r) (pq_RateBps r) (pq_BurstBytes r) (pq_Priority r)
    (pq_Mode r) (pq_GroupId r).
#[export] Instance ACLRule_eq_dec : EqDecision ACLRule.
Proof. solve_decision. Defined.
#[export] Instance QoSRule_eq_dec : EqDecision QoSRule.
Proof. solve_decision. Defined.
#[export] Instance IPGroup_eq_dec : EqDecision IPGroup.
Proof. solve_decision. Defined.

(** ** Normalisation *)

Definition cidrOrAny (value : string) : string :=
  let trimmed := TrimSpace value in
  if one_of trimmed [""; "0"; "0.0.0.0/0"; "::/0"] then "any" else trimmed.

Definition aclNetFallback (cidr groupID : string) : string :=
  if negb (TrimSpace groupID =? "")%string then TrimSpace cidr else cidrOrAny cidr.

Definition normalizeACLAction (action : string) : result string :=
  let a := ToLower (TrimSpace action) in
  if one_of a [""; "accept"; "pass"; "allow"] then Ok "allow"
  else if one_of a ["drop"; "deny"] then Ok "deny"
  else Err (ErrorString ("invalid ACL action " +:+ Quote action)).

Definition normalizePolicyDirection (direction fallback : string) : result string :=
  let value := ToLower (TrimSpace direction) in
  let value := if (value =? "")%string then fallback else value in
  if one_of value ["ingress"; "in"] then Ok "ingress"
  else if one_of value ["egress"; "out"] then Ok "egress"
  else if one_of value ["both"; "all"] then Ok "both"
  else Err (ErrorString ("invalid policy direction " +:+ Quote direction)).

Definition normalizeACLPorts (ports : string) (minPort maxPort : Z) : result string :=
  let trimmed := TrimSpace ports in
  if negb (trimmed =? "")%string then
    if EqualFold trimmed "all" then Ok "" else Ok trimmed
  else if (minPort =? 0) && ((maxPort =? 0) || (maxPort =? MaxUint16)) then Ok ""
  else if (MaxUint16 <? minPort) || (MaxUint16 <? maxPort)
  then Err (ErrorString "ACL port range must be within 0..65535")
  else
    let maxPort := if maxPort =? 0 then minPort else maxPort in
    if maxPort <? minPort
    then Err (ErrorString ("invalid ACL port range " +:+ Itoa minPort +:+ "-" +:+ Itoa maxPort))
    else if minPort =? maxPort then Ok (Itoa minPort)
    else Ok (Itoa minPort +:+ "-" +:+ Itoa maxPort).

Definition inferredQoSDirection (rule : QoSRule) : string :=
  if negb (TrimSpace (pq_SrcIp rule) =? "")%string && (TrimSpace (pq_DstIp rule) =? "")%string
  then "ingress" else "egress".

Definition qosGroupForDirection (rule : QoSRule) (direction : string) : string :=
  if (direction =? "ingress")%string then cidrOrAny (pq_SrcIp rule)
  else let dst := cidrOrAny (pq_DstIp rule) in
       if (dst =? "any")%string then cidrOrAny (pq_SrcIp rule) else dst.

Definition qosCIDRFallbackForDirection (rule : QoSRule) (direction : string) : string :=
  if (direction =? "ingress")%string then TrimSpace (pq_SrcIp rule)
  else let dst := TrimSpace (pq_DstIp rule) in
       if negb (dst =? "")%string then dst else TrimSpace (pq_SrcIp rule).

Definition normalizeQoSMode (mode : string) : result string :=
  let m := ToLower (TrimSpace mode) in
  if (m =? "")%string then Ok "auto"
  else if one_of m ["auto"; "policing"; "shaping"] then Ok m
  else Err (ErrorString ("invalid QoS mode " +:+ Quote mode)).

Definition defaultQoSBurst (rateBps : Z) : Z :=
  let burst := rateBps / 8 / 10 in
  if burst <? 1500 then 1500 else burst.

(** ** Compilation of one rule *)

(** The protocols a rule with the given port filter is compiled for. *)
Definition acl_protocols (ports : string) (protocol : Z) : result (list Z) :=
  if negb (ports =? "")%string then
    if protocol =? 0 then Ok [6; 17]
    else if (protocol =? 6) || (protocol =? 17) then Ok [protocol]
    else Err (ErrorString ("ACL port filters require tcp or udp protocol, got " +:+ Itoa protocol))
  else Ok [protocol].

Definition compileACLRule (rule : option ACLRule) : result (list ACLRule) :=
  match rule with
  | None => Ok []
  | Some rule =>
    action ← normalizeACLAction (pa_Action rule);
    direction ← normalizePolicyDirection (pa_Direction rule) "ingress";
    ports ← normalizeACLPorts (pa_Ports rule) (pa_MinPort rule) (pa_MaxPort rule);
    if MaxUint8 <? pa_Protocol rule
    then Err (ErrorString ("ACL protocol " +:+ Itoa (pa_Protocol rule) +:+ " exceeds uint8")) else
    protocols ← acl_protocols ports (pa_Protocol rule);
    Ok (map (λ proto,
      mkACLRule (pa_Id rule) (aclNetFallback (pa_SrcNet rule) (pa_SrcGroupId rule))
        (aclNetFallback (pa_DstNet rule) (pa_DstGroupId rule)) proto 0 0 action direction
        ports (pa_SrcGroupId rule) (pa_DstGroupId rule) (pa_Priority rule)) protocols)
  end.

Definition compileBlacklistRule (rule : option BlacklistRule) : result (list ACLRule) :=
  match rule with
  | None => Ok []
  | Some rule =>
    let deny src dst proto ports :=
      mkACLRule "" src dst proto 0 0 "deny" "ingress" ports "" "" 0 in
    let scope := ToLower (TrimSpace (pb_Scope rule)) in
    if (scope =? "src")%string then
      if (TrimSpace (pb_Cidr rule) =? "")%string
      then Err (ErrorString "source blacklist rule requires cidr")
      else Ok [deny (cidrOrAny (pb_Cidr rule)) "any" 0 ""]
    else if (scope =? "dst")%string then
      if (TrimSpace (pb_Cidr rule) =? "")%string
      then Err (ErrorString "destination blacklist rule requires cidr")
      else Ok [deny "any" (cidrOrAny (pb_Cidr rule)) 0 ""]
    else if (scope =? "ports")%string then
      if (pb_Port rule =? 0) || (MaxUint16 <? pb_Port rule)
      then Err (ErrorString "port blacklist rule requires port in 1..65535")
      else let port := Itoa (pb_Port rule) in Ok [deny "any" "any" 6 port; deny "any" "any" 17 port]
    else Err (ErrorString ("unsupported blacklist scope " +:+ Quote (pb_Scope rule)))
  end.

(** The product of rate and a million is taken in 64 bits. *)
Definition compileQoSRule (rule : option QoSRule) : result (option QoSRule) :=
  match rule with
  | None => Ok None
  | Some rule =>
    direction ← normalizePolicyDirection (pq_Direction rule) (inferredQoSDirection rule);
    let group := if negb (TrimSpace (pq_GroupId rule) =? "")%string
                 then qosCIDRFallbackForDirection rule direction
                 else qosGroupForDirection rule direction in
    let rateBps := if (pq_RateBps rule =? 0) && (0 <? pq_BandwidthMbps rule)
                   then uint64 (pq_BandwidthMbps rule * 1000000) else pq_RateBps rule in
    if rateBps =? 0 then Err (ErrorString "QoS rule requires rate_bps or bandwidth_mbps") else
    let priority := pq_Priority rule in
    if MaxUint8 <? priority
    then Err (ErrorString ("QoS priority " +:+ Itoa priority +:+ " exceeds uint8")) else
    mode ← normalizeQoSMode (pq_Mode rule);
    let burst := if pq_BurstBytes rule =? 0 then defaultQoSBurst rateBps else pq_BurstBytes rule in
    let compiled := mkQoSRule (pq_Id rule) "" "" 0 0 (pq_Protocol rule) (pq_BandwidthMbps rule)
      direction rateBps burst priority mode (pq_GroupId rule) in
    if (direction =? "ingress")%string then
      Ok (Some (if negb (group =? "")%string then compiled <| pq_SrcIp := group |> else compiled))
    else if one_of direction ["egress"; "both"] then
      Ok (Some (if negb (group =? "")%string then compiled <| pq_DstIp := group |> else compiled))
    else Err (ErrorString ("invalid normalized QoS direction " +:+ Quote direction))
  end.

(** ** Records to messages *)

Definition null_text (id : NullUUID) : string := default "" id.

Definition aclRecordToProto (record : ACLRuleRecord) : ACLRule :=
  let port := if 0 <? a_DstPort record then uint32 (a_DstPort record) else 0 in
  mkACLRule (a_ID record) (TrimSpace (a_SrcCIDR record)) (TrimSpace (a_DstCIDR record))
    (uint32 (a_Protocol record)) port port (a_Action record) (a_Direction record)
    (a_Ports record) (null_text (a_SrcGroupID record)) (null_text (a_DstGroupID record))
    (uint32 (a_Priority record)).

Definition qosRecordToProto (record : QoSRuleRecord) : QoSRule :=
  mkQoSRule (q_ID record) (TrimSpace (q_SrcCIDR record)) (TrimSpace (q_DstCIDR record))
    (uint32 (q_SrcPort record)) (uint32 (q_DstPort record)) (uint32 (q_Protocol record))
    (uint64 (q_BandwidthMbps record)) (q_Direction record) (q_RateBps record)
    (q_BurstBytes record) (uint32 (q_Priority record)) (q_Mode record)
    (null_text (q_GroupID record)).

(** The set of group identifiers a rule refers to. *)
Definition group_ref (id : NullUUID) : gset string :=
  match id with Some g => {[g]} | None => ∅ end.
Definition recordACLGroupRefs (record : option ACLRuleRecord) (refs : gset string) : gset string :=
  match record with
  | None => refs
  | Some r => refs ∪ group_ref (a_SrcGroupID r) ∪ group_ref (a_DstGroupID r)
  end.
Definition recordQoSGroupRefs (record : option QoSRuleRecord) (refs : gset string) : gset string :=
  match record with
  | None => refs
  | Some r => refs ∪ group_ref (q_GroupID r)
  end.

(** ** Order *)

(** nil last, then by priority, then by age. *)
Definition record_less {A} (priority created : A → Z) (left right : option A) : bool :=
  match left, right with
  | None, _ => false
  | Some _, None => true
  | Some l, Some r =>
    if negb (priority l =? priority r) then priority l <? priority r
    else created l <? created r
  end.
Definition sortedACLRuleRecords : list (option ACLRuleRecord) → list (option ACLRuleRecord) :=
  SliceStable (record_less a_Priority a_CreatedAt).
Definition sortedQoSRuleRecords : list (option QoSRuleRecord) → list (option QoSRuleRecord) :=
  SliceStable (record_less q_Priority q_CreatedAt).

Definition group_less (left right : option IPGroupRecord) : bool :=
  match left, right with
  | None, _ => false
  | Some _, None => true
  | Some l, Some r =>
    if negb (g_Kind l =? g_Kind r)%string then str_ltb (g_Kind l) (g_Kind r)
    else if negb (g_Name l =? g_Name r)%string then str_ltb (g_Name l) (g_Name r)
    else str_ltb (g_ID l) (g_ID r)
  end.
Definition sortedIPGroups : list (option IPGroupRecord) → list (option IPGroupRecord) :=
  SliceStable group_less.

(** ** Groups *)

Definition compileIPGroup (group : IPGroupRecord) : IPGroup :=
  let cidrs := filter (λ c, c ≠ "") ((λ m, TrimSpace (m_CIDR m)) <$> g_Members group) in
  mkIPGroupMsg (g_ID group) (g_Name group) (SliceStable str_ltb cidrs) (g_Kind group).

(** Go walks the map [refs] in no particular order: the error names the first
    missing group in the order of the set's elements. *)
Definition compileReferencedIPGroups (groups : list (option IPGroupRecord)) (refs : gset string)
    : result (list IPGroup) :=
  if decide (refs = ∅) then Ok [] else
  let used := omap (λ g : option IPGroupRecord, r ← g; if bool_decide (g_ID r ∈ refs) then Some r else None)
                (sortedIPGroups groups) in
  let seen : gset string := list_to_set (g_ID <$> used) in
  match elements (refs ∖ seen) with
  | groupID :: _ => Err (ErrorString ("policy references missing IP group " +:+ groupID))
  | [] => Ok (compileIPGroup <$> used)
  end.

(** ** The snapshot *)

(** [for _, rule := range l]: the compiled rules in order, or the first error. *)
Fixpoint compile_all {A B} (compile : A → result (list B)) (l : list A) : result (list B) :=
  match l with
  | [] => Ok []
  | x :: l' => ys ← compile x; zs ← compile_all compile l'; Ok (ys ++ zs)
  end.

(** [record == nil || !record.Enabled]. *)
Definition enabled {A} (flag : A → bool) (record : option A) : bool :=
  match record with Some r => flag r | None => false end.

Definition compileAgentPolicySnapshotWithGroups (groups : list (option IPGroupRecord))
    (aclRuleRecords : list (option ACLRuleRecord)) (qosRuleRecords : list (option QoSRuleRecord))
    (blacklistRules : list (option BlacklistRule)) : result agentPolicySnapshot :=
  let aclRecords := filter (λ r, enabled a_Enabled r = true) (sortedACLRuleRecords aclRuleRecords) in
  let qosRecords := filter (λ r, enabled q_Enabled r = true) (sortedQoSRuleRecords qosRuleRecords) in
  let referencedGroups :=
    foldl (flip recordQoSGroupRefs) (foldl (flip recordACLGroupRefs) ∅ aclRecords) qosRecords in
  acl ← compile_all (λ r, compileACLRule (aclRecordToProto <$> r)) aclRecords;
  blacklist ← compile_all compileBlacklistRule blacklistRules;
  qos ← compile_all (λ r, compiled ← compileQoSRule (qosRecordToProto <$> r);
                          Ok (option_list compiled)) qosRecords;
  ipGroups ← compileReferencedIPGroups groups referencedGroups;
  Ok (mkSnapshot ipGroups (acl ++ blacklist) qos).

(** ** Compiled rules are in normal form *)

Lemma cidrOrAny_idemp s : cidrOrAny (cidrOrAny s) = cidrOrAny s.
Proof.
  unfold cidrOrAny. destruct (one_of (TrimSpace s) _) eqn:H; [done|].
  by rewrite TrimSpace_idemp, H.
Qed.
Lemma aclNetFallback_idemp s g : aclNetFallback (aclNetFallback s g) g = aclNetFallback s g.
Proof.
  unfold aclNetFallback. case_match; [apply TrimSpace_idemp|apply cidrOrAny_idemp].
Qed.
Lemma normalizeACLAction_idemp a a' : normalizeACLAction a = Ok a' → normalizeACLAction a' = Ok a'.
Proof. unfold normalizeACLAction. repeat case_match; intros; by simplify_eq. Qed.
Lemma normalizePolicyDirection_idemp d f f' d' :
  normalizePolicyDirection d f = Ok d' → normalizePolicyDirection d' f' = Ok d'.
Proof. unfold normalizePolicyDirection. repeat case_match; intros; by simplify_eq. Qed.
Lemma normalizeQoSMode_idemp m m' : normalizeQoSMode m = Ok m' → normalizeQoSMode m' = Ok m'.
Proof.
  unfold normalizeQoSMode. destruct (String.eqb_spec (ToLower (TrimSpace m)) "") as [|Hne].
  { by intros [= <-]. }
  destruct (one_of _ _) eqn:H; [|done]. intros [= <-].
  rewrite TrimSpace_ToLower, TrimSpace_idemp, ToLower_idemp, H.
  by apply String.eqb_neq in Hne as ->.
Qed.

(** ** Ports *)

(** A port range as [normalizeACLPorts] prints it. *)
Definition port_text (minPort maxPort : Z) : string :=
  if minPort =? maxPort then Itoa minPort else Itoa minPort +:+ "-" +:+ Itoa maxPort.

Lemma digits_no (sep : ascii) n :
  0 ≤ n → ¬ is_digit sep → Forall (λ c, c ≠ sep) (String.list_ascii_of_string (Itoa n)).
Proof.
  intros Hn Hsep. eapply Forall_impl; [by apply Itoa_digits|]. intros c Hc ->. done.
Qed.
Lemma digits_nospace n :
  0 ≤ n → Forall (λ c, is_space c = false) (String.list_ascii_of_string (Itoa n)).
Proof.
  intros Hn. eapply Forall_impl; [by apply Itoa_digits|]. intros c Hc. by destruct (digit_other c Hc).
Qed.
Lemma not_digit_sep : ¬ is_digit ","%char ∧ ¬ is_digit ":"%char ∧ ¬ is_digit "-"%char.
Proof. unfold is_digit. split_and!; by intros []. Qed.

(** Properties of every byte of a printed range. *)
Lemma port_text_forall (P : ascii → Prop) minPort maxPort :
  0 ≤ minPort → 0 ≤ maxPort → (∀ c, is_digit c → P c) → P "-"%char →
  Forall P (String.list_ascii_of_string (port_text minPort maxPort)).
Proof.
  intros Hmin Hmax Hd Hdash. unfold port_text. case_match.
  - eapply Forall_impl; [by apply Itoa_digits|done].
  - rewrite !list_ascii_app. apply Forall_app. split.
    + eapply Forall_impl; [by apply Itoa_digits|done].
    + simpl. constructor; [done|]. eapply Forall_impl; [by apply Itoa_digits|done].
Qed.

Lemma port_text_head minPort maxPort :
  0 ≤ minPort → ∃ c l, String.list_ascii_of_string (port_text minPort maxPort) = c :: l ∧ is_digit c.
Proof.
  intros Hmin. destruct (Itoa_cons minPort Hmin) as (c & l & Hl & Hc). unfold port_text.
  case_match; [by eexists _, _|]. rewrite list_ascii_app, Hl. by eexists _, _.
Qed.

(** A printed range is a port filter: not blank and not [all]. *)
Lemma port_text_plain minPort maxPort :
  0 ≤ minPort → 0 ≤ maxPort →
  TrimSpace (port_text minPort maxPort) = port_text minPort maxPort ∧
  port_text minPort maxPort ≠ "" ∧ EqualFold (port_text minPort maxPort) "all" = false.
Proof.
  intros Hmin Hmax. destruct (port_text_head minPort maxPort Hmin) as (c & l & Hl & Hc). split_and!.
  - apply TrimSpace_nospace, port_text_forall; [lia|lia| |done].
    intros d Hd. by destruct (digit_other d Hd).
  - intros He. by rewrite He in Hl.
  - apply String.eqb_neq. intros He. apply (f_equal String.list_ascii_of_string) in He.
    rewrite ToLower_list, Hl in He. simpl in He. apply digit_other in Hc as (_&_&_&_&_&Hlow&Hne).
    rewrite Hlow in He. by simplify_eq.
Qed.

(** The cases of [normalizeACLPorts]. *)
Lemma normalizeACLPorts_cases ports minPort maxPort s :
  normalizeACLPorts ports minPort maxPort = Ok s →
  (s = TrimSpace ports ∧ s ≠ "" ∧ EqualFold s "all" = false) ∨ s = "" ∨
  ∃ m, s = port_text minPort m ∧ minPort ≤ m ≤ 65535 ∧
    m = (if maxPort =? 0 then minPort else maxPort) ∧
    (minPort =? 0) && (maxPort =? 0) = false.
Proof.
  unfold normalizeACLPorts. destruct (String.eqb_spec (TrimSpace ports) "") as [Ht|Ht]; simpl.
  2:{ destruct (EqualFold _ _) eqn:He; intros [= <-]; [by right; left|by left]. }
  destruct (_ && (_ || _)) eqn:Hany; [by intros [= <-]; right; left|].
  destruct ((_ <? minPort) || _) eqn:Hrange; [done|]. apply orb_false_iff in Hrange as [Hr1 Hr2].
  unfold MaxUint16 in *. bools. set (m := if maxPort =? 0 then minPort else maxPort).
  destruct (m <? minPort) eqn:Hlt; [done|]. bools. intros Heq. right; right. exists m. split_and!.
  - unfold port_text. case_match; by simplify_eq.
  - done.
  - unfold m. by destruct (maxPort =? 0).
  - done.
  - by apply andb_false_iff in Hany as [->|[-> _]%orb_false_iff]; rewrite ?andb_false_r.
Qed.

Lemma port_text_interval minPort maxPort :
  0 ≤ minPort ≤ maxPort → maxPort ≤ 65535 →
  policyPortInterval (port_text minPort maxPort) = Some (mkInterval minPort maxPort).
Proof.
  intros [Hmin Hle] Hmax. destruct not_digit_sep as (Hcomma & Hcolon & Hdash).
  destruct (port_text_plain minPort maxPort) as (Htrim & Hne0 & _); [lia|lia|].
  unfold policyPortInterval. rewrite Htrim.
  assert (∀ z, 0 ≤ z ≤ 65535 → clampPort z = z) as Hclamp.
  { intros z [Hz0 Hz1]. unfold clampPort. apply Z.ltb_ge in Hz0, Hz1. by rewrite Hz0, Hz1. }
  apply String.eqb_neq in Hne0 as ->.
  assert (Cut (port_text minPort maxPort) ":" = None) as ->.
  { unfold Cut. rewrite cut_char_none; [done|].
    apply port_text_forall; [lia|lia| |done]. intros d Hd ->. done. }
  unfold port_text. destruct (Z.eqb_spec minPort maxPort) as [<-|Hne].
  - unfold Cut. rewrite cut_char_none by (by apply digits_no).
    rewrite Atoi_Itoa by lia. by rewrite Hclamp by lia.
  - unfold Cut. rewrite !list_ascii_app. simpl.
    rewrite cut_char_at by (by apply digits_no). rewrite !string_list_string.
    rewrite !TrimSpace_nospace by (apply digits_nospace; lia).
    rewrite (Atoi_Itoa minPort) by lia. rewrite (Atoi_Itoa maxPort) by lia.
    apply Z.leb_le in Hle as Hle'. rewrite Hle'. by rewrite !Hclamp by lia.
Qed.

(** The two components read port filters alike: the text the snapshot
    gives the agent for a rule with a port range and no port list is read by the
    conflict detector as exactly that range, the single port when no maximum
    is given, and every port when the text is empty. *)
Theorem normalizeACLPorts_roundtrip minPort maxPort s :
  0 ≤ minPort → 0 ≤ maxPort → normalizeACLPorts "" minPort maxPort = Ok s →
  policyPortIntervals s 0 =
    [if (minPort =? 0) && (maxPort =? 0) then mkInterval 0 65535
     else mkInterval minPort (if maxPort =? 0 then minPort else maxPort)].
Proof.
  intros Hmin Hmax Hs.
  destruct (normalizeACLPorts_cases _ _ _ _ Hs) as [(-> & Hne & _)|[->|(m & -> & Hm & Heq & ->)]].
  - done.
  - revert Hs. unfold normalizeACLPorts. simpl. destruct (_ && (_ || _)) eqn:Hany.
    + intros _. apply andb_true_iff in Hany as [Hz Hor]. rewrite Hz. apply Z.eqb_eq in Hz as ->.
      apply orb_true_iff in Hor as [Hm|Hm]; rewrite ?Hm; [done|]. by apply Z.eqb_eq in Hm as ->.
    + repeat case_match; try done; intros [= Hs].
      * destruct (Itoa_cons minPort Hmin) as (c & l & Hl & _). by rewrite Hs in Hl.
      * destruct (Itoa_cons minPort Hmin) as (c & l & Hl & _).
        apply (f_equal String.list_ascii_of_string) in Hs. rewrite list_ascii_app, Hl in Hs. done.
      * destruct (Itoa_cons minPort Hmin) as (c & l & Hl & _). by rewrite Hs in Hl.
      * destruct (Itoa_cons minPort Hmin) as (c & l & Hl & _).
        apply (f_equal String.list_ascii_of_string) in Hs. rewrite list_ascii_app, Hl in Hs. done.
  - destruct (port_text_plain minPort m) as (Htrim & Hne & Hall); [lia|lia|].
    unfold policyPortIntervals. apply String.eqb_neq in Hne. rewrite Htrim, Hne, Hall. simpl.
    unfold Split. rewrite split_char_none.
    2:{ apply port_text_forall; [lia|lia| |done]. intros d Hd ->. by apply not_digit_sep. }
    simpl. rewrite string_list_string, port_text_interval by lia. by rewrite <- Heq.
Qed.

Lemma normalizeACLPorts_roundtrip_witness :
  normalizeACLPorts "" 80 443 = Ok "80-443" ∧ policyPortIntervals "80-443" 0 = [mkInterval 80 443].
Proof.
  assert (normalizeACLPorts "" 80 443 = Ok "80-443") as Hn by by vm_compute. split; [exact Hn|].
  exact (normalizeACLPorts_roundtrip 80 443 "80-443" ltac:(lia) ltac:(lia) Hn).
Defined.
