(* ===== verification/PolicySnapshotSpec.v ===== *)
(** * What the policy snapshot guarantees

    Properties of [PolicySnapshot]: compiled rules are in normal form, the
    rules of a snapshot are the enabled ones in order, and its groups are
    exactly those its rules refer to. *)

From S2P Require Import Prelude GoStr Netip Records PolicyConflict PolicySnapshot.

Open Scope Z_scope.

(** ** Normal forms *)

Lemma normalizeACLPorts_idemp p lo hi s :
  0 ≤ lo → 0 ≤ hi → normalizeACLPorts p lo hi = Ok s → normalizeACLPorts s 0 0 = Ok s.
Proof.
  intros Hlo Hhi Hs. assert (s = "" ∨ TrimSpace s = s ∧ s ≠ "" ∧ EqualFold s "all" = false) as Hcase.
  { destruct (normalizeACLPorts_cases _ _ _ _ Hs) as [(-> & ? & ?)|[->|(m & -> & Hm & _)]].
    - right. by rewrite TrimSpace_idemp.
    - by left.
    - right. apply port_text_plain; lia. }
  destruct Hcase as [->|(Ht & Hne & Hall)]; [done|].
  unfold normalizeACLPorts. apply String.eqb_neq in Hne. by rewrite Ht, Hne, Hall.
Qed.

Lemma acl_protocols_idemp ports protocol l proto :
  acl_protocols ports protocol = Ok l → proto ∈ l → acl_protocols ports proto = Ok [proto].
Proof.
  unfold acl_protocols. destruct (ports =? "")%string; simpl.
  { intros [= <-] ->%list_elem_of_singleton. done. }
  destruct (protocol =? 0).
  { intros [= <-] [->|[->|[]%elem_of_nil]%elem_of_cons]%elem_of_cons; done. }
  destruct ((protocol =? 6) || (protocol =? 17)) eqn:H; [|done].
  intros [= <-] ->%list_elem_of_singleton. apply orb_true_iff in H as [H|H]; bools; by subst.
Qed.

Lemma acl_protocols_range ports protocol l proto :
  acl_protocols ports protocol = Ok l → proto ∈ l → protocol ≤ 255 → proto ≤ 255.
Proof.
  unfold acl_protocols. destruct (negb _); [|intros [= <-] ->%list_elem_of_singleton; done].
  destruct (protocol =? 0).
  { intros [= <-] [->|[->|[]%elem_of_nil]%elem_of_cons]%elem_of_cons; lia. }
  destruct (_ || _); [|done]. by intros [= <-] ->%list_elem_of_singleton.
Qed.

(** The steps of a successful compilation of an ACL rule. *)
Lemma compileACLRule_ok rule l :
  compileACLRule (Some rule) = Ok l →
  ∃ action direction ports protocols,
    normalizeACLAction (pa_Action rule) = Ok action ∧
    normalizePolicyDirection (pa_Direction rule) "ingress" = Ok direction ∧
    normalizeACLPorts (pa_Ports rule) (pa_MinPort rule) (pa_MaxPort rule) = Ok ports ∧
    pa_Protocol rule ≤ 255 ∧ acl_protocols ports (pa_Protocol rule) = Ok protocols ∧
    l = map (λ proto,
      mkACLRule (pa_Id rule) (aclNetFallback (pa_SrcNet rule) (pa_SrcGroupId rule))
        (aclNetFallback (pa_DstNet rule) (pa_DstGroupId rule)) proto 0 0 action direction
        ports (pa_SrcGroupId rule) (pa_DstGroupId rule) (pa_Priority rule)) protocols.
Proof.
  unfold compileACLRule, mbind, result_bind.
  destruct (normalizeACLAction _) as [action|] eqn:Ha; [|done].
  destruct (normalizePolicyDirection _ _) as [direction|] eqn:Hd; [|done].
  destruct (normalizeACLPorts _ _ _) as [ports|] eqn:Hp; [|done].
  destruct (MaxUint8 <? _) eqn:Hmax; [done|].
  destruct (acl_protocols _ _) as [protocols|] eqn:Hpr; [|done]. intros [= <-].
  unfold MaxUint8 in Hmax. bools. by eexists _, _, _, _.
Qed.

(** Compiling is a normalisation: every ACL rule of the compiled form
    compiles to itself, so a snapshot that is compiled again is unchanged. *)
Theorem compileACLRule_idempotent rule l r :
  0 ≤ pa_MinPort rule → 0 ≤ pa_MaxPort rule →
  compileACLRule (Some rule) = Ok l → r ∈ l → compileACLRule (Some r) = Ok [r].
Proof.
  intros Hmin Hmax Hc Hr.
  apply compileACLRule_ok in Hc as (a & d & p & ps & Ha & Hd & Hp & Hmp & Hps & ->).
  apply list_elem_of_fmap in Hr as (proto & -> & Hin). unfold compileACLRule. simpl.
  rewrite (normalizeACLAction_idemp _ _ Ha), (normalizePolicyDirection_idemp _ _ _ _ Hd). simpl.
  rewrite (normalizeACLPorts_idemp _ _ _ _ Hmin Hmax Hp). simpl.
  assert ((MaxUint8 <? proto) = false) as ->
    by (unfold MaxUint8; apply Z.ltb_ge; by eapply acl_protocols_range).
  rewrite (acl_protocols_idemp _ _ _ _ Hps Hin). simpl. by rewrite !aclNetFallback_idemp.
Qed.

Definition demo_acl : ACLRule :=
  mkACLRule "r1" " 10.0.0.0/8 " "0.0.0.0/0" 0 80 443 "DROP" "In" "" "" "" 7.
Lemma compileACLRule_idempotent_witness :
  ∃ l, compileACLRule (Some demo_acl) = Ok l ∧ length l = 2%nat ∧
    ∀ r, r ∈ l → compileACLRule (Some r) = Ok [r].
Proof.
  destruct (compileACLRule (Some demo_acl)) as [l|x] eqn:Hc; [|by vm_compute in Hc].
  exists l. split; [done|]. split; [by vm_compute in Hc; simplify_eq|].
  intros r Hr. exact (compileACLRule_idempotent demo_acl l r ltac:(done) ltac:(done) Hc Hr).
Defined.

(** ** QoS *)

Lemma defaultQoSBurst_max rate : defaultQoSBurst rate = Z.max 1500 (rate / 80).
Proof.
  unfold defaultQoSBurst. rewrite Z.div_div by lia. change (8 * 10) with 80.
  destruct (Z.ltb_spec (rate / 80) 1500); lia.
Qed.

Lemma normalizePolicyDirection_cases d f d' :
  normalizePolicyDirection d f = Ok d' → d' = "ingress" ∨ d' = "egress" ∨ d' = "both".
Proof. unfold normalizePolicyDirection. repeat case_match; intros; simplify_eq; tauto. Qed.

(** The address of a compiled rule: where it stands, and what selects it again. *)
Definition qos_group (rule : QoSRule) (direction : string) : string :=
  if negb (TrimSpace (pq_GroupId rule) =? "")%string
  then qosCIDRFallbackForDirection rule direction else qosGroupForDirection rule direction.

Definition qos_rate (rule : QoSRule) : Z :=
  if (pq_RateBps rule =? 0) && (0 <? pq_BandwidthMbps rule)
  then uint64 (pq_BandwidthMbps rule * 1000000) else pq_RateBps rule.
Definition compiled_qos (rule : QoSRule) (direction mode : string) : QoSRule :=
  mkQoSRule (pq_Id rule)
    (if (direction =? "ingress")%string then qos_group rule direction else "")
    (if (direction =? "ingress")%string then "" else qos_group rule direction)
    0 0 (pq_Protocol rule) (pq_BandwidthMbps rule) direction (qos_rate rule)
    (if pq_BurstBytes rule =? 0 then defaultQoSBurst (qos_rate rule) else pq_BurstBytes rule)
    (pq_Priority rule) mode (pq_GroupId rule).

(** A rule compiles exactly when its direction and mode are known, it has a
    rate, and its priority fits a byte. *)
Lemma compileQoSRule_iff rule r :
  compileQoSRule (Some rule) = Ok (Some r) ↔
  ∃ direction mode,
    normalizePolicyDirection (pq_Direction rule) (inferredQoSDirection rule) = Ok direction ∧
    normalizeQoSMode (pq_Mode rule) = Ok mode ∧ qos_rate rule ≠ 0 ∧ pq_Priority rule ≤ 255 ∧
    r = compiled_qos rule direction mode.
Proof.
  unfold compileQoSRule, mbind, result_bind.
  destruct (normalizePolicyDirection _ _) as [d|] eqn:Hd; [|split; [done|by intros (?&?&?&_)]].
  cbv zeta. fold (qos_rate rule). fold (qos_group rule d).
  destruct (Z.eqb_spec (qos_rate rule) 0) as [|Hrate]; [split; [done|by intros (?&?&?&?&?&_)]|].
  destruct (Z.ltb_spec MaxUint8 (pq_Priority rule)) as [Hp|Hp]; unfold MaxUint8 in Hp.
  { split; [done|]. intros (?&?&?&?&?&?&_). lia. }
  destruct (normalizeQoSMode _) as [m|] eqn:Hm; [|split; [done|by intros (?&?&?&?&_)]].
  unfold compiled_qos.
  destruct (normalizePolicyDirection_cases _ _ _ Hd) as [->|[-> | ->]]; simpl;
    match goal with |- context [(qos_group rule ?d =? "")%string] =>
      destruct (String.eqb_spec (qos_group rule d) "") as [Hg|Hg] end; simpl; (split;
    [intros [= <-]; eexists _, _; split_and!; try done; by rewrite ?Hg
    |intros (d' & m' & [= <-] & [= <-] & _ & _ & ->); simpl; by rewrite ?Hg]).
Qed.

Lemma compileQoSRule_some rule : compileQoSRule (Some rule) ≠ Ok None.
Proof. unfold compileQoSRule, mbind, result_bind. by repeat case_match. Qed.

(** Selecting the address of a compiled rule again finds the same address. *)
Lemma qos_group_idemp rule direction r :
  direction = "ingress" ∨ direction = "egress" ∨ direction = "both" →
  pq_GroupId r = pq_GroupId rule →
  pq_SrcIp r = (if (direction =? "ingress")%string then qos_group rule direction else "") →
  pq_DstIp r = (if (direction =? "ingress")%string then "" else qos_group rule direction) →
  qos_group r direction = qos_group rule direction.
Proof.
  intros Hd Hgid Hsrc Hdst. unfold qos_group at 1. rewrite Hgid.
  unfold qosCIDRFallbackForDirection, qosGroupForDirection. rewrite Hsrc, Hdst.
  unfold qos_group, qosCIDRFallbackForDirection, qosGroupForDirection.
  destruct (negb _); destruct Hd as [->|[-> | ->]]; simpl;
    rewrite ?TrimSpace_idemp, ?cidrOrAny_idemp; try done.
  - destruct (String.eqb_spec (TrimSpace (pq_DstIp rule)) "") as [He|He]; simpl.
    + rewrite TrimSpace_idemp. by destruct (String.eqb_spec (TrimSpace (pq_SrcIp rule)) "") as [->|].
    + rewrite TrimSpace_idemp. by apply String.eqb_neq in He as ->.
  - destruct (String.eqb_spec (TrimSpace (pq_DstIp rule)) "") as [He|He]; simpl.
    + rewrite TrimSpace_idemp. by destruct (String.eqb_spec (TrimSpace (pq_SrcIp rule)) "") as [->|].
    + rewrite TrimSpace_idemp. by apply String.eqb_neq in He as ->.
  - destruct (String.eqb_spec (cidrOrAny (pq_DstIp rule)) "any") as [He|He]; rewrite cidrOrAny_idemp.
    + by destruct (String.eqb_spec (cidrOrAny (pq_SrcIp rule)) "any") as [->|].
    + by apply String.eqb_neq in He as ->.
  - destruct (String.eqb_spec (cidrOrAny (pq_DstIp rule)) "any") as [He|He]; rewrite cidrOrAny_idemp.
    + by destruct (String.eqb_spec (cidrOrAny (pq_SrcIp rule)) "any") as [->|].
    + by apply String.eqb_neq in He as ->.
Qed.

(** A compiled QoS rule is in normal form: it has a direction, a mode, a
    rate and a burst of its own, at least 1500 bytes when the burst was left
    to the default and an eightieth of the rate when that is larger, and
    compiling it again changes nothing. *)
Theorem compileQoSRule_normal rule r :
  compileQoSRule (Some rule) = Ok (Some r) →
  compileQoSRule (Some r) = Ok (Some r) ∧
  pq_Direction r ∈ ["ingress"; "egress"; "both"] ∧ pq_Mode r ∈ ["auto"; "policing"; "shaping"] ∧
  pq_RateBps r ≠ 0 ∧ pq_BurstBytes r ≠ 0 ∧ pq_Priority r ≤ 255 ∧
  (pq_BurstBytes rule = 0 → pq_BurstBytes r = Z.max 1500 (pq_RateBps r / 80)).
Proof.
  intros Hc. apply compileQoSRule_iff in Hc as (d & m & Hd & Hm & Hrate & Hp & ->).
  set (r := compiled_qos rule d m). pose proof (normalizePolicyDirection_cases _ _ _ Hd) as Hcases.
  assert (pq_BurstBytes r ≠ 0) as Hburst.
  { simpl. destruct (Z.eqb_spec (pq_BurstBytes rule) 0); [|done].
    rewrite defaultQoSBurst_max. lia. }
  assert (qos_rate r = qos_rate rule) as Hrate'.
  { unfold qos_rate at 1. simpl. by apply Z.eqb_neq in Hrate as ->. }
  split_and!; try done.
  - apply compileQoSRule_iff. exists d, m. rewrite Hrate'. split_and!; try done.
    + by apply (normalizePolicyDirection_idemp _ _ _ _ Hd).
    + by apply (normalizeQoSMode_idemp _ _ Hm).
    + unfold compiled_qos. rewrite Hrate', (qos_group_idemp rule d r) by done.
      apply Z.eqb_neq in Hburst. by rewrite Hburst.
  - destruct Hcases as [->|[-> | ->]]; set_solver.
  - revert Hm. unfold normalizeQoSMode. repeat case_match; intros [= <-]; [left|].
    by apply one_of_spec.
  - intros Hb. simpl. rewrite Hb. apply defaultQoSBurst_max.
Qed.

Definition demo_qos : QoSRule :=
  mkQoSRule "q1" "10.0.0.0/8" "" 0 0 6 100 "" 0 0 9 " Shaping " "".
Lemma compileQoSRule_normal_witness :
  ∃ r, compileQoSRule (Some demo_qos) = Ok (Some r) ∧ compileQoSRule (Some r) = Ok (Some r) ∧
    pq_RateBps r ≠ 0.
Proof.
  destruct (compileQoSRule (Some demo_qos)) as [[r|]|x] eqn:Hc; [|by vm_compute in Hc..].
  exists r. split; [done|].
  destruct (compileQoSRule_normal demo_qos r Hc) as (Hi & _ & _ & Hr & _). done.
Defined.

(** ** The snapshot *)

(** A group an enabled rule refers to. *)
Definition refers (acls : list (option ACLRuleRecord)) (qoss : list (option QoSRuleRecord))
    (g : string) : Prop :=
  (∃ r, Some r ∈ acls ∧ a_Enabled r = true ∧ (a_SrcGroupID r = Some g ∨ a_DstGroupID r = Some g)) ∨
  (∃ r, Some r ∈ qoss ∧ q_Enabled r = true ∧ q_GroupID r = Some g).

Lemma group_ref_elem id g : g ∈ group_ref id ↔ id = Some g.
Proof. destruct id; simpl; set_solver. Qed.

Lemma acl_refs_elem l refs g :
  g ∈ foldl (flip recordACLGroupRefs) refs l ↔
  g ∈ refs ∨ ∃ r, Some r ∈ l ∧ (a_SrcGroupID r = Some g ∨ a_DstGroupID r = Some g).
Proof.
  revert refs. induction l as [|x l IH]; intros refs; simpl; [set_solver|]. rewrite IH.
  destruct x as [r|]; simpl; [rewrite !elem_of_union, !group_ref_elem|]; set_solver.
Qed.
Lemma qos_refs_elem l refs g :
  g ∈ foldl (flip recordQoSGroupRefs) refs l ↔
  g ∈ refs ∨ ∃ r, Some r ∈ l ∧ q_GroupID r = Some g.
Proof.
  revert refs. induction l as [|x l IH]; intros refs; simpl; [set_solver|]. rewrite IH.
  destruct x as [r|]; simpl; [rewrite !elem_of_union, !group_ref_elem|]; set_solver.
Qed.

(** The references collected are those of the enabled rules. *)
Lemma snapshot_refs acls qoss g :
  g ∈ foldl (flip recordQoSGroupRefs)
        (foldl (flip recordACLGroupRefs) ∅
           (filter (λ r, enabled a_Enabled r = true) (sortedACLRuleRecords acls)))
        (filter (λ r, enabled q_Enabled r = true) (sortedQoSRuleRecords qoss)) ↔
  refers acls qoss g.
Proof.
  rewrite qos_refs_elem, acl_refs_elem. unfold refers, sortedACLRuleRecords, sortedQoSRuleRecords.
  setoid_rewrite list_elem_of_filter. setoid_rewrite SliceStable_Permutation. simpl. set_solver.
Qed.

(** The groups compiled for a set of references. *)
Lemma compileReferencedIPGroups_ok groups refs l :
  compileReferencedIPGroups groups refs = Ok l →
  (∀ g, g ∈ pg_Id <$> l ↔ g ∈ refs) ∧
  (∀ m, m ∈ l → ∃ r, Some r ∈ groups ∧ m = compileIPGroup r).
Proof.
  unfold compileReferencedIPGroups. case_decide as Hempty.
  { intros [= <-]. subst. split; [intros g; simpl; set_solver|set_solver]. }
  set (used := omap _ _). destruct (elements _) as [|x xs] eqn:He; [|done]. intros [= <-].
  assert (∀ r, r ∈ used ↔ Some r ∈ groups ∧ g_ID r ∈ refs) as Hused.
  { intros r. unfold used. rewrite list_elem_of_omap. unfold sortedIPGroups.
    setoid_rewrite SliceStable_Permutation. split.
    - intros ([r'|] & Hin & Hr); simpl in Hr; [|done]. case_bool_decide; by simplify_eq.
    - intros [Hin Hid]. exists (Some r). simpl. by rewrite bool_decide_eq_true_2. }
  assert (∀ g, g ∈ refs → g ∈ g_ID <$> used) as Hseen.
  { intros g Hg. destruct (decide (g ∈ g_ID <$> used)) as [|Hn]; [done|].
    assert (g ∈ elements (refs ∖ list_to_set (g_ID <$> used))) as Hin
      by (apply elem_of_elements; set_solver).
    rewrite He in Hin. by apply elem_of_nil in Hin. }
  split.
  - intros g. rewrite <- list_fmap_compose. split.
    + intros (r & -> & Hr)%list_elem_of_fmap. by apply Hused in Hr as [_ ?].
    + intros Hg. apply Hseen in Hg as (r & -> & Hr)%list_elem_of_fmap.
      by apply (list_elem_of_fmap_2 (pg_Id ∘ compileIPGroup)).
  - intros m (r & -> & Hr)%list_elem_of_fmap. apply Hused in Hr as [? _]. by exists r.
Qed.

Lemma compileReferencedIPGroups_exact groups refs :
  is_ok (compileReferencedIPGroups groups refs) = true ↔
  ∀ g, g ∈ refs → ∃ r, Some r ∈ groups ∧ g_ID r = g.
Proof.
  split.
  - destruct (compileReferencedIPGroups groups refs) as [l|] eqn:Hc; [|done].
    apply compileReferencedIPGroups_ok in Hc as [Hids Hsrc]. intros _ g Hg.
    apply Hids, list_elem_of_fmap in Hg as (m & -> & Hm). apply Hsrc in Hm as (r & Hr & ->). eauto.
  - intros Hall. unfold compileReferencedIPGroups. case_decide; [done|].
    set (used := omap _ _). destruct (elements _) as [|x xs] eqn:He; [done|]. exfalso.
    assert (x ∈ refs ∖ list_to_set (g_ID <$> used)) as Hx
      by (apply elem_of_elements; rewrite He; left).
    apply elem_of_difference in Hx as [Hx Hn]. apply Hn, elem_of_list_to_set.
    apply Hall in Hx as Hy. destruct Hy as (r & Hr & <-). apply list_elem_of_fmap_2.
    unfold used. apply list_elem_of_omap. exists (Some r). unfold sortedIPGroups.
    rewrite SliceStable_Permutation. split; [done|]. simpl. by rewrite bool_decide_eq_true_2.
Qed.

Lemma compile_all_iff {A B} (f : A → result (list B)) l ys :
  compile_all f l = Ok ys ↔ ∃ parts, Forall2 (λ x p, f x = Ok p) l parts ∧ ys = concat parts.
Proof.
  revert ys. induction l as [|x l IH]; intros ys; simpl.
  - split; [intros [= <-]; by exists []|]. intros (parts & Hp & ->). by inversion Hp.
  - unfold mbind, result_bind. split.
    + destruct (f x) as [p|] eqn:Hx; [|done]. destruct (compile_all f l) as [zs|]; [|done].
      intros [= <-]. destruct (proj1 (IH zs) eq_refl) as (parts & Hp & ->).
      exists (p :: parts). split; [by constructor|done].
    + intros (parts & Hp & ->). inversion Hp as [|? p ? ps Hx Hps]; subst. rewrite Hx.
      by rewrite (proj2 (IH (concat ps))) by eauto.
Qed.
Lemma compile_all_ok {A B} (f : A → result (list B)) l :
  is_ok (compile_all f l) = true ↔ ∀ x, x ∈ l → is_ok (f x) = true.
Proof.
  induction l as [|x l IH]; simpl; [split; [by intros _ ? ?%elem_of_nil|done]|].
  unfold mbind, result_bind. split.
  - destruct (f x) as [p|] eqn:Hx; [|done]. destruct (compile_all f l); [|done].
    intros _ y [->|Hy]%elem_of_cons; [by rewrite Hx|]. by apply IH.
  - intros Hall. specialize (Hall x) as Hx. destruct (f x); [|by apply Hx; left].
    destruct (compile_all f l); [done|]. apply IH. intros y Hy. apply Hall. by right.
Qed.

(** The four parts of a successful compilation. *)
Lemma snapshot_ok groups acls qoss bls snap :
  compileAgentPolicySnapshotWithGroups groups acls qoss bls = Ok snap →
  ∃ acl bl refs,
    compile_all (λ r, compileACLRule (aclRecordToProto <$> r))
      (filter (λ r, enabled a_Enabled r = true) (sortedACLRuleRecords acls)) = Ok acl ∧
    compile_all compileBlacklistRule bls = Ok bl ∧ ACLRules snap = acl ++ bl ∧
    compile_all (λ r, compiled ← compileQoSRule (qosRecordToProto <$> r);
                      Ok (option_list compiled))
      (filter (λ r, enabled q_Enabled r = true) (sortedQoSRuleRecords qoss)) = Ok (QoSRules snap) ∧
    compileReferencedIPGroups groups refs = Ok (IPGroups snap) ∧
    (∀ g, g ∈ refs ↔ refers acls qoss g).
Proof.
  unfold compileAgentPolicySnapshotWithGroups. cbv zeta. set (refs := foldl _ _ _).
  assert (∀ g, g ∈ refs ↔ refers acls qoss g) as Hrefs by apply snapshot_refs. clearbody refs.
  unfold mbind at 1, result_bind at 1.
  destruct (compile_all _ (filter _ (sortedACLRuleRecords acls))) as [acl|]; [|done].
  unfold mbind at 1, result_bind at 1.
  destruct (compile_all compileBlacklistRule bls) as [bl|]; [|done].
  unfold mbind at 1, result_bind at 1.
  destruct (compile_all _ (filter _ (sortedQoSRuleRecords qoss))) as [qos|]; [|done].
  unfold mbind at 1, result_bind at 1.
  destruct (compileReferencedIPGroups groups refs) as [gs|] eqn:Hg; [|done].
  intros [= <-]. exists acl, bl, refs. by split_and!.
Qed.

(** A snapshot is closed and minimal: the groups it carries are exactly
    those its enabled rules refer to. *)
Theorem snapshot_groups_exact groups acls qoss bls snap :
  compileAgentPolicySnapshotWithGroups groups acls qoss bls = Ok snap →
  ∀ g, g ∈ pg_Id <$> IPGroups snap ↔ refers acls qoss g.
Proof.
  intros (acl & bl & refs & _ & _ & _ & _ & Hg & Hrefs)%snapshot_ok g.
  apply compileReferencedIPGroups_ok in Hg as [Hids _]. by rewrite Hids, Hrefs.
Qed.

(** ** Order *)

(** Priority first, then age. *)
Definition earlier {A} (priority created : A → Z) (x y : A) : Prop :=
  priority x < priority y ∨ (priority x = priority y ∧ created x ≤ created y).

Section order.
Context {A : Type} (priority created : A → Z).

Lemma record_less_asym x y :
  record_less priority created x y = true → record_less priority created y x = false.
Proof.
  destruct x as [x|], y as [y|]; simpl; try done. rewrite (Z.eqb_sym (priority y)).
  destruct (Z.eqb_spec (priority x) (priority y)); simpl; rewrite Z.ltb_lt, Z.ltb_ge; lia.
Qed.
Lemma record_less_neg_trans x y z :
  record_less priority created y x = false → record_less priority created z y = false →
  record_less priority created z x = false.
Proof.
  destruct x as [x|], y as [y|], z as [z|]; simpl; try done.
  destruct (Z.eqb_spec (priority y) (priority x)), (Z.eqb_spec (priority z) (priority y)),
    (Z.eqb_spec (priority z) (priority x)); simpl; rewrite !Z.ltb_ge; lia.
Qed.
Lemma record_less_earlier x y :
  record_less priority created (Some y) (Some x) = false → earlier priority created x y.
Proof.
  simpl. unfold earlier. destruct (Z.eqb_spec (priority y) (priority x)); simpl;
    rewrite Z.ltb_ge; lia.
Qed.

Lemma enabled_some flag (l : list (option A)) :
  ∃ rs, filter (λ r, enabled flag r = true) l = Some <$> rs.
Proof.
  induction l as [|[r|] l [rs IH]]; [by exists []| |].
  - rewrite filter_cons. case_decide; [exists (r :: rs)|exists rs]; by rewrite IH.
  - rewrite filter_cons. case_decide; [done|by exists rs].
Qed.

Lemma StronglySorted_filter (R : relation (option A)) (P : option A → Prop) `{∀ x, Decision (P x)} l :
  StronglySorted R l → StronglySorted R (filter P l).
Proof.
  induction 1 as [|x l _ IH Hall]; [constructor|]. rewrite filter_cons. case_decide; [|done].
  constructor; [done|]. rewrite Forall_forall in *. intros y Hy.
  apply Hall. by apply list_elem_of_filter in Hy as [_ ?].
Qed.

(** The enabled records, sorted: the same records, in order. *)
Lemma sorted_enabled flag (l : list (option A)) :
  ∃ rs, filter (λ r, enabled flag r = true) (SliceStable (record_less priority created) l)
        = Some <$> rs ∧
    (Some <$> rs) ≡ₚ filter (λ r, enabled flag r = true) l ∧
    StronglySorted (earlier priority created) rs.
Proof.
  destruct (enabled_some flag (SliceStable (record_less priority created) l)) as [rs Hrs].
  exists rs. split; [done|]. rewrite <- Hrs. split; [by rewrite SliceStable_Permutation|].
  assert (StronglySorted (in_order (record_less priority created)) (Some <$> rs)) as Hs.
  { rewrite <- Hrs. apply StronglySorted_filter, Sorted_StronglySorted.
    - intros x y z. apply record_less_neg_trans.
    - apply SliceStable_Sorted, record_less_asym. }
  clear Hrs. induction rs as [|r rs IH]; [constructor|]. simpl in Hs.
  apply StronglySorted_inv in Hs as [Hs Hall]. constructor; [by apply IH|].
  apply Forall_forall. intros y Hy. apply record_less_earlier.
  rewrite Forall_forall in Hall. by apply Hall, (list_elem_of_fmap_2 Some).
Qed.
End order.

(** The ACL rules of a snapshot are the compiled forms of the enabled
    records, each once, by priority and then by age, followed by the
    blacklist; the QoS rules likewise. *)
Theorem snapshot_rules_ordered groups acls qoss bls snap :
  compileAgentPolicySnapshotWithGroups groups acls qoss bls = Ok snap →
  ∃ ars aparts bparts qrs qparts,
    (Some <$> ars) ≡ₚ filter (λ r, enabled a_Enabled r = true) acls ∧
    StronglySorted (earlier a_Priority a_CreatedAt) ars ∧
    Forall2 (λ r p, compileACLRule (Some (aclRecordToProto r)) = Ok p) ars aparts ∧
    Forall2 (λ b p, compileBlacklistRule b = Ok p) bls bparts ∧
    ACLRules snap = concat aparts ++ concat bparts ∧
    (Some <$> qrs) ≡ₚ filter (λ r, enabled q_Enabled r = true) qoss ∧
    StronglySorted (earlier q_Priority q_CreatedAt) qrs ∧
    Forall2 (λ r p, compileQoSRule (Some (qosRecordToProto r)) = Ok (Some p)) qrs qparts ∧
    QoSRules snap = qparts.
Proof.
  intros (acl & bl & refs & Hacl & Hbl & Hrules & Hqos & _ & _)%snapshot_ok.
  destruct (sorted_enabled a_Priority a_CreatedAt a_Enabled acls) as (ars & Ha & Hap & Has).
  destruct (sorted_enabled q_Priority q_CreatedAt q_Enabled qoss) as (qrs & Hq & Hqp & Hqs).
  unfold sortedACLRuleRecords in Hacl. unfold sortedQoSRuleRecords in Hqos.
  rewrite Ha in Hacl. rewrite Hq in Hqos.
  apply compile_all_iff in Hacl as (aparts & Hacl & ->). rewrite Forall2_fmap_l in Hacl.
  apply compile_all_iff in Hbl as (bparts & Hbl & ->).
  apply compile_all_iff in Hqos as (parts & Hqos & Hsnap). rewrite Forall2_fmap_l in Hqos.
  assert (∃ qparts, Forall2 (λ r p, compileQoSRule (Some (qosRecordToProto r)) = Ok (Some p)) qrs qparts
    ∧ concat parts = qparts) as (qparts & Hq2 & Hq3).
  { clear -Hqos. induction Hqos as [|r p rs ps Hr _ (qs & IH & IHc)]; [by exists []|].
    assert ((compileQoSRule (Some (qosRecordToProto r)) ≫= λ c, Ok (option_list c)) = Ok p)
      as Hr' by exact Hr. clear Hr. unfold mbind, result_bind in Hr'.
    destruct (compileQoSRule (Some (qosRecordToProto r))) as [[q|]|] eqn:Hc; try done.
    - injection Hr' as <-. exists (q :: qs). split; [by constructor|]. simpl. by rewrite IHc.
    - by apply compileQoSRule_some in Hc. }
  exists ars, aparts, bparts, qrs, qparts. rewrite Hsnap. by split_and!.
Qed.

(** ** When a snapshot compiles *)

Lemma compiles_iff groups acls qoss bls :
  is_ok (compileAgentPolicySnapshotWithGroups groups acls qoss bls) = true ↔
  (∀ r, Some r ∈ acls → a_Enabled r = true → is_ok (compileACLRule (Some (aclRecordToProto r))) = true) ∧
  (∀ b, b ∈ bls → is_ok (compileBlacklistRule b) = true) ∧
  (∀ r, Some r ∈ qoss → q_Enabled r = true → is_ok (compileQoSRule (Some (qosRecordToProto r))) = true) ∧
  (∀ g, refers acls qoss g → ∃ r, Some r ∈ groups ∧ g_ID r = g).
Proof.
  set (ca := compile_all (λ r, compileACLRule (aclRecordToProto <$> r))
    (filter (λ r, enabled a_Enabled r = true) (sortedACLRuleRecords acls))).
  set (cq := compile_all (λ r, compiled ← compileQoSRule (qosRecordToProto <$> r);
                               Ok (option_list compiled))
    (filter (λ r, enabled q_Enabled r = true) (sortedQoSRuleRecords qoss))).
  set (refs := foldl (flip recordQoSGroupRefs)
        (foldl (flip recordACLGroupRefs) ∅
           (filter (λ r, enabled a_Enabled r = true) (sortedACLRuleRecords acls)))
        (filter (λ r, enabled q_Enabled r = true) (sortedQoSRuleRecords qoss))).
  assert (is_ok (compileAgentPolicySnapshotWithGroups groups acls qoss bls) =
    is_ok ca && is_ok (compile_all compileBlacklistRule bls) && is_ok cq
    && is_ok (compileReferencedIPGroups groups refs)) as ->.
  { unfold compileAgentPolicySnapshotWithGroups. cbv zeta. fold ca cq refs.
    unfold mbind, result_bind. destruct ca; [|done]. destruct (compile_all _ bls); [|done].
    destruct cq; [|done]. by destruct (compileReferencedIPGroups groups refs). }
  assert (∀ g, g ∈ refs ↔ refers acls qoss g) as Hrefs by apply snapshot_refs. clearbody refs.
  rewrite !andb_true_iff. unfold ca, cq. rewrite !compile_all_ok, compileReferencedIPGroups_exact.
  unfold sortedACLRuleRecords, sortedQoSRuleRecords. setoid_rewrite list_elem_of_filter.
  setoid_rewrite SliceStable_Permutation. setoid_rewrite Hrefs.
  assert (∀ r, is_ok (compiled ← compileQoSRule (qosRecordToProto <$> r); Ok (option_list compiled))
    = is_ok (compileQoSRule (qosRecordToProto <$> r))) as Hq
    by (intros r; unfold mbind, result_bind; by destruct (compileQoSRule _)).
  setoid_rewrite Hq. split.
  - intros (((Ha & Hb) & Hqs) & Hg). split_and!; [|done| |done].
    + intros r Hr He. apply (Ha (Some r)). done.
    + intros r Hr He. apply (Hqs (Some r)). done.
  - intros (Ha & Hb & Hqs & Hg). split_and!; [|done| |done].
    + intros [r|] [He Hr]; [by apply Ha|done].
    + intros [r|] [He Hr]; [by apply Hqs|done].
Qed.
(** A snapshot compiles exactly when every enabled ACL and QoS record
    and every blacklist rule compiles on its own and every group an enabled
    rule refers to exists: disabled records and unused groups cannot break
    it, and nothing it needs is silently left out. *)
Theorem snapshot_compiles_iff groups acls qoss bls :
  is_ok (compileAgentPolicySnapshotWithGroups groups acls qoss bls) = true ↔
  (∀ r, Some r ∈ acls → a_Enabled r = true → is_ok (compileACLRule (Some (aclRecordToProto r))) = true) ∧
  (∀ b, b ∈ bls → is_ok (compileBlacklistRule b) = true) ∧
  (∀ r, Some r ∈ qoss → q_Enabled r = true → is_ok (compileQoSRule (Some (qosRecordToProto r))) = true) ∧
  (∀ g, refers acls qoss g → ∃ r, Some r ∈ groups ∧ g_ID r = g).
Proof. apply compiles_iff. Qed.

(** ** A snapshot *)

Definition demo_group : IPGroupRecord :=
  mkIPGroup "g1" "t1" "branch" "" "custom" None
    [mkMember "m1" "g1" " 10.2.0.0/16" ""; mkMember "m2" "g1" "10.1.0.0/16" ""] 0 0.
Definition demo_acl_record (id : string) (priority created : Z) (group : NullUUID) (enabled : bool)
    : ACLRuleRecord :=
  mkACL id "t1" "n1" id "deny" "" "10.9.0.0/16" group None None None 22 6 "ingress" "" priority
    enabled "" created 0.
Definition demo_acls : list (option ACLRuleRecord) :=
  [Some (demo_acl_record "late" 20 5 None true); None;
   Some (demo_acl_record "off" 1 1 (Some "gone") false);
   Some (demo_acl_record "first" 10 9 (Some "g1") true)].

Lemma snapshot_groups_exact_witness :
  ∃ snap, compileAgentPolicySnapshotWithGroups [Some demo_group] demo_acls [] [] = Ok snap ∧
    ∀ g, g ∈ pg_Id <$> IPGroups snap ↔ refers demo_acls [] g.
Proof.
  destruct (compileAgentPolicySnapshotWithGroups [Some demo_group] demo_acls [] []) as [snap|x] eqn:Hc;
    [|by vm_compute in Hc].
  exists snap. split; [done|].
  exact (snapshot_groups_exact [Some demo_group] demo_acls [] [] snap Hc).
Defined.

Lemma snapshot_rules_ordered_witness :
  ∃ snap ars aparts, compileAgentPolicySnapshotWithGroups [Some demo_group] demo_acls [] [] = Ok snap ∧
    (Some <$> ars) ≡ₚ filter (λ r, enabled a_Enabled r = true) demo_acls ∧
    StronglySorted (earlier a_Priority a_CreatedAt) ars ∧
    Forall2 (λ r p, compileACLRule (Some (aclRecordToProto r)) = Ok p) ars aparts.
Proof.
  destruct (compileAgentPolicySnapshotWithGroups [Some demo_group] demo_acls [] []) as [snap|x] eqn:Hc;
    [|by vm_compute in Hc].
  destruct (snapshot_rules_ordered [Some demo_group] demo_acls [] [] snap Hc)
    as (ars & aparts & bparts & qrs & qparts & H1 & H2 & H3 & _).
  by exists snap, ars, aparts.
Defined.

Example demo_snapshot_order :
  match compileAgentPolicySnapshotWithGroups [Some demo_group] demo_acls [] [] with
  | Ok s => pa_Id <$> ACLRules s | Err _ => [] end = ["first"; "late"].
Proof. by vm_compute. Qed.
