(* ===== verification/Nodes.v ===== *)
(** * Nodes

    The node rows of [pkg/controllerstorage/postgres.go]: registration,
    heartbeats, status sweeps, clean-up and address allocation, with the
    certificates of [certificates.go] and [certificate_lifecycle.go]. *)

From S2P Require Import Prelude GoStr Records Store Events ControlState AgentCommands PolicySync.

Open Scope Z_scope.

(** ** Data *)

Record Node := mkNode {
  N_ID : UUID;
  N_PublicKey : string;
  N_MachineID : string;
  N_TenantID : UUID;
  N_Endpoint : string;
  N_PrivateIP : string;
  N_PublicIP : string;
  N_Region : string;
  N_VPCID : string;
  N_Hostname : string;
  N_AssignedIP : string;
  N_IPOffset : Z;
  N_LastSeen : Z;
  N_RegisteredAt : Z;
  N_Role : string;
  N_RuntimeMode : string;
  N_KernelVersion : string;
  N_HasAESNI : bool;
  N_Status : string;
  N_OfflineSince : Z;
  N_AdvertisedRoutes : list string;
  N_EnrolledWithToken : string;
  N_CreatedAt : Time;
  N_UpdatedAt : Time;
}.
#[export] Instance eta_Node : Eta Node := λ r,
  mkNode (N_ID r) (N_PublicKey r) (N_MachineID r) (N_TenantID r) (N_Endpoint r) (N_PrivateIP r)
    (N_PublicIP r) (N_Region r) (N_VPCID r) (N_Hostname r) (N_AssignedIP r) (N_IPOffset r)
    (N_LastSeen r) (N_RegisteredAt r) (N_Role r) (N_RuntimeMode r) (N_KernelVersion r)
    (N_HasAESNI r) (N_Status r) (N_OfflineSince r) (N_AdvertisedRoutes r)
    (N_EnrolledWithToken r) (N_CreatedAt r) (N_UpdatedAt r).

(** The columns of [nodeSelectColumns], with their COALESCE. *)
Definition scanNode (id : UUID) (r : NodeRow) : Node :=
  mkNode id (n_public_key r) (n_machine_id r) (n_tenant_id r) (n_endpoint r) (n_private_ip r)
    (n_public_ip r) (n_region r) (n_vpc_id r) (n_hostname r) (n_assigned_ip r) (n_ip_offset r)
    (n_last_seen r) (n_registered_at r) (n_role r) (default "kernel" (n_runtime_mode r))
    (default "" (n_kernel_version r)) (default false (n_has_aesni r))
    (default "online" (n_status r)) (default 0 (n_offline_since r)) (n_advertised_routes r)
    (default "" (n_enrolled_with_token r)) (n_created_at r) (n_updated_at r).

Definition set_nodes (m : gmap UUID NodeRow) (db : DB) : DB := db <| nodes := m |>.

(** SQL comparisons with a status that may be NULL. *)
Definition status_is (s : string) (r : NodeRow) : bool := bool_decide (n_status r = Some s).
Definition status_not_in (l : list string) (r : NodeRow) : bool :=
  match n_status r with Some s => negb (one_of s l) | None => false end.
Definition stopped_statuses : list string := ["deleted"; "suspended"; "banned"].
(** [COALESCE(status, 'online') NOT IN ('deleted', 'suspended', 'banned')]. *)
Definition in_service (r : NodeRow) : bool :=
  negb (one_of (default "online" (n_status r)) stopped_statuses).

(** ** Registration and heartbeats *)

Definition GetNode (publicKey : string) : M (option Node) :=
  query (λ _ db, (λ kn, scanNode kn.1 kn.2) <$> node_by_key db publicKey).
Definition GetNodeByID (nodeID : UUID) : M (option Node) :=
  query (λ _ db, scanNode nodeID <$> nodes db !! nodeID).
Definition GetNodeByTenant (publicKey : string) (tenantID : UUID) : M (option Node) :=
  query (λ _ db, (λ kn, scanNode kn.1 kn.2) <$>
    head (select_where (λ _ n, (n_public_key n =? publicKey)%string
                               && (n_tenant_id n =? tenantID)%string) (nodes db))).

(** The row an INSERT makes; [ON CONFLICT (public_key) DO UPDATE] otherwise. *)
Definition insert_node_row (now : Time) (node : Node) : NodeRow :=
  mkNodeRow (N_PublicKey node) (N_MachineID node) (N_TenantID node) (N_Endpoint node)
    (N_PrivateIP node) (N_PublicIP node) (N_Region node) (N_VPCID node) (N_Hostname node)
    (N_AssignedIP node) (N_IPOffset node) (N_LastSeen node) (N_RegisteredAt node) (N_Role node)
    (Some (N_RuntimeMode node)) (Some (N_KernelVersion node)) (Some (N_HasAESNI node))
    (Some "online") None (N_AdvertisedRoutes node) (Some (N_EnrolledWithToken node)) 0 now now.
Definition update_node_row (now : Time) (node : Node) (r : NodeRow) : NodeRow :=
  r <| n_machine_id := N_MachineID node |> <| n_endpoint := N_Endpoint node |>
    <| n_private_ip := N_PrivateIP node |> <| n_public_ip := N_PublicIP node |>
    <| n_region := N_Region node |> <| n_vpc_id := N_VPCID node |>
    <| n_hostname := N_Hostname node |> <| n_assigned_ip := N_AssignedIP node |>
    <| n_ip_offset := N_IPOffset node |> <| n_last_seen := N_LastSeen node |>
    <| n_registered_at := N_RegisteredAt node |>
    <| n_role := default (n_role r) (nullif (N_Role node)) |>
    <| n_runtime_mode := Some (N_RuntimeMode node) |>
    <| n_kernel_version := Some (N_KernelVersion node) |>
    <| n_has_aesni := Some (N_HasAESNI node) |>
    <| n_advertised_routes := N_AdvertisedRoutes node |>
    <| n_enrolled_with_token :=
         match n_enrolled_with_token r with
         | Some t => Some t | None => Some (N_EnrolledWithToken node) end |>
    <| n_status := Some "online" |> <| n_offline_since := None |> <| n_updated_at := now |>.

(** The node as the call leaves it. *)
Definition SaveNode (node : option Node) : M Node :=
  match node with
  | None => fail (ErrorString "node cannot be nil")
  | Some node =>
    stmt (λ e id db,
      let saved id r := node <| N_ID := id |> <| N_CreatedAt := n_created_at r |>
        <| N_UpdatedAt := n_updated_at r |> <| N_Status := "online" |> <| N_OfflineSince := 0 |> in
      match node_by_key db (N_PublicKey node) with
      | Some (id', r) =>
        let r' := update_node_row (env_now e) node r in
        Ok (saved id' r', set_nodes (<[id' := r']> (nodes db)) db)
      | None =>
        if node_exists db id then Err (ErrConstraint "nodes_pkey") else
        if negb (tenant_exists db (N_TenantID node)) then Err (ErrConstraint "nodes foreign key") else
        let r' := insert_node_row (env_now e) node in
        Ok (saved id r', set_nodes (<[id := r']> (nodes db)) db)
      end)
  end.

(** An UPDATE of nodes and the number of rows it touched. *)
Definition update_nodes (p : UUID → NodeRow → bool) (f : Env → NodeRow → NodeRow) : M Z :=
  exec (λ e db, (count_where p (nodes db), set_nodes (update_where p (f e) (nodes db)) db)).

Definition UpdateNodeHeartbeat (nodeID : UUID) (lastSeen : Z) : M unit :=
  affected ← update_nodes (λ id r, (id =? nodeID)%string && status_not_in stopped_statuses r)
    (λ e r, r <| n_last_seen := lastSeen |> <| n_status := Some "online" |>
              <| n_offline_since := None |> <| n_updated_at := env_now e |>);
  if affected =? 0 then fail ErrNoRows else mret ().

Definition UpdateNodePublicIdentity (nodeID : UUID) (publicIP endpoint : string) : M unit :=
  let publicIP := TrimSpace publicIP in
  let endpoint := TrimSpace endpoint in
  if (publicIP =? "")%string && (endpoint =? "")%string then mret () else
  _ ← update_nodes (λ id r, (id =? nodeID)%string && status_not_in stopped_statuses r
      && ((negb (publicIP =? "")%string && negb (n_public_ip r =? publicIP)%string)
          || (negb (endpoint =? "")%string && negb (n_endpoint r =? endpoint)%string)
          || negb (n_private_ip r =? "")%string))
    (λ e r, r <| n_public_ip := default (n_public_ip r) (nullif publicIP) |>
              <| n_endpoint := default (n_endpoint r) (nullif endpoint) |>
              <| n_private_ip := "" |> <| n_updated_at := env_now e |>);
  mret ().

(** ** Status sweeps *)

Definition MarkOfflineNodes (thresholdTimestamp : Z) : M Z :=
  update_nodes (λ _ r, (n_last_seen r <? thresholdTimestamp) && status_is "online" r)
    (λ _ r, r <| n_status := Some "offline" |>
              <| n_offline_since := match n_offline_since r with
                                    | None => Some thresholdTimestamp | Some t => Some t end |>).
Definition MarkStaleNodes (thresholdTimestamp : Z) : M Z :=
  update_nodes (λ _ r, match n_offline_since r with
                       | Some t => t <? thresholdTimestamp | None => false end
                       && status_is "offline" r)
    (λ _ r, r <| n_status := Some "stale" |>).
Definition MarkNodeOnline (nodeID : UUID) : M unit :=
  _ ← update_nodes (λ id _, (id =? nodeID)%string)
    (λ e r, r <| n_status := Some "online" |> <| n_offline_since := None |>
              <| n_updated_at := env_now e |>);
  mret ().

Definition unix (t : Time) : Z := t / 1000000.
Definition GetNodesGoingOffline (thresholdSeconds : Z) : M (list Node) :=
  now ← ask env_go_now;
  query (λ _ db, (λ kn, scanNode kn.1 kn.2) <$>
    select_where (λ _ r, (n_last_seen r <? unix now - thresholdSeconds) && status_is "online" r)
      (nodes db)).
Definition GetNodesRecovering (thresholdSeconds : Z) : M (list Node) :=
  now ← ask env_go_now;
  query (λ _ db, (λ kn, scanNode kn.1 kn.2) <$>
    select_where (λ _ r, (unix now - thresholdSeconds <=? n_last_seen r) && status_is "offline" r)
      (nodes db)).

(** ** Certificates *)

Definition CertStatusIssued : string := "issued".
Definition CertStatusRevoked : string := "revoked".
Definition CertStatusExpired : string := "expired".

Record NodeCertificate := mkNodeCertificate {
  nc_ID : UUID;
  nc_TenantID : UUID;
  nc_NodeID : UUID;
  nc_SerialNumber : string;
  nc_CertPEM : string;
  nc_CAPEM : string;
  nc_NotBefore : Time;
  nc_NotAfter : Time;
  nc_Status : string;
  nc_IssuedAt : Time;
  nc_RevokedAt : option Time;
  nc_RevokeReason : string;
  nc_RenewedFrom : option UUID;
  nc_UpdatedAt : Time;
}.
Definition scanNodeCertificate (nodeID : UUID) (c : CertRow) : NodeCertificate :=
  mkNodeCertificate (c_id c) (c_tenant_id c) nodeID (c_serial_number c) (c_cert_pem c)
    (c_ca_pem c) (c_not_before c) (c_not_after c) (c_status c) (c_issued_at c)
    (c_revoked_at c) (coalesce (c_revoke_reason c)) (c_renewed_from c) (c_updated_at c).

Definition set_certs (m : gmap UUID CertRow) (db : DB) : DB := db <| node_certificates := m |>.

(** The row with the certificate's own id, which [renewed_from] may name. *)
Definition cert_exists (db : DB) (id : UUID) : bool :=
  exists_where (λ _ c, (c_id c =? id)%string) (node_certificates db).

Definition UpsertNodeCertificate (cert : option NodeCertificate) : M unit :=
  match cert with
  | None => fail ErrNoRows
  | Some cert =>
    let status := if (nc_Status cert =? "")%string then CertStatusIssued else nc_Status cert in
    stmt (λ e id db,
      let now := env_now e in
      let row := match node_certificates db !! nc_NodeID cert with
        | None => mkCertRow id (nc_TenantID cert) (nc_SerialNumber cert) (nc_CertPEM cert)
            (nc_CAPEM cert) (nc_NotBefore cert) (nc_NotAfter cert) status now None None
            (nc_RenewedFrom cert) now
        | Some r => r <| c_serial_number := nc_SerialNumber cert |>
            <| c_cert_pem := nc_CertPEM cert |> <| c_ca_pem := nc_CAPEM cert |>
            <| c_not_before := nc_NotBefore cert |> <| c_not_after := nc_NotAfter cert |>
            <| c_status := status |> <| c_issued_at := now |> <| c_revoked_at := None |>
            <| c_revoke_reason := Some "" |> <| c_renewed_from := nc_RenewedFrom cert |>
            <| c_updated_at := now |>
        end in
      let db' := set_certs (<[nc_NodeID cert := row]> (node_certificates db)) db in
      let refs_ok := match node_certificates db !! nc_NodeID cert with
        | None => tenant_exists db (nc_TenantID cert) && node_exists db (nc_NodeID cert)
        | Some _ => true     (* neither column is updated *)
        end in
      if negb (refs_ok
               && match nc_RenewedFrom cert with Some c => cert_exists db' c | None => true end)
      then Err (ErrConstraint "node_certificates foreign key")
      else Ok ((), db'))
  end.

Definition GetNodeCertificate (nodeID : UUID) : M (option NodeCertificate) :=
  query (λ _ db, scanNodeCertificate nodeID <$> node_certificates db !! nodeID).

Definition issued_for (nodeID : UUID) (id : UUID) (c : CertRow) : bool :=
  (id =? nodeID)%string && (c_status c =? CertStatusIssued)%string.
Definition revokeNodeCertificatesTx (nodeID : UUID) (reason : string) : M Z :=
  let reason := if (reason =? "")%string then "node_lifecycle" else reason in
  exec (λ e db, (count_where (issued_for nodeID) (node_certificates db),
    set_certs (update_where (issued_for nodeID)
      (λ c, c <| c_status := CertStatusRevoked |> <| c_revoked_at := Some (env_now e) |>
              <| c_revoke_reason := Some reason |> <| c_updated_at := env_now e |>)
      (node_certificates db)) db)).
Definition RevokeNodeCertificate (nodeID : UUID) (reason : string) : M unit :=
  _ ← revokeNodeCertificatesTx nodeID reason; mret ().

Definition MarkExpiredNodeCertificates (now : Time) : M (list NodeCertificate) :=
  let p := λ (_ : UUID) c, (c_status c =? CertStatusIssued)%string && (c_not_after c <? now) in
  let f := λ e c, c <| c_status := CertStatusExpired |> <| c_updated_at := env_now e |> in
  exec (λ e db, ((λ nc, scanNodeCertificate nc.1 (f e nc.2)) <$> select_where p (node_certificates db),
    set_certs (update_where p (f e) (node_certificates db)) db)).

Record CertificateRenewalCandidate := mkCandidate {
  rc_TenantID : string;
  rc_NodeID : string;
  rc_Hostname : string;
  rc_SerialNumber : string;
  rc_NotAfter : Time;
}.
(** The JOIN with the node, [ORDER BY not_after]. *)
Definition ListCertificatesExpiringBefore (deadline : Time) : M (list CertificateRenewalCandidate) :=
  query (λ _ db, SliceStable (λ a b, rc_NotAfter a <? rc_NotAfter b)
    (omap (λ nc, n ← nodes db !! nc.1;
        if (c_status nc.2 =? CertStatusIssued)%string && (c_not_after nc.2 <=? deadline)
           && negb (one_of (default "online" (n_status n)) stopped_statuses)
        then Some (mkCandidate (c_tenant_id nc.2) nc.1 (n_hostname n) (c_serial_number nc.2)
                     (c_not_after nc.2))
        else None) (map_to_list (node_certificates db)))).

(** ** Listings *)

Definition DefaultNodeListLimit : Z := 200.
Definition MaxNodeListLimit : Z := 1000.
Definition normalizeNodeListLimit (limit : Z) : Z :=
  if limit <=? 0 then DefaultNodeListLimit
  else if MaxNodeListLimit <? limit then MaxNodeListLimit else limit.

Record NodeListOptions := mkNodeListOptions {
  lo_TenantID : UUID;
  lo_IncludeDeleted : bool;
  lo_Limit : Z;
  lo_Offset : Z;
  lo_Unbounded : bool;
}.

(** [status != 'deleted'], which a NULL status does not satisfy. *)
Definition not_deleted (r : NodeRow) : bool := status_not_in ["deleted"] r.

(** [WHERE p ORDER BY last_seen DESC]. *)
Definition nodes_by_last_seen (p : UUID → NodeRow → bool) (db : DB) : list Node :=
  (λ kn, scanNode kn.1 kn.2) <$>
    SliceStable (λ a b, n_last_seen b.2 <? n_last_seen a.2) (select_where p (nodes db)).

Definition listNodes (opts : NodeListOptions) : M (list Node) :=
  query (λ _ db,
    let rows := nodes_by_last_seen (λ _ r,
      ((lo_TenantID opts =? uuid_Nil)%string || (n_tenant_id r =? lo_TenantID opts)%string)
      && (lo_IncludeDeleted opts || not_deleted r)) db in
    if lo_Unbounded opts then rows else
    take (Z.to_nat (normalizeNodeListLimit (lo_Limit opts)))
      (drop (Z.to_nat (Z.max 0 (lo_Offset opts))) rows)).

Definition GetNodesByTenant (tenantID : UUID) : M (list Node) :=
  listNodes (mkNodeListOptions tenantID false 0 0 true).
Definition GetNodesByTenantPage (tenantID : UUID) (limit offset : Z) : M (list Node) :=
  listNodes (mkNodeListOptions tenantID false limit offset false).
Definition GetAllNodesPage (limit offset : Z) : M (list Node) :=
  listNodes (mkNodeListOptions uuid_Nil false limit offset false).
Definition GetAllNodes : M (list Node) := listNodes (mkNodeListOptions uuid_Nil false 0 0 true).
Definition GetAllNodesIncludeDeleted : M (list Node) :=
  listNodes (mkNodeListOptions uuid_Nil true 0 0 true).

Definition GetNodeByHostname (hostname : string) : M (option Node) :=
  query (λ _ db, (λ kn, scanNode kn.1 kn.2) <$>
    head (select_where (λ _ n, (n_hostname n =? hostname)%string) (nodes db))).
Definition GetNodeByHostnameForTenant (hostname : string) (tenantID : UUID) : M (option Node) :=
  query (λ _ db, (λ kn, scanNode kn.1 kn.2) <$>
    head (select_where (λ _ n, (n_hostname n =? hostname)%string
                               && (n_tenant_id n =? tenantID)%string && not_deleted n) (nodes db))).
Definition ListNodesByHostname (hostname : string) (limit : Z) : M (list Node) :=
  query (λ _ db, take (Z.to_nat (normalizeNodeListLimit limit))
    (nodes_by_last_seen (λ _ r, (n_hostname r =? hostname)%string && not_deleted r) db)).
Definition ListTenantNodesByHostname (tenantID : UUID) (hostname : string) (limit : Z)
    : M (list Node) :=
  query (λ _ db, take (Z.to_nat (normalizeNodeListLimit limit))
    (nodes_by_last_seen (λ _ r, (n_tenant_id r =? tenantID)%string
                                && (n_hostname r =? hostname)%string && not_deleted r) db)).
Definition ListTenantNodesByEnrollmentToken (tenantID : UUID) (enrollmentToken : string)
    (limit : Z) : M (list Node) :=
  query (λ _ db, take (Z.to_nat (normalizeNodeListLimit limit))
    (nodes_by_last_seen (λ _ r, (n_tenant_id r =? tenantID)%string
       && bool_decide (n_enrolled_with_token r = Some enrollmentToken) && not_deleted r) db)).
Definition GetNodeCount : M Z := query (λ _ db, Z.of_nat (size (nodes db))).

(** ** Removal *)

(** The node ids the foreign keys without ON DELETE CASCADE name. *)
Definition node_refs (db : DB) : list UUID :=
  ((λ kd, pd_node_id kd.2) <$> map_to_list (policy_deliveries db))
  ++ ((λ kr, ar_node_id kr.2) <$> map_to_list (acl_rules db))
  ++ ((λ kr, qr_node_id kr.2) <$> map_to_list (qos_rules db))
  ++ ((λ kr, br_node_id kr.2) <$> map_to_list (blacklist_rules db))
  ++ omap dc_node_id (device_configs db)
  ++ omap tl_src_node_id (tunnel_links db) ++ omap tl_dst_node_id (tunnel_links db)
  ++ omap ia_node_id (ip_allocations db)
  ++ omap ae_node_id (audit_events db)
  ++ omap (λ ka, al_node_id ka.2) (map_to_list (alerts db)).

(** A remaining certificate was renewed from one the cascade removed. *)
Definition renewal_dangles (p : UUID → bool) (db : DB) : bool :=
  exists_where (λ n c, negb (p n) &&
    match c_renewed_from c with
    | Some id => exists_where (λ n' c', p n' && (c_id c' =? id)%string) (node_certificates db)
    | None => false
    end) (node_certificates db).

(** [DELETE FROM nodes WHERE p], with its cascades and its foreign keys. *)
Definition delete_nodes (p : UUID → bool) (db : DB) : result (Z * DB) :=
  let gone := λ n : UUID, node_exists db n && p n in
  if existsb gone (node_refs db) || renewal_dangles gone db
  then Err (ErrConstraint "nodes foreign key") else
  Ok (count_where (λ n _, p n) (nodes db),
      db <| nodes := delete_where (λ n _, p n) (nodes db) |>
         <| node_control_states := delete_where (λ n _, gone n) (node_control_states db) |>
         <| node_policy_stats := delete_where (λ n _, gone n) (node_policy_stats db) |>
         <| node_certificates := delete_where (λ n _, gone n) (node_certificates db) |>).

Definition DeleteNode (publicKey : string) : M unit :=
  stmt (λ _ _ db,
    '(_, db') ← delete_nodes (λ n, match nodes db !! n with
        | Some r => (n_public_key r =? publicKey)%string | None => false end) db;
    Ok ((), db')).

(** [UPDATE nodes SET status = 'deleted', updated_at = NOW() WHERE public_key = key]. *)
Definition set_status_by_key (publicKey status : string) : M unit :=
  _ ← update_nodes (λ _ r, (n_public_key r =? publicKey)%string)
    (λ e r, r <| n_status := Some status |> <| n_updated_at := env_now e |>);
  mret ().

Definition MarkNodeDeleted (publicKey : string) : M unit :=
  tx (
    nodeID ← query_row (λ _ db, fst <$> node_by_key db publicKey);
    _ ← set_status_by_key publicKey "deleted";
    _ ← revokeNodeCertificatesTx nodeID "node_deleted";
    _ ← failIncompleteAgentCommandsForNodeTx publicKey "node deleted";
    mret (Commit ())).

(** The address and offset taken over. *)
Definition ReuseHostnameIP (hostname : string) (tenantID : UUID) : M (string * Z) :=
  tx (
    '(nodeID, r) ← query_row (λ _ db,
      head (select_where (λ _ n, (n_hostname n =? hostname)%string
                                 && (n_tenant_id n =? tenantID)%string && not_deleted n) (nodes db)));
    let status := default "online" (n_status r) in
    if one_of (ToLower (TrimSpace status)) ["suspended"; "banned"]
    then fail (ErrorString ("inactive hostname " +:+ Quote hostname +:+
                 " cannot be reused: node status " +:+ status))
    else
    _ ← set_status_by_key (n_public_key r) "deleted";
    _ ← revokeNodeCertificatesTx nodeID "hostname_reused";
    _ ← failIncompleteAgentCommandsForNodeTx (n_public_key r) "node deleted for hostname reuse";
    mret (Commit (n_assigned_ip r, n_ip_offset r))).

(** ** Clean-up *)

Definition ref_in (ids : list UUID) (r : option UUID) : bool :=
  match r with Some id => one_of id ids | None => false end.

Definition detachDeletedNodeHistoryTx (nodeIDs : list UUID) : M unit :=
  _ ← exec (λ _ db, ((), db <| audit_events :=
        (λ ev, if ref_in nodeIDs (ae_node_id ev) then ev <| ae_node_id := None |> else ev)
          <$> audit_events db |>));
  exec (λ _ db, ((), db <| alerts :=
        update_where (λ _ al, ref_in nodeIDs (al_node_id al)) (λ al, al <| al_node_id := None |>)
          (alerts db) |>)).

Definition purgeDeletedNodeDependentsTx (nodeIDs : list UUID) : M unit :=
  _ ← exec (λ _ db, ((), set_deliveries
        (delete_where (λ _ d, one_of (pd_node_id d) nodeIDs) (policy_deliveries db)) db));
  _ ← exec (λ _ db, ((), db <| acl_rules :=
        delete_where (λ _ r, one_of (ar_node_id r) nodeIDs) (acl_rules db) |>));
  _ ← exec (λ _ db, ((), db <| qos_rules :=
        delete_where (λ _ r, one_of (qr_node_id r) nodeIDs) (qos_rules db) |>));
  _ ← exec (λ _ db, ((), db <| blacklist_rules :=
        delete_where (λ _ r, one_of (br_node_id r) nodeIDs) (blacklist_rules db) |>));
  _ ← exec (λ _ db, ((), db <| device_configs :=
        filter (λ r, ref_in nodeIDs (dc_node_id r) = false) (device_configs db) |>));
  _ ← exec (λ _ db, ((), db <| tunnel_links :=
        filter (λ r, ref_in nodeIDs (tl_src_node_id r) || ref_in nodeIDs (tl_dst_node_id r) = false)
          (tunnel_links db) |>));
  exec (λ _ db, ((), db <| ip_allocations :=
        filter (λ r, ref_in nodeIDs (ia_node_id r) = false) (ip_allocations db) |>)).

(** [status = 'deleted' AND updated_at < to_timestamp(threshold)]. *)
Definition expired_deleted (thresholdTimestamp : Z) (_ : UUID) (r : NodeRow) : bool :=
  status_is "deleted" r && (n_updated_at r <? seconds thresholdTimestamp).

Definition CleanupDeletedNodes (thresholdTimestamp : Z) : M Z :=
  tx (
    nodeIDs ← query (λ _ db, fst <$> select_where (expired_deleted thresholdTimestamp) (nodes db));
    if bool_decide (nodeIDs = []) then mret (Commit 0) else
    _ ← detachDeletedNodeHistoryTx nodeIDs;
    _ ← purgeDeletedNodeDependentsTx nodeIDs;
    count ← stmt (λ _ _ db, delete_nodes (λ n, one_of n nodeIDs) db);
    mret (Commit count)).

(** The parameter is no longer used: the thresholds are fixed. *)
Definition CleanupStaleNodes (thresholdSeconds : Z) : M Z :=
  t ← ask env_go_now;
  let now := unix t in
  offlineCount ← wrap "failed to mark offline nodes" (MarkOfflineNodes (now - 30));
  staleCount ← wrap "failed to mark stale nodes" (MarkStaleNodes (now - 86400));
  deletedCount ← wrap "failed to cleanup deleted nodes" (CleanupDeletedNodes (now - 604800));
  mret (offlineCount + staleCount + deletedCount).
