(* ===== verification/NodesSpec.v ===== *)
(** * Properties of node storage

    Clean-up removes exactly the nodes deleted long ago and leaves no dangling
    reference; heartbeats and sweeps never revive a stopped node; SaveNode is an
    upsert by public key. *)

From S2P Require Import Prelude GoStr Records Store Events ControlState AgentCommands PolicySync Nodes.

Open Scope Z_scope.

(** ** Clean-up *)

(** The foreign keys to nodes. *)
Definition node_refs_ok (db : DB) : Prop :=
  Forall (λ n, is_Some (nodes db !! n)) (node_refs db) ∧
  (∀ n, is_Some (node_control_states db !! n) → is_Some (nodes db !! n)) ∧
  (∀ n, is_Some (node_policy_stats db !! n) → is_Some (nodes db !! n)) ∧
  (∀ n, is_Some (node_certificates db !! n) → is_Some (nodes db !! n)).

(** A certificate is renewed in place: its predecessor is the row itself. *)
Definition own_renewals (db : DB) : Prop :=
  ∀ n c n' c' id, node_certificates db !! n = Some c → c_renewed_from c = Some id →
  node_certificates db !! n' = Some c' → c_id c' = id → n' = n.

(** What the two groups of statements leave. *)
Definition detach_db (ids : list UUID) (db : DB) : DB :=
  db <| audit_events :=
          (λ ev, if ref_in ids (ae_node_id ev) then ev <| ae_node_id := None |> else ev)
            <$> audit_events db |>
     <| alerts := update_where (λ _ al, ref_in ids (al_node_id al))
                    (λ al, al <| al_node_id := None |>) (alerts db) |>.
Definition purge_db (ids : list UUID) (db : DB) : DB :=
  db <| policy_deliveries :=
          delete_where (λ _ d, one_of (pd_node_id d) ids) (policy_deliveries db) |>
     <| acl_rules := delete_where (λ _ r, one_of (ar_node_id r) ids) (acl_rules db) |>
     <| qos_rules := delete_where (λ _ r, one_of (qr_node_id r) ids) (qos_rules db) |>
     <| blacklist_rules := delete_where (λ _ r, one_of (br_node_id r) ids) (blacklist_rules db) |>
     <| device_configs := filter (λ r, ref_in ids (dc_node_id r) = false) (device_configs db) |>
     <| tunnel_links := filter (λ r, ref_in ids (tl_src_node_id r)
                                     || ref_in ids (tl_dst_node_id r) = false) (tunnel_links db) |>
     <| ip_allocations := filter (λ r, ref_in ids (ia_node_id r) = false) (ip_allocations db) |>.

Lemma detach_run ids e st : no_faults e →
  detachDeletedNodeHistoryTx ids e st = (Ok (), mkSt (detach_db ids (st_db st)) (S (S (st_tick st)))).
Proof.
  intros Hf. unfold detachDeletedNodeHistoryTx.
  erewrite bind_run by by apply exec_run. by rewrite exec_run.
Qed.
Lemma purge_run ids e st : no_faults e →
  purgeDeletedNodeDependentsTx ids e st = (Ok (), mkSt (purge_db ids (st_db st)) (7 + st_tick st)).
Proof.
  intros Hf. unfold purgeDeletedNodeDependentsTx.
  do 6 (erewrite bind_run by by apply exec_run). by rewrite exec_run.
Qed.

(** References of a table of rows, before and after a DELETE. *)
Lemma elem_of_map_refs {R} (f : R → UUID) (m : gmap UUID R) n :
  n ∈ ((λ kr : UUID * R, f kr.2) <$> map_to_list m) ↔ ∃ k r, m !! k = Some r ∧ f r = n.
Proof.
  rewrite list_elem_of_fmap. split.
  - intros ([k r] & -> & Hin%elem_of_map_to_list). eauto.
  - intros (k & r & Hk & <-). exists (k, r). by rewrite elem_of_map_to_list.
Qed.
Lemma elem_of_map_omap_refs {R} (f : R → option UUID) (m : gmap UUID R) n :
  n ∈ omap (λ kr : UUID * R, f kr.2) (map_to_list m) ↔ ∃ k r, m !! k = Some r ∧ f r = Some n.
Proof.
  rewrite list_elem_of_omap. split.
  - intros ([k r] & Hin%elem_of_map_to_list & Hf). eauto.
  - intros (k & r & Hk & Hf). exists (k, r). by rewrite elem_of_map_to_list.
Qed.

Definition purged (ids : list UUID) (n : UUID) (l : list UUID) : Prop := n ∈ l ∧ one_of n ids = false.

Lemma deleted_refs {R} (f : R → UUID) (m : gmap UUID R) ids n :
  n ∈ ((λ kr : UUID * R, f kr.2) <$> map_to_list (delete_where (λ _ r, one_of (f r) ids) m)) →
  purged ids n ((λ kr : UUID * R, f kr.2) <$> map_to_list m).
Proof.
  unfold purged. rewrite !elem_of_map_refs. intros (k & r & Hk & <-).
  rewrite lookup_delete_where in Hk. destruct (m !! k) eqn:Hm; [|done].
  destruct (one_of _ _) eqn:Ho in Hk; simplify_eq. eauto.
Qed.
Lemma filtered_refs {R} (f : R → option UUID) (g : R → bool) (l : list R) ids n :
  (∀ r, g r = false → ref_in ids (f r) = false) →
  n ∈ omap f (filter (λ r, g r = false) l) → purged ids n (omap f l).
Proof.
  intros Hg. unfold purged. rewrite !list_elem_of_omap. intros (r & Hin & Hf).
  apply list_elem_of_filter in Hin as [Hgr Hin]. apply Hg in Hgr. rewrite Hf in Hgr.
  split; [by exists r|done].
Qed.
Lemma detached_refs {R} (f : R → option UUID) (g : R → R) (l : list R) ids n :
  (∀ r, f (g r) = None) →
  n ∈ omap f ((λ r, if ref_in ids (f r) then g r else r) <$> l) → purged ids n (omap f l).
Proof.
  intros Hg. unfold purged. rewrite !list_elem_of_omap. intros (r & Hin & Hf).
  apply list_elem_of_fmap in Hin as (r0 & -> & Hin).
  destruct (ref_in ids (f r0)) eqn:Hr; [by rewrite Hg in Hf|].
  rewrite Hf in Hr. split; [by exists r0|done].
Qed.
Lemma updated_refs {R} (f : R → option UUID) (g : R → R) (m : gmap UUID R) ids n :
  (∀ r, f (g r) = None) →
  n ∈ omap (λ kr : UUID * R, f kr.2)
        (map_to_list (update_where (λ _ r, ref_in ids (f r)) g m)) →
  purged ids n (omap (λ kr : UUID * R, f kr.2) (map_to_list m)).
Proof.
  intros Hg. unfold purged. rewrite !elem_of_map_omap_refs. intros (k & r & Hk & Hf).
  apply lookup_update_where_Some in Hk as (r0 & Hk & ->).
  destruct (ref_in ids (f r0)) eqn:Hr; [by rewrite Hg in Hf|].
  rewrite Hf in Hr. split; [by eauto|done].
Qed.

(** No reference to the collected nodes is left, and none is new. *)
Lemma cleaned_refs ids db n :
  n ∈ node_refs (purge_db ids (detach_db ids db)) → purged ids n (node_refs db).
Proof.
  unfold purged, node_refs. rewrite !elem_of_app. intros Hin.
  repeat match type of Hin with _ ∨ _ => destruct Hin as [Hin|Hin] end.
  all: match type of Hin with
  | _ ∈ _ <$> _ => apply deleted_refs in Hin
  | _ ∈ omap ae_node_id _ => apply (detached_refs ae_node_id) in Hin; [|done]
  | _ ∈ omap _ (map_to_list _) => apply (updated_refs al_node_id) in Hin; [|done]
  | _ ∈ omap _ _ => apply (filtered_refs _ _ _ ids) in Hin;
      [|try done; by intros r [??]%orb_false_iff]
  end; destruct Hin as [Hin Ho]; split; [tauto|done].
Qed.

Lemma select_where_ext {R} (p q : UUID → R → bool) m :
  (∀ k r, m !! k = Some r → p k r = q k r) → select_where p m = select_where q m.
Proof.
  intros H. unfold select_where. assert (∀ kr, kr ∈ map_to_list m → p kr.1 kr.2 = q kr.1 kr.2) as Ha.
  { intros [k r] Hin%elem_of_map_to_list. by apply H. }
  clear H. induction (map_to_list m) as [|kr l IH]; [done|].
  rewrite !filter_cons, Ha by by left. rewrite IH by (intros; apply Ha; by right). done.
Qed.
Lemma count_where_ext {R} (p q : UUID → R → bool) m :
  (∀ k r, m !! k = Some r → p k r = q k r) → count_where p m = count_where q m.
Proof. intros H. unfold count_where. by rewrite (select_where_ext p q). Qed.
Lemma delete_where_ext {R} (p q : UUID → R → bool) m :
  (∀ k r, m !! k = Some r → p k r = q k r) → delete_where p m = delete_where q m.
Proof.
  intros H. apply map_eq. intros k. rewrite !lookup_delete_where.
  destruct (m !! k) eqn:Hk; [|done]. by rewrite (H k _ Hk).
Qed.

(** The ids the first SELECT collects. *)
Definition expired_ids (thr : Z) (db : DB) : list UUID :=
  fst <$> select_where (expired_deleted thr) (nodes db).
Lemma expired_ids_spec thr db n r :
  nodes db !! n = Some r → one_of n (expired_ids thr db) = expired_deleted thr n r.
Proof.
  intros Hn. apply eq_true_iff_eq. unfold expired_ids. rewrite one_of_spec, list_elem_of_fmap. split.
  - intros ([k r'] & -> & (Hk & He)%select_where_elem). simpl in *. by simplify_eq.
  - intros He. exists (n, r). split; [done|]. by apply select_where_elem.
Qed.
Lemma expired_ids_node thr db n : one_of n (expired_ids thr db) = true → is_Some (nodes db !! n).
Proof.
  rewrite one_of_spec. unfold expired_ids. rewrite list_elem_of_fmap.
  intros ([k r] & -> & (Hk & _)%select_where_elem). by exists r.
Qed.

Lemma own_renewals_safe p db : own_renewals db → renewal_dangles p db = false.
Proof.
  intros Ho. apply exists_where_false. intros n c Hc. apply andb_false_iff.
  destruct (p n) eqn:Hn; [by left|right]. destruct (c_renewed_from c) as [id|] eqn:Hr; [|done].
  apply exists_where_false. intros n' c' Hc'. destruct (c_id c' =? id)%string eqn:Hid; [|by rewrite andb_false_r].
  bools. by rewrite (Ho n c n' c' id Hc Hr Hc' Hid), Hn.
Qed.

(** The tables after the clean-up of the nodes [ids]. *)
Definition cleaned_db (ids : list UUID) (db : DB) : DB :=
  let db1 := purge_db ids (detach_db ids db) in
  db1 <| nodes := delete_where (λ n _, one_of n ids) (nodes db) |>
      <| node_control_states :=
           delete_where (λ n _, node_exists db n && one_of n ids) (node_control_states db) |>
      <| node_policy_stats :=
           delete_where (λ n _, node_exists db n && one_of n ids) (node_policy_stats db) |>
      <| node_certificates :=
           delete_where (λ n _, node_exists db n && one_of n ids) (node_certificates db) |>.

Lemma cleaned_delete ids db : own_renewals db →
  delete_nodes (λ n, one_of n ids) (purge_db ids (detach_db ids db)) =
  Ok (count_where (λ n _, one_of n ids) (nodes db), cleaned_db ids db).
Proof.
  intros Ho. unfold delete_nodes. rewrite (own_renewals_safe _ (purge_db ids (detach_db ids db)) Ho).
  destruct (existsb _ _) eqn:He; [|done].
  apply existsb_exists in He as (n & Hin%list_elem_of_In & Hn). bools.
  apply cleaned_refs in Hin as [_ Hno]. congruence.
Qed.

Lemma cleaned_refs_ok ids db : node_refs_ok db → node_refs_ok (cleaned_db ids db).
Proof.
  intros (Hr & Hc & Hs & Hk).
  assert (∀ n, is_Some (nodes db !! n) → one_of n ids = false →
               is_Some (nodes (cleaned_db ids db) !! n)) as Hkeep.
  { intros n [r Hn] Hno. simpl. rewrite lookup_delete_where, Hn, Hno. by exists r. }
  assert (∀ R (m : gmap UUID R) n, (is_Some (m !! n) → is_Some (nodes db !! n)) →
     is_Some (delete_where (λ n _, node_exists db n && one_of n ids) m !! n) →
     is_Some (nodes (cleaned_db ids db) !! n)) as Hcasc.
  { intros R m n Hm. rewrite lookup_delete_where. destruct (m !! n) eqn:Hmn; [|by intros [? ?]].
    specialize (Hm (mk_is_Some _ _ eq_refl)). unfold node_exists. rewrite bool_decide_true by done.
    simpl. destruct (one_of n ids) eqn:Ho; [by intros [? ?]|]. intros _. by apply Hkeep. }
  split; [|split_and!; intros n; [exact (Hcasc _ _ n (Hc n))|exact (Hcasc _ _ n (Hs n))|exact (Hcasc _ _ n (Hk n))]].
  rewrite Forall_forall in *. intros n Hin. apply (cleaned_refs ids db) in Hin as [Hin Hno]. auto.
Qed.

Lemma CleanupDeletedNodes_run thr e st :
  no_faults e → own_renewals (st_db st) →
  let ids := expired_ids thr (st_db st) in
  ∃ t, CleanupDeletedNodes thr e st =
    (Ok (count_where (expired_deleted thr) (nodes (st_db st))),
     mkSt (if bool_decide (ids = []) then st_db st else cleaned_db ids (st_db st)) t).
Proof.
  intros Hf Ho ids.
  assert (count_where (λ n _, one_of n ids) (nodes (st_db st)) =
          count_where (expired_deleted thr) (nodes (st_db st))) as Hcount.
  { apply count_where_ext. intros k r Hk. by apply expired_ids_spec. }
  rewrite <- Hcount. clear Hcount. unfold CleanupDeletedNodes.
  case_bool_decide as Hids; eexists.
  - erewrite tx_run; [|done|erewrite bind_run by by apply query_run]; simpl.
    2: { fold (expired_ids thr (st_db st)). fold ids. by rewrite bool_decide_true. }
    simpl. f_equal. f_equal. symmetry. apply count_where_0. intros. by rewrite Hids.
  - erewrite tx_run; [|done|erewrite bind_run by by apply query_run]; simpl.
    2: { fold (expired_ids thr (st_db st)). fold ids. rewrite bool_decide_false by done.
         erewrite bind_run by by apply detach_run. erewrite bind_run by by apply purge_run.
         erewrite bind_run; [reflexivity|]. simpl. unfold stmt, stmt_rows. rewrite Hf.
         simpl st_db. by rewrite cleaned_delete. }
    done.
Qed.

Lemma cleaned_nodes thr db :
  nodes (if bool_decide (expired_ids thr db = []) then db else cleaned_db (expired_ids thr db) db)
  = delete_where (expired_deleted thr) (nodes db).
Proof.
  apply map_eq. intros k. rewrite lookup_delete_where. case_bool_decide as He.
  - destruct (nodes db !! k) eqn:Hk; [|done]. by rewrite <- (expired_ids_spec _ _ _ _ Hk), He.
  - simpl. rewrite lookup_delete_where. destruct (nodes db !! k) eqn:Hk; [|done].
    by rewrite (expired_ids_spec _ _ _ _ Hk).
Qed.

(** When every statement succeeds, the clean-up succeeds and removes
    exactly the nodes that were marked deleted before the threshold; the rows
    that refer to other nodes stay, the history of the removed ones is kept
    without the reference, and every foreign key to nodes still holds. *)
Theorem CleanupDeletedNodes_complete thr e st :
  no_faults e → own_renewals (st_db st) → node_refs_ok (st_db st) →
  let db := st_db st in
  ∃ st', CleanupDeletedNodes thr e st = (Ok (count_where (expired_deleted thr) (nodes db)), st') ∧
  nodes (st_db st') = delete_where (expired_deleted thr) (nodes db) ∧
  node_refs_ok (st_db st') ∧
  (∀ id d n, policy_deliveries db !! id = Some d → nodes db !! pd_node_id d = Some n →
     expired_deleted thr (pd_node_id d) n = false → policy_deliveries (st_db st') !! id = Some d) ∧
  (∀ id n, nodes db !! id = Some n → expired_deleted thr id n = false →
     node_certificates (st_db st') !! id = node_certificates db !! id ∧
     node_control_states (st_db st') !! id = node_control_states db !! id) ∧
  ae_summary <$> audit_events (st_db st') = ae_summary <$> audit_events db ∧
  agent_commands (st_db st') = agent_commands db.
Proof.
  intros Hf Ho Hrefs db. destruct (CleanupDeletedNodes_run thr e st Hf Ho) as [t Hrun].
  eexists. split; [exact Hrun|]. clear Hrun. simpl. fold db.
  assert (∀ n r, nodes db !! n = Some r → one_of n (expired_ids thr db) = expired_deleted thr n r)
    as Hids by (intros; by apply expired_ids_spec).
  pose proof (cleaned_nodes thr db) as Hnodes.
  case_bool_decide as He.
  - by split_and!.
  - split_and!; try done.
    + by apply cleaned_refs_ok.
    + intros id d n Hd Hn Hex. simpl. rewrite lookup_delete_where, Hd, (Hids _ _ Hn), Hex. done.
    + intros id n Hn Hex. simpl. rewrite !lookup_delete_where, (Hids _ _ Hn), Hex, andb_false_r.
      split; by case_match.
    + simpl. rewrite <- list_fmap_compose. apply list_fmap_ext. intros _ ev _. simpl. by case_match.
Qed.

(** A node for concrete runs. *)
Definition sample_node (key status : string) (offset updated : Z) : NodeRow :=
  mkNodeRow key "m1" "t1" "" "" "" "eu" "" "edge" "100.64.0.2" offset 0 0 "agent" None None None
    (Some status) None [] None 0 0 updated.
Definition sample_cert (id : UUID) : CertRow :=
  mkCertRow id "t1" "01" "pem" "ca" 0 100 CertStatusIssued 0 None None (Some id) 0.
(** Two nodes, one of them deleted, with certificates and history. *)
Definition sample_db : DB :=
  empty_db
    <| tenants := {["t1" := mkTenantRow "T" None None None (Some "active") None 0 0]} |>
    <| nodes := <["n1" := sample_node "k1" "deleted" 2 0]> {["n2" := sample_node "k2" "online" 3 0]} |>
    <| node_certificates := <["n1" := sample_cert "c1"]> {["n2" := sample_cert "c2"]} |>
    <| audit_events := [mkAuditRow "t1" (Some "n1") "node.registered" "system" "Node registered" ∅ 0] |>.

(** The rows a lookup in a concrete table can find. *)
Ltac concrete_rows :=
  repeat match goal with
  | H : <[_ := _]> _ !! _ = Some _ |- _ => apply lookup_insert_Some in H as [[<- <-]|[? H]]
  | H : {[_ := _]} !! _ = Some _ |- _ => apply lookup_singleton_Some in H as [<- <-]
  | H : ∅ !! _ = Some _ |- _ => by rewrite lookup_empty in H
  end; simplify_eq/=.

Lemma sample_node_refs_ok : node_refs_ok sample_db.
Proof.
  split_and!; [eapply bool_decide_unpack; vm_compute; exact I|..];
    intros n [r Hr]; simpl in Hr; concrete_rows; by eexists.
Qed.
Lemma sample_own_renewals : own_renewals sample_db.
Proof. intros n c n' c' id Hc Hr Hc' Hid. simpl in Hc, Hc'. concrete_rows; done. Qed.

Lemma CleanupDeletedNodes_complete_witness :
  ∃ st', CleanupDeletedNodes 5 (env_at 9) (mkSt sample_db 0) = (Ok 1, st') ∧
         dom (nodes (st_db st')) = {["n2"]}.
Proof.
  destruct (CleanupDeletedNodes_complete 5 (env_at 9) (mkSt sample_db 0) (λ _, eq_refl)
              sample_own_renewals sample_node_refs_ok) as (st' & Hrun & Hn & _).
  exists st'. split; [exact Hrun|]. rewrite Hn. vm_compute. reflexivity.
Defined.

(** ** Stopped nodes stay stopped *)

(** The calls the controller makes without an operator: heartbeats of the
    agents and the background sweeps. *)
Inductive upkeep :=
  | Heartbeat (nodeID : UUID) (lastSeen : Z)
  | PublicIdentity (nodeID : UUID) (publicIP endpoint : string)
  | SweepOffline (thresholdTimestamp : Z)
  | SweepStale (thresholdTimestamp : Z)
  | SweepDeleted (thresholdTimestamp : Z)
  | SweepAll (thresholdSeconds : Z)
  | SweepCertificates (now : Time).

Definition run_upkeep (op : upkeep) : M unit :=
  match op with
  | Heartbeat id t => UpdateNodeHeartbeat id t
  | PublicIdentity id ip ep => UpdateNodePublicIdentity id ip ep
  | SweepOffline t => _ ← MarkOfflineNodes t; mret ()
  | SweepStale t => _ ← MarkStaleNodes t; mret ()
  | SweepDeleted t => _ ← CleanupDeletedNodes t; mret ()
  | SweepAll t => _ ← CleanupStaleNodes t; mret ()
  | SweepCertificates t => _ ← MarkExpiredNodeCertificates t; mret ()
  end.

(** Each call with the time and the failures it meets. *)
Fixpoint run_upkeeps (ops : list (Env * upkeep)) (st : St) : St :=
  match ops with
  | [] => st
  | (e, op) :: ops' => run_upkeeps ops' (run_upkeep op e st).2
  end.

(** A stopped node keeps its status until, if deleted, it is removed; no node
    appears. *)
Definition stopped_stay (db db' : DB) : Prop :=
  (∀ id, is_Some (nodes db' !! id) → is_Some (nodes db !! id)) ∧
  ∀ id r s, nodes db !! id = Some r → n_status r = Some s → s ∈ stopped_statuses →
  match nodes db' !! id with
  | Some r' => n_status r' = Some s
  | None => s = "deleted"
  end.

#[export] Instance stopped_stay_preorder : PreOrder stopped_stay.
Proof.
  split.
  - intros db. split; [done|]. intros id r s Hr Hs _. by rewrite Hr.
  - intros a b c [Hab1 Hab2] [Hbc1 Hbc2]. split; [by auto|]. intros id r s Hr Hs Hst.
    pose proof (Hab2 id r s Hr Hs Hst) as Hb. destruct (nodes b !! id) as [rb|] eqn:Hrb.
    + by eapply Hbc2.
    + destruct (nodes c !! id) eqn:Hrc; [|done].
      destruct (Hbc1 id (mk_is_Some _ _ Hrc)). congruence.
Qed.

Lemma stopped_stay_eq db db' : nodes db' = nodes db → stopped_stay db db'.
Proof. intros H. split; rewrite H; [done|]. intros id r s Hr Hs _. by rewrite Hr. Qed.

Lemma status_not_in_stopped r s :
  n_status r = Some s → s ∈ stopped_statuses → status_not_in stopped_statuses r = false.
Proof. intros Hs Hin. unfold status_not_in. rewrite Hs. by rewrite (proj2 (one_of_spec _ _) Hin). Qed.
Lemma status_is_stopped r s t :
  n_status r = Some s → s ∈ stopped_statuses → t ∉ stopped_statuses → status_is t r = false.
Proof. intros Hs Hin Ht. unfold status_is. apply bool_decide_eq_false. congruence. Qed.

(** An UPDATE whose WHERE clause leaves stopped nodes out. *)
Lemma update_nodes_stay p f :
  (∀ id r s, n_status r = Some s → s ∈ stopped_statuses → p id r = false) →
  changes stopped_stay (update_nodes p f).
Proof.
  intros Hp. apply (changes_exec stopped_stay). intros e db. simpl. split; simpl.
  - intros id. rewrite lookup_update_where. intros [r (r' & Hr & _)%fmap_Some]. by exists r'.
  - intros id r s Hr Hs Hst. rewrite lookup_update_where, Hr. simpl. by rewrite (Hp id r s).
Qed.

Lemma CleanupDeletedNodes_stay thr : changes stopped_stay (CleanupDeletedNodes thr).
Proof.
  unfold CleanupDeletedNodes. apply (changes_tx_commit stopped_stay). intros e st a st' Hrun.
  apply bind_ok in Hrun as (ids & st1 & Hq & Hrun). apply query_ok in Hq as [Hids Hdb1].
  change (ids = expired_ids thr (st_db st)) in Hids.
  case_bool_decide.
  { injection Hrun as <- <-. by apply stopped_stay_eq; rewrite Hdb1. }
  apply bind_ok in Hrun as ([] & st2 & Hdet & Hrun). apply bind_ok in Hrun as ([] & st3 & Hpur & Hrun).
  apply bind_ok in Hrun as (n & st4 & Hdel & Hrun). injection Hrun as <- <-.
  assert (nodes (st_db st3) = nodes (st_db st)) as Hn3.
  { rewrite <- Hdb1. clear Hdel. unfold detachDeletedNodeHistoryTx, purgeDeletedNodeDependentsTx in *.
    run_ok. repeat match goal with H : st_db ?s = _ |- context [nodes (st_db ?s)] => rewrite H; simpl end.
    done. }
  apply stmt_ok in Hdel as (Hdel & _). unfold delete_nodes in Hdel.
  destruct (_ || _); [done|]. injection Hdel as _ <-.
  split; simpl; rewrite Hn3.
  - intros id. rewrite lookup_delete_where. intros [r Hr]. by case_match.
  - intros id r s Hr Hs Hst. rewrite lookup_delete_where, Hr.
    destruct (one_of id ids) eqn:Ho; [|done]. rewrite Hids, (expired_ids_spec thr _ _ r) in Ho by done.
    unfold expired_deleted, status_is in Ho. bools. congruence.
Qed.

Lemma run_upkeep_stay op : changes stopped_stay (run_upkeep op).
Proof.
  assert (∀ t, changes stopped_stay (MarkOfflineNodes t)) as Hoff.
  { intros t. apply update_nodes_stay. intros id r s Hs Hin.
    rewrite (status_is_stopped r s "online"), andb_false_r; try done. by apply one_of_false. }
  assert (∀ t, changes stopped_stay (MarkStaleNodes t)) as Hstale.
  { intros t. apply update_nodes_stay. intros id r s Hs Hin.
    rewrite (status_is_stopped r s "offline"), andb_false_r; try done. by apply one_of_false. }
  pose proof CleanupDeletedNodes_stay as Hdel.
  destruct op; unfold run_upkeep, UpdateNodeHeartbeat, UpdateNodePublicIdentity, CleanupStaleNodes,
    MarkExpiredNodeCertificates; chg; try done.
  1, 2: apply update_nodes_stay; intros id r s Hs Hin;
    rewrite (status_not_in_stopped r s) by done; by rewrite ?andb_false_r.
  apply (changes_exec stopped_stay). intros e db. by apply stopped_stay_eq.
Qed.

(** Over any sequence of heartbeats and background sweeps, with any
    statement failing, no suspended, banned or deleted node changes its status;
    a node disappears only if it was marked deleted, and none appears. *)
Theorem upkeep_never_revives ops st :
  stopped_stay (st_db st) (st_db (run_upkeeps ops st)).
Proof.
  revert st. induction ops as [|[e op] ops IH]; intros st; simpl; [reflexivity|].
  etrans; [apply (run_upkeep_stay op e st)|apply IH].
Qed.

(** ** SaveNode *)

(** The UNIQUE constraint on [public_key]. *)
Definition keys_unique (db : DB) : Prop :=
  ∀ id id' r r', nodes db !! id = Some r → nodes db !! id' = Some r' →
  n_public_key r = n_public_key r' → id = id'.

Lemma node_by_key_Some db key id r :
  node_by_key db key = Some (id, r) → nodes db !! id = Some r ∧ n_public_key r = key.
Proof.
  unfold node_by_key. intros Hh%head_Some_elem_of.
  apply select_where_elem in Hh as [Hr Hk]. by apply String.eqb_eq in Hk.
Qed.
Lemma node_by_key_None db key id r :
  node_by_key db key = None → nodes db !! id = Some r → n_public_key r ≠ key.
Proof.
  intros Hh Hr. pose proof (head_select_None _ _ Hh id r Hr) as Hk. by apply String.eqb_neq in Hk.
Qed.
(** The row is the one the key names. *)
Lemma node_by_key_unique db id r :
  keys_unique db → nodes db !! id = Some r → node_by_key db (n_public_key r) = Some (id, r).
Proof.
  intros Hu Hr. destruct (node_by_key db (n_public_key r)) as [[id' r']|] eqn:Hk.
  - apply node_by_key_Some in Hk as [Hr' Hk]. assert (id' = id) as -> by by eapply Hu.
    by simplify_eq.
  - by destruct (node_by_key_None _ _ _ _ Hk Hr).
Qed.

(** Whose a node is: its key and its tenant. *)
Definition node_identity (db : DB) : gmap UUID (string * UUID) :=
  (λ r, (n_public_key r, n_tenant_id r)) <$> nodes db.
Lemma node_identity_lookup db db' id r : same node_identity db db' → nodes db !! id = Some r →
  ∃ r', nodes db' !! id = Some r' ∧ n_public_key r' = n_public_key r ∧ n_tenant_id r' = n_tenant_id r.
Proof.
  unfold same, node_identity. intros Hs Hr. apply (f_equal (.!! id)) in Hs.
  rewrite !lookup_fmap, Hr in Hs. apply fmap_Some in Hs as (r' & Hr' & [= Hk Ht]). by exists r'.
Qed.
Lemma node_identity_keys db db' : same node_identity db db' → keys_unique db → keys_unique db'.
Proof.
  intros Hs Hu id id' r r' Hr Hr' Hk. symmetry in Hs.
  destruct (node_identity_lookup _ _ _ _ Hs Hr) as (q & Hq & Hqk & _).
  destruct (node_identity_lookup _ _ _ _ Hs Hr') as (q' & Hq' & Hqk' & _).
  eapply Hu; [done..|congruence].
Qed.
Lemma update_nodes_identity p f :
  (∀ e r, n_public_key (f e r) = n_public_key r ∧ n_tenant_id (f e r) = n_tenant_id r) →
  changes (same node_identity) (update_nodes p f).
Proof.
  intros Hf. apply (changes_exec (same node_identity)). intros e db. unfold same, node_identity. simpl.
  apply map_eq. intros id. rewrite !lookup_fmap, lookup_update_where.
  destruct (nodes db !! id) as [r|]; [|done]. simpl. destruct (p id r); [|done].
  by destruct (Hf e r) as [-> ->].
Qed.
Lemma UpdateNodeHeartbeat_identity id now : changes (same node_identity) (UpdateNodeHeartbeat id now).
Proof.
  unfold UpdateNodeHeartbeat. apply (changes_bind (same node_identity)); [|intros; chg].
  by apply update_nodes_identity.
Qed.
Lemma UpdateNodePublicIdentity_identity id ip endpoint :
  changes (same node_identity) (UpdateNodePublicIdentity id ip endpoint).
Proof.
  unfold UpdateNodePublicIdentity. destruct (_ && _); [chg|].
  apply (changes_bind (same node_identity)); [|intros; chg]. by apply update_nodes_identity.
Qed.
#[export] Hint Resolve UpdateNodeHeartbeat_identity UpdateNodePublicIdentity_identity : aria.
#[export] Hint Extern 2 (changes (same node_identity) (update_nodes _ _)) =>
  (apply update_nodes_identity; intros; split; reflexivity) : aria.
Lemma node_by_key_identity db db' key id r : keys_unique db → same node_identity db db' →
  node_by_key db' key = Some (id, r) →
  ∃ r', node_by_key db key = Some (id, r') ∧ n_tenant_id r' = n_tenant_id r.
Proof.
  intros Hu Hs [Hr Hk]%node_by_key_Some. symmetry in Hs.
  destruct (node_identity_lookup _ _ _ _ Hs Hr) as (r' & Hr' & Hk' & Ht'). exists r'. split; [|done].
  rewrite <- Hk, <- Hk'. by apply node_by_key_unique.
Qed.
Lemma node_by_key_identity_None db db' key : same node_identity db db' →
  node_by_key db' key = None → node_by_key db key = None.
Proof.
  intros Hs Hn. destruct (node_by_key db key) as [[id r]|] eqn:Hk; [|done]. apply node_by_key_Some in Hk as [Hr Hk].
  destruct (node_identity_lookup _ _ _ _ Hs Hr) as (r' & Hr' & Hk' & _).
  by destruct (node_by_key_None _ _ _ _ Hn Hr' (eq_trans Hk' Hk)).
Qed.

Lemma keys_unique_insert db id row :
  keys_unique db →
  (∀ id' r', nodes db !! id' = Some r' → n_public_key r' = n_public_key row → id' = id) →
  keys_unique (set_nodes (<[id := row]> (nodes db)) db).
Proof.
  intros Hu Hrow k k' r r'. simpl. rewrite !lookup_insert_Some.
  intros [[<- <-]|[? Hk]] [[<- <-]|[? Hk']] Heq; try done.
  - symmetry. by eapply Hrow.
  - by eapply Hrow.
  - by eapply Hu.
Qed.

(** [SaveNode] is an upsert by public key: the key stays unique, a node that
    has the key keeps its id, tenant, creation time, token version and first
    enrolment token, any other node is untouched, and the node is online with
    the given address — whatever its status was, also suspended or banned. *)
Theorem SaveNode_upserts node e st saved st' :
  keys_unique (st_db st) → SaveNode (Some node) e st = (Ok saved, st') →
  keys_unique (st_db st') ∧
  (∀ id, id ≠ N_ID saved → nodes (st_db st') !! id = nodes (st_db st) !! id) ∧
  ∃ r, nodes (st_db st') !! N_ID saved = Some r ∧
    n_public_key r = N_PublicKey node ∧ n_status r = Some "online" ∧ n_offline_since r = None ∧
    n_ip_offset r = N_IPOffset node ∧ n_assigned_ip r = N_AssignedIP node ∧
    match node_by_key (st_db st) (N_PublicKey node) with
    | Some (id, old) =>
      N_ID saved = id ∧ n_tenant_id r = n_tenant_id old ∧ n_created_at r = n_created_at old ∧
      n_runtime_token_version r = n_runtime_token_version old ∧
      (is_Some (n_enrolled_with_token old) → n_enrolled_with_token r = n_enrolled_with_token old)
    | None => nodes (st_db st) !! N_ID saved = None ∧ n_tenant_id r = N_TenantID node
    end.
Proof.
  intros Hu (Hs & _ & _)%stmt_ok.
  destruct (node_by_key (st_db st) (N_PublicKey node)) as [[id old]|] eqn:Hk.
  - injection Hs as <- <-. apply node_by_key_Some in Hk as [Hold Hkey]. simpl. split_and!.
    + apply keys_unique_insert; [done|]. intros id' r' Hr' Heq. by eapply Hu.
    + intros id' Hne. by rewrite lookup_insert_ne.
    + eexists. rewrite lookup_insert_eq. split_and!; try done. simpl. by intros [t ->].
  - unfold node_exists in Hs. case_bool_decide as Hex; [done|]. destruct (negb _); [done|].
    injection Hs as <- <-. simpl.
    rewrite <- eq_None_not_Some in Hex. split_and!.
    + apply keys_unique_insert; [done|]. intros id' r' Hr' Heq.
      by destruct (node_by_key_None _ _ _ _ Hk Hr').
    + intros id' Hne. by rewrite lookup_insert_ne.
    + eexists. rewrite lookup_insert_eq. by split_and!.
Qed.

(** The nodes of [sample_db] with one of them suspended. *)
Definition suspended_db : DB :=
  sample_db <| nodes := <["n1" := sample_node "k1" "suspended" 2 0]> (nodes sample_db) |>.
Lemma suspended_keys_unique : keys_unique suspended_db.
Proof. intros id id' r r' Hr Hr' Hk. simpl in Hr, Hr'. concrete_rows; done. Qed.

(** A suspended node that is saved again is online. *)
Lemma SaveNode_upserts_witness :
  let node := scanNode "n1" (sample_node "k1" "suspended" 2 0) in
  ∃ saved st' r, SaveNode (Some node) (env_at 7) (mkSt suspended_db 0) = (Ok saved, st') ∧
    N_ID saved = "n1" ∧ nodes (st_db st') !! "n1" = Some r ∧ n_status r = Some "online".
Proof.
  intros node.
  destruct (SaveNode (Some node) (env_at 7) (mkSt suspended_db 0)) as [[saved|x] st'] eqn:Hrun;
    [|by vm_compute in Hrun].
  destruct (SaveNode_upserts node (env_at 7) (mkSt suspended_db 0) saved st' suspended_keys_unique Hrun)
    as (_ & _ & r & Hr & _ & Hs & _ & _ & _ & Hid).
  assert (N_ID saved = "n1") as Heq by (vm_compute in Hid; apply Hid).
  exists saved, st', r. rewrite Heq in Hr. by split_and!.
Defined.
