(* ===== verification/IPGroups.v ===== *)
(** * IP groups

    [pkg/controllerstorage/ip_groups.go] and [ip_group_references.go]: named sets
    of networks that policy rules refer to, and the inline groups that stand for a
    network written in a rule.  SHA-256 is a parameter. *)

From S2P Require Import Prelude GoStr Netip NetipText Records PolicyConflict CidrColumn Store Events ControlState AgentCommands PolicySync Nodes.

Open Scope Z_scope.

Definition IPGroupKindCustom : string := "custom".
Definition IPGroupKindInline : string := "inline".
Definition IPGroupKindSystem : string := "system".
Definition IPGroupAnyName : string := "any".

Record IPGroupWarning := mkIPGroupWarning {
  wn_Type : string;
  wn_CIDR : string;
  wn_OverlapsGroupID : string;
  wn_OverlapsGroupName : string;
  wn_OverlapsCIDR : string;
  wn_Resolution : string;
}.

(** [crypto/sha256]: the 32 bytes of a digest. *)
Class Sha256 := { Sum256 : string → text }.

(** ** Normalisation *)

Definition normalizeCIDR (value : string) : result string :=
  let trimmed := TrimSpace value in
  if (trimmed =? "")%string || EqualFold trimmed "any" || (trimmed =? "0")%string
  then Ok "0.0.0.0/0" else
  match ParsePrefix trimmed with
  | Some prefix => Ok (Prefix_String (Masked prefix))
  | None =>
    match ParseAddr trimmed with
    | None => Err (ErrorString ("invalid CIDR " +:+ Quote value))
    | Some addr =>
      if Is4 addr then Ok (Prefix_String (PrefixFrom addr 32))
      else Ok (Prefix_String (PrefixFrom addr 128))
    end
  end.

Definition normalizeIPGroupName (name : string) : string := TrimSpace name.
Definition normalizeIPGroupKind (kind : string) : string :=
  let trimmed := ToLower (TrimSpace kind) in
  if (trimmed =? "")%string then IPGroupKindCustom else trimmed.
Definition validateIPGroupKind (kind : string) : result unit :=
  if one_of kind [IPGroupKindCustom; IPGroupKindInline; IPGroupKindSystem] then Ok ()
  else Err (ErrorString ("unsupported ip group kind: " +:+ kind)).

(** The loop of [normalizeIPGroupMembers]: the first member of each network, in
    canonical text, until one is malformed. *)
Fixpoint dedupe_members (seen : list string) (members : list IPGroupMemberRecord)
    : result (list IPGroupMemberRecord) :=
  match members with
  | [] => Ok []
  | member :: rest =>
    cidr ← normalizeCIDR (m_CIDR member);
    if one_of cidr seen then dedupe_members seen rest else
    normalized ← dedupe_members (cidr :: seen) rest;
    Ok (member <| m_CIDR := cidr |> <| m_Note := TrimSpace (m_Note member) |> :: normalized)
  end.
Definition cidr_before (a b : IPGroupMemberRecord) : bool := str_ltb (m_CIDR a) (m_CIDR b).
Definition normalizeIPGroupMembers (members : list IPGroupMemberRecord)
    : result (list IPGroupMemberRecord) :=
  normalized ← dedupe_members [] members;
  Ok (SliceStable cidr_before normalized).

Definition normalizeIPGroupForWrite (group : IPGroupRecord) : result IPGroupRecord :=
  let normalized := group <| g_Name := normalizeIPGroupName (g_Name group) |>
    <| g_Description := TrimSpace (g_Description group) |>
    <| g_Kind := normalizeIPGroupKind (g_Kind group) |> in
  if (g_TenantID normalized =? uuid_Nil)%string then Err (ErrorString "tenant_id is required") else
  if (g_Name normalized =? "")%string then Err (ErrorString "ip group name is required") else
  _ ← validateIPGroupKind (g_Kind normalized);
  members ← normalizeIPGroupMembers (g_Members group);
  if bool_decide (members = [])
     && negb ((g_Kind normalized =? IPGroupKindSystem)%string
              && (g_Name normalized =? IPGroupAnyName)%string)
  then Err (ErrorString "ip group requires at least one CIDR member")
  else Ok (normalized <| g_Members := members |>).

(** [hex.EncodeToString]. *)
Definition hex_encode (bytes : text) : string :=
  String.string_of_list_ascii
    (bytes ≫= λ b, let n := N_of_ascii b in [hex_digit (n / 16); hex_digit (n mod 16)]).
(** [strings.Join(l, ",")]. *)
Fixpoint join_comma (l : list string) : string :=
  match l with
  | [] => ""
  | [s] => s
  | s :: l' => s +:+ "," +:+ join_comma l'
  end.
Definition inlineIPGroupName `{Sha256} (cidrs : list string) : string :=
  "inline:" +:+ hex_encode (take 8 (Sum256 (join_comma (SliceStable str_ltb cidrs)))).

Definition withIPGroupID (members : list IPGroupMemberRecord) (groupID : UUID)
    : list IPGroupMemberRecord :=
  (λ m, m <| m_GroupID := groupID |>) <$> members.

(** ** Statements *)

Section store.
Context `{CidrText}.

Definition scanIPGroup (id : UUID) (r : IPGroupRow) : IPGroupRecord :=
  mkIPGroup id (ig_tenant_id r) (ig_name r) (ig_description r) (ig_kind r) (ig_created_by r) []
    (ig_created_at r) (ig_updated_at r).
Definition set_group (id : UUID) (r : IPGroupRow) (db : DB) : DB :=
  db <| ip_groups := <[id := r]> (ip_groups db) |>.
Definition group_named (tenantID : UUID) (name : string) (_ : UUID) (r : IPGroupRow) : bool :=
  (ig_tenant_id r =? tenantID)%string && (ig_name r =? name)%string.
Definition find_group (tenantID : UUID) (name : string) (db : DB) : option (UUID * IPGroupRow) :=
  head (select_where (group_named tenantID name) (ip_groups db)).
Definition group_kind_ok (kind : string) : bool :=
  one_of kind [IPGroupKindCustom; IPGroupKindInline; IPGroupKindSystem].
Definition user_ref_ok (db : DB) (userID : option UUID) : bool :=
  match userID with Some u => bool_decide (is_Some (users db !! u)) | None => true end.

(** The row an INSERT adds under a generated identifier. *)
Definition new_group (id : UUID) (row : IPGroupRow) (db : DB) : result (IPGroupRecord * DB) :=
  if negb (group_kind_ok (ig_kind row)) then Err (ErrConstraint "ip_groups_kind_check") else
  if negb (tenant_exists db (ig_tenant_id row)) then Err (ErrConstraint "ip_groups_tenant_id_fkey") else
  if negb (user_ref_ok db (ig_created_by row)) then Err (ErrConstraint "ip_groups_created_by_fkey") else
  match ip_groups db !! id with
  | Some _ => Err (ErrConstraint "ip_groups_pkey")
  | None => Ok (scanIPGroup id row, set_group id row db)
  end.
Definition insertIPGroupSQL (group : IPGroupRecord) : M IPGroupRecord :=
  stmt (λ e id db,
    match find_group (g_TenantID group) (g_Name group) db with
    | Some _ => Err (ErrConstraint "ip_groups_tenant_id_name_key")
    | None => new_group id (mkIPGroupRow (g_TenantID group) (g_Name group) (g_Description group)
                              (g_Kind group) (g_CreatedBy group) (env_now e) (env_now e)) db
    end).
(** [ON CONFLICT (tenant_id, name) DO UPDATE SET updated_at = NOW()]. *)
Definition upsertInlineIPGroupSQL (tenantID : UUID) (name description kind : string)
    : M IPGroupRecord :=
  stmt (λ e id db,
    match find_group tenantID name db with
    | Some (id', r) =>
      let r' := r <| ig_updated_at := env_now e |> in
      Ok (scanIPGroup id' r', set_group id' r' db)
    | None => new_group id (mkIPGroupRow tenantID name description kind None (env_now e) (env_now e)) db
    end).

Definition group_exists (db : DB) (groupID : UUID) : bool :=
  bool_decide (is_Some (ip_groups db !! groupID)).
Definition set_member (id : UUID) (r : IPGroupMemberRow) (db : DB) : DB :=
  db <| ip_group_members := <[id := r]> (ip_group_members db) |>.
Definition member_of (groupID : UUID) (cidr : Prefix) (_ : UUID) (r : IPGroupMemberRow) : bool :=
  (im_group_id r =? groupID)%string && bool_decide (im_cidr r = cidr).
Definition bad_cidr : error := ErrorString "invalid input syntax for type cidr".
(** [INSERT INTO ip_group_members], with [ON CONFLICT (group_id, cidr) DO UPDATE
    SET note] or without. *)
Definition insert_member (tenantID groupID : UUID) (member : IPGroupMemberRecord) (upsert : bool)
    : M unit :=
  stmt (λ e id db,
    match cidr_in (m_CIDR member) with
    | None => Err bad_cidr
    | Some cidr =>
      let note := TrimSpace (m_Note member) in
      if negb (tenant_exists db tenantID && group_exists db groupID)
      then Err (ErrConstraint "ip_group_members foreign key") else
      match head (select_where (member_of groupID cidr) (ip_group_members db)) with
      | Some (id', r) =>
        if upsert then Ok ((), set_member id' (r <| im_note := note |>) db)
        else Err (ErrConstraint "ip_group_members_group_id_cidr_key")
      | None =>
        match ip_group_members db !! id with
        | Some _ => Err (ErrConstraint "ip_group_members_pkey")
        | None => Ok ((), set_member id (mkIPGroupMemberRow tenantID groupID cidr note (env_now e)) db)
        end
      end
    end).
Definition insertIPGroupMembers (tenantID groupID : UUID) (members : list IPGroupMemberRecord)
    (upsert : bool) : M unit :=
  for_each members (λ member, insert_member tenantID groupID member upsert).

(** Members of the tenant's other groups that satisfy a test, joined with their
    group. *)
Definition other_members (tenantID excludeGroupID : UUID) (test : Prefix → bool) (db : DB)
    : list (UUID * string * Prefix) :=
  omap (λ km : UUID * IPGroupMemberRow,
    g ← ip_groups db !! im_group_id km.2;
    if (im_tenant_id km.2 =? tenantID)%string && negb (im_group_id km.2 =? excludeGroupID)%string
       && test (im_cidr km.2)
    then Some (im_group_id km.2, ig_name g, im_cidr km.2) else None)
    (map_to_list (ip_group_members db)).
Definition exactDuplicateIPGroupMemberSQL (tenantID excludeGroupID : UUID) (cidr : string)
    : M (UUID * string * string) :=
  stmt (λ _ _ db,
    match cidr_in cidr with
    | None => Err bad_cidr
    | Some p =>
      match other_members tenantID excludeGroupID (λ q, bool_decide (q = p)) db with
      | (id, name, q) :: _ => Ok ((id, name, cidr_out q), db)
      | [] => Err ErrNoRows
      end
    end).
Definition rejectExactDuplicateIPGroupMembersWith (tenantID excludeGroupID : UUID)
    (members : list IPGroupMemberRecord) : M unit :=
  for_each members (λ member,
    found ← attempt (exactDuplicateIPGroupMemberSQL tenantID excludeGroupID (m_CIDR member));
    match found with
    | Ok (existingID, existingName, existingCIDR) =>
      fail (ErrorString ("duplicate CIDR " +:+ existingCIDR +:+ " already belongs to IP group "
                         +:+ existingName +:+ " (" +:+ existingID +:+ ")"))
    | Err ErrNoRows => mret ()
    | Err x => fail x
    end).
Definition rejectExactDuplicateIPGroupMembers := rejectExactDuplicateIPGroupMembersWith.

(** ** Reads *)

(** [ORDER BY cidr::text]. *)
Definition member_before (a b : UUID * IPGroupMemberRow) : bool :=
  str_ltb (cidr_out (im_cidr a.2)) (cidr_out (im_cidr b.2)).
Definition scan_member (kr : UUID * IPGroupMemberRow) : IPGroupMemberRecord :=
  mkMember kr.1 (im_group_id kr.2) (cidr_out (im_cidr kr.2)) (im_note kr.2).
Definition listIPGroupMembersWith (tenantID groupID : UUID) : M (list IPGroupMemberRecord) :=
  query (λ _ db, scan_member <$> SliceStable member_before
    (select_where (λ _ r, (im_tenant_id r =? tenantID)%string && (im_group_id r =? groupID)%string)
       (ip_group_members db))).
Definition listIPGroupMembers := listIPGroupMembersWith.

Definition with_members (tenantID : UUID) (group : IPGroupRecord) : M IPGroupRecord :=
  members ← listIPGroupMembersWith tenantID (g_ID group);
  mret (group <| g_Members := members |>).
Definition getIPGroupWith (tenantID groupID : UUID) : M IPGroupRecord :=
  group ← query_row (λ _ db,
    g ← ip_groups db !! groupID;
    if (ig_tenant_id g =? tenantID)%string then Some (scanIPGroup groupID g) else None);
  with_members tenantID group.
Definition GetIPGroup := getIPGroupWith.

(** [ORDER BY kind, name], and by id for the snapshot. *)
Definition group_before (a b : UUID * IPGroupRow) : bool :=
  str_ltb (ig_kind a.2) (ig_kind b.2)
  || ((ig_kind a.2 =? ig_kind b.2)%string && str_ltb (ig_name a.2) (ig_name b.2)).
Definition group_before_id (a b : UUID * IPGroupRow) : bool :=
  group_before a b
  || ((ig_kind a.2 =? ig_kind b.2)%string && (ig_name a.2 =? ig_name b.2)%string
      && str_ltb a.1 b.1).
Definition ListIPGroups (tenantID : UUID) : M (list IPGroupRecord) :=
  rows ← query (λ _ db, SliceStable group_before
    (select_where (λ _ g, (ig_tenant_id g =? tenantID)%string) (ip_groups db)));
  map_each (λ kg, with_members tenantID (scanIPGroup kg.1 kg.2)) rows.

Definition refers_to (groupID : UUID) (ref : option UUID) : bool := bool_decide (ref = Some groupID).
Definition acl_refers (groupID : UUID) (r : ACLRow) : bool :=
  refers_to groupID (ar_src_group_id r) || refers_to groupID (ar_dst_group_id r).
(** The groups the enabled rules of a node name. *)
Definition snapshot_group (tenantID nodeID groupID : UUID) (db : DB) : bool :=
  exists_where (λ _ r, (ar_tenant_id r =? tenantID)%string && (ar_node_id r =? nodeID)%string
                       && ar_enabled r && acl_refers groupID r) (acl_rules db)
  || exists_where (λ _ r, (qr_tenant_id r =? tenantID)%string && (qr_node_id r =? nodeID)%string
                          && qr_enabled r && refers_to groupID (qr_group_id r)) (qos_rules db).
Definition ListIPGroupsForNodePolicySnapshot (tenantID nodeID : UUID) : M (list IPGroupRecord) :=
  rows ← query (λ _ db, SliceStable group_before_id
    (select_where (λ id g, (ig_tenant_id g =? tenantID)%string
                           && snapshot_group tenantID nodeID id db) (ip_groups db)));
  map_each (λ kg, with_members tenantID (scanIPGroup kg.1 kg.2)) rows.

(** ** Operations *)

Definition CreateIPGroup (group : option IPGroupRecord) : M IPGroupRecord :=
  match group with
  | None => fail (ErrorString "ip group cannot be nil")
  | Some group =>
    normalized ← lift (λ _, normalizeIPGroupForWrite group);
    _ ← rejectExactDuplicateIPGroupMembers (g_TenantID normalized) uuid_Nil (g_Members normalized);
    tx (
      created ← insertIPGroupSQL normalized;
      _ ← insertIPGroupMembers (g_TenantID created) (g_ID created) (g_Members normalized) false;
      mret (Commit (created <| g_Members := withIPGroupID (g_Members normalized) (g_ID created) |>)))
  end.

Definition update_group_row (tenantID groupID : UUID) (normalized : IPGroupRecord)
    : M IPGroupRecord :=
  stmt (λ e _ db,
    match ip_groups db !! groupID with
    | Some g =>
      if negb (ig_tenant_id g =? tenantID)%string then Err ErrNoRows else
      if negb (group_kind_ok (g_Kind normalized)) then Err (ErrConstraint "ip_groups_kind_check") else
      if exists_where (λ id r, negb (id =? groupID)%string
                               && group_named tenantID (g_Name normalized) id r) (ip_groups db)
      then Err (ErrConstraint "ip_groups_tenant_id_name_key") else
      let g' := g <| ig_name := g_Name normalized |>
                  <| ig_description := g_Description normalized |>
                  <| ig_kind := g_Kind normalized |> <| ig_updated_at := env_now e |> in
      Ok (scanIPGroup groupID g', set_group groupID g' db)
    | None => Err ErrNoRows
    end).
Definition delete_members (tenantID groupID : UUID) : M unit :=
  exec (λ _ db, ((), db <| ip_group_members := delete_where
    (λ _ r, (im_tenant_id r =? tenantID)%string && (im_group_id r =? groupID)%string)
    (ip_group_members db) |>)).
Definition updateIPGroupWith (tenantID groupID : UUID) (group : option IPGroupRecord)
    : M IPGroupRecord :=
  match group with
  | None => fail (ErrorString "ip group cannot be nil")
  | Some group =>
    normalized ← lift (λ _, normalizeIPGroupForWrite
                              (group <| g_TenantID := tenantID |> <| g_ID := groupID |>));
    _ ← rejectExactDuplicateIPGroupMembersWith tenantID groupID (g_Members normalized);
    updated ← update_group_row tenantID groupID normalized;
    _ ← delete_members tenantID groupID;
    _ ← insertIPGroupMembers tenantID groupID (g_Members normalized) false;
    mret (updated <| g_Members := withIPGroupID (g_Members normalized) groupID |>)
  end.
Definition UpdateIPGroupByID (tenantID groupID : UUID) (group : option IPGroupRecord)
    : M IPGroupRecord :=
  tx (updated ← updateIPGroupWith tenantID groupID group; mret (Commit updated)).
Definition UpdateIPGroup (group : option IPGroupRecord) : M IPGroupRecord :=
  match group with
  | None => fail (ErrorString "ip group cannot be nil")
  | Some g => UpdateIPGroupByID (g_TenantID g) (g_ID g) group
  end.

(** The rules of the tenant that refer to a group. *)
Definition referencedIPGroup (tenantID groupID : UUID) (db : DB) : bool :=
  exists_where (λ _ r, (ar_tenant_id r =? tenantID)%string && acl_refers groupID r) (acl_rules db)
  || exists_where (λ _ r, (qr_tenant_id r =? tenantID)%string
                          && refers_to groupID (qr_group_id r)) (qos_rules db).
(** [DELETE FROM ip_groups], with the foreign keys of the rules and the cascade
    to the members. *)
Definition delete_group (tenantID groupID : UUID) (db : DB) : result (Z * DB) :=
  match ip_groups db !! groupID with
  | Some g =>
    if negb (ig_tenant_id g =? tenantID)%string then Ok (0, db) else
    if exists_where (λ _ r, acl_refers groupID r) (acl_rules db)
       || exists_where (λ _ r, refers_to groupID (qr_group_id r)) (qos_rules db)
    then Err (ErrConstraint "ip_groups foreign key") else
    Ok (1, db <| ip_groups := delete groupID (ip_groups db) |>
              <| ip_group_members := delete_where (λ _ r, (im_group_id r =? groupID)%string)
                                       (ip_group_members db) |>)
  | None => Ok (0, db)
  end.
Definition DeleteIPGroup (tenantID groupID : UUID) : M unit :=
  tx (
    referenced ← query (λ _ db, referencedIPGroup tenantID groupID db);
    if (referenced : bool) then fail (ErrorString "ip group is referenced by policy rules") else
    rowsAffected ← stmt (λ _ _ db, delete_group tenantID groupID db);
    if rowsAffected =? 0 then fail ErrNoRows else mret (Commit ())).

(** ** Groups of a rule *)

Definition ensureInlineIPGroupWith `{Sha256} (tenantID : UUID) (cidrs : list string)
    : M IPGroupRecord :=
  normalizedMembers ← lift (λ _, normalizeIPGroupMembers
    ((λ cidr, mkMember uuid_Nil uuid_Nil cidr "inline") <$> cidrs));
  if bool_decide (normalizedMembers = [])
  then fail (ErrorString "inline ip group requires at least one CIDR") else
  group ← upsertInlineIPGroupSQL tenantID (inlineIPGroupName (m_CIDR <$> normalizedMembers))
            "inline policy group" IPGroupKindInline;
  _ ← rejectExactDuplicateIPGroupMembersWith tenantID (g_ID group) normalizedMembers;
  _ ← insertIPGroupMembers tenantID (g_ID group) normalizedMembers true;
  mret (group <| g_Members := withIPGroupID normalizedMembers (g_ID group) |>).
Definition EnsureInlineIPGroup `{Sha256} (tenantID : UUID) (cidrs : list string)
    : M IPGroupRecord :=
  tx (group ← ensureInlineIPGroupWith tenantID cidrs; mret (Commit group)).

Definition resolvePolicyGroupRefWith `{Sha256} (tenantID : UUID) (explicit : NullUUID)
    (directCIDR : string) : M NullUUID :=
  match explicit with
  | Some groupID =>
    found ← query_row (λ _ db,
      g ← ip_groups db !! groupID;
      if (ig_tenant_id g =? tenantID)%string then Some groupID else None);
    mret (Some found)
  | None =>
    if policyCIDRIsAny directCIDR then mret None else
    group ← ensureInlineIPGroupWith tenantID [directCIDR];
    mret (Some (g_ID group))
  end.
Definition ResolvePolicyGroupRef `{Sha256} := resolvePolicyGroupRefWith.

(** ** Overlaps *)

(** [ORDER BY masklen(m.cidr) DESC, g.name ASC]. *)
Definition overlap_before (a b : UUID * string * Prefix) : bool :=
  (prefix_bits b.2 <? prefix_bits a.2)
  || ((prefix_bits a.2 =? prefix_bits b.2) && str_ltb a.1.2 b.1.2).
Definition overlappingIPGroupsSQL (tenantID excludeGroupID : UUID) (cidr : string)
    : M (list (UUID * string * string)) :=
  stmt (λ _ _ db,
    match cidr_in cidr with
    | None => Err bad_cidr
    | Some p => Ok ((λ x, (x.1, cidr_out x.2)) <$> SliceStable overlap_before
                      (other_members tenantID excludeGroupID (λ q, prefixesOverlap q p) db), db)
    end).
Definition FindIPGroupOverlapWarnings (tenantID excludeGroupID : UUID)
    (members : list IPGroupMemberRecord) : M (list IPGroupWarning) :=
  normalizedMembers ← lift (λ _, normalizeIPGroupMembers members);
  warnings ← map_each (λ member,
    rows ← overlappingIPGroupsSQL tenantID excludeGroupID (m_CIDR member);
    mret ((λ x : UUID * string * string, mkIPGroupWarning "overlap" (m_CIDR member) x.1.1 x.1.2 x.2
             "longest_prefix_wins") <$> rows)) normalizedMembers;
  mret (concat warnings).

(** ** Nodes of a group *)

(** [ORDER BY hostname ASC, public_key ASC]. *)
Definition node_before (a b : UUID * NodeRow) : bool :=
  str_ltb (n_hostname a.2) (n_hostname b.2)
  || ((n_hostname a.2 =? n_hostname b.2)%string && str_ltb (n_public_key a.2) (n_public_key b.2)).
(** A node in service that a rule of its own ties to the group. *)
Definition node_refers (tenantID groupID : UUID) (db : DB) (id : UUID) (n : NodeRow) : bool :=
  (n_tenant_id n =? tenantID)%string && status_not_in stopped_statuses n
  && (exists_where (λ _ r, (ar_tenant_id r =? tenantID)%string && (ar_node_id r =? id)%string
                           && acl_refers groupID r) (acl_rules db)
      || exists_where (λ _ r, (qr_tenant_id r =? tenantID)%string && (qr_node_id r =? id)%string
                              && refers_to groupID (qr_group_id r)) (qos_rules db)).
Definition listNodesReferencingIPGroupWith (tenantID groupID : UUID) : M (list Node) :=
  query (λ _ db, (λ kn, scanNode kn.1 kn.2) <$>
    SliceStable node_before (select_where (node_refers tenantID groupID db) (nodes db))).
Definition ListNodesReferencingIPGroup := listNodesReferencingIPGroupWith.

(** [UpdateIPGroupAndQueuePolicySyncs] of [policy_sync.go]; [build] is the closure
    of the caller, run in the transaction. *)
Definition UpdateIPGroupAndQueuePolicySyncs (tenantID groupID : UUID) (group : option IPGroupRecord)
    (build : option (IPGroupRecord → list Node → M (list PolicySyncRequest)))
    : M (IPGroupRecord * list PolicySyncResult) :=
  result ← tx (
    updated ← updateIPGroupWith tenantID groupID group;
    nodes ← listNodesReferencingIPGroupWith tenantID groupID;
    requests ← (match build with Some f => f updated nodes | None => mret [] end : M (list PolicySyncRequest));
    results ← map_each queuePolicySyncTx requests;
    mret (Commit (updated, requests, results)));
  let '(updated, requests, results) := result in
  _ ← for_each (zip requests results) (λ rr, recordCommandQueuedAudit rr.1 (sr_Command rr.2));
  mret (updated, results).
End store.
