(* ===== verification/IPGroupsSpec.v ===== *)
(** * Properties of IP groups

    Canonical networks, the invariant of the group tables (no network belongs to
    two groups of a tenant), what is read back after a write, and the overlap
    warnings. *)

From S2P Require Import Prelude GoStr Netip NetipText Records PolicyConflict CidrColumn Store Events ControlState AgentCommands PolicySync Nodes IPGroups.

Open Scope Z_scope.

(** ** Canonical networks *)

(** The network a text stands for. *)
Definition cidr_network (s : string) : option Prefix :=
  match parsePolicyPrefix s with
  | AnyPrefix => ParsePrefix (if (TrimSpace s =? "::/0")%string then "::/0" else "0.0.0.0/0")
  | NetPrefix p => Some p
  | BadPrefix => None
  end.

Lemma any_network s : network (mkPrefix (mkAddr s 0 "") 0).
Proof. unfold network, prefix_wf, addr_in_range, BitLen. destruct s; vm_compute; repeat split; done. Qed.

Lemma policyCIDRIsAny_trim s : policyCIDRIsAny (TrimSpace s) = policyCIDRIsAny s.
Proof. unfold policyCIDRIsAny. by rewrite TrimSpace_idemp. Qed.

(** The keyword tests of [normalizeCIDR] are those of [policyCIDRIsAny] other
    than the two networks. *)
Definition any_keyword (s : string) : bool :=
  (TrimSpace s =? "")%string || EqualFold (TrimSpace s) "any" || (TrimSpace s =? "0")%string.
Lemma any_cases s : policyCIDRIsAny s = true →
  any_keyword s = true ∨ TrimSpace s = "0.0.0.0/0" ∨ TrimSpace s = "::/0".
Proof.
  unfold policyCIDRIsAny, any_keyword, EqualFold. intros Ha%one_of_spec.
  repeat (apply elem_of_cons in Ha as [Ha|Ha]); [| | | | |by apply elem_of_nil in Ha].
  - left. apply ToLower_plain in Ha; [|done]. by rewrite Ha.
  - left. rewrite Ha. by rewrite orb_true_r.
  - left. apply ToLower_plain in Ha; [|done]. by rewrite Ha, !orb_true_r.
  - right; left. by apply ToLower_plain in Ha.
  - right; right. by apply ToLower_plain in Ha.
Qed.
Lemma any_keyword_any s : any_keyword s = true → policyCIDRIsAny s = true.
Proof.
  unfold policyCIDRIsAny, any_keyword, EqualFold. rewrite !orb_true_iff, !String.eqb_eq.
  intros [[-> | ->]| ->]; reflexivity.
Qed.

Lemma normalizeCIDR_network s :
  normalizeCIDR s = match cidr_network s with
                    | Some p => Ok (Prefix_String p)
                    | None => Err (ErrorString ("invalid CIDR " +:+ Quote s))
                    end ∧
  (∀ p, cidr_network s = Some p → network p).
Proof.
  unfold normalizeCIDR, cidr_network. fold (any_keyword s). cbv zeta.
  unfold parsePolicyPrefix. rewrite !policyCIDRIsAny_trim.
  destruct (any_keyword s) eqn:Hk.
  - pose proof (any_keyword_any s Hk) as Ha. rewrite Ha.
    assert (TrimSpace s ≠ "::/0") as Hn by (intros Hs; by rewrite <-policyCIDRIsAny_trim, Hs in Ha; unfold any_keyword in Hk; rewrite Hs in Hk).
    rewrite (proj2 (String.eqb_neq _ _) Hn). split; [reflexivity|].
    intros p [= <-]. apply (any_network true).
  - destruct (policyCIDRIsAny s) eqn:Ha.
    + destruct (any_cases s Ha) as [?|[-> | ->]]; [congruence|..]; (split; [reflexivity|]);
        intros p [= <-]; [apply (any_network true)|apply (any_network false)].
    + destruct (ParsePrefix (TrimSpace s)) as [q|] eqn:Hq.
      { split; [done|]. intros p [= <-].
        apply Masked_network; [by eapply ParsePrefix_wf|by eapply ParsePrefix_range]. }
      destruct (ParseAddr (TrimSpace s)) as [a|] eqn:Hp; [|done].
      apply PrefixFrom_full_network in Hp. unfold BitLen, Is4 in *.
      destruct (addr_is4 a); (split; [done|]); by intros q [= <-].
Qed.

Lemma normalizeCIDR_ok s t : normalizeCIDR s = Ok t ↔ ∃ p, cidr_network s = Some p ∧ t = Prefix_String p.
Proof.
  rewrite (proj1 (normalizeCIDR_network s)). destruct (cidr_network s); [|naive_solver].
  split; [intros [= <-]; eauto|by intros (q & [= <-] & ->)].
Qed.
Lemma cidr_network_wf s p : cidr_network s = Some p → network p.
Proof. apply normalizeCIDR_network. Qed.
Lemma cidr_network_text p : network p → cidr_network (Prefix_String p) = Some p.
Proof.
  intros Hp. unfold cidr_network. rewrite parsePolicyPrefix_String by done.
  destruct (Z.eqb_spec (prefix_bits p) 0) as [Hb|]; [|done].
  rewrite Prefix_String_trim by done. pose proof (network_zero p Hp Hb) as Ht. rewrite Ht.
  destruct Hp as (Hw & Hr & _). pose proof (ParsePrefix_String p Hw Hr) as Hread. rewrite Ht in Hread.
  by destruct (addr_is4 (prefix_addr p)).
Qed.
Lemma normalizeCIDR_text p : network p → normalizeCIDR (Prefix_String p) = Ok (Prefix_String p).
Proof. intros Hp. apply normalizeCIDR_ok. exists p. split; [by apply cidr_network_text|done]. Qed.

(** The addresses a network selects: as policies read its text, everything when
    it has length zero. *)
Definition net_selects (p : Prefix) (a : Addr) : Prop := prefix_bits p = 0 ∨ Contains p a = true.
Lemma net_selects_text p a : network p → cidr_matches (Prefix_String p) a ↔ net_selects p a.
Proof.
  intros Hp. rewrite cidr_matches_eq, parsePolicyPrefix_String by done. unfold net_selects.
  destruct (Z.eqb_spec (prefix_bits p) 0); tauto.
Qed.
Lemma cidr_network_matches s p a : cidr_network s = Some p →
  net_selects p a ↔ prefix_bits p = 0 ∨ cidr_matches s a.
Proof.
  unfold cidr_network, net_selects. rewrite cidr_matches_eq.
  destruct (parsePolicyPrefix s); [|naive_solver|done]. intros H.
  assert (prefix_bits p = 0) by (destruct (TrimSpace s =? "::/0")%string; by injection H as <-). tauto.
Qed.

(** Networks that select the same addresses are the same. *)
Lemma same_base_eq p q : network p → network q → prefix_bits p = prefix_bits q →
  Contains p (prefix_addr q) = true → p = q.
Proof.
  intros (Hp & _ & Hmp) (Hq & _ & Hmq) Hb Hc. apply Contains_spec in Hc as (_ & Hf & Hv); [|done].
  destruct Hp as [Hzp _], Hq as [Hzq _].
  destruct p as [[pf pv pz] pb], q as [[qf qv qz] qb]. simpl in *. subst.
  unfold Masked, host_bits, BitLen in *. simpl in *.
  injection Hmp as Hmp. injection Hmq as Hmq. rewrite Hv in Hmq. by rewrite <-Hmq, <-Hmp at 1.
Qed.
Lemma network_ext p q : network p → network q → prefix_bits p ≠ 0 → prefix_bits q ≠ 0 →
  (∀ a, net_selects p a ↔ net_selects q a) → p = q.
Proof.
  intros Hp Hq Hp0 Hq0 Hext. unfold net_selects in Hext.
  assert (∀ a, Contains p a = true ↔ Contains q a = true) as Hc by (intros a; specialize (Hext a); tauto).
  pose proof Hp as (Hwp & _). pose proof Hq as (Hwq & _).
  pose proof (Contains_self p Hwp) as Hpp. pose proof (Contains_self q Hwq) as Hqq.
  assert (Contains p (prefix_addr q) = true) as Hpq by by apply Hc.
  assert (Contains q (prefix_addr p) = true) as Hqp by by apply Hc.
  pose proof Hpq as Hf%Contains_spec; [|done]. destruct Hf as (_ & Hf & _).
  apply same_base_eq; [done..| |done].
  destruct (Z.lt_trichotomy (prefix_bits p) (prefix_bits q)) as [Hlt|[?|Hlt]]; [|done|].
  - destruct (longer_prefix_proper p q) as (a & Ha & Hb); try done. apply Hc in Ha. congruence.
  - destruct (longer_prefix_proper q p) as (a & Ha & Hb); try done. apply Hc in Ha. congruence.
Qed.

(** C38. [normalizeCIDR] fails exactly on texts that policies do not read as
    a network, address or wildcard.  What it returns is its own normal form.  A
    prefix of length zero, the wildcard among them, becomes 0.0.0.0/0 or ::/0, by the
    family it is written in, and either selects every address: those two normal forms
    differ though they select the same.  Any other prefix selects as its normal form the
    addresses it selects as it is written, and two such inputs have the same
    normal form exactly when they select the same addresses. *)
Theorem normalizeCIDR_canonical s :
  (is_ok (normalizeCIDR s) = false ↔ parsePolicyPrefix s = BadPrefix) ∧
  ∀ t, normalizeCIDR s = Ok t →
    normalizeCIDR t = Ok t ∧
    (policyCIDRIsAny t = false → cidr_same s t) ∧
    (policyCIDRIsAny t = true → (t = "0.0.0.0/0" ∨ t = "::/0") ∧ ∀ a, cidr_matches t a) ∧
    ∀ s' t', normalizeCIDR s' = Ok t' → policyCIDRIsAny t = false → policyCIDRIsAny t' = false →
      (t = t' ↔ cidr_same s s').
Proof.
  assert (∀ p, network p → policyCIDRIsAny (Prefix_String p) = (prefix_bits p =? 0)) as Hany.
  { intros p Hp. pose proof (parsePolicyPrefix_String p Hp) as Hr.
    destruct (policyCIDRIsAny (Prefix_String p)) eqn:Ha.
    - unfold parsePolicyPrefix in Hr. rewrite policyCIDRIsAny_trim, Ha in Hr. by destruct (_ =? _).
    - destruct (prefix_bits p =? 0) eqn:Hb; [|done]. bools.
      rewrite (network_zero p Hp Hb) in Ha. by destruct (addr_is4 _). }
  assert (∀ s t p, cidr_network s = Some p → t = Prefix_String p → policyCIDRIsAny t = false →
    network p ∧ prefix_bits p ≠ 0 ∧ ∀ a, cidr_matches s a ↔ net_selects p a) as Hsel.
  { intros s0 t p Hs -> Ha. pose proof (cidr_network_wf _ _ Hs) as Hp. rewrite Hany in Ha by done. bools.
    split_and!; [done|done|]. intros a. rewrite (cidr_network_matches s0) by done. tauto. }
  split.
  { rewrite (proj1 (normalizeCIDR_network s)). unfold cidr_network.
    destruct (parsePolicyPrefix s); [by destruct (_ =? _)%string|done|done]. }
  intros t (p & Hs & Ht)%normalizeCIDR_ok. pose proof (cidr_network_wf _ _ Hs) as Hp. split_and!.
  - rewrite Ht. by apply normalizeCIDR_text.
  - intros Ha a. destruct (Hsel _ _ _ Hs Ht Ha) as (_ & _ & ->). by rewrite Ht, net_selects_text.
  - rewrite Ht. rewrite Hany by done. intros Ha. bools. split.
    + rewrite (network_zero p Hp Ha). destruct (addr_is4 _); [by left|by right].
    + intros a. apply net_selects_text; [done|]. by left.
  - intros s' t' (p' & Hs' & Ht')%normalizeCIDR_ok Ha Ha'.
    destruct (Hsel _ _ _ Hs Ht Ha) as (_ & Hb & Hm). destruct (Hsel _ _ _ Hs' Ht' Ha') as (Hp' & Hb' & Hm').
    rewrite Ht, Ht'. split.
    + intros Heq%Prefix_String_inj a; [|done..]. by rewrite Hm, Hm', Heq.
    + intros Hsame. f_equal. apply network_ext; [done..|]. intros a. by rewrite <-Hm, <-Hm'.
Qed.

(** ** Normal members *)

(** What [normalizeIPGroupMembers] returns: canonical texts, each once. *)
Definition normal_members (l : list IPGroupMemberRecord) : Prop :=
  NoDup (m_CIDR <$> l) ∧ ∀ m, m ∈ l → ∃ p, network p ∧ m_CIDR m = Prefix_String p.
(** ... those of the given members. *)
Definition members_of (members l : list IPGroupMemberRecord) : Prop :=
  (∀ m, m ∈ l → ∃ m0, m0 ∈ members ∧ normalizeCIDR (m_CIDR m0) = Ok (m_CIDR m)
                      ∧ m_Note m = TrimSpace (m_Note m0)) ∧
  ∀ m0, m0 ∈ members → ∃ c, normalizeCIDR (m_CIDR m0) = Ok c ∧ c ∈ m_CIDR <$> l.

Lemma dedupe_members_ok seen members l :
  dedupe_members seen members = Ok l →
  NoDup (m_CIDR <$> l) ∧ (∀ c, c ∈ m_CIDR <$> l → c ∉ seen) ∧
  (∀ m, m ∈ l → ∃ m0, m0 ∈ members ∧ normalizeCIDR (m_CIDR m0) = Ok (m_CIDR m)
                      ∧ m_Note m = TrimSpace (m_Note m0)) ∧
  (∀ m0, m0 ∈ members → ∃ c, normalizeCIDR (m_CIDR m0) = Ok c ∧ (c ∈ seen ∨ c ∈ m_CIDR <$> l)).
Proof.
  revert seen l. induction members as [|m ms IH]; intros seen l H; cbn [dedupe_members] in H.
  { injection H as <-. split_and!; [constructor|..]; by intros ? ?%elem_of_nil. }
  destruct (normalizeCIDR (m_CIDR m)) as [cidr|] eqn:Hc; [|done]. cbn [mbind result_bind] in H.
  destruct (one_of cidr seen) eqn:Ho.
  - apply IH in H as (Hnd & Hns & Hsrc & Hall). apply one_of_spec in Ho. split_and!; [done|done|..].
    + intros x Hx. destruct (Hsrc x Hx) as (m0 & ? & ?). exists m0. split; [by right|done].
    + intros m0 [->|Hm0]%elem_of_cons; [exists cidr; by split; [|left]|by apply Hall].
  - destruct (dedupe_members (cidr :: seen) ms) as [l'|] eqn:Hl; [|done]. injection H as <-.
    apply IH in Hl as (Hnd & Hns & Hsrc & Hall). apply one_of_false in Ho. split_and!.
    + rewrite fmap_cons. apply NoDup_cons. split; [|done]. intros Hin. apply Hns in Hin. apply Hin. by left.
    + intros c. rewrite fmap_cons. intros [->|Hin]%elem_of_cons; [done|].
      apply Hns in Hin. intros Hs. apply Hin. by right.
    + intros x [->|Hx]%elem_of_cons; [exists m; by split; [left|]|].
      destruct (Hsrc x Hx) as (m0 & ? & ?). exists m0. split; [by right|done].
    + rewrite fmap_cons. intros m0 [->|Hm0]%elem_of_cons.
      { exists cidr. split; [done|right]. by left. }
      destruct (Hall m0 Hm0) as (c & Hn & [[Hs|Hs]%elem_of_cons|Hin]); exists c; (split; [done|]);
        [right; rewrite Hs; by left|by left|right; by right].
Qed.
Lemma normalizeIPGroupMembers_ok members l :
  normalizeIPGroupMembers members = Ok l → normal_members l ∧ members_of members l.
Proof.
  unfold normalizeIPGroupMembers. destruct (dedupe_members [] members) as [l0|] eqn:Hl; [|done].
  intros [= <-]. apply dedupe_members_ok in Hl as (Hnd & _ & Hsrc & Hall).
  pose proof (SliceStable_Permutation cidr_before l0) as Hp.
  assert (∀ m, m ∈ SliceStable cidr_before l0 ↔ m ∈ l0) as Hin by (intros; by rewrite Hp).
  split; split.
  - by rewrite Hp.
  - intros m Hm%Hin. destruct (Hsrc m Hm) as (m0 & _ & (p & Hnet & Heq)%normalizeCIDR_ok & _).
    exists p. split; [by eapply cidr_network_wf|done].
  - intros m Hm%Hin. by apply Hsrc.
  - intros m0 Hm0. destruct (Hall m0 Hm0) as (c & Hc & [?%elem_of_nil|Hcl]); [done|].
    exists c. split; [done|]. by rewrite Hp.
Qed.

(** ** The group tables *)

Section tables.
Context `{CidrTextLaws}.

(** No network is in two member rows of a tenant; members belong to groups of
    their tenant; names are unique; the nil identifier names no group. *)
Record groups_ok (db : DB) : Prop := {
  go_member k m : ip_group_members db !! k = Some m → network (im_cidr m) ∧
    ∃ g, ip_groups db !! im_group_id m = Some g ∧ ig_tenant_id g = im_tenant_id m;
  go_exclusive k k' m m' : ip_group_members db !! k = Some m → ip_group_members db !! k' = Some m' →
    im_tenant_id m = im_tenant_id m' → im_cidr m = im_cidr m' → k = k';
  go_names id id' g g' : ip_groups db !! id = Some g → ip_groups db !! id' = Some g' →
    ig_tenant_id g = ig_tenant_id g' → ig_name g = ig_name g' → id = id';
  go_ids : ip_groups db !! uuid_Nil = None;
}.

(** A member row of a group with this network. *)
Definition holds (groupID : UUID) (p : Prefix) (db : DB) : Prop :=
  ∃ k m, ip_group_members db !! k = Some m ∧ im_group_id m = groupID ∧ im_cidr m = p.
(** No other group of the tenant has it. *)
Definition free_for (tenantID groupID : UUID) (p : Prefix) (db : DB) : Prop :=
  ∀ k m, ip_group_members db !! k = Some m → im_tenant_id m = tenantID → im_cidr m = p →
         im_group_id m = groupID.
Definition group_in (tenantID groupID : UUID) (db : DB) : Prop :=
  ∃ g, ip_groups db !! groupID = Some g ∧ ig_tenant_id g = tenantID.
Definition same_members_but (groupID : UUID) (db db' : DB) : Prop :=
  ∀ k m, im_group_id m ≠ groupID →
    ip_group_members db' !! k = Some m ↔ ip_group_members db !! k = Some m.

Lemma group_in_tenant t gid db k m : groups_ok db → group_in t gid db →
  ip_group_members db !! k = Some m → im_group_id m = gid → im_tenant_id m = t.
Proof.
  intros Hok (g & Hg & Ht) Hm Hgid. destruct (go_member _ Hok k m Hm) as (_ & g' & Hg' & Ht').
  rewrite Hgid in Hg'. congruence.
Qed.

(** One INSERT of a member that is free for the group. *)
Lemma insert_member_ok t gid mb up e st u st' p :
  insert_member t gid mb up e st = (Ok u, st') → cidr_in (m_CIDR mb) = Some p →
  let db := st_db st in let db' := st_db st' in
  groups_ok db → group_in t gid db → free_for t gid p db →
  groups_ok db' ∧ ip_groups db' = ip_groups db ∧ same_members_but gid db db' ∧
  (∀ q, holds gid q db' ↔ holds gid q db ∨ q = p).
Proof.
  intros (Hf & _)%stmt_ok Hp db db' Hok Hgi Hfree. rewrite Hp in Hf.
  destruct (negb (_ && _)); [done|].
  assert (∀ k row, im_tenant_id row = t → im_group_id row = gid → im_cidr row = p →
    (∀ k' m', ip_group_members db !! k' = Some m' → k' ≠ k → im_group_id m' = gid → im_cidr m' ≠ p) →
    (∀ m', ip_group_members db !! k = Some m' → im_group_id m' = gid ∧ im_cidr m' = p) →
    db' = set_member k row db →
    groups_ok db' ∧ ip_groups db' = ip_groups db ∧ same_members_but gid db db' ∧
    (∀ q, holds gid q db' ↔ holds gid q db ∨ q = p)) as Hstep.
  { intros k row Ht Hg Hc Hothers Hold ->. split_and!; [constructor|done|..].
    - intros k' m. simpl. rewrite lookup_insert_Some. intros [[<- <-]|[? Hm]].
      + split; [rewrite Hc; by eapply cidr_in_network|]. rewrite Hg, Ht. exact Hgi.
      + by eapply go_member.
    - intros k1 k2 m1 m2. simpl. rewrite !lookup_insert_Some.
      intros [[<- <-]|[Hn1 H1]] [[<- <-]|[Hn2 H2]] Htt Hcc; [done|..|by eapply go_exclusive].
      + exfalso. eapply (Hothers k2 m2); [done|done| |congruence]. eapply Hfree; [done|congruence..].
      + exfalso. eapply (Hothers k1 m1); [done|done| |congruence]. eapply Hfree; [done|congruence..].
    - apply (go_names _ Hok).
    - apply (go_ids _ Hok).
    - intros k' m Hne. simpl. rewrite lookup_insert_Some. split.
      + intros [[<- <-]|[? ?]]; [congruence|done].
      + intros Hm. right. split; [|done]. intros <-. destruct (Hold _ Hm). congruence.
    - intros q. unfold holds. simpl. split.
      + intros (k' & m & Hm & Hmg & Hmc). apply lookup_insert_Some in Hm as [[<- <-]|[? Hm]];
          [right; congruence|left; eauto].
      + intros [(k' & m & Hm & Hmg & Hmc)| ->]; [|exists k, row; by rewrite lookup_insert_eq].
        destruct (decide (k' = k)) as [-> |Hk].
        * destruct (Hold _ Hm). exists k, row. rewrite lookup_insert_eq. split_and!; congruence.
        * exists k', m. by rewrite lookup_insert_ne. }
  destruct (head _) as [[id' r]|] eqn:Hh.
  - destruct up; [|done]. injection Hf as _ Hdb.
    assert ((id', r) ∈ select_where (member_of gid p) (ip_group_members db)) as Hin.
    { subst db. destruct (select_where _ _); simplify_eq/=. by left. }
    apply select_where_elem in Hin as [Hr Hm]. unfold member_of in Hm. bools.
    eapply (Hstep id'); [| | | | |done]; simpl; try done.
    + by eapply group_in_tenant.
    + intros k' m' Hm' Hk Hg' Hc'. apply Hk. eapply go_exclusive; [done..| |congruence].
      rewrite (group_in_tenant t gid db k' m'), (group_in_tenant t gid db id' r) by done. done.
    + intros m' Hm'. rewrite Hr in Hm'. by simplify_eq.
  - destruct (ip_group_members _ !! _) eqn:Hfresh in Hf; [done|]. injection Hf as _ Hdb.
    eapply Hstep; [| | | | |done]; simpl; try done.
    + intros k' m' Hm' _ Hg' Hc'. pose proof (head_select_None _ _ Hh k' m' Hm') as Hno.
      unfold member_of in Hno. by rewrite Hg', Hc', String.eqb_refl, bool_decide_true in Hno.
    + intros m' Hm'. unfold db in Hm'. congruence.
Qed.

(** A network among normal members. *)
Definition listed (l : list IPGroupMemberRecord) (p : Prefix) : Prop :=
  ∃ m, m ∈ l ∧ m_CIDR m = Prefix_String p ∧ network p.
Lemma normal_cidr_in l m : normal_members l → m ∈ l → ∃ p, cidr_in (m_CIDR m) = Some p ∧
  m_CIDR m = Prefix_String p ∧ network p.
Proof. intros [_ Hl] (p & Hp & ->)%Hl. exists p. by rewrite cidr_in_text. Qed.
Lemma normal_tail m l : normal_members (m :: l) → normal_members l.
Proof.
  intros [Hnd Hl]. rewrite fmap_cons in Hnd. apply NoDup_cons in Hnd as [_ Hnd].
  split; [done|]. intros x Hx. apply Hl. by right.
Qed.

(** All members of a group, each free for it. *)
Lemma insert_members_ok t gid l up e st u st' :
  insertIPGroupMembers t gid l up e st = (Ok u, st') → normal_members l →
  let db := st_db st in let db' := st_db st' in
  groups_ok db → group_in t gid db → (∀ p, listed l p → free_for t gid p db) →
  groups_ok db' ∧ ip_groups db' = ip_groups db ∧ same_members_but gid db db' ∧
  (∀ q, holds gid q db' ↔ holds gid q db ∨ listed l q).
Proof.
  unfold insertIPGroupMembers. revert st. induction l as [|m l IH]; intros st Hr Hn Hok Hgi Hfree;
    cbn [for_each] in Hr.
  - unfold mret, M_ret in Hr. simplify_eq. split_and!; [done|done|done|].
    intros q. split; [by left|]. intros [?|(m & Hm%elem_of_nil & _)]; done.
  - apply bind_ok in Hr as (u1 & st1 & H1 & Hr).
    destruct (normal_cidr_in _ m Hn ltac:(left)) as (p & Hp & Hmp & Hnet).
    eapply insert_member_ok in H1 as (Hok1 & Hg1 & Hsame1 & Hh1); [|done..|by apply Hfree; exists m; split; [left|]].
    destruct (IH st1 Hr) as (Hok2 & Hg2 & Hsame2 & Hh2); [by eapply normal_tail|done|..].
    { destruct Hgi as (g & Hg & Ht). exists g. by rewrite Hg1. }
    { intros q (x & Hx & Hxq & Hq) k r Hk Ht Hc. destruct (decide (im_group_id r = gid)) as [|Hne]; [done|].
      apply Hsame1 in Hk; [|done]. eapply Hfree; [exists x; split; [by right|done]|done..]. }
    split_and!; [done|congruence|..].
    + intros k r Hne. rewrite (Hsame2 k r Hne). by apply Hsame1.
    + intros q. rewrite Hh2, Hh1. unfold listed. split.
      * intros [[?| ->]|(x & Hx & ?)]; [by left|right; exists m; by split; [left|]|].
        right. exists x. by split; [right|].
      * intros [?|(x & [->|Hx]%elem_of_cons & Hxq & Hq)]; [by left; left| |right; by exists x].
        left; right. apply Prefix_String_inj; congruence.
Qed.

(** The duplicate check changes nothing, and what passes it is free. *)
Lemma exactDuplicate_db t ex c e st : st_db (exactDuplicateIPGroupMemberSQL t ex c e st).2 = st_db st.
Proof.
  unfold exactDuplicateIPGroupMemberSQL, stmt, stmt_rows. repeat (case_match; simplify_eq/=; try done).
Qed.
Lemma other_members_nil t ex f db : groups_ok db →
  other_members t ex f db = [] →
  ∀ k m, ip_group_members db !! k = Some m → im_tenant_id m = t → f (im_cidr m) = true →
         im_group_id m = ex.
Proof.
  intros Hok Hnil k m Hm Ht Hfm. destruct (decide (im_group_id m = ex)) as [|Hne]; [done|]. exfalso.
  destruct (go_member _ Hok k m Hm) as (_ & g & Hg & _).
  assert ((im_group_id m, ig_name g, im_cidr m) ∈ other_members t ex f db) as Hin.
  { apply list_elem_of_omap. exists (k, m). split; [by apply elem_of_map_to_list|]. cbn [fst snd].
    rewrite Hg. cbn [mbind option_bind].
    by rewrite Ht, String.eqb_refl, (proj2 (String.eqb_neq _ _) Hne), Hfm. }
  rewrite Hnil in Hin. by apply elem_of_nil in Hin.
Qed.
Lemma reject_duplicates_ok t ex l e st u st' :
  rejectExactDuplicateIPGroupMembersWith t ex l e st = (Ok u, st') → groups_ok (st_db st) →
  st_db st' = st_db st ∧ ∀ p, listed l p → free_for t ex p (st_db st).
Proof.
  unfold rejectExactDuplicateIPGroupMembersWith. intros Hr Hok. revert st Hr Hok.
  induction l as [|m l IH]; intros st Hr Hok; cbn [for_each] in Hr.
  - unfold mret, M_ret in Hr. simplify_eq. split; [done|]. by intros p (m & Hm%elem_of_nil & _).
  - apply bind_ok in Hr as (u1 & st1 & H1 & Hr). apply bind_ok in H1 as (found & st2 & Ha & Hf).
    unfold attempt in Ha. destruct (exactDuplicateIPGroupMemberSQL _ _ _ _ _) as [r st3] eqn:Hd.
    injection Ha as <- <-. pose proof (exactDuplicate_db t ex (m_CIDR m) e st) as Hdb.
    rewrite Hd in Hdb. cbn [snd] in Hdb.
    destruct r as [[[? ?] ?]|[]]; try done. unfold mret, M_ret in Hf. injection Hf as _ <-.
    destruct (IH st3 Hr) as [Hdb' Hfree]; [by rewrite Hdb|]. rewrite Hdb in *.
    split; [done|]. intros p (x & [->|Hx]%elem_of_cons & Hxp & Hp); [|apply Hfree; by exists x].
    unfold exactDuplicateIPGroupMemberSQL, stmt, stmt_rows in Hd.
    destruct (env_fault _ _); [done|]. rewrite Hxp, cidr_in_text in Hd by done.
    destruct (other_members _ _ _ _) as [|[[? ?] ?] ?] eqn:Ho; [|done].
    intros k r Hk Ht Hc. eapply other_members_nil; [done..|]. by apply bool_decide_eq_true.
Qed.

(** ** Writes of a group *)

(** Generated identifiers are not the nil one. *)
Definition proper_ids (e : Env) : Prop := ∀ n i, env_uuid e n i ≠ uuid_Nil.

Lemma set_group_ok id row db :
  groups_ok db → id ≠ uuid_Nil →
  (∀ g, ip_groups db !! id = Some g → ig_tenant_id g = ig_tenant_id row) →
  (∀ id' g', ip_groups db !! id' = Some g' → ig_tenant_id g' = ig_tenant_id row →
             ig_name g' = ig_name row → id' = id) →
  groups_ok (set_group id row db).
Proof.
  intros Hok Hid Ht Hn. constructor; simpl.
  - intros k m Hm. destruct (go_member _ Hok k m Hm) as (? & g & Hg & Hgt). split; [done|].
    destruct (decide (im_group_id m = id)) as [Heq|Hne].
    + exists row. rewrite Heq, lookup_insert_eq. split; [done|]. rewrite Heq in Hg.
      rewrite <-(Ht g Hg). done.
    + exists g. by rewrite lookup_insert_ne.
  - apply (go_exclusive _ Hok).
  - intros i j gi gj. rewrite !lookup_insert_Some.
    intros [[<- <-]|[? Hi]] [[<- <-]|[? Hj]] Htt Hnn; [done|..|by eapply go_names].
    + symmetry. by eapply Hn.
    + by eapply Hn.
  - rewrite lookup_insert_ne by done. apply (go_ids _ Hok).
Qed.
Lemma find_group_None t name db id g :
  find_group t name db = None → ip_groups db !! id = Some g → ig_tenant_id g = t → ig_name g ≠ name.
Proof.
  intros Hf Hg <- <-. pose proof (head_select_None _ _ Hf id g Hg) as Hno.
  unfold group_named in Hno. by rewrite !String.eqb_refl in Hno.
Qed.
Lemma find_group_Some t name db id g :
  find_group t name db = Some (id, g) → ip_groups db !! id = Some g ∧ ig_tenant_id g = t ∧ ig_name g = name.
Proof.
  unfold find_group. intros Hh. assert ((id, g) ∈ select_where (group_named t name) (ip_groups db)) as Hin.
  { destruct (select_where _ _); simplify_eq/=. by left. }
  apply select_where_elem in Hin as [Hg Hn]. unfold group_named in Hn. bools. done.
Qed.
Lemma new_group_ok id row db c db' :
  new_group id row db = Ok (c, db') → groups_ok db → id ≠ uuid_Nil →
  find_group (ig_tenant_id row) (ig_name row) db = None →
  ip_groups db !! id = None ∧ db' = set_group id row db ∧ c = scanIPGroup id row ∧ groups_ok db'.
Proof.
  unfold new_group. intros H1 Hok Hid Hf. repeat (case_match; [done|]).
  destruct (ip_groups db !! id) eqn:Hfresh; [done|]. injection H1 as <- <-.
  split_and!; [done..|]. apply set_group_ok; [done|done|congruence|].
  intros id' g' Hg' Ht Hn. by destruct (find_group_None _ _ _ _ _ Hf Hg' Ht).
Qed.

(** A group that no row names holds no member. *)
Lemma fresh_holds id p db : groups_ok db → ip_groups db !! id = None → ¬ holds id p db.
Proof.
  intros Hok Hid (k & m & Hm & Hg & _). destruct (go_member _ Hok k m Hm) as (_ & g & Hgg & _).
  congruence.
Qed.

Lemma normalizeForWrite_ok g n : normalizeIPGroupForWrite g = Ok n →
  normalizeIPGroupMembers (g_Members g) = Ok (g_Members n) ∧
  g_TenantID n = g_TenantID g ∧ g_Name n = TrimSpace (g_Name g) ∧ g_Name n ≠ "" ∧
  g_Description n = TrimSpace (g_Description g) ∧ g_Kind n = normalizeIPGroupKind (g_Kind g) ∧
  group_kind_ok (g_Kind n) = true.
Proof.
  unfold normalizeIPGroupForWrite. cbv zeta. case_match; [done|]. case_match eqn:Hname; [done|].
  unfold validateIPGroupKind. case_match eqn:Hk; [|done]. cbn [mbind result_bind].
  destruct (normalizeIPGroupMembers _) as [l|] eqn:Hl; [|done]. cbn [mbind result_bind].
  case_match; [done|]. intros [= <-]. simpl in *. bools. split_and!; done.
Qed.

Lemma CreateIPGroup_ok g e st c st' :
  CreateIPGroup (Some g) e st = (Ok c, st') → groups_ok (st_db st) → proper_ids e →
  groups_ok (st_db st') ∧ ∃ n, normalizeIPGroupForWrite g = Ok n ∧
  g_Name c = g_Name n ∧ g_TenantID c = g_TenantID g ∧ g_Members c = withIPGroupID (g_Members n) (g_ID c) ∧
  ip_groups (st_db st) !! g_ID c = None ∧
  (∃ row, ip_groups (st_db st') = <[g_ID c := row]> (ip_groups (st_db st)) ∧
     c = (scanIPGroup (g_ID c) row) <| g_Members := g_Members c |>) ∧
  same_members_but (g_ID c) (st_db st) (st_db st') ∧
  (∀ q, holds (g_ID c) q (st_db st') ↔ listed (g_Members n) q).
Proof.
  intros Hr Hok Hids. unfold CreateIPGroup in Hr. apply bind_ok in Hr as (n & st1 & Hn & Hr).
  unfold lift in Hn. destruct (normalizeIPGroupForWrite g) as [n'|] eqn:Hnorm; [|done].
  injection Hn as <- <-. pose proof (normalizeForWrite_ok _ _ Hnorm) as (Hmem & Hten & _).
  apply normalizeIPGroupMembers_ok in Hmem as [Hnm _].
  apply bind_ok in Hr as (u & st2 & Hrej & Hr).
  apply reject_duplicates_ok in Hrej as [Hdb Hfree]; [|done].
  apply tx_ok in Hr as (st3 & [[Hb Hdb']|[Hb _]]).
  2: { apply bind_ok in Hb as (? & ? & _ & Hb). by apply bind_ok in Hb as (? & ? & _ & Hb). }
  rewrite Hdb'. apply bind_ok in Hb as (c1 & st4 & Hins & Hb).
  apply bind_ok in Hb as (u2 & st5 & Hmem & Hb). unfold mret, M_ret in Hb. injection Hb as <- <-.
  apply stmt_ok in Hins as (Hf & _). simpl st_db in Hf. rewrite Hdb in Hf.
  destruct (find_group _ _ _) eqn:Hfind in Hf; [done|].
  apply new_group_ok in Hf as (Hfresh & Hdb4 & -> & Hok4); [|done|apply Hids|done].
  cbn [scanIPGroup g_ID g_TenantID ig_tenant_id] in *.
  eapply insert_members_ok in Hmem as (Hok5 & Hg5 & Hsame & Hh); [|done..| |].
  - split; [done|]. exists n'. split_and!; try done.
    + eexists. rewrite Hg5, Hdb4. split; reflexivity.
    + intros k m Hne. by rewrite (Hsame k m Hne), Hdb4.
    + intros q. rewrite Hh. split; [|by right]. intros [Hq|]; [|done]. exfalso. rewrite Hdb4 in Hq.
      by eapply (fresh_holds _ q (st_db st)).
  - rewrite Hdb4. eexists. simpl. rewrite lookup_insert_eq. by split.
  - intros p Hp k m Hk Ht Hc. rewrite Hdb4 in Hk. simpl in Hk.
    pose proof (Hfree p Hp k m Hk Ht Hc) as Hnil. exfalso.
    destruct (go_member _ Hok k m Hk) as (_ & gr & Hgr & _). rewrite Hnil, (go_ids _ Hok) in Hgr. done.
Qed.

Lemma update_group_row_ok t gid n e st c st' :
  update_group_row t gid n e st = (Ok c, st') → groups_ok (st_db st) →
  groups_ok (st_db st') ∧ group_in t gid (st_db st') ∧ g_ID c = gid ∧ g_TenantID c = t ∧
  (∃ row, ip_groups (st_db st') = <[gid := row]> (ip_groups (st_db st)) ∧
          ig_name row = g_Name n ∧ c = scanIPGroup gid row) ∧
  ip_group_members (st_db st') = ip_group_members (st_db st).
Proof.
  intros (Hf & _)%stmt_ok Hok. destruct (ip_groups _ !! gid) as [g|] eqn:Hg; [|done].
  destruct (negb (ig_tenant_id g =? t)%string) eqn:Ht; [done|]. case_match; [done|].
  destruct (exists_where _ _) eqn:He; [done|]. injection Hf as <- <-. bools.
  split_and!; try done.
  - apply set_group_ok; [done| |intros g' Hg'; by simplify_eq|].
    + intros ->. by rewrite (go_ids _ Hok) in Hg.
    + intros id' g' Hg' Ht' Hn. destruct (decide (id' = gid)) as [|Hne]; [done|]. exfalso.
      pose proof (proj1 (exists_where_false _ _) He id' g' Hg') as Hno. unfold group_named in Hno.
      simpl in Ht', Hn. by rewrite Ht', Hn, Ht, !String.eqb_refl, (proj2 (String.eqb_neq _ _) Hne) in Hno.
  - eexists. simpl. rewrite lookup_insert_eq. by split.
  - by eexists.
Qed.
Lemma delete_members_ok t gid e st u st' :
  delete_members t gid e st = (Ok u, st') → groups_ok (st_db st) → group_in t gid (st_db st) →
  groups_ok (st_db st') ∧ ip_groups (st_db st') = ip_groups (st_db st) ∧
  same_members_but gid (st_db st) (st_db st') ∧ ∀ q, ¬ holds gid q (st_db st').
Proof.
  intros (_ & Hdb)%exec_ok Hok Hgi.
  assert (∀ k m, ip_group_members (st_db st') !! k = Some m ↔
    ip_group_members (st_db st) !! k = Some m ∧ im_group_id m ≠ gid) as Hin.
  { intros k m. rewrite Hdb. simpl. rewrite lookup_delete_where.
    destruct (ip_group_members (st_db st) !! k) as [m'|] eqn:Hm; [|naive_solver]. simpl.
    destruct (String.eqb_spec (im_group_id m') gid) as [Hg|Hg].
    - rewrite (group_in_tenant t gid _ _ _ Hok Hgi Hm Hg), String.eqb_refl. simpl. naive_solver.
    - rewrite andb_false_r. naive_solver. }
  assert (ip_groups (st_db st') = ip_groups (st_db st)) as Hgr by by rewrite Hdb.
  split_and!; [constructor|done|..].
  - intros k m [Hm _]%Hin. rewrite Hgr. by eapply go_member.
  - intros k k' m m' [Hm _]%Hin [Hm' _]%Hin. by eapply go_exclusive.
  - rewrite Hgr. apply (go_names _ Hok).
  - rewrite Hgr. apply (go_ids _ Hok).
  - intros k m Hne. rewrite Hin. tauto.
  - by intros q (k & m & [_ Hne]%Hin & Hg & _).
Qed.

Lemma same_members_trans gid db1 db2 db3 :
  same_members_but gid db1 db2 → same_members_but gid db2 db3 → same_members_but gid db1 db3.
Proof. intros H1 H2 k m Hne. by rewrite (H2 k m Hne), (H1 k m Hne). Qed.

Lemma updateIPGroupWith_ok t gid g e st c st' :
  updateIPGroupWith t gid (Some g) e st = (Ok c, st') → groups_ok (st_db st) →
  groups_ok (st_db st') ∧ group_in t gid (st_db st') ∧ g_ID c = gid ∧ g_TenantID c = t ∧
  (∃ row, ip_groups (st_db st') = <[gid := row]> (ip_groups (st_db st)) ∧
          c = (scanIPGroup gid row) <| g_Members := g_Members c |>) ∧
  ∃ n, normalizeIPGroupForWrite (g <| g_TenantID := t |> <| g_ID := gid |>) = Ok n ∧
  g_Name c = g_Name n ∧ g_Members c = withIPGroupID (g_Members n) gid ∧
  same_members_but gid (st_db st) (st_db st') ∧
  ∀ q, holds gid q (st_db st') ↔ listed (g_Members n) q.
Proof.
  intros Hr Hok. unfold updateIPGroupWith in Hr. apply bind_ok in Hr as (n & st1 & Hn & Hr).
  unfold lift in Hn. destruct (normalizeIPGroupForWrite _) as [n'|] eqn:Hnorm; [|done].
  injection Hn as <- <-. pose proof (normalizeForWrite_ok _ _ Hnorm) as (Hmem & _).
  apply normalizeIPGroupMembers_ok in Hmem as [Hnm _].
  apply bind_ok in Hr as (u & st2 & Hrej & Hr).
  apply reject_duplicates_ok in Hrej as [Hdb Hfree]; [|done].
  apply bind_ok in Hr as (c1 & st3 & Hup & Hr).
  apply update_group_row_ok in Hup as (Hok3 & Hgi3 & Hid & Ht & (row & Hrow & Hnamed & Hscan) & Hmem3);
    [|by rewrite Hdb].
  apply bind_ok in Hr as (u4 & st4 & Hdel & Hr).
  apply delete_members_ok in Hdel as (Hok4 & Hg4 & Hsame4 & Hnone); [|done..].
  apply bind_ok in Hr as (u5 & st5 & Hins & Hr). unfold mret, M_ret in Hr. injection Hr as <- <-.
  assert (same_members_but gid (st_db st) (st_db st4)) as Hsame.
  { intros k m Hne. rewrite (Hsame4 k m Hne), Hmem3, Hdb. done. }
  apply insert_members_ok in Hins as (Hok5 & Hg5 & Hsame5 & Hh); [|done..| |].
  - split_and!; [done| |done|done|..].
    + destruct Hgi3 as (gr & ? & ?). exists gr. by rewrite Hg5, Hg4.
    + exists row. rewrite Hg5, Hg4, Hrow, Hdb. split; [done|]. by rewrite Hscan.
    + exists n'. split_and!; [done|by rewrite Hscan|done|by eapply same_members_trans|].
      intros q. rewrite Hh. split; [|by right]. by intros [?%Hnone|].
  - destruct Hgi3 as (gr & ? & ?). exists gr. by rewrite Hg4.
  - intros p Hp k m Hk Htm Hc. destruct (decide (im_group_id m = gid)) as [|Hne]; [done|].
    apply Hsame in Hk; [|done]. by eapply Hfree.
Qed.

Lemma upsertInline_ok t name d k e st c st' :
  upsertInlineIPGroupSQL t name d k e st = (Ok c, st') → groups_ok (st_db st) → proper_ids e →
  groups_ok (st_db st') ∧ group_in t (g_ID c) (st_db st') ∧ g_TenantID c = t ∧ g_Name c = name ∧
  ip_group_members (st_db st') = ip_group_members (st_db st).
Proof.
  intros (Hf & _)%stmt_ok Hok Hids. destruct (find_group _ _ _) as [[id r]|] eqn:Hfind.
  - apply find_group_Some in Hfind as (Hr & Ht & Hn). injection Hf as <- <-. split_and!; try done.
    + apply set_group_ok; [done| |intros g' Hg'; by simplify_eq|].
      * intros ->. by rewrite (go_ids _ Hok) in Hr.
      * intros id' g' Hg' Ht' Hn'. simpl in *. eapply go_names; [done..|congruence|congruence].
    + eexists. simpl. rewrite lookup_insert_eq. by split.
  - apply new_group_ok in Hf as (_ & Hdb & -> & Hok'); [|done|apply Hids|done].
    split_and!; [done| |done|done|by rewrite Hdb]. rewrite Hdb. eexists. simpl. rewrite lookup_insert_eq.
    by split.
Qed.

Lemma ensureInlineIPGroupWith_ok `{Sha256} t cidrs e st c st' :
  ensureInlineIPGroupWith t cidrs e st = (Ok c, st') → groups_ok (st_db st) → proper_ids e →
  groups_ok (st_db st') ∧ group_in t (g_ID c) (st_db st') ∧ same_members_but (g_ID c) (st_db st) (st_db st') ∧
  (∀ s, s ∈ cidrs → ∃ p, cidr_network s = Some p ∧ holds (g_ID c) p (st_db st')) ∧
  ∀ q, holds (g_ID c) q (st_db st') → holds (g_ID c) q (st_db st) ∨ ∃ s, s ∈ cidrs ∧ cidr_network s = Some q.
Proof.
  intros Hr Hok Hids. unfold ensureInlineIPGroupWith in Hr.
  apply bind_ok in Hr as (l & st1 & Hl & Hr). unfold lift in Hl.
  destruct (normalizeIPGroupMembers _) as [l'|] eqn:Hnorm; [|done]. injection Hl as <- <-.
  apply normalizeIPGroupMembers_ok in Hnorm as [Hnm [Hfrom Hall]].
  case_bool_decide; [done|]. apply bind_ok in Hr as (g & st2 & Hg & Hr).
  apply upsertInline_ok in Hg as (Hok2 & Hgi2 & Ht & _ & Hmem2); [|done..].
  apply bind_ok in Hr as (u & st3 & Hrej & Hr).
  apply reject_duplicates_ok in Hrej as [Hdb3 Hfree]; [|done].
  apply bind_ok in Hr as (u4 & st4 & Hins & Hr). unfold mret, M_ret in Hr. injection Hr as <- <-.
  apply insert_members_ok in Hins as (Hok4 & Hg4 & Hsame & Hh); [|done|by rewrite Hdb3..].
  rewrite Hdb3 in *. cbn [g_ID]. change (g_ID (g <| g_Members := _ |>)) with (g_ID g). split_and!; [done|..].
  - destruct Hgi2 as (gr & ? & ?). exists gr. by rewrite Hg4.
  - intros k m Hne. by rewrite (Hsame k m Hne), Hmem2.
  - intros s Hs. destruct (Hall (mkMember uuid_Nil uuid_Nil s "inline")) as (c & Hc & Hin).
    { by apply (list_elem_of_fmap_2 (λ x, mkMember uuid_Nil uuid_Nil x "inline")). }
    apply normalizeCIDR_ok in Hc as (p & Hp & ->). exists p. split; [done|].
    apply Hh. right. apply list_elem_of_fmap_1 in Hin as (m & Hm & Hin). exists m.
    split_and!; [done|done|by eapply cidr_network_wf].
  - intros q [Hq|(m & Hm & Hmq & Hq)]%Hh.
    + left. destruct Hq as (k & r & ? & ? & ?). exists k, r. by rewrite <-Hmem2.
    + right. apply Hfrom in Hm as (m0 & (s & -> & Hs)%list_elem_of_fmap_1 & (p & Hp & Hpq)%normalizeCIDR_ok & _).
      exists s. split; [done|]. simpl in Hp. rewrite Hp. f_equal. apply Prefix_String_inj; [by eapply cidr_network_wf|done|congruence].
Qed.

Lemma delete_group_ok t gid db n db' :
  delete_group t gid db = Ok (n, db') → groups_ok db → groups_ok db'.
Proof.
  unfold delete_group. intros Hf Hok. destruct (ip_groups db !! gid) as [g|] eqn:Hg; [|by simplify_eq].
  case_match; [by simplify_eq|]. case_match; [done|]. injection Hf as _ <-.
  assert (∀ k m, delete_where (λ _ r, (im_group_id r =? gid)%string) (ip_group_members db) !! k = Some m →
    ip_group_members db !! k = Some m ∧ im_group_id m ≠ gid) as Hin.
  { intros k m. rewrite lookup_delete_where. destruct (ip_group_members db !! k); [|done]. simpl.
    destruct (String.eqb_spec (im_group_id i) gid); [done|]. by intros [= <-]. }
  constructor; simpl.
  - intros k m [Hm Hne]%Hin. destruct (go_member _ Hok k m Hm) as (? & gr & ? & ?). split; [done|].
    exists gr. by rewrite lookup_delete_ne.
  - intros k k' m m' [Hm _]%Hin [Hm' _]%Hin. by eapply go_exclusive.
  - intros i j gi gj [_ Hi]%lookup_delete_Some [_ Hj]%lookup_delete_Some. by eapply go_names.
  - apply lookup_delete_None. right. apply (go_ids _ Hok).
Qed.

(** ** Reading a group back *)

Lemma cidr_network_out p : network p → cidr_network (cidr_out p) = Some p.
Proof.
  intros Hp. unfold cidr_network. rewrite parsePolicyPrefix_out by done.
  destruct (Z.eqb_spec (prefix_bits p) 0) as [Hb|]; [|done].
  rewrite cidr_out_trim by done. pose proof (cidr_out_zero p Hp Hb) as Ht. rewrite Ht.
  pose proof (network_zero p Hp Hb) as Hz. rewrite Hz.
  destruct Hp as (Hw & Hr & _). pose proof (ParsePrefix_String p Hw Hr) as Hread. rewrite Hz in Hread.
  by destruct (addr_is4 (prefix_addr p)).
Qed.

(** The networks of a list of members, as policies read them. *)
Definition member_networks (members : list IPGroupMemberRecord) (p : Prefix) : Prop :=
  ∃ m, m ∈ members ∧ cidr_network (m_CIDR m) = Some p.

Lemma members_of_networks members l : members_of members l → normal_members l →
  ∀ p, listed l p ↔ member_networks members p.
Proof.
  intros [Hfrom Hall] [_ Hn] p. split.
  - intros (m & Hm & Hmp & Hp). apply Hfrom in Hm as (m0 & Hm0 & (q & Hq & Heq)%normalizeCIDR_ok & _).
    exists m0. split; [done|]. rewrite Hq. f_equal.
    apply Prefix_String_inj; [by eapply cidr_network_wf|done|congruence].
  - intros (m0 & Hm0 & Hp). destruct (Hall m0 Hm0) as (c & (q & Hq & ->)%normalizeCIDR_ok & Hin).
    rewrite Hp in Hq. injection Hq as <-. apply list_elem_of_fmap_1 in Hin as (m & Hm & Hin).
    exists m. split_and!; [done|done|by eapply cidr_network_wf].
Qed.

(** The members read are the rows of the group, each network once. *)
Lemma list_members_ok t gid e st l st' :
  listIPGroupMembersWith t gid e st = (Ok l, st') → groups_ok (st_db st) → group_in t gid (st_db st) →
  NoDup (m_CIDR <$> l) ∧ (∀ m, m ∈ l → m_GroupID m = gid) ∧
  ∀ p, member_networks l p ↔ holds gid p (st_db st).
Proof.
  intros [-> _]%query_ok Hok Hgi. cbv beta.
  set (rows := select_where _ _). set (l := scan_member <$> _).
  assert (∀ k r, (k, r) ∈ SliceStable member_before rows ↔
    ip_group_members (st_db st) !! k = Some r ∧ im_group_id r = gid) as Hin.
  { intros k r. rewrite (SliceStable_Permutation member_before rows). unfold rows.
    rewrite select_where_elem. split; intros [Hr Hb]; (split; [done|]).
    - bools. done.
    - rewrite Hb, (group_in_tenant t gid _ _ _ Hok Hgi Hr Hb), !String.eqb_refl. done. }
  assert (NoDup (SliceStable member_before rows)) as Hnd.
  { rewrite SliceStable_Permutation. unfold rows, select_where.
    apply NoDup_filter, NoDup_map_to_list. }
  split_and!.
  - unfold l. rewrite <-list_fmap_compose. apply NoDup_fmap_2_strong; [|done].
    intros [k r] [k' r'] [Hr Hg]%Hin [Hr' Hg']%Hin Heq. simpl in Heq.
    pose proof (go_member _ Hok _ _ Hr) as [Hn _]. pose proof (go_member _ Hok _ _ Hr') as [Hn' _].
    assert (im_cidr r = im_cidr r') as Hc.
    { pose proof (cidr_network_out _ Hn) as H1. rewrite Heq, cidr_network_out in H1 by done. congruence. }
    assert (k = k') as ->; [|congruence]. eapply go_exclusive; [done..| |done].
    by rewrite (group_in_tenant t gid _ _ _ Hok Hgi Hr Hg), (group_in_tenant t gid _ _ _ Hok Hgi Hr' Hg').
  - intros m ([k r] & -> & [_ Hg]%Hin)%list_elem_of_fmap_1. done.
  - intros p. split.
    + intros (m & ([k r] & -> & [Hr Hg]%Hin)%list_elem_of_fmap_1 & Hp). simpl in Hp.
      rewrite cidr_network_out in Hp by by eapply go_member. exists k, r. split_and!; congruence.
    + intros (k & r & Hr & Hg & Hc). exists (scan_member (k, r)). split.
      * apply list_elem_of_fmap_2, Hin. done.
      * simpl. rewrite cidr_network_out; [by f_equal|by eapply go_member].
Qed.

Lemma GetIPGroup_ok t gid e st r st' :
  GetIPGroup t gid e st = (Ok r, st') → groups_ok (st_db st) →
  (∃ row, ip_groups (st_db st) !! gid = Some row ∧ ig_tenant_id row = t ∧
          r = (scanIPGroup gid row) <| g_Members := g_Members r |>) ∧
  NoDup (m_CIDR <$> g_Members r) ∧ ∀ p, member_networks (g_Members r) p ↔ holds gid p (st_db st).
Proof.
  unfold GetIPGroup, getIPGroupWith. intros Hr Hok.
  apply bind_ok in Hr as (g & st1 & (Hg & Hdb)%query_row_ok & Hr). cbv beta in Hg.
  destruct (ip_groups _ !! gid) as [row|] eqn:Hrow; [|done]. cbn [mbind option_bind] in Hg.
  destruct (String.eqb_spec (ig_tenant_id row) t) as [Ht|]; [|done]. injection Hg as <-.
  apply bind_ok in Hr as (l & st2 & Hl & Hr). unfold mret, M_ret in Hr. injection Hr as <- <-.
  apply list_members_ok in Hl as (Hnd & _ & Hh); [|by rewrite Hdb|exists row; by rewrite Hdb].
  rewrite Hdb in Hh. split_and!; [by exists row|done|done].
Qed.
Lemma GetIPGroup_found t gid e st : no_faults e → group_in t gid (st_db st) →
  ∃ r st', GetIPGroup t gid e st = (Ok r, st').
Proof.
  intros Hf (g & Hg & Ht). unfold GetIPGroup, getIPGroupWith, with_members, listIPGroupMembersWith.
  eexists _, _. erewrite bind_run; [|apply query_row_run; [done|by rewrite Hg; cbn; rewrite Ht, String.eqb_refl]].
  erewrite bind_run; [|by apply query_run]. reflexivity.
Qed.

Lemma group_write_ok write g e st c st' :
  write = CreateIPGroup (Some g) ∨ write = UpdateIPGroup (Some g) →
  write e st = (Ok c, st') → groups_ok (st_db st) → proper_ids e →
  groups_ok (st_db st') ∧ ∃ n row, normalizeIPGroupMembers (g_Members g) = Ok n ∧
    ip_groups (st_db st') !! g_ID c = Some row ∧ ig_tenant_id row = g_TenantID g ∧
    c = (scanIPGroup (g_ID c) row) <| g_Members := g_Members c |> ∧ g_Name c = TrimSpace (g_Name g) ∧
    same_members_but (g_ID c) (st_db st) (st_db st') ∧
    ∀ q, holds (g_ID c) q (st_db st') ↔ listed n q.
Proof.
  intros [-> | ->] Hr Hok Hids.
  - apply CreateIPGroup_ok in Hr as (Hok' & n & Hn & Hname & Ht & _ & Hfresh & (row & Hg & Hc) & Hsame & Hh);
      [|done..].
    apply normalizeForWrite_ok in Hn as (Hn & _ & Hnn & _). split; [done|]. exists (g_Members n), row.
    rewrite Hg, lookup_insert_eq. split_and!; [done|done| |done|congruence|done|done].
    by rewrite Hc in Ht.
  - cbn [UpdateIPGroup] in Hr. unfold UpdateIPGroupByID in Hr.
    apply tx_ok in Hr as (st1 & [[Hb Hdb]|[Hb _]]); apply bind_ok in Hb as (u & st2 & Hu & Hb);
      unfold mret, M_ret in Hb; [|done]. injection Hb as <- <-.
    apply updateIPGroupWith_ok in Hu as (Hok' & Hgi & Hid & Ht & (row & Hg & Hc) & n & Hn & Hname & _ & Hsame & Hh);
      [|done]. rewrite Hdb, Hid.
    apply normalizeForWrite_ok in Hn as (Hn & _ & Hnn & _). split; [done|]. exists (g_Members n), row.
    rewrite Hg, lookup_insert_eq. split_and!; [done|done| |done|by rewrite Hname|done|done].
    by rewrite Hc in Ht.
Qed.

(** C35. What a write of a group stores is what is read back: after a successful
    [CreateIPGroup] or [UpdateIPGroup], with tables where no network belongs to
    two groups of a tenant, reading the group (no statement failing) gives it with
    the trimmed name and description that were given, the kind in lower case, and
    as members exactly the networks of the given texts, each once.  Every other
    group keeps its members. *)
Theorem group_reads_back write g e st c st' e' :
  write = CreateIPGroup (Some g) ∨ write = UpdateIPGroup (Some g) →
  write e st = (Ok c, st') → groups_ok (st_db st) → proper_ids e → no_faults e' →
  ∃ r, (GetIPGroup (g_TenantID g) (g_ID c) e' st').1 = Ok r ∧
    g_ID r = g_ID c ∧ g_TenantID r = g_TenantID g ∧ g_Name r = TrimSpace (g_Name g) ∧
    g_Description r = g_Description c ∧ g_Kind r = g_Kind c ∧
    NoDup (m_CIDR <$> g_Members r) ∧
    (∀ p, member_networks (g_Members r) p ↔ member_networks (g_Members g) p) ∧
    ∀ gid p, gid ≠ g_ID c → holds gid p (st_db st') ↔ holds gid p (st_db st).
Proof.
  intros Hw Hr Hok Hids Hf.
  destruct (group_write_ok _ _ _ _ _ _ Hw Hr Hok Hids)
    as (Hok' & n & row & Hn & Hrow & Ht & Hc & Hname & Hsame & Hh).
  pose proof (normalizeIPGroupMembers_ok _ _ Hn) as [Hnm Hmo].
  destruct (GetIPGroup_found (g_TenantID g) (g_ID c) e' st' Hf) as (r & st2 & Hget); [by exists row|].
  pose proof (GetIPGroup_ok _ _ _ _ _ _ Hget Hok') as ((row' & Hrow' & _ & Hr') & Hnd & Hm).
  assert (row' = row) as -> by congruence. exists r. rewrite Hget. split_and!; [done|..].
  - by rewrite Hr'.
  - by rewrite Hr'.
  - rewrite Hr', <-Hname, Hc. done.
  - by rewrite Hr', Hc.
  - by rewrite Hr', Hc.
  - done.
  - intros p. rewrite Hm, Hh. by apply members_of_networks.
  - intros gid p Hne. split; intros (k & m & Hk & Hg & Hp); exists k, m;
      (split_and!; [apply (Hsame k m); [congruence|done]|done|done]).
Qed.

(** ** Overlap warnings *)

Lemma other_members_elem t ex f db gid name q : groups_ok db →
  (gid, name, q) ∈ other_members t ex f db ↔
  gid ≠ ex ∧ f q = true ∧ holds gid q db ∧ ∃ g, ip_groups db !! gid = Some g ∧ ig_tenant_id g = t ∧ ig_name g = name.
Proof.
  intros Hok. unfold other_members. rewrite list_elem_of_omap. split.
  - intros ([k m] & Hk%elem_of_map_to_list & Hx). cbn [fst snd] in Hx.
    destruct (ip_groups db !! im_group_id m) as [g|] eqn:Hg; [|done]. cbn [mbind option_bind] in Hx.
    destruct (_ && _) eqn:Hb in Hx; [|done]. bools. simplify_eq. split_and!; [done|done|by exists k, m|].
    exists g. split_and!; [done| |done]. destruct (go_member _ Hok k m Hk) as (_ & g' & Hg' & Ht). congruence.
  - intros (Hne & Hf & (k & m & Hk & Hg & Hq) & g & Hgg & Ht & Hn). exists (k, m).
    split; [by apply elem_of_map_to_list|]. cbn [fst snd]. rewrite Hg, Hgg. cbn [mbind option_bind].
    assert (im_tenant_id m = t) as Htm by (eapply group_in_tenant; [done|by exists g|done..]).
    by rewrite Htm, Hq, Hf, (proj2 (String.eqb_neq _ _) Hne), String.eqb_refl, Hn.
Qed.
Lemma overlap_common p q : network p → network q →
  prefixesOverlap q p = true ↔ ∃ a, Contains p a = true ∧ Contains q a = true.
Proof.
  intros (Hp & _) (Hq & _). split.
  - intros [[_ Hc]|[[_ Hc]|(_ & Hc & _)]]%prefixesOverlap_cases; try done; unfold prefixContains in Hc; bools.
    + exists (prefix_addr p). split; [by apply Contains_self|done].
    + exists (prefix_addr q). split; [done|by apply Contains_self].
    + exists (prefix_addr p). split; [by apply Contains_self|done].
  - intros (a & Ha & Hb). by apply (prefixesOverlap_complete q p a).
Qed.

Definition overlap_warning (cidr : string) (x : UUID * string * Prefix) : IPGroupWarning :=
  mkIPGroupWarning "overlap" cidr x.1.1 x.1.2 (cidr_out x.2) "longest_prefix_wins".
Lemma find_warnings_ok t ex members e st ws st' :
  FindIPGroupOverlapWarnings t ex members e st = (Ok ws, st') →
  st_db st' = st_db st ∧ ∃ l, normalizeIPGroupMembers members = Ok l ∧
  ∀ w, w ∈ ws ↔ ∃ p x, listed l p ∧ w = overlap_warning (Prefix_String p) x ∧
                 x ∈ other_members t ex (λ q, prefixesOverlap q p) (st_db st).
Proof.
  intros Hr. unfold FindIPGroupOverlapWarnings in Hr. apply bind_ok in Hr as (l & st1 & Hl & Hr).
  unfold lift in Hl. destruct (normalizeIPGroupMembers members) as [l'|] eqn:Hn; [|done]. injection Hl as <- <-.
  apply normalizeIPGroupMembers_ok in Hn as [Hnm _].
  apply bind_ok in Hr as (wss & st2 & Hw & Hr). unfold mret, M_ret in Hr. injection Hr as <- <-.
  apply (map_each_ok _ _ _ _ _ _ (λ m ws, ∀ p, cidr_in (m_CIDR m) = Some p →
    ws = overlap_warning (m_CIDR m) <$> SliceStable overlap_before (other_members t ex (λ q, prefixesOverlap q p) (st_db st))))
    in Hw as [Hdb Hall].
  2: { intros m s y s' (rows & s1 & (Hrows & _)%stmt_ok & Hy)%bind_ok. unfold mret, M_ret in Hy. injection Hy as <- <-.
       destruct (cidr_in _); [|done]. by injection Hrows as _ <-. }
  2: { intros m s y s' Hs (rows & s1 & (Hrows & _)%stmt_ok & Hy)%bind_ok p Hp. rewrite Hp in Hrows.
       unfold mret, M_ret in Hy. injection Hy as <- <-. injection Hrows as <- _.
       rewrite <-list_fmap_compose, Hs. done. }
  split; [done|]. exists l'. split; [done|]. intros w. rewrite list_elem_of_In, in_concat. split.
  - intros (wm & Hwm%list_elem_of_In & Hw%list_elem_of_In).
    apply list_elem_of_lookup in Hwm as [j Hj].
    destruct (Forall2_lookup_r _ _ _ _ _ Hall Hj) as (m & Hm%list_elem_of_lookup_2 & Hwof).
    destruct (normal_cidr_in _ m Hnm Hm) as (p & Hin & Hmp & Hp). rewrite (Hwof p Hin) in Hw.
    apply list_elem_of_fmap_1 in Hw as (x & -> & Hx). rewrite SliceStable_Permutation in Hx.
    exists p, x. split_and!; [by exists m|by rewrite Hmp|done].
  - intros (p & x & (m & Hm & Hmp & Hp) & -> & Hx). pose proof Hm as [j Hj]%list_elem_of_lookup.
    destruct (Forall2_lookup_l _ _ _ _ _ Hall Hj) as (wm & Hwm & Hwof).
    exists wm. split; [by apply list_elem_of_In; eapply list_elem_of_lookup_2|]. apply list_elem_of_In.
    rewrite (Hwof p) by (rewrite Hmp; by apply cidr_in_text). rewrite <-Hmp.
    apply list_elem_of_fmap_2. by rewrite SliceStable_Permutation.
Qed.

(** Overlap warnings are exact: when [FindIPGroupOverlapWarnings] succeeds it
    has changed nothing, and it warns about a network [p] and a network [q] of
    another group exactly when [p] is one of the given networks, [q] belongs to a
    group of the tenant other than the excluded one, and some address is in both. *)
Theorem overlap_warnings_exact t ex members e st ws st' p q gid :
  FindIPGroupOverlapWarnings t ex members e st = (Ok ws, st') →
  groups_ok (st_db st) → network p → network q →
  st_db st' = st_db st ∧
  ((∃ w, w ∈ ws ∧ wn_CIDR w = Prefix_String p ∧ wn_OverlapsGroupID w = gid ∧ wn_OverlapsCIDR w = cidr_out q) ↔
   member_networks members p ∧ gid ≠ ex ∧ group_in t gid (st_db st) ∧ holds gid q (st_db st) ∧
   ∃ a, Contains p a = true ∧ Contains q a = true).
Proof.
  intros (Hdb & l & Hl & Hws)%find_warnings_ok Hok Hp Hq. split; [done|].
  apply normalizeIPGroupMembers_ok in Hl as [Hnm Hmo]. rewrite <-(members_of_networks _ _ Hmo Hnm). split.
  - intros (w & (p' & [[g' n'] q'] & Hl & -> & Hx)%Hws & Hc & Hg & Ho). simpl in Hc, Hg, Ho. subst g'.
    assert (p' = p) as -> by (destruct Hl as (? & _ & _ & ?); by apply Prefix_String_inj).
    apply (other_members_elem _ _ _ _ _ _ _ Hok) in Hx as (Hne & Hov & Hh & g & Hgg & Ht & _).
    assert (q' = q) as ->.
    { destruct Hh as (k & r & Hk & _ & Hcr). apply (go_member _ Hok) in Hk as [Hnq _]. rewrite Hcr in Hnq.
      pose proof (cidr_network_out _ Hnq) as H1. rewrite Ho, cidr_network_out in H1 by done. congruence. }
    split_and!; [done|done|by exists g|done|by apply overlap_common].
  - intros (Hl & Hne & (g & Hg & Ht) & Hh & Hov%overlap_common); [|done..].
    exists (overlap_warning (Prefix_String p) (gid, ig_name g, q)). split_and!; try done.
    apply Hws. exists p, (gid, ig_name g, q). split_and!; [done|done|].
    apply other_members_elem; [done|]. split_and!; [done|done|done|by exists g].
Qed.

End tables.

(** ** Two groups *)

Definition groups_db : DB :=
  empty_db <| tenants := {["t1" := mkTenantRow "T" None None None (Some "active") None 0 0]} |>.
Definition demo_write (name cidr : string) : IPGroupRecord :=
  mkIPGroup "" "t1" name " west " "" None [mkMember "" "" cidr ""; mkMember "" "" "10.1.200.0/16" "twice"] 0 0.
Lemma groups_db_ok : groups_ok groups_db.
Proof. constructor; simpl; intros; by simplify_map_eq. Qed.
Lemma demo_proper t : proper_ids (env_at t).
Proof. intros n i. discriminate. Qed.
Lemma demo_no_faults t : no_faults (env_at t).
Proof. intros n. reflexivity. Qed.
Lemma group_reads_back_witness :
  let g := demo_write " office " " 10.1.2.3/16" in
  ∃ c st' r, @CreateIPGroup go_cidr (Some g) (env_at 1) (mkSt groups_db 0) = (Ok c, st') ∧
    (@GetIPGroup go_cidr "t1" (g_ID c) (env_at 2) st').1 = Ok r ∧ g_Name r = "office" ∧ NoDup (m_CIDR <$> g_Members r).
Proof.
  intros g.
  assert (is_ok (@CreateIPGroup go_cidr (Some g) (env_at 1) (mkSt groups_db 0)).1 = true) as Hok
    by (vm_compute; reflexivity).
  destruct (@CreateIPGroup go_cidr (Some g) (env_at 1) (mkSt groups_db 0)) as [[c|] st'] eqn:Hrun; [|discriminate Hok].
  destruct (@group_reads_back go_cidr go_cidr_laws (@CreateIPGroup go_cidr (Some g)) g (env_at 1) (mkSt groups_db 0)
    c st' (env_at 2) (or_introl eq_refl) Hrun groups_db_ok (demo_proper 1) (demo_no_faults 2))
    as (r & Hr & _ & _ & Hn & _ & _ & Hnd & _).
  exists c, st', r. exact (conj eq_refl (conj Hr (conj Hn Hnd))).
Defined.

Definition ten_net : Prefix := mkPrefix (mkAddr true (10 * 2 ^ 24) "") 8.
Definition office_net : Prefix := mkPrefix (mkAddr true (10 * 2 ^ 24 + 2 ^ 16) "") 16.
Definition overlap_db : DB :=
  groups_db <| ip_groups := {["g1" := mkIPGroupRow "t1" "wide" "" "custom" None 0 0]} |>
    <| ip_group_members := {["m1" := mkIPGroupMemberRow "t1" "g1" ten_net "" 0]} |>.
Lemma small_network v b : 0 ≤ b ≤ 32 → 0 ≤ v < 2 ^ 32 → Masked (mkPrefix (mkAddr true v "") b) = mkPrefix (mkAddr true v "") b →
  network (mkPrefix (mkAddr true v "") b).
Proof. intros Hb Hv Hm. exact (conj (conj eq_refl Hb) (conj Hv Hm)). Qed.
Lemma overlap_db_ok : groups_ok overlap_db.
Proof.
  constructor; simpl.
  - intros k m [<- <-]%lookup_singleton_Some. split; [by apply small_network|]. by eexists.
  - by intros k k' m m' [<- _]%lookup_singleton_Some [<- _]%lookup_singleton_Some.
  - by intros k k' m m' [<- _]%lookup_singleton_Some [<- _]%lookup_singleton_Some.
  - done.
Qed.
(** The network of an office is in a wider one of another group. *)
Lemma overlap_warnings_exact_witness :
  ∃ ws st', @FindIPGroupOverlapWarnings go_cidr "t1" "g2" [mkMember "" "" "10.1.2.3/16" ""] (env_at 1)
      (mkSt overlap_db 0) = (Ok ws, st') ∧ wn_OverlapsGroupName <$> ws = ["wide"] ∧
    (∃ w, w ∈ ws ∧ wn_CIDR w = Prefix_String office_net ∧ wn_OverlapsGroupID w = "g1" ∧
          wn_OverlapsCIDR w = Prefix_String ten_net).
Proof.
  destruct (@FindIPGroupOverlapWarnings go_cidr "t1" "g2" [mkMember "" "" "10.1.2.3/16" ""] (env_at 1)
    (mkSt overlap_db 0)) as [[ws|x] st'] eqn:Hrun; [|vm_compute in Hrun; discriminate Hrun].
  assert (wn_OverlapsGroupName <$> ws = ["wide"]) as Hws
    by (vm_compute in Hrun; injection Hrun as <- _; reflexivity).
  exists ws, st'. split; [exact eq_refl|]. split; [exact Hws|].
  assert (network office_net) as Ho by (by apply small_network). assert (network ten_net) as Ht by (by apply small_network).
  apply (@overlap_warnings_exact go_cidr go_cidr_laws "t1" "g2" [mkMember "" "" "10.1.2.3/16" ""] (env_at 1)
    (mkSt overlap_db 0) ws st' office_net ten_net "g1" Hrun overlap_db_ok Ho Ht).
  split; [|split; [discriminate|split; [by eexists|split]]].
  - exists (mkMember "" "" "10.1.2.3/16" ""). split; [left|]. vm_compute. reflexivity.
  - by exists "m1", (mkIPGroupMemberRow "t1" "g1" ten_net "" 0).
  - exists (prefix_addr office_net). split; vm_compute; reflexivity.
Defined.
