(* ===== verification/PolicyRules.v ===== *)
(** * Rules of nodes

    The rule tables of [pkg/controllerstorage/network_policy.go]: reading,
    creating, updating and deleting ACL, QoS and blacklist rules. *)

From S2P Require Import Prelude GoStr Netip NetipText Records PolicyConflict CidrColumn Store Events ControlState AgentCommands PolicySync Nodes IPGroups.

Open Scope Z_scope.

Definition BlacklistScopeSrc : string := "src".
Definition BlacklistScopeDst : string := "dst".
Definition BlacklistScopePorts : string := "ports".

(** ** Defaults *)

Definition normalizeACLRuntimeFields (rule : ACLRuleRecord) : ACLRuleRecord :=
  let rule := if (TrimSpace (a_Direction rule) =? "")%string
              then rule <| a_Direction := "ingress" |> else rule in
  if (TrimSpace (a_Ports rule) =? "")%string && (0 <? a_DstPort rule)
  then rule <| a_Ports := Itoa (a_DstPort rule) |> else rule.

Definition defaultQoSDirection (rule : QoSRuleRecord) : string :=
  if negb (TrimSpace (q_SrcCIDR rule) =? "")%string && (TrimSpace (q_DstCIDR rule) =? "")%string
  then "ingress" else "egress".
Definition defaultQoSBurst (rateBps : Z) : Z :=
  let burst := rateBps / 8 / 10 in
  if burst <? 1500 then 1500 else burst.
(** The rate is computed in 64 bits. *)
Definition normalizeQoSRuntimeFields (rule : QoSRuleRecord) : QoSRuleRecord :=
  let rule := if (TrimSpace (q_Direction rule) =? "")%string
              then rule <| q_Direction := defaultQoSDirection rule |> else rule in
  let rule := if (q_RateBps rule =? 0) && (0 <? q_BandwidthMbps rule)
              then rule <| q_RateBps := uint64 (q_BandwidthMbps rule * 1000000) |> else rule in
  let rule := if q_BurstBytes rule =? 0
              then rule <| q_BurstBytes := defaultQoSBurst (q_RateBps rule) |> else rule in
  if (TrimSpace (q_Mode rule) =? "")%string then rule <| q_Mode := "auto" |> else rule.

Definition ValidateBlacklistScope (scope : string) : result unit :=
  if one_of scope [BlacklistScopeSrc; BlacklistScopeDst; BlacklistScopePorts] then Ok ()
  else Err (ErrorString ("unsupported blacklist scope: " +:+ scope)).

Definition nullableInt (value : Z) : option Z := if value =? 0 then None else Some value.
Definition aclNetworkForSync (cidr : string) : string :=
  let trimmed := TrimSpace cidr in
  if (trimmed =? "")%string then "0.0.0.0/0" else trimmed.
Definition aclPortRangeForSync (dstPort : Z) : Z * Z :=
  if dstPort <=? 0 then (0, 65535) else (dstPort, dstPort).

(** ** The desired version *)

Definition bumpNodeDesiredVersionWith (tenantID nodeID : UUID) : M unit :=
  newVersion ← new_uuid;
  stmt (λ e _ db,
    let now := env_now e in
    match node_control_states db !! nodeID with
    | Some r => Ok ((), set_control nodeID (r <| cs_desired_state_version := Some newVersion |>
        <| cs_desired_state_updated_at := Some now |> <| cs_updated_at := now |>) db)
    | None =>
      if negb (control_refs_ok db tenantID nodeID)
      then Err (ErrConstraint "node_control_states foreign key") else
      Ok ((), set_control nodeID (mkControlRow tenantID (Some newVersion) ∅ (Some now) None None
                                    "idle" None None None None now now) db)
    end).
Definition bumpNodeDesiredVersion := bumpNodeDesiredVersionWith.
(** [if bumpDesiredVersion { ... }]. *)
Definition bump_if (bumpDesiredVersion : bool) (tenantID nodeID : UUID) : M unit :=
  if bumpDesiredVersion then bumpNodeDesiredVersionWith tenantID nodeID else mret ().

(** ** Columns *)

Definition smallint (n : Z) : bool := (- 2 ^ 15 <=? n) && (n <? 2 ^ 15).
(** A BIGINT column that holds a [uint64]. *)
Definition bigint (n : Z) : bool := n <? 2 ^ 63.
Definition in_range (l : list bool) : result unit :=
  if forallb id l then Ok () else Err (ErrConstraint "integer out of range").

Definition set_acl (id : UUID) (r : ACLRow) (db : DB) : DB :=
  db <| acl_rules := <[id := r]> (acl_rules db) |>.
Definition set_qos (id : UUID) (r : QoSRow) (db : DB) : DB :=
  db <| qos_rules := <[id := r]> (qos_rules db) |>.
Definition set_blacklist (id : UUID) (r : BlacklistRow) (db : DB) : DB :=
  db <| blacklist_rules := <[id := r]> (blacklist_rules db) |>.

Definition of_node {R} (tenant node : R → UUID) (tenantID nodeID : UUID) (_ : UUID) (r : R) : bool :=
  (tenant r =? tenantID)%string && (node r =? nodeID)%string.
Definition acl_of := of_node ar_tenant_id ar_node_id.
Definition qos_of := of_node qr_tenant_id qr_node_id.
Definition blacklist_of := of_node br_tenant_id br_node_id.

(** [DELETE ... WHERE p], [sql.ErrNoRows] when there was no such row. *)
Definition delete_or_none (affected : M Z) : M unit :=
  rowsAffected ← affected;
  if rowsAffected =? 0 then fail ErrNoRows else mret ().

Definition group_ref_ok (db : DB) (groupID : NullUUID) : bool :=
  match groupID with Some g => group_exists db g | None => true end.

Section store.
Context `{CidrText}.

(** [NULLIF($n, '')::cidr] and [$n::cidr]. *)
Definition cidr_arg (s : string) : result Prefix :=
  match cidr_in s with Some p => Ok p | None => Err bad_cidr end.
Definition cidr_null_arg (s : string) : result (option Prefix) :=
  if (s =? "")%string then Ok None else p ← cidr_arg s; Ok (Some p).
Definition null_cidr (p : option Prefix) : string := match p with Some p => cidr_out p | None => "" end.

(** ** ACL rules *)

Definition scanACLRuleRecord (id : UUID) (r : ACLRow) : ACLRuleRecord :=
  mkACL id (ar_tenant_id r) (ar_node_id r) (ar_name r) (ar_action r)
    (cidr_out (default (ar_src_net r) (ar_src_cidr r)))
    (cidr_out (default (ar_dst_net r) (ar_dst_cidr r)))
    (ar_src_group_id r) (ar_dst_group_id r) None None
    (default (if ar_min_port r =? ar_max_port r then ar_max_port r else 0) (ar_dst_port r))
    (ar_protocol r) (ar_direction r) (ar_ports r) (ar_priority r) (ar_enabled r)
    (ar_description r) (ar_created_at r) (ar_updated_at r).

(** [ORDER BY priority ASC, created_at ASC]. *)
Definition acl_before (a b : UUID * ACLRow) : bool :=
  (ar_priority a.2 <? ar_priority b.2)
  || ((ar_priority a.2 =? ar_priority b.2) && (ar_created_at a.2 <? ar_created_at b.2)).
Definition listTenantNodeACLRules (tenantID nodeID : UUID) (enabledOnly : bool)
    : M (list ACLRuleRecord) :=
  query (λ _ db, (λ kr, scanACLRuleRecord kr.1 kr.2) <$> SliceStable acl_before
    (select_where (λ id r, acl_of tenantID nodeID id r && (negb enabledOnly || ar_enabled r))
       (acl_rules db))).
Definition ListTenantNodeACLRules (tenantID nodeID : UUID) := listTenantNodeACLRules tenantID nodeID false.
Definition GetEnabledTenantNodeACLRules (tenantID nodeID : UUID) :=
  listTenantNodeACLRules tenantID nodeID true.
Definition GetTenantNodeACLRule (tenantID nodeID ruleID : UUID) : M ACLRuleRecord :=
  query_row (λ _ db,
    r ← acl_rules db !! ruleID;
    if acl_of tenantID nodeID ruleID r then Some (scanACLRuleRecord ruleID r) else None).

(** The columns a write of a rule sets; [src], [dst], [port] and [description] are
    the arguments in which INSERT and UPDATE differ. *)
Definition acl_columns (tenantID nodeID : UUID) (rule : ACLRuleRecord) (src dst : string)
    (port : option Z) (description srcNet dstNet : string) (minPort maxPort : Z)
    (created updated : Time) : result ACLRow :=
  _ ← in_range [default true (int4 <$> port); smallint (a_Protocol rule); int4 (a_Priority rule);
                int4 minPort; int4 maxPort];
  srcCIDR ← cidr_null_arg src;
  dstCIDR ← cidr_null_arg dst;
  srcNet ← cidr_arg srcNet;
  dstNet ← cidr_arg dstNet;
  Ok (mkACLRow tenantID nodeID (TrimSpace (a_Name rule)) (a_Action rule) (a_SrcGroupID rule)
        (a_DstGroupID rule) srcCIDR dstCIDR port (a_Protocol rule) (a_Direction rule) (a_Ports rule)
        (a_Priority rule) (a_Enabled rule) description srcNet dstNet minPort maxPort created updated).
Definition acl_groups_ok (db : DB) (rule : ACLRuleRecord) : bool :=
  group_ref_ok db (a_SrcGroupID rule) && group_ref_ok db (a_DstGroupID rule).

Definition createTenantNodeACLRule (rule : ACLRuleRecord) (bumpDesiredVersion : bool)
    : M ACLRuleRecord :=
  let srcNet := aclNetworkForSync (a_SrcCIDR rule) in
  let dstNet := aclNetworkForSync (a_DstCIDR rule) in
  let '(minPort, maxPort) := aclPortRangeForSync (a_DstPort rule) in
  let rule := normalizeACLRuntimeFields rule in
  created ← stmt (λ e id db,
    row ← acl_columns (a_TenantID rule) (a_NodeID rule) rule (TrimSpace (a_SrcCIDR rule))
            (TrimSpace (a_DstCIDR rule)) (nullableInt (a_DstPort rule))
            (TrimSpace (a_Description rule)) srcNet dstNet minPort maxPort (env_now e) (env_now e);
    if negb (control_refs_ok db (a_TenantID rule) (a_NodeID rule) && acl_groups_ok db rule)
    then Err (ErrConstraint "acl_rules foreign key") else
    match acl_rules db !! id with
    | Some _ => Err (ErrConstraint "acl_rules_pkey")
    | None => Ok (scanACLRuleRecord id row, set_acl id row db)
    end);
  _ ← bump_if bumpDesiredVersion (a_TenantID rule) (a_NodeID rule);
  mret created.
Definition CreateTenantNodeACLRule (rule : ACLRuleRecord) := createTenantNodeACLRule rule true.

Definition updateTenantNodeACLRule (tenantID nodeID ruleID : UUID) (rule : ACLRuleRecord)
    (bumpDesiredVersion : bool) : M ACLRuleRecord :=
  let srcNet := aclNetworkForSync (a_SrcCIDR rule) in
  let dstNet := aclNetworkForSync (a_DstCIDR rule) in
  let '(minPort, maxPort) := aclPortRangeForSync (a_DstPort rule) in
  let rule := normalizeACLRuntimeFields rule in
  rowsAffected ← stmt (λ e _ db,
    row ← acl_columns tenantID nodeID rule (a_SrcCIDR rule) (a_DstCIDR rule) (Some (a_DstPort rule))
            (a_Description rule) srcNet dstNet minPort maxPort (env_now e) (env_now e);
    match acl_rules db !! ruleID with
    | Some old =>
      if negb (acl_of tenantID nodeID ruleID old) then Ok (0, db) else
      if negb (acl_groups_ok db rule) then Err (ErrConstraint "acl_rules foreign key") else
      Ok (1, set_acl ruleID (row <| ar_created_at := ar_created_at old |>) db)
    | None => Ok (0, db)
    end);
  if rowsAffected =? 0 then fail ErrNoRows else
  _ ← bump_if bumpDesiredVersion tenantID nodeID;
  now ← ask env_go_now;
  mret (rule <| a_ID := ruleID |> <| a_TenantID := tenantID |> <| a_NodeID := nodeID |>
             <| a_Name := TrimSpace (a_Name rule) |> <| a_UpdatedAt := now |>).
Definition UpdateTenantNodeACLRule (tenantID nodeID ruleID : UUID) (rule : ACLRuleRecord) :=
  updateTenantNodeACLRule tenantID nodeID ruleID rule true.

Definition deleteTenantNodeACLRuleByID (tenantID nodeID ruleID : UUID) (bumpDesiredVersion : bool)
    : M unit :=
  let p id r := (id =? ruleID)%string && acl_of tenantID nodeID id r in
  _ ← delete_or_none (exec (λ _ db, (count_where p (acl_rules db),
        db <| acl_rules := delete_where p (acl_rules db) |>)));
  bump_if bumpDesiredVersion tenantID nodeID.
Definition DeleteTenantNodeACLRuleByID (tenantID nodeID ruleID : UUID) :=
  deleteTenantNodeACLRuleByID tenantID nodeID ruleID true.

(** ** QoS rules *)

Definition scanQoSRule (id : UUID) (r : QoSRow) : QoSRuleRecord :=
  mkQoS id (qr_tenant_id r) (qr_node_id r) (null_cidr (qr_src_cidr r)) (null_cidr (qr_dst_cidr r))
    (qr_group_id r) None (default 0 (qr_src_port r)) (default 0 (qr_dst_port r))
    (default 0 (qr_protocol r)) (qr_bandwidth_mbps r) (qr_direction r) (qr_rate_bps r)
    (qr_burst_bytes r) (qr_priority r) (qr_mode r) (qr_enabled r) (qr_description r)
    (qr_created_at r) (qr_updated_at r).

(** [ORDER BY priority ASC, created_at DESC]. *)
Definition qos_before (a b : UUID * QoSRow) : bool :=
  (qr_priority a.2 <? qr_priority b.2)
  || ((qr_priority a.2 =? qr_priority b.2) && (qr_created_at b.2 <? qr_created_at a.2)).
Definition listTenantNodeQoSRules (tenantID nodeID : UUID) (enabledOnly : bool)
    : M (list QoSRuleRecord) :=
  query (λ _ db, (λ kr, scanQoSRule kr.1 kr.2) <$> SliceStable qos_before
    (select_where (λ id r, qos_of tenantID nodeID id r && (negb enabledOnly || qr_enabled r))
       (qos_rules db))).
Definition ListTenantNodeQoSRules (tenantID nodeID : UUID) := listTenantNodeQoSRules tenantID nodeID false.
Definition GetEnabledTenantNodeQoSRules (tenantID nodeID : UUID) :=
  listTenantNodeQoSRules tenantID nodeID true.
Definition GetTenantNodeQoSRule (tenantID nodeID ruleID : UUID) : M QoSRuleRecord :=
  query_row (λ _ db,
    r ← qos_rules db !! ruleID;
    if qos_of tenantID nodeID ruleID r then Some (scanQoSRule ruleID r) else None).

Definition qos_columns (tenantID nodeID : UUID) (rule : QoSRuleRecord) (src dst : string)
    (srcPort dstPort protocol : option Z) (description : string) (created updated : Time)
    : result QoSRow :=
  _ ← in_range [default true (int4 <$> srcPort); default true (int4 <$> dstPort);
                default true (smallint <$> protocol); int4 (q_BandwidthMbps rule);
                bigint (q_RateBps rule); bigint (q_BurstBytes rule); int4 (q_Priority rule)];
  srcCIDR ← cidr_null_arg src;
  dstCIDR ← cidr_null_arg dst;
  Ok (mkQoSRow tenantID nodeID (q_GroupID rule) srcCIDR dstCIDR srcPort dstPort protocol
        (q_BandwidthMbps rule) (q_Direction rule) (q_RateBps rule) (q_BurstBytes rule)
        (q_Priority rule) (q_Mode rule) (q_Enabled rule) description created updated).

Definition createTenantNodeQoSRule (rule : QoSRuleRecord) (bumpDesiredVersion : bool)
    : M QoSRuleRecord :=
  let rule := normalizeQoSRuntimeFields rule in
  created ← stmt (λ e id db,
    row ← qos_columns (q_TenantID rule) (q_NodeID rule) rule (TrimSpace (q_SrcCIDR rule))
            (TrimSpace (q_DstCIDR rule)) (nullableInt (q_SrcPort rule)) (nullableInt (q_DstPort rule))
            (nullableInt (q_Protocol rule)) (TrimSpace (q_Description rule)) (env_now e) (env_now e);
    if negb (control_refs_ok db (q_TenantID rule) (q_NodeID rule) && group_ref_ok db (q_GroupID rule))
    then Err (ErrConstraint "qos_rules foreign key") else
    match qos_rules db !! id with
    | Some _ => Err (ErrConstraint "qos_rules_pkey")
    | None => Ok (scanQoSRule id row, set_qos id row db)
    end);
  _ ← bump_if bumpDesiredVersion (q_TenantID rule) (q_NodeID rule);
  mret created.
Definition CreateTenantNodeQoSRule (rule : QoSRuleRecord) := createTenantNodeQoSRule rule true.

Definition updateTenantNodeQoSRule (tenantID nodeID ruleID : UUID) (rule : QoSRuleRecord)
    (bumpDesiredVersion : bool) : M QoSRuleRecord :=
  let rule := normalizeQoSRuntimeFields rule in
  rowsAffected ← stmt (λ e _ db,
    row ← qos_columns tenantID nodeID rule (q_SrcCIDR rule) (q_DstCIDR rule) (Some (q_SrcPort rule))
            (Some (q_DstPort rule)) (Some (q_Protocol rule)) (q_Description rule) (env_now e) (env_now e);
    match qos_rules db !! ruleID with
    | Some old =>
      if negb (qos_of tenantID nodeID ruleID old) then Ok (0, db) else
      if negb (group_ref_ok db (q_GroupID rule)) then Err (ErrConstraint "qos_rules foreign key") else
      Ok (1, set_qos ruleID (row <| qr_created_at := qr_created_at old |>) db)
    | None => Ok (0, db)
    end);
  if rowsAffected =? 0 then fail ErrNoRows else
  _ ← bump_if bumpDesiredVersion tenantID nodeID;
  now ← ask env_go_now;
  mret (rule <| q_ID := ruleID |> <| q_TenantID := tenantID |> <| q_NodeID := nodeID |>
             <| q_UpdatedAt := now |>).
Definition UpdateTenantNodeQoSRule (tenantID nodeID ruleID : UUID) (rule : QoSRuleRecord) :=
  updateTenantNodeQoSRule tenantID nodeID ruleID rule true.

Definition deleteTenantNodeQoSRule (tenantID nodeID ruleID : UUID) (bumpDesiredVersion : bool)
    : M unit :=
  let p id r := (id =? ruleID)%string && qos_of tenantID nodeID id r in
  _ ← delete_or_none (exec (λ _ db, (count_where p (qos_rules db),
        db <| qos_rules := delete_where p (qos_rules db) |>)));
  bump_if bumpDesiredVersion tenantID nodeID.
Definition DeleteTenantNodeQoSRule (tenantID nodeID ruleID : UUID) :=
  deleteTenantNodeQoSRule tenantID nodeID ruleID true.

(** ** Blacklist rules *)

Definition scanBlacklistRule (id : UUID) (r : BlacklistRow) : BlacklistRuleRecord :=
  mkBlacklist id (br_tenant_id r) (br_node_id r) (br_scope r) (null_cidr (br_cidr r))
    (default 0 (br_port r)) (br_enabled r) (br_description r) (br_created_at r) (br_updated_at r).

(** [ORDER BY created_at DESC]. *)
Definition ListTenantNodeBlacklistRules (tenantID nodeID : UUID) (scope : string)
    : M (list BlacklistRuleRecord) :=
  query (λ _ db, (λ kr, scanBlacklistRule kr.1 kr.2) <$>
    SliceStable (λ a b, br_created_at b.2 <? br_created_at a.2)
      (select_where (λ id r, blacklist_of tenantID nodeID id r && (br_scope r =? scope)%string)
         (blacklist_rules db))).

Definition createTenantNodeBlacklistRule (rule : BlacklistRuleRecord) (bumpDesiredVersion : bool)
    : M BlacklistRuleRecord :=
  created ← stmt (λ e id db,
    let port := nullableInt (b_Port rule) in
    _ ← in_range [default true (int4 <$> port)];
    cidr ← cidr_null_arg (TrimSpace (b_CIDR rule));
    if negb (is_ok (ValidateBlacklistScope (b_Scope rule)))
    then Err (ErrConstraint "blacklist_rules_scope_check") else
    if negb (control_refs_ok db (b_TenantID rule) (b_NodeID rule))
    then Err (ErrConstraint "blacklist_rules foreign key") else
    match blacklist_rules db !! id with
    | Some _ => Err (ErrConstraint "blacklist_rules_pkey")
    | None =>
      let row := mkBlacklistRow (b_TenantID rule) (b_NodeID rule) (b_Scope rule) cidr port
        (b_Enabled rule) (TrimSpace (b_Description rule)) (env_now e) (env_now e) in
      Ok (scanBlacklistRule id row, set_blacklist id row db)
    end);
  _ ← bump_if bumpDesiredVersion (b_TenantID rule) (b_NodeID rule);
  mret created.
Definition CreateTenantNodeBlacklistRule (rule : BlacklistRuleRecord) :=
  createTenantNodeBlacklistRule rule true.

Definition delete_blacklist (p : UUID → BlacklistRow → bool) : M unit :=
  delete_or_none (exec (λ _ db, (count_where p (blacklist_rules db),
    db <| blacklist_rules := delete_where p (blacklist_rules db) |>))).
Definition deleteTenantNodeBlacklistRuleByID (tenantID nodeID : UUID) (scope : string) (ruleID : UUID)
    (bumpDesiredVersion : bool) : M unit :=
  _ ← delete_blacklist (λ id r, (id =? ruleID)%string && blacklist_of tenantID nodeID id r
                                && (br_scope r =? scope)%string);
  bump_if bumpDesiredVersion tenantID nodeID.
Definition DeleteTenantNodeBlacklistRuleByID (tenantID nodeID : UUID) (scope : string) (ruleID : UUID) :=
  deleteTenantNodeBlacklistRuleByID tenantID nodeID scope ruleID true.
Definition DeleteTenantNodePortBlacklistRule (tenantID nodeID : UUID) (port : Z) : M unit :=
  _ ← delete_blacklist (λ id r, blacklist_of tenantID nodeID id r
        && (br_scope r =? BlacklistScopePorts)%string && bool_decide (br_port r = Some port));
  bumpNodeDesiredVersion tenantID nodeID.

(** ** By public key *)

(** A key of no node: the record is nil and reading its tenant panics. *)
Definition node_of_key (publicKey : string) : M Node :=
  node ← GetNode publicKey;
  match node with
  | Some n => mret n
  | None => fail (ErrorString "invalid memory address or nil pointer dereference")
  end.
Definition GetNodeQoSRulesByPublicKey (publicKey : string) : M (list QoSRuleRecord) :=
  node ← node_of_key publicKey;
  listTenantNodeQoSRules (N_TenantID node) (N_ID node) true.
Definition GetNodeACLRulesByPublicKey (publicKey : string) : M (list ACLRuleRecord) :=
  node ← node_of_key publicKey;
  GetEnabledTenantNodeACLRules (N_TenantID node) (N_ID node).
(** [ORDER BY scope ASC, created_at ASC]. *)
Definition blacklist_before (a b : UUID * BlacklistRow) : bool :=
  str_ltb (br_scope a.2) (br_scope b.2)
  || ((br_scope a.2 =? br_scope b.2)%string && (br_created_at a.2 <? br_created_at b.2)).
Definition GetNodeBlacklistRulesByPublicKey (publicKey : string) : M (list BlacklistRuleRecord) :=
  node ← node_of_key publicKey;
  query (λ _ db, (λ kr, scanBlacklistRule kr.1 kr.2) <$> SliceStable blacklist_before
    (select_where (λ id r, blacklist_of (N_TenantID node) (N_ID node) id r && br_enabled r)
       (blacklist_rules db))).
End store.
