(* ===== verification/Addressing.v ===== *)
(** * Addresses

    The overlay address of a node is a base address plus its offset.
    [pkg/controllerstorage/postgres.go] keeps the next offset to try in the
    table [state] and looks for a free one from there, in a circle. *)

From S2P Require Import Prelude GoStr Netip Records Store Events ControlState AgentCommands PolicySync Nodes NodesSpec.

Open Scope Z_scope.

(** ** The table [state] *)

Definition GetNextOffset : M Z := query (λ _ db, default 2 (next_offset db)).

Definition set_next_offset (offset : Z) : M unit :=
  stmt (λ _ _ db,
    if negb (int4 offset) then Err (ErrConstraint "integer out of range")
    else Ok ((), db <| next_offset := Some offset |>)).
Definition SetNextOffset := set_next_offset.

Definition IncrementNextOffset : M Z :=
  current ← GetNextOffset;
  let newOffset := current + 1 in
  let newOffset := if 254 <? newOffset then 2 else newOffset in
  _ ← SetNextOffset newOffset;
  mret current.

Definition IsOffsetUsed (offset : Z) : M bool :=
  query (λ _ db, 0 <? count_where (λ _ r, n_ip_offset r =? offset) (nodes db)).

(** ** Allocation *)

Definition maxOffset : Z := 65534.

(** [EXISTS (SELECT 1 FROM nodes WHERE ip_offset = o AND status != 'deleted')]. *)
Definition offset_taken (db : DB) (o : Z) : bool :=
  exists_where (λ _ r, (n_ip_offset r =? o) && not_deleted r) (nodes db).

(** [CASE WHEN o >= current THEN o - current ELSE o - current + max END]. *)
Definition offset_rank (current o : Z) : Z :=
  if current <=? o then o - current else o - current + maxOffset.
Definition offset_before (current a b : Z) : bool :=
  (offset_rank current a <? offset_rank current b)
  || ((offset_rank current a =? offset_rank current b) && (a <? b)).

(** [generate_series(start, start + n - 1)]. *)
Fixpoint generate_series (start : Z) (n : nat) : list Z :=
  match n with O => [] | S n' => start :: generate_series (start + 1) n' end.

Definition free_offsets (db : DB) : list Z :=
  filter (λ o, offset_taken db o = false) (generate_series 1 (Z.to_nat maxOffset)).

(** The SELECT of a free offset; its arithmetic is that of [integer]. *)
Definition next_free_offset (current : Z) : M Z :=
  stmt (λ _ _ db,
    if negb (forallb (λ o, int4 (offset_rank current o)) (free_offsets db))
    then Err (ErrConstraint "integer out of range") else
    match first_by (offset_before current) (free_offsets db) with
    | Some o => Ok (o, db)
    | None => Err ErrNoRows
    end).

Definition no_offset_msg : string :=
  "no available IP offset (all " +:+ Itoa maxOffset +:+ " offsets in use)".

(** The second half of the allocation: from a locked row with value [current]. *)
Definition take_free_offset (current : Z) : M (outcome Z) :=
  foundOffset ← wrap no_offset_msg (next_free_offset current);
  if foundOffset =? -1 then fail (ErrorString no_offset_msg) else
  let newOffset := foundOffset + 1 in
  let newOffset := if maxOffset <? newOffset then 1 else newOffset in
  _ ← wrap "failed to update next_offset" (set_next_offset newOffset);
  mret (Commit foundOffset).

(** The stored offset; the row is made when there is none. *)
Definition lock_next_offset : M Z :=
  row ← wrap "failed to read next_offset" (query (λ _ db, next_offset db));
  match row with
  | Some current => mret current
  | None =>
    _ ← wrap "failed to initialize next_offset"
          (exec (λ _ db, ((), db <| next_offset := Some (default 1 (next_offset db)) |>)));
    wrap "failed to lock next_offset" (query_row (λ _ db, next_offset db))
  end.

(** The row of [state] is locked from the first SELECT to the commit. *)
Definition GetNextAvailableOffset : M Z :=
  tx (current ← lock_next_offset; take_free_offset current).

(** ** Addresses *)

(** The low 32 bits of the sixteen bytes [net.ParseIP] gives. *)
Definition ipToInt (ip : Addr) : Z := uint32 (addr_val ip).
Definition intToIp (nn : Z) : string := v4_string nn.

Definition CalculateIP (baseIP : string) (offset : Z) : result string :=
  match ParseIP baseIP with
  | None => Err (ErrorString ("invalid base IP: " +:+ baseIP))
  | Some ip => Ok (intToIp (uint32 (ipToInt ip + uint32 offset)))
  end.

(** ** Allocation finds the next free offset *)

Lemma offset_before_asym c a b : offset_before c a b = true → offset_before c b a = false.
Proof. unfold offset_before. intros H. apply orb_true_iff in H. apply orb_false_iff.
  destruct H as [H|H]; bools; rewrite ?andb_false_iff; repeat split;
    rewrite ?Z.ltb_ge, ?Z.eqb_neq; lia. Qed.
Lemma offset_before_trans c a b d :
  offset_before c b a = false → offset_before c d b = false → offset_before c d a = false.
Proof.
  unfold offset_before. rewrite !orb_false_iff, !andb_false_iff, !Z.ltb_ge, !Z.eqb_neq. lia.
Qed.

(** With the stored offset in range the rank is the distance along the circle. *)
Lemma offset_rank_mod c o :
  1 ≤ c ≤ maxOffset → 1 ≤ o ≤ maxOffset → offset_rank c o = (o - c) mod maxOffset.
Proof.
  unfold offset_rank, maxOffset. intros Hc Ho. destruct (Z.leb_spec c o).
  - rewrite Z.mod_small; lia.
  - rewrite <- (Z.mod_add _ 1) by lia. rewrite Z.mod_small; lia.
Qed.

Lemma generate_series_spec start n o :
  o ∈ generate_series start n ↔ start ≤ o < start + Z.of_nat n.
Proof.
  revert start. induction n as [|n IH]; intros start; cbn [generate_series].
  - rewrite elem_of_nil. lia.
  - rewrite elem_of_cons, IH. lia.
Qed.
Lemma free_offsets_spec db o :
  o ∈ free_offsets db ↔ 1 ≤ o ≤ maxOffset ∧ offset_taken db o = false.
Proof.
  unfold free_offsets. rewrite list_elem_of_filter, generate_series_spec. unfold maxOffset.
  split; intros; destruct_and!; split_and?; done || lia.
Qed.

Lemma rank_int4 c o : 1 ≤ c ≤ maxOffset → 1 ≤ o ≤ maxOffset → int4 (offset_rank c o) = true.
Proof.
  intros Hc Ho. rewrite offset_rank_mod by done. unfold int4, maxOffset.
  pose proof (Z.mod_pos_bound (o - c) 65534 ltac:(lia)).
  apply andb_true_iff. split; [apply Z.leb_le|apply Z.ltb_lt]; lia.
Qed.

Lemma next_free_offset_run c e st :
  no_faults e → 1 ≤ c ≤ maxOffset →
  let db := st_db st in let st' := mkSt db (S (st_tick st)) in
  (∃ o, next_free_offset c e st = (Ok o, st') ∧ 1 ≤ o ≤ maxOffset ∧ offset_taken db o = false ∧
     ∀ o', 1 ≤ o' ≤ maxOffset → offset_taken db o' = false →
           (o - c) mod maxOffset ≤ (o' - c) mod maxOffset)
  ∨ (next_free_offset c e st = (Err ErrNoRows, st') ∧
     ∀ o, 1 ≤ o ≤ maxOffset → offset_taken db o = true).
Proof.
  intros Hf Hc db st'. unfold next_free_offset, stmt, stmt_rows. rewrite Hf. fold db.
  assert (forallb (λ o, int4 (offset_rank c o)) (free_offsets db) = true) as ->.
  { apply forallb_forall. intros o [Ho _]%list_elem_of_In%free_offsets_spec. by apply rank_int4. }
  simpl negb. cbv iota. destruct (first_by _ _) as [o|] eqn:Ho.
  - left. exists o. split; [done|].
    pose proof (first_by_elem _ _ _ Ho) as [Hr Ht]%free_offsets_spec. split_and!; try done; try lia.
    intros o' Hr' Ht'. rewrite first_by_head in Ho.
    pose proof (SliceStable_first _ _ _ o' (offset_before_asym c) (offset_before_trans c) Ho) as Hb.
    rewrite <- !offset_rank_mod by done. unfold offset_before in Hb.
    rewrite free_offsets_spec, orb_false_iff, Z.ltb_ge in Hb. apply Hb. done.
  - right. split; [done|]. intros o Hr. apply first_by_None in Ho.
    destruct (offset_taken db o) eqn:Ht; [done|].
    assert (o ∈ free_offsets db) as Hin by by apply free_offsets_spec.
    rewrite Ho in Hin. by apply elem_of_nil in Hin.
Qed.

(** The offset after [o], in a circle. *)
Definition offset_after (o : Z) : Z := if maxOffset <? o + 1 then 1 else o + 1.
Definition offset_in_range (db : DB) : Prop :=
  ∀ c, next_offset db = Some c → 1 ≤ c ≤ maxOffset.

Lemma take_free_offset_run c e st :
  no_faults e → 1 ≤ c ≤ maxOffset →
  (∃ o st', take_free_offset c e st = (Ok (Commit o), st') ∧
     st_db st' = (st_db st) <| next_offset := Some (offset_after o) |> ∧
     1 ≤ o ≤ maxOffset ∧ offset_taken (st_db st) o = false ∧
     ∀ o', 1 ≤ o' ≤ maxOffset → offset_taken (st_db st) o' = false →
           (o - c) mod maxOffset ≤ (o' - c) mod maxOffset)
  ∨ (∃ st', take_free_offset c e st = (Err (ErrorString no_offset_msg), st') ∧
     ∀ o, 1 ≤ o ≤ maxOffset → offset_taken (st_db st) o = true).
Proof.
  intros Hf Hc. unfold take_free_offset. destruct (next_free_offset_run c e st Hf Hc) as [(o & Hrun & Ho & Ht & Hmin)|[Hrun Hall]].
  - left. erewrite bind_run by (apply wrap_run; exact Hrun).
    rewrite (proj2 (Z.eqb_neq o (-1))) by lia. cbv zeta. fold (offset_after o).
    assert (int4 (offset_after o) = true) as Hi.
    { unfold offset_after, int4, maxOffset in *. destruct (Z.ltb_spec 65534 (o + 1));
        apply andb_true_iff; split; [apply Z.leb_le|apply Z.ltb_lt|apply Z.leb_le|apply Z.ltb_lt]; lia. }
    eexists o, _. split_and!; try done.
    + erewrite bind_run; [reflexivity|]. apply wrap_run. unfold set_next_offset, stmt, stmt_rows.
      rewrite Hf, Hi. simpl. reflexivity.
    + done.
    + apply Ho.
    + apply Ho.
  - right. eexists. split; [|exact Hall]. unfold mbind, M_bind, wrap at 1. by rewrite Hrun.
Qed.

Lemma lock_next_offset_run e st : no_faults e →
  ∃ st', lock_next_offset e st = (Ok (default 1 (next_offset (st_db st))), st') ∧
  nodes (st_db st') = nodes (st_db st) ∧
  ∀ o, (st_db st') <| next_offset := o |> = (st_db st) <| next_offset := o |>.
Proof.
  intros Hf. unfold lock_next_offset. erewrite bind_run by (apply wrap_run; by apply query_run).
  destruct (next_offset (st_db st)) as [c|] eqn:Hn; [by eexists|].
  erewrite bind_run by (apply wrap_run; by apply exec_run). cbn [fst snd st_db]. rewrite Hn.
  eexists. split; [apply wrap_run; by apply query_row_run|done].
Qed.

Lemma offset_taken_false db o :
  offset_taken db o = false ↔
  ∀ id r, nodes db !! id = Some r → not_deleted r = true → n_ip_offset r ≠ o.
Proof.
  unfold offset_taken. rewrite exists_where_false. split.
  - intros H id r Hr Hd Ho. specialize (H id r Hr). rewrite Hd, andb_true_r in H. by bools.
  - intros H id r Hr. destruct (not_deleted r) eqn:Hd; [|by rewrite andb_false_r].
    rewrite andb_true_r. apply Z.eqb_neq. by eapply H.
Qed.

(** No node that is not deleted has the offset. *)
Definition offset_free (db : DB) (o : Z) : Prop :=
  ∀ id r s, nodes db !! id = Some r → n_ip_offset r = o → n_status r = Some s → s = "deleted".
Lemma offset_taken_free db o : offset_taken db o = false ↔ offset_free db o.
Proof.
  rewrite offset_taken_false. unfold offset_free, not_deleted, status_not_in. split.
  - intros H id r s Hr Ho Hs. destruct (decide (s = "deleted")) as [|Hne]; [done|].
    exfalso. apply (H id r Hr); [|done]. rewrite Hs. apply negb_true_iff, one_of_false.
    by intros ?%list_elem_of_singleton.
  - intros H id r Hr Hd Ho. destruct (n_status r) as [s|] eqn:Hs; [|done].
    by rewrite (H id r s Hr Ho Hs) in Hd.
Qed.

(** What an allocation answers: the first free offset from the stored one on,
    in a circle; or an error when every offset is taken. *)
Definition allocates (db : DB) (r : result Z) (db' : DB) : Prop :=
  let current := default 1 (next_offset db) in
  match r with
  | Ok o =>
    1 ≤ o ≤ maxOffset ∧ offset_free db o ∧
    (∀ o', 1 ≤ o' ≤ maxOffset → offset_free db o' →
           (o - current) mod maxOffset ≤ (o' - current) mod maxOffset) ∧
    db' = db <| next_offset := Some (offset_after o) |>
  | Err _ => (∀ o, 1 ≤ o ≤ maxOffset → ¬ offset_free db o) ∧ db' = db
  end.

(** When every statement succeeds, [GetNextAvailableOffset] answers the first
    offset from the stored one on, in a circle over 1..65534, that no node has
    that is not deleted, and stores the one after it; it returns an error exactly
    when all are taken, and then changes nothing. *)
Theorem GetNextAvailableOffset_exact e st :
  no_faults e → offset_in_range (st_db st) →
  allocates (st_db st) (GetNextAvailableOffset e st).1 (st_db (GetNextAvailableOffset e st).2).
Proof.
  intros Hf Hin. unfold GetNextAvailableOffset, allocates, tx. rewrite Hf.
  destruct (lock_next_offset_run e (mkSt (st_db st) (S (st_tick st))) Hf) as (s & Hrun & Hn & Hset).
  rewrite (bind_run _ _ _ _ _ _ Hrun). cbn [st_db] in *. clear Hrun.
  assert (∀ o, offset_taken (st_db s) o = offset_taken (st_db st) o) as Htaken
    by (intros o; unfold offset_taken; by rewrite Hn).
  assert (1 ≤ default 1 (next_offset (st_db st)) ≤ maxOffset) as Hc.
  { destruct (next_offset (st_db st)) as [c|] eqn:Hc; [by apply Hin|by unfold maxOffset]. }
  destruct (take_free_offset_run _ e s Hf Hc) as [(o & st' & Hrun & Hdb & Ho & Ht & Hmin)|(st' & Hrun & Hall)];
    rewrite Hrun; cbn [fst snd st_db].
  - rewrite Hf. cbn [fst snd st_db]. rewrite Hdb, Hset. rewrite Htaken in Ht.
    setoid_rewrite <- offset_taken_free.
    setoid_rewrite Htaken in Hmin. split_and!; try done; apply Ho.
  - split; [|done]. intros o Ho. rewrite <- offset_taken_free, <- Htaken, (Hall o Ho). done.
Qed.

Lemma GetNextAvailableOffset_exact_witness :
  let st := mkSt (suspended_db <| next_offset := Some 2 |>) 0 in
  no_faults (env_at 7) ∧ allocates (st_db st) (Ok 4) (st_db (GetNextAvailableOffset (env_at 7) st).2).
Proof.
  intros st. split; [done|].
  assert ((GetNextAvailableOffset (env_at 7) st).1 = Ok 4) as <- by (vm_compute; reflexivity).
  apply (GetNextAvailableOffset_exact (env_at 7) st); [done|].
  intros c Hc. injection Hc as <-. unfold maxOffset. lia.
Defined.

(** ** No two live nodes share an offset *)

Definition offsets_unique (db : DB) : Prop :=
  ∀ id id' r r', nodes db !! id = Some r → nodes db !! id' = Some r' →
  not_deleted r = true → not_deleted r' = true → n_ip_offset r = n_ip_offset r' → id = id'.

(** Whenever an allocation succeeds, the offset is free. *)
Lemma GetNextAvailableOffset_free e st o st' :
  GetNextAvailableOffset e st = (Ok o, st') →
  offset_taken (st_db st) o = false ∧ nodes (st_db st') = nodes (st_db st).
Proof.
  unfold GetNextAvailableOffset. intros (st1 & [[Hb Hdb]|[Hb Hdb]])%tx_ok;
    apply bind_ok in Hb as (c & s & Hlock & Htake); unfold take_free_offset in Htake;
    apply bind_ok in Htake as (o' & s2 & Hfree%wrap_ok & Hset);
    destruct (o' =? -1); try done; apply bind_ok in Hset as ([] & s3 & Hnew%wrap_ok & Hret);
    try discriminate Hret; injection Hret as <- <-.
  assert (nodes (st_db s) = nodes (st_db st)) as Hs.
  { unfold lock_next_offset in Hlock. apply bind_ok in Hlock as (row & s' & Hq%wrap_ok%query_ok & Hlock).
    destruct Hq as [_ Hq]. cbn [st_db] in Hq. destruct row.
    - injection Hlock as _ <-. by rewrite Hq.
    - apply bind_ok in Hlock as ([] & s'' & [_ He]%wrap_ok%exec_ok & [_ Hlock]%wrap_ok%query_row_ok).
      rewrite Hlock, He, Hq. done. }
  apply stmt_ok in Hfree as (Hfree & _). destruct (negb _); [done|].
  destruct (first_by _ _) as [o|] eqn:Ho; [|done]. injection Hfree as -> Hs2.
  apply stmt_ok in Hnew as (Hnew & _). destruct (negb _); [done|]. injection Hnew as Hs3.
  apply first_by_elem, free_offsets_spec in Ho as [_ Ho]. unfold offset_taken in *. rewrite Hs in Ho.
  split; [done|]. by rewrite Hdb, <- Hs3, <- Hs2.
Qed.

(** A node that is saved under a new public key with the offset it was
    allocated shares its offset with no other node that is not deleted,
    whatever statements fail on the way. *)
Theorem allocated_offset_unique node e st o st1 e' saved st2 :
  offsets_unique (st_db st) → node_by_key (st_db st) (N_PublicKey node) = None →
  GetNextAvailableOffset e st = (Ok o, st1) →
  SaveNode (Some (node <| N_IPOffset := o |>)) e' st1 = (Ok saved, st2) →
  offsets_unique (st_db st2).
Proof.
  intros Hu Hnew Halloc Hsave. destruct (GetNextAvailableOffset_free _ _ _ _ Halloc) as [Hfree Hn].
  rewrite offset_taken_false in Hfree.
  apply stmt_ok in Hsave as (Hs & _). simpl in Hs.
  assert (node_by_key (st_db st1) (N_PublicKey node) = None) as Hk
    by (unfold node_by_key; by rewrite Hn).
  rewrite Hk in Hs. unfold node_exists in Hs. case_bool_decide; [done|].
  destruct (negb _); [done|]. injection Hs as _ <-.
  intros id id' r r'. simpl. rewrite !lookup_insert_Some, !Hn.
  intros [[<- <-]|[? Hr]] [[<- <-]|[? Hr']] Hd Hd' Ho; try done; simpl in Ho.
  - by destruct (Hfree _ _ Hr' Hd').
  - by destruct (Hfree _ _ Hr Hd).
  - by eapply Hu.
Qed.

Lemma suspended_offsets_unique : offsets_unique suspended_db.
Proof. intros id id' r r' Hr Hr' _ _ Ho. simpl in Hr, Hr'. concrete_rows; done. Qed.

Lemma allocated_offset_unique_witness :
  let st := mkSt suspended_db 0 in
  let node := scanNode "" (sample_node "k3" "" 0 0) in
  ∃ st1 saved st2,
    GetNextAvailableOffset (env_at 7) st = (Ok 1, st1) ∧
    SaveNode (Some (node <| N_IPOffset := 1 |>)) (env_at 8) st1 = (Ok saved, st2) ∧
    offsets_unique (st_db st2).
Proof.
  intros st node.
  assert ((GetNextAvailableOffset (env_at 7) st).1 = Ok 1 ∧
          is_ok (SaveNode (Some (node <| N_IPOffset := 1 |>)) (env_at 8)
                   (GetNextAvailableOffset (env_at 7) st).2).1 = true) as [H1 H2]
    by (vm_compute; split; reflexivity).
  destruct (GetNextAvailableOffset (env_at 7) st) as [r1 st1] eqn:Halloc. cbn [fst snd] in H1, H2.
  rewrite H1 in Halloc.
  destruct (SaveNode _ (env_at 8) st1) as [[saved|x] st2] eqn:Hsave; [|done].
  exists st1, saved, st2. split; [exact (f_equal (λ r, (r, st1)) H1)|split; [exact Hsave|]].
  apply (allocated_offset_unique node (env_at 7) st 1 st1 (env_at 8) saved st2);
    [exact suspended_offsets_unique|vm_compute; reflexivity|exact Halloc|exact Hsave].
Defined.

(** ** Addresses are distinct *)

Lemma CalculateIP_parse base o s :
  CalculateIP base o = Ok s →
  ∃ ip, ParseIP base = Some ip ∧ ParseAddr s = Some (mkAddr true (uint32 (addr_val ip + o)) "").
Proof.
  unfold CalculateIP, intToIp, ipToInt. destruct (ParseIP base) as [ip|]; [|done].
  intros [= <-]. exists ip. split; [done|].
  rewrite ParseAddr_v4_string by apply uint32_range. unfold uint32. by rewrite <- Z.add_mod.
Qed.

(** The address of an offset reads back as the base address plus the offset,
    and within the allocator's range different offsets have different addresses. *)
Theorem CalculateIP_roundtrip base o s :
  CalculateIP base o = Ok s →
  (∃ ip, ParseIP base = Some ip ∧ ParseAddr s = Some (mkAddr true (uint32 (addr_val ip + o)) "")) ∧
  ∀ o', 1 ≤ o ≤ maxOffset → 1 ≤ o' ≤ maxOffset → CalculateIP base o' = Ok s → o' = o.
Proof.
  intros Hs. pose proof (CalculateIP_parse _ _ _ Hs) as (ip & Hip & Hv). split; [by eauto|].
  intros o' Ho Ho' (ip' & Hip' & Hv')%CalculateIP_parse. simplify_eq.
  unfold uint32, maxOffset in *. change (2 ^ 32) with 4294967296 in *.
  match goal with H : _ mod _ = _ mod _ |- _ => revert H end.
  Z.div_mod_to_equations. lia.
Qed.

Lemma CalculateIP_roundtrip_witness :
  CalculateIP "100.64.0.0" 300 = Ok "100.64.1.44" ∧
  ∃ ip, ParseIP "100.64.0.0" = Some ip ∧
        ParseAddr "100.64.1.44" = Some (mkAddr true (uint32 (addr_val ip + 300)) "").
Proof.
  split; [reflexivity|]. exact (proj1 (CalculateIP_roundtrip "100.64.0.0" 300 "100.64.1.44" eq_refl)).
Defined.
