(* ===== verification/Lifecycle.v ===== *)
(** * Lifecycle of nodes and tenants

    [pkg/controllerstorage/node_lifecycle.go]: suspending, banning, deleting and
    restoring nodes and tenants in one transaction with the certificates,
    commands, sessions and audit events that go with it; and the state the
    runtime authentication reads ([auth_state.go]). *)

From S2P Require Import Prelude GoStr Records Store Events ControlState AgentCommands PolicySync Nodes NodesSpec.

Open Scope Z_scope.

(** ** Data *)

Record NodeLifecycleTransition := mkNodeTransition {
  nt_TargetStatus : string;
  nt_RevokeReason : string;
  nt_AuditEventType : string;
  nt_AuditActor : string;
  nt_AuditSummary : string;
  nt_AuditDetail : object;
}.
Record TenantLifecycleTransition := mkTenantTransition {
  tt_TargetStatus : string;
  tt_AuditEventType : string;
  tt_AuditActor : string;
  tt_AuditSummary : string;
  tt_AuditDetail : object;
}.
Record tenantLifecycleNode := mkTenantNode { tn_ID : UUID; tn_PublicKey : string }.

(** ** Statuses *)

Definition tenantStatusStopsRuntime (status : string) : bool :=
  one_of (ToLower (TrimSpace status)) ["suspended"; "deleted"].
Definition nodeStatusStopsCommands (status : string) : bool :=
  one_of (ToLower (TrimSpace status)) ["deleted"; "suspended"; "banned"].
Definition nodeStatusRequiresCertificateRevoke (status : string) : bool :=
  nodeStatusStopsCommands status.

(** ** Audit *)

(** The base entries, with those of the caller over them. *)
Definition with_detail (base detail : object) : object := detail ∪ base.

Definition createLifecycleCertificateRevokedAuditEventTx (node : Node)
    (transition : NodeLifecycleTransition) (targetStatus revokeReason : string)
    (revokedCount : Z) : M unit :=
  let actor := TrimSpace (nt_AuditActor transition) in
  let actor := if (actor =? "")%string then "system" else actor in
  _ ← insert_audit_event (mkAuditEvent (N_TenantID node) (Some (N_ID node)) AuditCertRevoked actor
    "Node certificate revoked due to node lifecycle change"
    (<["public_key" := JString (N_PublicKey node)]>
     (<["hostname" := JString (N_Hostname node)]>
      (<["node_status" := JString targetStatus]>
       (<["reason" := JString revokeReason]>
        {["revoked_cert_count" := JOther (Itoa revokedCount)]})))));
  mret ().

Definition createTenantLifecycleAuditEventTx (tenantID : UUID) (previousStatus targetStatus : string)
    (transition : TenantLifecycleTransition) : M unit :=
  let actor := TrimSpace (tt_AuditActor transition) in
  let actor := if (actor =? "")%string then "system" else actor in
  let summary := TrimSpace (tt_AuditSummary transition) in
  let summary := if (summary =? "")%string then "Tenant " +:+ targetStatus else summary in
  let detail := with_detail
    (<["tenant_id" := JString tenantID]>
     (<["previous_status" := JString (TrimSpace previousStatus)]>
      {["target_status" := JString targetStatus]})) (tt_AuditDetail transition) in
  if negb (marshals detail) then fail (ErrorString "marshal tenant lifecycle audit detail") else
  _ ← insert_audit_event (mkAuditEvent tenantID None (tt_AuditEventType transition) actor summary detail);
  mret ().

(** ** Nodes *)

(** The certificates and commands of a node that leaves service. *)
Definition stop_node (node : Node) (transition : NodeLifecycleTransition) (publicKey targetStatus : string)
    : M unit :=
  _ ← (if nodeStatusRequiresCertificateRevoke targetStatus then
         let revokeReason := TrimSpace (nt_RevokeReason transition) in
         let revokeReason := if (revokeReason =? "")%string then "node " +:+ targetStatus
                             else revokeReason in
         revokedCount ← revokeNodeCertificatesTx (N_ID node) revokeReason;
         if 0 <? revokedCount
         then createLifecycleCertificateRevokedAuditEventTx node transition targetStatus
                revokeReason revokedCount
         else mret ()
       else mret ());
  if nodeStatusStopsCommands targetStatus
  then failIncompleteAgentCommandsForNodeTx publicKey ("node status changed to " +:+ targetStatus)
  else mret ().

Definition node_audit (node : Node) (transition : NodeLifecycleTransition) (targetStatus : string)
    : M unit :=
  if (nt_AuditEventType transition =? "")%string then mret () else
  let detail := with_detail
    (<["public_key" := JString (N_PublicKey node)]>
     (<["hostname" := JString (N_Hostname node)]>
      {["target_status" := JString targetStatus]})) (nt_AuditDetail transition) in
  if negb (marshals detail) then fail (ErrorString "marshal audit detail") else
  _ ← insert_audit_event (mkAuditEvent (N_TenantID node) (Some (N_ID node))
        (nt_AuditEventType transition) (nt_AuditActor transition) (nt_AuditSummary transition) detail);
  mret ().

Definition ApplyNodeLifecycleTransition (publicKey : string) (transition : NodeLifecycleTransition)
    : M Node :=
  let targetStatus := ToLower (TrimSpace (nt_TargetStatus transition)) in
  if (targetStatus =? "")%string then fail (ErrorString "target status is required") else
  tx (
    node ← query_row (λ _ db, (λ kn, scanNode kn.1 kn.2) <$> node_by_key db publicKey);
    _ ← set_status_by_key publicKey targetStatus;
    let node := node <| N_Status := targetStatus |> in
    _ ← stop_node node transition publicKey targetStatus;
    _ ← node_audit node transition targetStatus;
    mret (Commit node)).

(** ** Tenants *)

Definition tenant_status (db : DB) (tenantID : UUID) : option (result string) :=
  (λ t, match t_status t with
        | Some s => Ok s
        | None => Err (ErrorString "converting NULL to string is unsupported")
        end) <$> tenants db !! tenantID.
Definition scan_tenant_status (tenantID : UUID) : M string :=
  s ← query_row (λ _ db, tenant_status db tenantID);
  lift (λ _, s).

Definition active_in (tenantID : UUID) (_ : UUID) (r : NodeRow) : bool :=
  (n_tenant_id r =? tenantID)%string && in_service r.

Definition selectActiveTenantNodesForLifecycleTx (tenantID : UUID) : M (list tenantLifecycleNode) :=
  query (λ _ db, (λ kn, mkTenantNode kn.1 (n_public_key kn.2)) <$>
                 select_where (active_in tenantID) (nodes db)).

Definition of_tenant (tenantID : UUID) (_ : UUID) (u : UserRow) : bool :=
  bool_decide (u_tenant_id u = Some tenantID).

(** What a tenant that stops takes with it. *)
Definition stop_tenant (tenantID : UUID) (targetStatus : string) : M unit :=
  _ ← exec (λ e db, ((), db <| users := update_where (of_tenant tenantID)
        (λ u, u <| u_token_version := u_token_version u + 1 |> <| u_updated_at := env_now e |>)
        (users db) |>));
  stopped ← selectActiveTenantNodesForLifecycleTx tenantID;
  _ ← update_nodes (active_in tenantID)
    (λ e r, r <| n_status := Some targetStatus |>
              <| n_runtime_token_version := n_runtime_token_version r + 1 |>
              <| n_updated_at := env_now e |>);
  for_each stopped (λ node,
    _ ← revokeNodeCertificatesTx (tn_ID node) ("tenant " +:+ targetStatus);
    failIncompleteAgentCommandsForNodeTx (tn_PublicKey node)
      ("tenant status changed to " +:+ targetStatus)).

Definition ApplyTenantLifecycleTransition (tenantID : UUID) (transition : TenantLifecycleTransition)
    : M unit :=
  let targetStatus := ToLower (TrimSpace (tt_TargetStatus transition)) in
  if (targetStatus =? "")%string then fail (ErrorString "target status is required") else
  if negb (one_of targetStatus ["active"; "suspended"; "deleted"])
  then fail (ErrorString ("unsupported tenant status " +:+ Quote targetStatus)) else
  tx (
    previousStatus ← scan_tenant_status tenantID;
    affected ← exec (λ e db, (count_where (λ id _, (id =? tenantID)%string) (tenants db),
      db <| tenants := update_where (λ id _, (id =? tenantID)%string)
        (λ t, t <| t_status := Some targetStatus |> <| t_updated_at := env_now e |>) (tenants db) |>));
    if affected =? 0 then fail ErrNoRows else
    _ ← (if tenantStatusStopsRuntime targetStatus then stop_tenant tenantID targetStatus else mret ());
    _ ← (if (tt_AuditEventType transition =? "")%string then mret ()
         else createTenantLifecycleAuditEventTx tenantID previousStatus targetStatus transition);
    mret (Commit ())).

(** ** Authentication state *)

Record NodeRuntimeAuthState := mkRuntimeAuthState {
  ra_NodeID : UUID;
  ra_TenantID : UUID;
  ra_NodeStatus : string;
  ra_RuntimeTokenVersion : Z;
  ra_TenantStatus : string;
}.
Definition GetTenantStatus (tenantID : UUID) : M string :=
  s ← scan_tenant_status tenantID; mret (TrimSpace s).
Lemma GetTenantStatus_ok t e st s st' :
  GetTenantStatus t e st = (Ok s, st') →
  st_db st' = st_db st ∧ ∃ row, tenants (st_db st) !! t = Some row ∧ s = TrimSpace (default "" (t_status row)).
Proof.
  unfold GetTenantStatus, scan_tenant_status, tenant_status. intros Hr.
  apply bind_ok in Hr as (s' & st1 & Hs & [= <- <-]).
  apply bind_ok in Hs as (o & st2 & [Ho Hdb]%query_row_ok & Hl).
  apply fmap_Some in Ho as (row & Hrow & ->). unfold lift in Hl.
  destruct (t_status row) as [x|] eqn:Hx; [|done]. injection Hl as -> ->.
  split; [done|]. exists row. by rewrite Hx.
Qed.
Definition GetNodeRuntimeTokenVersion (nodeID : UUID) : M Z :=
  query_row (λ _ db, n_runtime_token_version <$> nodes db !! nodeID).
Definition GetNodeRuntimeAuthState (nodeID : UUID) : M (option NodeRuntimeAuthState) :=
  query (λ _ db,
    n ← nodes db !! nodeID;
    t ← tenants db !! n_tenant_id n;
    Some (mkRuntimeAuthState nodeID (n_tenant_id n) (TrimSpace (default "online" (n_status n)))
            (n_runtime_token_version n) (TrimSpace (default "" (t_status t))))).

(** ** What stopping does *)

(** The certificates of the nodes [ids] and the commands of the keys [keys] are
    closed, every other one is as before, and the rows of nodes, tenants and
    users are untouched. *)
Record stopped_only (ids : list UUID) (keys : list string) (db db' : DB) : Prop := {
  so_nodes : nodes db' = nodes db;
  so_tenants : tenants db' = tenants db;
  so_users : users db' = users db;
  so_certs_old id c' : node_certificates db' !! id = Some c' →
    ∃ c, node_certificates db !! id = Some c ∧ (c' = c ∨ c_status c' = CertStatusRevoked);
  so_certs_other id : id ∉ ids → node_certificates db' !! id = node_certificates db !! id;
  so_certs_stopped id c' : id ∈ ids → node_certificates db' !! id = Some c' →
    c_status c' ≠ CertStatusIssued;
  so_commands_old id r' : agent_commands db' !! id = Some r' →
    ∃ r, agent_commands db !! id = Some r ∧ ac_node_public_key r' = ac_node_public_key r ∧
         (r' = r ∨ incomplete (ac_status r') = false);
  so_commands_other id r : agent_commands db !! id = Some r →
    ac_node_public_key r ∉ keys → agent_commands db' !! id = Some r;
  so_commands_stopped id r' : agent_commands db' !! id = Some r' →
    ac_node_public_key r' ∈ keys → incomplete (ac_status r') = false;
}.

Lemma stopped_only_nil db db' :
  nodes db' = nodes db → tenants db' = tenants db → users db' = users db →
  node_certificates db' = node_certificates db → agent_commands db' = agent_commands db →
  stopped_only [] [] db db'.
Proof.
  intros Hn Ht Hu Hc Ha. split; try done; rewrite ?Hc, ?Ha; simpl; intros;
    by eauto || (by match goal with H : _ ∈ [] |- _ => apply elem_of_nil in H end).
Qed.

Lemma stopped_only_app i1 k1 i2 k2 a b c :
  stopped_only i1 k1 a b → stopped_only i2 k2 b c → stopped_only (i1 ++ i2) (k1 ++ k2) a c.
Proof.
  intros H1 H2. split.
  - by rewrite (so_nodes _ _ _ _ H2), (so_nodes _ _ _ _ H1).
  - by rewrite (so_tenants _ _ _ _ H2), (so_tenants _ _ _ _ H1).
  - by rewrite (so_users _ _ _ _ H2), (so_users _ _ _ _ H1).
  - intros id c' Hc. destruct (so_certs_old _ _ _ _ H2 _ _ Hc) as (c1 & Hc1 & Hor).
    destruct (so_certs_old _ _ _ _ H1 _ _ Hc1) as (c0 & Hc0 & Hor0). exists c0. split; [done|].
    destruct Hor as [->|]; [|by right]. done.
  - intros id. rewrite not_elem_of_app. intros [? ?].
    by rewrite (so_certs_other _ _ _ _ H2), (so_certs_other _ _ _ _ H1).
  - intros id c' Hin Hc. rewrite elem_of_app in Hin.
    destruct (decide (id ∈ i2)); [by eapply (so_certs_stopped _ _ _ _ H2)|].
    destruct Hin; [|done]. rewrite (so_certs_other _ _ _ _ H2) in Hc by done.
    by eapply (so_certs_stopped _ _ _ _ H1).
  - intros id r' Hr. destruct (so_commands_old _ _ _ _ H2 _ _ Hr) as (r1 & Hr1 & Hk & Hor).
    destruct (so_commands_old _ _ _ _ H1 _ _ Hr1) as (r0 & Hr0 & Hk0 & Hor0). exists r0.
    split_and!; [done|congruence|]. destruct Hor as [->|]; [|by right]. done.
  - intros id r Hr. rewrite not_elem_of_app. intros [? ?].
    eapply (so_commands_other _ _ _ _ H2); [|done]. by eapply (so_commands_other _ _ _ _ H1).
  - intros id r' Hr Hin. destruct (so_commands_old _ _ _ _ H2 _ _ Hr) as (r1 & Hr1 & Hk & Hor).
    destruct Hor as [->|]; [|done]. rewrite elem_of_app in Hin.
    destruct Hin; [by eapply (so_commands_stopped _ _ _ _ H1)|by eapply (so_commands_stopped _ _ _ _ H2)].
Qed.

(** The statements. *)
Lemma revoke_stops id reason e st st' n :
  revokeNodeCertificatesTx id reason e st = (Ok n, st') →
  stopped_only [id] [] (st_db st) (st_db st').
Proof.
  intros [_ ->]%exec_ok. split; try done; simpl; try by eauto.
  - intros k r. rewrite lookup_update_where_Some. intros (c & Hk & ->). exists c. split; [done|].
    case_match; [by right|by left].
  - intros k [Hne _]%not_elem_of_cons. rewrite lookup_update_where. destruct (_ !! k); [|done]. simpl.
    unfold issued_for. by rewrite (proj2 (String.eqb_neq k id)).
  - intros k r ->%list_elem_of_singleton. rewrite lookup_update_where_Some. intros (c & Hk & ->).
    unfold issued_for. rewrite String.eqb_refl. simpl.
    destruct (c_status c =? _)%string eqn:Hs; [done|]. by bools.
  - by intros k r _ ?%elem_of_nil.
Qed.
Lemma fail_stops key message e st st' :
  failIncompleteAgentCommandsForNodeTx key message e st = (Ok (), st') →
  stopped_only [] [key] (st_db st) (st_db st').
Proof.
  unfold failIncompleteAgentCommandsForNodeTx. destruct (key =? "")%string; [done|].
  intros ([] & s & [_ Hd]%exec_ok & [_ ->]%exec_ok)%bind_ok. cbn [snd] in *. rewrite Hd.
  split; try done; simpl; try by eauto.
  - by intros k c ?%elem_of_nil.
  - intros k r. rewrite lookup_update_where_Some. intros (c & Hk & ->). exists c.
    split; [done|]. destruct (incomplete_for key k c); split; [done|by right|done|by left].
  - intros k r Hr [Hne _]%not_elem_of_cons. rewrite lookup_update_where, Hr. simpl. unfold incomplete_for.
    by rewrite (proj2 (String.eqb_neq _ key)).
  - intros k r. rewrite lookup_update_where_Some, list_elem_of_singleton. intros (c & Hk & ->) Hkey.
    destruct (incomplete_for key k c) eqn:Hi; [done|]. unfold incomplete_for in Hi.
    rewrite Hkey, String.eqb_refl in Hi. done.
Qed.
Lemma audit_stops ev e st row st' :
  insert_audit_event ev e st = (Ok row, st') → stopped_only [] [] (st_db st) (st_db st').
Proof.
  intros (H & _)%stmt_ok. destruct (negb _); [done|]. injection H as _ <-. by apply stopped_only_nil.
Qed.

Lemma stop_all_ok l reason message e st st' :
  for_each l (λ node, _ ← revokeNodeCertificatesTx (tn_ID node) reason;
                      failIncompleteAgentCommandsForNodeTx (tn_PublicKey node) message) e st
    = (Ok (), st') →
  stopped_only (tn_ID <$> l) (tn_PublicKey <$> l) (st_db st) (st_db st').
Proof.
  revert st. induction l as [|[id key] l IH]; intros st; cbn [for_each].
  - intros [= <-]. by apply stopped_only_nil.
  - intros ([] & s & Hone & Hl%IH)%bind_ok. apply bind_ok in Hone as (n & s1 & Hrev & Hfail).
    apply (stopped_only_app [id] [key] _ _ _ (st_db s)); [|done].
    apply (stopped_only_app [id] [] [] [key] _ (st_db s1));
      [by eapply revoke_stops|by eapply fail_stops].
Qed.

Lemma node_audit_ok node tr target e st st' :
  node_audit node tr target e st = (Ok (), st') → stopped_only [] [] (st_db st) (st_db st').
Proof.
  unfold node_audit. destruct (_ =? "")%string.
  { intros [= <-]. by apply stopped_only_nil. }
  destruct (negb _); [done|]. intros (row & s & H & [= <-])%bind_ok. by eapply audit_stops.
Qed.
Lemma stop_node_ok node tr key target e st st' :
  nodeStatusStopsCommands target = true →
  stop_node node tr key target e st = (Ok (), st') →
  stopped_only [N_ID node] [key] (st_db st) (st_db st').
Proof.
  intros Ht. unfold stop_node, nodeStatusRequiresCertificateRevoke. rewrite Ht.
  intros ([] & s & Hrev & Hfail%fail_stops)%bind_ok.
  apply bind_ok in Hrev as (n & s1 & Hrev%revoke_stops & Haudit).
  apply (stopped_only_app [N_ID node] [] [] [key] _ (st_db s1)); [done|].
  apply (stopped_only_app [] [] [] [key] _ (st_db s)); [|done].
  destruct (0 <? n); [|injection Haudit as <-; by apply stopped_only_nil].
  apply bind_ok in Haudit as (row & s2 & Hins & [= <-]). by eapply audit_stops.
Qed.

(** ** Stopping a node *)

Lemma set_status_by_key_ok key status e st u st' :
  set_status_by_key key status e st = (Ok u, st') →
  st_db st' = set_nodes (update_where (λ _ r, (n_public_key r =? key)%string)
    (λ r, r <| n_status := Some status |> <| n_updated_at := env_now e |>) (nodes (st_db st))) (st_db st).
Proof. intros (n & s & [_ Hu]%exec_ok & [= _ <-])%bind_ok. exact Hu. Qed.

Lemma update_by_key db id r f :
  keys_unique db → nodes db !! id = Some r →
  update_where (λ _ r', (n_public_key r' =? n_public_key r)%string) f (nodes db)
    = <[id := f r]> (nodes db).
Proof.
  intros Hu Hr. apply update_where_one; [done|apply String.eqb_refl|].
  intros k x Hk Hx. bools. by eapply Hu.
Qed.

Lemma none_incomplete key (m : gmap UUID CommandRow) :
  (∀ k c, m !! k = Some c → ac_node_public_key c = key → incomplete (ac_status c) = false) →
  count_where (incomplete_for key) m = 0.
Proof.
  intros H. apply count_where_0. intros k c Hc. unfold incomplete_for.
  destruct (ac_node_public_key c =? key)%string eqn:Hk; [|done]. bools. by rewrite (H k c).
Qed.

(** Suspending, banning or deleting a node sets the status of that node only;
    afterwards it holds no issued certificate and has no open command, and the
    certificates and commands of every other node are as before. *)
Theorem ApplyNodeLifecycleTransition_stops key tr e st node st' :
  keys_unique (st_db st) → ApplyNodeLifecycleTransition key tr e st = (Ok node, st') →
  let target := ToLower (TrimSpace (nt_TargetStatus tr)) in
  nodeStatusStopsCommands target = true →
  (∃ r, nodes (st_db st) !! N_ID node = Some r ∧ n_public_key r = key ∧
     nodes (st_db st') = <[N_ID node := r <| n_status := Some target |>
                                          <| n_updated_at := env_now e |>]> (nodes (st_db st))) ∧
  (∀ c, node_certificates (st_db st') !! N_ID node = Some c → c_status c ≠ CertStatusIssued) ∧
  count_where (incomplete_for key) (agent_commands (st_db st')) = 0 ∧
  (∀ id, id ≠ N_ID node →
     node_certificates (st_db st') !! id = node_certificates (st_db st) !! id) ∧
  (∀ id c, agent_commands (st_db st) !! id = Some c → ac_node_public_key c ≠ key →
     agent_commands (st_db st') !! id = Some c).
Proof.
  intros Hu Hrun target Ht. unfold ApplyNodeLifecycleTransition in Hrun. fold target in Hrun.
  destruct (target =? "")%string; [done|].
  apply tx_ok in Hrun as (s & [[Hb Hdb]|[Hb Hdb]]);
    apply bind_ok in Hb as (n0 & s1 & [Hq Hs1]%query_row_ok & Hb);
    apply bind_ok in Hb as (u & s2 & Hset%set_status_by_key_ok & Hb);
    apply bind_ok in Hb as ([] & s3 & Hstop%stop_node_ok & Hb); try done;
    apply bind_ok in Hb as ([] & s4 & Haudit%node_audit_ok & Hb); try discriminate Hb.
  injection Hb as <- <-. cbn [st_db] in Hq, Hs1.
  apply fmap_Some in Hq as ([id r] & Hk & ->). apply node_by_key_Some in Hk as [Hr <-].
  pose proof (stopped_only_app _ _ _ _ _ _ _ Hstop Haudit) as Hso. simpl in Hso.
  rewrite <- Hdb in Hso. rewrite Hs1 in Hset. clear Hstop Haudit Hdb.
  rewrite Hset, (update_by_key _ id r) in Hso by done. destruct Hso as [Hn _ _ _ Ho Hs _ Hco Hcs].
  cbn [N_ID] in *. split_and!.
  - exists r. split_and!; [done..|]. exact Hn.
  - intros c Hc. eapply Hs; [|exact Hc]. by left.
  - apply none_incomplete. intros k c Hc Hkey. apply (Hcs _ _ Hc). rewrite Hkey. by left.
  - intros k Hne. by rewrite Ho by (by intros ?%list_elem_of_singleton).
  - intros k c Hc Hne. apply Hco; [done|]. by intros ?%list_elem_of_singleton.
Qed.

(** A node in service with an issued certificate and a pending command. *)
Definition serving_db : DB :=
  sample_db
    <| nodes := <["n1" := sample_node "k1" "online" 2 0]> (nodes sample_db) |>
    <| users := {["u1" := mkUserRow "ann" "" (Some "t1") "viewer" None None 4 0 0]} |>
    <| agent_commands := {["x1" := mkCommandRow "k1" "sync" ∅ "pending" None 0 60 ∅ None None None 0 0 None]} |>.
Lemma serving_keys_unique : keys_unique serving_db.
Proof. intros id id' r r' Hr Hr' Hk. simpl in Hr, Hr'. concrete_rows; done. Qed.

Lemma ApplyNodeLifecycleTransition_stops_witness :
  let tr := mkNodeTransition " Suspended" "" "node.suspended" "ann" "Node suspended" ∅ in
  ∃ node st', ApplyNodeLifecycleTransition "k1" tr (env_at 9) (mkSt serving_db 0) = (Ok node, st') ∧
    N_ID node = "n1" ∧ count_where (incomplete_for "k1") (agent_commands (st_db st')) = 0 ∧
    (∀ c, node_certificates (st_db st') !! "n1" = Some c → c_status c ≠ CertStatusIssued).
Proof.
  intros tr.
  assert (match ApplyNodeLifecycleTransition "k1" tr (env_at 9) (mkSt serving_db 0) with
          | (Ok node, _) => N_ID node = "n1" | _ => False end) as Hok by (vm_compute; reflexivity).
  destruct (ApplyNodeLifecycleTransition "k1" tr (env_at 9) (mkSt serving_db 0))
    as [[node|x] st'] eqn:Hrun; [|destruct Hok].
  destruct (ApplyNodeLifecycleTransition_stops "k1" tr (env_at 9) (mkSt serving_db 0) node st'
              serving_keys_unique Hrun eq_refl) as (_ & Hc & H0 & _).
  exists node, st'. rewrite Hok in Hc. split; [reflexivity|]. split; [exact Hok|]. split; [exact H0|exact Hc].
Defined.

(** ** Stopping a tenant *)

Lemma scan_tenant_status_ok t e st s st' :
  scan_tenant_status t e st = (Ok s, st') → st_db st' = st_db st ∧ is_Some (tenants (st_db st) !! t).
Proof.
  intros (r & s1 & [Hq Hs1]%query_row_ok & Hl)%bind_ok. unfold lift in Hl. injection Hl as _ <-.
  split; [done|]. unfold tenant_status in Hq. apply fmap_Some in Hq as (row & -> & _). by eexists.
Qed.

Lemma tenant_audit_ok t prev target tr e st st' :
  (if (tt_AuditEventType tr =? "")%string then mret ()
   else createTenantLifecycleAuditEventTx t prev target tr) e st = (Ok (), st') →
  stopped_only [] [] (st_db st) (st_db st').
Proof.
  destruct (_ =? "")%string; [intros [= <-]; by apply stopped_only_nil|].
  unfold createTenantLifecycleAuditEventTx. cbv zeta. destruct (negb _); [done|].
  intros (row & s & H & [= <-])%bind_ok. by eapply audit_stops.
Qed.

(** The nodes of the tenant in service, before. *)
Definition active_ids (t : UUID) (db : DB) : list tenantLifecycleNode :=
  (λ kn, mkTenantNode kn.1 (n_public_key kn.2)) <$> select_where (active_in t) (nodes db).

Lemma stop_tenant_ok t target e st st' :
  stop_tenant t target e st = (Ok (), st') →
  ∃ db1, nodes db1 = update_where (active_in t)
      (λ r, r <| n_status := Some target |>
              <| n_runtime_token_version := n_runtime_token_version r + 1 |>
              <| n_updated_at := env_now e |>) (nodes (st_db st)) ∧
    users db1 = update_where (of_tenant t)
      (λ u, u <| u_token_version := u_token_version u + 1 |> <| u_updated_at := env_now e |>)
      (users (st_db st)) ∧
    tenants db1 = tenants (st_db st) ∧ node_certificates db1 = node_certificates (st_db st) ∧
    agent_commands db1 = agent_commands (st_db st) ∧
    stopped_only (tn_ID <$> active_ids t (st_db st)) (tn_PublicKey <$> active_ids t (st_db st))
      db1 (st_db st').
Proof.
  intros ([] & s1 & [_ H1]%exec_ok & Hb)%bind_ok.
  apply bind_ok in Hb as (l & s2 & [Hl H2]%query_ok & Hb).
  apply bind_ok in Hb as (n & s3 & [_ H3]%exec_ok & Hb%stop_all_ok).
  cbn [snd] in *. exists (st_db s3). rewrite H3, H2, H1 in *. split_and!; try done.
  rewrite Hl in Hb. exact Hb.
Qed.

Lemma active_ids_spec t db id key :
  mkTenantNode id key ∈ active_ids t db ↔
  ∃ r, nodes db !! id = Some r ∧ n_public_key r = key ∧ n_tenant_id r = t ∧ in_service r = true.
Proof.
  unfold active_ids. rewrite list_elem_of_fmap. split.
  - intros ([k r] & [= -> ->] & (Hr & Ha)%select_where_elem). unfold active_in in Ha. bools. by exists r.
  - intros (r & Hr & <- & <- & Hs). exists (id, r). split; [done|]. apply select_where_elem.
    split; [done|]. unfold active_in. by rewrite String.eqb_refl, Hs.
Qed.
Lemma active_ids_ids t db id :
  id ∈ tn_ID <$> active_ids t db ↔
  ∃ r, nodes db !! id = Some r ∧ n_tenant_id r = t ∧ in_service r = true.
Proof.
  rewrite list_elem_of_fmap. split.
  - intros ([k key] & -> & (r & ? & ? & ? & ?)%active_ids_spec). by exists r.
  - intros (r & ? & ? & ?). exists (mkTenantNode id (n_public_key r)). split; [done|].
    apply active_ids_spec. by exists r.
Qed.
Lemma active_ids_keys t db key :
  key ∈ tn_PublicKey <$> active_ids t db ↔
  ∃ id r, nodes db !! id = Some r ∧ n_public_key r = key ∧ n_tenant_id r = t ∧ in_service r = true.
Proof.
  rewrite list_elem_of_fmap. split.
  - intros ([k key'] & -> & (r & ?)%active_ids_spec). by exists k, r.
  - intros (id & r & H). exists (mkTenantNode id key). split; [done|]. apply active_ids_spec. by exists r.
Qed.

(** A node of the tenant after it stopped: out of service; if it was in service,
    with the tenant's status, a new token version, no issued certificate and no
    open command. *)
Definition node_stopped (target : string) (db' : DB) (id : UUID) (n : NodeRow) : Prop :=
  ∃ n', nodes db' !! id = Some n' ∧ in_service n' = false ∧
  (in_service n = true →
     n_status n' = Some target ∧ n_runtime_token_version n' = n_runtime_token_version n + 1 ∧
     (∀ c, node_certificates db' !! id = Some c → c_status c ≠ CertStatusIssued) ∧
     count_where (incomplete_for (n_public_key n)) (agent_commands db') = 0).

(** A node of another tenant is untouched. *)
Definition node_untouched (db db' : DB) (id : UUID) (n : NodeRow) : Prop :=
  nodes db' !! id = Some n ∧ node_certificates db' !! id = node_certificates db !! id ∧
  ∀ k c, agent_commands db !! k = Some c → ac_node_public_key c = n_public_key n →
         agent_commands db' !! k = Some c.

(** C33. Suspending or deleting a tenant sets the status of that tenant and leaves
    the row of every other one as it is.  It raises the token version of every user
    of the tenant and of no one else, whose rows stay as they are, and takes every
    node of it out of service: one that was in service gets the tenant's status and
    a new token version, its certificate is no longer issued and its commands are
    closed.  The row, the certificate and the commands of every node of another
    tenant stay as they are. *)
Theorem ApplyTenantLifecycleTransition_stops t tr e st st' :
  keys_unique (st_db st) → ApplyTenantLifecycleTransition t tr e st = (Ok (), st') →
  let target := ToLower (TrimSpace (tt_TargetStatus tr)) in
  tenantStatusStopsRuntime target = true →
  (t_status <$> tenants (st_db st') !! t = Some (Some target) ∧
   ∀ t', t' ≠ t → tenants (st_db st') !! t' = tenants (st_db st) !! t') ∧
  (∀ id u, users (st_db st) !! id = Some u →
     users (st_db st') !! id = Some (if of_tenant t id u
       then u <| u_token_version := u_token_version u + 1 |> <| u_updated_at := env_now e |> else u)) ∧
  (∀ id n, nodes (st_db st) !! id = Some n →
     if (n_tenant_id n =? t)%string then node_stopped target (st_db st') id n
     else node_untouched (st_db st) (st_db st') id n).
Proof.
  intros Hu Hrun target Ht. unfold ApplyTenantLifecycleTransition in Hrun. fold target in Hrun.
  destruct (target =? "")%string; [done|].
  destruct (one_of target _) eqn:Hone; [|done]. simpl negb in Hrun. cbv iota in Hrun.
  assert (in_service_status : one_of target stopped_statuses = true).
  { apply one_of_spec in Hone. rewrite !elem_of_cons, elem_of_nil in Hone.
    destruct Hone as [-> | [-> | [-> | []]]]; done. }
  apply tx_ok in Hrun as (s & [[Hb Hdb]|[Hb Hdb]]);
    apply bind_ok in Hb as (prev & s1 & [Hs1 Hex]%scan_tenant_status_ok & Hb);
    apply bind_ok in Hb as (n & s2 & [_ Hs2]%exec_ok & Hb);
    destruct (n =? 0); try done; rewrite Ht in Hb;
    apply bind_ok in Hb as ([] & s3 & Hstop%stop_tenant_ok & Hb);
    apply bind_ok in Hb as ([] & s4 & Haudit%tenant_audit_ok & Hb); try discriminate Hb.
  injection Hb as <-. cbn [snd st_db] in *. rewrite Hs1 in Hs2.
  destruct Hstop as (db1 & Hn1 & Hu1 & Ht1 & Hc1 & Ha1 & Hso). rewrite Hs2 in *. simpl in *.
  pose proof (stopped_only_app _ _ _ _ _ _ _ Hso Haudit) as Hall. rewrite !app_nil_r, <- Hdb in Hall.
  clear Hso Haudit Hdb Hs1 Hs2. change (active_ids t _) with (active_ids t (st_db st)) in Hall.
  destruct Hall as [Hn Htn Hus _ Hco Hcs _ Hao Has]. rewrite ?Hn, ?Htn, ?Hus, ?Hn1, ?Ht1, ?Hu1, ?Hc1, ?Ha1 in *.
  split_and!.
  - rewrite lookup_update_where. destruct Hex as [row ->]. simpl. by rewrite String.eqb_refl.
  - intros t' Hne. rewrite lookup_update_where. destruct (tenants (st_db st) !! t'); [|done]. simpl.
    by rewrite (proj2 (String.eqb_neq _ _)).
  - intros id u Hid. by rewrite lookup_update_where, Hid.
  - intros id r Hr. destruct (n_tenant_id r =? t)%string eqn:Htn'.
    + unfold node_stopped. rewrite Hn, lookup_update_where, Hr. cbn [fmap option_fmap option_map].
      unfold active_in. rewrite Htn'. cbn [andb]. eexists. split; [done|].
      destruct (in_service r) eqn:Hs; [|done]. bools. split; [simpl|intros _; split_and!].
      * unfold in_service. simpl. by rewrite in_service_status.
      * done.
      * done.
      * intros c Hc. eapply Hcs; [|exact Hc]. apply active_ids_ids. by exists r.
      * apply none_incomplete. intros k c Hc Hk. apply (Has k c Hc).
        rewrite Hk. apply active_ids_keys. by exists id, r.
    + bools. split_and!.
      * rewrite Hn, lookup_update_where, Hr. cbn [fmap option_fmap option_map].
        unfold active_in. by rewrite (proj2 (String.eqb_neq _ t)).
      * rewrite Hco; [done|]. intros (r' & Hr' & Ht' & _)%active_ids_ids. by simplify_eq.
      * intros k c Hc Hk. apply Hao; [done|]. rewrite Hk.
        intros (id' & r' & Hr' & Hk' & Ht' & _)%active_ids_keys.
        assert (id' = id) as -> by by eapply Hu. by simplify_eq.
Qed.

Lemma ApplyTenantLifecycleTransition_stops_witness :
  let tr := mkTenantTransition "suspended" "tenant.suspended" "" "" ∅ in
  ∃ st', ApplyTenantLifecycleTransition "t1" tr (env_at 9) (mkSt serving_db 0) = (Ok (), st') ∧
    t_status <$> tenants (st_db st') !! "t1" = Some (Some "suspended") ∧
    node_stopped "suspended" (st_db st') "n1" (sample_node "k1" "online" 2 0).
Proof.
  intros tr.
  assert (is_ok (ApplyTenantLifecycleTransition "t1" tr (env_at 9) (mkSt serving_db 0)).1 = true) as Hok
    by (vm_compute; reflexivity).
  destruct (ApplyTenantLifecycleTransition "t1" tr (env_at 9) (mkSt serving_db 0))
    as [[[]|x] st'] eqn:Hrun; [|discriminate Hok].
  destruct (ApplyTenantLifecycleTransition_stops "t1" tr (env_at 9) (mkSt serving_db 0) st'
              serving_keys_unique Hrun eq_refl) as ((Ht & _) & _ & Hn).
  exists st'. split; [reflexivity|]. split; [exact Ht|].
  exact (Hn "n1" (sample_node "k1" "online" 2 0) eq_refl).
Defined.

(** ** Errors *)

(** A lifecycle change that returns an error, at whatever statement, changes
    no table: neither the status nor a certificate, command or audit event. *)
Theorem lifecycle_errors_change_nothing e st :
  (∀ key tr, is_ok (ApplyNodeLifecycleTransition key tr e st).1 = false →
     st_db (ApplyNodeLifecycleTransition key tr e st).2 = st_db st) ∧
  (∀ t tr, is_ok (ApplyTenantLifecycleTransition t tr e st).1 = false →
     st_db (ApplyTenantLifecycleTransition t tr e st).2 = st_db st) ∧
  (∀ key, is_ok (MarkNodeDeleted key e st).1 = false →
     st_db (MarkNodeDeleted key e st).2 = st_db st) ∧
  (∀ hostname t, is_ok (ReuseHostnameIP hostname t e st).1 = false →
     st_db (ReuseHostnameIP hostname t e st).2 = st_db st).
Proof.
  assert (∀ A (body : M (outcome A)), is_ok (tx body e st).1 = false → st_db (tx body e st).2 = st_db st)
    as Htx.
  { intros A body. destruct (tx body e st) as [[a|x] st'] eqn:Hrun; [done|]. intros _. by eapply tx_err. }
  split_and!.
  - intros key tr. unfold ApplyNodeLifecycleTransition. destruct (_ =? "")%string; [done|apply Htx].
  - intros t tr. unfold ApplyTenantLifecycleTransition. destruct (_ =? "")%string; [done|].
    destruct (negb _); [done|apply Htx].
  - intros key. apply Htx.
  - intros h t. apply Htx.
Qed.

(** ** Taking over an address *)

Lemma reusable_in_service r :
  not_deleted r = true →
  one_of (ToLower (TrimSpace (default "online" (n_status r)))) ["suspended"; "banned"] = false →
  in_service r = true.
Proof.
  unfold not_deleted, status_not_in, in_service. destruct (n_status r) as [s|]; [|done].
  change (default "online" (Some s)) with s. intros Hd Hs. apply negb_true_iff, one_of_false.
  unfold stopped_statuses. rewrite !elem_of_cons, elem_of_nil.
  intros [-> | [-> | [-> | []]]]; discriminate.
Qed.

(** Taking over the address of a hostname hands out the address and offset of a
    node of that tenant that is in service, and that node is deleted in the same
    transaction, without an issued certificate or an open command; the address of a
    suspended or banned node is never handed out. *)
Theorem ReuseHostnameIP_takes_over hostname t e st ip o st' :
  keys_unique (st_db st) → ReuseHostnameIP hostname t e st = (Ok (ip, o), st') →
  ∃ id r, nodes (st_db st) !! id = Some r ∧ n_hostname r = hostname ∧ n_tenant_id r = t ∧
    in_service r = true ∧ n_assigned_ip r = ip ∧ n_ip_offset r = o ∧
    nodes (st_db st') = <[id := r <| n_status := Some "deleted" |>
                                  <| n_updated_at := env_now e |>]> (nodes (st_db st)) ∧
    (∀ c, node_certificates (st_db st') !! id = Some c → c_status c ≠ CertStatusIssued) ∧
    count_where (incomplete_for (n_public_key r)) (agent_commands (st_db st')) = 0.
Proof.
  intros Hu Hrun. unfold ReuseHostnameIP in Hrun.
  apply tx_ok in Hrun as (s & [[Hb Hdb]|[Hb Hdb]]);
    apply bind_ok in Hb as ([id r] & s1 & [Hq Hs1]%query_row_ok & Hb); cbv zeta in Hb;
    destruct (one_of _ _) eqn:Hst in Hb; try done;
    apply bind_ok in Hb as (u & s2 & Hset%set_status_by_key_ok & Hb);
    apply bind_ok in Hb as (n & s3 & Hrev%revoke_stops & Hb);
    apply bind_ok in Hb as ([] & s4 & Hfail%fail_stops & Hb); try discriminate Hb.
  injection Hb as <- <- <-. cbn [st_db] in Hq, Hs1. rewrite Hs1 in Hset.
  apply head_Some_elem_of, select_where_elem in Hq as [Hr Hp]. bools.
  pose proof (stopped_only_app _ _ _ _ _ _ _ Hrev Hfail) as Hso. simpl in Hso.
  rewrite <- Hdb, Hset, (update_by_key _ id r) in Hso by done. destruct Hso as [Hn _ _ _ _ Hc _ _ Ha].
  exists id, r. split_and!; try done.
  - by apply reusable_in_service.
  - intros c Hcert. eapply Hc; [|exact Hcert]. by left.
  - apply none_incomplete. intros k c Hk Hkey. apply (Ha _ _ Hk). rewrite Hkey. by left.
Qed.

Lemma ReuseHostnameIP_takes_over_witness :
  ∃ id r st', ReuseHostnameIP "edge" "t1" (env_at 9) (mkSt serving_db 0) =
    (Ok (n_assigned_ip r, n_ip_offset r), st') ∧ nodes serving_db !! id = Some r ∧
    in_service r = true ∧ n_status <$> nodes (st_db st') !! id = Some (Some "deleted").
Proof.
  assert (is_ok (ReuseHostnameIP "edge" "t1" (env_at 9) (mkSt serving_db 0)).1 = true) as Hok
    by (vm_compute; reflexivity).
  destruct (ReuseHostnameIP "edge" "t1" (env_at 9) (mkSt serving_db 0)) as [[[ip o]|x] st'] eqn:Hrun;
    [|discriminate Hok].
  destruct (ReuseHostnameIP_takes_over "edge" "t1" (env_at 9) (mkSt serving_db 0) ip o st'
              serving_keys_unique Hrun) as (id & r & Hr & _ & _ & Hs & <- & <- & Hn & _).
  exists id, r, st'. split; [reflexivity|]. split; [exact Hr|]. split; [exact Hs|].
  by rewrite Hn, lookup_insert_eq.
Defined.
