(* ===== verification/PublicNetwork.v ===== *)
(** * Public network identity

    [internal/nodeidentity/public_network.go]: what a node reports as its public
    address and endpoint is normalised before it is stored.  The functions of
    Go's [net] and [strings] it calls are written out on byte strings. *)

From S2P Require Import Prelude GoStr Netip.

Open Scope Z_scope.

(** ** The standard library *)

(** [strings.Trim(s, cutset)]. *)
Definition in_set (cutset : text) (c : ascii) : bool := existsb (Ascii.eqb c) cutset.
Fixpoint trim_set_left (cutset : text) (l : text) : text :=
  match l with
  | c :: l' => if in_set cutset c then trim_set_left cutset l' else l
  | [] => []
  end.
Definition Trim (s : string) (cutset : text) : string :=
  String.string_of_list_ascii
    (rev (trim_set_left cutset (rev (trim_set_left cutset (String.list_ascii_of_string s))))).
Definition brackets : text := ["["; "]"]%char.
Definition brackets_and_quotes : text := ["["; "]"; "034"; "'"]%char.

Definition has_byte (c : ascii) (l : text) : bool := existsb (Ascii.eqb c) l.

(** [net.SplitHostPort]; every error is [None]. *)
Definition split_host_port (l : text) : option (text * text) :=
  match cut_last ":"%char l with
  | None => None
  | Some (before, port) =>
    match l with
    | "["%char :: rest =>
      match cut_char "]"%char rest with
      | None => None
      | Some (host, after) =>
        match after with
        | ":"%char :: port' =>
          if has_byte ":"%char port' || has_byte "["%char rest || has_byte "]"%char after
          then None else Some (host, port')
        | _ => None
        end
      end
    | _ =>
      if has_byte ":"%char before || has_byte "["%char l || has_byte "]"%char l
      then None else Some (before, port)
    end
  end.
Definition SplitHostPort (s : string) : option (string * string) :=
  '(h, p) ← split_host_port (String.list_ascii_of_string s);
  Some (String.string_of_list_ascii h, String.string_of_list_ascii p).

Definition JoinHostPort (host port : string) : string :=
  if has_byte ":"%char (String.list_ascii_of_string host)
  then "[" +:+ host +:+ "]:" +:+ port else host +:+ ":" +:+ port.

(** ** The normaliser *)

Definition isPublicIPv4 (ip : Z) : bool :=
  let first := octet ip 0 in
  let second := octet ip 1 in
  let third := octet ip 2 in
  if first =? 0 then false else
  if first =? 10 then false else
  if (first =? 100) && (64 <=? second) && (second <=? 127) then false else
  if first =? 127 then false else
  if (first =? 169) && (second =? 254) then false else
  if (first =? 172) && (16 <=? second) && (second <=? 31) then false else
  if (first =? 192) && (second =? 168) then false else
  if (first =? 192) && (second =? 0) && (third =? 0) then false else
  if (first =? 192) && (second =? 0) && (third =? 2) then false else
  if (first =? 198) && ((second =? 18) || (second =? 19)) then false else
  if (first =? 198) && (second =? 51) && (third =? 100) then false else
  if (first =? 203) && (second =? 0) && (third =? 113) then false else
  if 224 <=? first then false else
  true.

(** [net.IP(ip4).String()] is [v4_string]. *)
Definition NormalizePublicIPv4 (value : string) : string :=
  let host := TrimSpace value in
  if (host =? "")%string then "" else
  let host := match SplitHostPort host with Some (splitHost, _) => splitHost | None => host end in
  let host := Trim host brackets_and_quotes in
  match ParseIP host with
  | None => ""
  | Some ip =>
    match To4 ip with
    | Some ip4 => if isPublicIPv4 ip4 then v4_string ip4 else ""
    | None => ""
    end
  end.

(** [strings.LastIndex] splits at the last colon. *)
Definition splitEndpoint (endpoint : string) : string * string * bool :=
  match SplitHostPort endpoint with
  | Some (host, port) => (host, port, true)
  | None =>
    match String.list_ascii_of_string endpoint with
    | ":"%char :: (d :: after) =>
      ("", String.string_of_list_ascii (d :: after), true)
    | l =>
      match cut_last ":"%char l with
      | Some (c :: before, d :: after) =>
        (String.string_of_list_ascii (c :: before), String.string_of_list_ascii (d :: after), true)
      | _ => (endpoint, "", false)
      end
    end
  end.

Definition NormalizePublicEndpoint (endpoint publicIP : string) : string :=
  let endpoint := TrimSpace endpoint in
  let publicIP := NormalizePublicIPv4 publicIP in
  if (endpoint =? "")%string then "" else
  let '(host, port, ok) := splitEndpoint endpoint in
  if negb ok then
    match ParseIP (Trim endpoint brackets) with
    | None => if EqualFold endpoint "localhost" then "" else endpoint
    | Some ip =>
      match To4 ip with
      | Some ip4 => if isPublicIPv4 ip4 then v4_string ip4
                    else if negb (publicIP =? "")%string then publicIP else ""
      | None => if negb (publicIP =? "")%string then publicIP else ""
      end
    end
  else if (port =? "")%string then
    if negb (publicIP =? "")%string then publicIP else endpoint
  else if (host =? "")%string then
    if (publicIP =? "")%string then "" else JoinHostPort publicIP port
  else
    match ParseIP (Trim host brackets) with
    | None => if EqualFold host "localhost" then "" else endpoint
    | Some ip =>
      match To4 ip with
      | None => ""
      | Some ip4 =>
        if isPublicIPv4 ip4 then JoinHostPort (v4_string ip4) port else
        if (publicIP =? "")%string then "" else JoinHostPort publicIP port
      end
    end.

Definition NormalizeReportedNetwork (publicIP endpoint : string) : string * string :=
  let normalizedPublicIP := NormalizePublicIPv4 publicIP in
  let normalizedEndpoint := NormalizePublicEndpoint endpoint normalizedPublicIP in
  let normalizedPublicIP :=
    if (normalizedPublicIP =? "")%string then
      let p := NormalizePublicIPv4 normalizedEndpoint in
      if (p =? "")%string then
        let '(host, _, ok) := splitEndpoint normalizedEndpoint in
        if ok then NormalizePublicIPv4 host else p
      else p
    else normalizedPublicIP in
  (normalizedPublicIP, normalizedEndpoint).


Example public_examples :
  (NormalizePublicIPv4 " 8.8.8.8:51820", NormalizePublicIPv4 "[::ffff:8.8.8.8]",
   NormalizePublicIPv4 "100.64.0.1", NormalizePublicIPv4 "8.8.8.8.8")
  = ("8.8.8.8", "8.8.8.8", "", "").
Proof. vm_compute. reflexivity. Qed.
Example endpoint_examples :
  (NormalizeReportedNetwork "8.8.8.8" ":51820", NormalizeReportedNetwork "" "10.0.0.1:51820",
   NormalizeReportedNetwork "" "1.1.1.1:51820", NormalizeReportedNetwork "9.9.9.9" "vpn.example.com:1",
   NormalizeReportedNetwork "" "[2001:db8::1]:80", NormalizeReportedNetwork "" "localhost")
  = (("8.8.8.8", "8.8.8.8:51820"), ("", ""), ("1.1.1.1", "1.1.1.1:51820"),
     ("9.9.9.9", "vpn.example.com:1"), ("", ""), ("", "")).
Proof. vm_compute. reflexivity. Qed.

(** ** Properties *)

(** The printed form of an address: digits and dots. *)
Definition v4_char (c : ascii) : Prop := is_digit c ∨ c = "."%char.
Lemma v4_string_chars v :
  0 ≤ v < 2 ^ 32 → Forall v4_char (String.list_ascii_of_string (v4_string v)).
Proof.
  intros Hv. unfold v4_string. rewrite !list_ascii_app.
  assert (∀ i, 0 ≤ i ≤ 3 → Forall v4_char (String.list_ascii_of_string (Itoa (octet v i)))) as Hd.
  { intros i Hi. eapply Forall_impl; [apply Itoa_digits, octet_range; lia|]. by left. }
  assert (Forall v4_char (String.list_ascii_of_string ".")) as Hdot
    by (apply Forall_cons; split; [by right|by apply Forall_nil]).
  repeat (apply Forall_app; split); try done; apply Hd; lia.
Qed.
Lemma v4_char_other c : v4_char c →
  is_space c = false ∧ c ≠ ":"%char ∧ in_set brackets_and_quotes c = false.
Proof.
  intros [[d Hd]| ->]; [|done].
  destruct c as [[] [] [] [] [] [] [] []]; try discriminate Hd; done.
Qed.

Lemma trim_set_left_none set l : Forall (λ c, in_set set c = false) l → trim_set_left set l = l.
Proof. destruct l; [done|]. inversion 1 as [|? ? Hs]; subst. simpl. by rewrite Hs. Qed.
Lemma Trim_none s set :
  Forall (λ c, in_set set c = false) (String.list_ascii_of_string s) → Trim s set = s.
Proof.
  intros Hs. unfold Trim. rewrite (trim_set_left_none _ _ Hs), trim_set_left_none.
  - by rewrite rev_involutive, string_list_string.
  - by apply Forall_rev.
Qed.
Lemma SplitHostPort_none s :
  Forall (λ c, c ≠ ":"%char) (String.list_ascii_of_string s) → SplitHostPort s = None.
Proof.
  intros Hs. unfold SplitHostPort, split_host_port, cut_last.
  by rewrite cut_char_none by by apply Forall_rev.
Qed.

(** A public address normalises to itself. *)
Lemma NormalizePublicIPv4_public v :
  0 ≤ v < 2 ^ 32 → isPublicIPv4 v = true → NormalizePublicIPv4 (v4_string v) = v4_string v.
Proof.
  intros Hv Hp. pose proof (v4_string_chars v Hv) as Hc.
  unfold NormalizePublicIPv4. rewrite TrimSpace_nospace.
  2:{ eapply Forall_impl; [exact Hc|]. by intros c (? & ? & ?)%v4_char_other. }
  rewrite SplitHostPort_none.
  2:{ eapply Forall_impl; [exact Hc|]. by intros c (? & ? & ?)%v4_char_other. }
  rewrite Trim_none.
  2:{ eapply Forall_impl; [exact Hc|]. by intros c (? & ? & ?)%v4_char_other. }
  unfold ParseIP. rewrite ParseAddr_v4_string by done.
  cbn [mbind option_bind addr_zone]. change ("" =? "")%string with true. cbv iota.
  unfold To4. cbn [addr_is4 addr_val]. rewrite Hp.
  destruct (v4_string v =? "")%string eqn:He; [|reflexivity]. symmetry. by apply String.eqb_eq.
Qed.

(** [NormalizePublicIPv4] gives the empty text or the canonical text of a
    publicly routable IPv4 address, which it leaves alone: what is stored as
    [public_ip] is never a private, loopback, link-local, CGNAT, documentation or
    multicast address, and normalising twice changes nothing. *)
Theorem NormalizePublicIPv4_canonical value :
  (NormalizePublicIPv4 value = "" ∨
   ∃ v, 0 ≤ v < 2 ^ 32 ∧ isPublicIPv4 v = true ∧ NormalizePublicIPv4 value = v4_string v) ∧
  NormalizePublicIPv4 (NormalizePublicIPv4 value) = NormalizePublicIPv4 value.
Proof.
  assert (NormalizePublicIPv4 value = "" ∨
   ∃ v, 0 ≤ v < 2 ^ 32 ∧ isPublicIPv4 v = true ∧ NormalizePublicIPv4 value = v4_string v) as H.
  { unfold NormalizePublicIPv4, ParseIP. destruct (TrimSpace value =? "")%string; [by left|].
    set (host := Trim _ _). destruct (ParseAddr host) as [a|] eqn:Ha; [|by left]. cbn [mbind option_bind].
    destruct (addr_zone a =? "")%string; [|by left].
    destruct (To4 a) as [v|] eqn:Hv; [|by left].
    destruct (isPublicIPv4 v) eqn:Hp; [|by left]. right. exists v.
    split; [by eapply To4_range|done]. }
  split; [done|]. destruct H as [-> | (v & Hv & Hp & ->)]; [done|].
  by apply NormalizePublicIPv4_public.
Qed.

(** An endpoint with an empty port passes unchanged, whatever its host. *)
Lemma private_endpoint_kept : NormalizeReportedNetwork "" "10.0.0.1:" = ("", "10.0.0.1:").
Proof. vm_compute. reflexivity. Qed.
