(* ===== verification/Routes.v ===== *)
(** * Route conflicts

    [pkg/controllerstorage/routes.go]: the networks a node advertises may overlap
    those of the nodes of its own region and no other.  Rows of one node are
    compared in the order of their texts, byte by byte. *)

From S2P Require Import Prelude GoStr Netip Records Store Events ControlState AgentCommands PolicySync Nodes.

Open Scope Z_scope.

(** [a.Contains(b.IP) || b.Contains(a.IP)]. *)
Definition cidrNetworksOverlap (a b : Prefix) : bool :=
  Contains a (prefix_addr b) || Contains b (prefix_addr a).

Definition routeConflictNodeActive (node : Node) : bool :=
  negb (one_of (ToLower (TrimSpace (N_Status node))) stopped_statuses).

Definition firstRouteNodeName (node : Node) : string :=
  match find_map (λ candidate, nullif (TrimSpace candidate))
          [N_Hostname node; N_PublicKey node; N_ID node] with
  | Some name => name
  | None => "unknown"
  end.

(** The candidates that are not blank, parsed; the first that does not parse is
    an error. *)
Fixpoint parse_candidates (routes : list string) : result (list (string * Prefix)) :=
  match routes with
  | [] => Ok []
  | route :: routes' =>
    let trimmed := TrimSpace route in
    if (trimmed =? "")%string then parse_candidates routes' else
    match ParseCIDR trimmed with
    | None => Err (ErrorString ("invalid CIDR " +:+ Quote trimmed))
    | Some network => rest ← parse_candidates routes'; Ok ((trimmed, network) :: rest)
    end
  end.

(** The candidates an existing route overlaps, in order. *)
Definition overlapped_by (candidates : list (string * Prefix)) (existingRoute : string)
    : option string :=
  let existingRoute := TrimSpace existingRoute in
  if (existingRoute =? "")%string then None else
  match ParseCIDR existingRoute with
  | None => None
  | Some existing =>
    find_map (λ c, if cidrNetworksOverlap c.2 existing then Some c.1 else None) candidates
  end.

Definition FindAdvertisedRouteConflict (nodes : list (option Node))
    (targetPublicKey targetRegion : string) (candidateRoutes : list string) : result unit :=
  let targetPublicKey := TrimSpace targetPublicKey in
  let targetRegion := TrimSpace targetRegion in
  candidates ← parse_candidates candidateRoutes;
  match find_map (λ node,
      match node with
      | None => None
      | Some node =>
        if (TrimSpace (N_PublicKey node) =? targetPublicKey)%string then None else
        if (TrimSpace (N_Region node) =? targetRegion)%string then None else
        if negb (routeConflictNodeActive node) then None else
        find_map (λ existingRoute,
          cidr ← overlapped_by candidates existingRoute;
          Some (RouteConflictError cidr (TrimSpace existingRoute) (firstRouteNodeName node)
                  (N_Region node) (N_PublicKey node) targetRegion targetPublicKey))
          (N_AdvertisedRoutes node)
      end) nodes with
  | Some err => Err err
  | None => Ok ()
  end.

(** A row of the join of nodes with their routes. *)
Record RouteRow := mkRouteRow {
  rr_cidr : string;
  rr_hostname : string;
  rr_region : string;
  rr_public_key : string;
  rr_last_seen : Z;
}.
Definition other_region (tenantID : UUID) (targetPublicKey targetRegion : string)
    (_ : UUID) (n : NodeRow) : bool :=
  (n_tenant_id n =? tenantID)%string && negb (n_public_key n =? targetPublicKey)%string
  && negb (n_region n =? targetRegion)%string && in_service n.
Definition route_rows (tenantID : UUID) (targetPublicKey targetRegion : string) (db : DB)
    : list RouteRow :=
  SliceStable (λ a b, (rr_last_seen b <? rr_last_seen a)
                      || ((rr_last_seen a =? rr_last_seen b) && str_ltb (rr_cidr a) (rr_cidr b)))
    (select_where (other_region tenantID targetPublicKey targetRegion) (nodes db) ≫= λ kn,
       (λ cidr, mkRouteRow cidr (n_hostname kn.2) (n_region kn.2) (n_public_key kn.2)
                  (n_last_seen kn.2))
         <$> filter (λ cidr, cidr ≠ "") (n_advertised_routes kn.2)).

(** The name a conflict is reported under. *)
Definition row_name (r : RouteRow) : string :=
  let hostname := if (TrimSpace (rr_hostname r) =? "")%string then rr_public_key r else rr_hostname r in
  if (TrimSpace hostname =? "")%string then "unknown" else hostname.

Definition row_conflict (candidates : list (string * Prefix)) (targetPublicKey targetRegion : string)
    (r : RouteRow) : option error :=
  cidr ← overlapped_by candidates (rr_cidr r);
  Some (RouteConflictError cidr (TrimSpace (rr_cidr r)) (row_name r) (rr_region r)
          (rr_public_key r) targetRegion targetPublicKey).

Definition FindTenantAdvertisedRouteConflict (tenantID : UUID)
    (targetPublicKey targetRegion : string) (candidateRoutes : list string) : M unit :=
  let targetPublicKey := TrimSpace targetPublicKey in
  let targetRegion := TrimSpace targetRegion in
  candidates ← lift (λ _, parse_candidates candidateRoutes);
  match candidates with
  | [] => mret ()
  | _ =>
    rows ← query (λ _ db, route_rows tenantID targetPublicKey targetRegion db);
    match find_map (row_conflict candidates targetPublicKey targetRegion) rows with
    | Some err => fail err
    | None => mret ()
    end
  end.

(** ** What a conflict is *)

(** Networks overlap exactly when they share an address. *)
Lemma cidrNetworksOverlap_spec a b :
  prefix_wf a → prefix_wf b →
  cidrNetworksOverlap a b = true ↔ ∃ x, Contains a x = true ∧ Contains b x = true.
Proof.
  intros Ha Hb. unfold cidrNetworksOverlap. rewrite orb_true_iff. split.
  - intros [H|H]; eexists; (split; [exact H|]) || idtac.
    + by apply Contains_self.
    + split; [|exact H]. by apply Contains_self.
  - intros (x & Hax & Hbx). destruct (Z.le_ge_cases (prefix_bits a) (prefix_bits b)).
    + left. eapply (Contains_nested a b x); try done. by apply Contains_self.
    + right. eapply (Contains_nested b a x); try done. by apply Contains_self.
Qed.

(** The networks a text of routes denotes. *)
Definition route_contains (route : string) (x : Addr) : Prop :=
  ∃ p, ParseCIDR (TrimSpace route) = Some p ∧ Contains p x = true.
Definition routes_meet (route route' : string) : Prop :=
  ∃ x, route_contains route x ∧ route_contains route' x.

Lemma ParseCIDR_empty : ParseCIDR "" = None.
Proof. reflexivity. Qed.

Lemma parse_candidates_ok routes candidates :
  parse_candidates routes = Ok candidates →
  ∀ raw p, (raw, p) ∈ candidates ↔
    ∃ route, route ∈ routes ∧ raw = TrimSpace route ∧ ParseCIDR (TrimSpace route) = Some p.
Proof.
  revert candidates. induction routes as [|r routes IH]; simpl; intros cs Hcs raw p.
  - injection Hcs as <-. rewrite elem_of_nil. split; [done|].
    by intros (route & ?%elem_of_nil & _).
  - destruct (TrimSpace r =? "")%string eqn:Hr; bools.
    + rewrite (IH _ Hcs). split; intros (route & Hin & Hraw & Hp); exists route.
      * split; [by right|done].
      * apply elem_of_cons in Hin as [-> | Hin]; [|done]. by rewrite Hr, ParseCIDR_empty in Hp.
    + destruct (ParseCIDR (TrimSpace r)) as [net|] eqn:Hn; [|done].
      destruct (parse_candidates routes) as [rest|] eqn:Hrest; [|done]. injection Hcs as <-.
      rewrite elem_of_cons, (IH _ eq_refl). split.
      * intros [[= -> ->] | (route & Hin & Hrest')]; [exists r|exists route]; (split; [by constructor|]); done.
      * intros (route & [-> | Hin]%elem_of_cons & -> & Hp); [left; congruence|right; eauto].
Qed.

(** A candidate list fails to parse exactly at a text that is no network. *)
Lemma parse_candidates_err routes :
  is_ok (parse_candidates routes) = true ↔
  ∀ route, route ∈ routes → TrimSpace route = "" ∨ is_Some (ParseCIDR (TrimSpace route)).
Proof.
  induction routes as [|r routes IH]; simpl.
  { split; [|done]. intros _ route Hin. by apply elem_of_nil in Hin. }
  setoid_rewrite elem_of_cons. destruct (TrimSpace r =? "")%string eqn:Hr; bools.
  - rewrite IH. split; intros H route; [|by auto]. intros [-> | Hin]; auto.
  - destruct (ParseCIDR (TrimSpace r)) eqn:Hn; simpl.
    + transitivity (is_ok (parse_candidates routes) = true); [by destruct (parse_candidates routes)|].
      rewrite IH. split; intros H route; [|by auto].
      intros [-> | Hin]; [right; by eexists|by auto].
    + split; [done|]. intros H. destruct (H r (or_introl eq_refl)) as [?|[? ?]]; congruence.
Qed.

(** An existing route meets a candidate exactly when one is reported. *)
Lemma overlapped_by_spec routes candidates existing :
  parse_candidates routes = Ok candidates →
  match overlapped_by candidates existing with
  | Some raw => ∃ route, route ∈ routes ∧ raw = TrimSpace route ∧ routes_meet route existing
  | None => ∀ route, route ∈ routes → ¬ routes_meet route existing
  end.
Proof.
  intros Hcs. pose proof (parse_candidates_ok _ _ Hcs) as Hin. unfold overlapped_by.
  destruct (TrimSpace existing =? "")%string eqn:He; bools.
  { intros route _ (x & _ & p & Hp & _). by rewrite He, ParseCIDR_empty in Hp. }
  destruct (ParseCIDR (TrimSpace existing)) as [q|] eqn:Hq.
  2:{ intros route _ (x & _ & p & Hp & _). congruence. }
  pose proof (ParseCIDR_wf _ _ Hq) as Hqwf.
  destruct (find_map _ candidates) as [raw|] eqn:Hf.
  - apply find_map_Some in Hf as ([raw' p] & Hc & Hov). simpl in Hov.
    destruct (cidrNetworksOverlap p q) eqn:Ho; [|done]. injection Hov as ->.
    apply Hin in Hc as (route & Hr & -> & Hp). exists route. split_and!; [done..|].
    apply cidrNetworksOverlap_spec in Ho as (x & Hx & Hx'); [|by eapply ParseCIDR_wf|done].
    exists x. split; eexists; eauto.
  - rewrite find_map_None in Hf. intros route Hr (x & (p & Hp & Hpx) & (q' & Hq' & Hqx)).
    simplify_eq. assert ((TrimSpace route, p) ∈ candidates) as Hc by (apply Hin; eauto).
    specialize (Hf _ Hc). simpl in Hf. destruct (cidrNetworksOverlap p q) eqn:Ho; [done|].
    apply not_true_iff_false in Ho. apply Ho. apply cidrNetworksOverlap_spec; eauto.
    by eapply ParseCIDR_wf.
Qed.

Lemma route_rows_elem t key region db row :
  row ∈ route_rows t key region db ↔
  ∃ id n cidr, nodes db !! id = Some n ∧ other_region t key region id n = true ∧
    cidr ∈ n_advertised_routes n ∧ cidr ≠ "" ∧
    row = mkRouteRow cidr (n_hostname n) (n_region n) (n_public_key n) (n_last_seen n).
Proof.
  unfold route_rows. rewrite SliceStable_Permutation, list_elem_of_bind. split.
  - intros ([id n] & (cidr & -> & Hc)%list_elem_of_fmap & Hs). simpl in *.
    apply select_where_elem in Hs as [? ?]. apply list_elem_of_filter in Hc as [? ?].
    eexists id, n, cidr. done.
  - intros (id & n & cidr & Hn & Ho & Hc & Hne & ->). exists (id, n). split.
    + apply list_elem_of_fmap. exists cidr. split; [done|]. by apply list_elem_of_filter.
    + by apply select_where_elem.
Qed.

(** A route in the tenant that the target may not overlap: of another node, of
    another region, in service. *)
Definition foreign_route (db : DB) (tenantID : UUID) (key region route : string) : Prop :=
  ∃ id n, nodes db !! id = Some n ∧ n_tenant_id n = tenantID ∧ n_public_key n ≠ key ∧
    n_region n ≠ region ∧ in_service n = true ∧ route ∈ n_advertised_routes n.

Lemma foreign_route_row db t key region route :
  foreign_route db t key region route → route ≠ "" →
  ∃ row, row ∈ route_rows t key region db ∧ rr_cidr row = route.
Proof.
  intros (id & n & Hn & Ht & Hk & Hr & Hs & Hc) Hne. eexists.
  split; [apply route_rows_elem; exists id, n, route; split_and!; try done|done].
  unfold other_region. rewrite Ht, String.eqb_refl, Hs.
  by rewrite (proj2 (String.eqb_neq _ _) Hk), (proj2 (String.eqb_neq _ _) Hr).
Qed.
Lemma row_foreign_route db t key region row :
  row ∈ route_rows t key region db → foreign_route db t key region (rr_cidr row).
Proof.
  intros (id & n & cidr & Hn & Ho & Hc & _ & ->)%route_rows_elem. exists id, n.
  unfold other_region in Ho. bools. done.
Qed.

(** [FindTenantAdvertisedRouteConflict] accepts exactly the routes that
    conflict with nothing: when every text that is not blank is a network, it
    returns without error exactly when no candidate shares an address with a
    route advertised in the tenant by another node of another region that is in
    service; otherwise it reports two routes that do. *)
Theorem FindTenantAdvertisedRouteConflict_exact t key region routes e st :
  no_faults e →
  (∀ route, route ∈ routes → TrimSpace route = "" ∨ is_Some (ParseCIDR (TrimSpace route))) →
  let foreign := foreign_route (st_db st) t (TrimSpace key) (TrimSpace region) in
  match (FindTenantAdvertisedRouteConflict t key region routes e st).1 with
  | Ok _ => ∀ route existing, route ∈ routes → foreign existing → ¬ routes_meet route existing
  | Err (RouteConflictError cidr existingCIDR _ _ _ _ _) =>
    ∃ route existing, route ∈ routes ∧ cidr = TrimSpace route ∧
      foreign existing ∧ existingCIDR = TrimSpace existing ∧ routes_meet route existing
  | Err _ => False
  end.
Proof.
  intros Hf Hall foreign. apply parse_candidates_err in Hall.
  unfold FindTenantAdvertisedRouteConflict, mbind, M_bind, lift.
  destruct (parse_candidates routes) as [cs|] eqn:Hcs; [clear Hall|done].
  assert (cs = [] → ∀ route existing, route ∈ routes → ¬ routes_meet route existing) as Hnil.
  { intros -> route existing Hin (x & (p & Hp & _) & _).
    assert ((TrimSpace route, p) ∈ ([] : list (string * Prefix))) as H%elem_of_nil; [|done].
    eapply parse_candidates_ok; eauto. }
  destruct cs as [|c cs']; [simpl; eauto|]. rewrite query_run by done.
  set (rows := route_rows _ _ _ _).
  destruct (find_map (row_conflict _ _ _) rows) as [err|] eqn:Hfm; simpl.
  - apply find_map_Some in Hfm as (row & Hrow & Hc). unfold row_conflict in Hc.
    pose proof (overlapped_by_spec _ _ (rr_cidr row) Hcs) as Ho.
    destruct (overlapped_by _ _) as [raw|]; [|done]. injection Hc as <-.
    destruct Ho as (route & Hr & -> & Hm). exists route, (rr_cidr row).
    split_and!; try done. by apply row_foreign_route.
  - rewrite find_map_None in Hfm. intros route existing Hr Hex Hm.
    assert (existing ≠ "") as Hne.
    { intros ->. destruct Hm as (x & _ & p & Hp & _). discriminate Hp. }
    destruct (foreign_route_row _ _ _ _ _ Hex Hne) as (row & Hrow & <-).
    specialize (Hfm row Hrow). unfold row_conflict in Hfm.
    pose proof (overlapped_by_spec _ _ (rr_cidr row) Hcs) as Ho.
    destruct (overlapped_by _ _); [done|]. by eapply Ho.
Qed.

(** A tenant whose node in [us] advertises 10.0.0.0/8. *)
Definition routed_db : DB :=
  empty_db <| nodes := {["n1" := mkNodeRow "k1" "m1" "t1" "" "" "" "us" "" "edge" "100.64.0.2" 2 0 0
    "agent" None None None (Some "online") None ["10.0.0.0/8"] None 0 0 0]} |>.

Lemma FindTenantAdvertisedRouteConflict_exact_witness :
  let st := mkSt routed_db 0 in
  let routes := [" 10.1.0.0/16"; ""] in
  (FindTenantAdvertisedRouteConflict "t1" "k2" "eu" routes (env_at 1) st).1 =
    Err (RouteConflictError "10.1.0.0/16" "10.0.0.0/8" "edge" "us" "k1" "eu" "k2") ∧
  ∃ route existing, route ∈ routes ∧ "10.1.0.0/16" = TrimSpace route ∧
    foreign_route routed_db "t1" "k2" "eu" existing ∧ "10.0.0.0/8" = TrimSpace existing ∧
    routes_meet route existing.
Proof.
  intros st routes.
  assert (∀ route, route ∈ routes → TrimSpace route = "" ∨ is_Some (ParseCIDR (TrimSpace route))) as Hall.
  { intros route [-> | [-> | []%elem_of_nil]%elem_of_cons]%elem_of_cons; [right|by left].
    by eexists. }
  assert ((FindTenantAdvertisedRouteConflict "t1" "k2" "eu" routes (env_at 1) st).1 =
    Err (RouteConflictError "10.1.0.0/16" "10.0.0.0/8" "edge" "us" "k1" "eu" "k2")) as Hrun
    by (vm_compute; reflexivity).
  split; [exact Hrun|].
  pose proof (FindTenantAdvertisedRouteConflict_exact "t1" "k2" "eu" routes (env_at 1) st
    (λ _, eq_refl) Hall) as H. cbv zeta in H. rewrite Hrun in H. exact H.
Defined.
