(* ===== verification/RuntimeAuth.v ===== *)
(** * Runtime tokens and the authorisation of agents

    [internal/auth/runtime_token.go], [internal/controller/grpc/auth_interceptor.go]
    and the part of [internal/controller/grpc/server.go] that finds the node a
    request speaks for.  Signing and parsing of JSON web tokens is the library
    [golang-jwt]; it enters as the class [JWT], with what its documentation says
    of signed tokens as the class [JWTLaws].  [uuid.Parse] is an argument. *)

From S2P Require Import Prelude GoStr Records Store Events ControlState AgentCommands PolicySync Nodes Lifecycle.

Open Scope Z_scope.

(** ** Tokens *)

Definition RuntimeTokenTTL : Z := 24 * 3600 * 1000000.
Definition RuntimeIssuer : string := "aria-runtime".
Definition RuntimeTokenPrefix : string := "rt_".

(** The claims with the registered ones the code sets; dates in seconds. *)
Record RuntimeClaims := mkRuntimeClaims {
  cl_NodeID : string;
  cl_TenantID : string;
  cl_TokenVersion : Z;
  cl_ExpiresAt : Z;
  cl_IssuedAt : Z;
  cl_Issuer : string;
  cl_Subject : string;
}.
#[export] Instance RuntimeClaims_eq_dec : EqDecision RuntimeClaims.
Proof. solve_decision. Defined.

(** What parsing a token gives: its claims, or an error, which the code compares
    with [jwt.ErrTokenExpired]. *)
Inductive jwt_parsed :=
  | JWTClaims (c : RuntimeClaims)
  | JWTErrTokenExpired
  | JWTError.

(** [token.SignedString(secret)] with HS256, and [jwt.ParseWithClaims] at a time
    with a secret, an HMAC method and the issuer the code asks for. *)
Class JWT := {
  jwt_sign : string → RuntimeClaims → option string;
  jwt_parse : Time → string → string → jwt_parsed;
}.
(** A token that was signed is accepted with its secret until it expires. *)
Class JWTLaws `{JWT} := {
  jwt_parse_sign now secret c s :
    jwt_sign secret c = Some s → cl_Issuer c = RuntimeIssuer → unix now < cl_ExpiresAt c →
    jwt_parse now secret s = JWTClaims c;
  (* the compact form of a token has no spaces *)
  jwt_sign_text secret c s :
    jwt_sign secret c = Some s →
    s ≠ "" ∧ Forall (λ c, is_space c = false) (String.list_ascii_of_string s);
}.

Section tokens.
Context `{JWT} (secret : string).         (* runtimeSecret; empty when not configured *)

Definition getRuntimeSecret : result string :=
  if (secret =? "")%string then Err (ErrorString "runtime token secret is not configured")
  else Ok secret.

Definition GenerateRuntimeTokenWithVersion (nodeID tenantID : string) (tokenVersion : Z)
    : M (string * Time) :=
  now ← ask env_go_now;
  let expiresAt := now + RuntimeTokenTTL in
  let claims := mkRuntimeClaims nodeID tenantID tokenVersion (unix expiresAt) (unix now)
    RuntimeIssuer nodeID in
  secret ← wrap "failed to generate runtime token" (lift (λ _, getRuntimeSecret));
  match jwt_sign secret claims with
  | None => fail (ErrorString "failed to sign runtime token")
  | Some tokenString => mret (RuntimeTokenPrefix +:+ tokenString, expiresAt)
  end.

Definition GenerateRuntimeToken (nodeID tenantID : string) : M (string * Time) :=
  GenerateRuntimeTokenWithVersion nodeID tenantID 0.

(** [strings.TrimPrefix] after [strings.HasPrefix]. *)
Definition drop_prefix (n : nat) (s : string) : string :=
  String.string_of_list_ascii (drop n (String.list_ascii_of_string s)).

Definition ValidateRuntimeToken (tokenString : string) : M RuntimeClaims :=
  if negb (HasPrefix tokenString RuntimeTokenPrefix) then fail ErrInvalidToken else
  let jwtPart := drop_prefix 3 tokenString in
  secret ← lift (λ _, getRuntimeSecret);
  now ← ask env_go_now;
  match jwt_parse now secret jwtPart with
  | JWTErrTokenExpired => fail ErrExpiredToken
  | JWTError => fail ErrInvalidToken
  | JWTClaims claims => mret claims
  end.

(** ** The interceptor *)

Definition Unauthenticated : string := "Unauthenticated".
Definition PermissionDenied : string := "PermissionDenied".
Definition Internal : string := "Internal".
Definition status_Error {A} (code msg : string) : M A := fail (StatusError code msg).

(** [md] is the authorization metadata of the call, if it has metadata. *)
Definition extractBearerToken (md : option (list string)) : M string :=
  match md with
  | None => status_Error Unauthenticated "missing metadata"
  | Some [] => status_Error Unauthenticated "missing authorization header"
  | Some (value :: _) =>
    let authHeader := TrimSpace value in
    if negb (HasPrefix (ToLower authHeader) "bearer ")
    then status_Error Unauthenticated "invalid authorization format" else
    let token := TrimSpace (drop_prefix 7 authHeader) in
    if (token =? "")%string then status_Error Unauthenticated "invalid authorization format"
    else mret token
  end.

Context (uuid_Parse : string → option UUID).

Definition validateRuntimeTokenState (claims : RuntimeClaims) : M unit :=
  match uuid_Parse (TrimSpace (cl_NodeID claims)) with
  | None => status_Error Unauthenticated "invalid node_id in token"
  | Some parsedNodeID =>
    match uuid_Parse (TrimSpace (cl_TenantID claims)) with
    | None => status_Error Unauthenticated "invalid tenant_id in token"
    | Some parsedTenantID =>
      r ← attempt (GetNodeRuntimeAuthState parsedNodeID);
      match r with
      | Err _ | Ok None => status_Error Unauthenticated "node not found"
      | Ok (Some state) =>
        if negb (ra_TenantID state =? parsedTenantID)%string
        then status_Error PermissionDenied "runtime token tenant mismatch" else
        if negb (cl_TokenVersion claims =? ra_RuntimeTokenVersion state)
        then status_Error Unauthenticated "runtime token revoked" else
        if one_of (ra_NodeStatus state) stopped_statuses
        then status_Error PermissionDenied
               ("node access denied: status '" +:+ ra_NodeStatus state +:+ "'") else
        if negb (EqualFold (TrimSpace (ra_TenantStatus state)) "active")
        then status_Error PermissionDenied
               ("tenant is not active: status '" +:+ ra_TenantStatus state +:+ "'")
        else mret ()
      end
    end
  end.

(** The values the interceptor puts into the context. *)
Record RuntimeContext := mkRuntimeContext {
  RuntimeNodeID : string;
  RuntimeTenantID : string;
}.

(** [UnaryAuthInterceptor] and [StreamAuthInterceptor] up to the call of the
    handler, for every method but Register. *)
Definition AuthInterceptor (md : option (list string)) : M RuntimeContext :=
  token ← extractBearerToken md;
  v ← attempt (ValidateRuntimeToken token);
  match v with
  | Err ErrExpiredToken => status_Error Unauthenticated "runtime token expired"
  | Err _ => status_Error Unauthenticated "invalid runtime token"
  | Ok claims =>
    _ ← validateRuntimeTokenState claims;
    mret (mkRuntimeContext (cl_NodeID claims) (cl_TenantID claims))
  end.
Definition isRegisterMethod (fullMethod : string) : bool :=
  (fullMethod =? "/aria.agent.ControllerService/Register")%string.

(** ** The node of a request *)

Definition isInactiveNodeStatus (nodeStatus : string) : bool :=
  one_of (ToLower (TrimSpace nodeStatus)) stopped_statuses.

(** A lookup whose error is dropped. *)
Definition or_nil {A} (m : M (option A)) : M (option A) :=
  r ← attempt m; mret (match r with Ok a => a | Err _ => None end).

Definition resolveRuntimeNode (nodeID publicKey : string) : M Node :=
  nodeByNodeID ← (if (nodeID =? "")%string then mret None else
                  match uuid_Parse nodeID with
                  | Some parsedNodeID => or_nil (GetNodeByID parsedNodeID)
                  | None => mret None
                  end);
  nodeByPubKey ← (if (publicKey =? "")%string then mret None else or_nil (GetNode publicKey));
  let mismatch := match nodeByNodeID, nodeByPubKey with
    | Some a, Some b => negb (N_ID a =? N_ID b)%string
    | _, _ => false
    end in
  if mismatch
  then fail (ErrorString "SECURITY ALERT: identity mismatch between node_id and public_key") else
  match (match nodeByNodeID with Some n => Some n | None => nodeByPubKey end) with
  | None => fail (ErrorString ("node identity not found (node_id: " +:+ nodeID +:+ ", pubkey: "
                               +:+ publicKey +:+ ")"))
  | Some resolvedNode =>
    if isInactiveNodeStatus (N_Status resolvedNode)
    then fail (ErrorString ("node access denied: current status is '" +:+ N_Status resolvedNode +:+ "'"))
    else mret resolvedNode
  end.

Definition bindRuntimeTokenToNode (ctx : RuntimeContext) (node : Node) : M unit :=
  if (TrimSpace (RuntimeNodeID ctx) =? "")%string
  then status_Error Unauthenticated "runtime token node missing" else
  match uuid_Parse (RuntimeNodeID ctx) with
  | None => status_Error Unauthenticated "invalid runtime token node"
  | Some parsedTokenNodeID =>
    if negb (parsedTokenNodeID =? N_ID node)%string
    then status_Error PermissionDenied "runtime token node mismatch" else
    if (TrimSpace (RuntimeTenantID ctx) =? "")%string
    then status_Error Unauthenticated "runtime token tenant missing" else
    match uuid_Parse (RuntimeTenantID ctx) with
    | None => status_Error Unauthenticated "invalid runtime token tenant"
    | Some parsedTokenTenantID =>
      if negb (parsedTokenTenantID =? N_TenantID node)%string
      then status_Error PermissionDenied "runtime token tenant mismatch" else mret ()
    end
  end.

Definition ensureRuntimeTenantActive (node : Node) : M unit :=
  r ← attempt (GetTenantStatus (N_TenantID node));
  match r with
  | Err ErrNoRows => status_Error PermissionDenied "tenant is not active"
  | Err _ => status_Error Internal "failed to verify tenant status"
  | Ok statusValue =>
    if negb (EqualFold (TrimSpace statusValue) "active")
    then status_Error PermissionDenied ("tenant is not active: status '" +:+ statusValue +:+ "'")
    else mret ()
  end.

Definition resolveLegacyAgentIdentity (agentID : string) : M Node :=
  if (agentID =? "")%string then fail (ErrorString "agent identity is required") else
  node ← match uuid_Parse agentID with
         | Some parsedNodeID => GetNodeByID parsedNodeID
         | None => GetNode agentID
         end;
  match node with
  | None => fail (ErrorString "node not found")
  | Some node =>
    if isInactiveNodeStatus (N_Status node)
    then status_Error PermissionDenied ("node access denied: status '" +:+ N_Status node +:+ "'")
    else mret node
  end.

(** The checks that follow the lookup of a node, in every handler. *)
Definition bind_and_check (ctx : RuntimeContext) (node : Node) : M Node :=
  _ ← bindRuntimeTokenToNode ctx node;
  _ ← ensureRuntimeTenantActive node;
  mret node.

Definition resolveRuntimeNodeForRequest (ctx : RuntimeContext) (nodeID publicKey : string) : M Node :=
  node ← resolveRuntimeNode nodeID publicKey;
  bind_and_check ctx node.

(** The first of a list of lookups that succeeds. *)
Fixpoint first_ok (lookups : list (M Node)) (err : error) : M Node :=
  match lookups with
  | [] => fail err
  | m :: rest =>
    r ← attempt m;
    match r with Ok node => mret node | Err _ => first_ok rest err end
  end.

(** [CommandResponse], an agent's message on the command stream. *)
Record CommandResponse := mkCommandResponse {
  rp_CommandId : string;
  rp_Status : string;
  rp_Message : string;
  rp_Result : strmap;
  rp_NodeId : string;
  rp_PublicKey : string;
}.
Definition identity (resp : CommandResponse) (key : string) : string :=
  default "" (rp_Result resp !! key).

Definition resolveNodeFromCommandStream (resp : CommandResponse) : M Node :=
  let named key m := if (identity resp key =? "")%string then [] else [m] in
  first_ok (
    [resolveRuntimeNode (rp_NodeId resp) (rp_PublicKey resp)]
    ++ named "node_id" (resolveRuntimeNode (identity resp "node_id") (identity resp "public_key"))
    ++ named "agent_id" (resolveLegacyAgentIdentity (identity resp "agent_id"))
    ++ named "public_key" (resolveRuntimeNode "" (identity resp "public_key")))
    (ErrorString "failed to resolve node identity from command stream init").

Definition resolveCommandStreamNodeForRequest (ctx : RuntimeContext) (resp : CommandResponse)
    : M Node :=
  node ← resolveNodeFromCommandStream resp;
  bind_and_check ctx node.

Definition resolveMetricsNode (nodeID publicKey agentID : string) : M Node :=
  first_ok ([resolveRuntimeNode nodeID publicKey]
            ++ (if (agentID =? "")%string then [] else [resolveLegacyAgentIdentity agentID]))
    (ErrorString "node_id or public_key is required for metrics reporting").

Definition resolveMetricsNodeForRequest (ctx : RuntimeContext) (nodeID publicKey agentID : string)
    : M Node :=
  node ← resolveMetricsNode nodeID publicKey agentID;
  bind_and_check ctx node.

(** A token of the node's current version. *)
Definition generateRuntimeTokenForNode (node : Node) : M (string * Z) :=
  tokenVersion ← GetNodeRuntimeTokenVersion (N_ID node);
  '(token, expiresAt) ← GenerateRuntimeTokenWithVersion (N_ID node) (N_TenantID node) tokenVersion;
  mret (token, unix expiresAt).
End tokens.

(** ** Round trip of a token *)

Lemma drop_prefix_app p s : drop_prefix (String.length p) (p +:+ s) = s.
Proof.
  unfold drop_prefix. induction p as [|c p IH]; simpl; [by rewrite drop_0, string_list_string|done].
Qed.
Lemma HasPrefix_app p s : HasPrefix (p +:+ s) p = true.
Proof.
  unfold HasPrefix. induction p as [|c p IH]; simpl; [by destruct s|].
  destruct (Ascii.ascii_dec c c); [done|congruence].
Qed.

(** A runtime token the controller issues is accepted until it expires and
    gives back the node, the tenant and the version it was issued for. *)
Theorem runtime_token_roundtrip `{JWTLaws} secret nodeID tenantID version e st token expiresAt st' e' st'' :
  GenerateRuntimeTokenWithVersion secret nodeID tenantID version e st = (Ok (token, expiresAt), st') →
  unix (env_go_now e') < unix expiresAt →
  expiresAt = env_go_now e + RuntimeTokenTTL ∧
  ∃ claims, ValidateRuntimeToken secret token e' st'' = (Ok claims, st'') ∧
    cl_NodeID claims = nodeID ∧ cl_TenantID claims = tenantID ∧ cl_TokenVersion claims = version.
Proof.
  unfold GenerateRuntimeTokenWithVersion, getRuntimeSecret, ValidateRuntimeToken, getRuntimeSecret,
    ask, lift, wrap, mbind, M_bind, mret, M_ret, fail. intros Hg Hexp.
  destruct (secret =? "")%string; [done|].
  destruct (jwt_sign _ _) as [s|] eqn:Hs; [|done]. injection Hg as <- <- <-.
  split; [done|]. rewrite HasPrefix_app. cbn [negb].
  rewrite (drop_prefix_app RuntimeTokenPrefix).
  rewrite (jwt_parse_sign _ _ _ _ Hs) by done. by eexists.
Qed.

(** A signer that knows one token. *)
Definition one_token_jwt (c : RuntimeClaims) : JWT := {|
  jwt_sign _ c' := if decide (c' = c) then Some "signed" else None;
  jwt_parse now _ s := if (s =? "signed")%string && (unix now <? cl_ExpiresAt c)
                       then JWTClaims c else JWTError;
|}.
Lemma one_token_laws c : @JWTLaws (one_token_jwt c).
Proof.
  split.
  - intros now secret c' s Hs _ Hexp. simpl in *. case_decide; simplify_eq. simpl.
    by rewrite (proj2 (Z.ltb_lt _ _) Hexp).
  - intros secret c' s Hs. simpl in Hs. case_decide; simplify_eq. split; [done|by repeat constructor].
Qed.

Definition sample_claims : RuntimeClaims :=
  mkRuntimeClaims "n1" "t1" 3 86405 5 RuntimeIssuer "n1".
Lemma runtime_token_roundtrip_witness :
  let H := one_token_jwt sample_claims in
  let e := env_at 5000000 in
  let st := mkSt empty_db 0 in
  ∃ claims, ValidateRuntimeToken "secret" "rt_signed" (env_at 9000000) st = (Ok claims, st) ∧
    cl_NodeID claims = "n1" ∧ cl_TenantID claims = "t1" ∧ cl_TokenVersion claims = 3.
Proof.
  intros H e st.
  exact (proj2 (@runtime_token_roundtrip H (one_token_laws _) "secret" "n1" "t1" 3 e st "rt_signed"
    86405000000 st (env_at 9000000) st eq_refl eq_refl)).
Defined.

(** ** Who a request may speak for *)

(** Entry points of an agent: [Sync], the first message of [CommandStream] and
    [ReportMetrics]. *)
Inductive runtime_request :=
  | SyncRequest (nodeID publicKey : string)
  | StreamInit (resp : CommandResponse)
  | MetricsReport (nodeID publicKey agentID : string).

Definition authorize `{JWT} secret uuid_Parse (md : option (list string)) (req : runtime_request)
    : M Node :=
  ctx ← AuthInterceptor secret uuid_Parse md;
  match req with
  | SyncRequest nodeID publicKey => resolveRuntimeNodeForRequest uuid_Parse ctx nodeID publicKey
  | StreamInit resp => resolveCommandStreamNodeForRequest uuid_Parse ctx resp
  | MetricsReport nodeID publicKey agentID =>
    resolveMetricsNodeForRequest uuid_Parse ctx nodeID publicKey agentID
  end.

(** A lookup that gives a stored node that is not stopped. *)
Definition finds_node (m : M Node) : Prop := ∀ e st n st',
  m e st = (Ok n, st') →
  st_db st' = st_db st ∧ isInactiveNodeStatus (N_Status n) = false ∧
  ∃ r, nodes (st_db st) !! N_ID n = Some r ∧ n = scanNode (N_ID n) r.

Definition reads_node (m : M (option Node)) : Prop := ∀ e st o st',
  m e st = (Ok o, st') →
  st_db st' = st_db st ∧
  ∀ n, o = Some n → ∃ r, nodes (st_db st) !! N_ID n = Some r ∧ n = scanNode (N_ID n) r.

Lemma GetNodeByID_reads id : reads_node (GetNodeByID id).
Proof.
  intros e st o st' [-> ->]%query_ok. split; [done|].
  intros n (r & Hr & ->)%fmap_Some. by exists r.
Qed.
Lemma node_by_key_row db key id r : node_by_key db key = Some (id, r) → nodes db !! id = Some r.
Proof.
  unfold node_by_key. intros Hh.
  assert ((id, r) ∈ select_where (λ _ n, (n_public_key n =? key)%string) (nodes db)) as Hin.
  { destruct (select_where _ _); simplify_eq/=. left. }
  by apply select_where_elem in Hin as [? _].
Qed.
Lemma GetNode_reads key : reads_node (GetNode key).
Proof.
  intros e st o st' [-> ->]%query_ok. split; [done|].
  intros n ([id r] & Hr & ->)%fmap_Some. exists r. split; [|done]. by eapply node_by_key_row.
Qed.
Lemma or_nil_reads m : (∀ e st, st_db (m e st).2 = st_db st) → reads_node m → reads_node (or_nil m).
Proof.
  intros Hsame Hm e st o st'. unfold or_nil, attempt, mbind, M_bind, mret, M_ret.
  specialize (Hsame e st). destruct (m e st) as [[o'|x] st1] eqn:He; intros [= <- <-].
  - by eapply Hm.
  - by split.
Qed.
Lemma query_same {A} (f : Env → DB → A) e st : st_db (query f e st).2 = st_db st.
Proof. unfold query, stmt, stmt_rows. by case_match. Qed.
Lemma none_reads : reads_node (mret None).
Proof. intros e st o st' [= <- <-]. by split. Qed.

Lemma resolveRuntimeNode_finds parse nodeID publicKey : finds_node (resolveRuntimeNode parse nodeID publicKey).
Proof.
  intros e st n st' H. unfold resolveRuntimeNode in H.
  apply bind_ok in H as (o1 & st1 & H1 & H). apply bind_ok in H as (o2 & st2 & H2 & H).
  assert (reads_node (if (nodeID =? "")%string then mret None else
    match parse nodeID with Some p => or_nil (GetNodeByID p) | None => mret None end)) as Hr1.
  { destruct (nodeID =? "")%string; [apply none_reads|].
    destruct (parse nodeID); [|apply none_reads]. apply or_nil_reads;
      [intros; apply query_same|apply GetNodeByID_reads]. }
  assert (reads_node (if (publicKey =? "")%string then mret None else or_nil (GetNode publicKey))) as Hr2.
  { destruct (publicKey =? "")%string; [apply none_reads|]. apply or_nil_reads;
      [intros; apply query_same|apply GetNode_reads]. }
  apply Hr1 in H1 as [Hd1 Hn1]. apply Hr2 in H2 as [Hd2 Hn2]. rewrite Hd1 in Hn2.
  cbv zeta in H. destruct (match o1 with Some _ => _ | None => _ end) in H; [done|].
  destruct o1 as [n1|]; [|destruct o2 as [n2|]; [|done]];
    (destruct (isInactiveNodeStatus _) eqn:Hi; [done|]); injection H as -> <-;
    (split; [congruence|]); (split; [done|]); eauto.
Qed.
Lemma resolveLegacyAgentIdentity_finds parse agentID :
  finds_node (resolveLegacyAgentIdentity parse agentID).
Proof.
  intros e st n st' H. unfold resolveLegacyAgentIdentity in H.
  destruct (agentID =? "")%string; [done|]. apply bind_ok in H as (o & st1 & H1 & H).
  assert (reads_node (match parse agentID with Some p => GetNodeByID p | None => GetNode agentID end))
    as Hr by (destruct (parse agentID); [apply GetNodeByID_reads|apply GetNode_reads]).
  apply Hr in H1 as [Hd Hn]. destruct o as [n1|]; [|done].
  destruct (isInactiveNodeStatus _) eqn:Hi; [done|]. injection H as -> <-. eauto.
Qed.
(** Lookups change nothing, whatever their result. *)
Abbreviation same_db := (same (λ db : DB, db)).

Lemma first_ok_finds ms err :
  Forall (λ m, finds_node m ∧ changes same_db m) ms → finds_node (first_ok ms err).
Proof.
  induction 1 as [|m ms [Hf Hc] _ IH]; intros e st n st' H; simpl in H; [done|].
  unfold attempt, mbind, M_bind in H. specialize (Hc e st). unfold same in Hc.
  destruct (m e st) as [[n1|x] st1] eqn:Hm.
  - injection H as <- <-. by eapply Hf.
  - simpl in Hc. apply IH in H. by rewrite Hc in H.
Qed.
Lemma resolveRuntimeNode_same parse a b : changes same_db (resolveRuntimeNode parse a b).
Proof. unfold resolveRuntimeNode, or_nil, GetNodeByID, GetNode. chg. Qed.
Lemma resolveLegacyAgentIdentity_same parse a : changes same_db (resolveLegacyAgentIdentity parse a).
Proof. unfold resolveLegacyAgentIdentity, GetNodeByID, GetNode, status_Error. chg. Qed.
#[export] Hint Resolve resolveRuntimeNode_finds resolveLegacyAgentIdentity_finds
  resolveRuntimeNode_same resolveLegacyAgentIdentity_same : aria.

Lemma resolveNodeFromCommandStream_finds parse resp :
  finds_node (resolveNodeFromCommandStream parse resp).
Proof.
  apply first_ok_finds. repeat apply Forall_app_2; repeat case_match;
    repeat (apply Forall_cons; split); try apply Forall_nil; split; eauto with aria.
Qed.
Lemma resolveMetricsNode_finds parse a b c : finds_node (resolveMetricsNode parse a b c).
Proof.
  apply first_ok_finds. apply Forall_app_2; repeat case_match;
    repeat (apply Forall_cons; split); try apply Forall_nil; split; eauto with aria.
Qed.
#[export] Hint Resolve resolveNodeFromCommandStream_finds resolveMetricsNode_finds : aria.

#[local] Arguments one_of : simpl never.
#[local] Arguments EqualFold : simpl never.
Lemma validateRuntimeTokenState_ok parse claims e st u st' :
  validateRuntimeTokenState parse claims e st = (Ok u, st') →
  st_db st' = st_db st ∧
  ∃ id n t, parse (TrimSpace (cl_NodeID claims)) = Some id ∧
    nodes (st_db st) !! id = Some n ∧ tenants (st_db st) !! n_tenant_id n = Some t ∧
    parse (TrimSpace (cl_TenantID claims)) = Some (n_tenant_id n) ∧
    cl_TokenVersion claims = n_runtime_token_version n ∧
    EqualFold (TrimSpace (TrimSpace (default "" (t_status t)))) "active" = true.
Proof.
  unfold validateRuntimeTokenState, status_Error.
  destruct (parse (TrimSpace (cl_NodeID claims))) as [id|]; [|done].
  destruct (parse (TrimSpace (cl_TenantID claims))) as [tid|]; [|done].
  unfold GetNodeRuntimeAuthState, attempt, mbind at 1, M_bind, query, stmt, stmt_rows.
  destruct (env_fault e (st_tick st)); [done|].
  destruct (nodes (st_db st) !! id) as [n|] eqn:Hn; [|done]. simpl.
  destruct (tenants (st_db st) !! n_tenant_id n) as [t|] eqn:Ht; [|done]. simpl.
  destruct (n_tenant_id n =? tid)%string eqn:H1; [|done]. simpl.
  destruct (cl_TokenVersion claims =? _) eqn:H2; [|done]. simpl.
  destruct (one_of _ _); [done|]. destruct (EqualFold _ _) eqn:H3; [|done].
  intros [= <- <-]. simpl. bools. split; [done|]. exists id, n, t. by subst.
Qed.

Lemma bind_and_check_ok parse ctx node e st n st' :
  bind_and_check parse ctx node e st = (Ok n, st') →
  n = node ∧ st_db st' = st_db st ∧
  parse (RuntimeNodeID ctx) = Some (N_ID node) ∧
  parse (RuntimeTenantID ctx) = Some (N_TenantID node).
Proof.
  unfold bind_and_check. intros H.
  apply bind_ok in H as (u & st1 & H1 & H). apply bind_ok in H as (u' & st2 & H2 & [= <- <-]).
  assert (changes same_db (ensureRuntimeTenantActive node)) as Hs.
  { unfold ensureRuntimeTenantActive, GetTenantStatus, scan_tenant_status, status_Error. chg. }
  specialize (Hs e st1). rewrite H2 in Hs. unfold same in Hs. simpl in Hs.
  unfold bindRuntimeTokenToNode, status_Error in H1.
  destruct (TrimSpace (RuntimeNodeID ctx) =? "")%string; [done|].
  destruct (parse (RuntimeNodeID ctx)) as [id|] eqn:Hid; [|done].
  destruct (id =? N_ID node)%string eqn:H3; [|done]. simpl in H1.
  destruct (TrimSpace (RuntimeTenantID ctx) =? "")%string; [done|].
  destruct (parse (RuntimeTenantID ctx)) as [tid|] eqn:Htid; [|done].
  destruct (tid =? N_TenantID node)%string eqn:H4; [|done]. injection H1 as _ <-.
  bools. split_and!; congruence.
Qed.

Lemma in_service_inactive id r :
  isInactiveNodeStatus (N_Status (scanNode id r)) = false → in_service r = true.
Proof.
  unfold isInactiveNodeStatus, in_service. simpl. intros Hi. apply negb_true_iff.
  destruct (one_of (default "online" (n_status r)) stopped_statuses) eqn:Ho; [|done].
  apply one_of_spec in Ho. apply one_of_false in Hi. exfalso. apply Hi.
  assert (default "online" (n_status r) = "deleted" ∨ default "online" (n_status r) = "suspended" ∨
    default "online" (n_status r) = "banned") as [-> | [-> | ->]] by (unfold stopped_statuses in Ho; set_solver);
    vm_compute; set_solver.
Qed.

(** The node of a command stream. *)
Lemma first_ok_same ms err : Forall (changes same_db) ms → changes same_db (first_ok ms err).
Proof. induction 1; simpl; chg. Qed.
Lemma resolveCommandStreamNodeForRequest_same parse ctx resp :
  changes same_db (resolveCommandStreamNodeForRequest parse ctx resp).
Proof.
  unfold resolveCommandStreamNodeForRequest, resolveNodeFromCommandStream, bind_and_check,
    bindRuntimeTokenToNode, ensureRuntimeTenantActive, GetTenantStatus, scan_tenant_status, status_Error.
  cbv zeta. chg. apply first_ok_same. repeat apply Forall_app_2; repeat case_match;
    repeat (apply Forall_cons; split); try apply Forall_nil; eauto with aria.
Qed.
Lemma stream_node_ok parse ctx resp e st node st' :
  resolveCommandStreamNodeForRequest parse ctx resp e st = (Ok node, st') →
  ∃ r, node = scanNode (N_ID node) r ∧ parse (RuntimeNodeID ctx) = Some (N_ID node) ∧
    parse (RuntimeTenantID ctx) = Some (n_tenant_id r) ∧ nodes (st_db st) !! N_ID node = Some r ∧
    in_service r = true.
Proof.
  unfold resolveCommandStreamNodeForRequest. intros (n & st1 & Hn & Hb)%bind_ok.
  apply resolveNodeFromCommandStream_finds in Hn as (_ & Hin & r & Hr & Hnode).
  apply bind_and_check_ok in Hb as (-> & _ & Hp1 & Hp2). exists r. split_and!; [done|done| |done|].
  - by rewrite Hp2, Hnode.
  - rewrite Hnode in Hin. by eapply in_service_inactive.
Qed.

(** What makes a request legitimate: a token that is valid for the node, of its
    tenant and current version, and a node and tenant in service. *)
Definition legitimate `{JWT} (secret : string) (parse : string → option UUID) (e : Env) (db : DB)
    (md : option (list string)) (node : Node) : Prop :=
  ∃ token claims r t st,
    extractBearerToken md e st = (Ok token, st) ∧
    ValidateRuntimeToken secret token e st = (Ok claims, st) ∧
    parse (cl_NodeID claims) = Some (N_ID node) ∧
    nodes db !! N_ID node = Some r ∧ node = scanNode (N_ID node) r ∧ in_service r = true ∧
    parse (cl_TenantID claims) = Some (n_tenant_id r) ∧
    tenants db !! n_tenant_id r = Some t ∧
    EqualFold (TrimSpace (TrimSpace (default "" (t_status t)))) "active" = true ∧
    cl_TokenVersion claims = n_runtime_token_version r.

Lemma extractBearerToken_st md e st r st' : extractBearerToken md e st = (r, st') → st' = st.
Proof. unfold extractBearerToken, status_Error, fail, mret, M_ret. intros. by cases. Qed.
Lemma ValidateRuntimeToken_st `{JWT} secret token e st r st' :
  ValidateRuntimeToken secret token e st = (r, st') → st' = st.
Proof.
  unfold ValidateRuntimeToken, lift, ask, fail, mret, M_ret, mbind, M_bind. intros. by cases.
Qed.

(** C9. A call of [Sync], [CommandStream] or [ReportMetrics] is served only for the
    node its runtime token names: whatever identity the request claims and
    whichever statements fail, the interceptor and the lookup give a node only if
    the token is valid, names that node and its tenant and has the node's current
    token version, the node is neither deleted, suspended nor banned, and its
    tenant is active; no table changes.  The interceptor reads the node id of the
    token without the blanks around it, the lookup reads it as it is: [uuid.Parse]
    is as [trimmed_names_same] says. *)
Theorem runtime_requests_are_legitimate `{JWT} secret parse md req e st node st' :
  trimmed_names_same parse →
  authorize secret parse md req e st = (Ok node, st') →
  st_db st' = st_db st ∧ legitimate secret parse e (st_db st) md node.
Proof.
  intros Htrim Hrun. unfold authorize in Hrun.
  apply bind_ok in Hrun as (ctx & st1 & Hctx & Hrun). unfold AuthInterceptor in Hctx.
  apply bind_ok in Hctx as (token & st2 & Htok & Hctx).
  pose proof (extractBearerToken_st _ _ _ _ _ Htok) as ->.
  unfold attempt in Hctx. unfold mbind at 1, M_bind in Hctx.
  destruct (ValidateRuntimeToken secret token e st) as [v st3] eqn:Hv.
  pose proof (ValidateRuntimeToken_st _ _ _ _ _ _ Hv) as ->.
  destruct v as [claims|x]; [|destruct x; discriminate Hctx].
  apply bind_ok in Hctx as (u & st4 & Hstate & [= <- <-]).
  apply validateRuntimeTokenState_ok in Hstate as
    (Hdb4 & id & n & t & Hid & Hn & Ht & Htid & Hver & Hact).
  assert (∃ lookup st5 node', finds_node lookup ∧ lookup e st4 = (Ok node', st5) ∧
    bind_and_check parse (mkRuntimeContext (cl_NodeID claims) (cl_TenantID claims)) node' e st5
      = (Ok node, st')) as (lookup & st5 & node' & Hfinds & Hl & Hb).
  { destruct req; apply bind_ok in Hrun as (node' & st5 & Hl & Hb);
      eexists _, st5, node'; (split; [|by split]); eauto with aria. }
  apply Hfinds in Hl as (Hdb5 & Hinact & r & Hr & Hnode).
  apply bind_and_check_ok in Hb as (-> & Hdb & Hp1 & Hp2). simpl in Hp1, Hp2.
  rewrite Hdb4 in Hr. apply (Htrim _ _ _ Hp1) in Hid as ->.
  rewrite Hr in Hn. injection Hn as <-.
  split; [congruence|]. exists token, claims, r, t, st. split_and!; try done.
  - rewrite Hnode in Hinact. by eapply in_service_inactive.
  - rewrite Hp2. by rewrite Hnode.
Qed.

Definition runtime_db : DB :=
  empty_db <| tenants := {["t1" := mkTenantRow "T" None None None (Some "active") None 0 0]} |>
    <| nodes := {["n1" := mkNodeRow "k1" "m1" "t1" "" "" "" "eu" "" "edge" "100.64.0.2" 2 0 0
         "agent" None None None (Some "online") None [] None 3 0 0]} |>.

(** A parser that knows two identifiers. *)
Definition known_uuids (s : string) : option UUID := if one_of s ["n1"; "t1"] then Some s else None.
Lemma known_uuids_trim : trimmed_names_same known_uuids.
Proof.
  unfold known_uuids. intros s id id' H. destruct (one_of s _) eqn:Hs; [|discriminate H]. injection H as <-.
  apply one_of_spec in Hs. repeat (apply elem_of_cons in Hs as [-> | Hs]; [by intros [= <-]|]).
  by apply elem_of_nil in Hs.
Qed.

Lemma runtime_requests_are_legitimate_witness :
  let H := one_token_jwt sample_claims in
  let st := mkSt runtime_db 0 in
  let req := MetricsReport "" "k1" "" in
  let md := Some ["Bearer rt_signed"] in
  ∃ node st', authorize "secret" known_uuids md req (env_at 9000000) st = (Ok node, st') ∧
    st_db st' = st_db st ∧ legitimate "secret" known_uuids (env_at 9000000) (st_db st) md node.
Proof.
  intros H st req md.
  assert (is_ok (authorize "secret" known_uuids md req (env_at 9000000) st).1 = true) as Hok
    by (vm_compute; reflexivity).
  destruct (authorize "secret" known_uuids md req (env_at 9000000) st) as [[node|] st'] eqn:Hrun;
    [|discriminate Hok].
  exists node, st'. split; [reflexivity|].
  exact (runtime_requests_are_legitimate "secret" known_uuids md req (env_at 9000000) st node st'
    known_uuids_trim Hrun).
Defined.
