(* ===== verification/CommandStream.v ===== *)
(** * The command stream

    [CommandStream] of [internal/controller/grpc/server.go]: after the agent's
    first message the controller pushes pending commands, one at a time, and
    records the results the agent sends back.  The stream uses the command queue
    through the class [CommandQueue]; what the stream promises is proved from
    [CommandQueueLaws], which the queue of [agent_commands.go] satisfies.  The
    select loop is a sequence of events; the outcome of each [stream.Send] is part
    of its event. *)

From S2P Require Import Prelude GoStr Records Store Events ControlState AgentCommands PolicySync CommandLifecycle Nodes Lifecycle RuntimeAuth.

Open Scope Z_scope.

(** ** The poll timer *)

Definition second : Z := 1000000000.
Definition commandStreamPollInterval : Z := 2 * second.
Definition commandStreamMaxPollInterval : Z := 30 * second.

(** The loop: [idlePolls] doublings, in 64-bit arithmetic. *)
Fixpoint idle_loop (maximum interval : Z) (idlePolls : nat) : Z :=
  match idlePolls with
  | O => if maximum <? interval then maximum else interval
  | S n => if Z.quot maximum 2 <=? interval then maximum
           else idle_loop maximum (int64 (interval * 2)) n
  end.
Definition commandStreamIdlePollInterval (base maximum idlePolls : Z) : Z :=
  let base := if base <=? 0 then 2 * second else base in
  let maximum := if maximum <? base then base else maximum in
  idle_loop maximum base (Z.to_nat idlePolls).

(** ** The queue *)

Class CommandQueue := {
  queue_next : string → M (option AgentCommand);
  queue_requeue : string → string → string → M unit;
  queue_report : string → string → string → string → option strmap → M unit;
}.

(** What a command tells its node to do. *)
Definition order (r : CommandRow) : string * string * object :=
  (ac_node_public_key r, ac_command r, ac_params r).
(** Every command stays in its node's queue with what it orders, and the commands
    of other nodes are as before. *)
Definition isolates (key : string) (db db' : DB) : Prop := ∀ id r,
  agent_commands db !! id = Some r →
  ∃ r', agent_commands db' !! id = Some r' ∧
    order r' = order r ∧ (ac_node_public_key r ≠ key → r' = r).
#[export] Instance isolates_preorder key : PreOrder (isolates key).
Proof.
  split; [by intros db id r; eauto|]. intros a b c Hab Hbc id r Hr.
  destruct (Hab id r Hr) as (r1 & Hr1 & Hk1 & He1).
  destruct (Hbc id r1 Hr1) as (r2 & Hr2 & Hk2 & He2).
  exists r2. split_and!; [done|congruence|]. intros Hk.
  assert (ac_node_public_key r1 = ac_node_public_key r) as Hkk by (by injection Hk1).
  rewrite He2 by congruence. auto.
Qed.

(** A command in the queue of a node. *)
Definition command_at (db : DB) (key id status : string) : Prop :=
  ∃ r, agent_commands db !! id = Some r ∧ ac_node_public_key r = key ∧ ac_status r = status.

Record CommandRequest := mkCommandRequest {
  cq_CommandId : string;
  cq_Command : string;
  cq_Params : strmap;
  cq_Timeout : Z;
  cq_Priority : Z;
  cq_CreatedAt : Z;
}.
Definition command_request (cmd : AgentCommand) : CommandRequest :=
  mkCommandRequest (ID cmd) (Command cmd) (Params cmd) (int32 (TimeoutSeconds cmd))
    (int32 (Priority cmd)) (unix (CreatedAt cmd)).
(** A message that says what a command in the queue of a node orders. *)
Definition queued_for (db : DB) (key : string) (req : CommandRequest) : Prop :=
  ∃ r, agent_commands db !! cq_CommandId req = Some r ∧ ac_node_public_key r = key ∧
    cq_Command req = ac_command r ∧ cq_Params req = stringifyCommandParams (ac_params r).
Lemma queued_for_isolated key db db' req :
  isolates key db db' → queued_for db key req → queued_for db' key req.
Proof.
  intros Hi (r & Hr & Hk & Hc & Hp). destruct (Hi _ _ Hr) as (r' & Hr' & [= Hk' Hc' Hp'] & _).
  exists r'. split_and!; [done|congruence..].
Qed.

Class CommandQueueLaws `{CommandQueue} := {
  next_kept key : changes (isolates key) (queue_next key);
  requeue_kept id key message : changes (isolates key) (queue_requeue id key message);
  report_kept id key status message result :
    changes (isolates key) (queue_report id key status message result);
  next_sent key e st cmd st' :
    queue_next key e st = (Ok (Some cmd), st') →
    command_at (st_db st') key (ID cmd) AgentCommandStatusSent ∧
    queued_for (st_db st') key (command_request cmd);
  requeue_pending id key message e st u st' :
    queue_requeue id key message e st = (Ok u, st') →
    command_at (st_db st') key id AgentCommandStatusPending;
}.

(** ** The stream *)

Section stream.
Context `{CommandQueue}.

Definition ensureCommandStreamRuntimeActive (nodePublicKey : string) : M (option Node) :=
  if (nodePublicKey =? "")%string then mret None else
  r ← attempt (GetNode nodePublicKey);
  match r with
  | Err _ | Ok None => status_Error Unauthenticated "node not found"
  | Ok (Some node) =>
    if isInactiveNodeStatus (N_Status node)
    then status_Error PermissionDenied ("node access denied: status '" +:+ N_Status node +:+ "'") else
    _ ← ensureRuntimeTenantActive node;
    mret (Some node)
  end.

(** The message that was sent, if any; [send] is the error of [stream.Send]. *)
Definition sendNextPendingCommand (send : option string) (agentID : string)
    : M (option CommandRequest) :=
  if (agentID =? "")%string then mret None else
  _ ← ensureCommandStreamRuntimeActive agentID;
  cmd ← wrap "failed to get pending command" (queue_next agentID);
  match cmd with
  | None => mret None
  | Some cmd =>
    match send with
    | None => mret (Some (command_request cmd))
    | Some err =>
      r ← attempt (queue_requeue (ID cmd) agentID ("stream send failed: " +:+ err));
      match r with
      | Err _ => fail (ErrorString "stream send error; failed to requeue command")
      | Ok _ => fail (ErrorString "stream send error")
      end
    end
  end.

Definition isTerminalCommandStatus (status : string) : bool :=
  one_of status [AgentCommandStatusCompleted; AgentCommandStatusFailed].

(** What the select of the loop receives. *)
Inductive stream_event :=
  | EvDone                                            (* stream.Context().Done() *)
  | EvRecvErr (eof : bool)                            (* recvErrs *)
  | EvResponse (resp : option CommandResponse) (send : option string)
  | EvPoll (send : option string).                    (* pollTimer.C *)

(** The loop's variables and the messages sent so far. *)
Record stream_state := mkStream {
  idlePolls : Z;
  sent : list CommandRequest;
}.
Definition poll_interval (s : stream_state) : Z :=
  commandStreamIdlePollInterval commandStreamPollInterval commandStreamMaxPollInterval (idlePolls s).

(** [sendNextPendingCommand] and [resetPollTimer]. *)
Definition push (send : option string) (key : string) (s : stream_state) : M stream_state :=
  r ← sendNextPendingCommand send key;
  mret (match r with
        | Some req => mkStream 0 (sent s ++ [req])
        | None => mkStream (idlePolls s + 1) (sent s)
        end).

(** One turn of the loop: the state of the next turn, or [None] when the
    handler returns nil. *)
Definition stream_turn (key : string) (s : stream_state) (ev : stream_event)
    : M (option stream_state) :=
  match ev with
  | EvDone => mret None
  | EvRecvErr true => mret None
  | EvRecvErr false => fail (ErrorString "stream recv error")
  | EvPoll send => s' ← push send key s; mret (Some s')
  | EvResponse None _ => mret (Some s)
  | EvResponse (Some resp) send =>
    if (rp_CommandId resp =? "init")%string then mret (Some s) else
    _ ← (if (rp_CommandId resp =? "")%string then mret () else
         _ ← ensureCommandStreamRuntimeActive key;
         wrap "failed to update command status"
           (queue_report (rp_CommandId resp) key (rp_Status resp) (rp_Message resp)
              (Some (rp_Result resp))));
    if isTerminalCommandStatus (rp_Status resp)
    then s' ← push send key s; mret (Some s')
    else mret (Some s)
  end.

(** How a stream ends. *)
Inductive stream_end := Waiting | Returned (r : result unit).

(** The events in order, each with its clock and failures. *)
Fixpoint stream_loop (key : string) (s : stream_state) (evs : list (Env * stream_event)) (st : St)
    : stream_end * stream_state * St :=
  match evs with
  | [] => (Waiting, s, st)
  | (e, ev) :: evs' =>
    match stream_turn key s ev e st with
    | (Ok (Some s'), st') => stream_loop key s' evs' st'
    | (Ok None, st') => (Returned (Ok ()), s, st')
    | (Err x, st') => (Returned (Err x), s, st')
    end
  end.

(** The first message, up to the loop; [header] is the error of [SendHeader]. *)
Inductive first_recv := FirstEOF | FirstErr | FirstMsg (resp : option CommandResponse).
Definition stream_init (uuid_Parse : string → option UUID) (ctx : RuntimeContext)
    (first : first_recv) (header : bool) (send : option string)
    : M (option (string * stream_state)) :=
  match first with
  | FirstEOF => mret None
  | FirstErr => fail (ErrorString "stream recv error")
  | FirstMsg None => fail (ErrorString "command stream init payload is required")
  | FirstMsg (Some resp) =>
    if negb (rp_CommandId resp =? "init")%string
    then fail (ErrorString "command stream init payload is required") else
    node ← resolveCommandStreamNodeForRequest uuid_Parse ctx resp;
    if negb header then fail (ErrorString "stream send header error") else
    r ← sendNextPendingCommand send (N_PublicKey node);
    mret (Some (N_PublicKey node, mkStream 0 (match r with Some req => [req] | None => [] end)))
  end.

(** The handler: how it ends, the messages it has sent and the tables. *)
Definition CommandStream (uuid_Parse : string → option UUID) (ctx : RuntimeContext)
    (first : first_recv) (header : bool) (send : option string) (e : Env)
    (evs : list (Env * stream_event)) (st : St) : stream_end * list CommandRequest * St :=
  match stream_init uuid_Parse ctx first header send e st with
  | (Err x, st') => (Returned (Err x), [], st')
  | (Ok None, st') => (Returned (Ok ()), [], st')
  | (Ok (Some (key, s)), st') =>
    let '(res, s', st'') := stream_loop key s evs st' in (res, sent s', st'')
  end.

(** ** What the stream promises, from the laws of the queue *)

Context `{!CommandQueueLaws}.

Lemma active_kept key key' : changes (isolates key) (ensureCommandStreamRuntimeActive key').
Proof.
  unfold ensureCommandStreamRuntimeActive, ensureRuntimeTenantActive, GetTenantStatus,
    scan_tenant_status, GetNode, status_Error. chg.
Qed.
Lemma sendNext_kept send key : changes (isolates key) (sendNextPendingCommand send key).
Proof.
  pose proof (next_kept key). pose proof requeue_kept. pose proof active_kept.
  unfold sendNextPendingCommand. chg.
Qed.
Lemma stream_turn_kept key s ev : changes (isolates key) (stream_turn key s ev).
Proof.
  pose proof sendNext_kept. pose proof report_kept. pose proof active_kept.
  unfold stream_turn, push. chg.
Qed.

(** A message that is sent is a command of the node that is now marked sent. *)
Lemma sendNext_sent send key e st req st' :
  sendNextPendingCommand send key e st = (Ok (Some req), st') →
  command_at (st_db st') key (cq_CommandId req) AgentCommandStatusSent ∧ queued_for (st_db st') key req.
Proof.
  unfold sendNextPendingCommand. destruct (key =? "")%string; [done|]. intros Hr.
  apply bind_ok in Hr as (n & st1 & _ & Hr). apply bind_ok in Hr as (cmd & st2 & Hn & Hr).
  apply wrap_ok in Hn. destruct cmd as [cmd|]; [|done].
  destruct send as [err|].
  - apply bind_ok in Hr as (r & st3 & _ & Hr). by destruct r.
  - injection Hr as <- <-. by eapply next_sent.
Qed.

Lemma push_sent send key s e st s' st' :
  push send key s e st = (Ok s', st') →
  (sent s' = sent s ∧ idlePolls s' = idlePolls s + 1) ∨
  (∃ req, sent s' = sent s ++ [req] ∧ idlePolls s' = 0 ∧
     queued_for (st_db st') key req).
Proof.
  unfold push. intros (r & st1 & Hr & [= <- <-])%bind_ok. destruct r as [req|]; [right|by left].
  exists req. split_and!; try done. by apply sendNext_sent in Hr as [_ ?].
Qed.

(** The messages a turn adds. *)
Lemma stream_turn_sent key s ev e st s' st' :
  stream_turn key s ev e st = (Ok (Some s'), st') →
  sent s' = sent s ∨
  ∃ req, sent s' = sent s ++ [req] ∧ queued_for (st_db st') key req.
Proof.
  intros Hr.
  assert (∀ send e st, (s'' ← push send key s; mret (Some s'')) e st = (Ok (Some s'), st') →
    sent s' = sent s ∨ ∃ req, sent s' = sent s ++ [req] ∧ queued_for (st_db st') key req) as Hpush.
  { intros send e1 st1 (s1 & st2 & Hp & [= -> ->])%bind_ok.
    apply push_sent in Hp as [[? _]|(req & ? & _ & ?)]; [by left|right; eauto]. }
  destruct ev as [|[]|[resp|] send|send]; simpl in Hr; try done; simplify_eq; eauto.
  - destruct (_ =? "init")%string; [injection Hr as <- <-; by left|].
    apply bind_ok in Hr as (u & st1 & _ & Hr).
    destruct (isTerminalCommandStatus _); [by eauto|]. injection Hr as <- <-. by left.
  - injection Hr as <- <-. by left.
Qed.

Lemma stream_loop_isolated key evs s st res s' st' :
  stream_loop key s evs st = (res, s', st') →
  isolates key (st_db st) (st_db st') ∧
  ∃ pushed, sent s' = sent s ++ pushed ∧ ∀ req, req ∈ pushed → queued_for (st_db st') key req.
Proof.
  revert s st. induction evs as [|[e ev] evs IH]; intros s st Hr; simpl in Hr.
  - simplify_eq. split; [reflexivity|]. exists []. rewrite app_nil_r. split; [done|].
    by intros req ?%elem_of_nil.
  - pose proof (stream_turn_kept key s ev e st) as Hk.
    destruct (stream_turn key s ev e st) as [[[s1|]|x] st1] eqn:Ht; simpl in Hk.
    2,3: simplify_eq; split; [done|]; exists []; rewrite app_nil_r; split; [done|];
      by intros req ?%elem_of_nil.
    destruct (IH _ _ Hr) as (Hk' & pushed & Hp & Hall). split; [by etrans|].
    apply stream_turn_sent in Ht as [Hs | (req & Hs & Hq)].
    + exists pushed. split; [congruence|done].
    + exists (req :: pushed). split; [rewrite Hp, Hs, <- app_assoc; done|].
      intros req' [-> | Hin]%elem_of_cons; [by eapply queued_for_isolated|by apply Hall].
Qed.

(** The node a runtime token names, as the tables have it. *)
Definition token_node (uuid_Parse : string → option UUID) (ctx : RuntimeContext) (db : DB) (r : NodeRow) : Prop :=
  ∃ nid, uuid_Parse (RuntimeNodeID ctx) = Some nid ∧ uuid_Parse (RuntimeTenantID ctx) = Some (n_tenant_id r) ∧
    nodes db !! nid = Some r ∧ in_service r = true.

(** The opening of a stream: nothing happens, or its key is that of the node of
    the token and the first message, if any, is for that node. *)
Lemma stream_init_isolated uuid_Parse ctx first header send e st o st' :
  stream_init uuid_Parse ctx first header send e st = (o, st') →
  (st_db st' = st_db st ∧ (∀ k s, o ≠ Ok (Some (k, s)))) ∨
  ∃ r, token_node uuid_Parse ctx (st_db st) r ∧ isolates (n_public_key r) (st_db st) (st_db st') ∧
    ∀ k s, o = Ok (Some (k, s)) → k = n_public_key r ∧
      ∀ req, req ∈ sent s → queued_for (st_db st') (n_public_key r) req.
Proof.
  unfold stream_init. destruct first as [| |[resp|]]; [by intros [= <- <-]; left..| |by intros [= <- <-]; left].
  destruct (negb (_ =? "init")%string); [by intros [= <- <-]; left|].
  unfold mbind at 1, M_bind at 1.
  pose proof (resolveCommandStreamNodeForRequest_same uuid_Parse ctx resp e st) as Hdb.
  destruct (resolveCommandStreamNodeForRequest _ _ _ e st) as [[node|x] st1] eqn:Hres;
    unfold same in Hdb; cbn [snd] in Hdb; [|by intros [= <- <-]; left].
  intros Hr. right. apply stream_node_ok in Hres as (r & Hnode & Hid & Ht & Hrow & Hs).
  exists r. split; [by eexists|]. rewrite Hnode in Hr. cbn [N_PublicKey scanNode] in Hr.
  destruct (negb header); [injection Hr as <- <-; split; [by rewrite Hdb|done]|].
  unfold mbind, M_bind in Hr. pose proof (sendNext_kept send (n_public_key r) e st1) as Hk. rewrite Hdb in Hk.
  destruct (sendNextPendingCommand send _ e st1) as [[m|x] st2] eqn:Hsend; cbn [snd] in Hk;
    injection Hr as <- <-; (split; [done|]); [|done].
  intros k s [= <- <-]. split; [done|]. destruct m as [req'|]; intros req Hin; [|by apply elem_of_nil in Hin].
  apply list_elem_of_singleton in Hin as ->. by apply sendNext_sent in Hsend as [_ ?].
Qed.

(** C18. A command stream is isolated to the node its runtime token names:
    whatever the agent sends and whichever statements and sends fail, either the
    stream pushes nothing and changes nothing, or the node the token names is in
    service and of the tenant the token names when the stream opens, every message
    pushed - the first one included - says what a command queued for that node
    orders, and no command of another node changes. *)
Theorem stream_isolated uuid_Parse ctx first header send e evs st res pushed st' :
  CommandStream uuid_Parse ctx first header send e evs st = (res, pushed, st') →
  (pushed = [] ∧ st_db st' = st_db st) ∨
  ∃ r, token_node uuid_Parse ctx (st_db st) r ∧ isolates (n_public_key r) (st_db st) (st_db st') ∧
    ∀ req, req ∈ pushed → queued_for (st_db st') (n_public_key r) req.
Proof.
  unfold CommandStream. destruct (stream_init _ _ _ _ _ e st) as [o st1] eqn:Hinit.
  apply stream_init_isolated in Hinit as [[Hdb Ho]|(r & Hr & Hi & Ho)].
  - destruct o as [[[k s]|]|x]; [by destruct (Ho k s)|by intros [= <- <- <-]; left..].
  - intros Hrun. right. exists r. split; [done|]. destruct o as [[[k s]|]|x]; simplify_eq.
    2,3: split; [done|]; by intros req ?%elem_of_nil.
    destruct (Ho k s eq_refl) as [-> Hs].
    destruct (stream_loop _ s evs st1) as [[res1 s1] st2] eqn:Hl. injection Hrun as <- <- <-.
    apply stream_loop_isolated in Hl as (Hi' & more & -> & Hmore). split; [by etrans|].
    intros req [Hin|Hin]%elem_of_app; [|by apply Hmore]. eapply queued_for_isolated; [done|by apply Hs].
Qed.

(** A command whose send fails is pending again unless putting it back fails. *)
Lemma failed_send_requeues err key e st x st' :
  sendNextPendingCommand (Some err) key e st = (Err x, st') →
  x = ErrorString "stream send error" →
  ∃ id, command_at (st_db st') key id AgentCommandStatusPending.
Proof.
  unfold sendNextPendingCommand. destruct (key =? "")%string; [done|]. intros Hr Hx. subst x.
  unfold mbind at 1, M_bind at 1 in Hr.
  destruct (ensureCommandStreamRuntimeActive key e st) as [[n|y] st1] eqn:Ha.
  2:{ injection Hr as -> ->. exfalso. revert Ha.
      unfold ensureCommandStreamRuntimeActive, ensureRuntimeTenantActive, status_Error, fail,
        attempt, mret, M_ret, mbind, M_bind. intros. cases. }
  unfold mbind, M_bind in Hr.
  destruct (wrap _ _ e st1) as [[cmd|y] st2] eqn:Hn.
  2:{ unfold wrap in Hn. destruct (queue_next key e st1) as [[?|?] ?]; by simplify_eq. }
  destruct cmd as [cmd|]; [|done]. unfold attempt in Hr.
  destruct (queue_requeue _ _ _ e st2) as [[u|y] st3] eqn:Hq; [|discriminate Hr].
  injection Hr as <-. exists (ID cmd). by eapply requeue_pending.
Qed.
End stream.

(** ** The queue of [agent_commands.go] *)

#[export] Instance agent_command_queue : CommandQueue := {|
  queue_next := GetNextPendingAgentCommand;
  queue_requeue := RequeueSentAgentCommand;
  queue_report := UpdateAgentCommandStatusForNode;
|}.

Lemma update_isolates key p f db :
  (∀ k r, p k r = true → ac_node_public_key r = key) →
  (∀ r, order (f r) = order r) →
  isolates key db (set_commands (update_where p f (agent_commands db)) db).
Proof.
  intros Hp Hf id r Hr. simpl. eexists. rewrite lookup_update_where, Hr. split; [done|].
  destruct (p id r) eqn:Hpr; simpl; [|done]. split; [apply Hf|]. by rewrite (Hp _ _ Hpr).
Qed.
Lemma isolates_eq key db db' : agent_commands db' = agent_commands db → isolates key db db'.
Proof. intros Heq id r Hr. rewrite Heq. eauto. Qed.

Lemma requeue_overdue_isolates key now db : isolates key db (requeue_overdue key now db).
Proof. apply update_isolates; [|done]. intros. by bools. Qed.

Lemma GetNext_commit key e st o st' :
  GetNextPendingAgentCommand key e st = (Ok o, st') →
  match o with
  | None => st_db st' = st_db st
  | Some cmd => ∃ r, let db1 := requeue_overdue key (env_now e) (st_db st) in
      agent_commands db1 !! ID cmd = Some r ∧ ac_node_public_key r = key ∧
      Command cmd = ac_command r ∧ Params cmd = stringifyCommandParams (ac_params r) ∧
      st_db st' = set_commands (update_where (λ k _, (k =? ID cmd)%string) (send_row (env_go_now e))
                                  (agent_commands db1)) db1
  end.
Proof.
  unfold GetNextPendingAgentCommand. intros (st1 & [[Hb ->] | [Hb ->]])%tx_ok; run_ok;
    destruct a0 as [[id row]|]; run_ok; try done.
  rewrite Hdb0 in Hdb1. rewrite Hdb in *. symmetry in Hval0. apply next_pending_spec in Hval0.
  simpl. eexists. split_and!; [apply Hval0|apply Hval0|done..].
Qed.

Lemma commands_set m db : agent_commands (set_commands m db) = m.
Proof. done. Qed.

(** The queue keeps what the stream relies on. *)
#[export] Instance agent_command_queue_laws : CommandQueueLaws.
Proof.
  split; simpl.
  - intros key e st. destruct (GetNextPendingAgentCommand key e st) as [[o|x] st'] eqn:Hr; simpl.
    + apply GetNext_commit in Hr. destruct o as [cmd|]; [|rewrite Hr; reflexivity].
      destruct Hr as (r & Hid & Hkey & _ & _ & ->). etrans; [apply requeue_overdue_isolates|].
      intros id r1 Hr1. eexists. rewrite commands_set, lookup_update_where, Hr1. split; [done|].
      destruct (id =? ID cmd)%string eqn:He; simpl; [|done]. bools. subst id.
      split; [done|]. rewrite Hr1 in Hid. injection Hid as <-. done.
    + apply tx_err in Hr. rewrite Hr. reflexivity.
  - intros id key message. unfold RequeueSentAgentCommand. chg.
    apply (changes_exec (isolates key)). intros e db. simpl. apply update_isolates; [|done].
    intros. by bools.
  - intros id key status message result.
    unfold UpdateAgentCommandStatusForNode, updateAgentCommandStatus. chg.
    + apply (changes_tx_commit (isolates key)). intros e st b st' Hr.
      apply updateTx_commit in Hr as (_ & r & _ & _ & _ & _ & Hc).
      etrans; [|by apply isolates_eq, only_control_commands].
      etrans; [|by apply isolates_eq]. apply update_isolates; [|done].
      intros k r' Hp. unfold reportable, command_matches in Hp. bools.
      match goal with H : (_ || _) = true |- _ => apply orb_true_iff in H as [?|?] end;
        bools; congruence.
    + eapply changes_weaken; [|apply emitCommandAlertAndAudit_logs].
      intros db db' Hsame. apply isolates_eq. apply Hsame.
  - intros key e st cmd st' Hr. apply GetNext_commit in Hr as (r & Hid & Hkey & Hc & Hp & ->).
    split; exists (send_row (env_go_now e) r); cbn [cq_CommandId command_request];
      rewrite commands_set, lookup_update_where, Hid; simpl; rewrite String.eqb_refl; by split_and!.
  - intros id key message e st u st'. unfold RequeueSentAgentCommand.
    destruct (id =? "")%string; [done|]. destruct (key =? "")%string; [done|].
    intros (n & st1 & [Hn Hdb]%exec_ok & Hr)%bind_ok. simpl in Hn, Hdb.
    destruct (n =? 0) eqn:H0; [done|]. injection Hr as _ <-.
    match type of Hn with _ = count_where ?q _ => set (p := q) in Hn, Hdb end.
    assert (exists_where p (agent_commands (st_db st)) = true) as (k & r & Hk & Hp)%exists_where_spec.
    { unfold exists_where. rewrite <- Hn. by rewrite H0. }
    assert (k = id ∧ ac_node_public_key r = key) as [-> Hkey] by (unfold p in Hp; by bools).
    rewrite Hdb. eexists. rewrite commands_set, lookup_update_where, Hk. simpl. rewrite Hp. done.
Qed.

Definition stream_db : DB :=
  empty_db <| tenants := {["t1" := mkTenantRow "T" None None None (Some "active") None 0 0]} |>
    <| nodes := {["n1" := mkNodeRow "k1" "m1" "t1" "" "" "" "eu" "" "edge" "100.64.0.2" 2 0 0
         "agent" None None None (Some "online") None [] None 3 0 0]} |>
    <| agent_commands := <["c1" := mkCommandRow "k1" "sync" ∅ "pending" None 0 60 ∅ None None None 0 0 None]>
         {["c2" := mkCommandRow "k2" "sync" ∅ "pending" None 0 60 ∅ None None None 0 0 None]} |>.
(** A poll, and a report for a command of another node, which ends the stream. *)
Definition stream_events : list (Env * stream_event) :=
  [(env_at 1, EvPoll None);
   (env_at 3, EvResponse (Some (mkCommandResponse "c2" "completed" "" ∅ "" "")) None);
   (env_at 4, EvPoll None)].

Lemma stream_isolated_witness :
  let ctx := mkRuntimeContext "n1" "t1" in
  let first := FirstMsg (Some (mkCommandResponse "init" "" "" ∅ "n1" "k1")) in
  let '(res, pushed, st') :=
    CommandStream known_uuids ctx first true None (env_at 1) stream_events (mkSt stream_db 0) in
  cq_CommandId <$> pushed = ["c1"] ∧
  ∃ r, token_node known_uuids ctx stream_db r ∧ isolates (n_public_key r) stream_db (st_db st') ∧
    ∀ req, req ∈ pushed → queued_for (st_db st') (n_public_key r) req.
Proof.
  intros ctx first.
  destruct (CommandStream known_uuids ctx first true None (env_at 1) stream_events (mkSt stream_db 0))
    as [[res pushed] st'] eqn:Hr.
  assert (cq_CommandId <$> (res, pushed, st').1.2 = ["c1"]) as Hs by (rewrite <- Hr; vm_compute; reflexivity).
  split; [exact Hs|].
  destruct (stream_isolated known_uuids ctx first true None (env_at 1) stream_events (mkSt stream_db 0)
    res pushed st' Hr) as [[Hp _]|Hp]; [|exact Hp].
  cbn [fst snd] in Hs. rewrite Hp in Hs. discriminate Hs.
Defined.

(** ** The poll interval *)

Lemma idle_loop_range maximum interval n :
  0 < interval ≤ maximum → maximum < 2 ^ 63 →
  interval ≤ idle_loop maximum interval n ≤ maximum ∧
  (maximum ≤ interval * 2 ^ Z.of_nat n → idle_loop maximum interval n = maximum).
Proof.
  revert interval. induction n as [|n IH]; intros interval Hi Hm.
  - simpl. destruct (Z.ltb_spec maximum interval); lia.
  - cbn [idle_loop]. rewrite Z.quot_div_nonneg by lia.
    destruct (Z.leb_spec (maximum / 2) interval) as [Hle|Hlt]; [lia|].
    assert (interval * 2 < maximum) by (pose proof (Z.mul_div_le maximum 2 ltac:(lia)); lia).
    rewrite int64_small by lia.
    destruct (IH (interval * 2) ltac:(lia) Hm) as [Hr Hmax]. split; [lia|].
    intros Hle. apply Hmax. rewrite Nat2Z.inj_succ, Z.pow_succ_r in Hle by lia. lia.
Qed.
Lemma idle_loop_mono maximum interval n :
  0 < interval ≤ maximum → maximum < 2 ^ 63 →
  idle_loop maximum interval n ≤ idle_loop maximum interval (S n).
Proof.
  revert interval. induction n as [|n IH]; intros interval Hi Hm.
  - pose proof (idle_loop_range maximum interval 1 Hi Hm). simpl (idle_loop _ _ 0).
    destruct (Z.ltb_spec maximum interval); lia.
  - pose proof (IH (int64 (interval * 2))) as IH'. revert IH'.
    change (idle_loop maximum interval (S n)) with (if Z.quot maximum 2 <=? interval then maximum
      else idle_loop maximum (int64 (interval * 2)) n).
    change (idle_loop maximum interval (S (S n))) with (if Z.quot maximum 2 <=? interval then maximum
      else idle_loop maximum (int64 (interval * 2)) (S n)).
    rewrite Z.quot_div_nonneg by lia.
    destruct (Z.leb_spec (maximum / 2) interval) as [Hle|Hlt]; [lia|]. intros IH'.
    assert (interval * 2 < maximum) by (pose proof (Z.mul_div_le maximum 2 ltac:(lia)); lia).
    rewrite int64_small in * by lia. apply IH'; lia.
Qed.

(** The idle poll interval backs off within bounds: for durations of 64 bits
    the doubling never overflows, the interval is at least the base and at most
    the maximum, it never shrinks as idle polls accumulate, and it is the maximum
    once the base has doubled past it. *)
Theorem commandStreamIdlePollInterval_bounds base maximum idlePolls :
  base < 2 ^ 63 → maximum < 2 ^ 63 → 0 ≤ idlePolls →
  let b := if base <=? 0 then 2 * second else base in
  let m := Z.max maximum b in
  let interval := commandStreamIdlePollInterval base maximum in
  b ≤ interval idlePolls ≤ m ∧ interval idlePolls ≤ interval (idlePolls + 1) ∧
  (m ≤ b * 2 ^ idlePolls → interval idlePolls = m).
Proof.
  intros Hb Hm Hn b m interval. unfold interval, commandStreamIdlePollInterval. fold b.
  replace (if maximum <? b then b else maximum) with m
    by (unfold m; destruct (Z.ltb_spec maximum b); lia).
  assert (0 < b < 2 ^ 63) as Hbr by (unfold b, second; destruct (Z.leb_spec base 0); lia).
  assert (0 < b ≤ m ∧ m < 2 ^ 63) as [Hbm Hm'] by (unfold m; lia).
  destruct (idle_loop_range m b (Z.to_nat idlePolls) Hbm Hm') as [Hr Hmax].
  split; [done|]. split.
  - rewrite Z2Nat.inj_add by lia. rewrite Nat.add_1_r. by apply idle_loop_mono.
  - intros Hle. apply Hmax. by rewrite Z2Nat.id.
Qed.

Lemma commandStreamIdlePollInterval_bounds_witness :
  let interval := commandStreamIdlePollInterval commandStreamPollInterval commandStreamMaxPollInterval in
  interval 3 = 16 * second ∧ interval 4 = 30 * second ∧
  2 * second ≤ interval 3 ≤ 30 * second ∧ interval 3 ≤ interval (3 + 1) ∧
  (30 * second ≤ 2 * second * 2 ^ 3 → interval 3 = 30 * second).
Proof.
  split; [reflexivity|]. split; [reflexivity|].
  exact (commandStreamIdlePollInterval_bounds commandStreamPollInterval commandStreamMaxPollInterval 3
    ltac:(reflexivity) ltac:(reflexivity) ltac:(lia)).
Defined.
