(* ===== verification/Tenants.v ===== *)
(** * Tenants and roles

    The tenant rows of [pkg/controllerstorage/postgres.go] and the roles of
    [pkg/controllerstorage/rbac.go]. *)

From S2P Require Import Prelude GoStr Records Store Events.

Open Scope Z_scope.

(** ** Tenants *)

(** [INSERT INTO tenants (code, name) ... ON CONFLICT (code) DO UPDATE SET name]. *)
Definition GetOrCreateTenantByCode (code name : string) : M UUID :=
  stmt (λ e id db,
    match head (select_where (λ _ t, bool_decide (t_code t = Some code)) (tenants db)) with
    | Some (id', t) => Ok (id', db <| tenants := <[id' := t <| t_name := name |>]> (tenants db) |>)
    | None =>
      if tenant_exists db id then Err (ErrConstraint "tenants_pkey") else
      Ok (id, db <| tenants := <[id := mkTenantRow name (Some code) None None (Some "active") (Some "{}")
                                         (env_now e) (env_now e)]> (tenants db) |>)
    end).
Definition GetOrCreateTenant (name : string) : M UUID := GetOrCreateTenantByCode name name.

(** A NULL [tenant_id] scans into the nil identifier. *)
Definition GetTenantIDByToken (tokenStr : string) : M UUID :=
  query_row (λ _ db,
    (λ kr, default uuid_Nil (tk_tenant_id kr.2)) <$>
      head (select_where (λ _ r, (tk_token r =? tokenStr)%string) (tokens db))).

Record TenantInfo := mkTenantInfo {
  ti_ID : UUID;
  ti_Name : string;
  ti_Code : string;
  ti_Status : string;
  ti_ResourceQuota : string;
  ti_CreatedAt : Time;
  ti_UpdatedAt : Time;
}.
(** A NULL status or quota does not scan. *)
Definition GetTenantInfo (tenantID : UUID) : M TenantInfo :=
  t ← query_row (λ _ db, tenants db !! tenantID);
  match t_status t, t_resource_quota t with
  | Some status, Some quota =>
    mret (mkTenantInfo tenantID (t_name t) (default "" (t_code t)) status quota
            (t_created_at t) (t_updated_at t))
  | _, _ => fail (ErrorString "converting NULL to string is unsupported")
  end.

(** ** Roles *)

Definition SystemRoleAdmin : string := "admin".
Definition SystemRoleOperator : string := "operator".
Definition SystemRoleViewer : string := "viewer".

Definition ViewerPermissions : list string :=
  ["nodes:read"; "routes:read"; "acls:read"; "qos:read"; "ip-groups:read"; "blacklist:read";
   "monitoring:read"; "ai:use"; "policies:read"].
Definition OperatorPermissions : list string :=
  ["nodes:read"; "nodes:write"; "routes:read"; "routes:write"; "acls:read"; "acls:write";
   "qos:read"; "qos:write"; "ip-groups:read"; "ip-groups:write"; "blacklist:read";
   "blacklist:write"; "monitoring:read"; "commands:write"; "ai:use"; "policies:read"].
Definition AdminPermissions : list string :=
  ["nodes:read"; "nodes:write"; "routes:read"; "routes:write"; "acls:read"; "acls:write";
   "qos:read"; "qos:write"; "ip-groups:read"; "ip-groups:write"; "blacklist:read";
   "blacklist:write"; "monitoring:read"; "commands:write"; "tokens:read"; "tokens:write";
   "users:read"; "users:write"; "roles:read"; "roles:write"; "ai:use"; "policies:read";
   "settings:read"; "settings:write"].

Definition NormalizeRoleName (role : string) : string :=
  let roleName := TrimSpace role in
  let lowerRoleName := ToLower roleName in
  if (lowerRoleName =? "member")%string then SystemRoleOperator else
  if (lowerRoleName =? "owner")%string then SystemRoleAdmin else
  if one_of lowerRoleName [SystemRoleAdmin; SystemRoleOperator; SystemRoleViewer; "super_admin"]
  then lowerRoleName else roleName.

Record Role := mkRole {
  R_ID : UUID;
  R_TenantID : UUID;
  R_Name : string;
  R_Description : string;
  R_IsSystem : bool;
  R_Permissions : list string;
  R_CreatedAt : Time;
  R_UpdatedAt : Time;
}.
Definition scan_role (kr : UUID * RoleRow) : Role :=
  let r := kr.2 in
  mkRole kr.1 (rl_tenant_id r) (rl_name r) (rl_description r) (rl_is_system r)
    (rl_permissions r) (rl_created_at r) (rl_updated_at r).

Definition role_named (tenantID : UUID) (name : string) (_ : UUID) (r : RoleRow) : bool :=
  (rl_tenant_id r =? tenantID)%string && (rl_name r =? name)%string.
Definition find_role (tenantID : UUID) (name : string) (db : DB) : option (UUID * RoleRow) :=
  head (select_where (role_named tenantID name) (roles db)).
Definition set_role (id : UUID) (r : RoleRow) (db : DB) : DB :=
  db <| roles := <[id := r]> (roles db) |>.

(** [INSERT ... ON CONFLICT (tenant_id, name) DO UPDATE]. *)
Definition upsert_system_role (tenantID : UUID) (name desc : string) (permissions : list string)
    : M unit :=
  stmt (λ e id db,
    match find_role tenantID name db with
    | Some (id', r) =>
      Ok ((), set_role id' (r <| rl_description := desc |> <| rl_is_system := true |>
                              <| rl_permissions := permissions |>
                              <| rl_updated_at := env_now e |>) db)
    | None =>
      if negb (tenant_exists db tenantID) then Err (ErrConstraint "roles_tenant_id_fkey") else
      match roles db !! id with
      | Some _ => Err (ErrConstraint "roles_pkey")
      | None => Ok ((), set_role id (mkRoleRow tenantID name desc true permissions
                                       (env_now e) (env_now e)) db)
      end
    end).
Definition systemRoles : list (string * string * list string) :=
  [(SystemRoleAdmin, "Full access to all resources", AdminPermissions);
   (SystemRoleOperator, "Network and policy management, no user management", OperatorPermissions);
   (SystemRoleViewer, "Read-only access to all resources", ViewerPermissions)].
Definition createSystemRoles (tenantID : UUID) : M unit :=
  for_each systemRoles (λ sr,
    wrap ("failed to create system role " +:+ sr.1.1)
      (upsert_system_role tenantID sr.1.1 sr.1.2 sr.2)).
Definition CreateSystemRoles := createSystemRoles.
Definition EnsureTenantRolesTx := createSystemRoles.
Definition EnsureTenantRoles := CreateSystemRoles.
Definition EnsureAllTenantRoles : M unit :=
  ids ← query (λ _ db, fst <$> map_to_list (tenants db));
  for_each ids (λ tenantID,
    wrap ("failed to ensure roles for tenant " +:+ tenantID) (CreateSystemRoles tenantID)).

Definition GetRoleByName (tenantID : UUID) (name : string) : M Role :=
  wrap ("role '" +:+ name +:+ "' not found for tenant " +:+ tenantID)
    (query_row (λ _ db, scan_role <$> find_role tenantID name db)).
(** [ORDER BY is_system DESC, name ASC]. *)
Definition role_before (a b : UUID * RoleRow) : bool :=
  (rl_is_system a.2 && negb (rl_is_system b.2))
  || (Bool.eqb (rl_is_system a.2) (rl_is_system b.2) && str_ltb (rl_name a.2) (rl_name b.2)).
Definition ListRoles (tenantID : UUID) : M (list Role) :=
  query (λ _ db, scan_role <$>
    SliceStable role_before (select_where (λ _ r, (rl_tenant_id r =? tenantID)%string) (roles db))).
Definition GetRoleByID (tenantID roleID : UUID) : M Role :=
  wrap "role not found" (query_row (λ _ db,
    r ← roles db !! roleID;
    if (rl_tenant_id r =? tenantID)%string then Some (scan_role (roleID, r)) else None)).

Definition CreateRole (role : Role) : M Role :=
  wrap "failed to create role" (stmt (λ e id db,
    if negb (tenant_exists db (R_TenantID role)) then Err (ErrConstraint "roles_tenant_id_fkey") else
    match find_role (R_TenantID role) (R_Name role) db with
    | Some _ => Err (ErrConstraint "roles_tenant_id_name_key")
    | None =>
      match roles db !! id with
      | Some _ => Err (ErrConstraint "roles_pkey")
      | None =>
        let row := mkRoleRow (R_TenantID role) (R_Name role) (R_Description role) false
          (R_Permissions role) (env_now e) (env_now e) in
        Ok (scan_role (id, row), set_role id row db)
      end
    end)).

(** [tenant_id = $1 AND id = $2 AND is_system = false]. *)
Definition custom_role (tenantID roleID : UUID) (id : UUID) (r : RoleRow) : bool :=
  (rl_tenant_id r =? tenantID)%string && (id =? roleID)%string && negb (rl_is_system r).
Definition UpdateRole (tenantID roleID : UUID) (description : string) (permissions : list string)
    : M Role :=
  wrap "failed to update role (may be a system role)" (stmt (λ e _ db,
    match roles db !! roleID with
    | Some r =>
      if custom_role tenantID roleID roleID r then
        let r' := r <| rl_description := description |> <| rl_permissions := permissions |>
                    <| rl_updated_at := env_now e |> in
        Ok (scan_role (roleID, r'), set_role roleID r' db)
      else Err ErrNoRows
    | None => Err ErrNoRows
    end)).
Definition DeleteRole (tenantID roleID : UUID) : M unit :=
  n ← wrap "failed to delete role" (exec (λ _ db,
    (count_where (custom_role tenantID roleID) (roles db),
     db <| roles := delete_where (custom_role tenantID roleID) (roles db) |>)));
  if n =? 0 then fail (ErrorString "role not found or is a system role") else mret ().

(** [fmt.Errorf("msg: %w", err)]: a caller still finds [sql.ErrNoRows] with
    [errors.Is]. *)
Definition wrap_rows {A} (msg : string) (m : M A) : M A := λ e st,
  match m e st with
  | (Err ErrNoRows, st') => (Err ErrNoRows, st')
  | _ => wrap msg m e st
  end.

(** [LOWER(name) = LOWER($2) ORDER BY the exact name first LIMIT 1]. *)
Definition role_alike (tenantID : UUID) (name : string) (_ : UUID) (r : RoleRow) : bool :=
  (rl_tenant_id r =? tenantID)%string && (ToLower (rl_name r) =? ToLower name)%string.
Definition exact_first (name : string) (a b : UUID * RoleRow) : bool :=
  (rl_name a.2 =? name)%string && negb (rl_name b.2 =? name)%string.
Definition GetRolePermissions (tenantID : UUID) (roleName : string) : M (list string) :=
  wrap_rows ("failed to get permissions for role '" +:+ roleName +:+ "'")
    (query_row (λ _ db, (λ kr, rl_permissions kr.2) <$>
      first_by (exact_first roleName) (select_where (role_alike tenantID roleName) (roles db)))).

(** [ensureDefaultTenant] of [internal/cli/controller_serve.go]. *)
Definition ensureDefaultTenant : M unit :=
  count ← wrap "failed to check tenants" (query (λ _ db, Z.of_nat (size (tenants db))));
  if 0 <? count then mret () else
  tenantID ← wrap "failed to create default tenant" (GetOrCreateTenantByCode "default" "Aria Default");
  wrap "failed to create default tenant roles" (EnsureTenantRoles tenantID).
