(* ===== verification/Registration.v ===== *)
(** * Registration of nodes

    [processRegistration] of [internal/cli/controller_serve.go] with its
    authorisation, the issuing and renewing of node certificates, and
    [internal/security/certissuance].  The X.509 functions, [uuid.Parse] and the
    source of serial numbers are arguments. *)

From S2P Require Import Prelude GoStr Netip Records Store Events Tokens ControlState AgentCommands PolicySync CommandLifecycle Nodes NodesSpec Addressing Lifecycle PublicNetwork Routes RuntimeAuth Tenants.

Open Scope Z_scope.

Definition StatusBadRequest : Z := 400.
Definition StatusUnauthorized : Z := 401.
Definition StatusForbidden : Z := 403.
Definition StatusNotFound : Z := 404.
Definition StatusConflict : Z := 409.
Definition StatusInternalServerError : Z := 500.
Definition StatusServiceUnavailable : Z := 503.

Record RegisterRequest := mkRegisterRequest {
  rq_PublicKey : string;
  rq_Endpoint : string;
  rq_PrivateIP : string;
  rq_PublicIP : string;
  rq_Region : string;
  rq_VPCID : string;
  rq_Hostname : string;
  rq_MachineID : string;
  rq_RegisteredAt : Z;
  rq_Token : string;
  rq_RuntimeToken : string;
  rq_AdvertisedRoutes : list string;
  rq_RuntimeMode : string;
  rq_KernelVersion : string;
  rq_HasAESNI : bool;
  rq_CSRPEM : string;
}.

(** ** Certificates *)

Record IssuedCertificate := mkIssued {
  is_SerialNumber : string;
  is_CertPEM : string;
  is_CAPEM : string;
  is_NotBefore : Time;
  is_NotAfter : Time;
}.

(** [x509]: parsing a request and checking its signature, and signing a
    certificate with the authority's key. *)
Class X509 := {
  csr : Type;
  parse_csr : string → result csr;
  create_certificate : csr → string → Time → Time → result string;
}.

(** [certissuance.Service]; a certificate is valid from five minutes ago. *)
Record CertService := mkCertService {
  sv_caPEM : string;
  sv_validity : Z;
  sv_renewBefore : Z;
}.
Definition IssueFromCSR `{X509} (s : CertService) (serial : result string) (csrPEM : string)
    : M IssuedCertificate :=
  if (csrPEM =? "")%string then fail (ErrorString "csr is required") else
  r ← lift (λ _, parse_csr csrPEM);
  serial ← wrap "serial generation failed" (lift (λ _, serial));
  now ← ask env_go_now;
  let notBefore := now - 5 * 60 * 1000000 in
  let notAfter := notBefore + sv_validity s in
  pem ← wrap "create certificate" (lift (λ _, create_certificate r serial notBefore notAfter));
  mret (mkIssued serial pem (sv_caPEM s) notBefore notAfter).

Section registration.
Context `{JWT, X509} (secret : string) (uuid_Parse : string → option UUID).
(** The base address of the overlay, the certificate service when it is
    enabled, and the next serial number. *)
Context (baseIP : string) (certService : option CertService) (serial : result string).

Definition renewed_audit (node : Node) (cert : NodeCertificate) (renewedFrom : UUID) : AuditEvent :=
  mkAuditEvent (N_TenantID node) (Some (N_ID node)) "certificate_renewed" "system"
    ("节点 " +:+ N_Hostname node +:+ " 证书已续签")
    (<["serial_number" := JString (nc_SerialNumber cert)]>
     (<["not_after" := JString (RFC3339 (nc_NotAfter cert))]>
      {["renewed_from" := JString renewedFrom]})).
Definition issued_audit (node : Node) (cert : NodeCertificate) : AuditEvent :=
  mkAuditEvent (N_TenantID node) (Some (N_ID node)) "cert.issued" "system"
    ("节点 " +:+ N_Hostname node +:+ " 证书已签发")
    (<["serial_number" := JString (nc_SerialNumber cert)]>
     {["not_after" := JString (RFC3339 (nc_NotAfter cert))]}).

Definition issueNodeCertificate (service : CertService) (node : Node) (csrPEM : string)
    (renewedFrom : option UUID) : M (option NodeCertificate) :=
  if (N_ID node =? uuid_Nil)%string then fail (ErrorString "node id is required") else
  if (N_TenantID node =? uuid_Nil)%string then fail (ErrorString "tenant id is required") else
  issued ← IssueFromCSR service serial csrPEM;
  let certMeta := mkNodeCertificate "" (N_TenantID node) (N_ID node) (is_SerialNumber issued)
    (is_CertPEM issued) (is_CAPEM issued) (is_NotBefore issued) (is_NotAfter issued)
    CertStatusIssued 0 None "" renewedFrom 0 in
  _ ← UpsertNodeCertificate (Some certMeta);
  _ ← match renewedFrom with
      | None => best_effort (CreateAuditEvent (issued_audit node certMeta))
      | Some renewed =>
        _ ← best_effort (ResolveCertificateExpiringAlert (N_TenantID node) (N_ID node));
        _ ← best_effort (ResolveCertificateRenewFailedAlert (N_TenantID node) (N_ID node));
        best_effort (CreateAuditEvent (renewed_audit node certMeta renewed))
      end;
  GetNodeCertificate (N_ID node).

(** ** Authorisation *)

Definition auth_error {A} (status : Z) (message : string) : M A :=
  fail (RegistrationAuthError status message).

Definition nodeRequiresFreshEnrollment (node : option Node) : bool :=
  match node with Some n => EqualFold (TrimSpace (N_Status n)) "deleted" | None => false end.
Definition nodeRegistrationForbidden (node : option Node) : bool :=
  match node with
  | Some n => one_of (ToLower (TrimSpace (N_Status n))) ["suspended"; "banned"]
  | None => false
  end.
Definition nodeCertificateRequestForbidden (node : Node) : bool :=
  one_of (ToLower (TrimSpace (N_Status node))) stopped_statuses.

Definition registrationMachineIDMatches (requestMachineID storedMachineID : string) : bool :=
  let requestMachineID := TrimSpace requestMachineID in
  let storedMachineID := TrimSpace storedMachineID in
  negb (requestMachineID =? "")%string && negb (storedMachineID =? "")%string
  && (requestMachineID =? storedMachineID)%string.

Definition ensureTenantActive (tenantID : UUID) : M unit :=
  r ← attempt (GetTenantStatus tenantID);
  match r with
  | Err ErrNoRows => auth_error StatusForbidden "Tenant is not active"
  | Err _ => auth_error StatusInternalServerError "Failed to verify tenant status"
  | Ok status =>
    if EqualFold (TrimSpace status) "active" then mret ()
    else auth_error StatusForbidden "Tenant is not active"
  end.

Definition validateEnrollmentTokenTenant (tokenValue : string) : M UUID :=
  v ← attempt (Validate tokenValue);
  match v with
  | Err ErrTokenNotFound => auth_error StatusUnauthorized "Invalid token"
  | Err ErrTokenExpired => auth_error StatusUnauthorized "Token expired"
  | Err ErrTokenExhausted => auth_error StatusUnauthorized "Token exhausted (max uses reached)"
  | Err ErrTokenRevoked => auth_error StatusUnauthorized "Token revoked"
  | Err _ => auth_error StatusUnauthorized "Invalid token"
  | Ok _ =>
    r ← attempt (GetTenantIDByToken tokenValue);
    match r with
    | Err _ => auth_error StatusInternalServerError "Failed to get tenant ID from token"
    | Ok tenantID => _ ← ensureTenantActive tenantID; mret tenantID
    end
  end.

(** The checks of a runtime token against the node of a request. *)
Definition check_claims (claims : RuntimeClaims) (node : Node) : M unit :=
  match uuid_Parse (cl_NodeID claims) with
  | None => auth_error StatusUnauthorized "Invalid runtime token node id"
  | Some tokenNodeID =>
    if negb (tokenNodeID =? N_ID node)%string
    then auth_error StatusForbidden "Runtime token node mismatch" else
    if (TrimSpace (cl_TenantID claims) =? "")%string
    then auth_error StatusUnauthorized "Runtime token tenant missing" else
    match uuid_Parse (cl_TenantID claims) with
    | None => auth_error StatusUnauthorized "Invalid runtime token tenant"
    | Some tokenTenantID =>
      if negb (tokenTenantID =? N_TenantID node)%string
      then auth_error StatusForbidden "Runtime token tenant mismatch" else mret ()
    end
  end.
Definition validateRegistrationRuntimeToken (runtimeToken : string) (existingNode : Node) : M unit :=
  v ← attempt (ValidateRuntimeToken secret runtimeToken);
  match v with
  | Err _ => auth_error StatusUnauthorized "Invalid runtime token"
  | Ok claims => check_claims claims existingNode
  end.

Definition authorizeRegistrationRequest (req : RegisterRequest) (existingNode : option Node)
    (runtimeToken : string) : M UUID :=
  if nodeRegistrationForbidden existingNode
  then auth_error StatusForbidden "Node registration is disabled" else
  match existingNode, nodeRequiresFreshEnrollment existingNode with
  | Some node, false =>
    if negb (TrimSpace runtimeToken =? "")%string then
      _ ← validateRegistrationRuntimeToken runtimeToken node;
      mret (N_TenantID node)
    else
    if (TrimSpace (rq_Token req) =? "")%string
    then auth_error StatusUnauthorized "Runtime token required" else
    tenantID ← validateEnrollmentTokenTenant (rq_Token req);
    if negb (tenantID =? N_TenantID node)%string
    then auth_error StatusForbidden "Node tenant ownership is immutable" else
    if negb (registrationMachineIDMatches (rq_MachineID req) (N_MachineID node))
    then auth_error StatusForbidden "Node machine identity mismatch" else mret tenantID
  | _, requiresFreshEnrollment =>
    if (TrimSpace (rq_Token req) =? "")%string
    then auth_error StatusUnauthorized "Token required" else
    tenantID ← validateEnrollmentTokenTenant (rq_Token req);
    let foreign := match existingNode with
      | Some node => requiresFreshEnrollment && negb (tenantID =? N_TenantID node)%string
      | None => false
      end in
    if foreign then auth_error StatusForbidden "Node tenant ownership is immutable"
    else mret tenantID
  end.

(** ** Registration *)

Definition previewString (value : string) (maxLen : Z) : string :=
  if (maxLen <=? 0) || (Z.of_nat (String.length value) <=? maxLen) then value
  else String.substring 0 (Z.to_nat maxLen) value.

Definition recordNodeRegistrationAudit (node : Node) (isReRegistration : bool) : M unit :=
  if (N_ID node =? uuid_Nil)%string || (N_TenantID node =? uuid_Nil)%string then mret () else
  let '(eventType, summary) :=
    if isReRegistration then ("node.reregistered", "Node re-registered")
    else ("node.registered", "Node registered") in
  best_effort (CreateAuditEvent (mkAuditEvent (N_TenantID node) (Some (N_ID node)) eventType "agent"
    summary
    (<["hostname" := JString (N_Hostname node)]> (<["assigned_ip" := JString (N_AssignedIP node)]>
     (<["public_key_prefix" := JString (previewString (N_PublicKey node) 8)]>
      (<["region" := JString (N_Region node)]>
       {["runtime_mode" := JString (N_RuntimeMode node)]})))))).

(** The public address and endpoint that are stored. *)
Definition registered_network (req : RegisterRequest) (publicIP : string) : string * string :=
  let p := NormalizePublicIPv4 (rq_PublicIP req) in
  let p := if (p =? "")%string then NormalizePublicIPv4 publicIP else p in
  let endpoint := NormalizePublicEndpoint (rq_Endpoint req) p in
  let p := if (p =? "")%string then (NormalizeReportedNetwork "" endpoint).1 else p in
  (p, endpoint).

(** The address of a node that has none yet: that of the tenant's node with the
    same host name, if it can be taken over. *)
Definition reused_address (hostname : string) (tenantID : UUID) : M (string * Z) :=
  if (tenantID =? uuid_Nil)%string then mret ("", 0) else
  r ← attempt (ReuseHostnameIP hostname tenantID);
  mret (match r with Ok a => a | Err _ => ("", 0) end).

(** An address that was found, or the next free one. *)
Definition assigned_address (found : string * Z) : M (string * Z) :=
  if (found.1 =? "")%string then
    ipOffset ← wrap "failed to get next offset" GetNextAvailableOffset;
    assignedIP ← wrap "failed to calculate IP" (lift (λ _, CalculateIP baseIP ipOffset));
    mret (assignedIP, ipOffset)
  else mret found.

Definition registration_tenant (existingNode : option Node) (requestedTenantID : UUID) : M UUID :=
  match existingNode with
  | Some node => mret (N_TenantID node)
  | None =>
    if negb (requestedTenantID =? uuid_Nil)%string then mret requestedTenantID
    else wrap "failed to assign default tenant" (GetOrCreateTenant "default")
  end.

Definition validateAdvertisedRouteConflicts (tenantID : UUID) (publicKey region : string)
    (routes : list string) : M unit :=
  match routes with
  | [] => mret ()
  | _ => FindTenantAdvertisedRouteConflict tenantID publicKey region routes
  end.

(** [%w] around the error of the route check: [errors.As] still finds a route
    conflict, and a message keeps the text of its cause. *)
Definition wrap_conflict {A} (msg : string) (m : M A) : M A := λ e st,
  match m e st with
  | (Ok a, st') => (Ok a, st')
  | (Err (RouteConflictError _ _ _ _ _ _ _ as x), st') => (Err x, st')
  | (Err (ErrorString cause), st') => (Err (ErrorString (msg +:+ ": " +:+ cause)), st')
  | (Err _, st') => (Err (ErrorString msg), st')
  end.
Lemma wrap_conflict_ok {A} msg (m : M A) e st a st' :
  wrap_conflict msg m e st = (Ok a, st') → m e st = (Ok a, st').
Proof. unfold wrap_conflict. destruct (m e st) as [[?|[]] ?]; congruence. Qed.
Lemma changes_wrap_conflict (R : DB → DB → Prop) {A} msg (m : M A) :
  changes R m → changes R (wrap_conflict msg m).
Proof.
  intros Hm e st. specialize (Hm e st). unfold wrap_conflict.
  by destruct (m e st) as [[?|[]] ?].
Qed.

(** The node that is saved. *)
Definition registered_node (req : RegisterRequest) (existingNode : option Node) (net : string * string)
    (address : string * Z) (routes : list string) (tenantID : UUID) (now : Time) : Node :=
  let role := match existingNode with
    | Some n => if negb (TrimSpace (N_Role n) =? "")%string then N_Role n else "agent"
    | None => "agent"
    end in
  mkNode (match existingNode with Some n => N_ID n | None => uuid_Nil end) (rq_PublicKey req)
    (rq_MachineID req) tenantID net.2 "" net.1 (rq_Region req) (rq_VPCID req) (rq_Hostname req)
    address.1 address.2 (unix now)
    (match existingNode with Some n => N_RegisteredAt n | None => rq_RegisteredAt req end)
    role (rq_RuntimeMode req) (rq_KernelVersion req) (rq_HasAESNI req) "" 0 routes
    (rq_Token req) 0 0.

(** [MarkNodeDeleted] after a step that failed; its own error is logged. *)
Definition roll_back {A} (undo : bool) (publicKey : string) (err : error) : M A :=
  _ ← (if undo then best_effort (MarkNodeDeleted publicKey) else mret ());
  fail err.

(** Consuming the enrolment token, and the certificate of a new node. *)
Definition consume_enrolment (req : RegisterRequest) (undo : bool) : M unit :=
  if (TrimSpace (rq_Token req) =? "")%string then mret () else
  r ← attempt (ConsumeToken (rq_Token req) (rq_PublicKey req));
  match r with
  | Ok _ => mret ()
  | Err _ => roll_back undo (rq_PublicKey req) (ErrorString "failed to consume enrollment token")
  end.
Definition first_certificate (req : RegisterRequest) (undo issued : bool) (node : Node) : M unit :=
  match certService with
  | Some service =>
    if negb (TrimSpace (rq_CSRPEM req) =? "")%string && negb issued then
      r ← attempt (issueNodeCertificate service node (rq_CSRPEM req) None);
      match r with
      | Ok _ => mret ()
      | Err _ => roll_back undo (rq_PublicKey req) (ErrorString "failed to issue node certificate")
      end
    else mret ()
  | None => mret ()
  end.

(** From the second lookup of the node on. *)
Definition complete_registration (req : RegisterRequest) (publicIP : string)
    (known fresh : bool) (requestedTenantID : UUID) : M string :=
  let net := registered_network req publicIP in
  existingNode ← or_nil (GetNode (rq_PublicKey req));
  let isReRegistration := match existingNode with Some _ => true | None => known end in
  let requiresFreshEnrollment :=
    match existingNode with Some _ => nodeRequiresFreshEnrollment existingNode | None => fresh end in
  let routes := match existingNode with
    | Some n => match rq_AdvertisedRoutes req with [] => N_AdvertisedRoutes n | l => l end
    | None => rq_AdvertisedRoutes req
    end in
  found ← match existingNode with
          | Some n => mret (N_AssignedIP n, N_IPOffset n)
          | None => reused_address (rq_Hostname req) requestedTenantID
          end;
  address ← assigned_address found;
  tenantID ← registration_tenant existingNode requestedTenantID;
  _ ← wrap_conflict "failed to validate advertised routes"
        (validateAdvertisedRouteConflicts tenantID (rq_PublicKey req) (rq_Region req) routes);
  now ← ask env_go_now;
  let node := registered_node req existingNode net address routes tenantID now in
  let undo := negb isReRegistration || requiresFreshEnrollment in
  let before := negb undo && negb (TrimSpace (rq_CSRPEM req) =? "")%string in
  issued ← match certService with
           | Some service =>
             if before then
               _ ← wrap "failed to issue node certificate"
                     (issueNodeCertificate service node (rq_CSRPEM req) None);
               mret true
             else mret false
           | None => mret false
           end;
  node ← wrap "failed to save node" (SaveNode (Some node));
  _ ← consume_enrolment req undo;
  _ ← first_certificate req undo issued node;
  _ ← recordNodeRegistrationAudit node isReRegistration;
  mret address.1.

Definition processRegistration (req : RegisterRequest) (publicIP : string) : M string :=
  existingNode ← or_nil (GetNode (rq_PublicKey req));
  requestedTenantID ← authorizeRegistrationRequest req existingNode (TrimSpace (rq_RuntimeToken req));
  complete_registration req publicIP (match existingNode with Some _ => true | None => false end)
    (nodeRequiresFreshEnrollment existingNode) requestedTenantID.

(** ** Certificate requests over HTTP *)

Record certificateIssueRequest := mkCertificateIssueRequest {
  cr_CSRPEM : string;
  cr_RuntimeToken : string;
  cr_Token : string;
}.

(** [authorization] is the header of the request. *)
Definition request_runtime_token (req : certificateIssueRequest) (authorization : string) : string :=
  let runtimeToken := TrimSpace (cr_RuntimeToken req) in
  if (runtimeToken =? "")%string then
    let authz := TrimSpace authorization in
    if HasPrefix (ToLower authz) "bearer " then TrimSpace (drop_prefix 7 authz) else ""
  else runtimeToken.

Definition resolveCertificateRequestNode (req : certificateIssueRequest) (authorization : string)
    : M Node :=
  let runtimeToken := request_runtime_token req authorization in
  if (runtimeToken =? "")%string then
    fail (ErrorString (if negb (cr_Token req =? "")%string
                       then "runtime_token is required for certificate issuance"
                       else "runtime_token is required"))
  else
    v ← attempt (ValidateRuntimeToken secret runtimeToken);
    match v with
    | Err _ => fail (ErrorString "invalid runtime token")
    | Ok claims =>
      match uuid_Parse (cl_NodeID claims) with
      | None => fail (ErrorString "invalid runtime token node id")
      | Some nodeID =>
        r ← or_nil (GetNodeByID nodeID);
        match r with
        | None => fail (ErrorString "node not found")
        | Some node =>
          if (TrimSpace (cl_TenantID claims) =? "")%string
          then fail (ErrorString "invalid runtime token tenant") else
          match uuid_Parse (cl_TenantID claims) with
          | None => fail (ErrorString "invalid runtime token tenant")
          | Some tokenTenantID =>
            if negb (tokenTenantID =? N_TenantID node)%string
            then fail (ErrorString "tenant mismatch") else
            if nodeCertificateRequestForbidden node
            then fail (ErrorString ("node access denied: current status is '"
                         +:+ ToLower (TrimSpace (N_Status node)) +:+ "'"))
            else mret node
          end
        end
      end
    end.

Definition recordCertificateRenewFailure (node : Node) (message : string) : M unit :=
  let hostname := if (TrimSpace (N_Hostname node) =? "")%string then N_ID node else N_Hostname node in
  _ ← best_effort (GenerateCertificateRenewFailedAlert (N_TenantID node) (N_ID node) hostname message);
  best_effort (CreateAuditEvent (mkAuditEvent (N_TenantID node) (Some (N_ID node))
    "certificate_renew_failed" "system" ("节点 " +:+ hostname +:+ " 证书续签失败")
    {["error" := JString message]})).

(** A renewal that is refused is recorded. *)
Definition refuse_renewal {A} (node : Node) (message : string) (status : Z) (text : string) : M A :=
  _ ← recordCertificateRenewFailure node message;
  auth_error status text.

(** The certificate a renewal starts from. *)
Definition renewal_source (node : Node) : M UUID :=
  r ← attempt (GetNodeCertificate (N_ID node));
  match r with
  | Err _ => refuse_renewal node "failed to load current certificate" StatusInternalServerError
               "Failed to load current certificate"
  | Ok None => refuse_renewal node "no existing certificate to renew" StatusNotFound
                 "No existing certificate to renew"
  | Ok (Some existing) =>
    if EqualFold (TrimSpace (nc_Status existing)) CertStatusIssued then mret (nc_ID existing)
    else refuse_renewal node "current certificate is not eligible for renewal" StatusConflict
           "Current certificate is not eligible for renewal"
  end.

(** [handleIssueOrRenewCertificate] on a decoded POST request; the text of an
    error that a renewal records is left out. *)
Definition handleIssueOrRenewCertificate (req : certificateIssueRequest) (authorization : string)
    (isRenew : bool) : M (Node * option NodeCertificate) :=
  match certService with
  | None => auth_error StatusServiceUnavailable "Certificate issuance is not enabled"
  | Some service =>
    if (cr_CSRPEM req =? "")%string then auth_error StatusBadRequest "csr_pem is required" else
    n ← attempt (resolveCertificateRequestNode req authorization);
    match n with
    | Err _ => auth_error StatusUnauthorized "unauthorized"
    | Ok node =>
      renewedFrom ← (if isRenew then id ← renewal_source node; mret (Some id) else mret None);
      r ← attempt (issueNodeCertificate service node (cr_CSRPEM req) renewedFrom);
      match r with
      | Ok cert => mret (node, cert)
      | Err _ =>
        _ ← (if isRenew then recordCertificateRenewFailure node "" else mret ());
        auth_error StatusInternalServerError "Failed to issue certificate"
      end
    end
  end.
End registration.
