(* ===== verification/RegistrationSpec.v ===== *)
(** * What registration promises

    Who may register a node, what a registration that succeeds leaves behind, and
    two ways in which it falls short. *)

From S2P Require Import Prelude GoStr Netip Records Store Events Tokens TokensSpec ControlState AgentCommands PolicySync CommandLifecycle Nodes NodesSpec Addressing Lifecycle PublicNetwork Routes RuntimeAuth Tenants Registration.

Open Scope Z_scope.

(** ** Authorisation *)

(** [Validate] of a token that is accepted. *)
Lemma Validate_ok s e st t st' :
  Validate s e st = (Ok t, st') →
  st_db st' = st_db st ∧
  ∃ id r, token_row s (st_db st) = Some (id, r) ∧ t = scanToken (id, r) ∧
    (tk_status r ∉ [StatusRevoked; StatusExpired; StatusExhausted]) ∧
    env_go_now e ≤ tk_expires_at r ∧
    (tk_max_uses r ≤ 0 ∨ tk_used_count r < tk_max_uses r).
Proof.
  unfold Validate. destruct (s =? "")%string; [done|]. intros Hr.
  apply bind_ok in Hr as (o & st1 & Ho & Hr). apply wrap_ok, query_ok in Ho as [-> Hdb].
  fold (token_row s (st_db st)) in Hr.
  destruct (token_row s (st_db st)) as [[id r]|] eqn:Ht; [|done].
  cbn [fmap option_fmap option_map scanToken tok_Status tok_MaxUses tok_ExpiresAt tok_UsedCount
    tok_ID fst snd] in Hr.
  destruct (_ =? StatusRevoked)%string eqn:H1; [done|].
  destruct (_ =? StatusExpired)%string eqn:H2; [done|].
  destruct (_ =? StatusExhausted)%string eqn:H3; [done|].
  unfold ask in Hr. unfold mbind at 1, M_bind at 1 in Hr.
  destruct (tk_expires_at r <? env_go_now e) eqn:H4; [by rewrite best_effort_fail in Hr|].
  destruct (_ && _) eqn:H5; [by rewrite best_effort_fail in Hr|].
  injection Hr as <- <-. split; [done|]. exists id, r. bools. split_and!; try done.
  - set_solver.
  - apply andb_false_iff in H5 as [?|?]; bools; lia.
Qed.

(** An enrolment token that opens a tenant. *)
Definition opens (db : DB) (now : Time) (token : string) (tenantID : UUID) : Prop :=
  ∃ id r t, token_row token db = Some (id, r) ∧ default uuid_Nil (tk_tenant_id r) = tenantID ∧
    (tk_status r ∉ [StatusRevoked; StatusExpired; StatusExhausted]) ∧
    now ≤ tk_expires_at r ∧ (tk_max_uses r ≤ 0 ∨ tk_used_count r < tk_max_uses r) ∧
    tenants db !! tenantID = Some t ∧
    EqualFold (TrimSpace (TrimSpace (default "" (t_status t)))) "active" = true.

Lemma validateEnrollmentTokenTenant_ok token e st t st' :
  validateEnrollmentTokenTenant token e st = (Ok t, st') →
  st_db st' = st_db st ∧ opens (st_db st) (env_go_now e) token t.
Proof.
  unfold validateEnrollmentTokenTenant, auth_error. intros Hr.
  apply bind_ok in Hr as (v & st1 & Hv & Hr). unfold attempt in Hv.
  destruct (Validate token e st) as [[tok|x] st1'] eqn:Hval; injection Hv as <- <-;
    [|by destruct x].
  apply Validate_ok in Hval as (Hdb1 & id & r & Htok & _ & Hst & Hexp & Huse).
  apply bind_ok in Hr as (g & st2 & Hg & Hr). unfold attempt in Hg.
  destruct (GetTenantIDByToken token e st1') as [[tid|x] st2'] eqn:Hget; injection Hg as <- <-; [|done].
  apply query_row_ok in Hget as [Hget Hdb2]. rewrite Hdb1 in Hget.
  change (head _) with (token_row token (st_db st)) in Hget. rewrite Htok in Hget.
  injection Hget as <-.
  apply bind_ok in Hr as (u & st3 & Ha & [= <- <-]).
  unfold ensureTenantActive, auth_error, attempt in Ha. unfold mbind, M_bind in Ha.
  destruct (GetTenantStatus _ e st2') as [[s|x] st4] eqn:Hs; [|by destruct x].
  apply GetTenantStatus_ok in Hs as (Hdb4 & row & Hrow & ->).
  destruct (EqualFold _ _) eqn:Hact; [|done]. injection Ha as _ <-.
  split; [congruence|]. exists id, r, row. rewrite Hdb2, Hdb1 in Hrow. by split_and!.
Qed.

(** A runtime token that speaks for a node. *)
Definition speaks_for `{JWT} secret (parse : string → option UUID) (e : Env) (token : string)
    (node : Node) : Prop :=
  ∃ claims st, ValidateRuntimeToken secret token e st = (Ok claims, st) ∧
    parse (cl_NodeID claims) = Some (N_ID node) ∧
    parse (cl_TenantID claims) = Some (N_TenantID node).

Lemma validateRegistrationRuntimeToken_ok `{JWT} secret parse token node e st u st' :
  validateRegistrationRuntimeToken secret parse token node e st = (Ok u, st') →
  st' = st ∧ speaks_for secret parse e token node.
Proof.
  unfold validateRegistrationRuntimeToken, check_claims, auth_error, attempt, mbind, M_bind.
  destruct (ValidateRuntimeToken secret token e st) as [[claims|x] st1] eqn:Hv; [|done].
  pose proof (ValidateRuntimeToken_st _ _ _ _ _ _ Hv) as ->.
  destruct (parse (cl_NodeID claims)) as [id|] eqn:Hid; [|done].
  destruct (id =? N_ID node)%string eqn:H1; [|done]. simpl.
  destruct (_ =? "")%string; [done|].
  destruct (parse (cl_TenantID claims)) as [tid|] eqn:Htid; [|done].
  destruct (tid =? N_TenantID node)%string eqn:H2; [|done]. intros [= _ <-]. bools. subst.
  split; [done|]. by exists claims, st.
Qed.

(** What allows a registration in a tenant. *)
Definition may_register `{JWT} secret parse (e : Env) (db : DB) (req : RegisterRequest)
    (existing : option Node) (runtimeToken : string) (tenantID : UUID) : Prop :=
  nodeRegistrationForbidden existing = false ∧
  match existing with
  | None => opens db (env_go_now e) (rq_Token req) tenantID
  | Some node =>
    tenantID = N_TenantID node ∧
    if nodeRequiresFreshEnrollment existing
    then opens db (env_go_now e) (rq_Token req) tenantID
    else speaks_for secret parse e runtimeToken node ∨
         (opens db (env_go_now e) (rq_Token req) tenantID ∧
          registrationMachineIDMatches (rq_MachineID req) (N_MachineID node) = true)
  end.

(** The decision, for the record of the node it is handed; no table changes. *)
Lemma authorizeRegistrationRequest_sound `{JWT} secret parse req existing token e st tenantID st' :
  authorizeRegistrationRequest secret parse req existing token e st = (Ok tenantID, st') →
  st_db st' = st_db st ∧ may_register secret parse e (st_db st) req existing token tenantID.
Proof.
  unfold authorizeRegistrationRequest, may_register, auth_error.
  destruct (nodeRegistrationForbidden existing); [done|].
  destruct existing as [node|].
  - destruct (nodeRequiresFreshEnrollment (Some node)); intros Hr.
    + destruct (_ =? "")%string; [done|].
      apply bind_ok in Hr as (t & st1 & [Hdb Ho]%validateEnrollmentTokenTenant_ok & Hr).
      destruct (t =? N_TenantID node)%string eqn:Ht; [|done]. injection Hr as <- <-. by bools.
    + destruct (TrimSpace token =? "")%string; simpl in Hr.
      * destruct (TrimSpace (rq_Token req) =? "")%string; [done|].
        apply bind_ok in Hr as (t & st1 & [Hdb Ho]%validateEnrollmentTokenTenant_ok & Hr).
        destruct (t =? N_TenantID node)%string eqn:Ht; [|done]. simpl in Hr.
        destruct (registrationMachineIDMatches _ _) eqn:Hm; [|done]. injection Hr as <- <-.
        bools. split_and!; try done. by right.
      * apply bind_ok in Hr as (u & st1 & [-> Hs]%validateRegistrationRuntimeToken_ok & [= <- <-]).
        split_and!; try done. by left.
  - destruct (_ =? "")%string; [done|]. intros Hr.
    apply bind_ok in Hr as (t & st1 & [Hdb Ho]%validateEnrollmentTokenTenant_ok & [= <- <-]).
    by split_and!.
Qed.

(** ** A stopped node *)

Lemma or_nil_run {A} (f : Env → DB → option A) e st :
  env_fault e (st_tick st) = false →
  or_nil (query f) e st = (Ok (f e (st_db st)), mkSt (st_db st) (S (st_tick st))).
Proof.
  intros Hf. unfold or_nil, attempt, query, stmt, stmt_rows, mbind, M_bind. by rewrite Hf.
Qed.

(** A suspended or banned node is refused: when its row can be read, a
    registration under its public key returns Forbidden before anything else,
    whatever tokens it presents, and changes no table. *)
Theorem stopped_node_not_registered `{JWT, X509} secret parse baseIP certService serial
    req publicIP e st id r s :
  env_fault e (st_tick st) = false →
  node_by_key (st_db st) (rq_PublicKey req) = Some (id, r) → n_status r = Some s →
  s = "suspended" ∨ s = "banned" →
  processRegistration secret parse baseIP certService serial req publicIP e st =
  (Err (RegistrationAuthError StatusForbidden "Node registration is disabled"),
   mkSt (st_db st) (S (st_tick st))).
Proof.
  intros Hf Hk Hst Hs. unfold processRegistration, GetNode.
  rewrite (bind_run _ _ e st _ _ (or_nil_run _ e st Hf)), Hk.
  cbn [fmap option_fmap option_map fst snd].
  unfold mbind, M_bind, authorizeRegistrationRequest.
  assert (nodeRegistrationForbidden (Some (scanNode id r)) = true) as ->.
  { simpl. rewrite Hst. simpl. destruct Hs as [-> | ->]; reflexivity. }
  reflexivity.
Qed.

(** ** What a registration leaves behind *)

Section frames.
Context `{JWT, X509}.

Lemma audit_frame {T} (f : DB → T) ev :
  (∀ db db', same_core db db' → f db' = f db) → changes (same f) (CreateAuditEvent ev).
Proof. intros Hf. eapply changes_weaken; [exact Hf|apply CreateAuditEvent_logs]. Qed.
Lemma clear_frame {T} (f : DB → T) t n ty :
  (∀ db db', same_core db db' → f db' = f db) → changes (same f) (clear_alert t n ty).
Proof. intros Hf. eapply changes_weaken; [exact Hf|apply clear_alert_logs]. Qed.

Lemma core_tokens db db' : same_core db db' → tokens db' = tokens db.
Proof. intros Hc. apply Hc. Qed.
Lemma core_nodes db db' : same_core db db' → nodes db' = nodes db.
Proof. intros Hc. apply Hc. Qed.

Lemma fail_incomplete_tokens key message :
  changes (same tokens) (failIncompleteAgentCommandsForNodeTx key message).
Proof. unfold failIncompleteAgentCommandsForNodeTx. frames. Qed.
Lemma reused_address_tokens hostname t : changes (same tokens) (reused_address hostname t).
Proof.
  pose proof fail_incomplete_tokens.
  unfold reused_address, ReuseHostnameIP, set_status_by_key, update_nodes, revokeNodeCertificatesTx.
  frames.
Qed.
Lemma fail_incomplete_identity key message :
  changes (same node_identity) (failIncompleteAgentCommandsForNodeTx key message).
Proof. unfold failIncompleteAgentCommandsForNodeTx. frames. Qed.
Lemma reused_address_identity hostname t : changes (same node_identity) (reused_address hostname t).
Proof.
  pose proof fail_incomplete_identity.
  unfold reused_address, ReuseHostnameIP, set_status_by_key, revokeNodeCertificatesTx. frames.
Qed.
Lemma assigned_address_identity baseIP found : changes (same node_identity) (assigned_address baseIP found).
Proof.
  unfold assigned_address, GetNextAvailableOffset, lock_next_offset, take_free_offset,
    next_free_offset, set_next_offset. frames.
Qed.
Lemma registration_tenant_identity existing t : changes (same node_identity) (registration_tenant existing t).
Proof. unfold registration_tenant, GetOrCreateTenant, GetOrCreateTenantByCode. frames. Qed.
Lemma core_identity db db' : same_core db db' → node_identity db' = node_identity db.
Proof. intros Hc. unfold node_identity. by rewrite (core_nodes _ _ Hc). Qed.
Lemma assigned_address_tokens baseIP found : changes (same tokens) (assigned_address baseIP found).
Proof.
  unfold assigned_address, GetNextAvailableOffset, lock_next_offset, take_free_offset,
    next_free_offset, set_next_offset. frames.
Qed.
Lemma registration_tenant_tokens existing t : changes (same tokens) (registration_tenant existing t).
Proof. unfold registration_tenant, GetOrCreateTenant, GetOrCreateTenantByCode. frames. Qed.
Lemma route_conflicts_same t key region routes :
  changes same_db (validateAdvertisedRouteConflicts t key region routes).
Proof. unfold validateAdvertisedRouteConflicts, FindTenantAdvertisedRouteConflict. frames. Qed.
Lemma IssueFromCSR_same {T} (f : DB → T) service serial csr :
  changes (same f) (IssueFromCSR service serial csr).
Proof. unfold IssueFromCSR. frames. Qed.
Lemma issueNodeCertificate_frame {T} (f : DB → T) serial service node csr from :
  (∀ db db', same_core db db' → f db' = f db) →
  (∀ db m, f (set_certs m db) = f db) →
  changes (same f) (issueNodeCertificate serial service node csr from).
Proof.
  intros Hc Hs. pose proof (IssueFromCSR_same f). pose proof (audit_frame f). pose proof (clear_frame f).
  unfold issueNodeCertificate, GetNodeCertificate, ResolveCertificateExpiringAlert,
    ResolveCertificateRenewFailedAlert. chg.
  all: apply (changes_stmt (same f)); intros ? ? ? ? ? Hr; cbv zeta in Hr;
    destruct (negb _) in Hr; [done|]; injection Hr as _ <-; apply Hs.
Qed.
Lemma recordAudit_frame {T} (f : DB → T) node re :
  (∀ db db', same_core db db' → f db' = f db) → changes (same f) (recordNodeRegistrationAudit node re).
Proof. intros Hc. pose proof (audit_frame f). unfold recordNodeRegistrationAudit. chg. Qed.
End frames.

Lemma same_run {A T} (f : DB → T) (m : M A) e st r st' :
  changes (same f) m → m e st = (r, st') → f (st_db st') = f (st_db st).
Proof. intros Hm Hr. specialize (Hm e st). by rewrite Hr in Hm. Qed.

Lemma or_nil_query_ok {A} (f : Env → DB → option A) e st a st' :
  or_nil (query f) e st = (Ok a, st') → a = f e (st_db st) ∨ a = None.
Proof.
  unfold or_nil. intros (r & st1 & Hr & Ha)%bind_ok. unfold attempt in Hr.
  destruct (query f e st) as [[b|x] st2] eqn:Hq; injection Hr as <- <-; injection Ha as <- _; [|by right].
  apply query_ok in Hq as [-> _]. by left.
Qed.
Lemma GetNode_same {T} (f : DB → T) key : changes (same f) (or_nil (GetNode key)).
Proof. unfold or_nil, GetNode. frames. Qed.

Lemma ConsumeToken_nodes s d : changes (same nodes) (ConsumeToken s d).
Proof.
  unfold ConsumeToken, IncrementUsage, inactive_reason, Validate, GetByToken, UpdateStatus,
    set_token_status. frames.
Qed.

Lemma SaveNode_row node e st saved st' :
  SaveNode (Some node) e st = (Ok saved, st') →
  tokens (st_db st') = tokens (st_db st) ∧
  ∃ r, nodes (st_db st') !! N_ID saved = Some r ∧ n_public_key r = N_PublicKey node ∧
    n_status r = Some "online" ∧ n_assigned_ip r = N_AssignedIP node.
Proof.
  intros (Hs & _ & _)%stmt_ok.
  destruct (node_by_key (st_db st) (N_PublicKey node)) as [[id old]|] eqn:Hk.
  - injection Hs as <- <-. apply node_by_key_Some in Hk as [Hold Hkey]. split; [done|].
    eexists. simpl. rewrite lookup_insert_eq. by split_and!.
  - destruct (node_exists _ _); [done|]. destruct (negb _); [done|].
    injection Hs as <- <-. split; [done|]. eexists. simpl. rewrite lookup_insert_eq. by split_and!.
Qed.

(** The last steps, when they succeed. *)
Lemma consume_enrolment_nodes req undo e st u st' :
  consume_enrolment req undo e st = (Ok u, st') → nodes (st_db st') = nodes (st_db st).
Proof.
  unfold consume_enrolment. destruct (_ =? "")%string; [intros [= _ <-]; done|].
  intros (r & st1 & Hc & Hr)%bind_ok. unfold attempt in Hc.
  destruct (ConsumeToken _ _ e st) as [[v|x] st2] eqn:Hct; injection Hc as <- <-.
  - injection Hr as _ <-. by eapply (same_run nodes), Hct; apply ConsumeToken_nodes.
  - unfold roll_back in Hr. by apply bind_ok in Hr as (? & ? & _ & Hr).
Qed.
Lemma consume_enrolment_ok L req undo e st u st' :
  models L (st_db st) → consume_enrolment req undo e st = (Ok u, st') →
  if (TrimSpace (rq_Token req) =? "")%string then models L (st_db st') else
  ∃ t t', L !! rq_Token req = Some t ∧ spend t = Some t' ∧
          models (<[rq_Token req := t']> L) (st_db st').
Proof.
  intros HL. unfold consume_enrolment.
  destruct (_ =? "")%string; [intros [= _ <-]; done|].
  intros (r & st1 & Hc & Hr)%bind_ok. unfold attempt in Hc.
  destruct (ConsumeToken _ _ e st) as [[v|x] st2] eqn:Hct; injection Hc as <- <-.
  - injection Hr as _ <-. exact (ConsumeToken_sim _ _ _ _ _ _ _ HL Hct).
  - unfold roll_back in Hr. by apply bind_ok in Hr as (? & ? & _ & Hr).
Qed.
Lemma first_certificate_ok `{X509} {T} (f : DB → T) cs serial req undo issued node e st u st' :
  (∀ db db', same_core db db' → f db' = f db) → (∀ db m, f (set_certs m db) = f db) →
  first_certificate cs serial req undo issued node e st = (Ok u, st') →
  f (st_db st') = f (st_db st).
Proof.
  intros Hc Hs. unfold first_certificate.
  destruct cs as [service|]; [|by intros [= _ <-]].
  destruct (_ && _); [|by intros [= _ <-]].
  intros (r & st1 & Ha & Hr)%bind_ok. unfold attempt in Ha.
  destruct (issueNodeCertificate _ _ _ _ _ e st) as [[v|x] st2] eqn:Hi; injection Ha as <- <-.
  - injection Hr as _ <-. eapply (same_run f), Hi. by apply issueNodeCertificate_frame.
  - unfold roll_back in Hr. by apply bind_ok in Hr as (? & ? & _ & Hr).
Qed.

Lemma authorizeRegistrationRequest_same `{JWT} secret parse req ex tok e st tid st' :
  authorizeRegistrationRequest secret parse req ex tok e st = (Ok tid, st') → st_db st' = st_db st.
Proof.
  unfold authorizeRegistrationRequest, auth_error. intros Ha.
  repeat (case_match; try done); repeat (apply bind_ok in Ha as (? & ? & Hs & Ha));
    repeat (case_match; try done);
    try (apply validateEnrollmentTokenTenant_ok in Hs as [Hs _]);
    try (apply validateRegistrationRuntimeToken_ok in Hs as [-> _]);
    unfold mret, M_ret in Ha; simplify_eq/=; done.
Qed.

(** A registration that succeeds saves the node, then consumes the token; the
    steps around these two leave nodes and tokens alone. *)
Lemma processRegistration_steps `{JWT, X509} secret parse baseIP certService serial req publicIP e st ip st' :
  processRegistration secret parse baseIP certService serial req publicIP e st = (Ok ip, st') →
  ∃ node saved undo st1 st2 st3 u, tokens (st_db st1) = tokens (st_db st) ∧
    SaveNode (Some node) e st1 = (Ok saved, st2) ∧
    N_PublicKey node = rq_PublicKey req ∧ N_AssignedIP node = ip ∧
    same node_identity (st_db st) (st_db st1) ∧
    (∃ existing sta tid stb, or_nil (GetNode (rq_PublicKey req)) e st = (Ok existing, sta) ∧
       authorizeRegistrationRequest secret parse req existing (TrimSpace (rq_RuntimeToken req)) e sta = (Ok tid, stb) ∧
       (tid ≠ uuid_Nil → node_by_key (st_db st) (rq_PublicKey req) = None → N_TenantID node = tid)) ∧
    consume_enrolment req undo e st2 = (Ok u, st3) ∧
    tokens (st_db st') = tokens (st_db st3) ∧ nodes (st_db st') = nodes (st_db st3).
Proof.
  unfold processRegistration. intros (ex0 & st1 & H1 & Hr)%bind_ok.
  assert (st_db st1 = st_db st) as Hdb1.
  { exact (same_run (λ db, db) _ _ _ _ _ (GetNode_same _ _) H1). }
  apply bind_ok in Hr as (tid & st2 & Ha & Hr).
  pose proof (authorizeRegistrationRequest_same _ _ _ _ _ _ _ _ _ Ha) as Hdb2.
  unfold complete_registration in Hr.
  apply bind_ok in Hr as (ex & st3 & H3 & Hr). apply bind_ok in Hr as (found & st4 & H4 & Hr).
  apply bind_ok in Hr as (address & st5 & H5 & Hr). apply bind_ok in Hr as (tenantID & st6 & H6 & Hr).
  apply bind_ok in Hr as (u7 & st7 & H7 & Hr). apply bind_ok in Hr as (now & st8 & H8 & Hr).
  cbv zeta in Hr.
  apply bind_ok in Hr as (issued & st9 & H9 & Hr). apply bind_ok in Hr as (node & st10 & H10 & Hr).
  apply bind_ok in Hr as (u11 & st11 & H11 & Hr). apply bind_ok in Hr as (u12 & st12 & H12 & Hr).
  apply bind_ok in Hr as (u13 & st13 & H13 & Hr). injection Hr as <- <-. apply wrap_ok in H10.
  eexists _, node, _, st9, st10, st11, u11. split; [|split; [exact H10|]].
  - apply (same_run tokens) in H3; [|apply GetNode_same].
    apply (same_run tokens) in H4; [|destruct ex; [chg|apply reused_address_tokens]].
    apply (same_run tokens) in H5; [|apply assigned_address_tokens].
    apply (same_run tokens) in H6; [|apply registration_tenant_tokens].
    apply wrap_conflict_ok, (same_run (λ db, db)) in H7; [|apply route_conflicts_same].
    injection H8 as _ <-.
    apply (same_run tokens) in H9;
      [|pose proof (λ s n c f, issueNodeCertificate_frame tokens serial s n c f core_tokens (λ _ _, eq_refl)); chg].
    congruence.
  - split_and!; [done|done| | |exact H11|..].
    + apply (same_run node_identity) in H3; [|apply GetNode_same].
      apply (same_run node_identity) in H4; [|destruct ex; [chg|apply reused_address_identity]].
      apply (same_run node_identity) in H5; [|apply assigned_address_identity].
      apply (same_run node_identity) in H6; [|apply registration_tenant_identity].
      apply wrap_conflict_ok, (same_run (λ db, db)) in H7; [|apply route_conflicts_same].
      injection H8 as _ <-.
      apply (same_run node_identity) in H9;
        [|pose proof (λ s n c f, issueNodeCertificate_frame node_identity serial s n c f core_identity (λ _ _, eq_refl)); chg].
      unfold same. congruence.
    + exists ex0, st1, tid, st2. split_and!; [done|done|]. intros Hnil Hnone.
      apply or_nil_query_ok in H3. rewrite Hdb2, Hdb1, Hnone in H3.
      assert (ex = None) as -> by (by destruct H3). cbn [registration_tenant] in H6.
      rewrite (proj2 (String.eqb_neq _ _) Hnil) in H6. by injection H6 as <- _.
    + rewrite (same_run tokens _ _ _ _ _ (recordAudit_frame tokens _ _ core_tokens) H13).
      exact (first_certificate_ok tokens _ _ _ _ _ _ _ _ _ _ core_tokens (λ _ _, eq_refl) H12).
    + rewrite (same_run nodes _ _ _ _ _ (recordAudit_frame nodes _ _ core_nodes) H13).
      exact (first_certificate_ok nodes _ _ _ _ _ _ _ _ _ _ core_nodes (λ _ _, eq_refl) H12).
Qed.
(** So the node is in service afterwards. *)
Lemma processRegistration_online `{JWT, X509} secret parse baseIP certService serial req publicIP e st ip st' :
  processRegistration secret parse baseIP certService serial req publicIP e st = (Ok ip, st') →
  ∃ id r, nodes (st_db st') !! id = Some r ∧ n_public_key r = rq_PublicKey req ∧
    n_status r = Some "online" ∧ n_assigned_ip r = ip.
Proof.
  intros (node & saved & undo & st1 & st2 & st3 & u & _ & Hs & Hk & Ha & _ & _ & Hc & _ & Hn)%processRegistration_steps.
  apply SaveNode_row in Hs as (_ & r & Hr & Hkey & Hst & Hip). exists (N_ID saved), r.
  rewrite Hn, (consume_enrolment_nodes _ _ _ _ _ _ Hc). split_and!; congruence.
Qed.

(** C8. A registration that succeeds puts the node in service and pays for it:
    whichever statements failed on the way, the node with the request's public key
    is online under the address that is returned, and a request with an enrolment
    token has spent exactly one use of that token in the ledger of tokens, while
    every other token is untouched. *)
Theorem registration_enrols `{JWT, X509} secret parse baseIP certService serial L req publicIP e st ip st' :
  models L (st_db st) →
  processRegistration secret parse baseIP certService serial req publicIP e st = (Ok ip, st') →
  (∃ id r, nodes (st_db st') !! id = Some r ∧ n_public_key r = rq_PublicKey req ∧
     n_status r = Some "online" ∧ n_assigned_ip r = ip) ∧
  if (TrimSpace (rq_Token req) =? "")%string then models L (st_db st') else
  ∃ t t', L !! rq_Token req = Some t ∧ spend t = Some t' ∧
          models (<[rq_Token req := t']> L) (st_db st').
Proof.
  intros HL Hr. split; [by eapply processRegistration_online|].
  apply processRegistration_steps in Hr
    as (node & saved & undo & st1 & st2 & st3 & u & Ht1 & Hs & _ & _ & _ & _ & Hc & Ht & _).
  apply SaveNode_row in Hs as [Ht2 _].
  assert (models L (st_db st2)) as HL2 by (eapply models_ext; [|exact HL]; congruence).
  pose proof (consume_enrolment_ok _ _ _ _ _ _ _ HL2 Hc) as Htok.
  destruct (TrimSpace (rq_Token req) =? "")%string.
  - eapply models_ext; [|exact Htok]. congruence.
  - destruct Htok as (t & t' & Hl & Hsp & Hm). exists t, t'. split_and!; try done.
    eapply models_ext; [|exact Hm]. congruence.
Qed.

(** The row that is saved, and its tenant. *)
Lemma SaveNode_tenant node e st saved st' :
  SaveNode (Some node) e st = (Ok saved, st') →
  ∃ r, nodes (st_db st') !! N_ID saved = Some r ∧ n_public_key r = N_PublicKey node ∧
    n_tenant_id r = match node_by_key (st_db st) (N_PublicKey node) with
                    | Some (_, old) => n_tenant_id old | None => N_TenantID node end.
Proof.
  intros (Hs & _ & _)%stmt_ok.
  destruct (node_by_key (st_db st) (N_PublicKey node)) as [[id old]|] eqn:Hk.
  - injection Hs as <- <-. apply node_by_key_Some in Hk as [Hold Hkey].
    eexists. simpl. rewrite lookup_insert_eq. by split_and!.
  - destruct (node_exists _ _); [done|]. destruct (negb _); [done|].
    injection Hs as <- <-. eexists. simpl. rewrite lookup_insert_eq. by split_and!.
Qed.

(** C23. A registration is authorised only with a credential for its tenant: when
    the lookup of the node by the key of the request does not fail, a registration
    that succeeds leaves the node with that key in a tenant (the nil identifier left
    aside), and neither suspended nor banned was it before.  A known node keeps its
    identifier and tenant; unless it was deleted it came with a runtime token that
    names it, or with its machine id and an enrolment token of that tenant.  A deleted
    or unknown node came with an enrolment token of the tenant.  Such a token is
    usable and its tenant is active.  (When that lookup fails its error is dropped
    and a known node passes for an unknown one:
    [failed_lookup_revives_suspended_node].) *)
Theorem registration_authorised `{JWT, X509} secret parse baseIP certService serial req publicIP e st ip st' :
  keys_unique (st_db st) → env_fault e (st_tick st) = false →
  processRegistration secret parse baseIP certService serial req publicIP e st = (Ok ip, st') →
  let existing := (λ kn, scanNode kn.1 kn.2) <$> node_by_key (st_db st) (rq_PublicKey req) in
  ∃ tenantID, may_register secret parse e (st_db st) req existing (TrimSpace (rq_RuntimeToken req)) tenantID ∧
    (tenantID ≠ uuid_Nil → ∃ id r, nodes (st_db st') !! id = Some r ∧ n_public_key r = rq_PublicKey req ∧
       n_tenant_id r = tenantID ∧ (∀ node, existing = Some node → id = N_ID node)).
Proof.
  intros Hu Hf Hr existing.
  apply processRegistration_steps in Hr
    as (node & saved & undo & st1 & st2 & st3 & u & _ & Hs & Hk & _ & Hid & (ex & sta & tid & stb & Hget & Hauth & Htid) & Hc & _ & Hn).
  unfold GetNode in Hget. rewrite or_nil_run in Hget by done. injection Hget as <- <-. fold existing in Hauth.
  apply authorizeRegistrationRequest_sound in Hauth as [_ Hmay]. exists tid. split; [exact Hmay|]. intros Hnil.
  pose proof Hs as Hs'. apply SaveNode_tenant in Hs as (r & Hr & Hkey & Ht). rewrite Hk in *.
  exists (N_ID saved), r. rewrite Hn, (consume_enrolment_nodes _ _ _ _ _ _ Hc).
  split; [done|split; [done|]]. destruct (node_by_key (st_db st1) (rq_PublicKey req)) as [[id old]|] eqn:Hold.
  - destruct (node_by_key_identity _ _ _ _ _ Hu Hid Hold) as (r0 & Hr0 & Ht0).
    unfold existing in *. rewrite Hr0 in Hmay |- *. destruct Hmay as (_ & -> & _). cbn. split; [congruence|].
    intros ? [= <-]. cbn. apply stmt_ok in Hs' as (Hs' & _). rewrite Hk, Hold in Hs'. by injection Hs' as <- _.
  - pose proof (node_by_key_identity_None _ _ _ Hid Hold) as Hnone. rewrite Ht. split; [by apply Htid|].
    unfold existing. by rewrite Hnone.
Qed.

(** ** Concrete registrations *)

(** An authority that signs every request. *)
#[local] Instance signs_all : X509 := {|
  csr := string;
  parse_csr := Ok;
  create_certificate c serial _ _ := Ok (serial +:+ c);
|}.
#[local] Instance sample_jwt : JWT := one_token_jwt sample_claims.
Definition sample_service : CertService := mkCertService "ca" 1000 100.

Definition enrol_token : TokenRow :=
  mkTokenRow "tk_00" "edge" (Some "t1") 3 0 100 0 "admin" "active" None None.
(** A tenant with one node, in the given status, and an enrolment token. *)
Definition enrol_db (status : string) : DB :=
  empty_db
    <| tenants := {["t1" := mkTenantRow "T" None None None (Some "active") None 0 0]} |>
    <| nodes := {["n1" := sample_node "k1" status 2 0]} |>
    <| tokens := {["id1" := enrol_token]} |>.
Definition sample_request (key hostname token runtimeToken : string) : RegisterRequest :=
  mkRegisterRequest key "" "" "" "eu" "" hostname "m1" 5 token runtimeToken [] "ebpf" "6.1" true "csr".
(** A registration against this controller. *)
Definition sample_register (req : RegisterRequest) : M string :=
  processRegistration "secret" known_uuids "100.64.0.0" (Some sample_service) (Ok "01") req "".

Lemma registration_authorised_witness :
  let st := mkSt (enrol_db "online") 0 in
  let req := sample_request "k1" "edge" "tk_00" "" in
  ∃ st', sample_register req (env_at 9) st = (Ok "100.64.0.2", st') ∧
    ∃ tenantID, may_register "secret" known_uuids (env_at 9) (enrol_db "online") req
      (Some (scanNode "n1" (sample_node "k1" "online" 2 0))) "" tenantID.
Proof.
  intros st req.
  assert ((sample_register req (env_at 9) st).1 = Ok "100.64.0.2") as Hok by (vm_compute; reflexivity).
  destruct (sample_register req (env_at 9) st) as [res st'] eqn:Hrun.
  cbn [fst] in Hok. rewrite Hok in Hrun |- *. exists st'. split; [reflexivity|].
  unfold sample_register in Hrun.
  destruct (registration_authorised "secret" known_uuids "100.64.0.0" (Some sample_service) (Ok "01")
    req "" (env_at 9) st "100.64.0.2" st') as (tenantID & Hmay & _); [|reflexivity|exact Hrun|].
  - intros a b r r' Ha Hb _. cbn in Ha, Hb. apply lookup_singleton_Some in Ha as [<- _].
    by apply lookup_singleton_Some in Hb as [<- _].
  - exists tenantID. exact Hmay.
Defined.

Lemma authorizeRegistrationRequest_sound_witness :
  let req := sample_request "k1" "edge" "tk_00" "" in
  let node := scanNode "n1" (sample_node "k1" "online" 2 0) in
  let st := mkSt (enrol_db "online") 0 in
  ∃ st', authorizeRegistrationRequest "secret" known_uuids req (Some node) "" (env_at 9) st =
           (Ok "t1", st') ∧
         may_register "secret" known_uuids (env_at 9) (enrol_db "online") req (Some node) "" "t1".
Proof.
  intros req node st.
  assert ((authorizeRegistrationRequest "secret" known_uuids req (Some node) "" (env_at 9) st).1 = Ok "t1")
    as Hok by (vm_compute; reflexivity).
  destruct (authorizeRegistrationRequest "secret" known_uuids req (Some node) "" (env_at 9) st)
    as [res st'] eqn:Hrun.
  cbn [fst] in Hok. rewrite Hok in Hrun |- *. exists st'. split; [reflexivity|].
  exact (proj2 (authorizeRegistrationRequest_sound "secret" known_uuids req (Some node) "" (env_at 9) st
    "t1" st' Hrun)).
Defined.

Lemma stopped_node_not_registered_witness :
  let st := mkSt (enrol_db "suspended") 0 in
  sample_register (sample_request "k1" "edge" "tk_00" "rt_signed") (env_at 9) st =
  (Err (RegistrationAuthError StatusForbidden "Node registration is disabled"),
   mkSt (enrol_db "suspended") 1).
Proof.
  intros st.
  exact (stopped_node_not_registered "secret" known_uuids "100.64.0.0" (Some sample_service) (Ok "01")
    (sample_request "k1" "edge" "tk_00" "rt_signed") "" (env_at 9) st "n1"
    (sample_node "k1" "suspended" 2 0) "suspended" eq_refl eq_refl eq_refl (or_introl eq_refl)).
Defined.

(** The ledger of the sample database. *)
Lemma enrol_db_wf status : tokens_wf (enrol_db status).
Proof.
  change (tokens_wf (enrol_db status)) with (tokens_wf (token_db enrol_token)).
  apply token_db_wf. split; simpl; [lia|set_solver].
Qed.

Lemma registration_enrols_witness :
  let st := mkSt (enrol_db "online") 0 in
  let req := sample_request "k3" "new" "tk_00" "" in
  ∃ st', sample_register req (env_at 9) st = (Ok "100.64.0.1", st') ∧
    ∃ t t', ledger_of (enrol_db "online") !! "tk_00" = Some t ∧ spend t = Some t' ∧
      models (<["tk_00" := t']> (ledger_of (enrol_db "online"))) (st_db st').
Proof.
  intros st req.
  assert ((sample_register req (env_at 9) st).1 = Ok "100.64.0.1") as Hok by (vm_compute; reflexivity).
  destruct (sample_register req (env_at 9) st) as [res st'] eqn:Hrun.
  cbn [fst] in Hok. rewrite Hok in Hrun |- *. exists st'. split; [reflexivity|].
  unfold sample_register in Hrun.
  exact (proj2 (registration_enrols "secret" known_uuids "100.64.0.0" (Some sample_service) (Ok "01")
    (ledger_of (enrol_db "online")) req "" (env_at 9) st "100.64.0.1" st'
    (wf_models (enrol_db "online") (enrol_db_wf "online")) Hrun)).
Defined.

(** ** Where registration falls short *)

(** The address and status of a node. *)
Definition address_of (db : DB) (key : string) : option (string * option string) :=
  (λ r, (n_assigned_ip r.2, n_status r.2)) <$> node_by_key db key.

(** A deleted node that registers again keeps the address of its row, which its
    successor took over with the host name: two nodes in service share one
    overlay address. *)
Lemma address_shared_after_hostname_reuse :
  let st := (sample_register (sample_request "k3" "edge" "tk_00" "") (env_at 9)
               (mkSt (enrol_db "online") 0)).2 in
  let st' := (sample_register (sample_request "k1" "edge" "tk_00" "") (env_at 10) st).2 in
  (address_of (st_db st') "k1", address_of (st_db st') "k3") =
  (Some ("100.64.0.2", Some "online"), Some ("100.64.0.2", Some "online")).
Proof. vm_compute. reflexivity. Qed.

(** The first lookup of the node drops its error: when only that statement fails,
    a suspended node registers again with an enrolment token and is online. *)
Lemma failed_lookup_revives_suspended_node :
  let e := mkEnv 9 9 (λ _ _, "u") (λ n, (n =? 0)%nat) in
  let r := sample_register (sample_request "k1" "edge" "tk_00" "") e
             (mkSt (enrol_db "suspended") 0) in
  (r.1, address_of (st_db r.2) "k1") = (Ok "100.64.0.2", Some ("100.64.0.2", Some "online")).
Proof. vm_compute. reflexivity. Qed.

(** A runtime token of a superseded version is refused by the agent service and
    accepted by the registration endpoint. *)
Definition rotated_db : DB :=
  (enrol_db "online") <| nodes := {["n1" := (sample_node "k1" "online" 2 0)
                                              <| n_runtime_token_version := 4 |>]} |>.
Lemma registration_accepts_stale_token :
  let st := mkSt rotated_db 0 in
  let req := sample_request "k1" "edge" "" "rt_signed" in
  (is_ok (AuthInterceptor "secret" known_uuids (Some ["Bearer rt_signed"]) (env_at 9) st).1,
   is_ok (sample_register req (env_at 9) st).1) = (false, true).
Proof. vm_compute. reflexivity. Qed.
