(* ===== verification/Sessions.v ===== *)
(** * User sessions

    [internal/auth/jwt.go], [internal/api/middleware/jwt_auth.go],
    [internal/api/handlers/auth.go] and the user version of
    [pkg/controllerstorage/auth_state.go].  JSON web tokens and bcrypt are
    libraries: they enter as the classes [UserJWT] and [Bcrypt], with what the
    documentation says of tokens as [UserJWTLaws].  [uuid.Parse] is an
    argument. *)

From S2P Require Import Prelude GoStr Records Store Events ControlState AgentCommands PolicySync Nodes Lifecycle Tenants.

Open Scope Z_scope.

(** ** Requests *)

(** What a handler reads of a request; an absent header is empty. *)
Record Request := mkRequest {
  Method : string;
  Path : string;
  Authorization : string;
  XTenantID : string;
}.
Definition write_error {A} (status : Z) (code message : string) : M A :=
  fail (HTTPError status code message).
Definition method_not_allowed {A} : M A :=
  write_error 405 "METHOD_NOT_ALLOWED" "Method not allowed".
(** A request whose body does not decode. *)
Definition body_of {A} (body : option A) : M A :=
  match body with
  | Some b => mret b
  | None => write_error 400 "INVALID_REQUEST" "Invalid request body"
  end.

(** The values the middleware puts into the context. *)
Record Context := mkContext {
  UserID : option string;
  Username : option string;
  UserRole : option string;
  TenantID : option UUID;
}.

(** ** Tokens *)

(** The claims with the registered ones the code sets; dates in seconds. *)
Record Claims := mkClaims {
  c_UserID : string;
  c_Username : string;
  c_Role : string;
  c_TenantID : string;
  c_MustChangePassword : bool;
  c_TokenVersion : Z;
  c_ExpiresAt : Z;
  c_IssuedAt : Z;
  c_Issuer : string;
  c_Subject : string;
}.
#[export] Instance Claims_eq_dec : EqDecision Claims.
Proof. solve_decision. Defined.

Definition jwtIssuer : string := "aria-controller".

(** What parsing a token gives; the key function runs once the token has
    decoded, so that a missing secret is an error of its own. *)
Inductive user_parsed :=
  | UserClaims (c : Claims)
  | UserTokenExpired
  | UserNoSecret
  | UserTokenError.
(** [token.SignedString(secret)] with HS256, and [jwt.ParseWithClaims] at a time
    with the secret, an HMAC method and the issuer. *)
Class UserJWT := {
  user_sign : string → Claims → option string;
  user_parse : Time → result string → string → user_parsed;
}.
Class UserJWTLaws `{UserJWT} := {
  user_parse_sign now secret c s :
    user_sign secret c = Some s → c_Issuer c = jwtIssuer → unix now < c_ExpiresAt c →
    user_parse now (Ok secret) s = UserClaims c;
  (* the claims are those of the text, whenever it is read *)
  user_parse_claims now now' k s c c' :
    user_parse now k s = UserClaims c → user_parse now' k s = UserClaims c' → c = c';
  (* the compact form of a token has no spaces *)
  user_sign_text secret c s :
    user_sign secret c = Some s →
    s ≠ "" ∧ Forall (λ c, is_space c = false) (String.list_ascii_of_string s);
}.

(** [bcrypt.GenerateFromPassword] with the salt it draws, and
    [bcrypt.CompareHashAndPassword]. *)
Class Bcrypt := {
  bcrypt_generate : string → string → result string;
  bcrypt_compare : string → string → bool;
}.
Section sessions.
Context `{UserJWT, Bcrypt} (jwtSecret : string) (uuid_Parse : string → option UUID).
Context (salt : string).

Definition getSecret : result string :=
  if (jwtSecret =? "")%string then Err (ErrorString "jwt secret is not configured") else Ok jwtSecret.

Definition GenerateTokenWithVersion (userID username role tenantID : string) (tokenVersion : Z)
    (mustChangePassword : bool) : M string :=
  now ← ask env_go_now;
  let claims := mkClaims userID username role tenantID mustChangePassword tokenVersion
    (unix (now + 2 * 3600 * 1000000)) (unix now) jwtIssuer userID in
  secret ← lift (λ _, getSecret);
  match user_sign secret claims with
  | None => fail (ErrorString "failed to sign token")
  | Some tokenString => mret tokenString
  end.
Definition GenerateToken (userID username role tenantID : string) (mustChangePassword : bool)
    : M string :=
  GenerateTokenWithVersion userID username role tenantID 0 mustChangePassword.

Definition ValidateToken (tokenString : string) : M Claims :=
  now ← ask env_go_now;
  match user_parse now getSecret tokenString with
  | UserNoSecret => fail (ErrorString "jwt secret is not configured")
  | UserTokenExpired => fail ErrExpiredToken
  | UserTokenError => fail ErrInvalidToken
  | UserClaims claims => mret claims
  end.

(** ** The middleware *)

Definition mcpWhitelist : list string :=
  ["/api/v2/auth/force-change-password"; "/api/v2/auth/login"; "/api/v2/auth/refresh";
   "/api/v2/auth/logout"; "/api/v2/auth/permissions"].
Definition containsPath (paths : list string) (path : string) : bool := one_of path paths.

Definition extractHTTPAuthorizationToken (authHeader : string) : string :=
  let trimmed := TrimSpace authHeader in
  match Cut trimmed " "%char with
  | Some (scheme, rest) => if EqualFold scheme "Bearer" then TrimSpace rest else trimmed
  | None => trimmed
  end.

Definition GetUserTokenVersion (userID : string) : M Z :=
  match uuid_Parse (TrimSpace userID) with
  | None => fail (ErrorString "invalid UUID")
  | Some parsedUserID => query_row (λ _ db, u_token_version <$> users db !! parsedUserID)
  end.

Definition invalid_token {A} : M A := write_error 401 "INVALID_TOKEN" "Invalid token".

(** The version of a token against that of its user. *)
Definition check_version (claims : Claims) (code : string) : M Z :=
  v ← attempt (GetUserTokenVersion (c_UserID claims));
  match v with
  | Err ErrNoRows => invalid_token
  | Err _ => write_error 500 code "Failed to verify token state"
  | Ok currentVersion =>
    if negb (c_TokenVersion claims =? currentVersion) then invalid_token else mret currentVersion
  end.

(** The tenant of a request. *)
Definition request_tenant (r : Request) (role tenantID : string) : option UUID :=
  let own := if (tenantID =? "")%string then None else uuid_Parse tenantID in
  if (role =? "super_admin")%string && negb (XTenantID r =? "")%string then
    match uuid_Parse (XTenantID r) with Some tid => Some tid | None => own end
  else own.

Definition token_error {A} (expired : bool) : M A :=
  write_error 401 "INVALID_TOKEN" (if expired then "Token has expired" else "Invalid token").

(** [JWTAuthMiddlewareWithStore] up to the call of the handler. *)
Definition jwtAuthMiddleware (r : Request) : M Context :=
  if (Authorization r =? "")%string
  then write_error 401 "AUTH_HEADER_REQUIRED" "Authorization header required" else
  let tokenString := extractHTTPAuthorizationToken (Authorization r) in
  if (tokenString =? "")%string then write_error 401 "INVALID_TOKEN" "Invalid token format" else
  v ← attempt (ValidateToken tokenString);
  match v with
  | Err ErrExpiredToken => token_error true
  | Err _ => token_error false
  | Ok claims =>
    _ ← check_version claims "INTERNAL_ERROR";
    if c_MustChangePassword claims && negb (containsPath mcpWhitelist (Path r))
    then write_error 403 "FORBIDDEN" "You must change your password before proceeding" else
    mret (mkContext (Some (c_UserID claims)) (Some (c_Username claims)) (Some (c_Role claims))
            (request_tenant r (c_Role claims) (c_TenantID claims)))
  end.

(** ** Handlers *)

Definition normalizeAuthRole : string → string := NormalizeRoleName.

Fixpoint sanitize (seen : list string) (permissions : list string) : list string :=
  match permissions with
  | [] => []
  | p :: rest =>
    let p := TrimSpace p in
    if one_of p [""; "*"] || one_of p seen then sanitize seen rest
    else p :: sanitize (p :: seen) rest
  end.
Definition sanitizeTenantPermissions (permissions : list string) : list string :=
  sanitize [] permissions.

Definition errTenantInactive : error := ErrorString "tenant is not active".
Definition verifyTenantActive (tenantID : string) : M unit :=
  let tenantID := TrimSpace tenantID in
  if (tenantID =? "")%string then fail errTenantInactive else
  match uuid_Parse tenantID with
  | None => fail (ErrorString "invalid UUID")
  | Some parsedTenantID =>
    status ← GetTenantStatus parsedTenantID;
    if EqualFold (TrimSpace status) "active" then mret () else fail errTenantInactive
  end.
(** [writeTenantInactiveAuthError] of the result of [verifyTenantActive]. *)
Definition require_tenant_active (tenantID : string) : M unit :=
  r ← attempt (verifyTenantActive tenantID);
  match r with
  | Ok _ => mret ()
  | Err x => if bool_decide (x = errTenantInactive) || bool_decide (x = ErrNoRows)
             then write_error 403 "ACCESS_DENIED" "Tenant is not active"
             else write_error 500 "INTERNAL_ERROR" "Failed to verify tenant status"
  end.

Record LoginRequest := mkLoginRequest { lr_Username : string; lr_Password : string }.
Record Session := mkSession {
  s_token : string;
  s_expires_in : Z;
  s_require_password_change : bool;
  s_id : UUID;
  s_username : string;
  s_role : string;
  s_tenant_id : string;
}.

Definition user_by_name (username : string) (db : DB) : option (UUID * UserRow) :=
  head (select_where (λ _ u, (u_username u =? username)%string) (users db)).
Definition must_change (u : UserRow) : bool := default false (u_must_change_password u).
Definition tenant_text (u : UserRow) : string := default "" (u_tenant_id u).

(** [generate], with its error as the handler reports it. *)
Definition new_token (failure : string) (userID username role tenantID : string) (version : Z)
    (mcp : bool) : M string :=
  t ← attempt (GenerateTokenWithVersion userID username role tenantID version mcp);
  match t with
  | Err _ => write_error 500 "CREATE_TOKEN_FAILED" failure
  | Ok token => mret token
  end.

Definition HandleLogin (r : Request) (body : option LoginRequest) : M Session :=
  if negb (Method r =? "POST")%string then method_not_allowed else
  req ← body_of body;
  if (lr_Username req =? "")%string || (lr_Password req =? "")%string
  then write_error 400 "VALIDATION_FAILED" "Username and password are required" else
  found ← attempt (query_row (λ _ db, user_by_name (lr_Username req) db));
  match found with
  | Err ErrNoRows => write_error 401 "INVALID_CREDENTIALS" "Invalid username or password"
  | Err _ => write_error 500 "DB_ERROR" "Database query failed"
  | Ok (userID, u) =>
    if negb (bcrypt_compare (u_password_hash u) (lr_Password req))
    then write_error 401 "INVALID_CREDENTIALS" "Invalid username or password" else
    let tID := tenant_text u in
    _ ← (if (normalizeAuthRole (u_role u) =? "super_admin")%string then mret ()
         else require_tenant_active tID);
    token ← new_token "Failed to generate authentication token" userID (lr_Username req) (u_role u)
              tID (u_token_version u) (must_change u);
    mret (mkSession token 7200 (must_change u) userID (lr_Username req) (u_role u) tID)
  end.

(** The row of a user.  The text of an identifier in a signed token reads the same
    in a statement and in Go. *)
Definition sql_user {A} (userID : string) (k : UUID → option UserRow → DB → result (A * DB)) (db : DB)
    : result (A * DB) :=
  match uuid_Parse userID with
  | None => Err (ErrConstraint "invalid input syntax for type uuid")
  | Some id => k id (users db !! id) db
  end.
Definition select_user (userID : string) : M UserRow :=
  stmt (λ _ _ db, sql_user userID (λ _ u db,
    match u with Some u => Ok (u, db) | None => Err ErrNoRows end) db).

(** [UPDATE users SET token_version = token_version + 1 WHERE id AND version];
    the new version of the row, if there is one. *)
Definition bump_version (userID : string) (version : Z) : M (option Z) :=
  stmt (λ e _ db, sql_user userID (λ id u db,
    match u with
    | Some u =>
      if u_token_version u =? version then
        if negb (int4 (version + 1)) then Err (ErrConstraint "integer out of range") else
        Ok (Some (version + 1),
            db <| users := <[id := u <| u_token_version := version + 1 |>
                                     <| u_updated_at := env_now e |>]> (users db) |>)
      else Ok (None, db)
    | None => Ok (None, db)
    end) db).
(** The UPDATE of a changed password. *)
Definition set_password (userID newHash : string) : M unit :=
  stmt (λ _ _ db, sql_user userID (λ id u db,
    match u with
    | Some u =>
      if negb (int4 (u_token_version u + 1)) then Err (ErrConstraint "integer out of range") else
      Ok ((), db <| users := <[id :=
        u <| u_password_hash := newHash |> <| u_must_change_password := Some false |>
          <| u_token_version := u_token_version u + 1 |>]> (users db) |>)
    | None => Ok ((), db)
    end) db).

Definition bearer_claims (r : Request) : M Claims :=
  if (Authorization r =? "")%string
  then write_error 401 "AUTH_HEADER_REQUIRED" "Authorization header required" else
  v ← attempt (ValidateToken (extractHTTPAuthorizationToken (Authorization r)));
  match v with Err _ => invalid_token | Ok claims => mret claims end.

Definition HandleRefresh (r : Request) : M Session :=
  if negb (Method r =? "POST")%string then method_not_allowed else
  claims ← bearer_claims r;
  found ← attempt (select_user (c_UserID claims));
  match found with
  | Err ErrNoRows => write_error 401 "INVALID_TOKEN" "User no longer exists"
  | Err _ => write_error 500 "DB_ERROR" "Database query failed"
  | Ok u =>
    let tID := tenant_text u in
    if negb (c_TokenVersion claims =? u_token_version u) then invalid_token else
    _ ← (if (normalizeAuthRole (u_role u) =? "super_admin")%string then mret ()
         else require_tenant_active tID);
    v ← attempt (bump_version (c_UserID claims) (u_token_version u));
    match v with
    | Err _ => write_error 500 "DB_ERROR" "Failed to refresh token state"
    | Ok None => write_error 401 "INVALID_TOKEN" "User no longer exists"
    | Ok (Some newTokenVersion) =>
      token ← new_token "Failed to refresh token" (c_UserID claims) (u_username u) (u_role u) tID
                newTokenVersion (must_change u);
      mret (mkSession token 7200 (must_change u) (c_UserID claims) (u_username u) (u_role u) tID)
    end
  end.

Definition HandleLogout (r : Request) : M unit :=
  if negb (Method r =? "POST")%string then method_not_allowed else
  claims ← bearer_claims r;
  currentVersion ← check_version claims "DB_ERROR";
  v ← attempt (bump_version (c_UserID claims) currentVersion);
  match v with
  | Err _ => write_error 500 "DB_ERROR" "Failed to revoke token"
  | Ok None => invalid_token
  | Ok (Some _) => mret ()
  end.

Record PermissionsResponse := mkPermissionsResponse {
  pr_Role : string;
  pr_TenantID : string;
  pr_Permissions : list string;
}.
Definition HandlePermissions (r : Request) (ctx : Context) : M PermissionsResponse :=
  if negb (Method r =? "GET")%string then method_not_allowed else
  match UserRole ctx with
  | None => write_error 401 "UNAUTHORIZED" "Unauthorized"
  | Some role =>
    let roleName := normalizeAuthRole role in
    if (roleName =? "super_admin")%string then mret (mkPermissionsResponse roleName "" ["*"]) else
    match TenantID ctx with
    | None => write_error 401 "TENANT_CONTEXT_NOT_FOUND" "Tenant context missing"
    | Some tenantID =>
      _ ← require_tenant_active tenantID;
      p ← attempt (GetRolePermissions tenantID roleName);
      match p with
      | Err ErrNoRows => write_error 403 "ACCESS_DENIED" "Role not found"
      | Err _ => write_error 500 "INTERNAL_ERROR" "Role permission lookup failed"
      | Ok permissions =>
        mret (mkPermissionsResponse roleName tenantID (sanitizeTenantPermissions permissions))
      end
    end
  end.

Record ChangePasswordRequest := mkChangePassword { OldPassword : string; NewPassword : string }.
Definition HandleForceChangePassword (r : Request) (body : option ChangePasswordRequest) : M unit :=
  if negb (Method r =? "POST")%string then method_not_allowed else
  req ← body_of body;
  if (String.length (NewPassword req) <? 6)%nat
  then write_error 400 "VALIDATION_FAILED" "Password must be at least 6 characters" else
  let tokenString := extractHTTPAuthorizationToken (Authorization r) in
  if (tokenString =? "")%string
  then write_error 401 "INVALID_TOKEN" "Missing or malformed Authorization header" else
  v ← attempt (ValidateToken tokenString);
  match v with
  | Err _ => invalid_token
  | Ok claims =>
    found ← attempt (select_user (c_UserID claims));
    match found with
    | Err _ => write_error 500 "DB_ERROR" "Database query failed"
    | Ok u =>
      if negb (bcrypt_compare (u_password_hash u) (OldPassword req))
      then write_error 401 "INVALID_CREDENTIALS" "Incorrect old password" else
      match bcrypt_generate salt (NewPassword req) with
      | Err _ => write_error 500 "HASH_ERROR" "Failed to hash password"
      | Ok newHash =>
        r ← attempt (set_password (c_UserID claims) newHash);
        match r with
        | Err _ => write_error 500 "DB_ERROR" "Failed to update password"
        | Ok _ => mret ()
        end
      end
    end
  end.
End sessions.
