(* ===== verification/Access.v ===== *)
(** * Who may do what

    The user and tenant handlers of [internal/api/handlers/tenant.go], the role
    handlers of [internal/api/v2/roles.go], the checks of
    [internal/api/v2/setup.go] that stand before them and [authorizeTool] of
    [internal/service/ai_service.go].  A handler takes what [encoding/json] makes
    of the body. *)

From S2P Require Import Prelude GoStr Records Store Events ControlState AgentCommands PolicySync Nodes Lifecycle PublicNetwork Tenants Sessions.

Open Scope Z_scope.

Definition forbidden {A} (message : string) : M A := write_error 403 "ACCESS_DENIED" message.
Definition invalid {A} (message : string) : M A := write_error 400 "INVALID_REQUEST" message.
(** [apibase.WriteError] with the text of an error. *)
Definition error_text (x : error) : string := match x with ErrorString msg => msg | _ => "" end.

(** ** Authorisation *)

(** [RBAC_ENFORCEMENT] of the environment is an argument. *)
Definition rbac_mode (enforcement : string) : string :=
  let mode := ToLower (TrimSpace enforcement) in
  if (mode =? "")%string then "enforce" else mode.

Definition authorizeTenant (ctx : Context) (targetTenantID : UUID) (requireAdmin : bool) : M unit :=
  match UserRole ctx with
  | None => write_error 401 "UNAUTHORIZED" "Unauthorized"
  | Some role =>
    if (role =? "super_admin")%string then mret () else
    match TenantID ctx with
    | None => write_error 401 "TENANT_CONTEXT_NOT_FOUND" "Tenant context missing"
    | Some userTenantID =>
      if negb (userTenantID =? targetTenantID)%string
      then forbidden "Access denied to this tenant" else
      s ← attempt (GetTenantStatus targetTenantID);
      match s with
      | Err ErrNoRows => write_error 404 "TENANT_NOT_FOUND" "Tenant not found"
      | Err _ => write_error 500 "INTERNAL_ERROR" "Failed to verify tenant status"
      | Ok status =>
        if negb (EqualFold status "active") then forbidden "Tenant is not active" else
        if requireAdmin && negb (NormalizeRoleName role =? SystemRoleAdmin)%string
        then forbidden "Admin privileges required" else mret ()
      end
    end
  end.
Definition authorizeTenantAdmin (ctx : Context) (targetTenantID : UUID) : M unit :=
  authorizeTenant ctx targetTenantID true.

Definition containsString (slice : list string) (s : string) : bool := one_of s slice.

(** The answer is whether the audit header is set. *)
Definition authorizeTenantPermission (enforcement : string) (ctx : Context) (targetTenantID : UUID)
    (permission : string) : M bool :=
  _ ← authorizeTenant ctx targetTenantID false;
  let mode := rbac_mode enforcement in
  if (mode =? "off")%string || (permission =? "")%string then mret false else
  let role := default "" (UserRole ctx) in
  if (role =? "super_admin")%string then mret false else
  p ← attempt (GetRolePermissions targetTenantID (NormalizeRoleName role));
  match p with
  | Err _ => forbidden "Role permission lookup failed"
  | Ok permissions =>
    if containsString permissions permission then mret false else
    if (mode =? "audit")%string then mret true else forbidden "Insufficient permissions"
  end.

Definition authorizeTenantAnyPermission (enforcement : string) (ctx : Context) (targetTenantID : UUID)
    (permissions : list string) : M bool :=
  _ ← authorizeTenant ctx targetTenantID false;
  let mode := rbac_mode enforcement in
  if (mode =? "off")%string || bool_decide (permissions = []) then mret false else
  let role := default "" (UserRole ctx) in
  if (role =? "super_admin")%string then mret false else
  p ← attempt (GetRolePermissions targetTenantID (NormalizeRoleName role));
  match p with
  | Err _ => forbidden "Role permission lookup failed"
  | Ok rolePermissions =>
    if existsb (λ p, negb (TrimSpace p =? "")%string && containsString rolePermissions p) permissions
    then mret false else
    if (mode =? "audit")%string then mret true else forbidden "Insufficient permissions"
  end.

(** [authorizeTool] of the assistant. *)
Definition authorizeTool (ctx : Context) (permission : string) : M unit :=
  if (permission =? "")%string then mret () else
  match UserRole ctx with
  | None => fail (ErrorString "user role is required for AI tool execution")
  | Some role =>
    let roleName := NormalizeRoleName role in
    if (roleName =? "super_admin")%string then mret () else
    match TenantID ctx with
    | None => fail (ErrorString "tenant context is required for AI tool authorization")
    | Some tenantID =>
      if (tenantID =? uuid_Nil)%string
      then fail (ErrorString "tenant context is required for AI tool authorization") else
      permissions ← wrap "AI tool permission lookup failed" (GetRolePermissions tenantID roleName);
      if containsString permissions permission then mret ()
      else fail (ErrorString ("AI tool requires permission " +:+ permission))
    end
  end.

(** ** Roles of users *)

Definition RoleSuperAdmin : string := "super_admin".
Definition legacyTenantUserRoles : list string := ["member"; "owner"].
Definition errPlatformRoleNotAssignable : error :=
  ErrorString "platform role cannot be assigned via tenant user APIs".
Definition errTenantRoleNotAssignable : error := ErrorString "tenant role does not exist".

Definition normalizeTenantUserRole (role : string) : result string :=
  let roleName := TrimSpace role in
  if (roleName =? "")%string then Ok "member" else
  let lowerRoleName := ToLower roleName in
  if (lowerRoleName =? RoleSuperAdmin)%string then Err errPlatformRoleNotAssignable else
  if one_of lowerRoleName legacyTenantUserRoles then Ok lowerRoleName else
  if one_of lowerRoleName [SystemRoleAdmin; SystemRoleOperator; SystemRoleViewer]
  then Ok lowerRoleName else Ok roleName.

(** [ORDER BY] the exact name first, then by name. *)
Definition exact_then_name (name : string) (a b : UUID * RoleRow) : bool :=
  exact_first name a b
  || (Bool.eqb (rl_name a.2 =? name)%string (rl_name b.2 =? name)%string
      && str_ltb (rl_name a.2) (rl_name b.2)).
Definition canonicalTenantRoleName (tenantID : UUID) (role : string) : M (option string) :=
  query (λ _ db, (λ kr, rl_name kr.2) <$>
    first_by (exact_then_name role) (select_where (role_alike tenantID role) (roles db))).

Definition normalizeAssignableTenantUserRole (tenantID : UUID) (role : string) : M string :=
  normalizedRole ← lift (λ _, normalizeTenantUserRole role);
  if one_of normalizedRole legacyTenantUserRoles then mret normalizedRole else
  c ← wrap "failed to validate tenant role" (canonicalTenantRoleName tenantID normalizedRole);
  match c with
  | None => fail errTenantRoleNotAssignable
  | Some canonicalRole => mret canonicalRole
  end.

(** The role a handler stores, with its errors as it reports them. *)
Definition assignable_role (code : string) (tenantID : UUID) (role : string) : M string :=
  r ← attempt (normalizeAssignableTenantUserRole tenantID role);
  match r with
  | Ok normalizedRole => mret normalizedRole
  | Err x =>
    if bool_decide (x = errPlatformRoleNotAssignable) then forbidden (error_text x) else
    if bool_decide (x = errTenantRoleNotAssignable) then invalid (error_text x)
    else write_error 500 code "Failed to validate role"
  end.

(** ** Users *)

Section users.
Context `{Bcrypt} (salt : string) (uuid_Parse : string → option UUID) (enforcement : string).

Record CreateUserRequest := mkCreateUser {
  cu_Username : string;
  cu_Password : string;
  cu_Email : string;
  cu_Role : string;
}.
Record UpdateUserRequest := mkUpdateUser {
  uu_Password : string;
  uu_Email : string;
  uu_Role : string;
}.
Record UserResponse := mkUserResponse {
  ur_ID : UUID;
  ur_Username : string;
  ur_Email : string;
  ur_Role : string;
}.

Definition ListUsers (tenantID : UUID) : M (list UserResponse) :=
  r ← attempt (query (λ _ db, (λ kr, mkUserResponse kr.1 (u_username kr.2)
                                 (default "" (u_email kr.2)) (u_role kr.2)) <$>
    SliceStable (λ a b, u_created_at b.2 <? u_created_at a.2)
      (select_where (of_tenant tenantID) (users db))));
  match r with
  | Err _ => write_error 500 "LIST_USERS_FAILED" "Failed to list users"
  | Ok l => mret l
  end.

Definition insert_user (id : UUID) (row : Time → UserRow) : M unit :=
  stmt (λ e _ db,
    let u := row (env_now e) in
    match users db !! id with
    | Some _ => Err (ErrConstraint "users_pkey")
    | None =>
      if exists_where (λ _ v, (u_username v =? u_username u)%string) (users db)
      then Err (ErrConstraint "idx_users_username_unique") else
      if negb (match u_tenant_id u with Some t => tenant_exists db t | None => true end)
      then Err (ErrConstraint "users_tenant_id_fkey") else
      Ok ((), db <| users := <[id := u]> (users db) |>)
    end).

Definition CreateUser (body : option CreateUserRequest) (tenantID : UUID) : M UserResponse :=
  req ← body_of body;
  if (cu_Username req =? "")%string || (cu_Password req =? "")%string
  then invalid "Username and password are required" else
  role ← assignable_role "CREATE_USER_FAILED" tenantID (cu_Role req);
  match bcrypt_generate salt (cu_Password req) with
  | Err _ => write_error 500 "CREATE_USER_FAILED" "Failed to hash password"
  | Ok hashedPassword =>
    userID ← new_uuid;
    r ← attempt (insert_user userID (λ now,
          mkUserRow (cu_Username req) hashedPassword (Some tenantID) role (Some (cu_Email req))
            (Some false) 0 now now));
    match r with
    | Err _ => write_error 500 "CREATE_USER_FAILED" "Failed to create user"
    | Ok _ => mret (mkUserResponse userID (cu_Username req) (cu_Email req) role)
    end
  end.

(** [COALESCE(NULLIF($1, ''), column)]. *)
Definition or_keep (value old : string) : string := if (value =? "")%string then old else value.
(** Both UPDATE statements; the password only when there is a new hash. *)
Definition update_user (tenantID userID : UUID) (hash : option string) (role email : string)
    : M bool :=
  exec (λ e db,
    match users db !! userID with
    | Some u =>
      if of_tenant tenantID userID u then
        (true, db <| users := <[userID :=
           u <| u_password_hash := default (u_password_hash u) hash |>
             <| u_role := or_keep role (u_role u) |>
             <| u_email := if (email =? "")%string then u_email u else Some email |>
             <| u_updated_at := env_now e |>]> (users db) |>)
      else (false, db)
    | None => (false, db)
    end).

Definition UpdateUser (body : option UpdateUserRequest) (tenantID : UUID) (userID : string)
    : M unit :=
  req ← body_of body;
  match uuid_Parse userID with
  | None => write_error 400 "INVALID_USER_ID" "Invalid user ID"
  | Some userUUID =>
    role ← (if (TrimSpace (uu_Role req) =? "")%string then mret (uu_Role req)
            else assignable_role "UPDATE_USER_FAILED" tenantID (uu_Role req));
    let save := λ hash,
      r ← attempt (update_user tenantID userUUID hash role (uu_Email req));
      match r with
      | Err _ => write_error 500 "UPDATE_USER_FAILED" "Failed to update user"
      | Ok false => write_error 404 "USER_NOT_FOUND" "User not found"
      | Ok true => mret ()
      end in
    if (uu_Password req =? "")%string then save None else
    match bcrypt_generate salt (uu_Password req) with
    | Err _ => write_error 500 "UPDATE_USER_FAILED" "Failed to hash password"
    | Ok hashedPassword => save (Some hashedPassword)
    end
  end.

(** [DELETE FROM users]; groups the user created forget him. *)
Definition delete_user (tenantID userID : UUID) : M bool :=
  exec (λ _ db,
    match users db !! userID with
    | Some u =>
      if of_tenant tenantID userID u then
        (true, db <| users := delete userID (users db) |>
                  <| ip_groups := update_where (λ _ g, bool_decide (ig_created_by g = Some userID))
                       (λ g, g <| ig_created_by := None |>) (ip_groups db) |>)
      else (false, db)
    | None => (false, db)
    end).
Definition DeleteUser (tenantID : UUID) (userID : string) : M unit :=
  match uuid_Parse userID with
  | None => write_error 400 "INVALID_USER_ID" "Invalid user ID"
  | Some userUUID =>
    r ← attempt (delete_user tenantID userUUID);
    match r with
    | Err _ => write_error 500 "DELETE_USER_FAILED" "Failed to delete user"
    | Ok false => write_error 404 "USER_NOT_FOUND" "User not found"
    | Ok true => mret ()
    end
  end.

Definition splitPath (path : string) : list string :=
  let trimmed := Trim path ["/"%char] in
  if (trimmed =? "")%string then [] else Split trimmed "/"%char.

(** What the body of a request decodes to, by the type it is decoded into. *)
Record Body := mkBody {
  as_create_user : option CreateUserRequest;
  as_update_user : option UpdateUserRequest;
}.

(** What a user handler answers. *)
Inductive users_response :=
  | UsersListed (l : list UserResponse)
  | UserCreated (u : UserResponse)
  | UserChanged (id : string).

(** [HandleTenantUsers] below a path api/v2/tenants/tid/users. *)
Definition HandleTenantUsers (r : Request) (body : Body) (tenantID : UUID) : M users_response :=
  let pathParts := Split (Trim (Path r) ["/"%char]) "/"%char in
  if negb ((5 <=? length pathParts)%nat && bool_decide (pathParts !! 4%nat = Some "users")
           && (length pathParts <=? 6)%nat)
  then write_error 404 "ENDPOINT_NOT_FOUND" "Unknown users endpoint" else
  let userID := default "" (pathParts !! 5%nat) in
  if negb (userID =? "")%string then
    if (Method r =? "PUT")%string then
      _ ← UpdateUser (as_update_user body) tenantID userID; mret (UserChanged userID)
    else if (Method r =? "DELETE")%string then
      _ ← DeleteUser tenantID userID; mret (UserChanged userID)
    else method_not_allowed
  else
    if (Method r =? "GET")%string then l ← ListUsers tenantID; mret (UsersListed l)
    else if (Method r =? "POST")%string then
      u ← CreateUser (as_create_user body) tenantID; mret (UserCreated u)
    else method_not_allowed.

Definition PermUsersRead : string := "users:read".
Definition PermUsersWrite : string := "users:write".

(** The context with the tenant of the path. *)
Definition handleTenantUsers (r : Request) (ctx : Context) (body : Body) (tenantID : UUID)
    : M users_response :=
  let requiredPermission := if (Method r =? "GET")%string then PermUsersRead else PermUsersWrite in
  _ ← authorizeTenantPermission enforcement ctx tenantID requiredPermission;
  let parts := splitPath (Path r) in
  if (length parts =? 6)%nat && (Method r =? "DELETE")%string
     && bool_decide (UserID ctx = parts !! 5%nat)
  then forbidden "You cannot delete your own account"
  else HandleTenantUsers r body tenantID.
End users.

(** ** Roles *)

Definition allowedCustomRolePermissions : list string :=
  ["nodes:read"; "nodes:write"; "routes:read"; "routes:write"; "acls:read"; "acls:write";
   "qos:read"; "qos:write"; "ip-groups:read"; "ip-groups:write"; "blacklist:read";
   "blacklist:write"; "monitoring:read"; "commands:write"; "tokens:read"; "tokens:write";
   "users:read"; "users:write"; "roles:read"; "roles:write"; "ai:use"; "policies:read";
   "settings:read"; "settings:write"].

(** The loop; [normalized] holds what was kept, which is also the set [seen]. *)
Fixpoint custom_permissions (normalized raw : list string) : result (list string) :=
  match raw with
  | [] => Ok normalized
  | permission :: rest =>
    let permission := TrimSpace permission in
    if (permission =? "")%string then custom_permissions normalized rest else
    if negb (one_of permission allowedCustomRolePermissions)
    then Err (ErrorString ("invalid permission " +:+ Quote permission)) else
    if one_of permission normalized then custom_permissions normalized rest
    else custom_permissions (normalized ++ [permission]) rest
  end.
Definition normalizeCustomRolePermissions (raw : list string) : result (list string) :=
  match custom_permissions [] raw with
  | Ok [] => Err (ErrorString "at least one permission is required")
  | r => r
  end.

Record RoleBody := mkRoleBody {
  rb_Name : string;
  rb_Description : string;
  rb_Permissions : list string;
}.
Definition checked_permissions (raw : list string) : M (list string) :=
  match normalizeCustomRolePermissions raw with
  | Err x => invalid (error_text x)
  | Ok permissions => mret permissions
  end.

Inductive roles_response :=
  | RolesListed (l : list Role)
  | RoleReturned (r : Role)
  | RoleDeleted (id : UUID).

Definition listRoles (tenantID : UUID) : M roles_response :=
  r ← attempt (ListRoles tenantID);
  match r with
  | Err _ => write_error 500 "INTERNAL_ERROR" "Failed to list roles"
  | Ok l => mret (RolesListed l)
  end.
Definition getRole (tenantID roleID : UUID) : M roles_response :=
  r ← attempt (GetRoleByID tenantID roleID);
  match r with
  | Err _ => write_error 404 "NOT_FOUND" "Role not found"
  | Ok role => mret (RoleReturned role)
  end.
Definition createRole (body : option RoleBody) (tenantID : UUID) : M roles_response :=
  b ← body_of body;
  let name := TrimSpace (rb_Name b) in
  if (name =? "")%string then invalid "Role name is required" else
  permissions ← checked_permissions (rb_Permissions b);
  r ← attempt (CreateRole (mkRole uuid_Nil tenantID name (rb_Description b) false permissions 0 0));
  match r with
  | Err _ => write_error 500 "INTERNAL_ERROR" "Failed to create role"
  | Ok created => mret (RoleReturned created)
  end.
Definition updateRole (body : option RoleBody) (tenantID roleID : UUID) : M roles_response :=
  b ← body_of body;
  permissions ← checked_permissions (rb_Permissions b);
  r ← attempt (UpdateRole tenantID roleID (rb_Description b) permissions);
  match r with
  | Err _ => invalid "Failed to update role"
  | Ok updated => mret (RoleReturned updated)
  end.
Definition deleteRole (tenantID roleID : UUID) : M roles_response :=
  r ← attempt (DeleteRole tenantID roleID);
  match r with
  | Err x => invalid (error_text x)
  | Ok _ => mret (RoleDeleted roleID)
  end.

Definition handleRoles (r : Request) (body : option RoleBody) (tenantID : UUID) : M roles_response :=
  if (Method r =? "GET")%string then listRoles tenantID
  else if (Method r =? "POST")%string then createRole body tenantID
  else method_not_allowed.
Definition handleRoleDetail (uuid_Parse : string → option UUID) (r : Request) (body : option RoleBody)
    (tenantID : UUID) (roleIDStr : string) : M roles_response :=
  match uuid_Parse roleIDStr with
  | None => invalid "Invalid role ID"
  | Some roleID =>
    if (Method r =? "GET")%string then getRole tenantID roleID
    else if (Method r =? "PUT")%string then updateRole body tenantID roleID
    else if (Method r =? "DELETE")%string then deleteRole tenantID roleID
    else method_not_allowed
  end.

(** The parts of a path after the first part [roles]. *)
Fixpoint after_roles (parts : list string) : option (list string) :=
  match parts with
  | [] => None
  | p :: rest => if (p =? "roles")%string then Some rest else after_roles rest
  end.
Definition handleTenantRoles (uuid_Parse : string → option UUID) (enforcement : string)
    (r : Request) (ctx : Context) (body : option RoleBody) (tenantID : UUID) : M roles_response :=
  let requiredPermission := if (Method r =? "GET")%string then "roles:read" else "roles:write" in
  _ ← authorizeTenantPermission enforcement ctx tenantID requiredPermission;
  match after_roles (splitPath (Path r)) with
  | None => write_error 404 "ENDPOINT_NOT_FOUND" "Unknown roles endpoint"
  | Some (roleID :: _) =>
    if negb (roleID =? "")%string then handleRoleDetail uuid_Parse r body tenantID roleID
    else handleRoles r body tenantID
  | Some [] => handleRoles r body tenantID
  end.

(** ** Tenants *)

Record TenantCreateRequest := mkTenantCreate {
  tc_Name : string;
  tc_Code : string;
  tc_Email : string;
  tc_Phone : string;
}.
Record TenantResponse := mkTenantResponse {
  tr_ID : UUID;
  tr_Name : string;
  tr_Code : string;
  tr_Email : string;
  tr_Phone : string;
}.

(** [utf8.RuneCountInString] of a text that is valid UTF-8, as decoded JSON is:
    the bytes that continue no rune. *)
Definition rune_start (c : ascii) : bool :=
  let n := N_of_ascii c in ((n <? 128) || (192 <=? n))%N.
Definition RuneCountInString (s : string) : nat :=
  length (List.filter rune_start (String.list_ascii_of_string s)).

(** [^[a-z0-9][a-z0-9-]*[a-z0-9]$]. *)
Definition lower_alnum (c : ascii) : bool :=
  let n := N_of_ascii c in ((97 <=? n) && (n <=? 122) || (48 <=? n) && (n <=? 57))%N.
Definition tenantCodePattern (code : string) : bool :=
  let l := String.list_ascii_of_string code in
  (2 <=? length l)%nat
  && forallb (λ c, lower_alnum c || Ascii.eqb c "-") l
  && default false (lower_alnum <$> head l) && default false (lower_alnum <$> last l).

Definition validateTenantCreateRequest (req : TenantCreateRequest) : result TenantCreateRequest :=
  let req := mkTenantCreate (TrimSpace (tc_Name req)) (TrimSpace (tc_Code req))
    (TrimSpace (tc_Email req)) (TrimSpace (tc_Phone req)) in
  let nameLen := RuneCountInString (tc_Name req) in
  let codeLen := String.length (tc_Code req) in
  if ((nameLen <? 2) || (50 <? nameLen))%nat
  then Err (ErrorString "tenant name must be between 2 and 50 characters") else
  if ((codeLen <? 2) || (20 <? codeLen))%nat
  then Err (ErrorString "tenant code must be between 2 and 20 characters") else
  if negb (tenantCodePattern (tc_Code req))
  then Err (ErrorString "tenant code must start and end with a lowercase alphanumeric character and may contain hyphens")
  else Ok req.

Definition insert_tenant (id : UUID) (req : TenantCreateRequest) : M unit :=
  stmt (λ e _ db,
    if tenant_exists db id then Err (ErrConstraint "tenants_pkey") else
    if exists_where (λ _ t, bool_decide (t_code t = Some (tc_Code req))) (tenants db)
    then Err (ErrConstraint "tenants_code_key") else
    Ok ((), db <| tenants := <[id := mkTenantRow (tc_Name req) (Some (tc_Code req))
                  (Some (tc_Email req)) (Some (tc_Phone req)) (Some "active") (Some "{}")
                  (env_now e) (env_now e)]> (tenants db) |>)).

(** Code 23505 is a violated UNIQUE or PRIMARY KEY constraint. *)
Definition unique_violation (x : error) : bool :=
  match x with ErrConstraint _ => true | _ => false end.
(** The message of a failed Begin or Commit is left out. *)
Definition create_tenant_tx (tenantID : UUID) (req : TenantCreateRequest) : M unit :=
  r ← attempt (tx (
    i ← attempt (insert_tenant tenantID req);
    match i with
    | Err x =>
      if unique_violation x then write_error 409 "CONFLICT" "Tenant code already exists"
      else write_error 500 "CREATE_TENANT_FAILED" "Failed to create tenant"
    | Ok _ =>
      r ← attempt (EnsureTenantRolesTx tenantID);
      match r with
      | Err _ => write_error 500 "CREATE_TENANT_FAILED" "Failed to create tenant roles"
      | Ok _ => mret (Commit ())
      end
    end));
  match r with
  | Ok _ => mret ()
  | Err (HTTPError status code message) => write_error status code message
  | Err _ => write_error 500 "CREATE_TENANT_FAILED" ""
  end.
Definition CreateTenant (r : Request) (body : option TenantCreateRequest) : M TenantResponse :=
  if negb (Method r =? "POST")%string then method_not_allowed else
  b ← body_of body;
  match validateTenantCreateRequest b with
  | Err x => invalid (error_text x)
  | Ok req =>
    tenantID ← new_uuid;
    _ ← create_tenant_tx tenantID req;
    mret (mkTenantResponse tenantID (tc_Name req) (tc_Code req) (tc_Email req) (tc_Phone req))
  end.

Definition GetTenant (r : Request) (ctx : Context) : M TenantResponse :=
  if negb (Method r =? "GET")%string then method_not_allowed else
  match TenantID ctx with
  | None => write_error 401 "TENANT_CONTEXT_NOT_FOUND" "Tenant context required"
  | Some tenantID =>
    t ← attempt (GetTenantInfo tenantID);
    match t with
    | Err _ => write_error 404 "TENANT_NOT_FOUND" "Tenant not found"
    | Ok t => mret (mkTenantResponse (ti_ID t) (ti_Name t) (ti_Code t) "" "")
    end
  end.
