(* ===== verification/AccessSpec.v ===== *)
(** * What sessions and roles promise

    The calls of the HTTP interface that change users, roles and tenants as one
    machine, with what no sequence of them can do. *)

From S2P Require Import Prelude GoStr Records Store Events ControlState AgentCommands PolicySync CommandLifecycle Nodes NodesSpec Lifecycle PublicNetwork Tenants Sessions Access.

Open Scope Z_scope.

(** ** Steps in a given environment *)

(** [changes] for one environment, whose new identifiers may matter. *)
Definition changes_at {A} (e : Env) (R : DB → DB → Prop) (m : M A) : Prop :=
  ∀ st, R (st_db st) (st_db (m e st).2).
Section changes_at.
Context (e : Env) (R : DB → DB → Prop) `{!PreOrder R}.
Lemma changes_at_all {A} (m : M A) : changes R m → changes_at e R m.
Proof. intros Hm st. apply Hm. Qed.
Lemma changes_at_bind {A B} (m : M A) (k : A → M B) (P : A → Prop) :
  changes_at e R m → (∀ st a st', m e st = (Ok a, st') → P a) →
  (∀ a, P a → changes_at e R (k a)) → changes_at e R (m ≫= k).
Proof.
  intros Hm HP Hk st. unfold mbind, M_bind. specialize (Hm st). specialize (HP st).
  destruct (m e st) as [[a|x] st1]; [|done]. etrans; [exact Hm|]. by apply Hk, (HP _ _ eq_refl).
Qed.
Lemma changes_at_seq {A B} (m : M A) (k : A → M B) :
  changes R m → (∀ a, changes_at e R (k a)) → changes_at e R (m ≫= k).
Proof. intros Hm Hk. apply (changes_at_bind _ _ (λ _, True)); auto using changes_at_all. Qed.
Lemma changes_at_attempt {A} (m : M A) : changes_at e R m → changes_at e R (attempt m).
Proof. intros Hm st. specialize (Hm st). unfold attempt. by destruct (m e st). Qed.
End changes_at.

Lemma changes_write_error (R : DB → DB → Prop) `{!PreOrder R} {A} status code message :
  changes R (write_error (A:=A) status code message).
Proof. apply (changes_fail R). Qed.
Lemma changes_body_of (R : DB → DB → Prop) `{!PreOrder R} {A} (b : option A) : changes R (body_of b).
Proof. unfold body_of. destruct b; [apply (changes_ret R)|apply (changes_write_error R)]. Qed.
#[export] Hint Resolve changes_write_error changes_body_of : aria.
#[export] Hint Extern 5 (PreOrder _) => typeclasses eauto : aria.

Lemma attempt_ok {A} (m : M A) e st r st' : attempt m e st = (Ok r, st') → m e st = (r, st').
Proof. unfold attempt. destruct (m e st) as [r' st1]. by intros [= -> ->]. Qed.

(** ** Roles of users *)

Definition is_super (role : string) : Prop := NormalizeRoleName role = "super_admin".
Lemma is_super_spec role : is_super role ↔ ToLower (TrimSpace role) = "super_admin".
Proof.
  unfold is_super, NormalizeRoleName. cbv zeta.
  destruct (ToLower (TrimSpace role) =? "member")%string eqn:H1;
    [apply String.eqb_eq in H1; rewrite H1; done|].
  destruct (ToLower (TrimSpace role) =? "owner")%string eqn:H2;
    [apply String.eqb_eq in H2; rewrite H2; done|].
  destruct (one_of _ _) eqn:H3; [done|]. split.
  - by intros ->.
  - intros Hs. rewrite Hs in H3. discriminate H3.
Qed.

Lemma normalizeTenantUserRole_ok role n :
  normalizeTenantUserRole role = Ok n → TrimSpace n = n ∧ ToLower n ≠ "super_admin".
Proof.
  unfold normalizeTenantUserRole. cbv zeta. destruct (TrimSpace role =? "")%string; [by intros [= <-]|].
  destruct (_ =? RoleSuperAdmin)%string eqn:Hs; [done|]. apply String.eqb_neq in Hs.
  destruct (one_of _ legacyTenantUserRoles); [|destruct (one_of _ _)]; intros [= <-].
  1,2: by rewrite TrimSpace_ToLower, TrimSpace_idemp, ToLower_idemp.
  by rewrite TrimSpace_idemp.
Qed.

Lemma role_alike_super t n id r :
  role_alike t n id r = true → TrimSpace n = n → ToLower n ≠ "super_admin" → ¬ is_super (rl_name r).
Proof.
  unfold role_alike. intros Hr Hn Hs. bools. rewrite is_super_spec, <- TrimSpace_ToLower.
  intros Hsup. apply Hs.
  match goal with H : ToLower (rl_name r) = _ |- _ => rewrite H in Hsup end.
  by rewrite TrimSpace_ToLower, Hn in Hsup.
Qed.

(** A role the user handlers store is never the platform role. *)
Lemma assignable_role_ok code t role e st r st' :
  assignable_role code t role e st = (Ok r, st') → ¬ is_super r.
Proof.
  unfold assignable_role, normalizeAssignableTenantUserRole, canonicalTenantRoleName, forbidden,
    invalid, write_error. intros (x & st1 & Hx & Hr)%bind_ok.
  apply attempt_ok in Hx as Hm. destruct x as [r'|y].
  2: by repeat case_match.
  injection Hr as <- <-. apply bind_ok in Hm as (n & st3 & Hn & Hm).
  unfold lift in Hn. injection Hn as Hn <-. apply normalizeTenantUserRole_ok in Hn as [Htrim Hlow].
  destruct (one_of n legacyTenantUserRoles) eqn:Hl.
  - injection Hm as <- <-. rewrite is_super_spec, Htrim. done.
  - apply bind_ok in Hm as (c & st4 & Hc & Hm). apply wrap_ok, query_ok in Hc as [Hc _].
    destruct c as [c|]; [|done]. injection Hm as <- <-. symmetry in Hc.
    apply fmap_Some in Hc as ([id row] & Hf & ->). apply first_by_elem, select_where_elem in Hf as [_ Hal].
    by eapply role_alike_super.
Qed.

(** ** How users evolve *)

(** Every user was there before, with no newer version of his tokens and, if he
    is a platform administrator, as one; or is new, under one of the identifiers
    [P], and is none. *)
Definition evolves (P : UUID → Prop) (db db' : DB) : Prop :=
  ∀ id u', users db' !! id = Some u' →
    (∃ u, users db !! id = Some u ∧ u_token_version u ≤ u_token_version u' ∧
          (is_super (u_role u') → is_super (u_role u))) ∨
    (P id ∧ ¬ is_super (u_role u')).
#[export] Instance evolves_preorder P : PreOrder (evolves P).
Proof.
  split.
  - intros db id u Hu. left. exists u. by split_and!.
  - intros a b c Hab Hbc id u'' Hu''. destruct (Hbc _ _ Hu'') as [(u' & Hu' & Hv & Hs)|?]; [|by right].
    destruct (Hab _ _ Hu') as [(u & Hu & Hv' & Hs')|[HP Hn]]; [left|right; tauto].
    exists u. split_and!; [done|lia|tauto].
Qed.

Lemma evolves_same P db db' : users db' = users db → evolves P db db'.
Proof. intros Heq id u Hu. rewrite Heq in Hu. left. exists u. by split_and!. Qed.
(** A row that is replaced. *)
Lemma evolves_insert P (db db' : DB) id u u' :
  users db' = <[id := u']> (users db) → users db !! id = Some u →
  u_token_version u ≤ u_token_version u' → (is_super (u_role u') → is_super (u_role u)) →
  evolves P db db'.
Proof.
  intros Heq Hu Hv Hs id' v Hv'. rewrite Heq in Hv'. left.
  apply lookup_insert_Some in Hv' as [[<- <-]|[_ Hv']]; [by exists u|]. exists v. by split_and!.
Qed.
Lemma evolves_update P (db db' : DB) p f :
  users db' = update_where p f (users db) →
  (∀ u, u_token_version u ≤ u_token_version (f u) ∧ u_role (f u) = u_role u) → evolves P db db'.
Proof.
  intros Heq Hf id u' Hu'. rewrite Heq in Hu'. left.
  apply lookup_update_where_Some in Hu' as (u & Hu & ->). exists u. destruct (Hf u) as [? Hr].
  split_and!; [done|by destruct (p id u)|]. destruct (p id u); [by rewrite Hr|done].
Qed.
Lemma evolves_delete P (db db' : DB) id : users db' = delete id (users db) → evolves P db db'.
Proof.
  intros Heq id' u Hu. rewrite Heq in Hu. apply lookup_delete_Some in Hu as [_ Hu].
  left. exists u. by split_and!.
Qed.

Section machine.
Context `{UserJWT, Bcrypt} (jwtSecret : string) (uuid_Parse : string → option UUID).
Context (enforcement : string).

(** The calls of the interface that write users, roles or tenants. *)
Inductive api_call :=
  | CallLogin (r : Request) (body : option LoginRequest)
  | CallRefresh (r : Request)
  | CallLogout (r : Request)
  | CallChangePassword (salt : string) (r : Request) (body : option ChangePasswordRequest)
  | CallUsers (salt : string) (r : Request) (ctx : Context) (body : Body) (t : UUID)
  | CallRoles (r : Request) (ctx : Context) (body : option RoleBody) (t : UUID)
  | CallCreateTenant (r : Request) (body : option TenantCreateRequest)
  | CallTenantLifecycle (t : UUID) (transition : TenantLifecycleTransition).

Definition api_step (c : api_call) : M unit :=
  match c with
  | CallLogin r body => best_effort (HandleLogin jwtSecret uuid_Parse r body)
  | CallRefresh r => best_effort (HandleRefresh jwtSecret uuid_Parse r)
  | CallLogout r => best_effort (HandleLogout jwtSecret uuid_Parse r)
  | CallChangePassword salt r body =>
    best_effort (HandleForceChangePassword jwtSecret uuid_Parse salt r body)
  | CallUsers salt r ctx body t =>
    best_effort (handleTenantUsers salt uuid_Parse enforcement r ctx body t)
  | CallRoles r ctx body t => best_effort (handleTenantRoles uuid_Parse enforcement r ctx body t)
  | CallCreateTenant r body => best_effort (CreateTenant r body)
  | CallTenantLifecycle t transition => best_effort (ApplyTenantLifecycleTransition t transition)
  end.
Fixpoint run_api (l : list (Env * api_call)) (st : St) : St :=
  match l with
  | [] => st
  | (e, c) :: rest => run_api rest (api_step c e st).2
  end.

(** ** Calls that leave a part of the tables alone *)

Section frames.
Context (R : DB → DB → Prop) `{!PreOrder R}.
Lemma GetRolePermissions_reads t n : changes R (GetRolePermissions t n).
Proof.
  unfold GetRolePermissions, wrap_rows. intros e st.
  pose proof (changes_query_row R (λ _ db, (λ kr, rl_permissions kr.2) <$>
    first_by (exact_first n) (select_where (role_alike t n) (roles db))) e st) as Hq.
  destruct (query_row _ e st) as [[a|x] st'] eqn:Hr; [|destruct x]; unfold wrap; rewrite ?Hr; exact Hq.
Qed.
Lemma GetTenantStatus_reads t : changes R (GetTenantStatus t).
Proof. unfold GetTenantStatus, scan_tenant_status. chg. Qed.
Lemma ValidateToken_reads s : changes R (ValidateToken jwtSecret s).
Proof. unfold ValidateToken. chg. Qed.
Lemma GetUserTokenVersion_reads s : changes R (GetUserTokenVersion uuid_Parse s).
Proof. unfold GetUserTokenVersion. chg. Qed.
Lemma select_user_reads s : changes R (select_user uuid_Parse s).
Proof.
  unfold select_user, sql_user. apply (changes_stmt R). intros e id db a db' Hr.
  by repeat case_match; simplify_eq.
Qed.
End frames.
#[local] Hint Resolve GetRolePermissions_reads GetTenantStatus_reads ValidateToken_reads
  GetUserTokenVersion_reads select_user_reads : aria.

Section reads.
Context (R : DB → DB → Prop) `{!PreOrder R}.
Lemma authorizeTenantPermission_reads ctx t p :
  changes R (authorizeTenantPermission enforcement ctx t p).
Proof. unfold authorizeTenantPermission, authorizeTenant, forbidden. chg. Qed.
Lemma require_tenant_active_reads t : changes R (require_tenant_active uuid_Parse t).
Proof. unfold require_tenant_active, verifyTenantActive. chg. Qed.
Lemma new_token_reads f u n r t v b : changes R (new_token jwtSecret f u n r t v b).
Proof. unfold new_token, GenerateTokenWithVersion. chg. Qed.
Lemma bearer_claims_reads r : changes R (bearer_claims jwtSecret r).
Proof. unfold bearer_claims, invalid_token. chg. Qed.
Lemma check_version_reads c code : changes R (check_version uuid_Parse c code).
Proof. unfold check_version, invalid_token. chg. Qed.
Lemma assignable_role_reads code t role : changes R (assignable_role code t role).
Proof.
  unfold assignable_role, normalizeAssignableTenantUserRole, canonicalTenantRoleName, forbidden, invalid.
  chg.
Qed.
Lemma HandleLogin_reads r body : changes R (HandleLogin jwtSecret uuid_Parse r body).
Proof.
  pose proof require_tenant_active_reads. pose proof new_token_reads.
  unfold HandleLogin, method_not_allowed. chg.
Qed.
End reads.
#[local] Hint Resolve authorizeTenantPermission_reads require_tenant_active_reads new_token_reads
  bearer_claims_reads check_version_reads assignable_role_reads HandleLogin_reads : aria.

(** ** Users under every call *)

Section users.
Context (P : UUID → Prop).

Lemma bump_version_evolves s v : changes (evolves P) (bump_version uuid_Parse s v).
Proof.
  unfold bump_version, sql_user. apply (changes_stmt (evolves P)). intros e id db a db' Hr.
  repeat case_match; simplify_eq/=; try reflexivity.
  bools. eapply evolves_insert; [done|done|simpl; lia|done].
Qed.
Lemma set_password_evolves s h : changes (evolves P) (set_password uuid_Parse s h).
Proof.
  unfold set_password, sql_user. apply (changes_stmt (evolves P)). intros e id db a db' Hr.
  repeat case_match; simplify_eq/=; try reflexivity.
  eapply evolves_insert; [done|done|simpl; lia|done].
Qed.
Lemma update_user_evolves t id hash role email :
  ¬ is_super role → changes (evolves P) (update_user t id hash role email).
Proof.
  intros Hs. unfold update_user. apply (changes_exec (evolves P)). intros e db.
  destruct (users db !! id) as [u|] eqn:Hu; [|reflexivity].
  destruct (of_tenant t id u); [|reflexivity].
  eapply evolves_insert; [done|done|simpl; lia|]. simpl. unfold or_keep. by destruct (role =? "")%string.
Qed.
Lemma delete_user_evolves t id : changes (evolves P) (delete_user t id).
Proof.
  unfold delete_user. apply (changes_exec (evolves P)). intros e db.
  destruct (users db !! id) as [u|]; [|reflexivity]. destruct (of_tenant t id u); [|reflexivity].
  by apply (evolves_delete P _ _ id).
Qed.
Lemma insert_user_evolves id row :
  P id → (∀ now, ¬ is_super (u_role (row now))) → changes (evolves P) (insert_user id row).
Proof.
  intros HP Hs. unfold insert_user. apply (changes_stmt (evolves P)). intros e i db a db' Hr.
  cbv zeta in Hr. destruct (users db !! id); [done|]. destruct (exists_where _ _); [done|].
  destruct (negb _); [done|]. injection Hr as _ <-. intros id' u' Hu'. simpl in Hu'.
  apply lookup_insert_Some in Hu' as [[<- <-]|[_ Hu']]; [by right|]. left. exists u'. by split_and!.
Qed.

Lemma HandleRefresh_evolves r : changes (evolves P) (HandleRefresh jwtSecret uuid_Parse r).
Proof. pose proof bump_version_evolves. unfold HandleRefresh, method_not_allowed, invalid_token. chg. Qed.
Lemma HandleLogout_evolves r : changes (evolves P) (HandleLogout jwtSecret uuid_Parse r).
Proof. pose proof bump_version_evolves. unfold HandleLogout, method_not_allowed, invalid_token. chg. Qed.
Lemma HandleForceChangePassword_evolves salt r body :
  changes (evolves P) (HandleForceChangePassword jwtSecret uuid_Parse salt r body).
Proof.
  pose proof set_password_evolves.
  unfold HandleForceChangePassword, method_not_allowed, invalid_token. chg.
Qed.
Lemma UpdateUser_evolves e salt body t id :
  changes_at e (evolves P) (UpdateUser salt uuid_Parse body t id).
Proof.
  unfold UpdateUser. apply (changes_at_seq e _); [apply (changes_body_of _)|]. intros req.
  destruct (uuid_Parse id) as [uid|]; [|apply changes_at_all, (changes_write_error _)].
  apply (changes_at_bind e _ _ _ (λ role, ¬ is_super role)).
  - apply changes_at_all. destruct (_ =? "")%string; chg.
  - intros st role st'. destruct (TrimSpace (uu_Role req) =? "")%string eqn:Hr.
    + intros [= <- _]. bools. rewrite is_super_spec. by rewrite Hr.
    + apply assignable_role_ok.
  - intros role Hs. apply changes_at_all. pose proof (λ a b c d, update_user_evolves a b c role d Hs).
    cbv zeta. chg.
Qed.
Lemma DeleteUser_evolves t id : changes (evolves P) (DeleteUser uuid_Parse t id).
Proof. pose proof delete_user_evolves. unfold DeleteUser. chg. Qed.
Lemma CreateUser_evolves e salt body t :
  (∀ n i, P (env_uuid e n i)) → changes_at e (evolves P) (CreateUser salt body t).
Proof.
  intros HP. unfold CreateUser. apply (changes_at_seq e _); [apply (changes_body_of _)|]. intros req.
  destruct (_ || _); [apply changes_at_all, (changes_write_error _)|].
  apply (changes_at_bind e _ _ _ (λ role, ¬ is_super role));
    [apply changes_at_all, (assignable_role_reads _)|intros ? ? ?; apply assignable_role_ok|].
  intros role Hs. destruct (bcrypt_generate _ _) as [hash|]; [|apply changes_at_all, (changes_write_error _)].
  apply (changes_at_bind e _ _ _ P); [apply changes_at_all, (changes_new_uuid _)| |].
  - intros st id st'. unfold new_uuid. intros [= <- _]. apply HP.
  - intros id Hid. apply changes_at_all.
    pose proof (λ row, insert_user_evolves id row Hid). chg.
Qed.
Lemma handleTenantUsers_evolves e salt r ctx body t :
  (∀ n i, P (env_uuid e n i)) →
  changes_at e (evolves P) (handleTenantUsers salt uuid_Parse enforcement r ctx body t).
Proof.
  intros HP. unfold handleTenantUsers, HandleTenantUsers, forbidden, method_not_allowed.
  apply (changes_at_seq e _); [apply (authorizeTenantPermission_reads _)|]. intros _. cbv zeta.
  destruct (_ && _ && _); [apply changes_at_all, (changes_write_error _)|].
  destruct (negb _); [apply changes_at_all, (changes_write_error _)|].
  repeat match goal with |- changes_at _ _ (if ?b then _ else _) => destruct b end.
  - apply (changes_at_bind e _ _ _ (λ _, True)); [apply UpdateUser_evolves|done|].
    intros; apply changes_at_all; chg.
  - apply changes_at_all. pose proof DeleteUser_evolves. chg.
  - apply changes_at_all, (changes_write_error _).
  - apply changes_at_all. unfold ListUsers. chg.
  - apply (changes_at_bind e _ _ _ (λ _, True)); [by apply CreateUser_evolves|done|].
    intros; apply changes_at_all; chg.
  - apply changes_at_all, (changes_write_error _).
Qed.

Lemma same_evolves {A} (m : M A) : changes (same users) m → changes (evolves P) m.
Proof. apply changes_weaken. intros db db'. apply evolves_same. Qed.
Lemma handleTenantRoles_users r ctx body t :
  changes (same users) (handleTenantRoles uuid_Parse enforcement r ctx body t).
Proof.
  unfold handleTenantRoles, handleRoleDetail, handleRoles, listRoles, getRole, createRole, updateRole,
    deleteRole, ListRoles, GetRoleByID, CreateRole, UpdateRole, DeleteRole, checked_permissions,
    method_not_allowed, invalid.
  frames.
Qed.
Lemma CreateTenant_users r body : changes (same users) (CreateTenant r body).
Proof.
  unfold CreateTenant, create_tenant_tx, insert_tenant, EnsureTenantRolesTx, createSystemRoles,
    upsert_system_role, method_not_allowed, invalid, set_role.
  frames.
Qed.
Lemma fail_incomplete_users key message :
  changes (same users) (failIncompleteAgentCommandsForNodeTx key message).
Proof. unfold failIncompleteAgentCommandsForNodeTx. frames. Qed.
Lemma stop_tenant_evolves t status : changes (evolves P) (stop_tenant t status).
Proof.
  pose proof (λ k m, same_evolves _ (fail_incomplete_users k m)).
  unfold stop_tenant, selectActiveTenantNodesForLifecycleTx.
  apply (changes_bind (evolves P)); [|intros _].
  - apply (changes_exec (evolves P)). intros e db. eapply evolves_update; [done|].
    intros u. split; [simpl; lia|done].
  - apply (changes_bind (evolves P)); [chg|intros l].
    apply (changes_bind (evolves P)); [|intros n; apply (changes_for_each (evolves P)); intros x;
      apply (changes_bind (evolves P)); [|intros; chg]];
      apply same_evolves; unfold update_nodes, revokeNodeCertificatesTx; frames.
Qed.
Lemma ApplyTenantLifecycleTransition_evolves t transition :
  changes (evolves P) (ApplyTenantLifecycleTransition t transition).
Proof.
  unfold ApplyTenantLifecycleTransition, scan_tenant_status. cbv zeta.
  destruct (_ =? "")%string; [chg|]. destruct (negb _); [chg|]. apply (changes_tx (evolves P)).
  pose proof stop_tenant_evolves. chg.
  - apply (changes_exec (evolves P)). intros. by apply evolves_same.
  - apply same_evolves. unfold createTenantLifecycleAuditEventTx, insert_audit_event. frames.
Qed.

Lemma api_step_evolves c e :
  (∀ n i, P (env_uuid e n i)) → changes_at e (evolves P) (api_step c).
Proof.
  intros HP. pose proof (HandleLogin_reads (evolves P)). pose proof HandleRefresh_evolves.
  pose proof HandleLogout_evolves. pose proof HandleForceChangePassword_evolves.
  pose proof (λ r ctx b t, same_evolves _ (handleTenantRoles_users r ctx b t)).
  pose proof (λ r b, same_evolves _ (CreateTenant_users r b)).
  pose proof ApplyTenantLifecycleTransition_evolves.
  destruct c; simpl.
  5: { apply (changes_at_bind e _ _ _ (λ _, True)); [|done|intros; apply changes_at_all; chg].
       by apply changes_at_attempt, handleTenantUsers_evolves. }
  all: apply changes_at_all; chg.
Qed.
Lemma run_api_evolves l st :
  Forall (λ ec, ∀ n i, P (env_uuid ec.1 n i)) l → evolves P (st_db st) (st_db (run_api l st)).
Proof.
  revert st. induction l as [|[e c] l IH]; intros st Hl; simpl; [reflexivity|].
  apply Forall_cons in Hl as [He Hl]. etrans; [apply (api_step_evolves c e He)|by apply IH].
Qed.
End users.

(** C12. The interface gives nobody the platform role: over any sequence of
    logins, refreshes, password changes, user, role and tenant requests, with any
    statement failing, a user whose role counts as super_admin already had such a
    role before. *)
Theorem super_admin_not_assignable l st id u' :
  users (st_db (run_api l st)) !! id = Some u' → NormalizeRoleName (u_role u') = "super_admin" →
  ∃ u, users (st_db st) !! id = Some u ∧ NormalizeRoleName (u_role u) = "super_admin".
Proof.
  intros Hu Hs. pose proof (run_api_evolves (λ _, True) l st) as Hrun.
  destruct (Hrun ltac:(by apply Forall_true) _ _ Hu) as [(u & Hu0 & _ & Hold)|[_ Hno]].
  - exists u. split; [exact Hu0|exact (Hold Hs)].
  - by destruct (Hno Hs).
Qed.

(** ** Sessions that ended *)

Definition token_of (r : Request) : string := extractHTTPAuthorizationToken (Authorization r).

(** The token of a request is older than its user. *)
Definition outdated (r : Request) (now : Time) (st : St) (id : UUID) : Prop :=
  ∃ claims u, user_parse now (getSecret jwtSecret) (token_of r) = UserClaims claims ∧
    uuid_Parse (c_UserID claims) = Some id ∧ users (st_db st) !! id = Some u ∧
    c_TokenVersion claims < u_token_version u.

Lemma ValidateToken_ok s e st c st' :
  ValidateToken jwtSecret s e st = (Ok c, st') →
  st' = st ∧ user_parse (env_go_now e) (getSecret jwtSecret) s = UserClaims c.
Proof.
  unfold ValidateToken, ask, mbind, M_bind.
  destruct (user_parse _ _ s) eqn:Hp; intros [= -> ->]. done.
Qed.
Lemma bearer_claims_ok r e st c st' :
  bearer_claims jwtSecret r e st = (Ok c, st') →
  st' = st ∧ user_parse (env_go_now e) (getSecret jwtSecret) (token_of r) = UserClaims c.
Proof.
  unfold bearer_claims, invalid_token, write_error. destruct (_ =? "")%string; [done|].
  intros (v & st1 & Hv & Hr)%bind_ok. apply attempt_ok in Hv. destruct v; [|done].
  apply ValidateToken_ok in Hv as [-> ?]. by injection Hr as -> ->.
Qed.
Lemma bump_version_ok s v e st w st' :
  bump_version uuid_Parse s v e st = (Ok (Some w), st') →
  ∃ id u, uuid_Parse s = Some id ∧ is_Some (users (st_db st) !! id) ∧
    users (st_db st') !! id = Some u ∧ u_token_version u = v + 1.
Proof.
  intros (Hs & _ & _)%stmt_ok. unfold sql_user in Hs.
  destruct (uuid_Parse s) as [id|]; [|done]. destruct (users (st_db st) !! id) as [u|] eqn:Hu; [|done].
  destruct (_ =? v); [|done]. destruct (negb _); [done|]. injection Hs as <- <-.
  eexists id, _. rewrite Hu. split_and!; [done|by eexists|simpl; by rewrite lookup_insert_eq|done].
Qed.
Lemma check_version_ok c code e st v st' :
  check_version uuid_Parse c code e st = (Ok v, st') →
  st_db st' = st_db st ∧ v = c_TokenVersion c ∧
  ∃ id u, uuid_Parse (TrimSpace (c_UserID c)) = Some id ∧ users (st_db st) !! id = Some u ∧
    u_token_version u = c_TokenVersion c.
Proof.
  unfold check_version, invalid_token, write_error, GetUserTokenVersion.
  intros (x & st1 & Hx & Hr)%bind_ok. apply attempt_ok in Hx.
  destruct x as [w|x]; [|by destruct x].
  destruct (uuid_Parse _) as [id|]; [|done]. apply query_row_ok in Hx as [Hx Hdb].
  apply fmap_Some in Hx as (u & Hu & ->). destruct (_ =? _) eqn:He; [|done]. injection Hr as <- <-.
  bools. split_and!; [done..|]. exists id, u. by split_and!.
Qed.

Lemma HandleLogout_ok r e st u st' :
  HandleLogout jwtSecret uuid_Parse r e st = (Ok u, st') →
  ∃ id, outdated r (env_go_now e) st' id ∧ is_Some (users (st_db st) !! id).
Proof.
  unfold HandleLogout, method_not_allowed, invalid_token, write_error.
  destruct (negb _); [done|]. intros (c & st1 & [-> Hc]%bearer_claims_ok & Hr)%bind_ok.
  apply bind_ok in Hr as (v & st2 & (Hdb & -> & _)%check_version_ok & Hr).
  apply bind_ok in Hr as (x & st3 & Hx & Hr). apply attempt_ok in Hx.
  destruct x as [[w|]|]; [|done..]. injection Hr as _ <-.
  apply bump_version_ok in Hx as (id & u' & Hid & Hold & Hu & Hv). rewrite Hdb in Hold.
  exists id. split; [|done]. exists c, u'. split_and!; [done..|lia].
Qed.
Lemma HandleRefresh_ok r e st s st' :
  HandleRefresh jwtSecret uuid_Parse r e st = (Ok s, st') →
  ∃ id, outdated r (env_go_now e) st' id ∧ is_Some (users (st_db st) !! id).
Proof.
  unfold HandleRefresh, method_not_allowed, invalid_token, write_error.
  destruct (negb _); [done|]. intros (c & st1 & [-> Hc]%bearer_claims_ok & Hr)%bind_ok.
  apply bind_ok in Hr as (x & st2 & Hx & Hr). apply attempt_ok in Hx.
  destruct x as [u0|x]; [|by destruct x].
  pose proof (select_user_reads (same (λ db, db)) (c_UserID c) e st) as Hdb2. rewrite Hx in Hdb2.
  destruct (_ =? _) eqn:He in Hr; [|done]. simpl in Hr. bools.
  apply bind_ok in Hr as (w & st3 & Ht & Hr).
  assert (st_db st3 = st_db st2) as Hdb3.
  { destruct (_ =? _)%string in Ht; [by injection Ht as _ <-|].
    pose proof (require_tenant_active_reads (same (λ db, db)) (tenant_text u0) e st2) as Hdb3.
    by rewrite Ht in Hdb3. }
  apply bind_ok in Hr as (y & st4 & Hy & Hr). apply attempt_ok in Hy.
  destruct y as [[v|]|]; [|done..]. apply bind_ok in Hr as (tok & st5 & Hn & [= _ <-]).
  pose proof (new_token_reads (same (λ db, db)) "Failed to refresh token" (c_UserID c) (u_username u0)
    (u_role u0) (tenant_text u0) v (must_change u0) e st4) as Hdb5. rewrite Hn in Hdb5.
  apply bump_version_ok in Hy as (id & u' & Hid & Hold & Hu & Hv).
  unfold same in Hdb2, Hdb5. simpl in Hdb2, Hdb5.
  exists id. rewrite Hdb3, Hdb2 in Hold. split; [|done]. exists c, u'. rewrite Hdb5.
  split_and!; [done..|lia].
Qed.

(** C4. A session that ended stays ended: once a logout or a refresh with a token
    succeeds, no request with that token passes the middleware again, after any
    sequence of requests to the sessions, users, roles and tenants interface and
    whichever of their statements fail, as long as new users get new identifiers.
    Reading a token gives the claims it was written with, and [uuid.Parse] is as
    [trimmed_names_same] says.  A restored backup is not among the requests: it
    starts the token versions over ([restored_versions_start_over]). *)
Theorem ended_session_stays_ended `{!UserJWTLaws} r e st st1 l r' e' :
  trimmed_names_same uuid_Parse →
  ((∃ u, HandleLogout jwtSecret uuid_Parse r e st = (Ok u, st1)) ∨
   (∃ s, HandleRefresh jwtSecret uuid_Parse r e st = (Ok s, st1))) →
  Forall (λ ec, ∀ n i, users (st_db st) !! env_uuid ec.1 n i = None) l →
  Authorization r' = Authorization r →
  is_ok (jwtAuthMiddleware jwtSecret uuid_Parse r' e' (run_api l st1)).1 = false.
Proof.
  intros Htrim Hended Hfresh Hauth.
  assert (∃ id, outdated r (env_go_now e) st1 id ∧ is_Some (users (st_db st) !! id))
    as (id & (c & u & Hc & Hid & Hu & Hv) & [u0 Hu0]).
  { destruct Hended as [[? Hl]|[? Hr]]; [by eapply HandleLogout_ok|by eapply HandleRefresh_ok]. }
  destruct (jwtAuthMiddleware _ _ _ _ _) as [[ctx|x] st3] eqn:Hm; [|done]. exfalso.
  revert Hm. unfold jwtAuthMiddleware, write_error, token_error. rewrite Hauth.
  destruct (_ =? "")%string; [done|]. cbv zeta. fold (token_of r). destruct (token_of r =? "")%string; [done|].
  intros (v & st2 & Hval & Hr)%bind_ok. apply attempt_ok in Hval.
  destruct v as [c'|x]; [|by destruct x]. apply ValidateToken_ok in Hval as [-> Hc'].
  rewrite <- (user_parse_claims _ _ _ _ _ _ Hc Hc') in Hr.
  apply bind_ok in Hr as (v & st4 & (_ & _ & id' & u' & Hid' & Hu' & Hv')%check_version_ok & _).
  rewrite (Htrim _ _ _ Hid Hid') in Hu'. clear Hid'.
  destruct (run_api_evolves (λ id, users (st_db st) !! id = None) l st1 Hfresh _ _ Hu') as [(u1 & Hu1 & Hle & _)|[Hnone _]].
  - rewrite Hu in Hu1. injection Hu1 as <-. lia.
  - by rewrite Hu0 in Hnone.
Qed.

(** ** A session from login on *)

Lemma extract_bearer s :
  s ≠ "" → Forall (λ c, is_space c = false) (String.list_ascii_of_string s) →
  extractHTTPAuthorizationToken ("Bearer " +:+ s) = s.
Proof.
  intros Hne Hs. unfold extractHTTPAuthorizationToken.
  assert (TrimSpace ("Bearer " +:+ s) = "Bearer " +:+ s) as ->.
  { by apply TrimSpace_app_nospace. }
  unfold Cut. rewrite list_ascii_app. cbn [String.list_ascii_of_string app cut_char Ascii.eqb].
  cbn. rewrite string_list_string. by apply TrimSpace_nospace.
Qed.

Lemma user_by_name_Some n db id u :
  user_by_name n db = Some (id, u) → users db !! id = Some u ∧ u_username u = n.
Proof.
  unfold user_by_name. intros Hh. apply head_Some_elem_of, select_where_elem in Hh as [Hu Hn]. by bools.
Qed.

(** The claims of the token a login gives. *)
Definition login_claims (id username : string) (u : UserRow) (now : Time) : Claims :=
  mkClaims id username (u_role u) (tenant_text u) (must_change u) (u_token_version u)
    (unix (now + 2 * 3600 * 1000000)) (unix now) jwtIssuer id.

Lemma ValidateToken_signed `{!UserJWTLaws} c s e st :
  jwtSecret ≠ "" → user_sign jwtSecret c = Some s → c_Issuer c = jwtIssuer →
  unix (env_go_now e) < c_ExpiresAt c → ValidateToken jwtSecret s e st = (Ok c, st).
Proof.
  intros Hsec Hsign Hi Hexp. unfold ValidateToken, ask, getSecret, mbind, M_bind.
  by rewrite (proj2 (String.eqb_neq _ _) Hsec), (user_parse_sign (env_go_now e) _ _ _ Hsign).
Qed.
Lemma check_version_run c code e st id u :
  uuid_Parse (TrimSpace (c_UserID c)) = Some id → users (st_db st) !! id = Some u →
  u_token_version u = c_TokenVersion c → env_fault e (st_tick st) = false →
  check_version uuid_Parse c code e st = (Ok (u_token_version u), mkSt (st_db st) (S (st_tick st))).
Proof.
  intros Hid Hu Hv Hf. unfold check_version, GetUserTokenVersion. rewrite Hid.
  rewrite (bind_run _ _ _ _ (Ok (u_token_version u)) (mkSt (st_db st) (S (st_tick st)))).
  - by rewrite Hv, Z.eqb_refl.
  - unfold attempt, query_row, stmt, stmt_rows. by rewrite Hf, Hu.
Qed.

(** What a login that succeeds gives. *)
Lemma HandleLogin_ok r body e st s st' :
  HandleLogin jwtSecret uuid_Parse r body e st = (Ok s, st') →
  st_db st' = st_db st ∧
  ∃ req u, body = Some req ∧ user_by_name (lr_Username req) (st_db st) = Some (s_id s, u) ∧
    bcrypt_compare (u_password_hash u) (lr_Password req) = true ∧
    (is_super (u_role u) ∨ ∃ t row, uuid_Parse (TrimSpace (tenant_text u)) = Some t ∧
       tenants (st_db st) !! t = Some row ∧
       EqualFold (TrimSpace (TrimSpace (default "" (t_status row)))) "active" = true) ∧
    s = mkSession (s_token s) 7200 (must_change u) (s_id s) (lr_Username req) (u_role u) (tenant_text u) ∧
    user_sign jwtSecret (login_claims (s_id s) (lr_Username req) u (env_go_now e)) = Some (s_token s) ∧
    jwtSecret ≠ "".
Proof.
  intros Hr. split.
  { pose proof (HandleLogin_reads (same (λ db, db)) r body e st) as Hdb. by rewrite Hr in Hdb. }
  revert Hr. unfold HandleLogin, method_not_allowed, write_error.
  destruct (negb _); [done|]. intros (req & st1 & Hb & Hr)%bind_ok.
  destruct body as [req'|]; [|done]. injection Hb as -> ->. exists req.
  destruct (_ || _); [done|]. apply bind_ok in Hr as (x & st2 & Hx & Hr). apply attempt_ok in Hx.
  destruct x as [[id u]|x]; [|by destruct x]. apply query_row_ok in Hx as [Hu Hdb].
  destruct (bcrypt_compare _ _) eqn:Hpw; [|done]. simpl in Hr.
  apply bind_ok in Hr as (w & st3 & Ht & Hr). apply bind_ok in Hr as (tok & st4 & Hn & [= <- <-]).
  exists u. simpl. split_and!; try done.
  - destruct (_ =? "super_admin")%string eqn:Hs in Ht; [left; by bools|right]. rewrite <- Hdb.
    unfold require_tenant_active in Ht. apply bind_ok in Ht as (y & st5 & Hy & Ht).
    apply attempt_ok in Hy. destruct y as [y|y]; [|by destruct (_ || _) in Ht].
    unfold verifyTenantActive in Hy. destruct (_ =? "")%string in Hy; [done|].
    destruct (uuid_Parse _) as [t|]; [|done]. exists t.
    apply bind_ok in Hy as (status & st6 & (_ & row & Hrow & ->)%GetTenantStatus_ok & Hy).
    exists row. split_and!; [done..|]. by destruct (EqualFold _ _).
  - unfold new_token in Hn. apply bind_ok in Hn as (z & st5 & Hz & Hn). apply attempt_ok in Hz.
    destruct z as [z|]; [|done]. injection Hn as <- <-. unfold GenerateTokenWithVersion, ask, lift in Hz.
    unfold mbind, M_bind, getSecret in Hz. destruct (jwtSecret =? "")%string; [done|].
    destruct (user_sign _ _); [|done]. by injection Hz as -> _.
  - unfold new_token, GenerateTokenWithVersion, getSecret in Hn. intros Hs. by rewrite Hs in Hn.
Qed.

(** C34. A login opens a session.  It succeeds only with the password of the user
    and, if he is no platform administrator, in a tenant that is active; a platform
    administrator logs in whatever his tenant is.  For the two hours after it the
    middleware passes a request with its token on under the identity, role and
    tenant of that user, on these conditions: the token version of the user is the
    one it was at the login, the statement that reads it does not fail, the user
    does not have to change his password or asks for one of the pages that are open
    to him then, and his identifier reads back as itself. *)
Theorem login_opens_session `{!UserJWTLaws} r body e st s st' r2 e2 st2 :
  HandleLogin jwtSecret uuid_Parse r body e st = (Ok s, st') →
  uuid_Parse (TrimSpace (s_id s)) = Some (s_id s) →
  u_token_version <$> users (st_db st2) !! s_id s = u_token_version <$> users (st_db st) !! s_id s →
  env_fault e2 (st_tick st2) = false →
  unix (env_go_now e2) < unix (env_go_now e + 2 * 3600 * 1000000) →
  Authorization r2 = "Bearer " +:+ s_token s →
  s_require_password_change s = false ∨ containsPath mcpWhitelist (Path r2) = true →
  (∃ req u, body = Some req ∧ users (st_db st) !! s_id s = Some u ∧ u_username u = lr_Username req ∧
     bcrypt_compare (u_password_hash u) (lr_Password req) = true ∧ s_role s = u_role u ∧
     (is_super (u_role u) ∨ ∃ t row, uuid_Parse (TrimSpace (tenant_text u)) = Some t ∧
        tenants (st_db st) !! t = Some row ∧
        EqualFold (TrimSpace (TrimSpace (default "" (t_status row)))) "active" = true)) ∧
  jwtAuthMiddleware jwtSecret uuid_Parse r2 e2 st2 =
    (Ok (mkContext (Some (s_id s)) (Some (s_username s)) (Some (s_role s))
           (request_tenant uuid_Parse r2 (s_role s) (s_tenant_id s))),
     mkSt (st_db st2) (S (st_tick st2))).
Proof.
  intros (_ & req & u & -> & Hu & Hpw & Hten & Hs & Hsign & Hsec)%HandleLogin_ok Hid Hver Hf Hexp Hauth Hmcp.
  apply user_by_name_Some in Hu as [Hu Hname]. split; [by exists req, u; rewrite Hs; simpl|].
  pose proof (user_sign_text _ _ _ Hsign) as [Hne Htext].
  unfold jwtAuthMiddleware. rewrite Hauth, (extract_bearer _ Hne Htext).
  change (("Bearer " +:+ s_token s =? "")%string) with false. cbv iota zeta.
  rewrite (proj2 (String.eqb_neq _ _) Hne). cbv iota.
  rewrite (bind_run _ _ _ _ _ _ (attempt_run _ _ _ _ _ (ValidateToken_signed _ _ e2 st2 Hsec Hsign eq_refl Hexp))).
  cbv iota beta. rewrite Hu in Hver. apply fmap_Some in Hver as (u2 & Hu2 & Hver).
  rewrite (bind_run _ _ _ _ _ _ (check_version_run (login_claims (s_id s) (lr_Username req) u (env_go_now e)) _ e2 st2 _ _ Hid Hu2 (eq_sym Hver) Hf)).
  cbn [login_claims c_MustChangePassword c_UserID c_Username c_Role c_TenantID].
  assert (must_change u && negb (containsPath mcpWhitelist (Path r2)) = false) as ->.
  { rewrite Hs in Hmcp. cbn [s_require_password_change] in Hmcp. destruct Hmcp as [-> | ->]; [done|by rewrite andb_false_r]. }
  rewrite Hs. reflexivity.
Qed.

(** ** Permissions *)

Lemma GetRolePermissions_ok t n e st ps st' :
  GetRolePermissions t n e st = (Ok ps, st') →
  ∃ id r, roles (st_db st) !! id = Some r ∧ rl_tenant_id r = t ∧
    ToLower (rl_name r) = ToLower n ∧ rl_permissions r = ps.
Proof.
  unfold GetRolePermissions, wrap_rows. intros Hr.
  assert (wrap ("failed to get permissions for role '" +:+ n +:+ "'") (query_row (λ _ db,
    (λ kr, rl_permissions kr.2) <$>
      first_by (exact_first n) (select_where (role_alike t n) (roles db)))) e st = (Ok ps, st')) as Hw.
  { destruct (query_row _ e st) as [[a|x] st1] eqn:Hq in Hr; [exact Hr|]. by destruct x. }
  apply wrap_ok, query_row_ok in Hw as [Hf _]. apply fmap_Some in Hf as ([id r] & Hf & ->).
  apply first_by_elem, select_where_elem in Hf as [Hr' Hal]. unfold role_alike in Hal. bools.
  by exists id, r.
Qed.

(** A permission check lets a request pass only for cause: the caller is a
    platform administrator, or belongs to the tenant of the request, which is
    active, and his role in it has the permission (unless checking is turned off or
    only audited, or no permission is asked for).  It changes nothing. *)
Theorem authorizeTenantPermission_sound ctx t permission e st audited st' :
  authorizeTenantPermission enforcement ctx t permission e st = (Ok audited, st') →
  st_db st' = st_db st ∧
  ∃ role, UserRole ctx = Some role ∧
  (role = "super_admin" ∨
   (TenantID ctx = Some t ∧
    (∃ row, tenants (st_db st) !! t = Some row ∧
       EqualFold (TrimSpace (default "" (t_status row))) "active" = true) ∧
    (rbac_mode enforcement = "off" ∨ permission = "" ∨
     (rbac_mode enforcement = "audit" ∧ audited = true) ∨
     ∃ id r, roles (st_db st) !! id = Some r ∧ rl_tenant_id r = t ∧
       ToLower (rl_name r) = ToLower (NormalizeRoleName role) ∧ permission ∈ rl_permissions r))).
Proof.
  intros Hr. split.
  { pose proof (authorizeTenantPermission_reads (same (λ db, db)) ctx t permission e st) as Hdb.
    by rewrite Hr in Hdb. }
  unfold authorizeTenantPermission in Hr. apply bind_ok in Hr as (u & st1 & Ha & Hr).
  unfold authorizeTenant, forbidden, write_error in Ha.
  destruct (UserRole ctx) as [role|] eqn:Hrole; [|done]. exists role. split; [done|].
  destruct (role =? "super_admin")%string eqn:Hsup; [left; by bools|right].
  destruct (TenantID ctx) as [own|]; [|done]. destruct (own =? t)%string eqn:Hown; [|done].
  simpl in Ha. bools. subst own. apply bind_ok in Ha as (x & st2 & Hx & Ha). apply attempt_ok in Hx.
  destruct x as [status|x]; [|by destruct x]. apply GetTenantStatus_ok in Hx as (Hdb2 & row & Hrow & ->).
  destruct (EqualFold _ _) eqn:Hact; [|done]. simpl in Ha. injection Ha as _ ->.
  split; [done|]. split; [by exists row|].
  destruct (rbac_mode enforcement =? "off")%string eqn:Hoff; [left; by bools|]. simpl in Hr.
  destruct (permission =? "")%string eqn:Hp; [right; left; by bools|].
  cbn [default] in Hr. rewrite (proj2 (String.eqb_neq _ _) Hsup) in Hr.
  apply bind_ok in Hr as (y & st3 & Hy & Hr). apply attempt_ok in Hy.
  destruct y as [ps|y]; [|done]. apply GetRolePermissions_ok in Hy as (id & r & Hr' & Ht & Hn & <-).
  rewrite Hdb2 in Hr'. right. right. destruct (containsString _ _) eqn:Hc.
  - right. exists id, r. split_and!; try done. by apply one_of_spec.
  - left. destruct (_ =? "audit")%string eqn:Haud; [|done]. injection Hr as <- _. by bools.
Qed.
End machine.
#[export] Hint Resolve GetRolePermissions_reads GetTenantStatus_reads ValidateToken_reads
  GetUserTokenVersion_reads select_user_reads authorizeTenantPermission_reads
  require_tenant_active_reads new_token_reads bearer_claims_reads check_version_reads
  assignable_role_reads HandleLogin_reads : aria.
