(* ===== verification/RolesSpec.v ===== *)
(** * What roles promise

    System roles keep their permissions under every request, and a new tenant has
    them. *)

From S2P Require Import Prelude GoStr Records Store Events ControlState AgentCommands PolicySync CommandLifecycle Nodes NodesSpec Lifecycle PublicNetwork Tenants Sessions Access AccessSpec.

Open Scope Z_scope.

(** ** System roles *)

(** [UNIQUE (tenant_id, name)]. *)
Definition roles_unique (db : DB) : Prop :=
  ∀ id r id' r', roles db !! id = Some r → roles db !! id' = Some r' →
    rl_tenant_id r = rl_tenant_id r' → rl_name r = rl_name r' → id = id'.
Definition has_role (t : UUID) (sr : string * string * list string) (db : DB) : Prop :=
  ∃ id r, roles db !! id = Some r ∧ rl_tenant_id r = t ∧ rl_name r = sr.1.1 ∧
    rl_is_system r = true ∧ rl_permissions r = sr.2.
Definition system_roles_ok (t : UUID) (srs : list (string * string * list string)) (db : DB) : Prop :=
  roles_unique db ∧ ∀ sr, sr ∈ srs → has_role t sr db.
Definition preserves (I : DB → Prop) (db db' : DB) : Prop := I db → I db'.
#[local] Instance preserves_preorder I : PreOrder (preserves I).
Proof. unfold preserves. split; red; tauto. Qed.

Lemma systemRoles_names sr sr' :
  sr ∈ systemRoles → sr' ∈ systemRoles → sr.1.1 = sr'.1.1 → sr.2 = sr'.2.
Proof.
  unfold systemRoles. rewrite !elem_of_cons, !elem_of_nil.
  intros [-> | [-> | [-> | []]]] [-> | [-> | [-> | []]]]; simpl; done.
Qed.

Lemma createSystemRoles_each (R : DB → DB → Prop) `{!PreOrder R} t :
  (∀ sr, sr ∈ systemRoles → changes R (upsert_system_role t sr.1.1 sr.1.2 sr.2)) →
  changes R (createSystemRoles t).
Proof.
  intros Hsr. unfold createSystemRoles, systemRoles. simpl.
  repeat (apply (changes_bind R); [apply (changes_wrap R); apply (Hsr (_, _, _)); set_solver|intros _]).
  apply (changes_ret R).
Qed.

Section system.
Context (t : UUID) (srs : list (string * string * list string)).
Context (Hsrs : ∀ sr, sr ∈ srs → sr ∈ systemRoles).
Let I := system_roles_ok t srs.

Lemma find_role_None t' n db id r :
  find_role t' n db = None → roles db !! id = Some r → rl_tenant_id r = t' → rl_name r = n → False.
Proof.
  unfold find_role. intros Hh Hr <- <-.
  assert ((id, r) ∈ select_where (role_named (rl_tenant_id r) (rl_name r)) (roles db)) as Hin.
  { apply select_where_elem. unfold role_named. by rewrite !String.eqb_refl. }
  destruct (select_where _ _); [by apply elem_of_nil in Hin|done].
Qed.
Lemma find_role_Some t' n db id r :
  find_role t' n db = Some (id, r) → roles db !! id = Some r ∧ rl_tenant_id r = t' ∧ rl_name r = n.
Proof.
  unfold find_role. intros Hh. apply head_Some_elem_of, select_where_elem in Hh as [Hr Hn].
  unfold role_named in Hn. by bools.
Qed.

(** A new role under a name that is free. *)
Lemma new_role_kept id r db :
  roles db !! id = None → find_role (rl_tenant_id r) (rl_name r) db = None →
  preserves I db (set_role id r db).
Proof.
  intros Hid Hfree [Hu Hs]. split.
  - intros a ra b rb Ha Hb Ht Hn. simpl in Ha, Hb.
    apply lookup_insert_Some in Ha as [[<- <-]|[Hna Ha]]; apply lookup_insert_Some in Hb as [[<- <-]|[Hnb Hb]];
      [done| | |by eapply Hu]; exfalso; by eapply find_role_None.
  - intros sr Hsr. destruct (Hs sr Hsr) as (id' & r' & Hr' & ?). exists id', r'. split; [|done].
    simpl. rewrite lookup_insert_ne; [done|]. intros ->. by rewrite Hr' in Hid.
Qed.
(** A role that is replaced under its name. *)
Lemma role_replaced_kept id r r' db :
  roles db !! id = Some r → rl_tenant_id r' = rl_tenant_id r → rl_name r' = rl_name r →
  (rl_is_system r = true → rl_is_system r' = true ∧
     ∀ sr, sr ∈ systemRoles → sr.1.1 = rl_name r → rl_permissions r' = sr.2) →
  preserves I db (set_role id r' db).
Proof.
  intros Hr Ht Hn Hsys [Hu Hs]. split.
  - intros a ra b rb Ha Hb Hta Hna. simpl in Ha, Hb.
    apply lookup_insert_Some in Ha as [[<- <-]|[_ Ha]]; apply lookup_insert_Some in Hb as [[<- <-]|[_ Hb]];
      [done|eapply Hu; [exact Hr|exact Hb|..]; congruence|eapply Hu; [exact Ha|exact Hr|..]; congruence|].
    by eapply Hu.
  - intros sr Hsr. destruct (Hs sr Hsr) as (id' & s' & Hs' & Hts & Hns & Hss & Hps).
    destruct (decide (id' = id)) as [-> | Hne].
    + rewrite Hr in Hs'. injection Hs' as <-. destruct (Hsys Hss) as [Hss' Hperm].
      exists id, r'. simpl. rewrite lookup_insert_eq. split_and!; try done; try congruence.
      by apply Hperm; [apply Hsrs|].
    + exists id', s'. simpl. by rewrite lookup_insert_ne.
Qed.

Lemma CreateRole_kept role : changes (preserves I) (CreateRole role).
Proof.
  unfold CreateRole. chg. apply (changes_stmt (preserves I)). intros e id db a db' Hr.
  destruct (negb _); [done|]. destruct (find_role _ _ db) eqn:Hf; [done|].
  destruct (roles db !! id) eqn:Hid; [done|]. injection Hr as _ <-. by apply new_role_kept.
Qed.
Lemma UpdateRole_kept t' id d ps : changes (preserves I) (UpdateRole t' id d ps).
Proof.
  unfold UpdateRole. chg. apply (changes_stmt (preserves I)). intros e i db a db' Hr.
  destruct (roles db !! id) as [r|] eqn:Hid; [|done].
  destruct (custom_role t' id id r) eqn:Hc; [|done]. injection Hr as _ <-.
  eapply role_replaced_kept; [exact Hid|done|done|]. unfold custom_role in Hc. bools. congruence.
Qed.
Lemma DeleteRole_kept t' id : changes (preserves I) (DeleteRole t' id).
Proof.
  unfold DeleteRole. chg. apply (changes_exec (preserves I)). intros e db [Hu Hs]. simpl. split.
  - intros a ra b rb Ha Hb. simpl in Ha, Hb. rewrite lookup_delete_where in Ha, Hb.
    destruct (roles db !! a) eqn:Ha', (roles db !! b) eqn:Hb'; simplify_eq/=; repeat case_match; simplify_eq.
    by eapply Hu.
  - intros sr Hsr. destruct (Hs sr Hsr) as (a & r & Ha & ? & ? & Hsys & ?). exists a, r. split; [|done].
    simpl. rewrite lookup_delete_where, Ha. unfold custom_role. by rewrite Hsys, andb_false_r.
Qed.
Lemma upsert_system_role_kept t' sr :
  sr ∈ systemRoles → changes (preserves I) (upsert_system_role t' sr.1.1 sr.1.2 sr.2).
Proof.
  intros Hsr. unfold upsert_system_role. apply (changes_stmt (preserves I)). intros e id db a db' Hr.
  destruct (find_role _ _ db) as [[id' r]|] eqn:Hf.
  - injection Hr as _ <-. apply find_role_Some in Hf as (Hid & Ht & Hn).
    eapply role_replaced_kept; [exact Hid|done|done|]. intros _. split; [done|].
    intros sr' Hsr' Hn'. simpl. apply systemRoles_names; congruence.
  - destruct (negb _); [done|]. destruct (roles db !! id) eqn:Hid; [done|]. injection Hr as _ <-.
    by apply new_role_kept.
Qed.
Lemma createSystemRoles_kept t' : changes (preserves I) (createSystemRoles t').
Proof. apply (createSystemRoles_each _). intros sr Hsr. by apply upsert_system_role_kept. Qed.
Lemma insert_tenant_roles id req : changes (same roles) (insert_tenant id req).
Proof. unfold insert_tenant. frames. Qed.
End system.


(** ** Under every call *)

(** Permissions as a role has them. *)
Definition permissions_wf (ps : list string) : Prop :=
  ps ≠ [] ∧ NoDup ps ∧ ∀ p, p ∈ ps → p ∈ allowedCustomRolePermissions.


(** What the writers of roles keep. *)
Class RoleInvariant (I : DB → Prop) := {
  ri_same db db' : roles db' = roles db → I db → I db';
  ri_create role : permissions_wf (R_Permissions role) → changes (preserves I) (CreateRole role);
  ri_update t id d ps : permissions_wf ps → changes (preserves I) (UpdateRole t id d ps);
  ri_delete t id : changes (preserves I) (DeleteRole t id);
  ri_system t : changes (preserves I) (createSystemRoles t);
}.


Section machine.
Context `{UserJWT, Bcrypt} (jwtSecret : string) (uuid_Parse : string → option UUID).
Context (enforcement : string).


Section invariant.
Context (I : DB → Prop) `{!RoleInvariant I}.

End invariant.

#[local] Instance system_roles_invariant t : RoleInvariant (system_roles_ok t systemRoles).
Proof.
  split.
  - intros db db' Heq [Hu Hs]. split.
    + intros a ra b rb. rewrite Heq. apply Hu.
    + intros sr Hsr. unfold has_role. rewrite Heq. by apply Hs.
  - intros role _. apply CreateRole_kept.
  - intros t' id d ps _. by apply UpdateRole_kept.
  - apply DeleteRole_kept.
  - by apply createSystemRoles_kept.
Qed.



End machine.

(** ** New tenants *)

Lemma upsert_system_role_ok t sr done_ e st u st' :
  sr ∈ systemRoles → (∀ x, x ∈ done_ → x ∈ systemRoles) →
  upsert_system_role t sr.1.1 sr.1.2 sr.2 e st = (Ok u, st') →
  system_roles_ok t done_ (st_db st) → system_roles_ok t (sr :: done_) (st_db st').
Proof.
  intros Hsr Hdone Hr HI.
  pose proof (upsert_system_role_kept t done_ Hdone t sr Hsr e st) as Hk. rewrite Hr in Hk.
  destruct (Hk HI) as [Hu Hs]. split; [done|]. intros x [-> | Hx]%elem_of_cons; [|by apply Hs].
  apply stmt_ok in Hr as (Hr & _ & _). destruct (find_role _ _ _) as [[id r]|] eqn:Hf.
  - injection Hr as _ Hdb. apply find_role_Some in Hf as (Hid & Ht & Hn).
    eexists id, _. rewrite <- Hdb. simpl. rewrite lookup_insert_eq. by split_and!.
  - destruct (negb _); [done|]. destruct (roles _ !! _) eqn:Hid; [done|]. injection Hr as _ Hdb.
    eexists _, _. rewrite <- Hdb. simpl. rewrite lookup_insert_eq. by split_and!.
Qed.
Lemma upsert_system_role_tenants t n d p : changes (same tenants) (upsert_system_role t n d p).
Proof. unfold upsert_system_role, set_role. frames. Qed.
Lemma createSystemRoles_ok t e st u st' :
  roles_unique (st_db st) → createSystemRoles t e st = (Ok u, st') →
  tenants (st_db st') = tenants (st_db st) ∧ system_roles_ok t systemRoles (st_db st').
Proof.
  intros Hu Hr.
  assert (∀ l done_ st, (∀ x, x ∈ l ++ done_ → x ∈ systemRoles) → system_roles_ok t done_ (st_db st) →
    for_each l (λ sr, wrap ("failed to create system role " +:+ sr.1.1)
      (upsert_system_role t sr.1.1 sr.1.2 sr.2)) e st = (Ok u, st') →
    tenants (st_db st') = tenants (st_db st) ∧
    system_roles_ok t (reverse l ++ done_) (st_db st')) as Hl.
  { clear. induction l as [|sr l IH]; intros done_ st Hin HI Hr; simpl in Hr.
    - injection Hr as _ <-. done.
    - apply bind_ok in Hr as (v & st1 & Hv%wrap_ok & Hr).
      pose proof (upsert_system_role_tenants t sr.1.1 sr.1.2 sr.2 e st) as Ht1. rewrite Hv in Ht1.
      apply (upsert_system_role_ok t sr done_) in Hv; [|set_solver..|done].
      apply (IH (sr :: done_)) in Hr as [Ht Hs]; [|set_solver|done].
      rewrite reverse_cons, <- app_assoc. split; [|done]. unfold same in Ht1. simpl in Ht1. congruence. }
  destruct (Hl systemRoles [] st) as [Ht [Hu' Hs]]; [set_solver| |exact Hr|].
  - split; [done|]. by intros sr ?%elem_of_nil.
  - split; [done|]. split; [done|]. intros sr Hsr. apply Hs. rewrite app_nil_r. by apply elem_of_reverse.
Qed.

Lemma validateTenantCreateRequest_ok b req :
  validateTenantCreateRequest b = Ok req →
  tenantCodePattern (tc_Code req) = true ∧ (2 ≤ String.length (tc_Code req) ≤ 20)%nat.
Proof.
  unfold validateTenantCreateRequest. cbv zeta. destruct (_ || _); [done|].
  destruct ((_ <? 2)%nat || _) eqn:Hlen; [done|]. destruct (negb _) eqn:Hpat; [done|].
  intros [= <-]. cbn [tc_Code] in *. apply negb_false_iff in Hpat.
  apply orb_false_iff in Hlen as [H1%Nat.ltb_ge H2%Nat.ltb_ge]. split; [done|lia].
Qed.
(** The transaction that creates a tenant, when it commits. *)
Lemma create_tenant_tx_ok id req e st u st' :
  roles_unique (st_db st) → create_tenant_tx id req e st = (Ok u, st') →
  ∃ row, tenants (st_db st) !! id = None ∧ tenants (st_db st') = <[id := row]> (tenants (st_db st)) ∧
    t_status row = Some "active" ∧ t_code row = Some (tc_Code req) ∧
    (∀ id' t, tenants (st_db st) !! id' = Some t → t_code t ≠ Some (tc_Code req)) ∧
    system_roles_ok id systemRoles (st_db st').
Proof.
  intros Hu Ht. unfold create_tenant_tx, write_error in Ht. apply bind_ok in Ht as (x & st4 & Hx & Ht).
  apply attempt_ok in Hx. destruct x as [x|x]; [|by destruct x]. injection Ht as _ <-.
  apply tx_ok in Hx as (st5 & [[Hb ->] | [Hb ->]]).
  2: { apply bind_ok in Hb as (i & st6 & _ & Hb). destruct i as [|y]; [|by destruct (unique_violation y)].
       apply bind_ok in Hb as (w & st7 & _ & Hb). by destruct w. }
  apply bind_ok in Hb as (i & st6 & Hi%attempt_ok & Hb).
  destruct i as [i|y]; [|by destruct (unique_violation y)].
  apply bind_ok in Hb as (w & st7 & Hw%attempt_ok & Hb). destruct w as [w|]; [|done]. injection Hb as _ <-.
  pose proof (insert_tenant_roles id req e (mkSt (st_db st) (S (st_tick st)))) as Hro.
  unfold same in Hro. rewrite Hi in Hro. cbn [snd st_db] in Hro.
  apply createSystemRoles_ok in Hw as [Htn Hsys].
  2: { intros a ra c rc. rewrite Hro. apply Hu. }
  apply stmt_ok in Hi as (Hi & _ & _). cbn [st_db st_tick] in Hi.
  destruct (tenant_exists _ _) eqn:Hex in Hi; [done|].
  destruct (exists_where _ _) eqn:Hcode in Hi; [done|]. injection Hi as _ Hdb.
  cbn [st_db]. eexists.
  split_and!; [|rewrite Htn, <- Hdb; reflexivity|reflexivity|reflexivity| |done].
  - unfold tenant_exists in Hex. by destruct (tenants (st_db st) !! id).
  - intros id' t' Ht' Hc. rewrite exists_where_false in Hcode.
    specialize (Hcode _ _ Ht'). by apply bool_decide_eq_false in Hcode.
Qed.

(** A tenant that is created is ready for use: it is new, active, has a
    well-formed code no other tenant has, and exactly then its three system roles
    with their permissions; the other tenants are as before. *)
Theorem CreateTenant_provisions r body e st resp st' :
  roles_unique (st_db st) → CreateTenant r body e st = (Ok resp, st') →
  (∃ row, tenants (st_db st) !! tr_ID resp = None ∧
     tenants (st_db st') = <[tr_ID resp := row]> (tenants (st_db st)) ∧
     t_status row = Some "active" ∧ t_code row = Some (tr_Code resp)) ∧
  tenantCodePattern (tr_Code resp) = true ∧ (2 ≤ String.length (tr_Code resp) ≤ 20)%nat ∧
  (∀ id t, tenants (st_db st) !! id = Some t → t_code t ≠ Some (tr_Code resp)) ∧
  system_roles_ok (tr_ID resp) systemRoles (st_db st').
Proof.
  intros Hu. unfold CreateTenant, method_not_allowed, invalid, write_error.
  destruct (negb _); [done|]. intros (b & st1 & Hb & Hr)%bind_ok.
  destruct body as [b'|]; [|done]. injection Hb as -> ->.
  destruct (validateTenantCreateRequest b) as [req|x] eqn:Hv; [|done].
  apply validateTenantCreateRequest_ok in Hv as [Hpat Hlen].
  apply bind_ok in Hr as (id & st2 & Hid & Hr).
  unfold new_uuid in Hid. injection Hid as <- <-. apply bind_ok in Hr as (u & st3 & Ht & [= <- <-]).
  apply create_tenant_tx_ok in Ht as (row & ? & ? & ? & ? & ? & ?); [|done].
  cbn [tr_ID tr_Code]. split_and!; try done; try lia. by exists row.
Qed.

(** ** Concrete runs *)

(** A token library that knows one token, and passwords that are their hashes. *)
Definition one_user_jwt (c : Claims) : UserJWT := {|
  user_sign _ c' := if decide (c' = c) then Some "signed" else None;
  user_parse now k s := match k with
    | Ok _ => if (s =? "signed")%string && (unix now <? c_ExpiresAt c) then UserClaims c
              else UserTokenError
    | Err _ => UserNoSecret
    end;
|}.
Lemma one_user_laws c : @UserJWTLaws (one_user_jwt c).
Proof.
  split; simpl.
  - intros now secret c' s Hs _ Hexp. case_decide; simplify_eq. simpl.
    by rewrite (proj2 (Z.ltb_lt _ _) Hexp).
  - intros now now' k s c1 c2 H1 H2. destruct k; [|done].
    destruct (_ && _); [|done]. destruct (_ && _); [|done]. congruence.
  - intros secret c' s Hs. case_decide; simplify_eq. split; [done|].
    repeat (apply List.Forall_cons; [reflexivity|]). apply List.Forall_nil.
Qed.
#[local] Instance plain_bcrypt : Bcrypt := {|
  bcrypt_generate _ p := Ok p;
  bcrypt_compare h p := (h =? p)%string;
|}.

Definition access_uuids (s : string) : option UUID :=
  if one_of s ["u1"; "u2"; "t1"] then Some s else None.
Lemma access_uuids_trim : trimmed_names_same access_uuids.
Proof.
  unfold access_uuids. intros s id id' H. destruct (one_of s _) eqn:Hs; [|discriminate H]. injection H as <-.
  apply one_of_spec in Hs. repeat (apply elem_of_cons in Hs as [-> | Hs]; [by intros [= <-]|]).
  by apply elem_of_nil in Hs.
Qed.

Definition ann (role : string) : UserRow :=
  mkUserRow "ann" "secret" (Some "t1") role None None 4 0 0.
Definition root : UserRow := mkUserRow "root" "toor" None "super_admin" None (Some true) 0 0 0.
(** A tenant without roles, a user of it and a platform administrator. *)
Definition bare_db (role : string) : DB :=
  empty_db <| tenants := {["t1" := mkTenantRow "T" None None None (Some "active") None 0 0]} |>
    <| users := <["u1" := ann role]> {["u2" := root]} |>.
Definition access_st (role : string) : St := (createSystemRoles "t1" (env_at 0) (mkSt (bare_db role) 0)).2.
Lemma access_st_roles role : system_roles_ok "t1" systemRoles (st_db (access_st role)).
Proof.
  assert (is_ok (createSystemRoles "t1" (env_at 0) (mkSt (bare_db role) 0)).1 = true) as Hok
    by (vm_compute; reflexivity).
  unfold access_st. destruct (createSystemRoles _ _ _) as [[u|] st'] eqn:Hr; [|discriminate Hok].
  apply createSystemRoles_ok in Hr as [_ Hs]; [exact Hs|].
  intros a ra b rb Ha. exfalso. exact (lookup_empty_Some (M:=gmap UUID) a ra Ha).
Qed.

(** The session of a user who logged in at time 1. *)
Definition ann_claims (role : string) : Claims :=
  mkClaims "u1" "ann" role "t1" false 4 7200 0 jwtIssuer "u1".
#[local] Instance sample_user_jwt : UserJWT := one_user_jwt (ann_claims "viewer").
Definition with_token (method path : string) : Request := mkRequest method path "Bearer signed" "".
Definition ann_ctx (role : string) : Context :=
  mkContext (Some "u1") (Some "ann") (Some role) (Some "t1").
Definition users_path : string := "/api/v2/tenants/t1/users".

Lemma login_opens_session_witness :
  let r := mkRequest "POST" "/api/v2/auth/login" "" "" in
  let r2 := with_token "GET" users_path in
  let st := access_st "viewer" in
  ∃ s st', HandleLogin "key" access_uuids r (Some (mkLoginRequest "ann" "secret")) (env_at 1) st = (Ok s, st') ∧
    jwtAuthMiddleware "key" access_uuids r2 (env_at 9) st =
      (Ok (mkContext (Some "u1") (Some "ann") (Some "viewer") (Some "t1")),
       mkSt (st_db st) (S (st_tick st))).
Proof.
  intros r r2 st.
  assert ((HandleLogin "key" access_uuids r (Some (mkLoginRequest "ann" "secret")) (env_at 1) st).1 =
    Ok (mkSession "signed" 7200 false "u1" "ann" "viewer" "t1")) as Hok by (vm_compute; reflexivity).
  destruct (HandleLogin _ _ _ _ _ _) as [res st'] eqn:Hrun. cbn [fst] in Hok. rewrite Hok in Hrun |- *.
  eexists _, st'. split; [reflexivity|].
  exact (proj2 (@login_opens_session sample_user_jwt plain_bcrypt "key" access_uuids
    (one_user_laws _) r (Some (mkLoginRequest "ann" "secret")) (env_at 1) st _ st' r2 (env_at 9) st
    Hrun eq_refl eq_refl eq_refl eq_refl eq_refl (or_introl eq_refl))).
Defined.

Lemma super_admin_not_assignable_witness :
  let body := mkBody (Some (mkCreateUser "eve" "pw" "" "Super_Admin")) None in
  let l := [(env_at 3, CallUsers "" (with_token "POST" users_path) (ann_ctx "admin") body "t1")] in
  ∃ u, users (st_db (access_st "admin")) !! "u2" = Some u ∧
       NormalizeRoleName (u_role u) = "super_admin".
Proof.
  intros body l.
  apply (super_admin_not_assignable "key" access_uuids "" l (access_st "admin") "u2" root);
    vm_compute; reflexivity.
Defined.

Lemma ended_session_stays_ended_witness :
  let r := with_token "POST" "/api/v2/auth/logout" in
  let l := [(env_at 20, CallLogin (mkRequest "POST" "/api/v2/auth/login" "" "")
                          (Some (mkLoginRequest "ann" "secret")))] in
  ∃ st1, HandleLogout "key" access_uuids r (env_at 9) (access_st "viewer") = (Ok (), st1) ∧
    is_ok (jwtAuthMiddleware "key" access_uuids (with_token "GET" users_path) (env_at 30)
             (run_api "key" access_uuids "" l st1)).1 = false.
Proof.
  intros r l.
  assert ((HandleLogout "key" access_uuids r (env_at 9) (access_st "viewer")).1 = Ok ()) as Hok
    by (vm_compute; reflexivity).
  destruct (HandleLogout _ _ _ _ _) as [res st1] eqn:Hrun. cbn [fst] in Hok. rewrite Hok in Hrun |- *.
  exists st1. split; [reflexivity|].
  refine (@ended_session_stays_ended sample_user_jwt plain_bcrypt "key" access_uuids ""
    (one_user_laws _) r (env_at 9) (access_st "viewer") st1 l (with_token "GET" users_path) (env_at 30)
    access_uuids_trim (or_introl (ex_intro _ () Hrun)) _ eq_refl).
  apply List.Forall_cons; [|apply List.Forall_nil]. intros n i.
  change (users (st_db (access_st "viewer"))) with (users (bare_db "viewer")).
  cbn [fst]. change (users (bare_db "viewer")) with (<["u1" := ann "viewer"]> ({["u2" := root]} : gmap UUID UserRow)).
  rewrite lookup_insert_ne by (intros Heq; discriminate Heq).
  apply lookup_singleton_ne. intros Heq. discriminate Heq.
Defined.

Lemma authorizeTenantPermission_sound_witness :
  ∃ st', authorizeTenantPermission "" (ann_ctx "viewer") "t1" "nodes:read" (env_at 1) (access_st "viewer") =
           (Ok false, st') ∧ st_db st' = st_db (access_st "viewer").
Proof.
  assert ((authorizeTenantPermission "" (ann_ctx "viewer") "t1" "nodes:read" (env_at 1)
             (access_st "viewer")).1 = Ok false) as Hok by (vm_compute; reflexivity).
  destruct (authorizeTenantPermission _ _ _ _ _ _) as [res st'] eqn:Hrun. cbn [fst] in Hok.
  rewrite Hok in Hrun |- *. exists st'. split; [reflexivity|].
  exact (proj1 (authorizeTenantPermission_sound "" (ann_ctx "viewer") "t1" "nodes:read" (env_at 1)
    (access_st "viewer") false st' Hrun)).
Defined.



Lemma CreateTenant_provisions_witness :
  let r := mkRequest "POST" "/api/v2/tenants" "" "" in
  ∃ resp st', CreateTenant r (Some (mkTenantCreate "Acme" " acme-1 " "" "")) (env_at 2) (access_st "viewer") =
      (Ok resp, st') ∧ tr_Code resp = "acme-1" ∧ system_roles_ok (tr_ID resp) systemRoles (st_db st').
Proof.
  intros r.
  assert (tr_Code <$> match (CreateTenant r (Some (mkTenantCreate "Acme" " acme-1 " "" "")) (env_at 2)
            (access_st "viewer")).1 with Ok x => Some x | Err _ => None end = Some "acme-1") as Hok
    by (vm_compute; reflexivity).
  destruct (CreateTenant _ _ _ _) as [[resp|] st'] eqn:Hrun; [|discriminate Hok]. injection Hok as Hcode.
  exists resp, st'. split; [reflexivity|]. split; [exact Hcode|].
  apply (CreateTenant_provisions r (Some (mkTenantCreate "Acme" " acme-1 " "" "")) (env_at 2)
    (access_st "viewer") resp st' (proj1 (access_st_roles "viewer")) Hrun).
Defined.

(** ** Where access control falls short *)

(** A custom role may be called Owner; a user who is given it is stored with the
    legacy role of that name and has the permissions of an administrator. *)
Lemma custom_owner_is_admin :
  let roleBody := Some (mkRoleBody "Owner" "" ["nodes:read"]) in
  let userBody := mkBody (Some (mkCreateUser "eve" "pw" "" "Owner")) None in
  let st := run_api "key" access_uuids ""
    [(env_at 3, CallRoles (with_token "POST" "/api/v2/tenants/t1/roles") (ann_ctx "admin") roleBody "t1");
     (env_at 4, CallUsers "" (with_token "POST" users_path) (ann_ctx "admin") userBody "t1")]
    (access_st "admin") in
  (GetRoleByName "t1" "Owner" (env_at 5) st).1 ≫= (λ r, Ok (R_Permissions r)) = Ok ["nodes:read"] ∧
  (λ kr, u_role kr.2) <$> user_by_name "eve" (st_db st) = Some "owner" ∧
  is_ok (authorizeTenantPermission "" (mkContext None None (Some "owner") (Some "t1")) "t1"
           "settings:write" (env_at 5) st).1 = true.
Proof. vm_compute. repeat split. Qed.

(** A role of blanks skips the validation of roles and is stored as it is. *)
Lemma blank_role_stored :
  let body := mkBody None (Some (mkUpdateUser "" "" "  ")) in
  let st := run_api "key" access_uuids ""
    [(env_at 3, CallUsers "" (with_token "PUT" "/api/v2/tenants/t1/users/u1") (ann_ctx "admin") body "t1")]
    (access_st "admin") in
  u_role <$> users (st_db st) !! "u1" = Some "  ".
Proof. vm_compute. reflexivity. Qed.

(** Changing the role or the password of a user leaves his sessions, and with them
    his old role, in force. *)
Lemma changed_user_keeps_session :
  let body := mkBody None (Some (mkUpdateUser "new" "" "operator")) in
  let st := run_api "key" access_uuids ""
    [(env_at 3, CallUsers "" (with_token "PUT" "/api/v2/tenants/t1/users/u1") (ann_ctx "admin") body "t1")]
    (access_st "viewer") in
  u_role <$> users (st_db st) !! "u1" = Some "operator" ∧
  (jwtAuthMiddleware "key" access_uuids (with_token "GET" users_path) (env_at 4) st).1 =
    Ok (ann_ctx "viewer").
Proof. vm_compute. split; reflexivity. Qed.

(** The token of a session that was logged out still changes the password. *)
Lemma ended_session_changes_password :
  let st := run_api "key" access_uuids ""
    [(env_at 3, CallLogout (with_token "POST" "/api/v2/auth/logout"));
     (env_at 4, CallChangePassword "" (with_token "POST" "/api/v2/auth/force-change-password")
                  (Some (mkChangePassword "secret" "changed")))]
    (access_st "viewer") in
  (λ u, (u_token_version u, u_password_hash u)) <$> users (st_db st) !! "u1" = Some (6, "changed").
Proof. vm_compute. reflexivity. Qed.
