(* ===== verification/Dispatch.v ===== *)
(** * Policy mutations of the HTTP API

    The part of [internal/api/v2/setup.go] and [operations.go] every policy
    handler goes through: the node of a request, the sync request of a change,
    the transaction around it and the answer with the node's summary. *)

From S2P Require Import Prelude GoStr Records Store Events ControlState AgentCommands PolicySync Nodes Sessions Access.

Open Scope Z_scope.

(** ** Answers *)

Record dispatch := mkDispatch {
  di_command_id : UUID;
  di_status : string;
  di_desired_state_version : string;
  di_desired_state_updated_at : option Time;
  di_policy_name : option string;
  di_last_delivery : option PolicyDelivery;
}.
(** A value of the map a policy handler answers with. *)
Inductive field :=
  | FText (s : string)
  | FInt (z : Z)
  | FBool (b : bool)
  | FNull
  | FTime (t : Time)
  | FDispatch (d : dispatch)
  | FDelivery (d : PolicyDelivery)
  | FDeliveries (l : list PolicyDelivery)
  | FCommand (c : option AgentCommand).
Abbreviation payload := (gmap string field).
Definition field_text (f : field) : option string := match f with FText s => Some s | _ => None end.
Definition json_text (j : json) : option string := match j with JString s => Some s | _ => None end.

(** [err.Error()] where a handler writes it. *)
Definition error_message (x : error) : string :=
  match x with
  | ErrorString msg => msg
  | ErrAmbiguousPolicyConflict msg => "ambiguous policy conflict: " +:+ msg
  | ErrNoRows => "sql: no rows in result set"
  | RouteConflictError cidr existing hostname region _ _ _ =>
    "route " +:+ cidr +:+ " conflicts with route " +:+ existing +:+ " advertised by node "
    +:+ hostname +:+ " in region " +:+ region
  | _ => ""
  end.

(** ** The summary of a node *)

Definition no_policy_statuses : list string := ["deleted"; "suspended"; "banned"].
Definition nodeAvailabilityStatus (now : Time) (node : Node) : string :=
  let status := ToLower (TrimSpace (N_Status node)) in
  if one_of status no_policy_statuses then status
  else if N_LastSeen node <=? 0 then "unknown"
  else if unix now - N_LastSeen node <=? 60 then "online" else "offline".
Definition nodeUptimeSeconds (now : Time) (node : Node) : Z :=
  if N_RegisteredAt node <=? 0 then 0 else Z.max 0 (unix now - N_RegisteredAt node).

Definition lastCommandTimestamp (cmd : option AgentCommand) : option Time :=
  c ← cmd;
  match CompletedAt c, AcknowledgedAt c, SentAt c with
  | Some t, _, _ => Some t
  | None, Some t, _ => Some t
  | None, None, Some t => Some t
  | None, None, None => Some (CreatedAt c)
  end.
Definition lastAppliedTimestamp (cmd : option AgentCommand) : option Time :=
  c ← cmd;
  if (Status c =? AgentCommandStatusCompleted)%string
  then Some (default (UpdatedAt c) (CompletedAt c)) else None.
Definition lastCommandError (cmd : option AgentCommand) : string :=
  match cmd with
  | Some c => if (Status c =? AgentCommandStatusFailed)%string then Message c else ""
  | None => ""
  end.
Definition valueOrEmpty (cmd : option AgentCommand) (getter : AgentCommand → string) : string :=
  match cmd with Some c => getter c | None => "" end.

Definition being_run (status : string) : bool :=
  one_of status [AgentCommandStatusSent; AgentCommandStatusAcknowledged].
Definition command_configuration (lastCommand : option AgentCommand) : string :=
  match lastCommand with
  | Some c =>
    if (Status c =? AgentCommandStatusCompleted)%string then "applied"
    else if (Status c =? AgentCommandStatusFailed)%string then "error"
    else if (Status c =? AgentCommandStatusStale)%string then "stale"
    else if being_run (Status c) then "in_progress" else "idle"
  | None => "idle"
  end.
Definition deriveConfigurationStatus (controlState : option NodeControlState)
    (lastCommand : option AgentCommand) (pendingCmds : Z) : string :=
  if 0 <? pendingCmds then
    match lastCommand with
    | Some c => if being_run (Status c) then "in_progress" else "pending"
    | None => "pending"
    end
  else
    match controlState with
    | Some s =>
      if negb (ncs_LastSyncError s =? "")%string || (ncs_ObservedState s =? "error")%string then "error"
      else if negb (ncs_DesiredStateVersion s =? "")%string then
        if (ncs_DesiredStateVersion s =? ncs_AppliedStateVersion s)%string then "applied" else "pending"
      else if (ncs_ObservedState s =? "healthy")%string then "applied"
      else command_configuration lastCommand
    | None => command_configuration lastCommand
    end.
(** The text of a convergence status. *)
Definition convergence_text (s : ConvergenceStatus) : string :=
  match s with
  | StatusConverged => "converged"
  | StatusPending => "pending"
  | StatusDiverged => "diverged"
  | StatusOffline => "offline"
  end.
Definition stateConvergenceStatus (now : Time) (node : Node) (controlState : option NodeControlState)
    (configurationStatus : string) : string :=
  let isOnline := (nodeAvailabilityStatus now node =? "online")%string in
  match controlState with
  | None => convergence_text (if isOnline then StatusConverged else StatusOffline)
  | Some s =>
    let status := GetConvergenceStatus s isOnline in
    if bool_decide (status = StatusConverged) && (configurationStatus =? "in_progress")%string
    then convergence_text StatusPending else convergence_text status
  end.

(** The entries of the summary that are computed; the others copy the node and
    its control state. *)
Record NodeSummary := mkNodeSummary {
  ns_node : Node;
  ns_control_state : option NodeControlState;
  ns_availability_status : string;
  ns_configuration_status : string;
  ns_last_sync_at : Time + Z;               (* a time, or last_seen in seconds *)
  ns_pending_cmds : Z;
  ns_uptime : Z;
  ns_last_command : option AgentCommand;
  ns_last_command_status : string;
  ns_last_command_message : string;
  ns_last_command_error : string;
  ns_last_command_at : option Time;
  ns_last_applied_at : option Time;
  ns_observed_state : string;
  ns_state_convergence : string;
}.
Definition buildNodeOperationsSummary (node : Node) : M NodeSummary :=
  pendingCmds ← CountIncompleteAgentCommands (N_PublicKey node);
  lastCommand ← GetLastAgentCommand (N_PublicKey node);
  controlState ← GetNodeControlState (N_TenantID node) (N_ID node);
  now ← ask env_go_now;
  let configurationStatus := deriveConfigurationStatus controlState lastCommand pendingCmds in
  let lastSyncAt := match controlState ≫= ncs_LastSyncAt with
                    | Some t => inl t | None => inr (N_LastSeen node) end in
  let lastAppliedAt := match controlState ≫= ncs_AppliedStateUpdatedAt with
                       | Some t => Some t | None => lastAppliedTimestamp lastCommand end in
  let observed := match controlState with
    | Some s => if (ncs_ObservedState s =? "")%string then configurationStatus else ncs_ObservedState s
    | None => configurationStatus end in
  let convergence := match controlState with
    | Some _ => stateConvergenceStatus now node controlState configurationStatus
    | None => "idle" end in
  mret (mkNodeSummary node controlState (nodeAvailabilityStatus now node) configurationStatus lastSyncAt
    pendingCmds (nodeUptimeSeconds now node) lastCommand (valueOrEmpty lastCommand Status)
    (valueOrEmpty lastCommand Message) (lastCommandError lastCommand)
    (lastCommandTimestamp lastCommand) lastAppliedAt observed convergence).
Definition failTimedOutNodeCommands (node : Node) : M unit :=
  if (TrimSpace (N_PublicKey node) =? "")%string then mret ()
  else best_effort (FailTimedOutAgentCommandsForNode (N_PublicKey node)).

(** ** The node of a request *)

Section node.
Context (uuid_Parse : string → option UUID).

Definition errInvalidNodeID : error := ErrorString "invalid node id".
Definition getTenantNodeRecord (nodeID : string) (tenantID : UUID) : M Node :=
  match uuid_Parse nodeID with
  | None => fail errInvalidNodeID
  | Some nodeUUID =>
    node ← GetNodeByID nodeUUID;
    match node with
    | None => fail ErrNoRows
    | Some node =>
      if negb (N_TenantID node =? tenantID)%string then fail ErrNoRows else
      if EqualFold (TrimSpace (N_Status node)) "deleted" then fail ErrNoRows else mret node
    end
  end.
Definition writeNodeLookupError {A} (x : error) : M A :=
  match x with
  | ErrNoRows => write_error 404 "NODE_NOT_FOUND" "Node not found"
  | _ => if bool_decide (x = errInvalidNodeID) then invalid "Invalid node ID"
         else write_error 500 "GET_NODES_FAILED" "Failed to load node"
  end.
(** The lookup at the head of a handler. *)
Definition node_of_request (nodeID : string) (tenantID : UUID) : M Node :=
  r ← attempt (getTenantNodeRecord nodeID tenantID);
  match r with Ok node => mret node | Err x => writeNodeLookupError x end.
End node.

Definition inactivePolicyMutationMessage (node : Node) : string :=
  let status := ToLower (TrimSpace (N_Status node)) in
  if one_of status no_policy_statuses
  then "Node status " +:+ status +:+ " does not allow policy changes" else "".
(** [if writeInactivePolicyMutationError(w, node) { return }]. *)
Definition require_policy_node (node : Node) : M unit :=
  let message := inactivePolicyMutationMessage node in
  if negb (message =? "")%string then write_error 409 "CONFLICT" message else mret ().

(** ** Requests *)

(** The identity under which the delivery of a change is recorded: the first
    text that is not empty, in the order of the keys, among the answer's values
    and then the metadata. *)
Definition refKeys : list string := ["id"; "rule_id"; "policy_ref"; "cidr"; "route"].
Definition nameKeys : list string := ["name"; "rule_name"; "policy_name"; "description"].
Fixpoint first_text (lookup : string → option string) (keys : list string) : string :=
  match keys with
  | [] => ""
  | key :: rest =>
    match lookup key with
    | Some val => if (val =? "")%string then first_text lookup rest else val
    | None => first_text lookup rest
    end
  end.
Definition first_candidate (keys : list string) (data : payload) (metadata : object) : string :=
  let v := first_text (λ key, data !! key ≫= field_text) keys in
  if (v =? "")%string then first_text (λ key, metadata !! key ≫= json_text) keys else v.
Definition inferPolicyDeliveryIdentity (data : payload) (metadata : object) : string * string :=
  (first_candidate refKeys data metadata, first_candidate nameKeys data metadata).

Definition with_texts (l : list (string * string)) (m : object) : object :=
  foldl (λ m kv, <[kv.1 := JString kv.2]> m) m l.
Definition buildPolicySyncRequest (node : Node) (domain action policyRef policyName : string)
    (metadata : object) : M PolicySyncRequest :=
  desiredVersion ← NewDesiredStateVersion;
  let name := TrimSpace policyName in
  let desiredMetadata := with_texts ([("domain", domain); ("action", action);
      ("policy_ref", TrimSpace policyRef)]
      ++ if (name =? "")%string then [] else [("policy_name", name)]) metadata in
  let params := metadata ∪ with_texts [("domain", domain); ("action", action);
      ("node_id", N_ID node); ("hostname", N_Hostname node);
      ("desired_state_version", desiredVersion)] ∅ in
  let deliveryMetadata := with_texts [("domain", domain); ("action", action); ("command", "sync");
      ("desired_state_version", desiredVersion)] metadata in
  mret (mkPolicySyncRequest (N_TenantID node) (N_ID node) (N_PublicKey node) domain action
    (TrimSpace policyRef) name desiredVersion (Some desiredMetadata) (Some params)
    (Some deliveryMetadata) 1 60).

Definition policySyncDispatch (result : PolicySyncResult) : dispatch :=
  let delivery := sr_Delivery result in
  mkDispatch (ID (sr_Command result)) (Status (sr_Command result)) (sr_DesiredStateVersion result)
    (ncs_DesiredStateUpdatedAt (sr_ControlState result))
    (d ← delivery; if (d_PolicyName d =? "")%string then None else Some (d_PolicyName d))
    delivery.

Definition queueNodePolicySync (node : Node) (domain action policyRef policyName : string)
    (metadata : object) : M (dispatch * option PolicyDelivery) :=
  req ← buildPolicySyncRequest node domain action policyRef policyName metadata;
  result ← QueuePolicySync req;
  mret (policySyncDispatch result, sr_Delivery result).

Definition AuditPolicyChanged : string := "policy.changed".
Definition recordPolicyChangedAudit (node : Node) (domain action policyRef policyName : string)
    (d : dispatch) : M unit :=
  if (N_ID node =? uuid_Nil)%string || (N_TenantID node =? uuid_Nil)%string then mret () else
  let name := TrimSpace policyName in
  best_effort (CreateAuditEvent (mkAuditEvent (N_TenantID node) (Some (N_ID node)) AuditPolicyChanged
    "user" "Policy changed"
    (with_texts ([("policy_domain", TrimSpace domain); ("policy_ref", TrimSpace policyRef);
        ("action", TrimSpace action); ("source", "api.v2")]
        ++ (if (name =? "")%string then [] else [("policy_name", name)])
        ++ [("desired_state_version", di_desired_state_version d); ("command_id", di_command_id d)]) ∅))).

(** ** The answer of a change *)

(** The dispatch, the delivery and, when they can be read, the last command. *)
Definition answer (node : Node) (domain action policyRef policyName : string) (d : dispatch)
    (delivery : option PolicyDelivery) (data : payload) : M payload :=
  let data := <["dispatch" := FDispatch d]> data in
  let data := match delivery with
    | Some x => <["delivery_history" := FDeliveries [x]]> (<["last_delivery" := FDelivery x]> data)
    | None => data end in
  _ ← recordPolicyChangedAudit node domain action policyRef policyName d;
  summary ← attempt (buildNodeOperationsSummary node);
  mret (match summary with
    | Ok s => <["last_command" := FCommand (ns_last_command s)]>
              (<["last_command_status" := FText (ns_last_command_status s)]>
              (<["last_command_error" := FText (ns_last_command_error s)]> data))
    | Err _ => data end).

Definition writePolicyMutationSuccess (node : Node) (domain action : string) (data : payload)
    (message : string) (metadata : object) : M payload :=
  _ ← require_policy_node node;
  let '(policyRef, policyName) := inferPolicyDeliveryIdentity data metadata in
  r ← attempt (queueNodePolicySync node domain action policyRef policyName metadata);
  match r with
  | Err _ => write_error 500 "INTERNAL_ERROR" (message +:+ ": policy dispatch failed")
  | Ok (d, delivery) => answer node domain action policyRef policyName d delivery data
  end.

(** [mutate] changes the rows and gives the values of the answer and the metadata,
    which it may extend. *)
Definition mutation_request (node : Node) (domain action : string) (mutate : M (payload * object))
    : M (PolicySyncRequest * payload * string * string) :=
  '(data, metadata) ← mutate;
  let '(policyRef, policyName) := inferPolicyDeliveryIdentity data metadata in
  req ← buildPolicySyncRequest node domain action policyRef policyName metadata;
  mret (req, data, policyRef, policyName).
(** [MutatePolicyAndQueueSync] with what the closure leaves in the variables of the
    handler. *)
Definition mutate_and_queue {A} (mutate : M (PolicySyncRequest * A)) : M (PolicySyncResult * A) :=
  '(req, a, result) ← tx ('(req, a) ← mutate; r ← queuePolicySyncTx req; mret (Commit (req, a, r)));
  _ ← recordCommandQueuedAudit req (sr_Command result);
  mret (result, a).
Definition writeTransactionalPolicyMutationSuccess (node : Node) (domain action message : string)
    (mutate : M (payload * object)) : M payload :=
  _ ← require_policy_node node;
  r ← attempt (mutate_and_queue (
        '(req, data, policyRef, policyName) ← mutation_request node domain action mutate;
        mret (req, (data, policyRef, policyName))));
  match r with
  | Err ErrNoRows => write_error 404 "NOT_FOUND" "Policy item not found"
  | Err (ErrAmbiguousPolicyConflict msg) =>
    write_error 409 "CONFLICT" (error_message (ErrAmbiguousPolicyConflict msg))
  | Err _ => write_error 500 "INTERNAL_ERROR" (message +:+ ": policy dispatch failed")
  | Ok (result, (data, policyRef, policyName)) =>
    answer node domain action policyRef policyName (policySyncDispatch result)
      (sr_Delivery result) data
  end.

Definition mapCommandStatusToPolicyStatus (status : string) : string :=
  if (status =? AgentCommandStatusPending)%string then "pending"
  else if being_run status then "in_progress"
  else if (status =? AgentCommandStatusCompleted)%string then "applied"
  else if (status =? AgentCommandStatusFailed)%string then "error"
  else if (status =? AgentCommandStatusStale)%string then "stale" else "idle".
Definition pendingCountForCommandStatus (status : string) : Z :=
  if one_of status [AgentCommandStatusPending; AgentCommandStatusSent; AgentCommandStatusAcknowledged]
  then 1 else 0.
