(* ===== verification/PolicyValidation.v ===== *)
(** * Checks of policy requests

    The validation functions of [internal/api/v2/security.go]; then port filters,
    which the validation and the conflict check read alike. *)

From S2P Require Import Prelude GoStr Records PolicyConflict Store Sessions Access Dispatch.

Open Scope Z_scope.

(** [if writePolicyValidationError(w, err) { return }]. *)
Definition writePolicyValidationError (r : result unit) : M unit :=
  match r with Ok _ => mret () | Err x => invalid (error_message x) end.
Definition refuse {A} (message : string) : result A := Err (ErrorString message).

Definition validatePolicyByteField (fieldName : string) (value : Z) : result unit :=
  if (value <? 0) || (255 <? value) then refuse (fieldName +:+ " must be between 0 and 255") else Ok ().
Definition validateACLPriorityField (value : Z) : result unit :=
  if (value <? 1) || (10000 <? value) then refuse "priority must be between 1 and 10000" else Ok ().
Definition validatePolicyDirectionField (value : string) : result unit :=
  if one_of (ToLower (TrimSpace value)) [""; "ingress"; "in"; "egress"; "out"; "both"; "all"]
  then Ok () else refuse "direction must be ingress, egress, or both".

Definition normalizeQoSModeField (value defaultMode : string) : result string :=
  let v := ToLower (TrimSpace value) in
  if (v =? "")%string then Ok defaultMode
  else if one_of v ["auto"; "policing"; "shaping"] then Ok v
  else refuse "mode must be auto, policing, or shaping".
Definition validateQoSModeField (value : string) : result unit :=
  _ ← normalizeQoSModeField value "auto"; Ok ().
Definition qosModeOrDefault (mode : string) : string :=
  match normalizeQoSModeField mode "auto" with Ok m => m | Err _ => "auto" end.
Definition validateQoSMatchFields (protocol srcPort dstPort : option Z) : result unit :=
  if bool_decide (protocol ≠ None) then refuse "qos protocol matching is not supported yet" else
  if bool_decide (srcPort ≠ None) || bool_decide (dstPort ≠ None)
  then refuse "qos port matching is not supported yet" else Ok ().

(** ** Port filters *)

Definition parseACLPort (value : string) : result Z :=
  match Atoi (TrimSpace value) with
  | Some port =>
    if (port <? 0) || (65535 <? port) then refuse "ACL port must be between 0 and 65535" else Ok port
  | None => refuse "ACL port must be between 0 and 65535"
  end.
Definition parseACLPortRange (value : string) : result (Z * Z) :=
  if existsb (λ c, Ascii.eqb c "-"%char) (String.list_ascii_of_string value) then
    match Split value "-" with
    | [lo; hi] =>
      start ← parseACLPort lo;
      end_ ← parseACLPort hi;
      Ok (start, end_)
    | _ => refuse ("invalid ACL port range " +:+ Quote value)
    end
  else port ← parseACLPort value; Ok (port, port).

(** The optional action after a colon. *)
Definition check_port_action (piece : string) : result unit :=
  match Atoi (TrimSpace piece) with
  | Some action =>
    if (action <? 0) || (1 <? action) then refuse ("invalid ACL port action " +:+ Quote piece) else Ok ()
  | None => refuse ("invalid ACL port action " +:+ Quote piece)
  end.
Definition check_port_entry (part : string) : result unit :=
  match Split part ":" with
  | rangePiece :: rest =>
    _ ← (match rest with
         | [] => Ok ()
         | [action] => check_port_action action
         | _ => refuse ("invalid ACL port filter " +:+ Quote part)
         end : result unit);
    let rangePart := TrimSpace rangePiece in
    if (rangePart =? "")%string then refuse ("invalid ACL port filter " +:+ Quote part) else
    '(start, end_) ← parseACLPortRange rangePart;
    if end_ <? start
    then refuse ("invalid ACL port range " +:+ Itoa start +:+ "-" +:+ Itoa end_) else Ok ()
  | [] => Ok ()
  end.
(** The loop over the comma-separated parts; parts without text do not count. *)
Fixpoint check_port_entries (entries : nat) (parts : list string) : result unit :=
  match parts with
  | [] => match entries with
          | O => refuse "ACL ports must include at least one port"
          | S _ => Ok ()
          end
  | rawPart :: rest =>
    let part := TrimSpace rawPart in
    if (part =? "")%string then check_port_entries entries rest else
    _ ← check_port_entry part;
    check_port_entries (S entries) rest
  end.
Definition validateACLPortsSyntax (ports : string) : result unit :=
  let trimmed := TrimSpace ports in
  if (trimmed =? "")%string || EqualFold trimmed "all" then Ok ()
  else check_port_entries 0 (Split trimmed ",").

Definition aclHasRuntimePortFilter (ports : string) (dstPort : Z) : bool :=
  let normalized := TrimSpace ports in
  (negb (normalized =? "")%string && negb (EqualFold normalized "all")) || (0 <? dstPort).
Definition validateACLPortFields (protocol : Z) (ports : string) (dstPort : Z) : result unit :=
  if (dstPort <? 0) || (65535 <? dstPort) then refuse "dst_port must be between 0 and 65535" else
  if negb (aclHasRuntimePortFilter ports dstPort) then Ok () else
  if negb ((protocol =? 0) || (protocol =? 6) || (protocol =? 17))
  then refuse "ACL port filters require any, tcp, or udp protocol"
  else validateACLPortsSyntax ports.

(** ** Networks *)

Definition policyInputCIDRIsAny (value : string) : bool :=
  one_of (ToLower (TrimSpace value)) [""; "any"; "0"; "0.0.0.0/0"; "::/0"].
Definition normalizePolicyCIDRInput (value : string) : string :=
  let trimmed := TrimSpace value in
  if policyInputCIDRIsAny trimmed then "" else trimmed.
(** The one network of a QoS rule that names no group. *)
Definition qosDirectGroupCIDR (group srcCIDR dstCIDR direction : string) : string :=
  let group := normalizePolicyCIDRInput group in
  let srcCIDR := normalizePolicyCIDRInput srcCIDR in
  let dstCIDR := normalizePolicyCIDRInput dstCIDR in
  if negb (TrimSpace group =? "")%string then group
  else if EqualFold (TrimSpace direction) "ingress" && negb (TrimSpace srcCIDR =? "")%string then srcCIDR
  else if negb (TrimSpace dstCIDR =? "")%string then dstCIDR
  else srcCIDR.

Definition nullUUIDFromPtr (value : option UUID) : NullUUID :=
  match value with
  | Some u => if (u =? uuid_Nil)%string then None else Some u
  | None => None
  end.

(** ** Port filters are read alike

    Port filters are read twice: by [validateACLPortsSyntax] when a rule is sent,
    and by [policyPortIntervals] when rules are compared for conflicts.  The second
    drops what it cannot read; nothing the first accepts is dropped. *)

(** *** Splitting and trimming *)

Lemma trim_space_left c l : is_space c = true → trim (c :: l) = trim l.
Proof. intros Hc. unfold trim. simpl. by rewrite Hc. Qed.
Lemma trim_left_app_space l c : is_space c = true →
  trim_left (l ++ [c]) = match trim_left l with [] => [] | m => m ++ [c] end.
Proof.
  intros Hc. induction l as [|d l IH]; simpl; [by rewrite Hc|]. by destruct (is_space d).
Qed.
Lemma trim_space_right c l : is_space c = true → trim (l ++ [c]) = trim l.
Proof.
  intros Hc. unfold trim. rewrite trim_left_app_space by done.
  destruct (trim_left l) as [|d m] eqn:Hm; [done|]. rewrite rev_app_distr. cbn [rev app trim_left]. by rewrite Hc.
Qed.
Section split.
Context (sep : ascii) (Hsep : is_space sep = false).

Lemma split_char_cons l : ∃ f fs, split_char sep l = f :: fs.
Proof. destruct l as [|c l]; simpl; [eauto|]. destruct (Ascii.eqb c sep); [eauto|]. destruct (split_char sep l); eauto. Qed.
Lemma split_space_left c l : is_space c = true → trim <$> split_char sep (c :: l) = trim <$> split_char sep l.
Proof.
  intros Hc. simpl. assert (Ascii.eqb c sep = false) as -> by (apply Ascii.eqb_neq; congruence).
  destruct (split_char_cons l) as (f & fs & ->). simpl. by rewrite trim_space_left.
Qed.
Lemma split_char_snoc l c : c ≠ sep → ∃ fs f, split_char sep l = fs ++ [f] ∧ split_char sep (l ++ [c]) = fs ++ [f ++ [c]].
Proof.
  intros Hc%Ascii.eqb_neq. induction l as [|d l (fs & f & IH & IHc)]; simpl.
  { rewrite Hc. by exists [], []. }
  rewrite IH, IHc. destruct (Ascii.eqb d sep); [by exists ([] :: fs), f|].
  destruct fs as [|g fs]; simpl; [by exists [], (d :: f)|by exists ((d :: g) :: fs), f].
Qed.
Lemma split_space_right c l : is_space c = true → trim <$> split_char sep (l ++ [c]) = trim <$> split_char sep l.
Proof.
  intros Hc. destruct (split_char_snoc l c) as (fs & f & -> & ->); [congruence|].
  by rewrite !fmap_app, !fmap_cons, trim_space_right.
Qed.
Lemma split_trim l : trim <$> split_char sep (trim l) = trim <$> split_char sep l.
Proof.
  assert (∀ m, trim <$> split_char sep (trim_left m) = trim <$> split_char sep m) as Hl.
  { induction m as [|c m IH]; [done|]. cbn [trim_left]. destruct (is_space c) eqn:Hc; [|done].
    by rewrite split_space_left. }
  rewrite <-(Hl l). unfold trim at 2. generalize (trim_left l). clear l. intros l.
  induction l as [|c l IH] using rev_ind; [done|]. rewrite rev_app_distr. cbn [rev app trim_left].
  destruct (is_space c) eqn:Hc; [by rewrite split_space_right|]. cbn [rev]. by rewrite rev_involutive.
Qed.
(** The first field is the text before the separator, if there is one. *)
Lemma split_char_head l : head (split_char sep l) = Some (match cut_char sep l with Some (a, _) => a | None => l end).
Proof.
  induction l as [|c l IH]; [done|]. simpl. destruct (Ascii.eqb c sep); [done|].
  destruct (split_char_cons l) as (f & fs & Hs). rewrite Hs in *. simpl in *. injection IH as ->.
  by destruct (cut_char sep l) as [[]|].
Qed.
(** One field is the text; two are what is before and after the only separator. *)
Lemma split_char_one l b : split_char sep l = [b] → l = b.
Proof.
  revert b. induction l as [|c l IH]; intros b; simpl; [by intros [= <-]|].
  destruct (split_char_cons l) as (f & fs & Hs). rewrite Hs in *. destruct (Ascii.eqb c sep); [done|].
  intros [= <- ->]. by rewrite (IH f).
Qed.
Lemma split_char_two l a b : split_char sep l = [a; b] → cut_char sep l = Some (a, b).
Proof.
  revert a. induction l as [|c l IH]; intros a; [done|]. simpl. destruct (Ascii.eqb c sep).
  - intros [= <- Hl]. by rewrite (split_char_one l b).
  - destruct (split_char sep l) as [|f fs] eqn:Hs; [done|]. intros [= <- ->]. by rewrite (IH f eq_refl).
Qed.
End split.

Lemma Split_trim s sep : is_space sep = false → TrimSpace <$> Split (TrimSpace s) sep = TrimSpace <$> Split s sep.
Proof.
  intros Hs. unfold Split, TrimSpace at 1 3. rewrite <-!list_fmap_compose.
  assert (∀ l : list text, ((λ s0, String.string_of_list_ascii (trim (String.list_ascii_of_string s0))) ∘
    String.string_of_list_ascii) <$> l = String.string_of_list_ascii <$> (trim <$> l)) as Hc.
  { intros l. rewrite <-list_fmap_compose. apply list_fmap_ext. intros ? x _. simpl. by rewrite list_string_list. }
  rewrite !Hc. unfold TrimSpace. by rewrite list_string_list, split_trim.
Qed.
Lemma Split_head s sep : head (Split s sep) = Some (match Cut s sep with Some (a, _) => a | None => s end).
Proof.
  unfold Split, Cut. pose proof (split_char_head sep (String.list_ascii_of_string s)) as Hh.
  destruct (split_char sep _) as [|f fs]; [done|]. simpl in *. injection Hh as ->.
  destruct (cut_char sep _) as [[]|]; [done|]. by rewrite string_list_string.
Qed.
Lemma Split_two s sep a b : Split s sep = [a; b] → Cut s sep = Some (a, b).
Proof.
  unfold Split, Cut. destruct (split_char sep _) as [|f [|g [|h fs]]] eqn:Hs; try done.
  intros [= <- <-]. by rewrite (split_char_two _ _ _ _ Hs).
Qed.
Lemma Cut_none s sep : existsb (λ c, Ascii.eqb c sep) (String.list_ascii_of_string s) = false → Cut s sep = None.
Proof.
  intros He. unfold Cut. rewrite cut_char_none; [done|]. apply Forall_forall. intros c Hc ->.
  assert (existsb (λ c, Ascii.eqb c sep) (String.list_ascii_of_string s) = true); [|congruence].
  apply existsb_exists. exists sep. split; [by apply list_elem_of_In|apply Ascii.eqb_refl].
Qed.

(** *** One entry *)

(** The range the validator reads of an entry: what precedes a colon. *)
Definition entry_range (part : string) : result (Z * Z) :=
  parseACLPortRange (TrimSpace (default "" (head (Split part ":")))).

Lemma parseACLPort_ok s n : parseACLPort s = Ok n → Atoi (TrimSpace s) = Some n ∧ 0 ≤ n ≤ 65535.
Proof.
  unfold parseACLPort. destruct (Atoi _) as [p|]; [|done]. destruct (_ || _) eqn:Hr; [done|].
  intros [= <-]. apply orb_false_iff in Hr. split; [done|lia].
Qed.
Lemma clampPort_id n : 0 ≤ n ≤ 65535 → clampPort n = n.
Proof.
  intros Hn. unfold clampPort. destruct (Z.ltb_spec n 0); [lia|]. destruct (Z.ltb_spec 65535 n); lia.
Qed.
Lemma accepted_entry raw : TrimSpace raw ≠ "" → is_ok (check_port_entry (TrimSpace raw)) = true →
  ∃ i, policyPortInterval raw = Some i ∧ entry_range (TrimSpace raw) = Ok (start i, end_ i) ∧
       0 ≤ start i ≤ end_ i ∧ end_ i ≤ 65535.
Proof.
  intros Hne Hok. unfold policyPortInterval, entry_range. cbv zeta. rewrite (proj2 (String.eqb_neq _ _) Hne).
  pose proof (Split_head (TrimSpace raw) ":") as Hh. unfold check_port_entry in Hok.
  destruct (Split (TrimSpace raw) ":") as [|piece rest]; [done|]. cbn [head] in Hh |- *. injection Hh as Hh.
  assert (match Cut (TrimSpace raw) ":" with Some (p, _) => TrimSpace p | None => TrimSpace raw end = TrimSpace piece) as ->.
  { rewrite Hh. destruct (Cut _ _) as [[]|]; [done|]. by rewrite TrimSpace_idemp. }
  clear Hh. change (default "" (Some piece)) with piece. generalize (TrimSpace_idemp piece).
  unfold mbind, result_bind in Hok.
  destruct (match rest with [] => Ok () | [action] => check_port_action action | _ => _ end) as [u|]; [|done].
  generalize dependent (TrimSpace piece). intros p Hok Hp. cbv zeta in Hok. destruct (p =? "")%string; [done|].
  destruct (parseACLPortRange p) as [[a b]|] eqn:Hr; [|done]. destruct (Z.ltb_spec b a) as [|Hab]; [done|].
  unfold parseACLPortRange in Hr. destruct (existsb _ _) eqn:He in Hr.
  - destruct (Split p "-") as [|lo [|hi [|? ?]]] eqn:Hs; try done. apply Split_two in Hs as ->.
    unfold mbind, result_bind in Hr. destruct (parseACLPort lo) as [x|] eqn:Hlo; [|done].
    destruct (parseACLPort hi) as [y|] eqn:Hhi; [|done]. injection Hr as -> ->.
    apply parseACLPort_ok in Hlo as [-> Ha]. apply parseACLPort_ok in Hhi as [-> Hb].
    rewrite (proj2 (Z.leb_le a b) Hab), !clampPort_id by done. eexists. split_and!; [done|done|simpl; lia..].
  - rewrite (Cut_none _ _ He). unfold mbind, result_bind in Hr. destruct (parseACLPort p) as [x|] eqn:Hx; [|done].
    injection Hr as <- <-. apply parseACLPort_ok in Hx as [Hx Ha]. rewrite Hp in Hx. rewrite Hx, !clampPort_id by done.
    eexists. split_and!; [done|done|simpl; lia..].
Qed.

(** *** A port filter *)

Lemma accepted_entries k parts : is_ok (check_port_entries k parts) = true →
  ∀ raw, raw ∈ parts → TrimSpace raw ≠ "" → is_ok (check_port_entry (TrimSpace raw)) = true.
Proof.
  revert k. induction parts as [|p parts IH]; intros k Hok raw; [by intros []%elem_of_nil|].
  cbn [check_port_entries] in Hok. cbv zeta in Hok. destruct (String.eqb_spec (TrimSpace p) "") as [Hb|Hb].
  - intros [-> |Hin]%elem_of_cons Hne; [done|]. by apply (IH k).
  - unfold mbind, result_bind in Hok. destruct (check_port_entry (TrimSpace p)) as [u|] eqn:Hp; [|done].
    intros [-> |Hin]%elem_of_cons Hne; [by rewrite Hp|]. by apply (IH (S k)).
Qed.
Lemma accepted_some k parts : is_ok (check_port_entries k parts) = true →
  k = O → ∃ raw, raw ∈ parts ∧ TrimSpace raw ≠ "".
Proof.
  revert k. induction parts as [|p parts IH]; intros k Hok ->; [done|].
  cbn [check_port_entries] in Hok. cbv zeta in Hok. destruct (String.eqb_spec (TrimSpace p) "") as [Hb|Hb].
  - destruct (IH O Hok eq_refl) as (raw & ? & ?). exists raw. split; [by right|done].
  - exists p. split; [left|done].
Qed.
(** Blank entries are skipped by both. *)
Lemma read_entries parts :
  (∀ raw, raw ∈ parts → TrimSpace raw ≠ "" → is_ok (check_port_entry (TrimSpace raw)) = true) →
  Forall2 (λ part i, entry_range part = Ok (start i, end_ i) ∧ 0 ≤ start i ≤ end_ i ∧ end_ i ≤ 65535)
    (filter (λ part, part ≠ "") (TrimSpace <$> parts)) (omap policyPortInterval parts).
Proof.
  induction parts as [|raw parts IH]; intros Hok; [constructor|]. rewrite fmap_cons, filter_cons. simpl.
  destruct (decide (TrimSpace raw = "")) as [Hb|Hb].
  - rewrite decide_False by tauto. unfold policyPortInterval at 1. rewrite Hb. simpl.
    apply IH. intros r Hr. apply Hok. by right.
  - rewrite decide_True by done. destruct (accepted_entry raw Hb) as (i & -> & Hi); [apply Hok; [left|done]|].
    constructor; [done|]. apply IH. intros r Hr. apply Hok. by right.
Qed.

(** C39. A port filter that is accepted is compared for what it says: each entry
    between commas that is not blank has exactly one interval in the conflict
    check, in the same order, with the bounds the validation read, none clamped
    and none dropped, and there is at least one - so a filter is never taken for
    the one that allows every port. *)
Theorem accepted_ports_read ports dstPort :
  validateACLPortsSyntax ports = Ok () → TrimSpace ports ≠ "" → EqualFold (TrimSpace ports) "all" = false →
  policyPortIntervals ports dstPort ≠ [] ∧
  Forall2 (λ part i, entry_range part = Ok (start i, end_ i) ∧ 0 ≤ start i ≤ end_ i ∧ end_ i ≤ 65535)
    (filter (λ part, part ≠ "") (TrimSpace <$> Split (TrimSpace ports) ",")) (policyPortIntervals ports dstPort).
Proof.
  intros Hv Hne Hall. unfold validateACLPortsSyntax in Hv. cbv zeta in Hv.
  rewrite (proj2 (String.eqb_neq _ _) Hne), Hall in Hv. cbn [orb] in Hv.
  assert (is_ok (check_port_entries 0 (Split (TrimSpace ports) ",")) = true) as Hok by by rewrite Hv.
  assert (Forall2 (λ part i, entry_range part = Ok (start i, end_ i) ∧ 0 ≤ start i ≤ end_ i ∧ end_ i ≤ 65535)
    (filter (λ part, part ≠ "") (TrimSpace <$> Split (TrimSpace ports) ",")) (omap policyPortInterval (Split ports ","))) as Hread.
  { rewrite Split_trim by done. apply read_entries. intros raw Hin Hb.
    assert (TrimSpace raw ∈ TrimSpace <$> Split (TrimSpace ports) ",") as (raw' & Heq & Hin')%list_elem_of_fmap
      by (rewrite Split_trim by done; by apply list_elem_of_fmap_2).
    rewrite Heq. rewrite Heq in Hb. by eapply accepted_entries. }
  assert (omap policyPortInterval (Split ports ",") ≠ []) as Hsome.
  { intros Hnil. rewrite Hnil in Hread. apply Forall2_nil_inv_r in Hread.
    destruct (accepted_some _ _ Hok eq_refl) as (raw & Hin & Hb).
    assert (TrimSpace raw ∈ filter (λ part, part ≠ "") (TrimSpace <$> Split (TrimSpace ports) ",")) as Hx
      by (apply list_elem_of_filter; split; [done|by apply list_elem_of_fmap_2]).
    rewrite Hread in Hx. by apply elem_of_nil in Hx. }
  unfold policyPortIntervals. rewrite (proj2 (String.eqb_neq _ _) Hne), Hall. cbn [orb].
  by destruct (omap _ _).
Qed.
Lemma accepted_ports_read_witness :
  Forall2 (λ part i, entry_range part = Ok (start i, end_ i) ∧ 0 ≤ start i ≤ end_ i ∧ end_ i ≤ 65535)
    ["80"; "443 - 8443:1"] (policyPortIntervals " 80 ,, 443 - 8443:1 " 22).
Proof.
  refine (proj2 (accepted_ports_read " 80 ,, 443 - 8443:1 " 22 _ _ _)); vm_compute; [reflexivity|discriminate|reflexivity].
Defined.
