(* ===== verification/PolicyAdmin.v ===== *)
(** * Policy requests

    The handlers of [internal/api/v2/security.go] that change the ACL, QoS and
    blacklist rules of a node, and those of [setup.go] for its routes.  A handler
    takes what [encoding/json] makes of the body; an answer is a map of values. *)

From S2P Require Import Prelude GoStr Netip Records PolicyConflict CidrColumn Store Events ControlState AgentCommands PolicySync Nodes IPGroups PolicyRules Routes Sessions Access Dispatch PolicyValidation.

Open Scope Z_scope.

Definition PermRoutesRead : string := "routes:read".
Definition PermRoutesWrite : string := "routes:write".
Definition PermAclsRead : string := "acls:read".
Definition PermAclsWrite : string := "acls:write".
Definition PermQosRead : string := "qos:read".
Definition PermQosWrite : string := "qos:write".
Definition PermBlacklistRead : string := "blacklist:read".
Definition PermBlacklistWrite : string := "blacklist:write".
Definition required (r : Request) (read write : string) : string :=
  if (Method r =? "GET")%string then read else write.

(** ** Bodies *)

Record ACLBody := mkACLBody {
  bd_Name : string;
  bd_Action : string;
  bd_SrcGroupID : option UUID;
  bd_DstGroupID : option UUID;
  bd_SrcCIDR : string;
  bd_DstCIDR : string;
  bd_SrcNet : string;
  bd_DstNet : string;
  bd_DstPort : Z;
  bd_MaxPort : Z;
  bd_Protocol : Z;
  bd_Direction : string;
  bd_Ports : string;
  bd_Priority : option Z;
  bd_Enabled : option bool;
  bd_Description : string;
}.
Record ACLPatch := mkACLPatch {
  pt_Name : option string;
  pt_Action : option string;
  pt_SrcGroupID : option UUID;
  pt_DstGroupID : option UUID;
  pt_SrcCIDR : option string;
  pt_DstCIDR : option string;
  pt_SrcNet : option string;
  pt_DstNet : option string;
  pt_DstPort : option Z;
  pt_MaxPort : option Z;
  pt_Protocol : option Z;
  pt_Direction : option string;
  pt_Ports : option string;
  pt_Priority : option Z;
  pt_Description : option string;
  pt_Enabled : option bool;
}.
Record QoSBody := mkQoSBody {
  qb_GroupID : option UUID;
  qb_Group : string;
  qb_SrcCIDR : string;
  qb_DstCIDR : string;
  qb_SrcPort : option Z;
  qb_DstPort : option Z;
  qb_Protocol : option Z;
  qb_BandwidthMbps : Z;
  qb_Direction : string;
  qb_RateBps : Z;
  qb_BurstBytes : Z;
  qb_Priority : option Z;
  qb_Mode : string;
  qb_Enabled : option bool;
  qb_Description : string;
}.
Record QoSPatch := mkQoSPatch {
  qp_GroupID : option UUID;
  qp_Group : option string;
  qp_SrcCIDR : option string;
  qp_DstCIDR : option string;
  qp_SrcPort : option Z;
  qp_DstPort : option Z;
  qp_Protocol : option Z;
  qp_BandwidthMbps : option Z;
  qp_Direction : option string;
  qp_RateBps : option Z;
  qp_BurstBytes : option Z;
  qp_Priority : option Z;
  qp_Mode : option string;
  qp_Description : option string;
  qp_Enabled : option bool;
}.
Record BlacklistBody := mkBlacklistBody {
  bb_CIDR : string;
  bb_Port : Z;
  bb_Description : string;
}.

(** ** Answers *)

Definition nullableUUIDString (value : NullUUID) : field :=
  match value with Some u => FText u | None => FNull end.
Definition aclRuleResponse (rule : ACLRuleRecord) (nodeID : UUID) : payload :=
  list_to_map [("id", FText (a_ID rule)); ("node_id", FText nodeID); ("name", FText (a_Name rule));
    ("action", FText (a_Action rule)); ("src_group_id", nullableUUIDString (a_SrcGroupID rule));
    ("dst_group_id", nullableUUIDString (a_DstGroupID rule)); ("src_cidr", FText (a_SrcCIDR rule));
    ("dst_cidr", FText (a_DstCIDR rule)); ("dst_port", FInt (a_DstPort rule));
    ("protocol", FInt (a_Protocol rule)); ("direction", FText (a_Direction rule));
    ("ports", FText (a_Ports rule)); ("priority", FInt (a_Priority rule));
    ("enabled", FBool (a_Enabled rule)); ("description", FText (a_Description rule));
    ("created_at", FTime (a_CreatedAt rule)); ("updated_at", FTime (a_UpdatedAt rule))].
Definition qosRuleResponse (rule : QoSRuleRecord) (nodeID : UUID) : payload :=
  list_to_map [("id", FText (q_ID rule)); ("node_id", FText nodeID);
    ("group_id", nullableUUIDString (q_GroupID rule)); ("src_cidr", FText (q_SrcCIDR rule));
    ("dst_cidr", FText (q_DstCIDR rule)); ("src_port", FInt (q_SrcPort rule));
    ("dst_port", FInt (q_DstPort rule)); ("protocol", FInt (q_Protocol rule));
    ("bandwidth_mbps", FInt (q_BandwidthMbps rule)); ("direction", FText (q_Direction rule));
    ("rate_bps", FInt (q_RateBps rule)); ("burst_bytes", FInt (q_BurstBytes rule));
    ("priority", FInt (q_Priority rule)); ("mode", FText (qosModeOrDefault (q_Mode rule)));
    ("enabled", FBool (q_Enabled rule)); ("description", FText (q_Description rule));
    ("created_at", FTime (q_CreatedAt rule)); ("updated_at", FTime (q_UpdatedAt rule))].
Definition blacklistRuleResponse (rule : BlacklistRuleRecord) (nodeID : UUID) : payload :=
  list_to_map [("id", FText (b_ID rule)); ("node_id", FText nodeID); ("scope", FText (b_Scope rule));
    ("cidr", FText (b_CIDR rule)); ("port", FInt (b_Port rule)); ("enabled", FBool (b_Enabled rule));
    ("description", FText (b_Description rule)); ("created_at", FTime (b_CreatedAt rule));
    ("updated_at", FTime (b_UpdatedAt rule))].
Definition deletedResponse (ruleID nodeID : string) : payload :=
  list_to_map [("id", FText ruleID); ("node_id", FText nodeID); ("status", FText "deleted")].

Section handlers.
Context `{CidrText} `{Sha256} (uuid_Parse : string → option UUID).

(** ** Groups of stored rules *)

(** [loadPolicyGroupCached]: the group and the cache after the call. *)
Definition loadPolicyGroupCached (tenantID groupID : UUID) (cache : gmap UUID IPGroupRecord)
    : M (IPGroupRecord * gmap UUID IPGroupRecord) :=
  match cache !! groupID with
  | Some group => mret (group, cache)
  | None =>
    group ← GetIPGroup tenantID groupID;
    mret (group, <[groupID := group]> cache)
  end.
Definition load_ref (tenantID : UUID) (ref : NullUUID) (cache : gmap UUID IPGroupRecord)
    : M (option IPGroupRecord * gmap UUID IPGroupRecord) :=
  match ref with
  | None => mret (None, cache)
  | Some groupID =>
    '(group, cache) ← loadPolicyGroupCached tenantID groupID cache;
    mret (Some group, cache)
  end.
(** The loop of [hydrateACLRuleGroups]. *)
Fixpoint hydrate_acls (tenantID : UUID) (cache : gmap UUID IPGroupRecord) (rules : list ACLRuleRecord)
    : M (list ACLRuleRecord) :=
  match rules with
  | [] => mret []
  | rule :: rest =>
    '(src, cache) ← load_ref tenantID (a_SrcGroupID rule) cache;
    let rule := match src with Some g => rule <| a_SrcGroup := Some g |> | None => rule end in
    '(dst, cache) ← load_ref tenantID (a_DstGroupID rule) cache;
    let rule := match dst with Some g => rule <| a_DstGroup := Some g |> | None => rule end in
    rest ← hydrate_acls tenantID cache rest;
    mret (rule :: rest)
  end.
Definition hydrateACLRuleGroups (tenantID : UUID) (rules : list ACLRuleRecord) : M (list ACLRuleRecord) :=
  hydrate_acls tenantID ∅ rules.
Fixpoint hydrate_qoss (tenantID : UUID) (cache : gmap UUID IPGroupRecord) (rules : list QoSRuleRecord)
    : M (list QoSRuleRecord) :=
  match rules with
  | [] => mret []
  | rule :: rest =>
    '(group, cache) ← load_ref tenantID (q_GroupID rule) cache;
    let rule := match group with Some g => rule <| q_Group := Some g |> | None => rule end in
    rest ← hydrate_qoss tenantID cache rest;
    mret (rule :: rest)
  end.
Definition hydrateQoSRuleGroups (tenantID : UUID) (rules : list QoSRuleRecord) : M (list QoSRuleRecord) :=
  hydrate_qoss tenantID ∅ rules.

(** The stored rules of the node with their groups, and the conflict check. *)
Definition acl_conflict_check (tenantID nodeID : UUID) (candidate : ACLRuleRecord) (candidateID : UUID)
    : M unit :=
  existing ← ListTenantNodeACLRules tenantID nodeID;
  existing ← hydrateACLRuleGroups tenantID existing;
  match DetectACLPolicyConflict (Some <$> existing) (Some candidate) candidateID with
  | Some x => fail x
  | None => mret ()
  end.
Definition qos_conflict_check (tenantID nodeID : UUID) (candidate : QoSRuleRecord) (candidateID : UUID)
    : M unit :=
  existing ← ListTenantNodeQoSRules tenantID nodeID;
  existing ← hydrateQoSRuleGroups tenantID existing;
  match DetectQoSPolicyConflict (Some <$> existing) (Some candidate) candidateID with
  | Some x => fail x
  | None => mret ()
  end.

(** ** ACL rules *)

(** One side of a rule: its group reference, and the group if it is loaded for the
    conflict check. *)
Definition resolve_side (tenantID : UUID) (explicit : NullUUID) (directCIDR : string) (load : bool)
    : M (NullUUID * option IPGroupRecord) :=
  ref ← resolvePolicyGroupRefWith tenantID explicit directCIDR;
  match ref with
  | Some groupID =>
    if load then group ← GetIPGroup tenantID groupID; mret (ref, Some group) else mret (ref, None)
  | None => mret (None, None)
  end.
(** [ruleForWrite] and [ruleForValidation]. *)
Definition acl_with_groups (tenantID : UUID) (rule : ACLRuleRecord) (explicitSrc : NullUUID)
    (loadSrc : bool) (explicitDst : NullUUID) (loadDst : bool) : M (ACLRuleRecord * ACLRuleRecord) :=
  '(src, srcGroup) ← resolve_side tenantID explicitSrc (a_SrcCIDR rule) loadSrc;
  let w := rule <| a_SrcGroupID := src |> in
  let w := if bool_decide (is_Some src) then w <| a_SrcCIDR := "" |> else w in
  let v := if bool_decide (is_Some src) then rule <| a_SrcGroupID := src |> else rule in
  let v := match srcGroup with Some g => v <| a_SrcGroup := Some g |> | None => v end in
  '(dst, dstGroup) ← resolve_side tenantID explicitDst (a_DstCIDR rule) loadDst;
  let w := w <| a_DstGroupID := dst |> in
  let w := if bool_decide (is_Some dst) then w <| a_DstCIDR := "" |> else w in
  let v := if bool_decide (is_Some dst) then v <| a_DstGroupID := dst |> else v in
  let v := match dstGroup with Some g => v <| a_DstGroup := Some g |> | None => v end in
  mret (w, v).

Definition action_ok (action : string) : bool := one_of action ["allow"; "deny"].
Definition check_acl_fields (rule : ACLRuleRecord) : M unit :=
  _ ← writePolicyValidationError (validatePolicyByteField "protocol" (a_Protocol rule));
  _ ← writePolicyValidationError (validatePolicyDirectionField (a_Direction rule));
  _ ← writePolicyValidationError (validateACLPortFields (a_Protocol rule) (a_Ports rule) (a_DstPort rule));
  writePolicyValidationError (validateACLPriorityField (a_Priority rule)).

(** The fields the old front end sends under other names. *)
Definition first_nonempty (a b : string) : string := if (a =? "")%string then b else a.
Definition acl_of_body (tenantID nodeID : UUID) (body : ACLBody) : ACLRuleRecord :=
  let port := if bd_DstPort body =? 0 then bd_MaxPort body else bd_DstPort body in
  mkACL uuid_Nil tenantID nodeID (bd_Name body) (bd_Action body)
    (normalizePolicyCIDRInput (first_nonempty (bd_SrcCIDR body) (bd_SrcNet body)))
    (normalizePolicyCIDRInput (first_nonempty (bd_DstCIDR body) (bd_DstNet body)))
    None None None None port (bd_Protocol body) (bd_Direction body) (bd_Ports body)
    (default 100 (bd_Priority body)) (default true (bd_Enabled body)) (bd_Description body) 0 0.
Definition rule_metadata (nodeID ruleID description : string) : object :=
  with_texts [("node_id", nodeID); ("rule_id", ruleID); ("description", description)] ∅.

Definition create_acl (tenantID : UUID) (node : Node) (rule : ACLRuleRecord)
    (explicitSrc explicitDst : NullUUID) : M (payload * object) :=
  '(w, v) ← acl_with_groups tenantID rule explicitSrc (bool_decide (is_Some explicitSrc))
              explicitDst (bool_decide (is_Some explicitDst));
  _ ← acl_conflict_check tenantID (N_ID node) v uuid_Nil;
  created ← createTenantNodeACLRule w false;
  mret (aclRuleResponse created (N_ID node),
        rule_metadata (N_ID node) (a_ID created) (a_Description created)).
Definition createTenantNodeACL (body : option ACLBody) (tenantID : UUID) (node : Node) : M payload :=
  body ← body_of body;
  _ ← require_policy_node node;
  if negb (action_ok (bd_Action body)) then invalid "Action must be 'allow' or 'deny'" else
  let rule := acl_of_body tenantID (N_ID node) body in
  _ ← check_acl_fields rule;
  writeTransactionalPolicyMutationSuccess node "acl" "create" "ACL rule created successfully"
    (create_acl tenantID node rule (nullUUIDFromPtr (bd_SrcGroupID body))
       (nullUUIDFromPtr (bd_DstGroupID body))).

(** The network and group of one side after an update. *)
Definition patched_side (cidr net : option string) (group : option UUID) (old : string * NullUUID)
    : string * NullUUID :=
  match cidr, net, group with
  | Some c, _, _ => (normalizePolicyCIDRInput c, None)
  | None, Some n, _ => (normalizePolicyCIDRInput n, None)
  | None, None, Some g => ("", nullUUIDFromPtr (Some g))
  | None, None, None => old
  end.
Definition patch_acl (body : ACLPatch) (rule : ACLRuleRecord) : ACLRuleRecord :=
  let src := patched_side (pt_SrcCIDR body) (pt_SrcNet body) (pt_SrcGroupID body)
               (a_SrcCIDR rule, a_SrcGroupID rule) in
  let dst := patched_side (pt_DstCIDR body) (pt_DstNet body) (pt_DstGroupID body)
               (a_DstCIDR rule, a_DstGroupID rule) in
  let port := match pt_DstPort body with
              | Some p => p | None => default (a_DstPort rule) (pt_MaxPort body) end in
  rule <| a_Name := default (a_Name rule) (pt_Name body) |>
       <| a_Action := default (a_Action rule) (pt_Action body) |>
       <| a_SrcCIDR := src.1 |> <| a_SrcGroupID := src.2 |>
       <| a_DstCIDR := dst.1 |> <| a_DstGroupID := dst.2 |>
       <| a_DstPort := port |>
       <| a_Protocol := default (a_Protocol rule) (pt_Protocol body) |>
       <| a_Direction := default (a_Direction rule) (pt_Direction body) |>
       <| a_Ports := default (a_Ports rule) (pt_Ports body) |>
       <| a_Priority := default (a_Priority rule) (pt_Priority body) |>
       <| a_Description := default (a_Description rule) (pt_Description body) |>
       <| a_Enabled := default (a_Enabled rule) (pt_Enabled body) |>.
(** The group of a side is loaded when the side has no text of its own. *)
Definition side_loaded (group : NullUUID) (cidr : string) : bool :=
  bool_decide (is_Some group) && (TrimSpace cidr =? "")%string.
Definition update_acl (tenantID : UUID) (node : Node) (ruleID : UUID) (rule : ACLRuleRecord)
    : M (payload * object) :=
  '(w, v) ← acl_with_groups tenantID rule
              (a_SrcGroupID rule) (side_loaded (a_SrcGroupID rule) (a_SrcCIDR rule))
              (a_DstGroupID rule) (side_loaded (a_DstGroupID rule) (a_DstCIDR rule));
  _ ← acl_conflict_check tenantID (N_ID node) v ruleID;
  updated ← updateTenantNodeACLRule tenantID (N_ID node) ruleID w false;
  mret (aclRuleResponse updated (N_ID node),
        rule_metadata (N_ID node) ruleID (a_Description updated)).
(** Loading the rule an update starts from. *)
Definition load_rule {A} (kind : string) (m : M A) : M A :=
  r ← attempt m;
  match r with
  | Ok rule => mret rule
  | Err ErrNoRows => write_error 404 "NOT_FOUND" (kind +:+ " rule not found")
  | Err x => write_error 500 "INTERNAL_ERROR" ("Failed to load " +:+ kind +:+ " rule: " +:+ error_message x)
  end.
Definition updateTenantNodeACL (body : option ACLPatch) (tenantID : UUID) (node : Node)
    (ruleIDStr : string) : M payload :=
  match uuid_Parse ruleIDStr with
  | None => invalid "Invalid rule ID format"
  | Some ruleID =>
    body ← body_of body;
    _ ← require_policy_node node;
    existing ← load_rule "ACL" (GetTenantNodeACLRule tenantID (N_ID node) ruleID);
    if match pt_Action body with Some a => negb (action_ok a) | None => false end
    then invalid "Action must be 'allow' or 'deny'" else
    let rule := patch_acl body existing in
    _ ← check_acl_fields rule;
    writeTransactionalPolicyMutationSuccess node "acl" "update" "ACL rule updated successfully"
      (update_acl tenantID node ruleID rule)
  end.

(** A deletion whose closure deletes with [delete]. *)
Definition delete_item (node : Node) (domain message : string) (data : payload) (metadata : object)
    (delete : M unit) : M payload :=
  writeTransactionalPolicyMutationSuccess node domain "delete" message
    (_ ← delete; mret (data, metadata)).
Definition deleteTenantNodeACL (tenantID : UUID) (node : Node) (ruleIDStr : string) : M payload :=
  match uuid_Parse ruleIDStr with
  | None => invalid "Invalid rule ID format"
  | Some ruleID =>
    _ ← require_policy_node node;
    delete_item node "acl" "ACL rule deleted successfully" (deletedResponse ruleIDStr (N_ID node))
      (with_texts [("node_id", N_ID node); ("rule_id", ruleIDStr)] ∅)
      (deleteTenantNodeACLRuleByID tenantID (N_ID node) ruleID false)
  end.

(** ** QoS rules *)

(** What the conflict check sees of a rule whose group comes from [directGroup]. *)
Definition qos_validation (rule : QoSRuleRecord) (ref : NullUUID) (group : option IPGroupRecord)
    (directGroup : string) : QoSRuleRecord :=
  match ref with
  | None => rule
  | Some _ =>
    let v := rule <| q_GroupID := ref |> in
    let v := match group with Some g => v <| q_Group := Some g |> | None => v end in
    if negb (TrimSpace directGroup =? "")%string then
      if EqualFold (TrimSpace (q_Direction v)) "ingress"
      then v <| q_SrcCIDR := directGroup |> <| q_DstCIDR := "" |>
      else v <| q_DstCIDR := directGroup |> <| q_SrcCIDR := "" |>
    else v
  end.
Definition qos_write (rule : QoSRuleRecord) (ref : NullUUID) : QoSRuleRecord :=
  let w := rule <| q_GroupID := ref |> in
  match ref with
  | Some _ => w <| q_SrcCIDR := "" |> <| q_DstCIDR := "" |>
  | None => w
  end.

Definition qos_of_body (tenantID nodeID : UUID) (priority : Z) (mode : string) (body : QoSBody)
    : QoSRuleRecord :=
  mkQoS uuid_Nil tenantID nodeID (normalizePolicyCIDRInput (qb_SrcCIDR body))
    (normalizePolicyCIDRInput (qb_DstCIDR body)) None None 0 0 0 (qb_BandwidthMbps body)
    (qb_Direction body) (qb_RateBps body) (qb_BurstBytes body) priority mode
    (default true (qb_Enabled body)) (qb_Description body) 0 0.
Definition node_metadata (l : list (string * string)) : object := with_texts l ∅.
Definition create_qos (tenantID : UUID) (node : Node) (rule : QoSRuleRecord) (explicitGroup : NullUUID)
    (directGroup : string) : M (payload * object) :=
  '(ref, group) ← resolve_side tenantID explicitGroup directGroup (bool_decide (is_Some explicitGroup));
  _ ← qos_conflict_check tenantID (N_ID node) (qos_validation rule ref group directGroup) uuid_Nil;
  created ← createTenantNodeQoSRule (qos_write rule ref) false;
  mret (qosRuleResponse created (N_ID node),
        node_metadata [("node_id", N_ID node); ("rule_id", q_ID created)]).
Definition bandwidth_error {A} : M A := invalid "bandwidth_mbps must be greater than 0".
Definition checked_mode (value : string) : M string :=
  match normalizeQoSModeField value "auto" with
  | Ok mode => mret mode
  | Err x => invalid (error_message x)
  end.
Definition createTenantNodeQoS (body : option QoSBody) (tenantID : UUID) (node : Node) : M payload :=
  body ← body_of body;
  _ ← require_policy_node node;
  if qb_BandwidthMbps body <=? 0 then bandwidth_error else
  _ ← writePolicyValidationError
        (validateQoSMatchFields (qb_Protocol body) (qb_SrcPort body) (qb_DstPort body));
  let priority := default 100 (qb_Priority body) in
  _ ← writePolicyValidationError (validatePolicyByteField "priority" priority);
  _ ← writePolicyValidationError (validatePolicyDirectionField (qb_Direction body));
  mode ← checked_mode (qb_Mode body);
  let rule := qos_of_body tenantID (N_ID node) priority mode body in
  let directGroup := qosDirectGroupCIDR (qb_Group body) (qb_SrcCIDR body) (qb_DstCIDR body)
                       (qb_Direction body) in
  writeTransactionalPolicyMutationSuccess node "qos" "create" "QoS rule created successfully"
    (create_qos tenantID node rule (nullUUIDFromPtr (qb_GroupID body)) directGroup).

(** The network and group of a rule after an update, in the order in which the
    fields of the body are looked at: later ones overwrite. *)
Record qos_target := mkTarget {
  tg_src : string;
  tg_dst : string;
  tg_rule_group : NullUUID;
  tg_explicit : NullUUID;
  tg_direct : string;
  tg_changed : bool;
}.
Definition patch_target (body : QoSPatch) (rule : QoSRuleRecord) : qos_target :=
  let t := mkTarget (q_SrcCIDR rule) (q_DstCIDR rule) (q_GroupID rule) (q_GroupID rule) "" false in
  let t := match qp_SrcCIDR body with
    | Some c => let c := normalizePolicyCIDRInput c in mkTarget c (tg_dst t) None None c true
    | None => t end in
  let t := match qp_DstCIDR body with
    | Some c => let c := normalizePolicyCIDRInput c in mkTarget (tg_src t) c None None c true
    | None => t end in
  let t := match qp_Group body with
    | Some c => mkTarget "" "" None None (normalizePolicyCIDRInput c) true
    | None => t end in
  match qp_GroupID body with
  | Some g => mkTarget "" "" (nullUUIDFromPtr (Some g)) (nullUUIDFromPtr (Some g)) (tg_direct t) true
  | None => t
  end.
Definition patch_qos (body : QoSPatch) (t : qos_target) (mode : string) (rule : QoSRuleRecord)
    : QoSRuleRecord :=
  rule <| q_SrcCIDR := tg_src t |> <| q_DstCIDR := tg_dst t |> <| q_GroupID := tg_rule_group t |>
       <| q_SrcPort := 0 |> <| q_DstPort := 0 |> <| q_Protocol := 0 |>
       <| q_BandwidthMbps := default (q_BandwidthMbps rule) (qp_BandwidthMbps body) |>
       <| q_Direction := default (q_Direction rule) (qp_Direction body) |>
       <| q_RateBps := default (q_RateBps rule) (qp_RateBps body) |>
       <| q_BurstBytes := default (q_BurstBytes rule) (qp_BurstBytes body) |>
       <| q_Priority := default (q_Priority rule) (qp_Priority body) |>
       <| q_Mode := mode |>
       <| q_Description := default (q_Description rule) (qp_Description body) |>
       <| q_Enabled := default (q_Enabled rule) (qp_Enabled body) |>.
Definition update_qos (tenantID : UUID) (node : Node) (ruleID : UUID) (body : QoSPatch)
    (t : qos_target) (rule : QoSRuleRecord) : M (payload * object) :=
  let load := bool_decide (is_Some (qp_GroupID body))
    || (negb (tg_changed t) && bool_decide (is_Some (q_GroupID rule))
        && (TrimSpace (q_SrcCIDR rule) =? "")%string && (TrimSpace (q_DstCIDR rule) =? "")%string) in
  '(ref, group) ← (if tg_changed t then resolve_side tenantID (tg_explicit t) (tg_direct t) load
    else resolve_side tenantID (q_GroupID rule)
           (qosDirectGroupCIDR "" (q_SrcCIDR rule) (q_DstCIDR rule) (q_Direction rule)) load);
  _ ← qos_conflict_check tenantID (N_ID node) (qos_validation rule ref group (tg_direct t)) ruleID;
  updated ← updateTenantNodeQoSRule tenantID (N_ID node) ruleID (qos_write rule ref) false;
  mret (qosRuleResponse updated (N_ID node),
        node_metadata [("node_id", N_ID node); ("rule_id", ruleID)]).
Definition updateTenantNodeQoS (body : option QoSPatch) (tenantID : UUID) (node : Node)
    (ruleIDStr : string) : M payload :=
  match uuid_Parse ruleIDStr with
  | None => invalid "Invalid rule ID format"
  | Some ruleID =>
    body ← body_of body;
    _ ← require_policy_node node;
    existing ← load_rule "QoS" (GetTenantNodeQoSRule tenantID (N_ID node) ruleID);
    let t := patch_target body existing in
    _ ← writePolicyValidationError
          (validateQoSMatchFields (qp_Protocol body) (qp_SrcPort body) (qp_DstPort body));
    if match qp_BandwidthMbps body with Some b => b <=? 0 | None => false end
    then bandwidth_error else
    mode ← (match qp_Mode body with Some m => checked_mode m | None => mret (q_Mode existing) end : M string);
    let rule := patch_qos body t mode existing in
    _ ← writePolicyValidationError (validatePolicyByteField "priority" (q_Priority rule));
    _ ← writePolicyValidationError (validatePolicyDirectionField (q_Direction rule));
    _ ← writePolicyValidationError (validateQoSModeField (q_Mode rule));
    writeTransactionalPolicyMutationSuccess node "qos" "update" "QoS rule updated successfully"
      (update_qos tenantID node ruleID body t rule)
  end.
Definition deleteTenantNodeQoS (tenantID : UUID) (node : Node) (ruleIDStr : string) : M payload :=
  match uuid_Parse ruleIDStr with
  | None => invalid "Invalid rule ID format"
  | Some ruleID =>
    _ ← require_policy_node node;
    delete_item node "qos" "QoS rule deleted successfully" (deletedResponse ruleIDStr (N_ID node))
      (node_metadata [("node_id", N_ID node); ("rule_id", ruleIDStr)])
      (deleteTenantNodeQoSRule tenantID (N_ID node) ruleID false)
  end.

(** ** Blacklist rules *)

Definition create_blacklist (node : Node) (rule : BlacklistRuleRecord) : M (payload * object) :=
  created ← createTenantNodeBlacklistRule rule false;
  mret (blacklistRuleResponse created (N_ID node),
        node_metadata [("node_id", N_ID node); ("rule_id", b_ID created); ("scope", b_Scope created)]).
Definition createTenantNodeBlacklist (body : option BlacklistBody) (tenantID : UUID) (node : Node)
    (scope : string) : M payload :=
  body ← body_of body;
  _ ← require_policy_node node;
  if negb (scope =? BlacklistScopePorts)%string && (bb_CIDR body =? "")%string
  then invalid "CIDR is required for src/dst scope" else
  if (scope =? BlacklistScopePorts)%string && ((bb_Port body <? 1) || (65535 <? bb_Port body))
  then invalid "Port must be in range 1..65535 for ports scope" else
  writeTransactionalPolicyMutationSuccess node "blacklist" "create" "Blacklist rule created successfully"
    (create_blacklist node (mkBlacklist uuid_Nil tenantID (N_ID node) scope (bb_CIDR body)
       (bb_Port body) true (bb_Description body) 0 0)).
Definition deleteTenantNodeBlacklist (tenantID : UUID) (node : Node) (scope ruleIDStr : string)
    : M payload :=
  match uuid_Parse ruleIDStr with
  | None => invalid "Invalid rule ID format"
  | Some ruleID =>
    _ ← require_policy_node node;
    delete_item node "blacklist" "Blacklist rule deleted successfully"
      (<["scope" := FText scope]> (deletedResponse ruleIDStr (N_ID node)))
      (node_metadata [("node_id", N_ID node); ("rule_id", ruleIDStr); ("scope", scope)])
      (deleteTenantNodeBlacklistRuleByID tenantID (N_ID node) scope ruleID false)
  end.

(** ** Dispatch

    The requests that are not GET: reading rules adds their statistics and
    deliveries to what [ListTenantNode...Rules] returns. *)

Context (enforcement : string).

Record PolicyBody := mkPolicyBody {
  as_acl : option ACLBody;
  as_acl_patch : option ACLPatch;
  as_qos : option QoSBody;
  as_qos_patch : option QoSPatch;
  as_blacklist : option BlacklistBody;
}.
Definition with_rule_id (ruleIDStr operation : string) (handler : M payload) : M payload :=
  if (ruleIDStr =? "")%string then invalid ("Rule ID is required for " +:+ operation) else handler.

Definition change_acls (r : Request) (ctx : Context) (body : PolicyBody) (tenantID : UUID) (node : Node)
    (parts : list string) : M payload :=
  _ ← authorizeTenantPermission enforcement ctx tenantID PermAclsWrite;
  let ruleIDStr := default "" (parts !! 8%nat) in
  if (Method r =? "POST")%string then createTenantNodeACL (as_acl body) tenantID node
  else if (Method r =? "PUT")%string then
    with_rule_id ruleIDStr "update" (updateTenantNodeACL (as_acl_patch body) tenantID node ruleIDStr)
  else if (Method r =? "DELETE")%string then
    with_rule_id ruleIDStr "deletion" (deleteTenantNodeACL tenantID node ruleIDStr)
  else method_not_allowed.
Definition change_blacklist (r : Request) (ctx : Context) (body : PolicyBody) (tenantID : UUID)
    (node : Node) (parts : list string) : M payload :=
  _ ← authorizeTenantPermission enforcement ctx tenantID PermBlacklistWrite;
  match parts !! 8%nat with
  | None => write_error 400 "INVALID_PATH" "Blacklist scope is required (src, dst, ports)"
  | Some scope =>
    _ ← writePolicyValidationError (ValidateBlacklistScope scope);
    let ruleIDStr := default "" (parts !! 9%nat) in
    if (Method r =? "POST")%string then createTenantNodeBlacklist (as_blacklist body) tenantID node scope
    else if (Method r =? "DELETE")%string then
      with_rule_id ruleIDStr "deletion" (deleteTenantNodeBlacklist tenantID node scope ruleIDStr)
    else method_not_allowed
  end.
Definition change_qos (r : Request) (ctx : Context) (body : PolicyBody) (tenantID : UUID) (node : Node)
    (parts : list string) : M payload :=
  _ ← authorizeTenantPermission enforcement ctx tenantID PermQosWrite;
  if (8 <? length parts)%nat then write_error 404 "ENDPOINT_NOT_FOUND" "Unknown QoS endpoint" else
  let ruleIDStr := default "" (parts !! 7%nat) in
  if bool_decide (is_Some (parts !! 7%nat)) && bool_decide (uuid_Parse ruleIDStr = None)
  then write_error 404 "ENDPOINT_NOT_FOUND" "Unknown QoS endpoint" else
  if (Method r =? "POST")%string then
    if negb (ruleIDStr =? "")%string then method_not_allowed
    else createTenantNodeQoS (as_qos body) tenantID node
  else if (Method r =? "PUT")%string then
    with_rule_id ruleIDStr "update" (updateTenantNodeQoS (as_qos_patch body) tenantID node ruleIDStr)
  else if (Method r =? "DELETE")%string then
    with_rule_id ruleIDStr "deletion" (deleteTenantNodeQoS tenantID node ruleIDStr)
  else method_not_allowed.
Definition change_security (r : Request) (ctx : Context) (body : PolicyBody) (tenantID : UUID)
    (node : Node) (parts : list string) : M payload :=
  match parts !! 7%nat with
  | None => write_error 400 "INVALID_PATH" "Invalid security path"
  | Some part =>
    if (part =? "acls")%string then change_acls r ctx body tenantID node parts
    else if (part =? "blacklist")%string then change_blacklist r ctx body tenantID node parts
    else write_error 404 "ENDPOINT_NOT_FOUND" "Unknown security sub-endpoint"
  end.
End handlers.
