(* ===== verification/GroupAdmin.v ===== *)
(** * IP group requests

    [pkg/controllerstorage/ip_group_references.go], the rules that refer to a
    group, and the handlers of [internal/api/v2/ip_groups.go]; then what a client
    that reads the references page by page receives. *)

From S2P Require Import Prelude GoStr Netip Records PolicyConflict CidrColumn Store Events ControlState AgentCommands PolicySync Nodes IPGroups PolicyRules Sessions Access Dispatch PolicyValidation PolicyAdmin.

Open Scope Z_scope.

(** ** References *)

Record IPGroupReferenceDelivery := mkRefDelivery {
  rd_ID : UUID;
  rd_CommandID : string;
  rd_Status : string;
  rd_LastError : string;
  rd_CreatedAt : Time;
}.
Record IPGroupReferenceRecord := mkReference {
  re_Domain : string;
  re_RuleID : UUID;
  re_RuleName : string;
  re_NodeID : UUID;
  re_NodeName : string;
  re_Direction : string;
  re_Enabled : bool;
  re_LatestDelivery : option IPGroupReferenceDelivery;
}.
Record IPGroupReferencesPage := mkReferencesPage {
  rp_Items : list IPGroupReferenceRecord;
  rp_Total : Z;
  rp_Limit : Z;
  rp_Offset : Z;
  rp_HasMore : bool;
}.

(** The newest delivery of a rule. *)
Definition latest_delivery (tenantID nodeID : UUID) (domain ruleID : string) (db : DB)
    : option IPGroupReferenceDelivery :=
  (λ kd, mkRefDelivery kd.1 (pd_command_id kd.2) (pd_command_status kd.2)
           (coalesce (pd_last_error kd.2)) (pd_created_at kd.2)) <$>
  head (newest_deliveries (λ _ d, (pd_tenant_id d =? tenantID)%string && (pd_node_id d =? nodeID)%string
    && (pd_policy_domain d =? domain)%string && (pd_policy_ref d =? ruleID)%string) db).
(** A rule joined with its node and its newest delivery. *)
Definition reference (tenantID : UUID) (domain ruleID ruleName : string) (nodeID : UUID)
    (direction : string) (enabled : bool) (db : DB) : option IPGroupReferenceRecord :=
  n ← nodes db !! nodeID;
  if (n_tenant_id n =? tenantID)%string
  then Some (mkReference domain ruleID ruleName nodeID (n_hostname n) direction enabled
               (latest_delivery tenantID nodeID domain ruleID db))
  else None.
Definition acl_references (tenantID groupID : UUID) (db : DB) : list IPGroupReferenceRecord :=
  omap (λ kr : UUID * ACLRow, reference tenantID "acl" kr.1 (ar_name kr.2) (ar_node_id kr.2)
          (ar_direction kr.2) (ar_enabled kr.2) db)
    (select_where (λ _ r, (ar_tenant_id r =? tenantID)%string && acl_refers groupID r) (acl_rules db)).
Definition qos_references (tenantID groupID : UUID) (db : DB) : list IPGroupReferenceRecord :=
  omap (λ kr : UUID * QoSRow, reference tenantID "qos" kr.1
          (if (qr_description kr.2 =? "")%string then kr.1 else qr_description kr.2) (qr_node_id kr.2)
          (qr_direction kr.2) (qr_enabled kr.2) db)
    (select_where (λ _ r, (qr_tenant_id r =? tenantID)%string && refers_to groupID (qr_group_id r))
       (qos_rules db)).
(** [ORDER BY domain, rule_name, rule_id]. *)
Definition reference_before (a b : IPGroupReferenceRecord) : bool :=
  str_ltb (re_Domain a) (re_Domain b)
  || ((re_Domain a =? re_Domain b)%string
      && (str_ltb (re_RuleName a) (re_RuleName b)
          || ((re_RuleName a =? re_RuleName b)%string && str_ltb (re_RuleID a) (re_RuleID b)))).
Definition group_references (tenantID groupID : UUID) (db : DB) : list IPGroupReferenceRecord :=
  SliceStable reference_before (acl_references tenantID groupID db ++ qos_references tenantID groupID db).
(** The total comes with the rows, so an empty page has total 0. *)
Definition ListIPGroupReferences (tenantID groupID : UUID) (limit offset : Z) : M IPGroupReferencesPage :=
  let limit := if limit <=? 0 then 20 else limit in
  let limit := if 100 <? limit then 100 else limit in
  let offset := if offset <? 0 then 0 else offset in
  refs ← query (λ _ db, group_references tenantID groupID db);
  let items := take (Z.to_nat limit) (drop (Z.to_nat offset) refs) in
  let total := match items with [] => 0 | _ => Z.of_nat (length refs) end in
  mret (mkReferencesPage items total limit offset (offset + Z.of_nat (length items) <? total)).

(** ** Handlers *)

Fixpoint str_contains (s sub : string) : bool :=
  HasPrefix s sub || match s with String _ rest => str_contains rest sub | EmptyString => false end.

Record ipGroupMemberPayload := mkMemberPayload { mp_CIDR : string; mp_Note : string }.
Record ipGroupPayload := mkGroupPayload {
  gp_Name : string;
  gp_Description : string;
  gp_Kind : string;
  gp_Members : list ipGroupMemberPayload;
}.

(** What a group handler answers. *)
Inductive group_answer :=
  | GroupsListed (l : list IPGroupRecord)
  | GroupGiven (g : IPGroupRecord) (warnings : list IPGroupWarning)
  | GroupUpdated (g : IPGroupRecord) (warnings : list IPGroupWarning) (dispatches : list dispatch)
  | GroupDeleted (id : UUID)
  | ReferencesListed (page : IPGroupReferencesPage).

Definition PermIPGroupsRead : string := "ip-groups:read".
Definition PermIPGroupsWrite : string := "ip-groups:write".

Definition internal_error {A} (message : string) : M A := write_error 500 "INTERNAL_ERROR" message.
Definition writeIPGroupError {A} (action : string) (x : error) : M A :=
  let text := error_message x in
  let says := str_contains text in
  match x with
  | ErrNoRows => write_error 404 "NOT_FOUND" "IP group not found"
  | ErrAmbiguousPolicyConflict _ => write_error 409 "CONFLICT" text
  | _ =>
    if says "duplicate CIDR" || says "ip group is referenced by policy rules"
    then write_error 409 "CONFLICT" text
    else if says "invalid CIDR" || says "ip group name is required" || says "requires at least one CIDR"
            || says "unsupported ip group kind" || says "is reserved"
    then invalid text
    else internal_error ("Failed to " +:+ action +:+ " IP group: " +:+ text)
  end.
Definition or_group_error {A} (action : string) (m : M A) : M A :=
  r ← attempt m;
  match r with Ok a => mret a | Err x => writeIPGroupError action x end.

Definition decodeIPGroupPayload (body : option ipGroupPayload) (tenantID groupID : UUID)
    : result IPGroupRecord :=
  match body with
  | None => Err (ErrorString "invalid request body")
  | Some body =>
    let kind := TrimSpace (gp_Kind body) in
    if negb (kind =? "")%string && negb (EqualFold kind IPGroupKindCustom)
    then Err (ErrorString ("ip group kind " +:+ Quote kind +:+ " is reserved")) else
    Ok (mkIPGroup groupID tenantID (gp_Name body) (gp_Description body) IPGroupKindCustom None
          ((λ m, mkMember uuid_Nil uuid_Nil (mp_CIDR m) (mp_Note m)) <$> gp_Members body) 0 0)
  end.
Definition decoded (r : result IPGroupRecord) : M IPGroupRecord :=
  match r with Ok g => mret g | Err x => invalid (error_message x) end.

(** [ip-groups], [ip-groups/id] and [ip-groups/id/references] below a path. *)
Fixpoint ip_group_path (uuid_Parse : string → option UUID) (parts : list string)
    : option (option UUID * bool) :=
  match parts with
  | [] => None
  | part :: rest =>
    if negb (part =? "ip-groups")%string then ip_group_path uuid_Parse rest else
    match rest with
    | [] => Some (None, false)
    | id :: more =>
      groupID ← uuid_Parse id;
      match more with
      | [] => Some (Some groupID, false)
      | [sub] => if (sub =? "references")%string then Some (Some groupID, true) else None
      | _ => None
      end
    end
  end.
Definition ipGroupPathFromPath (uuid_Parse : string → option UUID) (path : string)
    : option (option UUID * bool) := ip_group_path uuid_Parse (splitPath path).

(** The query parameters of a page, as texts. *)
Definition parseIPGroupReferencePagination (limit offset : string) : result (Z * Z) :=
  limit ← (let raw := TrimSpace limit in
           if (raw =? "")%string then Ok 20 else
           match Atoi raw with
           | Some parsed => if parsed <=? 0 then Err (ErrorString "invalid pagination") else Ok parsed
           | None => Err (ErrorString "invalid pagination")
           end : result Z);
  let limit := if 100 <? limit then 100 else limit in
  offset ← (let raw := TrimSpace offset in
            if (raw =? "")%string then Ok 0 else
            match Atoi raw with
            | Some parsed => if parsed <? 0 then Err (ErrorString "invalid pagination") else Ok parsed
            | None => Err (ErrorString "invalid pagination")
            end : result Z);
  Ok (limit, offset).

Section handlers.
Context `{CidrText} (uuid_Parse : string → option UUID) (enforcement : string).

Definition listTenantIPGroups (tenantID : UUID) : M group_answer :=
  r ← attempt (ListIPGroups tenantID);
  match r with
  | Ok groups => mret (GroupsListed groups)
  | Err x => internal_error ("Failed to list IP groups: " +:+ error_message x)
  end.
Definition attachIPGroupWarnings (tenantID : UUID) (group : IPGroupRecord) : M (list IPGroupWarning) :=
  r ← attempt (FindIPGroupOverlapWarnings tenantID (g_ID group) (g_Members group));
  match r with
  | Ok warnings => mret warnings
  | Err x => internal_error ("Failed to load IP group warnings: " +:+ error_message x)
  end.
Definition getTenantIPGroup (tenantID groupID : UUID) : M group_answer :=
  group ← or_group_error "get" (GetIPGroup tenantID groupID);
  warnings ← attachIPGroupWarnings tenantID group;
  mret (GroupGiven group warnings).
Definition listTenantIPGroupReferences (limit offset : string) (tenantID groupID : UUID) : M group_answer :=
  match parseIPGroupReferencePagination limit offset with
  | Err x => invalid (error_message x)
  | Ok (limit, offset) =>
    r ← attempt (ListIPGroupReferences tenantID groupID limit offset);
    match r with
    | Ok page => mret (ReferencesListed page)
    | Err x => internal_error ("Failed to list IP group references: " +:+ error_message x)
    end
  end.
Definition createTenantIPGroup (body : option ipGroupPayload) (tenantID : UUID) : M group_answer :=
  record ← decoded (decodeIPGroupPayload body tenantID uuid_Nil);
  created ← or_group_error "create" (CreateIPGroup (Some record));
  warnings ← attachIPGroupWarnings tenantID created;
  mret (GroupGiven created warnings).

(** Every rule of the node against the others. *)
Definition first_conflict {A} (check : A → option error) (rules : list A) : M unit :=
  match find_map check rules with Some x => fail x | None => mret () end.
Definition validateNodePolicyConflicts (tenantID nodeID : UUID) : M unit :=
  aclRules ← ListTenantNodeACLRules tenantID nodeID;
  aclRules ← hydrateACLRuleGroups tenantID aclRules;
  _ ← first_conflict (λ rule, DetectACLPolicyConflict (Some <$> aclRules) (Some rule) (a_ID rule)) aclRules;
  qosRules ← ListTenantNodeQoSRules tenantID nodeID;
  qosRules ← hydrateQoSRuleGroups tenantID qosRules;
  first_conflict (λ rule, DetectQoSPolicyConflict (Some <$> qosRules) (Some rule) (q_ID rule)) qosRules.
Definition buildIPGroupUpdateSyncRequests (tenantID : UUID) (group : IPGroupRecord) (nodes : list Node)
    : M (list PolicySyncRequest) :=
  map_each (λ node,
    _ ← validateNodePolicyConflicts tenantID (N_ID node);
    buildPolicySyncRequest node "ip-group" "update" (g_ID group) (g_Name group)
      (with_texts [("group_id", g_ID group); ("group_name", g_Name group)] ∅)) nodes.
Definition updateTenantIPGroup (body : option ipGroupPayload) (tenantID groupID : UUID) : M group_answer :=
  record ← decoded (decodeIPGroupPayload body tenantID groupID);
  '(updated, results) ← or_group_error "update"
    (UpdateIPGroupAndQueuePolicySyncs tenantID groupID (Some record)
       (Some (buildIPGroupUpdateSyncRequests tenantID)));
  warnings ← attachIPGroupWarnings tenantID updated;
  mret (GroupUpdated updated warnings (policySyncDispatch <$> results)).
Definition deleteTenantIPGroup (tenantID groupID : UUID) : M group_answer :=
  _ ← or_group_error "delete" (DeleteIPGroup tenantID groupID);
  mret (GroupDeleted groupID).

(** [limit] and [offset] are the query parameters. *)
Definition handleTenantIPGroups (r : Request) (ctx : Context) (body : option ipGroupPayload)
    (limit offset : string) (tenantID : UUID) : M group_answer :=
  match ipGroupPathFromPath uuid_Parse (Path r) with
  | None => write_error 404 "ENDPOINT_NOT_FOUND" "Unknown IP group endpoint"
  | Some (groupID, references) =>
    let get := (Method r =? "GET")%string in
    _ ← authorizeTenantPermission enforcement ctx tenantID
          (if negb get && negb references then PermIPGroupsWrite else PermIPGroupsRead);
    if references then
      if negb get then method_not_allowed
      else listTenantIPGroupReferences limit offset tenantID (default uuid_Nil groupID)
    else if get then
      match groupID with
      | Some id => getTenantIPGroup tenantID id
      | None => listTenantIPGroups tenantID
      end
    else if (Method r =? "POST")%string then
      match groupID with Some _ => method_not_allowed | None => createTenantIPGroup body tenantID end
    else if (Method r =? "PUT")%string then
      match groupID with
      | Some id => updateTenantIPGroup body tenantID id
      | None => invalid "IP group ID is required for update"
      end
    else if (Method r =? "DELETE")%string then
      match groupID with
      | Some id => deleteTenantIPGroup tenantID id
      | None => invalid "IP group ID is required for deletion"
      end
    else method_not_allowed
  end.
End handlers.

(** ** The references of a group, page by page

    [ListIPGroupReferences] cuts the rules that refer to a group into pages.  A
    client that asks for the next page while there is one comes to an end, and has
    then been given every reference once, in order. *)

Section pages.
Context (tenantID groupID : UUID) (limit : Z).

(** The client: it starts where the last page ended. *)
Fixpoint follow_pages (fuel : nat) (offset : Z) : M (list IPGroupReferenceRecord) :=
  match fuel with
  | O => fail (ErrorString "out of fuel")
  | S fuel =>
    page ← ListIPGroupReferences tenantID groupID limit offset;
    if rp_HasMore page then
      rest ← follow_pages fuel (rp_Offset page + Z.of_nat (length (rp_Items page)));
      mret (rp_Items page ++ rest)
    else mret (rp_Items page)
  end.

(** The size of a page: [ListIPGroupReferences] corrects the limit it is given. *)
Definition page_size : Z := Z.min 100 (if limit <=? 0 then 20 else limit).
Lemma page_size_range : 1 ≤ page_size ≤ 100.
Proof. unfold page_size. destruct (Z.leb_spec limit 0); lia. Qed.

Lemma page_run offset e st : no_faults e → 0 ≤ offset →
  let refs := group_references tenantID groupID (st_db st) in
  let items := take (Z.to_nat page_size) (drop (Z.to_nat offset) refs) in
  ∃ total st', ListIPGroupReferences tenantID groupID limit offset e st =
      (Ok (mkReferencesPage items total page_size offset (offset + Z.of_nat (length items) <? total)), st') ∧
    st_db st' = st_db st ∧ total = (match items with [] => 0 | _ => Z.of_nat (length refs) end).
Proof.
  intros Hf Ho refs items. unfold ListIPGroupReferences. cbv zeta.
  assert ((offset <? 0) = false) as -> by lia.
  assert ((if 100 <? (if limit <=? 0 then 20 else limit) then 100 else (if limit <=? 0 then 20 else limit))
    = page_size) as ->.
  { unfold page_size. destruct (Z.ltb_spec 100 (if limit <=? 0 then 20 else limit)); lia. }
  erewrite bind_run by by apply query_run. eexists _, _. split_and!; [reflexivity|done|done].
Qed.
(** More is announced exactly when a reference follows. *)
Lemma page_more {A} (refs : list A) offset : 0 ≤ offset →
  let items := take (Z.to_nat page_size) (drop (Z.to_nat offset) refs) in
  let total := match items with [] => 0 | _ => Z.of_nat (length refs) end in
  (offset + Z.of_nat (length items) <? total) = true ↔
  (Z.to_nat offset + Z.to_nat page_size < length refs)%nat.
Proof.
  intros Ho items total. pose proof page_size_range as Hp.
  assert (length items = Z.to_nat page_size `min` (length refs - Z.to_nat offset))%nat as Hlen
    by (unfold items; by rewrite length_take, length_drop).
  rewrite Z.ltb_lt. subst total. destruct items as [|x items'] eqn:Hi; simpl in Hlen |- *; lia.
Qed.

Lemma follow_pages_from fuel offset e st : no_faults e → 0 ≤ offset →
  let refs := group_references tenantID groupID (st_db st) in
  (length refs - Z.to_nat offset < fuel)%nat →
  ∃ st', follow_pages fuel offset e st = (Ok (drop (Z.to_nat offset) refs), st') ∧ st_db st' = st_db st.
Proof.
  intros Hf. revert offset st. induction fuel as [|fuel IH]; intros offset st Ho refs Hfuel; [lia|].
  pose proof page_size_range as Hp.
  destruct (page_run offset e st Hf Ho) as (total & st1 & Hrun & Hdb & Htotal). fold refs in Hrun, Htotal.
  set (items := take (Z.to_nat page_size) (drop (Z.to_nat offset) refs)) in *.
  cbn [follow_pages]. rewrite (bind_run _ _ _ _ _ _ Hrun). cbn [rp_HasMore rp_Offset rp_Items].
  pose proof (page_more refs offset Ho) as Hmore. cbv zeta in Hmore. fold items in Hmore.
  rewrite <-Htotal in Hmore. destruct (_ <? total).
  - assert (Z.to_nat offset + Z.to_nat page_size < length refs)%nat as Hlt by by apply Hmore.
    assert (length items = Z.to_nat page_size) as Hlen
      by (unfold items; rewrite length_take, length_drop; lia).
    destruct (IH (offset + Z.of_nat (length items)) st1) as (st2 & Hrest & Hdb2); [lia| |].
    { rewrite Hdb. fold refs. lia. }
    rewrite (bind_run _ _ _ _ _ _ Hrest). eexists. split; [|by rewrite Hdb2, Hdb].
    rewrite Hdb. fold refs. unfold mret, M_ret. do 3 f_equal.
    replace (Z.to_nat (offset + Z.of_nat (length items))) with (Z.to_nat offset + Z.to_nat page_size)%nat by lia.
    rewrite <-drop_drop. apply take_drop.
  - eexists. split; [|done]. unfold mret, M_ret. do 2 f_equal. unfold items. apply take_ge.
    rewrite length_drop. destruct (decide (Z.to_nat offset + Z.to_nat page_size < length refs)%nat) as [Hlt|]; [|lia].
    by apply Hmore in Hlt.
Qed.

(** C25. A client that reads the references of a group page by page, following
    [has_more] from the end of each page, stops: with any page size it asks for,
    one request more than there are references is always enough, and it has then
    received each reference exactly once, in the order of the listing, without
    changing anything. *)
Theorem follow_pages_complete fuel e st : no_faults e →
  let refs := group_references tenantID groupID (st_db st) in
  (length refs < fuel)%nat →
  ∃ st', follow_pages fuel 0 e st = (Ok refs, st') ∧ st_db st' = st_db st.
Proof. intros Hf refs Hfuel. apply (follow_pages_from fuel 0 e st Hf); [lia|]. fold refs. lia. Qed.
End pages.

(** Three rules of one node refer to the group; pages of two. *)
Definition pages_db : DB :=
  let acl name := mkACLRow "t1" "n1" name "deny" (Some "g1") None None None None 6 "ingress" "" 10 true ""
    (mkPrefix (mkAddr true 0 "") 0) (mkPrefix (mkAddr true 0 "") 0) 0 65535 0 0 in
  empty_db <| nodes := {["n1" := mkNodeRow "k1" "m1" "t1" "" "" "" "eu" "" "edge" "100.64.0.2" 2 0 0
         "agent" None None None (Some "online") None [] None 3 0 0]} |>
    <| acl_rules := <["r1" := acl "b"]> (<["r2" := acl "a"]> {["r3" := acl "c"]}) |>.
Lemma follow_pages_complete_witness :
  ∃ refs st', follow_pages "t1" "g1" 2 4 0 (env_at 1) (mkSt pages_db 0) = (Ok refs, st') ∧
    re_RuleName <$> refs = ["a"; "b"; "c"].
Proof.
  assert (no_faults (env_at 1)) as Hf by (intros n; reflexivity).
  assert (re_RuleName <$> group_references "t1" "g1" pages_db = ["a"; "b"; "c"]) as Hnames
    by (vm_compute; reflexivity).
  assert (length (group_references "t1" "g1" (st_db (mkSt pages_db 0))) < 4)%nat as Hlen by (vm_compute; lia).
  destruct (follow_pages_complete "t1" "g1" 2 4 (env_at 1) (mkSt pages_db 0) Hf Hlen) as (st' & Hr & _).
  eexists _, st'. exact (conj Hr Hnames).
Defined.
