(* ===== verification/NodeAdmin.v ===== *)
(** * Node requests

    The handlers of [internal/api/v2/setup.go] that change a node, its routes or
    retry a policy sync, and those of [operations.go] that queue commands. *)

From S2P Require Import Prelude GoStr Netip Records PolicyConflict CidrColumn Store Events ControlState AgentCommands PolicySync Nodes IPGroups PolicyRules Lifecycle Routes Sessions Access Dispatch PolicyValidation PolicyAdmin.

Open Scope Z_scope.

(** ** Routes *)

(** One route: an address gets the length of its family. *)
Definition normalizeRoute (trimmed : string) : result string :=
  match ParseCIDR trimmed with
  | Some _ => Ok trimmed
  | None =>
    match ParseIP trimmed with
    | None => Err (ErrorString ("invalid CIDR or IP: " +:+ trimmed))
    | Some ip =>
      if existsb (λ c, Ascii.eqb c "/"%char) (String.list_ascii_of_string trimmed) then Ok trimmed
      else Ok (trimmed +:+ if bool_decide (To4 ip = None) then "/128" else "/32")
    end
  end.
(** The loop: each route once, in the order of first occurrence. *)
Fixpoint unique_routes (seen routes : list string) : result (list string) :=
  match routes with
  | [] => Ok []
  | r :: rest =>
    let trimmed := TrimSpace r in
    if (trimmed =? "")%string then unique_routes seen rest else
    route ← normalizeRoute trimmed;
    if one_of route seen then unique_routes seen rest else
    result ← unique_routes (route :: seen) rest;
    Ok (route :: result)
  end.
Definition normalizeRoutes (routes : list string) : result (list string) :=
  result ← unique_routes [] routes;
  Ok (SliceStable str_ltb result).

Record RouteBody := mkRouteBody { ro_CIDR : string; ro_Route : string }.
Definition decodeRouteBody (body : option RouteBody) : result string :=
  match body with
  | None => Err (ErrorString "invalid request body")
  | Some body =>
    let route := TrimSpace (first_nonempty (ro_CIDR body) (ro_Route body)) in
    if (route =? "")%string then Err (ErrorString "route CIDR is required") else Ok route
  end.
(** [if err != nil { WriteError(400, err.Error()) }]. *)
Definition or_invalid {A} (r : result A) : M A :=
  match r with Ok a => mret a | Err x => invalid (error_message x) end.
Definition route_answer (l : list (string * string)) : payload :=
  list_to_map ((λ kv, (kv.1, FText kv.2)) <$> l).

Definition validateTenantAdvertisedRouteConflicts (tenantID : UUID) (node : Node) (targetRegion : string)
    (routes : list string) : M unit :=
  r ← attempt (FindTenantAdvertisedRouteConflict tenantID (N_PublicKey node) targetRegion routes);
  match r with
  | Ok _ => mret ()
  | Err x => write_error (match x with RouteConflictError _ _ _ _ _ _ _ => 409 | _ => 400 end)
               "BAD_REQUEST" (error_message x)
  end.

Definition mutate_routes (node : Node) (tenantID : UUID) (action message : string)
    (metadata data : list (string * string)) (routes : list string) : M payload :=
  writeTransactionalPolicyMutationSuccess node "route" action message
    (_ ← UpdateTenantNodeRoutes (N_ID node) tenantID routes;
     mret (route_answer data, with_texts metadata ∅)).
Definition addTenantNodeRoute (body : option RouteBody) (tenantID : UUID) (node : Node) : M payload :=
  route ← or_invalid (decodeRouteBody body);
  _ ← require_policy_node node;
  normalized ← or_invalid (normalizeRoutes (N_AdvertisedRoutes node ++ [route]));
  if containsString (N_AdvertisedRoutes node) route
  then mret (route_answer [("id", route); ("cidr", route)]) else
  _ ← validateTenantAdvertisedRouteConflicts tenantID node (N_Region node) normalized;
  mutate_routes node tenantID "create" "Route created successfully"
    [("node_id", N_ID node); ("route", route)]
    [("id", route); ("cidr", route); ("node_id", N_ID node)] normalized.

Definition require_route (node : Node) (routeID : string) : M unit :=
  if negb (containsString (N_AdvertisedRoutes node) routeID)
  then write_error 404 "ENDPOINT_NOT_FOUND" "Route not found" else mret ().

Section handlers.
Context `{CidrText} `{Sha256} (uuid_Parse : string → option UUID) (enforcement : string).

Definition replaceTenantNodeRoute (body : option RouteBody) (tenantID : UUID) (nodeID routeID : string)
    : M payload :=
  node ← node_of_request uuid_Parse nodeID tenantID;
  _ ← require_route node routeID;
  newRoute ← or_invalid (decodeRouteBody body);
  _ ← require_policy_node node;
  let updated := (λ route, if (route =? routeID)%string then newRoute else route)
                   <$> N_AdvertisedRoutes node in
  normalized ← or_invalid (normalizeRoutes updated);
  _ ← validateTenantAdvertisedRouteConflicts tenantID node (N_Region node) normalized;
  mutate_routes node tenantID "update" "Route updated successfully"
    [("node_id", N_ID node); ("new_route", newRoute); ("old_route", routeID)]
    [("id", newRoute); ("cidr", newRoute); ("node_id", N_ID node); ("previous", routeID)] normalized.
Definition deleteTenantNodeRoute (tenantID : UUID) (nodeID routeID : string) : M payload :=
  node ← node_of_request uuid_Parse nodeID tenantID;
  _ ← require_route node routeID;
  _ ← require_policy_node node;
  mutate_routes node tenantID "delete" "Route deleted successfully"
    [("node_id", N_ID node); ("route", routeID)]
    [("id", routeID); ("status", "deleted"); ("node_id", N_ID node)]
    (filter (λ route, route ≠ routeID) (N_AdvertisedRoutes node)).
Definition getTenantNodeRoute (tenantID : UUID) (nodeID routeID : string) : M payload :=
  node ← node_of_request uuid_Parse nodeID tenantID;
  _ ← require_route node routeID;
  mret (route_answer [("id", routeID); ("cidr", routeID); ("node_id", N_ID node)]).

(** [strings.Join(parts, "/")]. *)
Fixpoint join_slash (parts : list string) : string :=
  match parts with
  | [] => ""
  | [p] => p
  | p :: rest => p +:+ "/" +:+ join_slash rest
  end.
(** [handleTenantNodeRoutes] for every request other than a GET without a route,
    which lists the routes with their deliveries. *)
Definition change_routes (r : Request) (ctx : Context) (body : option RouteBody) (tenantID : UUID)
    (parts : list string) : M payload :=
  _ ← authorizeTenantPermission enforcement ctx tenantID (required r PermRoutesRead PermRoutesWrite);
  let nodeID := default "" (parts !! 5%nat) in
  node ← node_of_request uuid_Parse nodeID tenantID;
  let routeID := join_slash (drop 7 parts) in
  if (routeID =? "")%string then
    if (Method r =? "POST")%string then addTenantNodeRoute body tenantID node else method_not_allowed
  else if (Method r =? "GET")%string then getTenantNodeRoute tenantID nodeID routeID
  else if (Method r =? "PUT")%string then replaceTenantNodeRoute body tenantID nodeID routeID
  else if (Method r =? "DELETE")%string then deleteTenantNodeRoute tenantID nodeID routeID
  else method_not_allowed.

(** ** Nodes *)

Record NodeBody := mkNodeBody {
  nb_Hostname : string;
  nb_Endpoint : string;
  nb_PrivateIP : string;
  nb_PublicIP : string;
  nb_Region : string;
  nb_VPCID : string;
  nb_Role : string;
  nb_AdvertisedRoutes : option (list string);
}.
Definition isControlRune (c : ascii) : bool :=
  let n := N_of_ascii c in ((n <? 32) || (n =? 127))%N.
Definition node_field (name : string) (max : nat) (value : string) : result string :=
  let normalized := TrimSpace value in
  if (normalized =? "")%string then Ok normalized else
  if (max <? RuneCountInString normalized)%nat
  then Err (ErrorString (name +:+ " must be at most " +:+ Itoa (Z.of_nat max) +:+ " characters")) else
  if existsb isControlRune (String.list_ascii_of_string normalized)
  then Err (ErrorString (name +:+ " cannot contain control characters")) else Ok normalized.
Definition normalizeAndValidateNodeUpdateFields (hostname region vpcID : string)
    : result (string * string * string) :=
  hostname ← node_field "hostname" 100 hostname;
  region ← node_field "region" 50 region;
  vpcID ← node_field "vpc_id" 50 vpcID;
  Ok (hostname, region, vpcID).

(** The UPDATE: [COALESCE(NULLIF($n, ''), column)]. *)
Definition update_node_fields (tenantID nodeID : UUID) (hostname endpoint privateIP publicIP region
    vpcID role : string) : M unit :=
  exec (λ e db, ((), db <| nodes := update_where
    (λ id n, (id =? nodeID)%string && (n_tenant_id n =? tenantID)%string)
    (λ n, n <| n_hostname := first_nonempty hostname (n_hostname n) |>
            <| n_endpoint := first_nonempty endpoint (n_endpoint n) |>
            <| n_private_ip := first_nonempty privateIP (n_private_ip n) |>
            <| n_public_ip := first_nonempty publicIP (n_public_ip n) |>
            <| n_region := first_nonempty region (n_region n) |>
            <| n_vpc_id := first_nonempty vpcID (n_vpc_id n) |>
            <| n_role := role |> <| n_updated_at := env_now e |>) (nodes db) |>)).
(** The answer: the role and the routes. *)
Definition updateTenantNode (body : option NodeBody) (tenantID : UUID) (nodeID : string)
    : M (UUID * string * list string) :=
  node ← node_of_request uuid_Parse nodeID tenantID;
  body ← body_of body;
  if bool_decide (is_Some (nb_AdvertisedRoutes body))
  then invalid "Use the node route API to update advertised routes" else
  '(hostname, region, vpcID) ← or_invalid
    (normalizeAndValidateNodeUpdateFields (nb_Hostname body) (nb_Region body) (nb_VPCID body));
  normalizedRoutes ← or_invalid (normalizeRoutes (N_AdvertisedRoutes node));
  let role := first_nonempty (nb_Role body) (N_Role node) in
  let targetRegion := first_nonempty region (N_Region node) in
  _ ← (if negb (TrimSpace region =? "")%string
       then validateTenantAdvertisedRouteConflicts tenantID node targetRegion normalizedRoutes
       else mret ());
  r ← attempt (update_node_fields tenantID (N_ID node) hostname (nb_Endpoint body) (nb_PrivateIP body)
                 (nb_PublicIP body) region vpcID role);
  match r with
  | Err _ => write_error 500 "UPDATE_NODE_FAILED" "Failed to update node"
  | Ok _ => mret (N_ID node, role, normalizedRoutes)
  end.
Definition deleteTenantNode (tenantID : UUID) (nodeID : string) : M string :=
  node ← node_of_request uuid_Parse nodeID tenantID;
  r ← attempt (ApplyNodeLifecycleTransition (N_PublicKey node)
        (mkNodeTransition "deleted" "node deleted via API" "node_deleted" "user" "Node deleted via API"
           {["node_id" := JString (N_ID node)]}));
  match r with
  | Err x => write_error 500 "UPDATE_NODE_FAILED" ("Failed to delete node: " +:+ error_message x)
  | Ok _ => mret nodeID
  end.

(** ** Retrying a sync *)

Record RetryBody := mkRetryBody {
  rb_NodeID : string;
  rb_PolicyDomain : string;
  rb_Kind : string;
  rb_PolicyRef : string;
  rb_PolicyName : string;
}.
Definition policyRetryPermission (domain : string) : option string :=
  let d := ToLower (TrimSpace domain) in
  if (d =? "acl")%string then Some PermAclsWrite
  else if (d =? "qos")%string then Some PermQosWrite
  else if (d =? "route")%string then Some PermRoutesWrite else None.
Definition errUnsupportedPolicyDomain : error := ErrorString "unsupported policy domain".
Definition first_of (l : list string) : string := default "" (find_map nullif l).
(** The name and the metadata of a policy that exists. *)
Definition resolveRetryPolicy (tenantID : UUID) (node : Node) (domain policyRef requestedName : string)
    : M (string * object) :=
  let base := with_texts [("node_id", N_ID node); ("policy_ref", policyRef)]
                {["retry" := JBool true]} in
  let requestedName := TrimSpace requestedName in
  let d := ToLower (TrimSpace domain) in
  if (d =? "acl")%string then
    match uuid_Parse policyRef with
    | None => fail (ErrorString "invalid ACL policy_ref")
    | Some ruleID =>
      rule ← GetTenantNodeACLRule tenantID (N_ID node) ruleID;
      let name := first_of [requestedName; a_Name rule; a_Description rule] in
      mret (name, with_texts [("rule_id", a_ID rule); ("policy_name", name)] base)
    end
  else if (d =? "qos")%string then
    match uuid_Parse policyRef with
    | None => fail (ErrorString "invalid QoS policy_ref")
    | Some ruleID =>
      rule ← GetTenantNodeQoSRule tenantID (N_ID node) ruleID;
      let name := first_of [requestedName; q_Description rule] in
      mret (name, with_texts [("rule_id", q_ID rule); ("policy_name", name)] base)
    end
  else if (d =? "route")%string then
    if existsb (λ route, (TrimSpace route =? policyRef)%string) (N_AdvertisedRoutes node) then
      let name := first_of [requestedName; policyRef] in
      mret (name, with_texts [("route", policyRef); ("policy_name", name)] base)
    else fail ErrNoRows
  else fail errUnsupportedPolicyDomain.
Definition bad_retry_domain {A} : M A := invalid "policy_domain must be acl, qos, or route".
Definition retryTenantPolicySync (ctx : Context) (body : option RetryBody) (tenantID : UUID) : M payload :=
  match body with
  | None => write_error 400 "BAD_REQUEST" "Invalid request body"
  | Some body =>
    let domain := ToLower (TrimSpace (first_nonempty (rb_PolicyDomain body) (rb_Kind body))) in
    let policyRef := TrimSpace (rb_PolicyRef body) in
    if (rb_NodeID body =? "")%string then invalid "node_id is required" else
    if (domain =? "")%string then invalid "policy_domain is required" else
    if (policyRef =? "")%string then invalid "policy_ref is required" else
    match policyRetryPermission domain with
    | None => bad_retry_domain
    | Some permission =>
      _ ← authorizeTenantPermission enforcement ctx tenantID permission;
      node ← node_of_request uuid_Parse (rb_NodeID body) tenantID;
      _ ← require_policy_node node;
      r ← attempt (resolveRetryPolicy tenantID node domain policyRef (rb_PolicyName body));
      match r with
      | Err ErrNoRows => write_error 404 "NOT_FOUND" "Policy item not found"
      | Err x =>
        if bool_decide (x = errUnsupportedPolicyDomain) then bad_retry_domain
        else write_error 500 "INTERNAL_ERROR" ("Failed to load policy item: " +:+ error_message x)
      | Ok (policyName, metadata) =>
        q ← attempt (queueNodePolicySync node domain "retry" policyRef policyName metadata);
        match q with
        | Err _ => write_error 500 "INTERNAL_ERROR" "Policy retry dispatch failed"
        | Ok (d, delivery) =>
          _ ← recordPolicyChangedAudit node domain "retry" policyRef policyName d;
          let data := <["dispatch" := FDispatch d]> (route_answer [("node_id", N_ID node);
            ("policy_domain", domain); ("policy_ref", policyRef); ("policy_name", policyName)]) in
          mret (match delivery with
                | Some x => <["delivery_history" := FDeliveries [x]]> (<["last_delivery" := FDelivery x]> data)
                | None => data end)
        end
      end
    end
  end.

(** ** Dispatch *)

(** The paths below a node that lead to its policies, [parts[6]]. *)
Inductive policy_path := SecurityPath | QoSPath | RoutesPath.
(** [handleTenantNodes] for such a path; [body] and [route] are what the handlers
    would decode. *)
Definition change_node_policy (path : policy_path) (r : Request) (ctx : Context) (body : PolicyBody)
    (route : option RouteBody) (tenantID : UUID) : M payload :=
  let parts := splitPath (Path r) in
  node ← node_of_request uuid_Parse (default "" (parts !! 5%nat)) tenantID;
  match path with
  | SecurityPath => change_security uuid_Parse enforcement r ctx body tenantID node parts
  | QoSPath => change_qos uuid_Parse enforcement r ctx body tenantID node parts
  | RoutesPath => change_routes r ctx route tenantID parts
  end.
End handlers.
