(* ===== verification/AgentAdmin.v ===== *)
(** * Command requests

    The handlers of [internal/api/v2/operations.go] that queue commands for
    agents, one at a time or in a batch, and answer what became of them. *)

From S2P Require Import Prelude GoStr Records Store Events ControlState AgentCommands PolicySync Nodes Sessions Access Dispatch.

Open Scope Z_scope.

Definition maxBatchAgentCommandTargets : Z := 1000.
Definition PermCommandsWrite : string := "commands:write".
Definition PermMonitoringRead : string := "monitoring:read".

Record v2AgentCommandRequest := mkCommandRequest {
  vr_Command : string;
  vr_Params : option object;
  vr_Timeout : Z;
  vr_Priority : Z;
}.
#[export] Instance eta_v2AgentCommandRequest : Eta v2AgentCommandRequest := λ r,
  mkCommandRequest (vr_Command r) (vr_Params r) (vr_Timeout r) (vr_Priority r).
Record v2BatchAgentCommandRequest := mkBatchRequest {
  br_NodeIDs : list string;
  br_Command : v2AgentCommandRequest;
}.

(** What became of one target. *)
Inductive target_result :=
  | TargetQueued (node : Node) (cmd : AgentCommand)
  | TargetFailed (node : Node) (message : string).
Definition result_node (r : target_result) : Node :=
  match r with TargetQueued n _ | TargetFailed n _ => n end.
Definition queued_ok (r : target_result) : bool :=
  match r with TargetQueued _ _ => true | TargetFailed _ _ => false end.

Inductive agent_answer :=
  | CommandQueued (node : Node) (cmd : AgentCommand)
  | CommandsListed (node : Node) (items : list AgentCommand)
  | AgentStatus (summary : NodeSummary)
  | BatchProcessed (total success failed : Z) (results : list target_result).

Definition bad_request {A} (message : string) : M A := write_error 400 "BAD_REQUEST" message.
Definition codeCommandDispatchFailed : string := "COMMAND_DISPATCH_FAILED".

Definition inactiveCommandTargetMessage (node : Node) : string :=
  let status := ToLower (TrimSpace (N_Status node)) in
  if one_of status no_policy_statuses
  then "Node status " +:+ status +:+ " does not allow commands" else "".

(** ** Audit *)

Definition commandContextString (params : object) (key : string) : string :=
  match params !! key with
  | None | Some JNull => ""
  | Some v => TrimSpace (stringifyCommandParam v)
  end.
Definition buildAgentCommandQueuedAuditEvent (ctx : Context) (node : Node) (cmd : AgentCommand)
    : option AuditEvent :=
  if (N_ID node =? uuid_Nil)%string || (N_TenantID node =? uuid_Nil)%string then None else
  let actor := match Username ctx with
    | Some name => if (TrimSpace name =? "")%string then "user" else TrimSpace name
    | None => "user" end in
  let params := RawParams cmd in
  let detail : object := list_to_map [("command_id", JString (ID cmd)); ("command", JString (Command cmd));
    ("source", JString "api.v2"); ("priority", JOther (Itoa (Priority cmd)));
    ("timeout_seconds", JOther (Itoa (TimeoutSeconds cmd)))] in
  let set_text (d : object) (key : string) (value : string) : object :=
    if (value =? "")%string then d else <[key := JString value]> d in
  let detail := foldl (λ d key, set_text d key (commandContextString params key)) detail
    ["source"; "alert_id"; "event_type"; "policy_ref"; "policy_domain"] in
  let related := commandContextString params "command_id" in
  let detail := if (related =? ID cmd)%string then detail else set_text detail "related_command_id" related in
  Some (mkAuditEvent (N_TenantID node) (Some (N_ID node)) AuditCommandQueued actor
          ("Command queued: " +:+ Command cmd) detail).
Definition recordAgentCommandQueuedAudit (ctx : Context) (node : Node) (cmd : AgentCommand) : M unit :=
  match buildAgentCommandQueuedAuditEvent ctx node cmd with
  | Some event => best_effort (CreateAuditEvent event)
  | None => mret ()
  end.

(** [CreateAuditEvents] of [audit_events.go]: one INSERT for all, nil ones left
    out. *)
Definition insert_audit_rows (events : list AuditEvent) : M unit :=
  stmt (λ e _ db,
    if forallb (λ ev, tenant_exists db (ev_TenantID ev) && node_ref_ok db (ev_NodeID ev)) events
    then Ok ((), db <| audit_events := audit_events db ++ ((λ ev, mkAuditRow (ev_TenantID ev)
                (ev_NodeID ev) (ev_EventType ev) (ev_Actor ev) (ev_Summary ev) (ev_Detail ev)
                (env_now e)) <$> events) |>)
    else Err (ErrConstraint "audit_events foreign key")).
Definition CreateAuditEvents (events : list (option AuditEvent)) : M unit :=
  match omap id events with
  | [] => mret ()
  | present =>
    if existsb (λ ev, negb (marshals (ev_Detail ev))) present
    then fail (ErrorString "failed to marshal audit event detail")
    else insert_audit_rows present
  end.

(** ** Requests *)

Definition checked_command (request : v2AgentCommandRequest) : M v2AgentCommandRequest :=
  if (vr_Command request =? "")%string then bad_request "command is required" else
  let request := request <| vr_Command := TrimSpace (vr_Command request) |> in
  if negb (IsAllowedAgentCommand (vr_Command request)) then bad_request "unsupported command" else
  mret (if vr_Timeout request =? 0 then request <| vr_Timeout := 30 |> else request).
Definition decoded_body {A} (body : option A) : M A :=
  match body with Some b => mret b | None => bad_request "Invalid request body" end.

Definition handleTenantNodeAgentCommand (r : Request) (ctx : Context) (body : option v2AgentCommandRequest)
    (node : Node) : M agent_answer :=
  if negb (Method r =? "POST")%string then method_not_allowed else
  body ← decoded_body body;
  body ← checked_command body;
  let message := inactiveCommandTargetMessage node in
  if negb (message =? "")%string then write_error 409 "CONFLICT" message else
  q ← attempt (QueueAgentCommand (N_PublicKey node) (vr_Command body) (vr_Params body)
                 (vr_Priority body) (vr_Timeout body));
  match q with
  | Err x => write_error 500 codeCommandDispatchFailed ("Failed to queue command: " +:+ error_message x)
  | Ok cmd =>
    _ ← recordAgentCommandQueuedAudit ctx node cmd;
    mret (CommandQueued node cmd)
  end.
Definition handleTenantNodeAgentStatus (node : Node) : M agent_answer :=
  _ ← failTimedOutNodeCommands node;
  s ← attempt (buildNodeOperationsSummary node);
  match s with
  | Err x => write_error 500 codeCommandDispatchFailed ("Failed to query agent status: " +:+ error_message x)
  | Ok summary => mret (AgentStatus summary)
  end.
(** [limit] is the query parameter. *)
Definition handleTenantNodeAgentCommands (r : Request) (limit : string) (node : Node) : M agent_answer :=
  if negb (Method r =? "GET")%string then method_not_allowed else
  _ ← failTimedOutNodeCommands node;
  let limit := match Atoi limit with
    | Some parsed => if (0 <? parsed) && (parsed <=? 100) then parsed else 10
    | None => 10 end in
  l ← attempt (ListRecentAgentCommands (N_PublicKey node) limit);
  match l with
  | Err x => write_error 500 codeCommandDispatchFailed ("Failed to load agent commands: " +:+ error_message x)
  | Ok commands => mret (CommandsListed node commands)
  end.

(** ** Batches *)

(** The answers of the active targets, in their order, put back among those of the
    inactive ones; a target that got none failed. *)
Fixpoint batch_results (nodes : list Node) (answers : list target_result) : list target_result :=
  match nodes with
  | [] => []
  | node :: rest =>
    let message := inactiveCommandTargetMessage node in
    if negb (message =? "")%string then TargetFailed node message :: batch_results rest answers else
    match answers with
    | [] => TargetFailed node "Failed to queue command" :: batch_results rest []
    | a :: answers => a :: batch_results rest answers
    end
  end.
Definition active_target (node : Node) : bool := (inactiveCommandTargetMessage node =? "")%string.
Definition queue_batch (ctx : Context) (request : v2AgentCommandRequest) (activeNodes : list Node)
    : M (list target_result) :=
  match activeNodes with
  | [] => mret []
  | _ =>
    q ← attempt (QueueAgentCommands (N_PublicKey <$> activeNodes) (vr_Command request)
                   (vr_Params request) (vr_Priority request) (vr_Timeout request));
    match q with
    | Err x => mret ((λ node, TargetFailed node ("Failed to queue command: " +:+ error_message x)) <$> activeNodes)
    | Ok commands =>
      let pairs := zip activeNodes commands in
      _ ← best_effort (CreateAuditEvents
            ((λ nc, buildAgentCommandQueuedAuditEvent ctx nc.1 nc.2) <$> pairs));
      mret ((λ nc, TargetQueued nc.1 nc.2) <$> pairs)
    end
  end.
Definition batch_targets (uuid_Parse : string → option UUID) (nodeIDs : list string) (tenantID : UUID)
    : M (list Node) :=
  match nodeIDs with
  | [] =>
    r ← attempt (GetNodesByTenantPage tenantID maxBatchAgentCommandTargets 0);
    match r with
    | Err _ => write_error 500 "GET_NODES_FAILED" "Failed to load tenant nodes"
    | Ok nodes => mret nodes
    end
  | _ => map_each (λ nodeID, node_of_request uuid_Parse nodeID tenantID) nodeIDs
  end.
Definition handleTenantBatchAgentCommand (uuid_Parse : string → option UUID) (ctx : Context)
    (body : option v2BatchAgentCommandRequest) (tenantID : UUID) : M agent_answer :=
  body ← decoded_body body;
  command ← checked_command (br_Command body);
  nodes ← batch_targets uuid_Parse (br_NodeIDs body) tenantID;
  match nodes with
  | [] => write_error 404 "NODE_NOT_FOUND" "No nodes found"
  | _ =>
    answers ← queue_batch ctx command (filter (λ n, active_target n = true) nodes);
    let results := batch_results nodes answers in
    let success := Z.of_nat (length (filter (λ a, queued_ok a = true) results)) in
    let total := Z.of_nat (length nodes) in
    mret (BatchProcessed total success (total - success) results)
  end.

(** ** Dispatch *)

Definition handleTenantAgents (uuid_Parse : string → option UUID) (enforcement : string) (r : Request)
    (ctx : Context) (body : option v2BatchAgentCommandRequest) (tenantID : UUID) : M agent_answer :=
  _ ← authorizeTenantPermission enforcement ctx tenantID PermCommandsWrite;
  let parts := splitPath (Path r) in
  if (length parts =? 6)%nat && bool_decide (parts !! 4%nat = Some "agents")
     && bool_decide (parts !! 5%nat = Some "command") && (Method r =? "POST")%string
  then handleTenantBatchAgentCommand uuid_Parse ctx body tenantID
  else write_error 400 "INVALID_PATH" "Invalid agent path".
Definition handleTenantNodeAgent (uuid_Parse : string → option UUID) (enforcement : string) (r : Request)
    (ctx : Context) (body : option v2AgentCommandRequest) (limit : string) (tenantID : UUID)
    (parts : list string) : M agent_answer :=
  if negb (length parts =? 8)%nat then write_error 400 "INVALID_PATH" "Invalid node agent path" else
  node ← node_of_request uuid_Parse (default "" (parts !! 5%nat)) tenantID;
  let part := default "" (parts !! 7%nat) in
  if (part =? "command")%string then
    _ ← authorizeTenantPermission enforcement ctx tenantID PermCommandsWrite;
    handleTenantNodeAgentCommand r ctx body node
  else if (part =? "commands")%string then
    _ ← authorizeTenantPermission enforcement ctx tenantID PermMonitoringRead;
    handleTenantNodeAgentCommands r limit node
  else if (part =? "status")%string then
    _ ← authorizeTenantPermission enforcement ctx tenantID PermMonitoringRead;
    handleTenantNodeAgentStatus node
  else write_error 404 "ENDPOINT_NOT_FOUND" "Unknown node agent endpoint".
