(* ===== verification/AgentSync.v ===== *)
(** * Synchronisation of an agent

    [Sync] of [internal/controller/grpc/server.go] with the adapter that
    [internal/cli/controller_serve.go] installs as its handler: an agent reports
    its state and receives its peers, its policy snapshot, the version they
    amount to and a fresh runtime token.  Then what the answer of a call that succeeds
    says of the tables. *)

From S2P Require Import Prelude GoStr Netip Records PolicyConflict CidrColumn Store Events ControlState AgentCommands PolicySync PolicySnapshot Nodes NodesSpec IPGroups PolicyRules Lifecycle PublicNetwork RuntimeAuth.

Open Scope Z_scope.

(** ** Messages *)

Record SyncRequest := mkSyncRequest {
  sy_PublicKey : string;
  sy_NodeId : string;
  sy_AppliedStateVersion : string;
  sy_ObservedState : string;
  sy_ObservedMessage : string;
  sy_PublicIp : string;
  sy_Endpoint : string;
}.
Record PeerInfo := mkPeerInfo {
  pi_PublicKey : string;
  pi_Endpoint : string;
  pi_PrivateIp : string;
  pi_PublicIp : string;
  pi_Region : string;
  pi_VpcId : string;
  pi_Hostname : string;
  pi_AssignedIp : string;
  pi_Role : string;
  pi_AdvertisedRoutes : list string;
}.
(** [SnapshotComplete] is always set; the compiled blacklist is part of the ACL
    rules of the snapshot. *)
Record SyncResponse := mkSyncResponse {
  so_Peers : list PeerInfo;
  so_AssignedIp : string;
  so_LastUpdate : Z;
  so_Policy : agentPolicySnapshot;
  so_MetricsPushGateway : string;
  so_DesiredStateVersion : string;
  so_RuntimeToken : string;
  so_RuntimeTokenExpiresAt : Z;
  so_DomainVersions : strmap;
}.

(** ** Peers *)

Definition nodeEligibleForSync (node : Node) : bool :=
  negb (one_of (ToLower (TrimSpace (N_Status node))) ["deleted"; "suspended"; "banned"]).
Definition peer_info (n : Node) : PeerInfo :=
  mkPeerInfo (N_PublicKey n) (N_Endpoint n) (N_PrivateIP n) (N_PublicIP n) (N_Region n) (N_VPCID n)
    (N_Hostname n) (N_AssignedIP n) (N_Role n) (N_AdvertisedRoutes n).
Definition is_peer (publicKey : string) (n : Node) : bool :=
  nodeEligibleForSync n && negb (N_PublicKey n =? publicKey)%string.
Definition sync_peers (publicKey : string) (tenantNodes : list Node) : list PeerInfo :=
  peer_info <$> filter (λ n, is_peer publicKey n = true) tenantNodes.

Section sync.
Context `{JWT} (secret : string) (uuid_Parse : string → option UUID) `{CidrText}.

(** The rules are those [HandleSync] sends in the old form; [Sync] drops them. *)
Definition processSync (publicKey : string) : M (list PeerInfo * string * list ACLRuleRecord * UUID) :=
  node ← wrap "node not found" (GetNode publicKey);
  match node with
  | None => fail (ErrorString "invalid memory address or nil pointer dereference")
  | Some node =>
    now ← ask env_go_now;
    _ ← wrap "failed to update node heartbeat" (UpdateNodeHeartbeat (N_ID node) (unix now));
    tenantNodes ← wrap "failed to get nodes" (GetNodesByTenant (N_TenantID node));
    aclRuleRecords ← wrap "failed to get node ACL rules"
      (GetEnabledTenantNodeACLRules (N_TenantID node) (N_ID node));
    mret (sync_peers publicKey tenantNodes, N_AssignedIP node, aclRuleRecords, N_TenantID node)
  end.
(** Peers, address and metrics gateway. *)
Definition createSyncAdapter (metricsPushGateway publicKey : string)
    : M (list PeerInfo * string * string) :=
  '(peers, assignedIP, _, tenantID) ← processSync publicKey;
  let gateway := if (tenantID =? uuid_Nil)%string then metricsPushGateway
                 else metricsPushGateway +:+ "?tenant=" +:+ tenantID in
  mret (peers, assignedIP, gateway).

(** ** Reported and desired state *)

Definition reportRuntimeSyncState (node : Node) (req : SyncRequest) : M unit :=
  now ← ask env_go_now;
  let lastSyncError := if (sy_ObservedState req =? "error")%string then sy_ObservedMessage req else "" in
  _ ← ReportNodeControlState (N_TenantID node) (N_ID node)
        (mkReport (sy_AppliedStateVersion req) (sy_ObservedState req) (sy_ObservedMessage req)
           (Some now) lastSyncError);
  let '(publicIP, endpoint) := NormalizeReportedNetwork (sy_PublicIp req) (sy_Endpoint req) in
  UpdateNodePublicIdentity (N_ID node) publicIP endpoint.

Definition ensureDesiredStateVersion (node : Node) : M string :=
  state ← GetNodeControlState (N_TenantID node) (N_ID node);
  let known := match state with Some s => ncs_DesiredStateVersion s | None => "" end in
  if negb (known =? "")%string then mret known else
  version ← NewDesiredStateVersion;
  created ← UpsertNodeDesiredState (N_TenantID node) (N_ID node) version
              (Some {["source" := JString "sync-baseline"]});
  mret (ncs_DesiredStateVersion created).

Definition sync_domains : list string := ["peer"; "acl"; "qos"; "route"; "blacklist"; "certificate"].
Definition domainVersionsFromDesiredVersion (version : string) : strmap :=
  let version := TrimSpace version in
  if (version =? "")%string then ∅ else list_to_map ((λ d, (d, version)) <$> sync_domains).

(** ** The policy of a node *)

Definition blacklist_message (rule : BlacklistRuleRecord) : BlacklistRule :=
  mkBlacklistRule (b_Scope rule) (b_CIDR rule) (uint32 (b_Port rule)).
Definition getBlacklistRules (publicKey : string) : M (list BlacklistRule) :=
  r ← attempt (GetNodeBlacklistRulesByPublicKey publicKey);
  match r with
  | Err ErrNoRows => mret []
  | Err x => fail x
  | Ok rules => mret (blacklist_message <$> rules)
  end.
(** The four reads and the compilation in the middle of [Sync]. *)
Definition node_policy (node : Node) : M agentPolicySnapshot :=
  aclRules ← wrap "failed to get ACL rules" (GetEnabledTenantNodeACLRules (N_TenantID node) (N_ID node));
  qosRules ← wrap "failed to get QoS rules" (GetEnabledTenantNodeQoSRules (N_TenantID node) (N_ID node));
  policyGroups ← wrap "failed to get policy IP groups"
    (ListIPGroupsForNodePolicySnapshot (N_TenantID node) (N_ID node));
  blacklistRules ← wrap "failed to get blacklist rules" (getBlacklistRules (N_PublicKey node));
  wrap "failed to compile policy snapshot" (lift (λ _,
    compileAgentPolicySnapshotWithGroups (Some <$> policyGroups) (Some <$> aclRules)
      (Some <$> qosRules) (Some <$> blacklistRules))).

Definition Sync (syncHandler : string → M (list PeerInfo * string * string)) (ctx : RuntimeContext)
    (req : SyncRequest) : M SyncResponse :=
  node ← resolveRuntimeNodeForRequest uuid_Parse ctx (sy_NodeId req) (sy_PublicKey req);
  _ ← wrap "failed to persist runtime sync state" (reportRuntimeSyncState node req);
  '(peers, assignedIP, metricsGateway) ← wrap "sync failed" (syncHandler (N_PublicKey node));
  policySnapshot ← node_policy node;
  desiredVersion ← wrap "failed to determine desired state version" (ensureDesiredStateVersion node);
  '(runtimeToken, runtimeTokenExpiresAt) ← wrap "failed to refresh runtime token"
    (generateRuntimeTokenForNode secret node);
  now ← ask env_go_now;
  mret (mkSyncResponse peers assignedIP (unix now) policySnapshot metricsGateway desiredVersion
    runtimeToken runtimeTokenExpiresAt (domainVersionsFromDesiredVersion desiredVersion)).
End sync.

(** ** What an agent is given

    [Sync] in the environment of the controller: the peers, address and version an
    agent receives are those of the tables at the end of the call. *)

(** A node that peers may see. *)
Definition visible (r : NodeRow) : Prop :=
  ∃ s, n_status r = Some s ∧ one_of (ToLower (TrimSpace s)) ["deleted"; "suspended"; "banned"] = false.

Section sync.
Context `{JWT} (secret : string) (uuid_Parse : string → option UUID) `{CidrText}.

Lemma sync_peers_elem key t db p : t ≠ uuid_Nil →
  p ∈ sync_peers key (nodes_by_last_seen (λ _ r, ((t =? uuid_Nil)%string || (n_tenant_id r =? t)%string)
        && (false || not_deleted r)) db) ↔
  ∃ id r, nodes db !! id = Some r ∧ n_tenant_id r = t ∧ visible r ∧ n_public_key r ≠ key ∧
    p = peer_info (scanNode id r).
Proof.
  intros Ht. unfold sync_peers, nodes_by_last_seen. rewrite list_elem_of_fmap.
  assert (∀ r id, is_peer key (scanNode id r) = true ∧ not_deleted r = true ↔ visible r ∧ n_public_key r ≠ key) as Hp.
  { intros r id. unfold is_peer, nodeEligibleForSync, not_deleted, status_not_in, visible. cbn [N_Status N_PublicKey scanNode].
    rewrite andb_true_iff, !negb_true_iff, String.eqb_neq. destruct (n_status r) as [s|]; cbn [default].
    - change (default "online" (Some s)) with s. rewrite negb_true_iff. split; [naive_solver|].
      intros [(s' & [= <-] & Hs) Hk]. split_and!; [done|done|]. apply one_of_false.
      intros [-> |[]%elem_of_nil]%elem_of_cons. discriminate Hs.
    - naive_solver. }
  split.
  - intros (n & -> & [Hpeer ([id r] & -> & Hin)%list_elem_of_fmap]%list_elem_of_filter).
    rewrite SliceStable_Permutation in Hin. apply select_where_elem in Hin as [Hr Hc].
    apply andb_true_iff in Hc as [Hc Hd]. apply orb_true_iff in Hc as [Hc|Hc]; apply String.eqb_eq in Hc; [done|].
    exists id, r. destruct (proj1 (Hp r id)) as [? ?]; done.
  - intros (id & r & Hr & Hrt & Hv & Hk & ->). exists (scanNode id r). split; [done|].
    destruct (proj2 (Hp r id)) as [Hpeer Hd]; [done|]. apply list_elem_of_filter. split; [done|].
    apply list_elem_of_fmap. exists (id, r). split; [done|]. rewrite SliceStable_Permutation.
    apply select_where_elem. split; [done|]. by rewrite Hrt, String.eqb_refl, orb_true_r, Hd.
Qed.

Lemma heartbeat_ok id now e st u st' : UpdateNodeHeartbeat id now e st = (Ok u, st') →
  ∀ r, nodes (st_db st) !! id = Some r → ∃ r', nodes (st_db st') !! id = Some r' ∧
    n_status r' = Some "online" ∧ n_tenant_id r' = n_tenant_id r ∧ n_public_key r' = n_public_key r ∧
    n_assigned_ip r' = n_assigned_ip r.
Proof.
  unfold UpdateNodeHeartbeat, update_nodes. intros Hr r Hrow.
  apply bind_ok in Hr as (n & st1 & [Hn Hdb]%exec_ok & Hr). destruct (n =? 0) eqn:Hz; [done|]. injection Hr as _ <-.
  rewrite Hdb. simpl. rewrite lookup_update_where, Hrow. simpl. rewrite String.eqb_refl. cbn [andb].
  destruct (status_not_in stopped_statuses r) eqn:Hs; [by eexists|]. exfalso. apply Z.eqb_neq in Hz. apply Hz.
  rewrite Hn. simpl. apply count_where_0. intros k r' Hk. destruct (String.eqb_spec k id) as [-> |]; [|done].
  by simplify_eq.
Qed.

Lemma processSync_ok key e st peers ip rules t st' :
  processSync key e st = (Ok (peers, ip, rules, t), st') →
  ∃ id self, nodes (st_db st') !! id = Some self ∧ n_public_key self = key ∧ n_status self = Some "online" ∧
    n_tenant_id self = t ∧ n_assigned_ip self = ip ∧
    (t ≠ uuid_Nil → ∀ p, p ∈ peers ↔ ∃ id' r, nodes (st_db st') !! id' = Some r ∧ n_tenant_id r = t ∧
       visible r ∧ n_public_key r ≠ key ∧ p = peer_info (scanNode id' r)).
Proof.
  unfold processSync. intros Hr. apply bind_ok in Hr as (o & st1 & Ho%wrap_ok & Hr).
  apply query_ok in Ho as [-> Hdb1]. destruct (node_by_key (st_db st) key) as [[id row]|] eqn:Hkey; [|done].
  apply node_by_key_Some in Hkey as [Hrow Hpk]. cbn in Hr.
  apply bind_ok in Hr as (now & st2 & Hnow & Hr). injection Hnow as _ <-.
  apply bind_ok in Hr as (u & st3 & Hb%wrap_ok & Hr). rewrite <-Hdb1 in Hrow.
  destruct (heartbeat_ok _ _ _ _ _ _ Hb row Hrow) as (self & Hself & Hst & Htn & Hpk' & Hip).
  apply bind_ok in Hr as (ns & st4 & [-> Hdb4]%wrap_ok%query_ok & Hr).
  apply bind_ok in Hr as (acls & st5 & [_ Hdb5]%wrap_ok%query_ok & Hr). injection Hr as <- <- _ <- <-.
  rewrite Hdb5, Hdb4. exists id, self. split_and!; try congruence.
  intros Hne p. cbn [lo_TenantID lo_IncludeDeleted lo_Unbounded]. by apply sync_peers_elem.
Qed.

Lemma ensureDesiredStateVersion_ok node e st v st' :
  ensureDesiredStateVersion node e st = (Ok v, st') →
  nodes (st_db st') = nodes (st_db st) ∧ v ≠ "" ∧
  ∃ cs, node_control_states (st_db st') !! N_ID node = Some cs ∧ cs_tenant_id cs = N_TenantID node ∧
        cs_desired_state_version cs = Some v.
Proof.
  unfold ensureDesiredStateVersion. intros Hr. apply bind_ok in Hr as (o & st1 & [-> Hdb1]%query_ok & Hr).
  cbv zeta in Hr.
  destruct (String.eqb_spec (match (match node_control_states (st_db st) !! N_ID node with
    | Some r => if (cs_tenant_id r =? N_TenantID node)%string then Some (scanNodeControlState (N_ID node) r) else None
    | None => None end) with Some s => ncs_DesiredStateVersion s | None => "" end) "") as [Hv|Hv].
  - cbn [negb] in Hr. apply bind_ok in Hr as (v' & st2 & [Hdb2 [s Hs]]%NewDesiredStateVersion_ok & Hr).
    apply bind_ok in Hr as (created & st3 & Hup & Hr). injection Hr as <- <-.
    unfold UpsertNodeDesiredState, upsertNodeDesiredState in Hup.
    assert ((TrimSpace v' =? "")%string = false) as Hne by (subst v'; apply String.eqb_neq, TrimSpace_dsv).
    rewrite Hne in Hup. apply bind_ok in Hup as (v2 & st4 & Hv2 & Hup). injection Hv2 as <- <-.
    cbv zeta in Hup. destruct (negb (marshals _)); [discriminate Hup|]. apply stmt_ok in Hup as (Hf & _).
    destruct (negb (control_refs_ok _ _ _)); [discriminate Hf|]. injection Hf as <- <-. unfold set_control. simpl. rewrite lookup_insert_eq.
    split_and!; [by rewrite Hdb2, Hdb1| |].
    + intros He. apply String.eqb_neq in Hne. apply Hne.
      destruct (node_control_states (st_db st2) !! N_ID node); simpl in He; by rewrite He.
    + eexists. split; [reflexivity|]. by destruct (node_control_states (st_db st2) !! N_ID node).
  - cbn [negb] in Hr. injection Hr as <- <-. rewrite Hdb1. split_and!; [done|done|].
    destruct (node_control_states _ !! _) as [cs|] eqn:Hcs; [|done].
    destruct (String.eqb_spec (cs_tenant_id cs) (N_TenantID node)) as [Ht|]; [|done].
    exists cs. split_and!; [done|done|]. simpl in Hv |- *. by destruct (cs_desired_state_version cs).
Qed.

Lemma node_policy_nodes node : changes (same (λ db, db)) (node_policy node).
Proof.
  unfold node_policy, GetEnabledTenantNodeACLRules, GetEnabledTenantNodeQoSRules, listTenantNodeACLRules,
    listTenantNodeQoSRules, ListIPGroupsForNodePolicySnapshot, with_members, listIPGroupMembersWith,
    getBlacklistRules, GetNodeBlacklistRulesByPublicKey, node_of_key, GetNode. chg.
Qed.

Lemma ReportNodeControlState_identity t n r : changes (same node_identity) (ReportNodeControlState t n r).
Proof. unfold ReportNodeControlState, reportNodeControlState. frames. Qed.
#[local] Hint Resolve ReportNodeControlState_identity : aria.
Lemma reportRuntimeSyncState_identity node req : changes (same node_identity) (reportRuntimeSyncState node req).
Proof. unfold reportRuntimeSyncState. cbv zeta. destruct (NormalizeReportedNetwork _ _). chg. Qed.
Lemma processSync_identity key : changes (same node_identity) (processSync key).
Proof.
  unfold processSync, GetNode, GetNodesByTenant, listNodes, GetEnabledTenantNodeACLRules, listTenantNodeACLRules. chg.
Qed.

(** With UNIQUE keys, rows with another key are the other rows. *)
Lemma other_keys db id row row' (P : UUID → NodeRow → Prop) (Q : NodeRow → Prop) (R : NodeRow → Prop) :
  keys_unique db → nodes db !! id = Some row → n_public_key row = n_public_key row' →
  (∃ id' r, nodes db !! id' = Some r ∧ Q r ∧ R r ∧ n_public_key r ≠ n_public_key row' ∧ P id' r) ↔
  (∃ id' r, nodes db !! id' = Some r ∧ Q r ∧ R r ∧ id' ≠ id ∧ P id' r).
Proof.
  intros Hu Hrow Hk. split; intros (id' & r & Hr & HQ & HR & Hne & HP); exists id', r; split_and!; try done.
  - intros ->. simplify_eq.
  - intros Heq. apply Hne. eapply Hu; [done..|congruence].
Qed.

(** The node a synchronisation is for, in the tables in which the heartbeat ran. *)
Lemma resolved_node ctx nodeID publicKey e st node st' :
  resolveRuntimeNodeForRequest uuid_Parse ctx nodeID publicKey e st = (Ok node, st') →
  st_db st' = st_db st ∧ uuid_Parse (RuntimeNodeID ctx) = Some (N_ID node) ∧
  uuid_Parse (RuntimeTenantID ctx) = Some (N_TenantID node) ∧
  ∃ r, nodes (st_db st) !! N_ID node = Some r ∧ node = scanNode (N_ID node) r.
Proof.
  unfold resolveRuntimeNodeForRequest. intros (n & st1 & Hn & Hb)%bind_ok.
  apply resolveRuntimeNode_finds in Hn as (Hdb & _ & r & Hr & Hnode).
  apply bind_and_check_ok in Hb as (-> & Hdb' & ? & ?). split_and!; [congruence|done|done|by exists r].
Qed.

(** C10. What a synchronisation gives an agent is the state of the tables when it
    ends, for the node and the tenant its runtime token names: that node is of
    that tenant, in service and online, the address is its own, the peers are
    exactly the other nodes of the tenant that are neither deleted nor suspended
    nor banned, and the version it is told to apply - in every domain - is the one
    recorded as desired for the node, never an empty one.  Public keys are UNIQUE
    in the nodes table; a tenant with the nil identifier is left aside. *)
Theorem sync_is_current gateway ctx req e st resp st' :
  keys_unique (st_db st) →
  Sync secret uuid_Parse (createSyncAdapter gateway) ctx req e st = (Ok resp, st') →
  ∃ nid tid self cs, uuid_Parse (RuntimeNodeID ctx) = Some nid ∧ uuid_Parse (RuntimeTenantID ctx) = Some tid ∧
    nodes (st_db st') !! nid = Some self ∧ n_tenant_id self = tid ∧ n_status self = Some "online" ∧
    so_AssignedIp resp = n_assigned_ip self ∧
    (tid ≠ uuid_Nil → ∀ p, p ∈ so_Peers resp ↔
       ∃ id' r, nodes (st_db st') !! id' = Some r ∧ n_tenant_id r = tid ∧ visible r ∧
         id' ≠ nid ∧ p = peer_info (scanNode id' r)) ∧
    node_control_states (st_db st') !! nid = Some cs ∧ cs_tenant_id cs = tid ∧
    cs_desired_state_version cs = Some (so_DesiredStateVersion resp) ∧ so_DesiredStateVersion resp ≠ "" ∧
    ∀ d v, so_DomainVersions resp !! d = Some v → v = TrimSpace (so_DesiredStateVersion resp).
Proof.
  intros Hu. unfold Sync. intros Hr. apply bind_ok in Hr as (node & st1 & Hnode & Hr).
  apply resolved_node in Hnode as (Hdb1 & Hnid & Htid & row & Hrow & Hnode).
  apply bind_ok in Hr as (u & st2 & Hrep%wrap_ok & Hr).
  pose proof (reportRuntimeSyncState_identity node req e st1) as Hs2. rewrite Hrep in Hs2. cbn [snd] in Hs2.
  rewrite Hdb1 in Hs2. clear Hrep u.
  apply bind_ok in Hr as ([[peers ip] gw] & st3 & Hsync%wrap_ok & Hr).
  unfold createSyncAdapter in Hsync. apply bind_ok in Hsync as ([[[peers' ip'] rules] t] & st4 & Hp & Hret).
  cbv zeta in Hret. injection Hret as <- <- _ <-.
  pose proof (processSync_identity (N_PublicKey node) e st2) as Hs4. rewrite Hp in Hs4. cbn [snd] in Hs4.
  assert (same node_identity (st_db st) (st_db st4)) as Hs by (by etrans).
  apply processSync_ok in Hp as (id & self & Hself & Hkey & Hst & Ht & Hip & Hpeers).
  pose proof (node_identity_keys _ _ Hs Hu) as Hu4.
  destruct (node_identity_lookup _ _ _ _ Hs Hrow) as (self' & Hself' & Hkey' & Ht').
  rewrite Hnode in Hkey. cbn [N_PublicKey scanNode] in Hkey.
  assert (id = N_ID node) as -> by (eapply Hu4; [done..|congruence]). simplify_eq.
  apply bind_ok in Hr as (snap & st5 & Hpol & Hr).
  pose proof (node_policy_nodes node e st4) as Hdb5. rewrite Hpol in Hdb5. unfold same in Hdb5. simpl in Hdb5.
  apply bind_ok in Hr as (v & st6 & (Hn6 & Hv & cs & Hcs & Hct & Hcv)%wrap_ok%ensureDesiredStateVersion_ok & Hr).
  apply bind_ok in Hr as ([tok exp] & st7 & Htok%wrap_ok & Hr).
  match type of Htok with ?m _ _ = _ => assert (changes (same (λ db, db)) m) as Hdb7 end.
  { unfold generateRuntimeTokenForNode, GetNodeRuntimeTokenVersion, GenerateRuntimeTokenWithVersion. chg. }
  specialize (Hdb7 e st6). rewrite Htok in Hdb7. unfold same in Hdb7. simpl in Hdb7.
  apply bind_ok in Hr as (now & st8 & Hnow & Hr). injection Hnow as _ <-. injection Hr as <- <-.
  cbn [so_AssignedIp so_Peers so_DesiredStateVersion so_DomainVersions]. rewrite Hdb7.
  assert (N_TenantID node = n_tenant_id self) as Htn by (rewrite Hnode; by symmetry).
  exists (N_ID node), (N_TenantID node), self, cs. rewrite Hn6, Hdb5, Htn. rewrite Htn in Htid, Hct.
  split_and!; try done.
  - intros Hne p. rewrite (Hpeers Hne), Hnode. cbn [N_PublicKey N_ID scanNode].
    by apply (other_keys _ _ self).
  - intros d w. unfold domainVersionsFromDesiredVersion. cbv zeta. destruct (_ =? "")%string; [by rewrite lookup_empty|].
    intros Hl%elem_of_list_to_map_2. by apply list_elem_of_fmap in Hl as (? & [= _ ->] & _).
Qed.
End sync.

(** *** A synchronisation *)

Definition sync_db : DB :=
  let node key tenant status := mkNodeRow key "m" tenant "" "" "" "eu" "" key "100.64.0.2" 2 0 0 "agent" None None None
                           (Some status) None [] None 3 0 0 in
  empty_db <| tenants := {["t1" := mkTenantRow "T" None None None (Some "active") None 0 0]} |>
    <| nodes := <["n1" := node "k1" "t1" "offline"]> (<["n2" := node "k2" "t1" "online"]>
                 (<["n3" := node "k3" "t1" " Banned"]> {["n4" := node "k4" "t2" "online"]})) |>.
Definition sync_request : SyncRequest := mkSyncRequest "k1" "" "" "healthy" "" "" "".
Definition demo_sync : result SyncResponse * St :=
  @Sync (one_token_jwt sample_claims) "secret" known_uuids go_cidr (@createSyncAdapter go_cidr "gw")
    (mkRuntimeContext "n1" "t1") sync_request (env_at 5000000) (mkSt sync_db 0).
Lemma sync_keys_unique : keys_unique sync_db.
Proof.
  intros a b r r' Ha Hb. unfold sync_db in Ha, Hb. cbn in Ha, Hb.
  rewrite !lookup_insert_Some, lookup_singleton_Some in Ha, Hb. naive_solver.
Qed.
Lemma sync_is_current_witness :
  ∃ resp st', demo_sync = (Ok resp, st') ∧ pi_PublicKey <$> so_Peers resp = ["k2"] ∧
    ∃ cs, node_control_states (st_db st') !! "n1" = Some cs ∧
          cs_desired_state_version cs = Some (so_DesiredStateVersion resp).
Proof.
  assert ((λ r, pi_PublicKey <$> so_Peers r) <$> match demo_sync.1 with Ok r => Some r | Err _ => None end = Some ["k2"])
    as Hok by (vm_compute; reflexivity).
  destruct demo_sync as [[resp|x] st'] eqn:Hrun; [|discriminate Hok]. injection Hok as Hpeers.
  exists resp, st'. split; [reflexivity|]. split; [exact Hpeers|]. unfold demo_sync in Hrun.
  destruct (@sync_is_current (one_token_jwt sample_claims) "secret" known_uuids go_cidr "gw"
    (mkRuntimeContext "n1" "t1") sync_request (env_at 5000000) (mkSt sync_db 0) resp st' sync_keys_unique Hrun)
    as (nid & tid & self & cs & Hnid & _ & _ & _ & _ & _ & _ & Hcs & _ & Hv & _).
  exists cs. injection Hnid as <-. exact (conj Hcs Hv).
Defined.
