(* ===== verification/PolicyAdminSpec.v ===== *)
(** * What policy requests promise

    The requests that change policies, as one machine: a refused request changes
    nothing, and no sequence of requests leaves a node without a policy it can be
    sent.  Then the fields of a rule: what the handlers check, the compiler accepts. *)

From S2P Require Import Prelude GoStr Netip NetipText Records PolicyConflict CidrColumn Store Events Tokens ControlState AgentCommands PolicySync CommandLifecycle PolicySnapshot PolicySnapshotSpec Nodes NodesSpec IPGroups IPGroupsSpec PolicyRules Routes RuntimeAuth Sessions Access AccessSpec RolesSpec Dispatch PolicyValidation PolicyAdmin GroupAdmin NodeAdmin AgentSync.

Open Scope Z_scope.

(** ** Calls that change nothing when they fail *)

Abbreviation reads := (changes (same id)).
Definition clean {A} (m : M A) : Prop :=
  ∀ e st x st', m e st = (Err x, st') → st_db st' = st_db st.
Lemma clean_reads {A} (m : M A) : reads m → clean m.
Proof. intros Hm e st x st' Hr. specialize (Hm e st). by rewrite Hr in Hm. Qed.
Lemma clean_bind {A B} (m : M A) (k : A → M B) : reads m → (∀ a, clean (k a)) → clean (m ≫= k).
Proof.
  intros Hm Hk e st x st'. specialize (Hm e st). unfold mbind, M_bind.
  destruct (m e st) as [[a|y] st1]; [|by intros [= <- <-]]. intros ->%Hk. done.
Qed.
Lemma clean_then {A B} (m : M A) (k : A → M B) : clean m → (∀ a, total (k a)) → clean (m ≫= k).
Proof.
  intros Hm Hk e st x st'. unfold mbind, M_bind. destruct (m e st) as [[a|y] st1] eqn:Hr.
  - intros Hx. specialize (Hk a e st1). by rewrite Hx in Hk.
  - intros [= <- <-]. by eapply Hm.
Qed.
(** The error of a clean call looked at by the caller. *)
Lemma clean_attempt {A B} (m : M A) (k : result A → M B) :
  clean m → (∀ x, reads (k (Err x))) → (∀ a, total (k (Ok a))) → clean (attempt m ≫= k).
Proof.
  intros Hm He Hk e st x st'. unfold mbind, M_bind, attempt. destruct (m e st) as [[a|y] st1] eqn:Hr.
  - intros Hx. specialize (Hk a e st1). by rewrite Hx in Hk.
  - intros Hx. specialize (He y e st1). rewrite Hx in He. rewrite <-(Hm _ _ _ _ Hr). exact He.
Qed.
Lemma clean_tx {A} (body : M (outcome A)) : clean (tx body).
Proof. intros e st x st'. apply tx_err. Qed.

Lemma total_answer node domain action ref name d delivery data :
  total (answer node domain action ref name d delivery data).
Proof.
  unfold answer, recordPolicyChangedAudit. cbv zeta. apply total_bind; [|auto with aria].
  case_match; auto with aria.
Qed.
Lemma clean_mutate_and_queue {A} (mutate : M (PolicySyncRequest * A)) : clean (mutate_and_queue mutate).
Proof.
  unfold mutate_and_queue. apply clean_then; [apply clean_tx|]. intros [[req a] r].
  apply total_bind; [apply total_best_effort|done].
Qed.

Lemma require_policy_node_reads (R : DB → DB → Prop) `{!PreOrder R} node : changes R (require_policy_node node).
Proof. unfold require_policy_node. chg. Qed.
Lemma node_of_request_reads (R : DB → DB → Prop) `{!PreOrder R} parse id t :
  changes R (node_of_request parse id t).
Proof.
  unfold node_of_request, getTenantNodeRecord, writeNodeLookupError, invalid, GetNodeByID. chg.
Qed.
Lemma policy_validation_reads (R : DB → DB → Prop) `{!PreOrder R} r : changes R (writePolicyValidationError r).
Proof. unfold writePolicyValidationError, invalid. chg. Qed.
#[export] Hint Resolve require_policy_node_reads node_of_request_reads policy_validation_reads : aria.

Lemma clean_transactional node domain action message mutate :
  clean (writeTransactionalPolicyMutationSuccess node domain action message mutate).
Proof.
  unfold writeTransactionalPolicyMutationSuccess.
  apply clean_bind; [apply (require_policy_node_reads _)|]. intros _.
  apply clean_attempt; [apply clean_mutate_and_queue|..].
  - intros x. destruct x; chg.
  - intros [result [[data ref] name]]. apply total_answer.
Qed.

Ltac cln_step :=
  match goal with
  | |- clean (writeTransactionalPolicyMutationSuccess _ _ _ _ _) => apply clean_transactional
  | |- clean (mret _) => apply clean_reads; apply (changes_ret (same id))
  | |- clean (fail _) => apply clean_reads; apply (changes_fail (same id))
  | |- clean (_ ≫= _) => apply clean_bind; [solve [chg]|intros ?]
  | |- clean (match ?x with _ => _ end) => destruct x
  | |- clean (let _ := _ in _) => cbv zeta
  | |- clean _ => solve [apply clean_reads; chg|eauto with aria]
  end.
Ltac cln := repeat cln_step.

Section handlers.
Context `{CidrText} `{Sha256} (uuid_Parse : string → option UUID) (enforcement : string).

Lemma load_rule_reads (R : DB → DB → Prop) `{!PreOrder R} {A} kind (m : M A) :
  changes R m → changes R (load_rule kind m).
Proof. intros Hm. unfold load_rule. chg. Qed.
Lemma checked_mode_reads (R : DB → DB → Prop) `{!PreOrder R} v : changes R (checked_mode v).
Proof. unfold checked_mode, invalid. chg. Qed.
Lemma check_acl_fields_reads (R : DB → DB → Prop) `{!PreOrder R} rule : changes R (check_acl_fields rule).
Proof. unfold check_acl_fields. chg. Qed.
Lemma or_invalid_reads (R : DB → DB → Prop) `{!PreOrder R} {A} (r : result A) : changes R (or_invalid r).
Proof. unfold or_invalid, invalid. chg. Qed.
Lemma route_conflicts_reads (R : DB → DB → Prop) `{!PreOrder R} t n region routes :
  changes R (validateTenantAdvertisedRouteConflicts t n region routes).
Proof. unfold validateTenantAdvertisedRouteConflicts, FindTenantAdvertisedRouteConflict. chg. Qed.
Lemma require_route_reads (R : DB → DB → Prop) `{!PreOrder R} n r : changes R (require_route n r).
Proof. unfold require_route. chg. Qed.
Lemma get_acl_reads (R : DB → DB → Prop) `{!PreOrder R} t n r : changes R (GetTenantNodeACLRule t n r).
Proof. unfold GetTenantNodeACLRule. chg. Qed.
Lemma get_qos_reads (R : DB → DB → Prop) `{!PreOrder R} t n r : changes R (GetTenantNodeQoSRule t n r).
Proof. unfold GetTenantNodeQoSRule. chg. Qed.
#[local] Hint Resolve load_rule_reads checked_mode_reads check_acl_fields_reads or_invalid_reads
  route_conflicts_reads require_route_reads get_acl_reads get_qos_reads : aria.

Lemma change_acls_clean r ctx body t node parts :
  clean (change_acls uuid_Parse enforcement r ctx body t node parts).
Proof.
  unfold change_acls, with_rule_id, createTenantNodeACL, updateTenantNodeACL, deleteTenantNodeACL,
    delete_item, invalid, method_not_allowed. cln.
Qed.
Lemma change_blacklist_clean r ctx body t node parts :
  clean (change_blacklist uuid_Parse enforcement r ctx body t node parts).
Proof.
  unfold change_blacklist, with_rule_id, createTenantNodeBlacklist, deleteTenantNodeBlacklist,
    delete_item, invalid, method_not_allowed. cln.
Qed.
Lemma change_qos_clean r ctx body t node parts :
  clean (change_qos uuid_Parse enforcement r ctx body t node parts).
Proof.
  unfold change_qos, with_rule_id, createTenantNodeQoS, updateTenantNodeQoS, deleteTenantNodeQoS,
    delete_item, bandwidth_error, invalid, method_not_allowed. cln.
Qed.
Lemma change_routes_clean r ctx body t parts :
  clean (change_routes uuid_Parse enforcement r ctx body t parts).
Proof.
  unfold change_routes, addTenantNodeRoute, replaceTenantNodeRoute, deleteTenantNodeRoute,
    getTenantNodeRoute, mutate_routes, method_not_allowed. cln.
Qed.
Lemma change_node_policy_clean path r ctx body route t :
  clean (change_node_policy uuid_Parse enforcement path r ctx body route t).
Proof.
  unfold change_node_policy, change_security. cbv zeta. apply clean_bind; [chg|]. intros node.
  destruct path; [|apply change_qos_clean|apply change_routes_clean].
  cln; [apply change_acls_clean|apply change_blacklist_clean].
Qed.
Lemma retry_clean ctx body t : clean (retryTenantPolicySync uuid_Parse enforcement ctx body t).
Proof.
  unfold retryTenantPolicySync, bad_retry_domain, resolveRetryPolicy, invalid, recordPolicyChangedAudit.
  destruct body as [body|]; [|cln]. cbv zeta. do 3 (destruct (_ =? "")%string; [cln|]).
  destruct (policyRetryPermission _); [|cln]. apply clean_bind; [chg|intros _].
  apply clean_bind; [chg|intros node]. apply clean_bind; [chg|intros _].
  apply clean_bind; [chg|intros [[name metadata]|x]]; [|destruct x; cln].
  apply clean_attempt; [|intros; chg|].
  - unfold queueNodePolicySync, buildPolicySyncRequest, NewDesiredStateVersion.
    apply clean_bind; [cbv zeta; chg|intros req].
    apply clean_then; [|done]. unfold QueuePolicySync. apply clean_bind; [|intros req'].
    + unfold normalizePolicySyncRequest, NewDesiredStateVersion. chg.
    + apply clean_then; [apply clean_tx|]. intros res. apply total_bind; [apply total_best_effort|done].
  - intros [d delivery]. apply total_bind; [|intros; destruct delivery; done].
    destruct (_ || _); [done|apply total_best_effort].
Qed.

(** C22. A refused change of policy changes nothing: when a request that would
    change the ACL, QoS or blacklist rules or the routes of a node, or retry its
    sync, is answered with an error - by a check, a conflict, or any statement that
    fails, before, inside or after the transaction - every table is as before the
    request. *)
Theorem refused_policy_changes_nothing q e st x st' :
  (∃ path r ctx body route t, q = change_node_policy uuid_Parse enforcement path r ctx body route t) ∨
  (∃ ctx body t, q = retryTenantPolicySync uuid_Parse enforcement ctx body t) →
  q e st = (Err x, st') → st_db st' = st_db st.
Proof.
  intros [(path & r & ctx & body & route & t & ->)|(ctx & body & t & ->)];
    [apply change_node_policy_clean|apply retry_clean].
Qed.
End handlers.

(** ** A refused request *)

(** The digest of a text is its bytes, the last first. *)
Definition demo_sha : Sha256 := {| Sum256 s := rev (String.list_ascii_of_string s) |}.
Definition policy_db : DB :=
  empty_db <| tenants := {["t1" := mkTenantRow "T" None None None (Some "active") None 0 0]} |>
    <| nodes := {["n1" := mkNodeRow "k1" "m1" "t1" "" "" "" "eu" "" "edge" "100.64.0.2" 2 0 0
         "agent" None None None (Some "online") None [] None 3 0 0]} |>.
Definition demo_admin : Context := mkContext (Some "u1") (Some "ann") (Some "super_admin") None.
Definition post (path : string) : Request := mkRequest "POST" ("/api/v2/tenants/t1/" +:+ path) "" "".
Definition demo_acl_body : ACLBody :=
  mkACLBody "web" "deny" None None "" "" "10.2.0.0/16" "" 0 0 6 "in" "80, 443" None None "".
(** A request during which the eighth statement, in its transaction, fails. *)
Definition faulty_env : Env :=
  mkEnv 1 1 (λ n i, "uuid-" +:+ pretty n +:+ "-" +:+ pretty i) (λ n, (n =? 8)%nat).
Definition faulty_request : M payload :=
  @change_node_policy go_cidr demo_sha Some "" SecurityPath (post "nodes/n1/security/acls") demo_admin
    (mkPolicyBody (Some demo_acl_body) None None None None) None "t1".
Lemma refused_policy_changes_nothing_witness :
  ∃ st', faulty_request faulty_env (mkSt policy_db 0) =
    (Err (HTTPError 500 "INTERNAL_ERROR" "ACL rule created successfully: policy dispatch failed"), st') ∧
    st_db st' = policy_db.
Proof.
  destruct (faulty_request faulty_env (mkSt policy_db 0)) as [res st'] eqn:Hrun.
  assert (res = Err (HTTPError 500 "INTERNAL_ERROR" "ACL rule created successfully: policy dispatch failed")) as Hres
    by (change res with (res, st').1; rewrite <-Hrun; vm_compute; reflexivity).
  rewrite Hres in Hrun |- *. exists st'. split; [exact eq_refl|]. unfold faulty_request in Hrun.
  refine (@refused_policy_changes_nothing go_cidr demo_sha Some "" _ faulty_env (mkSt policy_db 0) _ st' (or_introl _) Hrun).
  exists SecurityPath, (post "nodes/n1/security/acls"), demo_admin,
    (mkPolicyBody (Some demo_acl_body) None None None None), None, "t1". exact eq_refl.
Defined.

(** ** What the handlers check is what the snapshot compiles

    The handlers check the fields of a rule before it is stored; the compiler of
    snapshots has checks of its own, and a rule that fails there fails the
    synchronisation of its node.  A rule that passes the former passes the latter
    once it has been stored and read back. *)

(** *** Checks *)

(** The conjunction of the checks of [check_acl_fields] that concern the compiler,
    and the action. *)
Definition acl_checked (rule : ACLRuleRecord) : bool :=
  is_ok (normalizeACLAction (a_Action rule)) && is_ok (validatePolicyByteField "protocol" (a_Protocol rule))
  && is_ok (validatePolicyDirectionField (a_Direction rule))
  && is_ok (validateACLPortFields (a_Protocol rule) (a_Ports rule) (a_DstPort rule)).
Definition qos_checked (rule : QoSRuleRecord) : bool :=
  (0 <? q_BandwidthMbps rule) && is_ok (validatePolicyByteField "priority" (q_Priority rule))
  && is_ok (validatePolicyDirectionField (q_Direction rule)) && is_ok (validateQoSModeField (q_Mode rule)).

Lemma result_bind_ok {A B} (m : result A) (k : A → result B) b :
  m ≫= k = Ok b → ∃ a, m = Ok a ∧ k a = Ok b.
Proof. destruct m; [eauto|done]. Qed.

Lemma in_range_ok l u b : in_range l = Ok u → b ∈ l → b = true.
Proof.
  unfold in_range. destruct (forallb id l) eqn:Hf; [|done]. intros _ Hb.
  rewrite forallb_forall in Hf. by apply Hf, list_elem_of_In.
Qed.

Section fields.
Context `{CidrTextLaws}.

(** The stored rule, as [Sync] reads it, compiles. *)
Definition acl_compiles (id : UUID) (r : ACLRow) : Prop :=
  is_ok (compileACLRule (Some (aclRecordToProto (scanACLRuleRecord id r)))) = true.
Definition qos_compiles (id : UUID) (r : QoSRow) : Prop :=
  is_ok (compileQoSRule (Some (qosRecordToProto (scanQoSRule id r)))) = true.
Definition blacklist_compiles (id : UUID) (r : BlacklistRow) : Prop :=
  is_ok (compileBlacklistRule (Some (blacklist_message (scanBlacklistRule id r)))) = true.

Lemma byte_ok name n : is_ok (validatePolicyByteField name n) = true → 0 ≤ n ≤ 255.
Proof. unfold validatePolicyByteField. case_match eqn:Hc; [done|]. intros _. apply orb_false_iff in Hc. lia. Qed.
Lemma direction_ok s fb : is_ok (validatePolicyDirectionField s) = true → fb ∈ ["ingress"; "egress"] →
  ∃ d, normalizePolicyDirection s fb = Ok d ∧ d ∈ ["ingress"; "egress"; "both"].
Proof.
  unfold validatePolicyDirectionField, normalizePolicyDirection. intros Hs Hfb.
  destruct (one_of (ToLower (TrimSpace s)) _) eqn:Ho; [clear Hs|done]. apply one_of_spec in Ho.
  repeat (apply elem_of_cons in Ho as [-> |Ho]); [|eexists; split; [reflexivity|set_solver]..|by apply elem_of_nil in Ho].
  apply elem_of_cons in Hfb as [-> |[-> |[]%elem_of_nil]%elem_of_cons]; eexists; split; [reflexivity|set_solver..].
Qed.
Lemma ports_range protocol ports n : is_ok (validateACLPortFields protocol ports n) = true → 0 ≤ n ≤ 65535.
Proof.
  unfold validateACLPortFields. destruct ((n <? 0) || (65535 <? n)) eqn:Hr; [done|].
  apply orb_false_iff in Hr. lia.
Qed.
Lemma port_small n : 0 ≤ n ≤ 65535 → (if 0 <? n then uint32 n else 0) = n.
Proof. intros Hn. destruct (Z.ltb_spec 0 n); [apply uint32_small|]; lia. Qed.

(** The port filter the compiler makes of a stored rule: none, or one that the
    protocol admits. *)
Lemma compiled_ports protocol ports dstPort :
  is_ok (validateACLPortFields protocol ports dstPort) = true →
  let stored := if (TrimSpace ports =? "")%string && (0 <? dstPort) then Itoa dstPort else ports in
  ∃ p, normalizeACLPorts stored dstPort dstPort = Ok p ∧ (p = "" ∨ protocol ∈ [0; 6; 17]).
Proof.
  unfold validateACLPortFields. intros Hv. cbv zeta.
  destruct ((dstPort <? 0) || (65535 <? dstPort)) eqn:Hr; [done|]. apply orb_false_iff in Hr as [Hr1 Hr2].
  assert (aclHasRuntimePortFilter ports dstPort = true → protocol ∈ [0; 6; 17]) as Hproto.
  { intros Hf. rewrite Hf in Hv. cbn [negb] in Hv.
    destruct ((protocol =? 0) || (protocol =? 6) || (protocol =? 17)) eqn:Hp; [|done].
    rewrite !orb_true_iff, !Z.eqb_eq in Hp. set_solver. }
  unfold aclHasRuntimePortFilter in Hproto. unfold normalizeACLPorts.
  destruct (String.eqb_spec (TrimSpace ports) "") as [Hb|Hb]; cbn [negb andb orb] in *.
  - destruct (Z.ltb_spec 0 dstPort) as [Hd|Hd].
    + assert ((MaxUint16 <? dstPort) = false) as -> by (unfold MaxUint16; lia).
      assert ((dstPort =? 0) = false) as -> by lia. rewrite Z.ltb_irrefl, Z.eqb_refl. cbn [orb andb].
      destruct (TrimSpace (Itoa dstPort) =? "")%string; [|destruct (EqualFold _ _)]; eexists; (split; [reflexivity|auto]).
    + assert (dstPort = 0) as -> by lia. rewrite Hb. cbn. eauto.
  - apply String.eqb_neq in Hb as ->. cbn [negb]. destruct (EqualFold _ _); [eauto|]. eauto.
Qed.

Lemma normal_direction rule : a_Direction (normalizeACLRuntimeFields rule) =
  if (TrimSpace (a_Direction rule) =? "")%string then "ingress" else a_Direction rule.
Proof. unfold normalizeACLRuntimeFields. cbv zeta. repeat case_match; done. Qed.
Lemma normal_ports rule : a_Ports (normalizeACLRuntimeFields rule) =
  if (TrimSpace (a_Ports rule) =? "")%string && (0 <? a_DstPort rule) then Itoa (a_DstPort rule)
  else a_Ports rule.
Proof. unfold normalizeACLRuntimeFields. cbv zeta. by destruct (TrimSpace (a_Direction rule) =? "")%string; simpl; case_match. Qed.
Lemma normal_same rule : a_Action (normalizeACLRuntimeFields rule) = a_Action rule ∧
  a_Protocol (normalizeACLRuntimeFields rule) = a_Protocol rule ∧
  a_DstPort (normalizeACLRuntimeFields rule) = a_DstPort rule ∧
  a_SrcGroupID (normalizeACLRuntimeFields rule) = a_SrcGroupID rule ∧
  a_DstGroupID (normalizeACLRuntimeFields rule) = a_DstGroupID rule ∧
  a_TenantID (normalizeACLRuntimeFields rule) = a_TenantID rule ∧
  a_NodeID (normalizeACLRuntimeFields rule) = a_NodeID rule.
Proof.
  unfold normalizeACLRuntimeFields. cbv zeta.
  destruct (TrimSpace (a_Direction rule) =? "")%string; simpl; by case_match.
Qed.
Lemma acl_compiles_intro id r rule : ar_action r = a_Action rule → ar_protocol r = a_Protocol rule →
  ar_direction r = a_Direction (normalizeACLRuntimeFields rule) →
  ar_ports r = a_Ports (normalizeACLRuntimeFields rule) →
  a_DstPort (scanACLRuleRecord id r) = a_DstPort rule →
  acl_checked rule = true → acl_compiles id r.
Proof.
  intros Ha Hp Hd Hpo Hport Hc. unfold acl_checked in Hc.
  apply andb_true_iff in Hc as [[[Hact Hproto]%andb_true_iff Hdir]%andb_true_iff Hports].
  apply byte_ok in Hproto. unfold acl_compiles, compileACLRule, aclRecordToProto. rewrite Hport.
  cbn [pa_Action pa_Direction pa_Ports pa_MinPort pa_MaxPort pa_Protocol pa_Id pa_SrcNet pa_SrcGroupId
       pa_DstNet pa_DstGroupId pa_Priority scanACLRuleRecord a_Action a_Direction a_Ports a_Protocol].
  rewrite Ha, Hp, Hd, Hpo. destruct (normalizeACLAction _); [|done]. cbn [mbind result_bind].
  assert (∃ d, normalizePolicyDirection (a_Direction (normalizeACLRuntimeFields rule)) "ingress" = Ok d)
    as [d ->].
  { rewrite normal_direction. destruct (TrimSpace (a_Direction rule) =? "")%string; [by exists "ingress"|].
    destruct (direction_ok _ "ingress" Hdir) as (d & Hd' & _); [set_solver|]. eauto. }
  cbn [mbind result_bind].
  pose proof (ports_range _ _ _ Hports) as Hr.
  rewrite port_small, uint32_small by lia. apply compiled_ports in Hports as (p & Hn & Hpp).
  rewrite normal_ports. rewrite Hn. cbn [mbind result_bind]. assert ((MaxUint8 <? a_Protocol rule) = false) as ->
    by (unfold MaxUint8; lia).
  unfold acl_protocols. destruct (String.eqb_spec p "") as [|Hne]; [done|].
  destruct Hpp as [?|Hpp]; [done|]. cbn [negb].
  repeat (apply elem_of_cons in Hpp as [-> |Hpp]); [done..|by apply elem_of_nil in Hpp].
Qed.

(** The row INSERT and UPDATE write: both store no port as one that reads 0. *)
Lemma acl_columns_compiles t n rule src dst port desc sn dn mn mx c u row :
  acl_columns t n (normalizeACLRuntimeFields rule) src dst port desc sn dn mn mx c u = Ok row →
  aclPortRangeForSync (a_DstPort rule) = (mn, mx) →
  port = Some (a_DstPort rule) ∨ port = nullableInt (a_DstPort rule) →
  acl_checked rule = true →
  ar_tenant_id row = t ∧ ar_src_group_id row = a_SrcGroupID rule ∧ ar_dst_group_id row = a_DstGroupID rule ∧
  ∀ id, acl_compiles id row.
Proof.
  intros Hrow Hrange Hport Hc. unfold acl_columns in Hrow.
  apply result_bind_ok in Hrow as (? & _ & Hrow). apply result_bind_ok in Hrow as (sc & _ & Hrow).
  apply result_bind_ok in Hrow as (dc & _ & Hrow). apply result_bind_ok in Hrow as (sp & _ & Hrow).
  apply result_bind_ok in Hrow as (dp & _ & Hrow). injection Hrow as <-.
  destruct (normal_same rule) as (Ea & Ep & Ed & Es & Eg & _). split_and!; [done|exact Es|exact Eg|intros id].
  apply (acl_compiles_intro _ _ rule); [exact Ea|exact Ep|done|done| |done].
  assert (0 ≤ a_DstPort rule) as Hd.
  { unfold acl_checked in Hc. apply andb_true_iff in Hc as [_ Hp]. apply ports_range in Hp. lia. }
  unfold scanACLRuleRecord. cbn [a_DstPort ar_dst_port ar_min_port ar_max_port].
  destruct Hport as [-> | ->]; [done|]. unfold nullableInt, aclPortRangeForSync in *.
  destruct (Z.eqb_spec (a_DstPort rule) 0) as [E|E]; [|done]. rewrite E in *. by injection Hrange as <- <-.
Qed.

(** *** QoS and blacklist rules *)

Lemma mode_ok m : is_ok (validateQoSModeField m) = true → is_ok (normalizeQoSMode m) = true.
Proof.
  unfold validateQoSModeField, normalizeQoSModeField, normalizeQoSMode. cbv zeta.
  by repeat case_match.
Qed.
(** Each default depends on the fields before it and touches its own. *)
Lemma normal_qos_fields rule :
  q_Direction (normalizeQoSRuntimeFields rule) =
    (if (TrimSpace (q_Direction rule) =? "")%string then defaultQoSDirection rule else q_Direction rule) ∧
  q_Mode (normalizeQoSRuntimeFields rule) =
    (if (TrimSpace (q_Mode rule) =? "")%string then "auto" else q_Mode rule) ∧
  q_BandwidthMbps (normalizeQoSRuntimeFields rule) = q_BandwidthMbps rule ∧
  q_Priority (normalizeQoSRuntimeFields rule) = q_Priority rule ∧
  q_GroupID (normalizeQoSRuntimeFields rule) = q_GroupID rule ∧
  q_TenantID (normalizeQoSRuntimeFields rule) = q_TenantID rule ∧
  q_NodeID (normalizeQoSRuntimeFields rule) = q_NodeID rule.
Proof.
  unfold normalizeQoSRuntimeFields. cbv zeta.
  destruct (TrimSpace (q_Direction rule) =? "")%string; simpl;
    (destruct ((q_RateBps rule =? 0) && (0 <? q_BandwidthMbps rule)); simpl;
     destruct (q_BurstBytes rule =? 0); simpl; by destruct (TrimSpace (q_Mode rule) =? "")%string).
Qed.

(** A row compiles if its fields do: the direction may fall back to an inferred
    one, the rate to the bandwidth. *)
Lemma qos_compiles_intro id r : is_ok (validatePolicyDirectionField (qr_direction r)) = true →
  0 < qr_bandwidth_mbps r < 2 ^ 31 → 0 ≤ qr_priority r ≤ 255 →
  is_ok (validateQoSModeField (qr_mode r)) = true → qos_compiles id r.
Proof.
  intros Hd Hb Hp Hm. unfold qos_compiles, compileQoSRule, qosRecordToProto, scanQoSRule.
  cbn [pq_Direction pq_RateBps pq_BandwidthMbps pq_Priority pq_Mode q_Direction q_RateBps q_BandwidthMbps
       q_Priority q_Mode].
  match goal with |- context [inferredQoSDirection ?r] =>
    destruct (direction_ok _ (inferredQoSDirection r) Hd) as (d & Hd' & Hin)
  end.
  { unfold inferredQoSDirection. case_match; set_solver. }
  unfold mbind, result_bind. rewrite Hd'. rewrite uint64_small by lia. rewrite uint32_small by lia.
  set (rate := if (qr_rate_bps r =? 0) && _ then _ else _). assert ((rate =? 0) = false) as ->.
  { subst rate. destruct (Z.eqb_spec (qr_rate_bps r) 0) as [|Hr]; cbn [andb]; [|lia].
    assert ((0 <? qr_bandwidth_mbps r) = true) as -> by lia. rewrite uint64_small; lia. }
  assert ((MaxUint8 <? qr_priority r) = false) as -> by (unfold MaxUint8; lia).
  apply mode_ok in Hm. destruct (normalizeQoSMode _); [|done].
  by repeat (apply elem_of_cons in Hin as [-> |Hin]); [| | |apply elem_of_nil in Hin].
Qed.
Lemma qos_columns_compiles t n rule src dst sp dp proto desc c u row :
  qos_columns t n (normalizeQoSRuntimeFields rule) src dst sp dp proto desc c u = Ok row →
  qos_checked rule = true →
  qr_tenant_id row = t ∧ qr_group_id row = q_GroupID rule ∧ 0 < qr_bandwidth_mbps row ∧
  ∀ id, qos_compiles id row.
Proof.
  intros Hrow Hc. unfold qos_checked in Hc.
  apply andb_true_iff in Hc as [[[Hb Hprio]%andb_true_iff Hdir]%andb_true_iff Hmode].
  apply Z.ltb_lt in Hb. apply byte_ok in Hprio. destruct (normal_qos_fields rule) as (Ed & Em & Eb & Ep & Eg & _).
  unfold qos_columns in Hrow. apply result_bind_ok in Hrow as (? & Hr & Hrow).
  apply result_bind_ok in Hrow as (sc & _ & Hrow). apply result_bind_ok in Hrow as (dc & _ & Hrow).
  injection Hrow as <-.
  rewrite Eb in Hr. apply (in_range_ok _ _ (int4 (q_BandwidthMbps rule))) in Hr;
    [|apply list_elem_of_lookup; by exists 3%nat].
  apply andb_true_iff in Hr as [_ Hb2%Z.ltb_lt].
  cbn [qr_bandwidth_mbps]. split_and!; [done|exact Eg|by rewrite Eb|intros id].
  set (rule' := normalizeQoSRuntimeFields rule) in *.
  match goal with |- qos_compiles _ ?r =>
    assert (qr_direction r = q_Direction rule') as Rd by exact eq_refl;
    assert (qr_bandwidth_mbps r = q_BandwidthMbps rule') as Rb by exact eq_refl;
    assert (qr_priority r = q_Priority rule') as Rp by exact eq_refl;
    assert (qr_mode r = q_Mode rule') as Rm by exact eq_refl
  end.
  apply qos_compiles_intro; rewrite ?Rd, ?Rb, ?Rp, ?Rm, ?Eb, ?Ep; [|lia|done|].
  - rewrite Ed. destruct (TrimSpace (q_Direction rule) =? "")%string; [|exact Hdir].
    unfold defaultQoSDirection. by destruct (_ && _).
  - rewrite Em. by destruct (TrimSpace (q_Mode rule) =? "")%string.
Qed.

(** The scope is the exact one of [createTenantNodeBlacklistRule]. *)
Lemma blacklist_compiles_intro id r :
  is_ok (ValidateBlacklistScope (br_scope r)) = true →
  (br_scope r = BlacklistScopePorts → ∃ port, br_port r = Some port ∧ 1 ≤ port ≤ 65535) →
  (br_scope r ≠ BlacklistScopePorts → ∃ p, br_cidr r = Some p ∧ network p) → blacklist_compiles id r.
Proof.
  unfold ValidateBlacklistScope. destruct (one_of _ _) eqn:Hs; [|done]. intros _ Hport Hcidr.
  apply one_of_spec in Hs. unfold blacklist_compiles, compileBlacklistRule, blacklist_message, scanBlacklistRule.
  cbn [pb_Scope pb_Cidr pb_Port b_Scope b_CIDR b_Port].
  assert (∀ p, network p → (TrimSpace (cidr_out p) =? "")%string = false) as Hne.
  { intros p Hp. apply String.eqb_neq. rewrite cidr_out_trim by done. intros He.
    pose proof (cidr_out_read p Hp) as Hr. by rewrite He in Hr. }
  repeat (apply elem_of_cons in Hs as [Hs|Hs]); [..|by apply elem_of_nil in Hs]; rewrite Hs in *.
  - destruct Hcidr as (p & -> & Hp); [done|]. cbn -[String.eqb TrimSpace]. by rewrite (Hne p Hp).
  - destruct Hcidr as (p & -> & Hp); [done|]. cbn -[String.eqb TrimSpace]. by rewrite (Hne p Hp).
  - destruct Hport as (port & -> & Hr); [done|]. change (default 0 (Some port)) with port.
    rewrite uint32_small by lia. cbn -[Z.eqb Z.ltb Itoa].
    assert ((port =? 0) || (MaxUint16 <? port) = false) as -> by (unfold MaxUint16; lia). done.
Qed.
End fields.
