(* ===== verification/PolicyMachineSpec.v ===== *)
(** * Every node can be sent its policy

    The requests that change rules and groups as one machine.  What they keep:
    groups of a tenant share no network and no name, rules refer to groups of
    their tenant, and every stored rule compiles; so does, therefore, the snapshot
    of every node. *)

From S2P Require Import Prelude GoStr Netip NetipText Records PolicyConflict CidrColumn Store Events Tokens ControlState AgentCommands PolicySync CommandLifecycle PolicySnapshot PolicySnapshotSpec Nodes NodesSpec IPGroups IPGroupsSpec PolicyRules Routes RuntimeAuth Sessions Access AccessSpec Dispatch PolicyValidation PolicyAdmin GroupAdmin NodeAdmin AgentSync PolicyAdminSpec.

Open Scope Z_scope.

(** ** Invariants of calls in one environment *)

Definition keeps_at {A} (e : Env) (I : DB → Prop) (m : M A) : Prop :=
  ∀ st, I (st_db st) → I (st_db (m e st).2).
Section keeps_at.
Context (e : Env) (I : DB → Prop).
Lemma keeps_at_reads {A} (m : M A) : reads m → keeps_at e I m.
Proof. intros Hm st Hi. specialize (Hm e st). unfold same, id in Hm. by rewrite Hm. Qed.
Lemma keeps_at_bind {A B} (m : M A) (k : A → M B) (P : A → Prop) :
  keeps_at e I m → (∀ st a st', I (st_db st) → m e st = (Ok a, st') → P a) →
  (∀ a, P a → keeps_at e I (k a)) → keeps_at e I (m ≫= k).
Proof.
  intros Hm HP Hk st Hi. unfold mbind, M_bind. specialize (Hm st Hi). specialize (HP st).
  destruct (m e st) as [[a|x] st1]; [|done]. by apply Hk; [eapply HP|].
Qed.
Lemma keeps_at_seq {A B} (m : M A) (k : A → M B) :
  keeps_at e I m → (∀ a, keeps_at e I (k a)) → keeps_at e I (m ≫= k).
Proof. intros Hm Hk. by apply (keeps_at_bind _ _ (λ _, True)). Qed.
Lemma keeps_at_then {A B} (m : M A) (k : A → M B) :
  reads m → (∀ a, keeps_at e I (k a)) → keeps_at e I (m ≫= k).
Proof. intros Hm. apply keeps_at_seq. by apply keeps_at_reads. Qed.
Lemma keeps_at_attempt {A} (m : M A) : keeps_at e I m → keeps_at e I (attempt m).
Proof. intros Hm st Hi. specialize (Hm st Hi). unfold attempt. by destruct (m e st). Qed.
(** A call that changes nothing when it fails. *)
Lemma keeps_at_clean {A} (m : M A) :
  clean m → (∀ st a st', I (st_db st) → m e st = (Ok a, st') → I (st_db st')) → keeps_at e I m.
Proof.
  intros Hc Hok st Hi. destruct (m e st) as [[a|x] st'] eqn:Hr; [by eapply Hok|].
  simpl. by rewrite (Hc _ _ _ _ Hr).
Qed.
End keeps_at.

(** ** The tables of policies *)

Definition policy_tables (db : DB) :=
  (acl_rules db, qos_rules db, blacklist_rules db, ip_groups db, ip_group_members db).
Lemma policy_tables_eq db db' : policy_tables db' = policy_tables db →
  acl_rules db' = acl_rules db ∧ qos_rules db' = qos_rules db ∧ blacklist_rules db' = blacklist_rules db ∧
  ip_groups db' = ip_groups db ∧ ip_group_members db' = ip_group_members db.
Proof. unfold policy_tables. intros Heq. by simplify_eq. Qed.

Lemma queue_command_policies k c p pr t : changes (same policy_tables) (queueAgentCommand k c p pr t).
Proof. unfold queueAgentCommand, insert_command. frames. Qed.
Lemma upsert_desired_policies t n v m : changes (same policy_tables) (upsertNodeDesiredState t n v m).
Proof. unfold upsertNodeDesiredState, NewDesiredStateVersion. frames. Qed.
Lemma create_delivery_policies d : changes (same policy_tables) (createPolicyDelivery d).
Proof. unfold createPolicyDelivery. frames. Qed.
Lemma superseded_policies req : changes (same policy_tables) (markSupersededPolicySyncsTx req).
Proof. unfold markSupersededPolicySyncsTx. cbv zeta. frames. Qed.
#[export] Hint Resolve queue_command_policies upsert_desired_policies create_delivery_policies
  superseded_policies : aria.
Lemma normalize_request_policies req : changes (same policy_tables) (normalizePolicySyncRequest req).
Proof. unfold normalizePolicySyncRequest, NewDesiredStateVersion. frames. Qed.
Lemma queue_sync_policies req : changes (same policy_tables) (queuePolicySyncTx req).
Proof. pose proof normalize_request_policies. unfold queuePolicySyncTx. frames. Qed.
Lemma audit_policies ev : changes (same policy_tables) (CreateAuditEvent ev).
Proof. unfold CreateAuditEvent, insert_audit_event. frames. Qed.
Lemma build_request_policies node d a r n m :
  changes (same policy_tables) (buildPolicySyncRequest node d a r n m).
Proof. unfold buildPolicySyncRequest, NewDesiredStateVersion. cbv zeta. frames. Qed.
#[export] Hint Resolve queue_sync_policies audit_policies build_request_policies
  normalize_request_policies : aria.
Lemma queued_audit_policies req cmd : changes (same policy_tables) (recordCommandQueuedAudit req cmd).
Proof. unfold recordCommandQueuedAudit. chg. Qed.
Lemma summary_policies node : changes (same policy_tables) (buildNodeOperationsSummary node).
Proof.
  unfold buildNodeOperationsSummary, CountIncompleteAgentCommands, GetLastAgentCommand, GetNodeControlState.
  frames.
Qed.
#[export] Hint Resolve queued_audit_policies summary_policies : aria.
Lemma answer_policies node d a r n di dl p : changes (same policy_tables) (answer node d a r n di dl p).
Proof. unfold answer, recordPolicyChangedAudit. cbv zeta. chg. Qed.
#[export] Hint Resolve answer_policies : aria.

(** Whether blacklist rules without a network are let through. *)
Class BlanksAllowed := blanks_allowed : bool.

Section machine.
Context `{CidrTextLaws} `{Sha256} `{BlanksAllowed}.

(** ** The invariant *)

(** A group a rule of the tenant may refer to. *)
Definition ref_in (t : UUID) (ref : NullUUID) (db : DB) : Prop :=
  match ref with Some g => group_in t g db | None => True end.
(** A source or destination rule whose network is NULL, which the compiler refuses. *)
Definition blank (r : BlacklistRow) : Prop := br_scope r ∈ ["src"; "dst"] ∧ br_cidr r = None.
Record policies_ok (db : DB) : Prop := {
  po_groups : groups_ok db;
  po_acl id r : acl_rules db !! id = Some r → acl_compiles id r ∧
    ref_in (ar_tenant_id r) (ar_src_group_id r) db ∧ ref_in (ar_tenant_id r) (ar_dst_group_id r) db;
  po_qos id r : qos_rules db !! id = Some r → qos_compiles id r ∧ 0 < qr_bandwidth_mbps r ∧
    ref_in (qr_tenant_id r) (qr_group_id r) db;
  po_blacklist id r : blacklist_rules db !! id = Some r →
    blacklist_compiles id r ∨ blanks_allowed = true ∧ blank r;
}.

Lemma groups_ok_same db db' : ip_groups db' = ip_groups db → ip_group_members db' = ip_group_members db →
  groups_ok db → groups_ok db'.
Proof. intros Hg Hm Hok. constructor; rewrite ?Hg, ?Hm; apply Hok. Qed.
Lemma group_in_same db db' t g : ip_groups db' = ip_groups db → group_in t g db → group_in t g db'.
Proof. unfold group_in. by intros ->. Qed.
(** Groups grow and rules stay. *)
Definition kept (db db' : DB) : Prop :=
  (∀ t g, group_in t g db → group_in t g db') ∧ acl_rules db' = acl_rules db ∧
  qos_rules db' = qos_rules db ∧ blacklist_rules db' = blacklist_rules db.
#[export] Instance kept_preorder : PreOrder kept.
Proof.
  split; [done|]. intros a b c (K1 & K2 & K3 & K4) (K5 & K6 & K7 & K8).
  split_and!; [auto|congruence..].
Qed.
Lemma kept_same db db' : policy_tables db' = policy_tables db → kept db db'.
Proof.
  intros (? & ? & ? & Hg & ?)%policy_tables_eq. split_and!; try done. intros t g. by apply group_in_same.
Qed.
Lemma kept_ref db db' t ref : kept db db' → ref_in t ref db → ref_in t ref db'.
Proof. intros [Hk _]. destruct ref; [apply Hk|done]. Qed.
Lemma kept_ok db db' : kept db db' → groups_ok db' → policies_ok db → policies_ok db'.
Proof.
  intros Hk Hg [_ Ha Hq Hb]. pose proof Hk as (_ & Ea & Eq & Eb). constructor; rewrite ?Ea, ?Eq, ?Eb; [done|..|done].
  - intros id r (Hc & Hs & Hd)%Ha. split_and!; [done|by eapply kept_ref..].
  - intros id r (Hc & Hbw & Hr)%Hq. split_and!; [done|done|by eapply kept_ref].
Qed.
Lemma policies_ok_same db db' : policy_tables db' = policy_tables db → policies_ok db → policies_ok db'.
Proof.
  intros Hs Hok. pose proof Hs as (_ & _ & _ & Hg & Hm)%policy_tables_eq.
  apply (kept_ok db); [by apply kept_same|by apply (groups_ok_same db), Hok|done].
Qed.
Lemma keeps_at_tables e {A} (m : M A) : changes (same policy_tables) m → keeps_at e policies_ok m.
Proof. intros Hm st. apply policies_ok_same, Hm. Qed.

(** ** A transaction around a change of policy *)

Lemma transactional_keeps e node domain action message mutate :
  (∀ st a st', policies_ok (st_db st) → mutate e st = (Ok a, st') → policies_ok (st_db st')) →
  keeps_at e policies_ok (writeTransactionalPolicyMutationSuccess node domain action message mutate).
Proof.
  intros Hm. apply keeps_at_clean; [apply clean_transactional|]. intros st p st' Hok Hr.
  unfold writeTransactionalPolicyMutationSuccess in Hr.
  apply bind_ok in Hr as (? & st1 & Hreq & Hr).
  pose proof (require_policy_node_reads (same policy_tables) node e st) as S1. rewrite Hreq in S1.
  apply bind_ok in Hr as (r & st2 & Hmut & Hr). apply attempt_ok in Hmut.
  destruct r as [[result [[data ref] name]]|[]]; try done.
  match type of Hr with ?m _ _ = _ => pose proof (answer_policies node domain action ref name
    (policySyncDispatch result) (sr_Delivery result) data e st2) as S4 end. rewrite Hr in S4.
  apply (policies_ok_same _ _ S4). unfold mutate_and_queue in Hmut.
  apply bind_ok in Hmut as ([[req a] res] & st3 & Htx & Hmut).
  apply bind_ok in Hmut as (? & st4 & Haud & Hmut). injection Hmut as <- -> <-.
  pose proof (queued_audit_policies req (sr_Command res) e st3) as S3. rewrite Haud in S3.
  apply (policies_ok_same _ _ S3).
  apply tx_ok in Htx as (st5 & [[Hb Hdb]|[Hb _]]).
  2: { apply bind_ok in Hb as ([? ?] & ? & _ & Hb). apply bind_ok in Hb as (? & ? & _ & Hb). discriminate Hb. }
  rewrite Hdb. apply bind_ok in Hb as ([req' b] & st6 & Hmu & Hb). apply bind_ok in Hb as (q & st7 & Hq & Hb).
  injection Hb as -> -> -> <-. pose proof (queue_sync_policies req e st6) as S2. rewrite Hq in S2.
  apply (policies_ok_same _ _ S2).
  apply bind_ok in Hmu as ([[[rq da] re] na] & st8 & Hmr & Hmu). injection Hmu as <- _ _ _ <-.
  unfold mutation_request in Hmr. apply bind_ok in Hmr as ([da' me] & st9 & Hmutate & Hmr).
  destruct (inferPolicyDeliveryIdentity da' me) as [re' na'].
  apply bind_ok in Hmr as (req9 & st10 & Hbuild & Hmr). injection Hmr as _ _ _ _ <-.
  pose proof (build_request_policies node domain action re' na' me e st9) as S0. rewrite Hbuild in S0.
  apply (policies_ok_same _ _ S0). eapply Hm; [|done]. exact (policies_ok_same _ _ S1 Hok).
Qed.

(** ** The groups of a rule *)

Lemma exact_duplicate_reads (R : DB → DB → Prop) `{!PreOrder R} t ex c :
  changes R (exactDuplicateIPGroupMemberSQL t ex c).
Proof. apply (changes_stmt R). intros ? ? ? ? ? Hr. repeat case_match; by simplify_eq. Qed.
Lemma reject_duplicates_reads (R : DB → DB → Prop) `{!PreOrder R} t ex l :
  changes R (rejectExactDuplicateIPGroupMembersWith t ex l).
Proof. pose proof (exact_duplicate_reads R). unfold rejectExactDuplicateIPGroupMembersWith. chg. Qed.
Lemma set_group_kept id row db :
  (∀ g, ip_groups db !! id = Some g → ig_tenant_id g = ig_tenant_id row) → kept db (set_group id row db).
Proof.
  intros Ht. split_and!; try done. intros t g (r & Hr & <-). unfold group_in. simpl.
  destruct (decide (g = id)) as [-> |Hne].
  - exists row. rewrite lookup_insert_eq. by rewrite (Ht r Hr).
  - exists r. by rewrite lookup_insert_ne.
Qed.
Lemma new_group_kept id row db c db' : new_group id row db = Ok (c, db') → kept db db'.
Proof.
  unfold new_group. intros Hn. repeat (case_match; [done|]). injection Hn as _ <-.
  apply set_group_kept. congruence.
Qed.
Lemma insert_member_kept t g m up : changes kept (insert_member t g m up).
Proof. apply (changes_stmt kept). intros ? ? ? ? ? Hr. cbv zeta in Hr. by repeat case_match; simplify_eq. Qed.
Lemma insert_members_kept t g l up : changes kept (insertIPGroupMembers t g l up).
Proof. pose proof insert_member_kept. unfold insertIPGroupMembers. chg. Qed.
Lemma resolve_ref_kept t ex c : changes kept (resolvePolicyGroupRefWith t ex c).
Proof.
  pose proof (reject_duplicates_reads kept). pose proof insert_members_kept.
  unfold resolvePolicyGroupRefWith, ensureInlineIPGroupWith. chg.
  apply (changes_stmt kept). intros ? id db ? db' Hr. case_match; [|by eapply new_group_kept].
  case_match. injection Hr as _ <-. apply set_group_kept. intros g Hg.
  match goal with Hf : find_group _ _ _ = Some _ |- _ => apply find_group_Some in Hf as (Hf & _) end.
  by simplify_eq.
Qed.
Lemma resolve_ref_ok t ex c e st ref st' :
  resolvePolicyGroupRefWith t ex c e st = (Ok ref, st') → proper_ids e → policies_ok (st_db st) →
  policies_ok (st_db st') ∧ kept (st_db st) (st_db st') ∧ ref_in t ref (st_db st').
Proof.
  intros Hr He Hok. pose proof (resolve_ref_kept t ex c e st) as Hk. rewrite Hr in Hk. cbn [snd] in Hk.
  cut (groups_ok (st_db st') ∧ ref_in t ref (st_db st')).
  { intros [Hg Hi]. split_and!; [by eapply kept_ok|done|done]. }
  unfold resolvePolicyGroupRefWith in Hr. pose proof (po_groups _ Hok) as Hg. destruct ex as [g|].
  - apply bind_ok in Hr as (g' & st1 & (Hrow & Hdb)%query_row_ok & Hr). injection Hr as <- <-.
    rewrite Hdb. split; [done|]. destruct (ip_groups (st_db st) !! g) as [r|] eqn:Hl; [|done]. cbn in Hrow.
    destruct (String.eqb_spec (ig_tenant_id r) t) as [Ht|]; [|done]. injection Hrow as <-. by exists r.
  - destruct (policyCIDRIsAny c); [by injection Hr as <- <-|].
    apply bind_ok in Hr as (g & st1 & Hen & Hr). injection Hr as <- <-.
    apply ensureInlineIPGroupWith_ok in Hen as (? & ? & _); done.
Qed.

Lemma get_group_reads (R : DB → DB → Prop) `{!PreOrder R} t g : changes R (GetIPGroup t g).
Proof. unfold GetIPGroup, getIPGroupWith, with_members, listIPGroupMembersWith. chg. Qed.
#[local] Hint Resolve get_group_reads : aria.
Lemma resolve_side_ok t ex c load e st ref g st' :
  resolve_side t ex c load e st = (Ok (ref, g), st') → proper_ids e → policies_ok (st_db st) →
  policies_ok (st_db st') ∧ kept (st_db st) (st_db st') ∧ ref_in t ref (st_db st').
Proof.
  intros Hr He Hok. unfold resolve_side in Hr. apply bind_ok in Hr as (ref' & st1 & H1' & Hr).
  apply resolve_ref_ok in H1' as (Hok1 & Hk & Hi); [|done..].
  assert (ref' = ref ∧ st_db st' = st_db st1) as [-> ->]; [|done].
  destruct ref' as [g'|]; [|by injection Hr as <- _ <-]. destruct load; [|by injection Hr as <- _ <-].
  apply bind_ok in Hr as (gr & st2 & Hget & Hr). injection Hr as <- _ <-. split; [done|].
  pose proof (get_group_reads (same id) t g' e st1) as Hs. by rewrite Hget in Hs.
Qed.

(** The rule that is written differs from the rule that was checked only in its
    networks and groups. *)
Lemma acl_with_groups_ok t rule exs ls exd ld e st w v st' :
  acl_with_groups t rule exs ls exd ld e st = (Ok (w, v), st') → proper_ids e → policies_ok (st_db st) →
  policies_ok (st_db st') ∧ ref_in t (a_SrcGroupID w) (st_db st') ∧ ref_in t (a_DstGroupID w) (st_db st') ∧
  a_TenantID w = a_TenantID rule ∧ a_NodeID w = a_NodeID rule ∧ a_Action w = a_Action rule ∧
  a_Protocol w = a_Protocol rule ∧ a_Direction w = a_Direction rule ∧ a_Ports w = a_Ports rule ∧
  a_DstPort w = a_DstPort rule.
Proof.
  intros Hr He Hok. unfold acl_with_groups in Hr.
  apply bind_ok in Hr as ([src sg] & st1 & Hs & Hr). apply resolve_side_ok in Hs as (Hok1 & _ & Hi1); [|done..].
  apply bind_ok in Hr as ([dst dg] & st2 & Hd & Hr). apply resolve_side_ok in Hd as (Hok2 & Hk & Hi2); [|done..].
  injection Hr as <- _ <-. apply (kept_ref _ _ _ _ Hk) in Hi1.
  destruct src, dst; simpl; split_and!; done.
Qed.

(** ** ACL rules *)

Lemma set_acl_ok id r db : policies_ok db → acl_compiles id r →
  ref_in (ar_tenant_id r) (ar_src_group_id r) db → ref_in (ar_tenant_id r) (ar_dst_group_id r) db →
  policies_ok (set_acl id r db).
Proof.
  intros [Hg Ha Hq Hb] Hc Hs Hd. constructor; try done; [by apply (groups_ok_same db)|].
  intros id' r'. unfold set_acl. simpl. rewrite lookup_insert_Some. intros [[<- <-]|[_ Hr]]; [done|by apply Ha].
Qed.
Lemma delete_where_sub {V} p (t : gmap UUID V) k v : delete_where p t !! k = Some v → t !! k = Some v.
Proof. unfold delete_where. by intros [? _]%map_lookup_filter_Some. Qed.

Lemma create_acl_ok w e st c st' :
  createTenantNodeACLRule w false e st = (Ok c, st') → acl_checked w = true → policies_ok (st_db st) →
  ref_in (a_TenantID w) (a_SrcGroupID w) (st_db st) → ref_in (a_TenantID w) (a_DstGroupID w) (st_db st) →
  policies_ok (st_db st').
Proof.
  intros Hr Hc Hok Hs Hd. unfold createTenantNodeACLRule in Hr.
  destruct (normal_same w) as (_ & _ & Ep & _ & _ & Et & _).
  destruct (aclPortRangeForSync (a_DstPort w)) as [mn mx] eqn:Hrange.
  apply bind_ok in Hr as (c' & st1 & (Hst & _)%stmt_ok & Hr). injection Hr as _ <-.
  apply result_bind_ok in Hst as (row & Hrow & Hst). case_match; [done|]. case_match; [done|].
  injection Hst as _ <-. apply (acl_columns_compiles _ _ w) in Hrow as (Rt & Rs & Rd & Hrow); [|done|rewrite Ep; auto|done].
  apply set_acl_ok; [done|apply Hrow|..]; rewrite Rt, Et, ?Rs, ?Rd; done.
Qed.
Lemma update_acl_ok t n id w e st c st' :
  updateTenantNodeACLRule t n id w false e st = (Ok c, st') → acl_checked w = true → policies_ok (st_db st) →
  ref_in t (a_SrcGroupID w) (st_db st) → ref_in t (a_DstGroupID w) (st_db st) → policies_ok (st_db st').
Proof.
  intros Hr Hc Hok Hs Hd. unfold updateTenantNodeACLRule in Hr.
  destruct (normal_same w) as (_ & _ & Ep & _).
  destruct (aclPortRangeForSync (a_DstPort w)) as [mn mx] eqn:Hrange.
  apply bind_ok in Hr as (k & st1 & (Hst & _)%stmt_ok & Hr).
  apply result_bind_ok in Hst as (row & Hrow & Hst). destruct (acl_rules (st_db st) !! id) as [old|] eqn:Hold.
  2: { by injection Hst as <- _. }
  destruct (negb (acl_of _ _ _ _)); [by injection Hst as <- _|].
  destruct (negb (acl_groups_ok _ _)); [done|]. injection Hst as <- Hdb.
  injection Hr as _ <-. rewrite <-Hdb.
  apply (acl_columns_compiles _ _ w) in Hrow as (Rt & Rs & Rd & Hrow); [|done|rewrite Ep; auto|done].
  apply set_acl_ok; [done|exact (Hrow id)|..].
  - change (ref_in (ar_tenant_id row) (ar_src_group_id row) (st_db st)). by rewrite Rt, Rs.
  - change (ref_in (ar_tenant_id row) (ar_dst_group_id row) (st_db st)). by rewrite Rt, Rd.
Qed.
Lemma delete_acl_ok t n id e st u st' :
  deleteTenantNodeACLRuleByID t n id false e st = (Ok u, st') → policies_ok (st_db st) → policies_ok (st_db st').
Proof.
  unfold deleteTenantNodeACLRuleByID, delete_or_none. intros Hr [Hg Ha Hq Hb].
  apply bind_ok in Hr as (u' & st1 & Hr & Hret). injection Hret as _ <-.
  apply bind_ok in Hr as (k & st2 & (_ & Hdb)%exec_ok & Hr). destruct (k =? 0); [done|]. injection Hr as _ <-.
  rewrite Hdb. constructor; try done; [by apply (groups_ok_same (st_db st))|].
  intros id' r Hr. apply delete_where_sub in Hr. by apply (Ha id' r).
Qed.
(** ** QoS rules *)

Lemma set_qos_ok id r db : policies_ok db → qos_compiles id r → 0 < qr_bandwidth_mbps r →
  ref_in (qr_tenant_id r) (qr_group_id r) db → policies_ok (set_qos id r db).
Proof.
  intros [Hg Ha Hq Hb] Hc Hbw Hr. constructor; try done; [by apply (groups_ok_same db)|].
  intros id' r'. unfold set_qos. simpl. rewrite lookup_insert_Some. intros [[<- <-]|[_ Hr']]; [done|by apply Hq].
Qed.
Lemma create_qos_ok w e st c st' :
  createTenantNodeQoSRule w false e st = (Ok c, st') → qos_checked w = true → policies_ok (st_db st) →
  ref_in (q_TenantID w) (q_GroupID w) (st_db st) → policies_ok (st_db st').
Proof.
  intros Hr Hc Hok Hs. unfold createTenantNodeQoSRule in Hr.
  destruct (normal_qos_fields w) as (_ & _ & _ & _ & _ & Et & _).
  apply bind_ok in Hr as (c' & st1 & (Hst & _)%stmt_ok & Hr). injection Hr as _ <-.
  apply result_bind_ok in Hst as (row & Hrow & Hst). case_match; [done|]. case_match; [done|].
  injection Hst as _ <-. apply (qos_columns_compiles _ _ w) in Hrow as (Rt & Rg & Rb & Hrow); [|done].
  apply set_qos_ok; [done|apply Hrow|done|]. by rewrite Rt, Et, Rg.
Qed.
Lemma update_qos_ok t n id w e st c st' :
  updateTenantNodeQoSRule t n id w false e st = (Ok c, st') → qos_checked w = true → policies_ok (st_db st) →
  ref_in t (q_GroupID w) (st_db st) → policies_ok (st_db st').
Proof.
  intros Hr Hc Hok Hs. unfold updateTenantNodeQoSRule in Hr.
  apply bind_ok in Hr as (k & st1 & (Hst & _)%stmt_ok & Hr).
  apply result_bind_ok in Hst as (row & Hrow & Hst). destruct (qos_rules (st_db st) !! id) as [old|] eqn:Hold.
  2: { by injection Hst as <- _. }
  destruct (negb (qos_of _ _ _ _)); [by injection Hst as <- _|].
  destruct (negb (group_ref_ok _ _)); [done|]. injection Hst as <- Hdb.
  injection Hr as _ <-. rewrite <-Hdb.
  apply (qos_columns_compiles _ _ w) in Hrow as (Rt & Rg & Rb & Hrow); [|done].
  apply set_qos_ok; [done|exact (Hrow id)|exact Rb|].
  change (ref_in (qr_tenant_id row) (qr_group_id row) (st_db st)). by rewrite Rt, Rg.
Qed.
Lemma delete_qos_ok t n id e st u st' :
  deleteTenantNodeQoSRule t n id false e st = (Ok u, st') → policies_ok (st_db st) → policies_ok (st_db st').
Proof.
  unfold deleteTenantNodeQoSRule, delete_or_none. intros Hr [Hg Ha Hq Hb].
  apply bind_ok in Hr as (u' & st1 & Hr & Hret). injection Hret as _ <-.
  apply bind_ok in Hr as (k & st2 & (_ & Hdb)%exec_ok & Hr). destruct (k =? 0); [done|]. injection Hr as _ <-.
  rewrite Hdb. constructor; try done; [by apply (groups_ok_same (st_db st))|].
  intros id' r Hr. apply delete_where_sub in Hr. by apply (Hq id' r).
Qed.

(** ** Blacklist rules *)

(** What the handler checks of a blacklist rule, and a network that is not blank
    where one is required, unless blank ones are let through. *)
Definition blacklist_checked (rule : BlacklistRuleRecord) : Prop :=
  if (b_Scope rule =? BlacklistScopePorts)%string then 1 ≤ b_Port rule ≤ 65535
  else blanks_allowed = true ∨ TrimSpace (b_CIDR rule) ≠ "".
Lemma create_blacklist_ok w e st c st' :
  createTenantNodeBlacklistRule w false e st = (Ok c, st') → blacklist_checked w →
  policies_ok (st_db st) → policies_ok (st_db st').
Proof.
  intros Hr Hc [Hg Ha Hq Hb]. unfold createTenantNodeBlacklistRule in Hr.
  apply bind_ok in Hr as (c' & st1 & (Hst & _)%stmt_ok & Hr). injection Hr as _ <-.
  apply result_bind_ok in Hst as (_ & _ & Hst). apply result_bind_ok in Hst as (cidr & Hcidr & Hst).
  destruct (negb (is_ok _)) eqn:Hscope; [done|]. apply negb_false_iff in Hscope.
  destruct (negb (control_refs_ok _ _ _)); [done|]. case_match; [done|]. injection Hst as _ <-.
  constructor; try done; [by apply (groups_ok_same (st_db st))|].
  intros id' r'. unfold set_blacklist. simpl. rewrite lookup_insert_Some. intros [[_ <-]|[_ Hr']]; [|by apply (Hb id')].
  destruct (decide (b_Scope w ≠ BlacklistScopePorts ∧ TrimSpace (b_CIDR w) = "")) as [[Hs Hn]|Hnb].
  { right. unfold blacklist_checked in Hc. rewrite (proj2 (String.eqb_neq _ _) Hs) in Hc. split; [tauto|]. split; simpl.
    - unfold ValidateBlacklistScope in Hscope. destruct (one_of _ _) eqn:Ho; [|done]. apply one_of_spec in Ho.
      rewrite !elem_of_cons, elem_of_nil in Ho. destruct Ho as [Ho|[Ho|[Ho|[]]]]; [..|done]; rewrite Ho; unfold BlacklistScopeSrc, BlacklistScopeDst; set_solver.
    - unfold cidr_null_arg in Hcidr. rewrite Hn in Hcidr. by injection Hcidr as <-. }
  left. apply blacklist_compiles_intro; [done|..]; simpl; intros Hs; unfold blacklist_checked in Hc.
  - rewrite Hs, String.eqb_refl in Hc. unfold nullableInt. exists (b_Port w).
    destruct (Z.eqb_spec (b_Port w) 0); [lia|done].
  - apply String.eqb_neq in Hs as Hs'. unfold cidr_null_arg in Hcidr.
    assert (TrimSpace (b_CIDR w) ≠ "") as Hne%String.eqb_neq by tauto. clear Hc. rewrite Hne in Hcidr.
    apply result_bind_ok in Hcidr as (p & Hp & Hcidr).
    injection Hcidr as <-. exists p. split; [done|]. unfold cidr_arg in Hp. case_match; [|done].
    injection Hp as <-. by eapply cidr_in_network.
Qed.
End machine.
