(* ===== verification/PolicyRequestsSpec.v ===== *)
(** * Requests keep the policies well formed

    Each request that changes rules or groups keeps [policies_ok]; after any run of
    them the snapshot of every node compiles. *)

From S2P Require Import Prelude GoStr Netip NetipText Records PolicyConflict CidrColumn Store Events Tokens ControlState AgentCommands PolicySync CommandLifecycle PolicySnapshot PolicySnapshotSpec Nodes NodesSpec IPGroups IPGroupsSpec PolicyRules Routes RuntimeAuth Sessions Access AccessSpec Dispatch PolicyValidation PolicyAdmin GroupAdmin NodeAdmin AgentSync PolicyAdminSpec PolicyMachineSpec.

Open Scope Z_scope.

(** ** Checks that passed *)

Lemma validation_ok r e st u st' :
  writePolicyValidationError r e st = (Ok u, st') → is_ok r = true ∧ st' = st.
Proof. unfold writePolicyValidationError. destruct r; [|done]. by intros [= _ <-]. Qed.
Lemma check_acl_fields_ok rule e st u st' :
  check_acl_fields rule e st = (Ok u, st') → is_ok (normalizeACLAction (a_Action rule)) = true →
  acl_checked rule = true.
Proof.
  unfold check_acl_fields, acl_checked. intros Hr Ha.
  apply bind_ok in Hr as (? & st1 & [H1 ->]%validation_ok & Hr).
  apply bind_ok in Hr as (? & st2 & [H2 ->]%validation_ok & Hr).
  apply bind_ok in Hr as (? & st3 & [H3 ->]%validation_ok & Hr). by rewrite Ha, H1, H2, H3.
Qed.
Lemma action_ok_normal a : action_ok a = true → is_ok (normalizeACLAction a) = true.
Proof.
  unfold action_ok. intros Ha%one_of_spec.
  by repeat (apply elem_of_cons in Ha as [-> |Ha]); [| |apply elem_of_nil in Ha].
Qed.

Section requests.
Context `{CidrTextLaws} `{Sha256} `{BlanksAllowed} (uuid_Parse : string → option UUID) (enforcement : string).

Lemma load_ref_reads (R : DB → DB → Prop) `{!PreOrder R} t ref cache : changes R (load_ref t ref cache).
Proof. pose proof (get_group_reads R). unfold load_ref, loadPolicyGroupCached. chg. Qed.
Lemma hydrate_acls_reads (R : DB → DB → Prop) `{!PreOrder R} t cache rules : changes R (hydrate_acls t cache rules).
Proof.
  revert cache. pose proof (load_ref_reads R).
  induction rules as [|r rules IH]; intros cache; cbn [hydrate_acls]; cbv zeta; chg.
Qed.
Lemma hydrate_qoss_reads (R : DB → DB → Prop) `{!PreOrder R} t cache rules : changes R (hydrate_qoss t cache rules).
Proof.
  revert cache. pose proof (load_ref_reads R).
  induction rules as [|r rules IH]; intros cache; cbn [hydrate_qoss]; cbv zeta; chg.
Qed.
#[local] Hint Resolve hydrate_acls_reads hydrate_qoss_reads : aria.
Lemma acl_conflict_reads (R : DB → DB → Prop) `{!PreOrder R} t n c id : changes R (acl_conflict_check t n c id).
Proof.
  unfold acl_conflict_check, ListTenantNodeACLRules, listTenantNodeACLRules, hydrateACLRuleGroups. chg.
Qed.
Lemma qos_conflict_reads (R : DB → DB → Prop) `{!PreOrder R} t n c id : changes R (qos_conflict_check t n c id).
Proof.
  unfold qos_conflict_check, ListTenantNodeQoSRules, listTenantNodeQoSRules, hydrateQoSRuleGroups. chg.
Qed.
(** A successful step that changes nothing. *)
Lemma reads_db {A} (m : M A) e st a st' :
  (∀ R : DB → DB → Prop, PreOrder R → changes R m) → m e st = (Ok a, st') → st_db st' = st_db st.
Proof. intros Hm Hr. pose proof (Hm (same id) _ e st) as Hs. by rewrite Hr in Hs. Qed.

(** ** ACL requests *)

Lemma checked_groups rule w : acl_checked rule = true → a_Action w = a_Action rule →
  a_Protocol w = a_Protocol rule → a_Direction w = a_Direction rule → a_Ports w = a_Ports rule →
  a_DstPort w = a_DstPort rule → acl_checked w = true.
Proof. unfold acl_checked. by intros ? -> -> -> -> ->. Qed.
Lemma create_acl_keeps t node rule exs exd e st a st' :
  create_acl t node rule exs exd e st = (Ok a, st') → proper_ids e → acl_checked rule = true →
  a_TenantID rule = t → policies_ok (st_db st) → policies_ok (st_db st').
Proof.
  intros Hr He Hc Ht Hok. unfold create_acl in Hr.
  apply bind_ok in Hr as ([w v] & st1 & Hw & Hr).
  apply acl_with_groups_ok in Hw as (Hok1 & Hs & Hd & Et & _ & Ea & Ep & Edir & Epo & Edp); [|done..].
  apply bind_ok in Hr as (? & st2 & Hcf & Hr). apply reads_db in Hcf; [|intros; by apply acl_conflict_reads].
  apply bind_ok in Hr as (c & st3 & Hcr & Hr). injection Hr as _ <-.
  eapply create_acl_ok; [done|by eapply checked_groups|..]; by rewrite Hcf, ?Et, ?Ht.
Qed.
Lemma update_acl_keeps t node id rule e st a st' :
  update_acl t node id rule e st = (Ok a, st') → proper_ids e → acl_checked rule = true →
  policies_ok (st_db st) → policies_ok (st_db st').
Proof.
  intros Hr He Hc Hok. unfold update_acl in Hr.
  apply bind_ok in Hr as ([w v] & st1 & Hw & Hr).
  apply acl_with_groups_ok in Hw as (Hok1 & Hs & Hd & Et & _ & Ea & Ep & Edir & Epo & Edp); [|done..].
  apply bind_ok in Hr as (? & st2 & Hcf & Hr). apply reads_db in Hcf; [|intros; by apply acl_conflict_reads].
  apply bind_ok in Hr as (c & st3 & Hcr & Hr). injection Hr as _ <-.
  eapply update_acl_ok; [done|by eapply checked_groups|..]; by rewrite Hcf.
Qed.
#[local] Hint Resolve load_rule_reads checked_mode_reads check_acl_fields_reads get_acl_reads get_qos_reads : aria.
Lemma keeps_reads e {A} (m : M A) :
  (∀ R : DB → DB → Prop, PreOrder R → changes R m) → keeps_at e policies_ok m.
Proof. intros Hm. apply keeps_at_reads, Hm. apply _. Qed.

Lemma create_acl_request e body t node : proper_ids e →
  keeps_at e policies_ok (createTenantNodeACL body t node).
Proof.
  intros He. unfold createTenantNodeACL. apply keeps_at_then; [chg|intros b].
  apply keeps_at_then; [chg|intros _]. destruct (negb (action_ok _)) eqn:Ha; [apply keeps_reads; intros; unfold invalid; chg|].
  cbv zeta. apply negb_false_iff in Ha.
  apply (keeps_at_bind _ _ _ _ (λ _, acl_checked (acl_of_body t (N_ID node) b) = true)).
  - apply keeps_reads. intros. chg.
  - intros st u st' _ Hr. eapply check_acl_fields_ok; [done|]. by apply action_ok_normal.
  - intros _ Hc. apply transactional_keeps. intros st a st' Hok Hr. by eapply create_acl_keeps.
Qed.
(** The stored rule an update starts from. *)
Lemma load_rule_ok kind {A} (m : M A) e st a st' : load_rule kind m e st = (Ok a, st') → m e st = (Ok a, st').
Proof.
  unfold load_rule. intros Hr. apply bind_ok in Hr as (r & st1 & Hm%attempt_ok & Hr).
  destruct r as [a'|[]]; try done. by injection Hr as <- <-.
Qed.
Lemma loaded_acl t n id e st r st' :
  GetTenantNodeACLRule t n id e st = (Ok r, st') → policies_ok (st_db st) →
  is_ok (normalizeACLAction (a_Action r)) = true.
Proof.
  intros (Hr & _)%query_row_ok Hok. destruct (acl_rules _ !! id) as [row|] eqn:Hrow; [|done]. cbn in Hr.
  destruct (acl_of _ _ _ _); [|done]. injection Hr as <-. destruct (po_acl _ Hok id row Hrow) as [Hc _].
  unfold acl_compiles, compileACLRule in Hc. cbn in Hc |- *. by destruct (normalizeACLAction _).
Qed.
Lemma loaded_qos t n id e st r st' :
  GetTenantNodeQoSRule t n id e st = (Ok r, st') → policies_ok (st_db st) → 0 < q_BandwidthMbps r.
Proof.
  intros (Hr & _)%query_row_ok Hok. destruct (qos_rules _ !! id) as [row|] eqn:Hrow; [|done]. cbn in Hr.
  destruct (qos_of _ _ _ _); [|done]. injection Hr as <-. by destruct (po_qos _ Hok id row Hrow) as (_ & ? & _).
Qed.
(** A deletion whose closure keeps the invariant. *)
Lemma delete_keeps e node domain message data metadata del :
  (∀ st u st', del e st = (Ok u, st') → policies_ok (st_db st) → policies_ok (st_db st')) →
  keeps_at e policies_ok (delete_item node domain message data metadata del).
Proof.
  intros Hd. apply transactional_keeps. intros st a st' Hok Hr.
  apply bind_ok in Hr as (u & st1 & Hr & Hret). injection Hret as _ <-. by eapply Hd.
Qed.

Ltac refused := apply keeps_reads; intros; unfold invalid, bandwidth_error, method_not_allowed; chg.
Lemma update_acl_request e body t node id : proper_ids e →
  keeps_at e policies_ok (updateTenantNodeACL uuid_Parse body t node id).
Proof.
  intros He. unfold updateTenantNodeACL. destruct (uuid_Parse id) as [ruleID|]; [|refused].
  apply keeps_at_then; [chg|intros b]. apply keeps_at_then; [chg|intros _].
  apply (keeps_at_bind _ _ _ _ (λ r, is_ok (normalizeACLAction (a_Action r)) = true)).
  - apply keeps_reads. intros. chg.
  - intros st r st' Hok Hr%load_rule_ok. by eapply loaded_acl.
  - intros r Hr. destruct (match pt_Action b with Some _ => _ | None => _ end) eqn:Ha; [refused|]. cbv zeta.
    apply (keeps_at_bind _ _ _ _ (λ _, acl_checked (patch_acl b r) = true)); [apply keeps_reads; intros; chg|..].
    + intros st u st' _ Hc. eapply check_acl_fields_ok; [done|]. unfold patch_acl. simpl.
      destruct (pt_Action b) as [a|]; [|done]. by apply action_ok_normal, negb_false_iff.
    + intros _ Hc. apply transactional_keeps. intros st a st' Hok Hu. by eapply update_acl_keeps.
Qed.
Lemma delete_acl_request e t node id : keeps_at e policies_ok (deleteTenantNodeACL uuid_Parse t node id).
Proof.
  unfold deleteTenantNodeACL. destruct (uuid_Parse id) as [ruleID|]; [|refused].
  apply keeps_at_then; [chg|intros _]. apply delete_keeps. intros. by eapply delete_acl_ok.
Qed.
Lemma acls_keep e r ctx body t node parts : proper_ids e →
  keeps_at e policies_ok (change_acls uuid_Parse enforcement r ctx body t node parts).
Proof.
  intros He. unfold change_acls, with_rule_id. apply keeps_at_then; [chg|intros _]. cbv zeta.
  repeat case_match; try solve [refused];
    eauto using create_acl_request, update_acl_request, delete_acl_request.
Qed.

(** ** QoS requests *)

Lemma write_qos_fields rule ref : q_GroupID (qos_write rule ref) = ref ∧
  q_TenantID (qos_write rule ref) = q_TenantID rule ∧ qos_checked (qos_write rule ref) = qos_checked rule.
Proof. by destruct ref. Qed.
Lemma create_qos_keeps t node rule explicit direct e st a st' :
  create_qos t node rule explicit direct e st = (Ok a, st') → proper_ids e → qos_checked rule = true →
  q_TenantID rule = t → policies_ok (st_db st) → policies_ok (st_db st').
Proof.
  intros Hr He Hc Ht Hok. unfold create_qos in Hr.
  apply bind_ok in Hr as ([ref g] & st1 & Hw & Hr). apply resolve_side_ok in Hw as (Hok1 & _ & Hi); [|done..].
  apply bind_ok in Hr as (? & st2 & Hcf & Hr). apply reads_db in Hcf; [|intros; by apply qos_conflict_reads].
  apply bind_ok in Hr as (c & st3 & Hcr & Hr). injection Hr as _ <-.
  destruct (write_qos_fields rule ref) as (Eg & Et & Ec).
  eapply create_qos_ok; [done|by rewrite Ec|by rewrite Hcf|by rewrite Hcf, Eg, Et, Ht].
Qed.
Lemma update_qos_keeps t node id b tg rule e st a st' :
  update_qos t node id b tg rule e st = (Ok a, st') → proper_ids e → qos_checked rule = true →
  policies_ok (st_db st) → policies_ok (st_db st').
Proof.
  intros Hr He Hc Hok. unfold update_qos in Hr. cbv zeta in Hr.
  apply bind_ok in Hr as ([ref g] & st1 & Hw & Hr).
  assert (policies_ok (st_db st1) ∧ ref_in t ref (st_db st1)) as [Hok1 Hi].
  { destruct (tg_changed tg); apply resolve_side_ok in Hw as (? & _ & ?); done. }
  apply bind_ok in Hr as (? & st2 & Hcf & Hr). apply reads_db in Hcf; [|intros; by apply qos_conflict_reads].
  apply bind_ok in Hr as (c & st3 & Hcr & Hr). injection Hr as _ <-.
  destruct (write_qos_fields rule ref) as (Eg & _ & Ec).
  eapply update_qos_ok; [done|by rewrite Ec|by rewrite Hcf|by rewrite Hcf, Eg].
Qed.
(** The checks of a QoS request, in the order the handlers make them. *)
Lemma qos_checked_intro rule : 0 < q_BandwidthMbps rule →
  is_ok (validatePolicyByteField "priority" (q_Priority rule)) = true →
  is_ok (validatePolicyDirectionField (q_Direction rule)) = true →
  is_ok (validateQoSModeField (q_Mode rule)) = true → qos_checked rule = true.
Proof. unfold qos_checked. intros Hb -> -> ->. apply Z.ltb_lt in Hb as ->. done. Qed.
Lemma keeps_validated e {A} r (k : unit → M A) :
  (is_ok r = true → ∀ u, keeps_at e policies_ok (k u)) →
  keeps_at e policies_ok (writePolicyValidationError r ≫= k).
Proof.
  intros Hk. apply (keeps_at_bind _ _ _ _ (λ _, is_ok r = true)).
  - apply keeps_reads. intros. chg.
  - by intros st u st' _ [? _]%validation_ok.
  - intros u Hr. by apply Hk.
Qed.
Lemma checked_mode_ok v e st m st' : checked_mode v e st = (Ok m, st') → is_ok (validateQoSModeField m) = true.
Proof.
  unfold checked_mode, validateQoSModeField, normalizeQoSModeField. cbv zeta.
  destruct (String.eqb_spec (ToLower (TrimSpace v)) "") as [|Hne]; [by intros [= <- _]|].
  destruct (one_of _ _) eqn:Ho; [|done]. intros [= <- _].
  rewrite TrimSpace_ToLower, TrimSpace_idemp, ToLower_idemp, Ho. by apply String.eqb_neq in Hne as ->.
Qed.

Lemma create_qos_request e body t node : proper_ids e →
  keeps_at e policies_ok (createTenantNodeQoS body t node).
Proof.
  intros He. unfold createTenantNodeQoS. apply keeps_at_then; [chg|intros b].
  apply keeps_at_then; [chg|intros _]. destruct (Z.leb_spec (qb_BandwidthMbps b) 0) as [|Hb]; [refused|].
  apply keeps_validated. intros _ _. cbv zeta. apply keeps_validated. intros Hp _.
  apply keeps_validated. intros Hd _.
  apply (keeps_at_bind _ _ _ _ (λ m, is_ok (validateQoSModeField m) = true)).
  - apply keeps_reads. intros. chg.
  - intros st m st' _. apply checked_mode_ok.
  - intros m Hm. apply transactional_keeps. intros st a st' Hok Hr.
    eapply create_qos_keeps; [done|done|by apply qos_checked_intro|done..].
Qed.
Lemma update_qos_request e body t node id : proper_ids e →
  keeps_at e policies_ok (updateTenantNodeQoS uuid_Parse body t node id).
Proof.
  intros He. unfold updateTenantNodeQoS. destruct (uuid_Parse id) as [ruleID|]; [|refused].
  apply keeps_at_then; [chg|intros b]. apply keeps_at_then; [chg|intros _].
  apply (keeps_at_bind _ _ _ _ (λ r, 0 < q_BandwidthMbps r)).
  - apply keeps_reads. intros. chg.
  - intros st r st' Hok Hr%load_rule_ok. by eapply loaded_qos.
  - intros r Hr. cbv zeta. apply keeps_validated. intros _ _.
    destruct (match qp_BandwidthMbps b with Some _ => _ | None => _ end) eqn:Hb; [refused|].
    apply keeps_at_then; [destruct (qp_Mode b); chg|intros m].
    apply keeps_validated. intros Hp _. apply keeps_validated. intros Hd _. apply keeps_validated. intros Hm _.
    apply transactional_keeps. intros st a st' Hok Hu.
    eapply update_qos_keeps; [done|done|apply qos_checked_intro; [|done..]|done].
    unfold patch_qos. simpl. destruct (qp_BandwidthMbps b); simpl; [lia|done].
Qed.
Lemma delete_qos_request e t node id : keeps_at e policies_ok (deleteTenantNodeQoS uuid_Parse t node id).
Proof.
  unfold deleteTenantNodeQoS. destruct (uuid_Parse id) as [ruleID|]; [|refused].
  apply keeps_at_then; [chg|intros _]. apply delete_keeps. intros. by eapply delete_qos_ok.
Qed.
Lemma qos_keep e r ctx body t node parts : proper_ids e →
  keeps_at e policies_ok (change_qos uuid_Parse enforcement r ctx body t node parts).
Proof.
  intros He. unfold change_qos, with_rule_id. apply keeps_at_then; [chg|intros _]. cbv zeta.
  repeat case_match; try solve [refused];
    eauto using create_qos_request, update_qos_request, delete_qos_request.
Qed.

(** ** Blacklist requests *)

(** A network of spaces passes the check for an empty one. *)
Definition spaces_only (body : option BlacklistBody) : bool :=
  match body with
  | Some b => negb (bb_CIDR b =? "")%string && (TrimSpace (bb_CIDR b) =? "")%string
  | None => false
  end.
Lemma create_blacklist_request e body t node scope : blanks_allowed = true ∨ spaces_only body = false →
  keeps_at e policies_ok (createTenantNodeBlacklist body t node scope).
Proof.
  intros Hs. unfold createTenantNodeBlacklist.
  apply (keeps_at_bind _ _ _ _ (λ b, body = Some b)); [apply keeps_reads; intros; chg|..].
  { intros st b st' _. unfold body_of. destruct body; [by intros [= -> _]|done]. }
  intros b ->. unfold spaces_only in Hs. apply keeps_at_then; [chg|intros _].
  destruct (negb (scope =? _)%string && _) eqn:Hc1; [refused|].
  destruct ((scope =? _)%string && _) eqn:Hc2; [refused|].
  apply transactional_keeps. intros st a st' Hok Hr.
  apply bind_ok in Hr as (c & st1 & Hr & Hret). injection Hret as _ <-.
  eapply create_blacklist_ok; [done| |done]. unfold blacklist_checked. simpl.
  destruct (scope =? BlacklistScopePorts)%string; cbn [negb andb] in *; [lia|].
  destruct Hs as [Hs|Hs]; [by left|right]. rewrite Hc1 in Hs. cbn [negb andb] in Hs. by apply String.eqb_neq.
Qed.
Lemma delete_blacklist_request e t node scope id :
  keeps_at e policies_ok (deleteTenantNodeBlacklist uuid_Parse t node scope id).
Proof.
  unfold deleteTenantNodeBlacklist. destruct (uuid_Parse id) as [ruleID|]; [|refused].
  apply keeps_at_then; [chg|intros _]. apply delete_keeps.
  unfold deleteTenantNodeBlacklistRuleByID, delete_blacklist, delete_or_none.
  intros st u st' Hr [Hg Ha Hq Hb].
  apply bind_ok in Hr as (u' & st1 & Hr & Hret). injection Hret as _ <-.
  apply bind_ok in Hr as (k & st2 & (_ & Hdb)%exec_ok & Hr). destruct (k =? 0); [done|]. injection Hr as _ <-.
  rewrite Hdb. constructor; try done; [by apply (groups_ok_same (st_db st))|].
  intros id' r Hr. apply delete_where_sub in Hr. by apply (Hb id' r).
Qed.
Lemma blacklist_keep e r ctx body t node parts : blanks_allowed = true ∨ spaces_only (as_blacklist body) = false →
  keeps_at e policies_ok (change_blacklist uuid_Parse enforcement r ctx body t node parts).
Proof.
  intros Hs. unfold change_blacklist, with_rule_id. apply keeps_at_then; [chg|intros _].
  destruct (parts !! 8%nat) as [scope|]; [|refused]. apply keeps_at_then; [chg|intros _]. cbv zeta.
  repeat case_match; try solve [refused];
    eauto using create_blacklist_request, delete_blacklist_request.
Qed.

(** ** Routes and retries *)

Lemma update_routes_policies n t routes : changes (same policy_tables) (UpdateTenantNodeRoutes n t routes).
Proof. unfold UpdateTenantNodeRoutes, update_routes. frames. Qed.
#[local] Hint Resolve update_routes_policies : aria.
Lemma mutate_routes_keep e node t action message metadata data routes :
  keeps_at e policies_ok (mutate_routes node t action message metadata data routes).
Proof.
  apply transactional_keeps. intros st a st' Hok Hr.
  apply bind_ok in Hr as (u & st1 & Hr & Hret). injection Hret as _ <-.
  pose proof (update_routes_policies (N_ID node) t routes e st) as Hs. rewrite Hr in Hs.
  by apply (policies_ok_same _ _ Hs).
Qed.
#[local] Hint Resolve or_invalid_reads route_conflicts_reads require_route_reads : aria.
Ltac keep_step :=
  match goal with
  | |- keeps_at _ _ (mutate_routes _ _ _ _ _ _ _) => apply mutate_routes_keep
  | |- keeps_at _ _ (_ ≫= _) => apply keeps_at_then; [solve [chg]|intros ?]
  | |- keeps_at _ _ (if ?b then _ else _) => destruct b
  | |- keeps_at _ _ (let _ := _ in _) => cbv zeta
  | |- keeps_at _ _ _ => solve [refused]
  end.
Lemma routes_keep e r ctx body t parts :
  keeps_at e policies_ok (change_routes uuid_Parse enforcement r ctx body t parts).
Proof.
  unfold change_routes, addTenantNodeRoute, replaceTenantNodeRoute, deleteTenantNodeRoute, getTenantNodeRoute.
  repeat keep_step.
Qed.
Lemma change_node_policy_keep e path r ctx body route t : proper_ids e →
  blanks_allowed = true ∨ spaces_only (as_blacklist body) = false →
  keeps_at e policies_ok (change_node_policy uuid_Parse enforcement path r ctx body route t).
Proof.
  intros He Hs. unfold change_node_policy, change_security. cbv zeta. apply keeps_at_then; [chg|intros node].
  destruct path; [|by apply qos_keep|apply routes_keep].
  destruct (_ !! 7%nat); [|refused]. repeat case_match; [by apply acls_keep|by apply blacklist_keep|refused].
Qed.
Lemma retry_keep e ctx body t : keeps_at e policies_ok (retryTenantPolicySync uuid_Parse enforcement ctx body t).
Proof.
  apply keeps_at_tables.
  unfold retryTenantPolicySync, bad_retry_domain, invalid, resolveRetryPolicy, recordPolicyChangedAudit,
    queueNodePolicySync, QueuePolicySync. cbv zeta. frames.
Qed.
(** ** Groups *)

Lemma keeps_at_tx e {A} (I : DB → Prop) (body : M (outcome A)) :
  (∀ st a st', I (st_db st) → body e st = (Ok (Commit a), st') → I (st_db st')) → keeps_at e I (tx body).
Proof.
  intros Hb. apply keeps_at_clean; [apply clean_tx|].
  intros st a st' Hi (st1 & [[Hr ->]|[_ ->]])%tx_ok; [|done]. by apply Hb in Hr.
Qed.
Lemma keeps_at_kept e {A} (m : M A) : changes kept m →
  (∀ st a st', groups_ok (st_db st) → m e st = (Ok a, st') → groups_ok (st_db st')) → clean m →
  keeps_at e policies_ok m.
Proof.
  intros Hk Hg Hc. apply keeps_at_clean; [done|]. intros st a st' Hok Hr.
  pose proof (Hk e st) as K. rewrite Hr in K. apply (kept_ok _ _ K); [|done].
  eapply Hg; [|done]. by apply po_groups.
Qed.
Lemma insert_group_kept g : changes kept (insertIPGroupSQL g).
Proof. apply (changes_stmt kept). intros ? id db c db' Hr. case_match; [done|]. by apply new_group_kept in Hr. Qed.
Lemma update_row_kept t g n : changes kept (update_group_row t g n).
Proof.
  apply (changes_stmt kept). intros ? id db c db' Hr. destruct (ip_groups db !! g) as [r|] eqn:Hg; [|done].
  repeat (case_match; [done|]). injection Hr as _ <-. apply set_group_kept. intros r' Hr'. by simplify_eq.
Qed.
Lemma delete_members_kept t g : changes kept (delete_members t g).
Proof. by apply (changes_exec kept). Qed.
Lemma update_group_kept t g grp : changes kept (updateIPGroupWith t g grp).
Proof.
  pose proof (reject_duplicates_reads kept). pose proof insert_members_kept. pose proof update_row_kept.
  pose proof delete_members_kept. unfold updateIPGroupWith. chg.
Qed.
Lemma create_group_keeps e g : proper_ids e → keeps_at e policies_ok (CreateIPGroup (Some g)).
Proof.
  intros He. apply keeps_at_kept.
  - pose proof insert_group_kept. pose proof (reject_duplicates_reads kept). pose proof insert_members_kept.
    unfold CreateIPGroup, rejectExactDuplicateIPGroupMembers. chg. apply (changes_tx kept). chg.
  - intros st c st' Hg Hr. by apply CreateIPGroup_ok in Hr as [? _].
  - pose proof (reject_duplicates_reads (same id)). unfold CreateIPGroup, rejectExactDuplicateIPGroupMembers.
    apply clean_bind; [chg|intros n]. apply clean_bind; [auto|intros _]. apply clean_tx.
Qed.
Lemma build_requests_reads (R : DB → DB → Prop) `{!PreOrder R} t g nodes :
  changes R (buildIPGroupUpdateSyncRequests t g nodes).
Proof.
  assert (∀ cache rules, changes R (hydrate_acls t cache rules)) as Ha by apply (hydrate_acls_reads R).
  assert (∀ cache rules, changes R (hydrate_qoss t cache rules)) as Hq by apply (hydrate_qoss_reads R).
  unfold buildIPGroupUpdateSyncRequests, validateNodePolicyConflicts, first_conflict, buildPolicySyncRequest,
    ListTenantNodeACLRules, listTenantNodeACLRules, hydrateACLRuleGroups,
    ListTenantNodeQoSRules, listTenantNodeQoSRules, hydrateQoSRuleGroups, NewDesiredStateVersion. cbv zeta. chg.
Qed.
Lemma update_groups_keeps e t g grp : 
  keeps_at e policies_ok (UpdateIPGroupAndQueuePolicySyncs t g (Some grp) (Some (buildIPGroupUpdateSyncRequests t))).
Proof.
  apply keeps_at_seq.
  - apply keeps_at_tx. intros st [[c reqs] res] st' Hok Hr.
    apply bind_ok in Hr as (c' & st1 & Hu & Hr). pose proof (update_group_kept t g (Some grp) e st) as K.
    rewrite Hu in K. apply updateIPGroupWith_ok in Hu as [Hg _]; [|by apply po_groups].
    assert (policies_ok (st_db st1)) as Hok1 by by apply (kept_ok _ _ K).
    revert Hr. match goal with |- ?m _ _ = _ → _ => assert (changes (same policy_tables) m) as Hm end.
    { unfold listNodesReferencingIPGroupWith. pose proof (build_requests_reads (same policy_tables) t). chg. }
    intros Hr. specialize (Hm e st1). rewrite Hr in Hm. by apply (policies_ok_same _ _ Hm).
  - intros [[c reqs] res]. apply keeps_at_tables. chg.
Qed.
Lemma exists_where_refs {V} (p : UUID → V → bool) (t : gmap UUID V) k v :
  exists_where p t = false → t !! k = Some v → p k v = false.
Proof. intros He. by apply (proj1 (exists_where_false _ _) He). Qed.
Lemma delete_group_keeps e t g : keeps_at e policies_ok (DeleteIPGroup t g).
Proof.
  apply keeps_at_tx. intros st u st' Hok Hr.
  apply bind_ok in Hr as (b & st1 & [_ Hdb1]%query_ok & Hr). destruct (b : bool); [done|].
  apply bind_ok in Hr as (k & st2 & (Hd & _)%stmt_ok & Hr). destruct (k =? 0); [done|]. injection Hr as _ <-.
  rewrite Hdb1 in Hd. pose proof (delete_group_ok _ _ _ _ _ Hd (po_groups _ Hok)) as Hg.
  unfold delete_group in Hd. destruct (ip_groups (st_db st) !! g) as [r|] eqn:Hgr; [|by injection Hd as _ <-].
  destruct (negb (ig_tenant_id r =? t)%string); [by injection Hd as _ <-|].
  destruct (_ || _) eqn:Href; [done|]. injection Hd as _ Hdb. rewrite <-Hdb in Hg |- *.
  apply orb_false_iff in Href as [Ha Hq]. destruct Hok as [_ Oa Oq Ob].
  assert (∀ t' ref, refers_to g ref = false → ref_in t' ref (st_db st) → ref_in t' ref
    ((st_db st) <| ip_groups := delete g (ip_groups (st_db st)) |>)) as Hkeep.
  { intros t' [h|] Hne; [|done]. intros (r' & Hr' & Ht'). exists r'. simpl. split; [|done].
    unfold refers_to in Hne. rewrite bool_decide_eq_false in Hne.
    rewrite lookup_delete_ne; [done|congruence]. }
  constructor; [done|..|done].
  - intros id r' Hr'. apply Oa in Hr' as Hx. destruct Hx as (? & Hs & Hd').
    pose proof (exists_where_refs _ _ _ _ Ha Hr') as Hne. unfold acl_refers in Hne.
    apply orb_false_iff in Hne as [? ?]. split_and!; [done|by apply Hkeep..].
  - intros id r' Hr'. apply Oq in Hr' as Hx. destruct Hx as (? & ? & Hs).
    pose proof (exists_where_refs _ _ _ _ Hq Hr') as Hne. split_and!; [done|done|by apply Hkeep].
Qed.
Lemma or_group_error_keeps e action {A} (m : M A) :
  keeps_at e policies_ok m → keeps_at e policies_ok (or_group_error action m).
Proof.
  intros Hm. unfold or_group_error, writeIPGroupError, internal_error. apply keeps_at_seq; [by apply keeps_at_attempt|].
  intros r. apply keeps_reads. intros. unfold invalid. destruct r as [a|x]; cbv zeta; chg.
Qed.
Lemma members_reads (R : DB → DB → Prop) `{!PreOrder R} t g : changes R (with_members t g).
Proof. unfold with_members, listIPGroupMembersWith. chg. Qed.
Lemma warnings_reads (R : DB → DB → Prop) `{!PreOrder R} t g : changes R (attachIPGroupWarnings t g).
Proof.
  assert (∀ c, changes R (overlappingIPGroupsSQL t (g_ID g) c)) as Ho.
  { intros c. apply (changes_stmt R). intros ? ? ? ? ? Hr. by case_match; simplify_eq. }
  unfold attachIPGroupWarnings, internal_error, FindIPGroupOverlapWarnings. chg.
Qed.
Lemma decoded_reads (R : DB → DB → Prop) `{!PreOrder R} r : changes R (decoded r).
Proof. unfold decoded, invalid. chg. Qed.
Lemma groups_keep e r ctx body limit offset t : proper_ids e →
  keeps_at e policies_ok (handleTenantIPGroups uuid_Parse enforcement r ctx body limit offset t).
Proof.
  intros He.
  assert (∀ g, keeps_at e policies_ok (getTenantIPGroup t g)) as Hget.
  { intros g. apply keeps_at_seq; [|intros a].
    - apply or_group_error_keeps, keeps_reads. intros. by apply get_group_reads.
    - apply keeps_reads. intros. pose proof (warnings_reads R t). chg. }
  assert (keeps_at e policies_ok (listTenantIPGroups t)) as Hlist.
  { apply keeps_reads. intros. pose proof (members_reads R t). unfold listTenantIPGroups, ListIPGroups, internal_error. chg. }
  assert (∀ g, keeps_at e policies_ok (listTenantIPGroupReferences limit offset t g)) as Hrefs.
  { intros g. apply keeps_reads. intros. unfold listTenantIPGroupReferences, ListIPGroupReferences, internal_error, invalid.
    cbv zeta. chg. }
  assert (keeps_at e policies_ok (createTenantIPGroup body t)) as Hcreate.
  { apply keeps_at_then; [apply (decoded_reads (same id))|intros g]. apply keeps_at_seq; [|intros c].
    - by apply or_group_error_keeps, create_group_keeps.
    - apply keeps_reads. intros. pose proof (warnings_reads R t). chg. }
  assert (∀ g, keeps_at e policies_ok (updateTenantIPGroup body t g)) as Hupdate.
  { intros g. apply keeps_at_then; [apply (decoded_reads (same id))|intros grp]. apply keeps_at_seq; [|intros [c res]].
    - apply or_group_error_keeps, update_groups_keeps.
    - apply keeps_reads. intros. pose proof (warnings_reads R t). chg. }
  assert (∀ g, keeps_at e policies_ok (deleteTenantIPGroup t g)) as Hdelete.
  { intros g. apply keeps_at_seq; [apply or_group_error_keeps, delete_group_keeps|intros _]. refused. }
  unfold handleTenantIPGroups. destruct (ipGroupPathFromPath _ _) as [[gid refs]|]; [|refused].
  cbv zeta. apply keeps_at_then; [chg|intros _]. repeat case_match; auto; refused.
Qed.

(** ** The policy of a node *)

(** The call succeeds, changes nothing and returns something with [P]. *)
Definition returns {A} (m : M A) e st (P : A → Prop) : Prop :=
  ∃ a st', m e st = (Ok a, st') ∧ st_db st' = st_db st ∧ P a.
Lemma returns_bind {A B} (m : M A) (k : A → M B) e st (P : A → Prop) (Q : B → Prop) :
  returns m e st P → (∀ a st', st_db st' = st_db st → P a → returns (k a) e st' Q) → returns (m ≫= k) e st Q.
Proof.
  intros (a & st1 & Hm & Hdb & Ha) Hk. destruct (Hk a st1 Hdb Ha) as (b & st2 & Hb & Hdb2 & HQ).
  exists b, st2. rewrite (bind_run _ _ _ _ _ _ Hm). split_and!; [done|congruence|done].
Qed.
Lemma returns_query {A} (f : Env → DB → A) e st (P : A → Prop) :
  no_faults e → P (f e (st_db st)) → returns (query f) e st P.
Proof. intros Hf HP. eexists _, _. rewrite query_run by done. by split_and!. Qed.
Lemma returns_wrap {A} msg (m : M A) e st P : returns m e st P → returns (wrap msg m) e st P.
Proof. intros (a & st' & Hm & ? & ?). exists a, st'. unfold wrap. by rewrite Hm. Qed.
Lemma returns_map_each {A B} (f : A → M B) l e st (P : A → B → Prop) :
  (∀ x st', st_db st' = st_db st → returns (f x) e st' (P x)) → returns (map_each f l) e st (Forall2 P l).
Proof.
  revert st. induction l as [|x l IH]; intros st Hf; cbn [map_each]; [eexists _, _; by split_and!|].
  eapply returns_bind; [by apply Hf|]. intros y st1 Hdb Hy.
  eapply returns_bind; [apply IH; intros x' st' Hdb'; apply Hf; congruence|].
  intros ys st2 _ Hys. eexists _, _. by split_and!; [| |constructor].
Qed.

Lemma enabled_acls_return t n e st : no_faults e → returns (GetEnabledTenantNodeACLRules t n) e st
  (λ l, ∀ r, r ∈ l → ∃ id row, acl_rules (st_db st) !! id = Some row ∧ acl_of t n id row = true ∧
          ar_enabled row = true ∧ r = scanACLRuleRecord id row).
Proof.
  intros Hf. apply returns_query; [done|]. intros r ([id row] & -> & Hin)%list_elem_of_fmap.
  rewrite SliceStable_Permutation in Hin. apply select_where_elem in Hin as [Hr Hp].
  apply andb_true_iff in Hp as [Hp He]. by exists id, row.
Qed.
Lemma enabled_qos_return t n e st : no_faults e → returns (GetEnabledTenantNodeQoSRules t n) e st
  (λ l, ∀ r, r ∈ l → ∃ id row, qos_rules (st_db st) !! id = Some row ∧ qos_of t n id row = true ∧
          qr_enabled row = true ∧ r = scanQoSRule id row).
Proof.
  intros Hf. apply returns_query; [done|]. intros r ([id row] & -> & Hin)%list_elem_of_fmap.
  rewrite SliceStable_Permutation in Hin. apply select_where_elem in Hin as [Hr Hp].
  apply andb_true_iff in Hp as [Hp He]. by exists id, row.
Qed.
Lemma blacklist_return key e st id n : no_faults e → node_by_key (st_db st) key = Some (id, n) →
  returns (getBlacklistRules key) e st
  (λ l, ∀ b, b ∈ l ↔ ∃ k a, blacklist_rules (st_db st) !! k = Some a ∧ blacklist_of (n_tenant_id n) id k a = true ∧
          br_enabled a = true ∧ b = blacklist_message (scanBlacklistRule k a)).
Proof.
  intros Hf Hk.
  unfold getBlacklistRules, GetNodeBlacklistRulesByPublicKey, node_of_key, GetNode.
  set (m := (_ ≫= _ : M (list BlacklistRuleRecord))).
  assert (returns m e st (λ l, ∀ b, b ∈ l ↔ ∃ k a, blacklist_rules (st_db st) !! k = Some a ∧
    blacklist_of (n_tenant_id n) id k a = true ∧ br_enabled a = true ∧ b = scanBlacklistRule k a))
    as (l & st' & Hl & Hdb & HP).
  { unfold m. eapply (returns_bind _ _ _ _ (λ nd, nd = scanNode id n)).
    - eapply (returns_bind _ _ _ _ (λ o, o = Some (scanNode id n))).
      + apply returns_query; [done|]. by rewrite Hk.
      + intros o st' _ ->. by eexists _, _.
    - intros nd st' Hdb ->. apply returns_query; [done|]. rewrite Hdb. intros r. rewrite list_elem_of_fmap. split.
      + intros ([k a] & -> & Hin). rewrite SliceStable_Permutation in Hin.
        apply select_where_elem in Hin as [Hr [Hof He]%andb_true_iff]. by exists k, a.
      + intros (k & a & Hr & Hof & He & ->). exists (k, a). split; [done|]. rewrite SliceStable_Permutation.
        apply select_where_elem. cbn [N_TenantID N_ID scanNode fst snd]. by rewrite Hof, He. }
  exists (blacklist_message <$> l), st'. unfold attempt, mbind, M_bind at 1. rewrite Hl. split_and!; [done|done|].
  intros b. rewrite list_elem_of_fmap. split.
  - intros (r & -> & (k & a & ? & ? & ? & ->)%HP). by exists k, a.
  - intros (k & a & ? & ? & ? & ->). eexists. split; [done|]. apply HP. by exists k, a.
Qed.
Lemma groups_return t n e st : no_faults e → returns (ListIPGroupsForNodePolicySnapshot t n) e st
  (λ l, ∀ g row, ip_groups (st_db st) !! g = Some row → ig_tenant_id row = t →
          snapshot_group t n g (st_db st) = true → ∃ r, r ∈ l ∧ g_ID r = g).
Proof.
  intros Hf. unfold ListIPGroupsForNodePolicySnapshot.
  eapply (returns_bind _ _ _ _ (λ rows, ∀ g row, ip_groups (st_db st) !! g = Some row → ig_tenant_id row = t →
    snapshot_group t n g (st_db st) = true → (g, row) ∈ rows)).
  - apply returns_query; [done|]. intros g row Hg Ht Hs. rewrite SliceStable_Permutation.
    apply select_where_elem. split; [done|]. by rewrite Ht, String.eqb_refl, Hs.
  - intros rows st1 Hdb Hrows.
    destruct (returns_map_each (λ kg : UUID * IPGroupRow, with_members t (scanIPGroup kg.1 kg.2)) rows e st1
      (λ kg r, g_ID r = kg.1)) as (l & st2 & Hl & Hdb2 & HP).
    { intros kg st' _. unfold with_members, listIPGroupMembersWith.
      eapply (returns_bind _ _ _ _ (λ _, True)); [by apply returns_query|].
      intros ms st2 _ _. by eexists _, _. }
    exists l, st2. split_and!; [done|done|]. intros g row Hg Ht Hs.
    specialize (Hrows g row Hg Ht Hs). apply list_elem_of_lookup in Hrows as [i Hi].
    destruct (Forall2_lookup_l _ _ _ _ _ HP Hi) as (r & Hr & Hid).
    exists r. split; [by eapply list_elem_of_lookup_2|done].
Qed.
(** A rule of the node that is enabled asks for its groups, which are there. *)
Lemma asked_group t g db ref : ref_in t ref db → ref = Some g →
  ∃ row, ip_groups db !! g = Some row ∧ ig_tenant_id row = t.
Proof. by intros Hr ->. Qed.
(** An enabled rule of the node that blocks a source or destination it does not name. *)
Definition blank_rule_of (id : UUID) (row : NodeRow) (db : DB) : Prop := ∃ k a,
  blacklist_rules db !! k = Some a ∧ blacklist_of (n_tenant_id row) id k a = true ∧ br_enabled a = true ∧ blank a.
Lemma blank_refused k a : blank a →
  is_ok (compileBlacklistRule (Some (blacklist_message (scanBlacklistRule k a)))) = false.
Proof.
  intros [Hs Hc]. unfold compileBlacklistRule, blacklist_message, scanBlacklistRule.
  cbn [pb_Scope pb_Cidr b_Scope b_CIDR]. rewrite Hc.
  apply elem_of_cons in Hs as [Hs|Hs%list_elem_of_singleton]; rewrite Hs; reflexivity.
Qed.
Lemma returns_then {A B} (m : M A) (k : A → M B) e st (P : A → Prop) (Q : result B → Prop) :
  returns m e st P → (∀ a st', st_db st' = st_db st → P a → Q (k a e st').1) → Q ((m ≫= k) e st).1.
Proof. intros (a & st' & Hm & Hdb & Ha) Hk. rewrite (bind_run _ _ _ _ _ _ Hm). by apply Hk. Qed.
Lemma node_policy_compiles id row e st : policies_ok (st_db st) → no_faults e → keys_unique (st_db st) →
  nodes (st_db st) !! id = Some row →
  is_ok (node_policy (scanNode id row) e st).1 = true ↔ ¬ blank_rule_of id row (st_db st).
Proof.
  intros [_ Oa Oq Ob] Hf Hu Hrow. unfold node_policy.
  eapply (returns_then _ _ _ _ _ (λ r, is_ok r = true ↔ _)); [by apply returns_wrap, enabled_acls_return|]. intros acls st1 H1' Hacl.
  eapply (returns_then _ _ _ _ _ (λ r, is_ok r = true ↔ _)); [by apply returns_wrap, enabled_qos_return|]. intros qoss st2 H2' Hqos.
  eapply (returns_then _ _ _ _ _ (λ r, is_ok r = true ↔ _)); [by apply returns_wrap, groups_return|]. intros groups st3 H3' Hgroups.
  assert (node_by_key (st_db st3) (N_PublicKey (scanNode id row)) = Some (id, row)) as Hkey
    by (rewrite H3', H2', H1'; by apply (node_by_key_unique _ id row)).
  eapply (returns_then _ _ _ _ _ (λ r, is_ok r = true ↔ _)); [by eapply returns_wrap, blacklist_return|]. intros bls st4 H4' Hbls.
  rewrite ?H3', ?H2', ?H1' in *. clear H1' H2' H3' H4'. unfold wrap, lift.
  match goal with |- context [compileAgentPolicySnapshotWithGroups ?g ?a ?q ?b] =>
    trans (is_ok (compileAgentPolicySnapshotWithGroups g a q b) = true);
      [by destruct (compileAgentPolicySnapshotWithGroups g a q b)|] end.
  split.
  { intros (_ & Hb & _)%compiles_iff (k & a & Hk & Hof & He & Hbl).
    specialize (Hb (Some (blacklist_message (scanBlacklistRule k a)))). rewrite (blank_refused k a Hbl) in Hb.
    discriminate Hb. apply list_elem_of_fmap_2, Hbls. by exists k, a. }
  intros Hno. apply compiles_iff. split_and!.
  - intros r (? & [= <-] & Hr)%list_elem_of_fmap _. destruct (Hacl r Hr) as (k & a & Hka & _ & _ & ->).
    by destruct (Oa k a Hka) as [? _].
  - intros b (r & -> & Hr)%list_elem_of_fmap. apply Hbls in Hr as (k & a & Hka & Hof & He & ->).
    destruct (Ob k a Hka) as [|[_ Hbl]]; [done|]. destruct Hno. by exists k, a.
  - intros r (? & [= <-] & Hr)%list_elem_of_fmap _. destruct (Hqos r Hr) as (k & a & Hka & _ & _ & ->).
    by destruct (Oq k a Hka) as [? _].
  - intros g Hg.
    assert (∃ row', ip_groups (st_db st) !! g = Some row' ∧ ig_tenant_id row' = n_tenant_id row ∧
      snapshot_group (n_tenant_id row) id g (st_db st) = true) as (row' & Hg' & Ht' & Hs).
    2: { destruct (Hgroups g row' Hg' Ht' Hs) as (r & Hr & Hid). exists r.
         split; [by apply list_elem_of_fmap_2|done]. }
    destruct Hg as [(r & (? & [= <-] & Hr)%list_elem_of_fmap & _ & Href)|(r & (? & [= <-] & Hr)%list_elem_of_fmap & _ & Href)].
    + destruct (Hacl r Hr) as (k & a & Hka & Hof & Hen & ->). destruct (Oa k a Hka) as (_ & Hs & Hd).
      pose proof Hof as [Ht Hn]%andb_true_iff. cbn [N_TenantID N_ID scanNode] in Ht, Hn.
      apply String.eqb_eq in Ht as Ht'.
      assert (∃ row', ip_groups (st_db st) !! g = Some row' ∧ ig_tenant_id row' = n_tenant_id row) as (row' & ? & ?).
      { rewrite <-Ht'. destruct Href as [Href|Href]; [exact (asked_group _ _ _ _ Hs Href)|exact (asked_group _ _ _ _ Hd Href)]. }
      exists row'. split_and!; [done..|]. unfold snapshot_group. apply orb_true_iff. left.
      apply exists_where_spec. exists k, a. split; [done|]. rewrite Ht, Hn, Hen. unfold acl_refers, refers_to.
      cbn [andb]. apply orb_true_iff. destruct Href as [Href|Href]; [left|right]; by apply bool_decide_eq_true.
    + destruct (Hqos r Hr) as (k & a & Hka & Hof & Hen & ->). destruct (Oq k a Hka) as (_ & _ & Hs).
      pose proof Hof as [Ht Hn]%andb_true_iff. cbn [N_TenantID N_ID scanNode] in Ht, Hn.
      apply String.eqb_eq in Ht as Ht'.
      assert (∃ row', ip_groups (st_db st) !! g = Some row' ∧ ig_tenant_id row' = n_tenant_id row) as (row' & ? & ?).
      { rewrite <-Ht'. exact (asked_group _ _ _ _ Hs Href). }
      exists row'. split_and!; [done..|]. unfold snapshot_group. apply orb_true_iff. right.
      apply exists_where_spec. exists k, a. split; [done|]. rewrite Ht, Hn, Hen. unfold refers_to.
      cbn [andb]. by apply bool_decide_eq_true.
Qed.
(** ** The requests as one machine *)

Inductive policy_call :=
  | ChangePolicy (path : policy_path) (r : Request) (ctx : Context) (body : PolicyBody)
      (route : option RouteBody) (tenantID : UUID)
  | RetrySync (ctx : Context) (body : option RetryBody) (tenantID : UUID)
  | GroupRequest (r : Request) (ctx : Context) (body : option ipGroupPayload) (limit offset : string)
      (tenantID : UUID).
Definition policy_step (c : policy_call) (e : Env) (st : St) : St :=
  match c with
  | ChangePolicy path r ctx body route t =>
    (change_node_policy uuid_Parse enforcement path r ctx body route t e st).2
  | RetrySync ctx body t => (retryTenantPolicySync uuid_Parse enforcement ctx body t e st).2
  | GroupRequest r ctx body limit offset t =>
    (handleTenantIPGroups uuid_Parse enforcement r ctx body limit offset t e st).2
  end.
Definition run_policy_calls (l : list (Env * policy_call)) (st : St) : St :=
  foldl (λ st ec, policy_step ec.2 ec.1 st) st l.
(** A blacklist rule is asked for with a network of spaces. *)
Definition asks_blank (c : policy_call) : bool :=
  match c with ChangePolicy _ _ _ body _ _ => spaces_only (as_blacklist body) | _ => false end.
Definition calls_ok (l : list (Env * policy_call)) : Prop :=
  Forall (λ ec, proper_ids ec.1 ∧ (blanks_allowed = true ∨ asks_blank ec.2 = false)) l.
Lemma policy_step_ok e c st : proper_ids e → blanks_allowed = true ∨ asks_blank c = false →
  policies_ok (st_db st) → policies_ok (st_db (policy_step c e st)).
Proof.
  destruct c as [path r ctx body route t|ctx body t|r ctx body l o t]; intros He Hs.
  - by apply change_node_policy_keep.
  - apply retry_keep.
  - by apply groups_keep.
Qed.
Lemma run_policy_calls_ok l st : calls_ok l → policies_ok (st_db st) → policies_ok (st_db (run_policy_calls l st)).
Proof.
  unfold calls_ok. revert st. induction l as [|[e c] l IH]; intros st; [done|]. intros [[He Hc] Hl]%Forall_cons Hok.
  by apply (IH (policy_step c e st)), policy_step_ok.
Qed.
End requests.

Section policies.
Context `{CidrTextLaws} `{Sha256} (uuid_Parse : string → option UUID) (enforcement : string).
Let run := run_policy_calls uuid_Parse enforcement.
(** The tables are as the handlers keep them; blacklist rules may have no network. *)
Definition policies_kept : DB → Prop := @policies_ok _ true.
Lemma policies_kept_run l st : Forall (λ ec, proper_ids ec.1) l → policies_kept (st_db st) →
  policies_kept (st_db (run l st)).
Proof. intros Hl. apply (@run_policy_calls_ok _ _ _ true). eapply Forall_impl; [done|]. intros ec He. split; [done|by left]. Qed.
Lemma strict_kept db : @policies_ok _ false db → policies_kept db.
Proof. intros [Og Oa Oq Ob]. constructor; try done. intros id r Hr. left. by destruct (Ob id r Hr) as [|[]]. Qed.
Lemma blanks_asked_for l st id row : Forall (λ ec, proper_ids ec.1 ∧ asks_blank ec.2 = false) l →
  @policies_ok _ false (st_db st) → ¬ blank_rule_of id row (st_db (run l st)).
Proof.
  intros Hl Hok (k & a & Hk & _ & _ & Hb).
  assert (@policies_ok _ false (st_db (run l st))) as Hr.
  { apply (@run_policy_calls_ok _ _ _ false); [|done]. eapply Forall_impl; [done|]. intros ec [He Hc]. split; [done|by right]. }
  destruct (po_blacklist _ Hr k a Hk) as [Hc|[]]; [|done]. unfold blacklist_compiles in Hc. by rewrite (blank_refused k a Hb) in Hc.
Qed.

(** C1. After any sequence of requests that change rules, routes or groups or retry a
    sync - accepted or refused, with statements failing anywhere - the policy of a
    node compiles exactly when the node has no enabled blacklist rule for a source or
    destination that names no network: the checks the handlers make of a rule, the
    groups they resolve and the keys that protect those groups together leave nothing
    else that [compileAgentPolicySnapshotWithGroups] refuses.  Such a rule comes from
    a blacklist request whose network is spaces only, which [security.go] fails to
    refuse; without such requests every node can be sent its policy. *)
Theorem policies_compile l st e id row :
  Forall (λ ec, proper_ids ec.1) l → policies_kept (st_db st) → no_faults e →
  let st' := run_policy_calls uuid_Parse enforcement l st in
  keys_unique (st_db st') → nodes (st_db st') !! id = Some row →
  ((∃ snap st'', node_policy (scanNode id row) e st' = (Ok snap, st'')) ↔ ¬ blank_rule_of id row (st_db st')) ∧
  (@policies_ok _ false (st_db st) → Forall (λ ec, asks_blank ec.2 = false) l →
     ∃ snap st'', node_policy (scanNode id row) e st' = (Ok snap, st'')).
Proof.
  intros Hl Hok He st' Hu Hrow.
  assert ((∃ snap st'', node_policy (scanNode id row) e st' = (Ok snap, st'')) ↔ ¬ blank_rule_of id row (st_db st')) as Hiff.
  { pose (lax := true : BlanksAllowed).
    rewrite <- (node_policy_compiles id row e st'); [|by apply policies_kept_run|done..].
    destruct (node_policy (scanNode id row) e st') as [[snap|x] st'']; split; [done|eauto|by intros (? & ? & ?)|done]. }
  split; [done|]. intros Hstrict Hno. apply Hiff, blanks_asked_for; [|done]. by apply Forall_and.
Qed.

(** C7. After any such sequence the groups of a tenant are still its own: no two
    have the same name, no network is in two of them, and a rule refers only to
    groups of its tenant that exist. *)
Theorem groups_stay_disjoint l st :
  Forall (λ ec, proper_ids ec.1) l → policies_kept (st_db st) →
  let db := st_db (run_policy_calls uuid_Parse enforcement l st) in
  groups_ok db ∧
  (∀ id r, acl_rules db !! id = Some r →
     ref_in (ar_tenant_id r) (ar_src_group_id r) db ∧ ref_in (ar_tenant_id r) (ar_dst_group_id r) db) ∧
  (∀ id r, qos_rules db !! id = Some r → ref_in (qr_tenant_id r) (qr_group_id r) db).
Proof.
  intros Hl Hok db. destruct (policies_kept_run l st Hl Hok) as [Hg Ha Hq _]. fold run in db. fold db in Hg, Ha, Hq.
  split_and!; [done|..].
  - intros id r Hr. by destruct (Ha id r Hr) as (_ & ? & ?).
  - intros id r Hr. by destruct (Hq id r Hr) as (_ & _ & ?).
Qed.
End policies.

(** ** A run *)

Definition demo_qos_body : QoSBody :=
  mkQoSBody None "10.3.0.0/16" "" "" None None None 100 "" 0 0 None "Shaping" None "".
Definition demo_blacklist_body : BlacklistBody := mkBlacklistBody "" 22 "".
(** A group, an ACL rule and a QoS rule for networks in no group, a blocked port,
    and a group that is refused because its network is in the first. *)
Definition demo_calls : list (Env * policy_call) :=
  [(env_at 1, GroupRequest (post "ip-groups") demo_admin
      (Some (mkGroupPayload "office" "" "" [mkMemberPayload "10.1.7.9/16" ""])) "" "" "t1");
   (env_at 2, ChangePolicy SecurityPath (post "nodes/n1/security/acls") demo_admin
      (mkPolicyBody (Some demo_acl_body) None None None None) None "t1");
   (env_at 3, ChangePolicy QoSPath (post "nodes/n1/qos") demo_admin
      (mkPolicyBody None None (Some demo_qos_body) None None) None "t1");
   (env_at 4, ChangePolicy SecurityPath (post "nodes/n1/security/blacklist/ports") demo_admin
      (mkPolicyBody None None None None (Some demo_blacklist_body)) None "t1");
   (env_at 5, GroupRequest (post "ip-groups") demo_admin
      (Some (mkGroupPayload "again" "" "" [mkMemberPayload "10.1.0.0/16" ""])) "" "" "t1")].
Definition demo_run : St :=
  @run_policy_calls go_cidr demo_sha Some "" demo_calls (mkSt policy_db 0).
Example demo_run_tables :
  let db := st_db demo_run in
  (size (acl_rules db), size (qos_rules db), size (blacklist_rules db), size (ip_groups db),
   size (ip_group_members db), size (agent_commands db)) = (1, 1, 1, 3, 3, 3)%nat.
Proof. vm_compute. reflexivity. Qed.
Lemma env_at_proper t : proper_ids (env_at t).
Proof. intros n i. discriminate. Qed.
Lemma demo_calls_ok : Forall (λ ec : Env * policy_call, proper_ids ec.1 ∧ asks_blank ec.2 = false) demo_calls.
Proof. repeat constructor; apply env_at_proper. Qed.
Lemma policy_db_ok b : @policies_ok go_cidr b policy_db.
Proof.
  constructor; [constructor|..]; simpl; intros; by simplify_map_eq.
Qed.
Lemma policies_compile_witness :
  ∃ row snap st'', nodes (st_db demo_run) !! "n1" = Some row ∧
    @node_policy go_cidr (scanNode "n1" row) (env_at 6) demo_run = (Ok snap, st'').
Proof.
  assert (is_Some (nodes (st_db demo_run) !! "n1")) as [row Hrow] by (vm_compute; by eexists).
  assert (no_faults (env_at 6)) as Hf by (intros n; reflexivity).
  assert (keys_unique (st_db demo_run)) as Hu.
  { unfold keys_unique. assert (nodes (st_db demo_run) = {["n1" := row]}) as -> by (revert Hrow; vm_compute; by intros [= <-]).
    intros id id' r r' [<- _]%lookup_singleton_Some [<- _]%lookup_singleton_Some _. done. }
  pose proof (proj1 (Forall_and _ _) demo_calls_ok) as [Hp Hb].
  destruct (proj2 (@policies_compile go_cidr go_cidr_laws demo_sha Some "" demo_calls (mkSt policy_db 0) (env_at 6) "n1"
    row Hp (policy_db_ok true) Hf Hu Hrow) (policy_db_ok false) Hb) as (snap & st'' & Hr).
  exists row, snap, st''. exact (conj Hrow Hr).
Defined.
Lemma groups_stay_disjoint_witness : groups_ok (st_db demo_run).
Proof.
  pose proof (proj1 (Forall_and _ _) demo_calls_ok) as [Hp _].
  exact (proj1 (@groups_stay_disjoint go_cidr go_cidr_laws demo_sha Some "" demo_calls (mkSt policy_db 0)
    Hp (policy_db_ok true))).
Defined.

(** A network of spaces passes the check for an empty one, is stored as no network,
    and from then on the node cannot be sent a policy. *)
Example blank_network_breaks_sync :
  let st := @run_policy_calls go_cidr demo_sha Some ""
    [(env_at 1, ChangePolicy SecurityPath (post "nodes/n1/security/blacklist/src") demo_admin
       (mkPolicyBody None None None None (Some (mkBlacklistBody "  " 0 ""))) None "t1")] (mkSt policy_db 0) in
  (@node_policy go_cidr (scanNode "n1" (default demo_node (nodes policy_db !! "n1"))) (env_at 2) st).1 =
  Err (ErrorString "failed to compile policy snapshot").
Proof. vm_compute. reflexivity. Qed.
