(* ===== verification/BatchSpec.v ===== *)
(** * What a batch of commands answers is what happened

    [handleTenantBatchAgentCommand] queues one command for each active target in
    one statement and answers a result per target. *)

From S2P Require Import Prelude GoStr Records Store Events ControlState AgentCommands PolicySync CommandLifecycle Nodes Sessions Access AccessSpec Dispatch AgentAdmin.

Open Scope Z_scope.

(** ** One INSERT for all targets *)

Section insert.
Context (e : Env) (ids : nat → UUID) (command : string) (params : object) (priority timeout : Z).
Let row key := new_command_row e key command params priority timeout.

Lemma insert_commands_rows i targets db returned db' :
  insert_commands e ids i targets command params priority timeout db = Ok (returned, db') →
  returned.*1 = targets ∧
  (∀ key id, (key, id) ∈ returned → agent_commands db !! id = None ∧ agent_commands db' !! id = Some (row key)) ∧
  (∀ k r, agent_commands db !! k = Some r → agent_commands db' !! k = Some r) ∧
  (∀ k r, agent_commands db !! k = None → agent_commands db' !! k = Some r →
     ∃ key, (key, k) ∈ returned ∧ r = row key).
Proof.
  revert i db returned db'. induction targets as [|key rest IH]; intros i db returned db'; cbn [insert_commands].
  { intros [= <- <-]. split_and!; [done|by intros ? ? []%elem_of_nil|done|congruence]. }
  unfold mbind, result_bind. destruct (insert_command _ _ _) as [db1|] eqn:Hins; [|done].
  destruct (insert_commands _ _ (S i) _ _ _ _ _ _) as [[ret1 db2]|] eqn:Hrest; [|done]. intros [= <- <-].
  apply IH in Hrest as (Hkeys & Hret & Hold & Hnew). unfold insert_command in Hins.
  destruct (negb _); [done|]. destruct (agent_commands db !! ids i) as [|] eqn:Hid; [done|]. injection Hins as <-.
  unfold set_commands in *. simpl in Hret, Hold, Hnew. split_and!.
  - rewrite fmap_cons. f_equal. exact Hkeys.
  - intros key' id' [Heq|Hin]%elem_of_cons.
    + injection Heq as -> ->. split; [done|]. apply Hold. by rewrite lookup_insert_eq.
    + destruct (Hret _ _ Hin) as [Hn Hs]. split; [|done]. by apply lookup_insert_None in Hn as [].
  - intros k r Hk. apply Hold. rewrite lookup_insert_ne; [done|congruence].
  - intros k r Hk Hk'. destruct (decide (k = ids i)) as [-> |Hne].
    + rewrite (Hold (ids i) (row key)) in Hk' by (by rewrite lookup_insert_eq). injection Hk' as <-.
      exists key. split; [left|done].
    + destruct (Hnew k r) as (key' & Hin & ->); [by rewrite lookup_insert_ne|done|].
      exists key'. split; [by right|done].
Qed.
End insert.

Lemma by_node_elem returned key id : by_node returned !! key = Some id → (key, id) ∈ returned.
Proof.
  unfold by_node. cut (∀ m : strmap, foldl (λ m kv, <[kv.1:=kv.2]> m) m returned !! key = Some id →
    (key, id) ∈ returned ∨ m !! key = Some id).
  { intros Hc Hl. destruct (Hc ∅ Hl) as [?|He]; [done|by rewrite lookup_empty in He]. }
  induction returned as [|[k v] l IH]; intros m Hl; simpl in Hl; [by right|].
  destruct (IH _ Hl) as [?|Hm]; [left; by right|].
  destruct (decide (k = key)) as [-> |Hne]; [|right; by rewrite lookup_insert_ne in Hm].
  rewrite lookup_insert_eq in Hm. injection Hm as ->. left. left.
Qed.

Lemma NoDup_fst_unique {A B} (l : list (A * B)) a b b' : NoDup l.*1 → (a, b) ∈ l → (a, b') ∈ l → b = b'.
Proof.
  intros Hnd [i Hi]%list_elem_of_lookup [j Hj]%list_elem_of_lookup.
  assert (i = j) as ->; [|congruence].
  by apply (NoDup_lookup l.*1 i j a); rewrite ?list_lookup_fmap, ?Hi, ?Hj.
Qed.
Lemma mapM_result_ok {A B} (f : A → result B) l k : mapM f l = Ok k → Forall2 (λ x y, f x = Ok y) l k.
Proof.
  revert k. induction l as [|x l IH]; intros k; simpl; [intros [= <-]; constructor|].
  unfold mbind, result_bind, mret, result_ret. destruct (f x) as [y|] eqn:Hx; [|done].
  destruct (mapM f l) as [ys|]; [|done]. intros [= <-]. constructor; auto.
Qed.
(** The command is new, waits for its target, and was answered with its id. *)
Definition queued_for (command key : string) (cmd : AgentCommand) (db db' : DB) : Prop :=
  Command cmd = command ∧ NodePublicKey cmd = key ∧ agent_commands db !! ID cmd = None ∧
  ∃ r, agent_commands db' !! ID cmd = Some r ∧ ac_node_public_key r = key ∧ ac_command r = command ∧
       ac_status r = AgentCommandStatusPending.
Lemma QueueAgentCommands_ok targets command params priority timeout e st cmds st' :
  QueueAgentCommands targets command params priority timeout e st = (Ok cmds, st') →
  Forall2 (λ key cmd, queued_for (TrimSpace command) key cmd (st_db st) (st_db st')) targets cmds ∧
  ∀ k r, agent_commands (st_db st) !! k = None → agent_commands (st_db st') !! k = Some r →
    ∃ i cmd, targets !! i = Some (ac_node_public_key r) ∧ cmds !! i = Some cmd ∧ (NoDup targets → ID cmd = k).
Proof.
  unfold QueueAgentCommands. destruct targets as [|key0 rest] eqn:Hts.
  { intros [= <- <-]. split; [constructor|congruence]. }
  rewrite <-Hts. clear Hts key0 rest. cbv zeta. repeat (case_match; [done|]). intros Hr.
  apply bind_ok in Hr as (returned & st1 & (Hins & _)%stmt_rows_ok & Hr).
  apply insert_commands_rows in Hins as (Hkeys & Hret & _ & Hnew).
  unfold lift, collect_commands in Hr. injection Hr as Hc <-. split.
  - apply mapM_result_ok in Hc as Hc'. eapply Forall2_impl; [exact Hc'|]. cbv beta. intros key cmd Hcmd.
    destruct (by_node returned !! key) as [id|] eqn:Hb; [|done]. injection Hcmd as <-.
    apply by_node_elem, Hret in Hb as [Hn Hs]. split_and!; [done..|]. eexists. by split.
  - intros k r Hk Hk'. destruct (Hnew k r Hk Hk') as (key & Hin & ->). cbn [ac_node_public_key new_command_row].
    assert (key ∈ targets) as Hkey by (rewrite <-Hkeys; by apply (list_elem_of_fmap_2 fst) in Hin).
    apply list_elem_of_lookup in Hkey as [i Hi]. apply mapM_result_ok in Hc.
    destruct (Forall2_lookup_l _ _ _ _ _ Hc Hi) as (cmd & Hcmd & Hc'). exists i, cmd. split_and!; [done..|].
    intros Hnd. destruct (by_node returned !! key) as [id|] eqn:Hb; [|done]. injection Hc' as <-.
    apply by_node_elem in Hb. cbn [ID]. rewrite <-Hkeys in Hnd.
    by eapply (NoDup_fst_unique returned key).
Qed.

(** When the statement fails it inserts nothing, and after it has run nothing fails:
    RETURNING names every target. *)
Lemma by_node_some returned key : key ∈ returned.*1 → is_Some (by_node returned !! key).
Proof.
  unfold by_node. cut (∀ m : strmap, key ∈ returned.*1 ∨ is_Some (m !! key) →
    is_Some (foldl (λ m kv, <[kv.1:=kv.2]> m) m returned !! key)); [auto|].
  induction returned as [|[k v] l IH]; intros m Hm; simpl; [destruct Hm as [[]%elem_of_nil|]; done|].
  apply IH. destruct Hm as [[-> |Hin]%elem_of_cons|Hm]; [right|by left|right].
  - rewrite lookup_insert_eq. by eexists.
  - apply lookup_insert_is_Some'. by right.
Qed.
Lemma mapM_result_total {A B} (f : A → result B) l :
  (∀ x, x ∈ l → is_ok (f x) = true) → is_ok (mapM f l) = true.
Proof.
  induction l as [|x l IH]; intros Hf; [done|]. simpl. unfold mbind, result_bind.
  specialize (Hf x (list_elem_of_here _ _)) as Hx. destruct (f x); [|done].
  assert (is_ok (mapM f l) = true) as Hl by (apply IH; intros; apply Hf; by right). by destruct (mapM f l).
Qed.
Lemma QueueAgentCommands_err targets command params priority timeout e st x st' :
  QueueAgentCommands targets command params priority timeout e st = (Err x, st') → st_db st' = st_db st.
Proof.
  unfold QueueAgentCommands. destruct targets as [|key0 rest] eqn:Hts; [done|]. rewrite <-Hts. clear Hts key0 rest.
  cbv zeta. do 4 (case_match; [by intros [= _ <-]|]). unfold mbind, M_bind.
  destruct (stmt_rows _ e st) as [[returned|y] st1] eqn:Hst; intros Hr.
  - apply stmt_rows_ok in Hst as (Hins & _). apply insert_commands_rows in Hins as (Hkeys & _).
    exfalso. unfold lift, collect_commands in Hr.
    match type of Hr with (mapM ?f ?l, _) = _ => assert (is_ok (mapM f l) = true) as Hok end;
      [|injection Hr as Hr _; by rewrite Hr in Hok].
    apply mapM_result_total. intros key Hkey. rewrite <-Hkeys in Hkey.
    by destruct (by_node_some _ _ Hkey) as [id ->].
  - injection Hr as _ <-. unfold stmt_rows in Hst. case_match; [by injection Hst as _ <-|].
    case_match; [by case_match|]. by injection Hst as _ <-.
Qed.

(** ** The results *)

(** The results of a batch: an inactive target failed, and an active one has the
    answer it got. *)
Lemma batch_results_ok nodes answers :
  result_node <$> answers = filter (λ n, active_target n = true) nodes →
  result_node <$> batch_results nodes answers = nodes ∧
  (∀ r, r ∈ batch_results nodes answers → r ∈ answers ∨ active_target (result_node r) = false ∧ queued_ok r = false) ∧
  (∀ r, r ∈ answers → r ∈ batch_results nodes answers).
Proof.
  revert answers. induction nodes as [|n nodes IH]; intros answers Ha.
  { destruct answers; [|done]. split_and!; [done|by intros r []%elem_of_nil|done]. }
  cbn [batch_results]. unfold active_target at 1 in Ha. rewrite filter_cons in Ha.
  unfold active_target in *. destruct (String.eqb_spec (inactiveCommandTargetMessage n) "") as [Hm|Hm].
  - rewrite decide_True in Ha by done. cbn [negb]. destruct answers as [|a answers]; [done|].
    injection Ha as Han Ha. destruct (IH answers Ha) as (Hn & Hfrom & Hin). split_and!.
    + rewrite fmap_cons. by f_equal.
    + intros r [-> |Hr]%elem_of_cons; [left; left|]. destruct (Hfrom r Hr); [left; by right|by right].
    + intros r [-> |Hr]%elem_of_cons; [left|right; by apply Hin].
  - rewrite decide_False in Ha by done. cbn [negb]. destruct (IH answers Ha) as (Hn & Hfrom & Hin). split_and!.
    + rewrite fmap_cons. by f_equal.
    + intros r [-> |Hr]%elem_of_cons; [right|by apply Hfrom]. split; [|done]. by apply String.eqb_neq.
    + intros r Hr. right. by apply Hin.
Qed.

(** The targets of the answers of one queueing; all were queued or none. *)
Lemma queue_batch_ok ctx request actives e st answers st' :
  queue_batch ctx request actives e st = (Ok answers, st') →
  result_node <$> answers = actives ∧
  ((∀ r, r ∈ answers → ∃ node cmd, r = TargetQueued node cmd ∧
      queued_for (TrimSpace (vr_Command request)) (N_PublicKey node) cmd (st_db st) (st_db st')) ∨
   (∀ r, r ∈ answers → queued_ok r = false) ∧ agent_commands (st_db st') = agent_commands (st_db st)) ∧
  ∀ k r, agent_commands (st_db st) !! k = None → agent_commands (st_db st') !! k = Some r →
    ∃ node cmd, TargetQueued node cmd ∈ answers ∧ N_PublicKey node = ac_node_public_key r ∧
      (NoDup (N_PublicKey <$> actives) → ID cmd = k).
Proof.
  unfold queue_batch. destruct actives as [|n0 rest] eqn:Hns.
  { intros [= <- <-]. split_and!; [done|right; split; [by intros r []%elem_of_nil|done]|congruence]. }
  rewrite <-Hns. clear Hns n0 rest. intros Hr. apply bind_ok in Hr as (q & st1 & Hq%attempt_ok & Hr).
  destruct q as [cmds|x].
  - apply QueueAgentCommands_ok in Hq as [Hq Hnew]. cbv zeta in Hr. apply bind_ok in Hr as (u & st2 & Haud & Hr).
    assert (agent_commands (st_db st2) = agent_commands (st_db st1)) as Hc.
    { match type of Haud with ?m _ _ = _ => assert (changes (same agent_commands) m) as Hm end.
      { unfold CreateAuditEvents, insert_audit_rows. frames. }
      specialize (Hm e st1). by rewrite Haud in Hm. }
    injection Hr as <- <-. rewrite Forall2_fmap_l in Hq.
    pose proof (Forall2_length _ _ _ Hq) as Hlen. split_and!.
    + rewrite <-list_fmap_compose. apply fst_zip. lia.
    + left. intros r ([n c] & -> & Hin)%list_elem_of_fmap. exists n, c. split; [done|].
      apply elem_of_lookup_zip_with_1 in Hin as (i & n' & c' & [= <- <-] & Hn & Hc').
      destruct (Forall2_lookup_lr _ _ _ _ _ _ Hq Hn Hc') as (? & ? & ? & row & ? & ? & ?).
      split_and!; [done..|]. exists row. by rewrite Hc.
    + intros k r Hk Hk'. rewrite Hc in Hk'. apply (Hnew k r Hk) in Hk'.
      destruct Hk' as (i & c & Hkey & Hc' & Hid). rewrite list_lookup_fmap in Hkey.
      apply fmap_Some in Hkey as (n & Hn & Hkey). exists n, c. split; [|split; [done|exact Hid]].
      apply list_elem_of_fmap. exists (n, c). split; [done|]. apply elem_of_lookup_zip_with. by exists i, n, c.
  - apply QueueAgentCommands_err in Hq. injection Hr as <- <-. rewrite Hq. split_and!.
    + rewrite <-list_fmap_compose. apply list_fmap_id.
    + right. split; [|done]. by intros r (n & -> & _)%list_elem_of_fmap.
    + congruence.
Qed.

(** ** Targets *)

Section batch.
Context (uuid_Parse : string → option UUID).

Lemma node_of_request_ok id t e st n st' : node_of_request uuid_Parse id t e st = (Ok n, st') →
  st_db st' = st_db st ∧ uuid_Parse id = Some (N_ID n) ∧ N_TenantID n = t.
Proof.
  unfold node_of_request, getTenantNodeRecord. intros Hr. apply bind_ok in Hr as (r & st1 & Hq%attempt_ok & Hr).
  destruct r as [n'|x]; [injection Hr as -> ->|unfold writeNodeLookupError in Hr; by repeat case_match].
  destruct (uuid_Parse id) as [u|]; [|done].
  apply bind_ok in Hq as (o & st2 & [Ho Hdb]%query_ok & Hq). destruct (nodes (st_db st) !! u) as [row|]; [|by subst o].
  cbn in Ho. subst o. destruct (String.eqb_spec (N_TenantID (scanNode u row)) t) as [Ht|]; [|done].
  cbn [negb] in Hq. case_match; [done|]. injection Hq as <- <-. done.
Qed.
Lemma batch_targets_ok ids t e st ns st' : batch_targets uuid_Parse ids t e st = (Ok ns, st') →
  st_db st' = st_db st ∧ (ids ≠ [] → Forall2 (λ id n, uuid_Parse id = Some (N_ID n) ∧ N_TenantID n = t) ids ns).
Proof.
  unfold batch_targets. destruct ids as [|i ids].
  - intros Hr. split; [|done]. match type of Hr with ?m _ _ = _ => assert (changes (same id) m) as Hm end.
    { unfold GetNodesByTenantPage, listNodes. cbv zeta. chg. }
    specialize (Hm e st). by rewrite Hr in Hm.
  - intros Hr. apply (map_each_ok _ _ _ _ _ _ (λ id n, uuid_Parse id = Some (N_ID n) ∧ N_TenantID n = t)) in Hr as [? ?];
      [done|intros ? ? ? ? Hx; by apply node_of_request_ok in Hx as [? _]|].
    intros id st1 n st2 _ Hx. by apply node_of_request_ok in Hx as (_ & ? & ?).
Qed.

(** C29. The answer of a batch of commands is what happened.  There is one result
    per target, in the order of the request, each for the node of the tenant that
    was named; the counts are those of the results.  A result that says queued
    names a new command of the requested kind that waits for that node, and a target
    whose status forbids commands has failed.  A node got a command only where a
    result for it says queued, and when no node is named twice each new command is
    the one a result names.  (The two commands of a node that is named twice are
    answered with one identifier: [target_named_twice].) *)
Theorem batch_answers_truth ctx body t e st total success failed results st' :
  handleTenantBatchAgentCommand uuid_Parse ctx (Some body) t e st =
    (Ok (BatchProcessed total success failed results), st') →
  (br_NodeIDs body ≠ [] →
     Forall2 (λ id r, uuid_Parse id = Some (N_ID (result_node r)) ∧ N_TenantID (result_node r) = t)
       (br_NodeIDs body) results) ∧
  total = Z.of_nat (length results) ∧ success + failed = total ∧
  success = Z.of_nat (length (filter (λ r, queued_ok r = true) results)) ∧
  (∀ node cmd, TargetQueued node cmd ∈ results → active_target node = true ∧
     queued_for (TrimSpace (vr_Command (br_Command body))) (N_PublicKey node) cmd (st_db st) (st_db st')) ∧
  (∀ k r, agent_commands (st_db st) !! k = None → agent_commands (st_db st') !! k = Some r →
     ∃ node cmd, TargetQueued node cmd ∈ results ∧ N_PublicKey node = ac_node_public_key r ∧
       (NoDup (N_PublicKey ∘ result_node <$> results) → ID cmd = k)).
Proof.
  unfold handleTenantBatchAgentCommand. intros Hr. apply bind_ok in Hr as (b & st1 & Hb & Hr).
  injection Hb as <- <-. apply bind_ok in Hr as (req & st2 & Hreq & Hr).
  assert (st_db st2 = st_db st ∧ TrimSpace (vr_Command req) = TrimSpace (vr_Command (br_Command body))) as [Hdb2 Hcmd].
  { unfold checked_command in Hreq. case_match; [done|]. cbv zeta in Hreq. case_match; [done|].
    injection Hreq as <- <-. split; [done|]. case_match; apply TrimSpace_idemp. }
  apply bind_ok in Hr as (ns & st3 & [Hdb3 Hids]%batch_targets_ok & Hr).
  destruct ns as [|n0 rest] eqn:Hns; [done|]. rewrite <-Hns in Hids, Hr.
  apply bind_ok in Hr as (answers & st4 & (Hnodes & Htrue & Hnew)%queue_batch_ok & Hr).
  cbv zeta in Hr. injection Hr as <- <- <- <- <-.
  destruct (batch_results_ok ns answers Hnodes) as (Hres & Hfrom & Hin).
  rewrite Hdb3, Hdb2, Hcmd in *. rewrite <-Hres in Hids |- *. rewrite length_fmap.
  assert (batch_results (result_node <$> batch_results ns answers) answers = batch_results ns answers) as Heq
    by by rewrite Hres.
  rewrite Heq. split_and!; [|done|lia|done|..].
  - intros Hne. specialize (Hids Hne). by rewrite Forall2_fmap_r in Hids.
  - intros node cmd Hq. destruct (Hfrom _ Hq) as [Ha|[_ ?]]; [|done]. split.
    + assert (node ∈ result_node <$> answers) as Hn by (apply list_elem_of_fmap; by exists (TargetQueued node cmd)).
      rewrite Hnodes in Hn. by apply list_elem_of_filter in Hn as [? _].
    + destruct Htrue as [Htrue|[Hfalse _]]; [|by specialize (Hfalse _ Ha)].
      by destruct (Htrue _ Ha) as (n & c & [= -> ->] & ?).
  - intros k r Hk Hk'. destruct (Hnew k r Hk Hk') as (node & cmd & Ha & Hkey & Hid). exists node, cmd.
    split_and!; [by apply Hin|done|]. intros Hnd. apply Hid. rewrite list_fmap_compose, Hres in Hnd.
    eapply sublist_NoDup; [exact Hnd|]. apply fmap_sublist, sublist_filter.
Qed.
End batch.

(** ** A batch *)

Definition batch_db : DB :=
  let node key status := mkNodeRow key "m" "t1" "" "" "" "eu" "" "edge" "" 2 0 0 "agent" None None None
                           (Some status) None [] None 3 0 0 in
  empty_db <| tenants := {["t1" := mkTenantRow "T" None None None (Some "active") None 0 0]} |>
    <| nodes := <["n1" := node "k1" "online"]> {["n2" := node "k2" "suspended"]} |>.
Definition sync_batch (ids : list string) : v2BatchAgentCommandRequest :=
  mkBatchRequest ids (mkCommandRequest " sync " None 0 5).
Definition no_context : Context := mkContext None None None None.
Lemma batch_answers_truth_witness :
  ∃ results st', handleTenantBatchAgentCommand Some no_context (Some (sync_batch ["n2"; "n1"])) "t1" (env_at 1)
      (mkSt batch_db 0) = (Ok (BatchProcessed 2 1 1 results), st') ∧
    ∀ node cmd, TargetQueued node cmd ∈ results →
      queued_for "sync" (N_PublicKey node) cmd batch_db (st_db st').
Proof.
  destruct (handleTenantBatchAgentCommand Some no_context (Some (sync_batch ["n2"; "n1"])) "t1" (env_at 1)
    (mkSt batch_db 0)) as [res st'] eqn:Hrun.
  assert (match res with Ok (BatchProcessed 2 1 1 _) => true | _ => false end = true) as Hok
    by (change res with (res, st').1; rewrite <-Hrun; vm_compute; reflexivity).
  destruct res as [[| | |total success failed results]|]; try discriminate Hok.
  assert (total = 2 ∧ success = 1 ∧ failed = 1) as (-> & -> & ->).
  { destruct total as [|[|[]|]|]; try discriminate Hok. destruct success as [|[]|]; try discriminate Hok.
    destruct failed as [|[]|]; try discriminate Hok. exact (conj eq_refl (conj eq_refl eq_refl)). }
  exists results, st'. split; [exact eq_refl|]. intros node cmd Hin.
  exact (proj2 (proj1 (proj2 (proj2 (proj2 (proj2 (batch_answers_truth Some no_context (sync_batch ["n2"; "n1"])
    "t1" (env_at 1) (mkSt batch_db 0) 2 1 1 results st' Hrun)))))  node cmd Hin)).
Defined.
(** A node that is named twice is given two commands; both results name the last. *)
Example target_named_twice :
  let run := handleTenantBatchAgentCommand Some no_context (Some (sync_batch ["n1"; "n1"])) "t1" (env_at 1)
    (mkSt batch_db 0) in
  match run.1 with
  | Ok (BatchProcessed 2 2 0 [TargetQueued _ a; TargetQueued _ b]) => (ID a =? ID b)%string
  | _ => false
  end && (size (agent_commands (st_db run.2)) =? 2)%nat = true.
Proof. vm_compute. reflexivity. Qed.
