(* ===== verification/Relations.v ===== *)
(** * Tables by name

    The backups of [internal/api/v2/settings.go] work on tables by name, with
    their columns as a list of texts, so this file gives the schema of
    [postgres.go] as data: the NOT NULL columns, defaults, unique and foreign keys
    of the tables, and the two statements a restore is made of, an INSERT of some
    columns and a DELETE of a whole table with the actions of the foreign keys. *)

From S2P Require Import Prelude GoStr Records Store.

Open Scope Z_scope.

(** The value of a column that is not NULL, as the driver gives it; the time of a
    timestamp is its RFC 3339 text. *)
Inductive sqlval :=
  | SqlInt (n : Z)
  | SqlFloat (printed : string)
  | SqlBool (b : bool)
  | SqlText (s : string)
  | SqlArray (items : list string).
#[export] Instance sqlval_eq_dec : EqDecision sqlval.
Proof. solve_decision. Defined.

(** A row is a map from its columns that are not NULL. *)
Abbreviation columns := (gmap string sqlval).
Abbreviation tables := (gmap string (list columns)).
Definition rows_of (db : tables) (t : string) : list columns := default [] (db !! t).

(** ** The schema *)

Inductive delete_action := NoAction | Cascade | SetNull.
Record ForeignKey := mkForeignKey {
  fk_column : string;
  fk_parent : string;           (* whose column id it refers to *)
  fk_action : delete_action;
}.
Inductive column_default := DefaultValue (v : sqlval) | DefaultNow | DefaultUUID.
Record TableSchema := mkTableSchema {
  ts_name : string;
  ts_not_null : list string;
  ts_defaults : list (string * column_default);
  ts_unique : list (list string);
  ts_foreign : list ForeignKey;
}.

Abbreviation refers c t := (mkForeignKey c t NoAction).
Abbreviation belongs c t := (mkForeignKey c t Cascade).
Definition created : list (string * column_default) :=
  [("id", DefaultUUID); ("created_at", DefaultNow)].
Definition stamped : list (string * column_default) := created ++ [("updated_at", DefaultNow)].

Definition tenants_schema := mkTableSchema "tenants" ["id"; "name"]
  (stamped ++ [("status", DefaultValue (SqlText "active")); ("resource_quota", DefaultValue (SqlText "{}"))])
  [["id"]; ["code"]] [].
Definition nodes_schema := mkTableSchema "nodes"
  ["id"; "public_key"; "machine_id"; "ip_offset"; "last_seen"; "registered_at"; "runtime_token_version"]
  (stamped ++ [("ip_offset", DefaultValue (SqlInt 0)); ("role", DefaultValue (SqlText "spoke"));
    ("runtime_token_version", DefaultValue (SqlInt 0)); ("runtime_mode", DefaultValue (SqlText "kernel"));
    ("has_aesni", DefaultValue (SqlBool false)); ("status", DefaultValue (SqlText "online"));
    ("advertised_routes", DefaultValue (SqlArray []))])
  [["id"]; ["public_key"]] [refers "tenant_id" "tenants"].
Definition tokens_schema := mkTableSchema "tokens" ["id"; "token"; "max_uses"; "used_count"; "expires_at"]
  (created ++ [("max_uses", DefaultValue (SqlInt 1)); ("used_count", DefaultValue (SqlInt 0));
    ("status", DefaultValue (SqlText "active"))])
  [["id"]; ["token"]] [refers "tenant_id" "tenants"].
Definition users_schema := mkTableSchema "users" ["id"; "username"; "password_hash"; "token_version"]
  (stamped ++ [("role", DefaultValue (SqlText "viewer")); ("must_change_password", DefaultValue (SqlBool false));
    ("token_version", DefaultValue (SqlInt 0))])
  [["id"]; ["username"]] [refers "tenant_id" "tenants"].
Definition ip_groups_schema := mkTableSchema "ip_groups" ["id"; "tenant_id"; "name"; "kind"]
  (stamped ++ [("description", DefaultValue (SqlText "")); ("kind", DefaultValue (SqlText "custom"))])
  [["id"]; ["tenant_id"; "name"]]
  [belongs "tenant_id" "tenants"; mkForeignKey "created_by" "users" SetNull].
Definition ip_group_members_schema := mkTableSchema "ip_group_members" ["id"; "tenant_id"; "group_id"; "cidr"]
  (created ++ [("note", DefaultValue (SqlText ""))]) [["id"]; ["group_id"; "cidr"]]
  [belongs "tenant_id" "tenants"; belongs "group_id" "ip_groups"].
Definition acl_rules_schema := mkTableSchema "acl_rules"
  ["id"; "src_net"; "dst_net"; "protocol"; "min_port"; "max_port"]
  (stamped ++ [("protocol", DefaultValue (SqlInt 0)); ("min_port", DefaultValue (SqlInt 0));
    ("max_port", DefaultValue (SqlInt 65535)); ("direction", DefaultValue (SqlText "ingress"));
    ("enabled", DefaultValue (SqlBool true)); ("priority", DefaultValue (SqlInt 100));
    ("action", DefaultValue (SqlText "allow"))])
  [["id"]]
  [refers "tenant_id" "tenants"; refers "node_id" "nodes"; refers "src_group_id" "ip_groups";
   refers "dst_group_id" "ip_groups"].
Definition qos_rules_schema := mkTableSchema "qos_rules" ["id"; "tenant_id"; "node_id"; "bandwidth_mbps"]
  (stamped ++ [("enabled", DefaultValue (SqlBool true)); ("direction", DefaultValue (SqlText "egress"));
    ("priority", DefaultValue (SqlInt 100)); ("mode", DefaultValue (SqlText "auto"))])
  [["id"]] [refers "tenant_id" "tenants"; refers "node_id" "nodes"; refers "group_id" "ip_groups"].
Definition blacklist_rules_schema := mkTableSchema "blacklist_rules" ["id"; "tenant_id"; "node_id"; "scope"]
  (stamped ++ [("enabled", DefaultValue (SqlBool true))])
  [["id"]] [refers "tenant_id" "tenants"; refers "node_id" "nodes"].
Definition roles_schema := mkTableSchema "roles" ["id"; "tenant_id"; "name"; "permissions"]
  (stamped ++ [("description", DefaultValue (SqlText "")); ("is_system", DefaultValue (SqlBool false));
    ("permissions", DefaultValue (SqlArray []))])
  [["id"]; ["tenant_id"; "name"]] [belongs "tenant_id" "tenants"].
Definition audit_events_schema := mkTableSchema "audit_events"
  ["id"; "tenant_id"; "event_type"; "actor"; "summary"; "detail"]
  (created ++ [("actor", DefaultValue (SqlText "system")); ("detail", DefaultValue (SqlText "{}"))])
  [["id"]] [refers "tenant_id" "tenants"; refers "node_id" "nodes"].

(** Of the tables no statement here inserts into, the keys. *)
Definition schema : list TableSchema :=
  [tenants_schema; nodes_schema;
   mkTableSchema "ip_pools" ["id"; "cidr"] [] [["id"]; ["tenant_id"; "cidr"]] [refers "tenant_id" "tenants"];
   mkTableSchema "ip_allocations" ["id"; "ip_address"; "ip_offset"] [] [["id"]; ["pool_id"; "ip_offset"]; ["node_id"]]
     [refers "pool_id" "ip_pools"; refers "node_id" "nodes"];
   mkTableSchema "tunnel_links" ["id"] [] [["id"]; ["src_node_id"; "dst_node_id"]]
     [refers "src_node_id" "nodes"; refers "dst_node_id" "nodes"];
   mkTableSchema "device_configs" ["id"; "version"; "config_body"] [] [["id"]; ["node_id"; "version"]]
     [refers "node_id" "nodes"];
   tokens_schema; users_schema; ip_groups_schema; ip_group_members_schema; acl_rules_schema;
   qos_rules_schema; blacklist_rules_schema;
   mkTableSchema "agent_commands" ["id"; "node_public_key"; "command"] [] [["id"]] [];
   mkTableSchema "policy_deliveries" ["id"; "tenant_id"; "node_id"; "command_id"] [] [["id"]]
     [refers "tenant_id" "tenants"; refers "node_id" "nodes"; belongs "command_id" "agent_commands"];
   mkTableSchema "node_control_states" ["node_id"; "tenant_id"] [] [["node_id"]]
     [belongs "node_id" "nodes"; refers "tenant_id" "tenants"];
   mkTableSchema "node_policy_stats" ["node_id"; "tenant_id"] [] [["node_id"]]
     [belongs "node_id" "nodes"; refers "tenant_id" "tenants"];
   mkTableSchema "alerts" ["id"; "tenant_id"] [] [["id"]] [refers "tenant_id" "tenants"; refers "node_id" "nodes"];
   audit_events_schema; roles_schema;
   mkTableSchema "node_certificates" ["id"; "tenant_id"; "node_id"] [] [["id"]; ["node_id"]]
     [belongs "tenant_id" "tenants"; belongs "node_id" "nodes"; refers "renewed_from" "node_certificates"]].

Definition schema_of (t : string) : option TableSchema :=
  find (λ s, (ts_name s =? t)%string) schema.
Definition foreign_keys (t : string) : list ForeignKey :=
  match schema_of t with Some s => ts_foreign s | None => [] end.
Definition not_null_of (t : string) : list string :=
  match schema_of t with Some s => ts_not_null s | None => [] end.

(** ** Constraints *)

(** The row a foreign key refers to exists, or the key is NULL. *)
Definition resolves (db : tables) (row : columns) (fk : ForeignKey) : bool :=
  match row !! fk_column fk with
  | None => true
  | Some v => existsb (λ p : columns, bool_decide (p !! "id" = Some v)) (rows_of db (fk_parent fk))
  end.
Definition intact_row (db : tables) (t : string) (row : columns) : bool :=
  forallb (resolves db row) (foreign_keys t).
Definition intact (db : tables) : Prop :=
  ∀ t row, row ∈ rows_of db t → intact_row db t row = true.
Definition intactb (db : tables) : bool :=
  forallb (λ tr, forallb (intact_row db tr.1) tr.2) (map_to_list db).

Definition filled (t : string) (row : columns) : bool :=
  forallb (λ c, bool_decide (is_Some (row !! c))) (not_null_of t).
Definition same_key (key : list string) (a b : columns) : bool :=
  forallb (λ c, bool_decide (is_Some (a !! c)) && bool_decide (a !! c = b !! c)) key.
Definition distinct_from (t : string) (row : columns) (others : list columns) : bool :=
  forallb (λ key, negb (existsb (same_key key row) others))
    (match schema_of t with Some s => ts_unique s | None => [] end).

(** ** Statements *)

Section statements.
(** The types and CHECK constraints of the columns: what PostgreSQL accepts. *)
Context (accepts : string → columns → bool).

Definition default_value (now : Time) (fresh : UUID) (d : column_default) : sqlval :=
  match d with
  | DefaultValue v => v
  | DefaultNow => SqlText (RFC3339 now)
  | DefaultUUID => SqlText fresh
  end.
(** The row of an INSERT that names some columns. *)
Definition new_row (now : Time) (fresh : UUID) (t : string) (vals : list (string * option sqlval)) : columns :=
  omap id (list_to_map vals : gmap string (option sqlval)) ∪
  list_to_map ((λ cd, (cd.1, default_value now fresh cd.2)) <$>
    filter (λ cd, cd.1 ∉ vals.*1) (match schema_of t with Some s => ts_defaults s | None => [] end)).
Definition insert_row (t : string) (row : columns) (db : tables) : result tables :=
  if negb (accepts t row) then Err (ErrConstraint "type or check") else
  if negb (filled t row) then Err (ErrConstraint "not null") else
  if negb (distinct_from t row (rows_of db t)) then Err (ErrConstraint "unique") else
  if negb (intact_row db t row) then Err (ErrConstraint "foreign key") else
  Ok (<[t := rows_of db t ++ [row]]> db).
End statements.

(** Rows whose parent is gone by a key that cascades are removed, along chains
    of such keys; no chain is longer than the number of tables. *)
Definition cascade_step (db : tables) : tables :=
  map_imap (λ t rs, Some (filter (λ row : columns,
    forallb (λ fk, match fk_action fk with Cascade => resolves db row fk | _ => true end)
      (foreign_keys t) = true) rs)) db.
Definition clear_nulls (db : tables) : tables :=
  map_imap (λ t rs, Some (map (λ row : columns,
    foldr (λ fk r, match fk_action fk with
                   | SetNull => if resolves db row fk then r else delete (fk_column fk) r
                   | _ => r
                   end) row (foreign_keys t)) rs)) db.
(** [DELETE FROM t]. *)
Definition delete_from (t : string) (db : tables) : result tables :=
  let gone := <[t := []]> db in
  let db' := clear_nulls (Nat.iter (length schema) cascade_step gone) in
  if intactb db' then Ok db' else Err (ErrConstraint "foreign key").

(** ** Lemmas *)

Lemma rows_of_insert db t rs : rows_of (<[t := rs]> db) t = rs.
Proof. unfold rows_of. by rewrite lookup_insert_eq. Qed.
Lemma rows_of_insert_ne db t u rs : t ≠ u → rows_of (<[t := rs]> db) u = rows_of db u.
Proof. intros. unfold rows_of. by rewrite lookup_insert_ne. Qed.
Lemma rows_of_lookup db t row : row ∈ rows_of db t → ∃ rs, db !! t = Some rs ∧ row ∈ rs.
Proof. unfold rows_of. destruct (db !! t); simpl; [eauto|by intros ?%elem_of_nil]. Qed.

Lemma intactb_spec db : intactb db = true ↔ intact db.
Proof.
  unfold intactb, intact. rewrite forallb_forall. split.
  - intros H t row (rs & Hrs & Hrow)%rows_of_lookup.
    apply elem_of_map_to_list, list_elem_of_In in Hrs. specialize (H _ Hrs).
    rewrite forallb_forall in H. by apply H, list_elem_of_In.
  - intros H [t rs] Hin%list_elem_of_In%elem_of_map_to_list. apply forallb_forall.
    intros row Hrow%list_elem_of_In. simpl in *. apply H. unfold rows_of. by rewrite Hin.
Qed.

Lemma filter_keep {A} (P : A → Prop) `{∀ x, Decision (P x)} l : Forall P l → filter P l = l.
Proof. induction 1; [done|]. rewrite filter_cons_True by done. by f_equal. Qed.

Lemma filter_drop {A} (P : A → Prop) `{∀ x, Decision (P x)} l : (∀ x, x ∈ l → ¬ P x) → filter P l = [].
Proof.
  intros Hl. destruct (filter P l) as [|x k] eqn:Hf; [done|]. exfalso.
  assert (x ∈ filter P l) as Hx by (rewrite Hf; by left).
  apply elem_of_filter_list in Hx as [HP Hx]. by apply (Hl x).
Qed.

(** A key resolves by the rows of its parent alone. *)
Lemma resolves_ext db db' row fk :
  rows_of db' (fk_parent fk) = rows_of db (fk_parent fk) → resolves db' row fk = resolves db row fk.
Proof. unfold resolves. by intros ->. Qed.

Lemma cascade_step_intact db : intact db → cascade_step db = db.
Proof.
  intros Hi. unfold cascade_step. apply map_eq. intros t. rewrite map_lookup_imap.
  destruct (db !! t) as [rs|] eqn:Hrs; simpl; [|done]. f_equal. apply filter_keep, Forall_forall.
  intros row Hrow. assert (intact_row db t row = true) as Hr.
  { apply Hi. unfold rows_of. by rewrite Hrs. }
  unfold intact_row in Hr. rewrite forallb_forall in *. intros fk Hfk.
  destruct (fk_action fk); auto.
Qed.
Lemma clear_nulls_intact db : intact db → clear_nulls db = db.
Proof.
  intros Hi. unfold clear_nulls. apply map_eq. intros t. rewrite map_lookup_imap.
  destruct (db !! t) as [rs|] eqn:Hrs; simpl; [|done]. f_equal.
  rewrite <-(map_id rs) at 2. apply map_ext_in. intros row Hrow%list_elem_of_In.
  assert (intact_row db t row = true) as Hr.
  { apply Hi. unfold rows_of. by rewrite Hrs. }
  unfold intact_row in Hr. induction (foreign_keys t) as [|fk l IH]; simpl in *; [done|].
  bools. rewrite IH by done. destruct (fk_action fk); try done. by rewrite H.
Qed.
Lemma iter_fixed {A} (f : A → A) n x : f x = x → Nat.iter n f x = x.
Proof. intros Hf. induction n as [|n IH]; simpl; [done|]. by rewrite IH. Qed.
(** After a step that restores the keys nothing more happens. *)
Lemma delete_from_step t db :
  intact (cascade_step (<[t := []]> db)) → delete_from t db = Ok (cascade_step (<[t := []]> db)).
Proof.
  intros Hi. unfold delete_from.
  assert (Nat.iter (length schema) cascade_step (<[t := []]> db) = cascade_step (<[t := []]> db)) as ->.
  { change (length schema) with (S 20). rewrite Nat.iter_succ_r.
    apply iter_fixed. by apply cascade_step_intact. }
  rewrite clear_nulls_intact by done. by rewrite (proj2 (intactb_spec _) Hi).
Qed.

(** No row of another table refers to [t]. *)
Definition unreferenced (db : tables) (t : string) : Prop :=
  ∀ u, u ≠ t → (∃ fk, fk ∈ foreign_keys u ∧ fk_parent fk = t) → rows_of db u = [].
Lemma intact_without db t : intact db → unreferenced db t → intact (<[t := []]> db).
Proof.
  intros Hi Hu u row Hrow. destruct (decide (u = t)) as [->|Hne].
  { rewrite rows_of_insert in Hrow. by apply elem_of_nil in Hrow. }
  rewrite rows_of_insert_ne in Hrow by done. pose proof (Hi u row Hrow) as Hr.
  unfold intact_row in *. rewrite forallb_forall in *. intros fk Hfk.
  rewrite <-(Hr fk Hfk). apply resolves_ext. destruct (decide (t = fk_parent fk)) as [Heq|]; [|by apply rows_of_insert_ne].
  rewrite (Hu u Hne) in Hrow; [by apply elem_of_nil in Hrow|].
  exists fk. split; [by apply list_elem_of_In|done].
Qed.
Lemma delete_unreferenced t db :
  intact db → unreferenced db t → delete_from t db = Ok (<[t := []]> db).
Proof.
  intros Hi Hu. pose proof (intact_without db t Hi Hu) as Hi'.
  rewrite delete_from_step; [by rewrite cascade_step_intact|by rewrite cascade_step_intact].
Qed.

(** The tables that refer to [t]. *)
Definition referrers (t : string) : list string :=
  ts_name <$> filter (λ s, existsb (λ fk, (fk_parent fk =? t)%string) (ts_foreign s) = true) schema.
Lemma foreign_keys_referrer u t fk :
  fk ∈ foreign_keys u → fk_parent fk = t → u ∈ referrers t.
Proof.
  unfold foreign_keys. destruct (schema_of u) as [s|] eqn:Hs; [|by intros ?%elem_of_nil].
  intros Hfk Hp. unfold schema_of in Hs. apply find_some in Hs as [Hin Hn%String.eqb_eq].
  unfold referrers. apply list_elem_of_fmap. exists s. split; [done|]. apply elem_of_filter_list.
  split; [|by apply list_elem_of_In]. apply existsb_exists. exists fk.
  split; [by apply list_elem_of_In|]. by apply String.eqb_eq.
Qed.
Lemma unreferenced_by db t :
  Forall (λ u, u = t ∨ rows_of db u = []) (referrers t) → unreferenced db t.
Proof.
  intros Hf u Hne (fk & Hfk & Hp). rewrite Forall_forall in Hf.
  destruct (Hf u (foreign_keys_referrer u t fk Hfk Hp)); done.
Qed.

(** ** Deleting several tables *)

Fixpoint delete_each (l : list string) (db : tables) : result tables :=
  match l with [] => Ok db | t :: l' => db' ← delete_from t db; delete_each l' db' end.
(** Each table of the list goes after the tables that refer to it. *)
Fixpoint children_first (emptied l : list string) : bool :=
  match l with
  | [] => true
  | t :: l' => forallb (λ u, bool_decide (u ∈ t :: emptied)) (referrers t) && children_first (t :: emptied) l'
  end.
Lemma delete_each_app l1 l2 db :
  delete_each (l1 ++ l2) db = (db' ← delete_each l1 db; delete_each l2 db').
Proof.
  revert db. induction l1 as [|t l1 IH]; intros db; [done|]. cbn [app delete_each mbind result_bind].
  destruct (delete_from t db); simpl; [apply IH|done].
Qed.
Lemma delete_each_cons t l db db' : delete_from t db = Ok db' → delete_each (t :: l) db = delete_each l db'.
Proof. cbn [delete_each]. by intros ->. Qed.
Lemma delete_each_after l1 l2 db db' : delete_each l1 db = Ok db' → delete_each (l1 ++ l2) db = delete_each l2 db'.
Proof. rewrite delete_each_app. by intros ->. Qed.
Lemma delete_each_children_first l emptied db :
  intact db → (∀ u, u ∈ emptied → rows_of db u = []) → children_first emptied l = true →
  ∃ db', delete_each l db = Ok db' ∧ intact db' ∧
    (∀ u, u ∈ emptied ++ l → rows_of db' u = []) ∧ (∀ u, u ∉ l → rows_of db' u = rows_of db u).
Proof.
  revert emptied db. induction l as [|t l IH]; intros emptied db Hi He Hc.
  { exists db. rewrite app_nil_r. by split_and!. }
  cbn [children_first] in Hc. bools. rename H into Hr. rename H0 into Hc.
  assert (unreferenced db t) as Hu.
  { apply unreferenced_by, Forall_forall. intros u Hin. rewrite forallb_forall in Hr.
    specialize (Hr u (proj1 (list_elem_of_In _ _) Hin)). bools.
    apply elem_of_cons in Hr as [->|]; [by left|right; by apply He]. }
  destruct (IH (t :: emptied) (<[t := []]> db)) as (db' & Hd & Hi' & He' & Hk).
  - by apply intact_without.
  - intros u Hin. destruct (decide (u = t)) as [->|]; [apply rows_of_insert|].
    rewrite rows_of_insert_ne by done. apply He. by apply elem_of_cons in Hin as [->|].
  - done.
  - exists db'. cbn [delete_each]. rewrite delete_unreferenced by done. split_and!; [exact Hd|done|..].
    + intros u Hin. apply He'. set_solver.
    + intros u Hin. rewrite Hk by set_solver. apply rows_of_insert_ne. set_solver.
Qed.

Lemma rows_of_cascade_step db t :
  rows_of (cascade_step db) t = filter (λ row : columns,
    forallb (λ fk, match fk_action fk with Cascade => resolves db row fk | _ => true end)
      (foreign_keys t) = true) (rows_of db t).
Proof. unfold rows_of, cascade_step. rewrite map_lookup_imap. by destruct (db !! t). Qed.
Lemma resolves_gone db row fk v :
  row !! fk_column fk = Some v → rows_of db (fk_parent fk) = [] → resolves db row fk = false.
Proof. unfold resolves. by intros -> ->. Qed.

(** A table whose only remaining children, the rows of [u], go with it. *)
Lemma delete_cascading t u db fk :
  intact db → u ≠ t →
  Forall (λ v, v = t ∨ v = u ∨ rows_of db v = []) (referrers t) →
  Forall (λ v, v = u ∨ rows_of db v = []) (referrers u) →
  fk ∈ foreign_keys u → fk_parent fk = t → fk_action fk = Cascade →
  (∀ row, row ∈ rows_of db u → is_Some (row !! fk_column fk)) →
  ∃ db', delete_from t db = Ok db' ∧ intact db' ∧ rows_of db' t = [] ∧ rows_of db' u = [] ∧
    ∀ v, v ≠ t → v ≠ u → rows_of db' v = rows_of db v.
Proof.
  intros Hi Hne Ht Hu Hfk Hp Ha Hsome. rewrite Forall_forall in Ht, Hu.
  set (gone := <[t := []]> db). set (db' := cascade_step gone).
  assert (rows_of db' t = []) as H1.
  { unfold db', gone. by rewrite rows_of_cascade_step, rows_of_insert. }
  assert (rows_of db' u = []) as H2.
  { unfold db'. rewrite rows_of_cascade_step. apply filter_drop. intros row Hrow Hall.
    unfold gone in Hrow. rewrite rows_of_insert_ne in Hrow by done.
    rewrite forallb_forall in Hall. specialize (Hall fk (proj1 (list_elem_of_In _ _) Hfk)).
    rewrite Ha in Hall. destruct (Hsome row Hrow) as [v Hv].
    rewrite (resolves_gone gone row fk v Hv) in Hall; [done|].
    rewrite Hp. unfold gone. apply rows_of_insert. }
  assert (∀ v row fk', v ≠ t → v ≠ u → row ∈ rows_of db v → fk' ∈ foreign_keys v →
    fk_parent fk' ≠ t ∧ fk_parent fk' ≠ u ∧ resolves db row fk' = true) as Hstay.
  { intros v row fk' Hvt Hvu Hrow Hin. pose proof (Hi v row Hrow) as Hr.
    unfold intact_row in Hr. rewrite forallb_forall in Hr.
    split_and!; [| |by apply Hr, list_elem_of_In].
    - intros Heq. destruct (Ht v (foreign_keys_referrer v t fk' Hin Heq)) as [|[|Hz]]; [done|done|].
      rewrite Hz in Hrow. by apply elem_of_nil in Hrow.
    - intros Heq. destruct (Hu v (foreign_keys_referrer v u fk' Hin Heq)) as [|Hz]; [done|].
      rewrite Hz in Hrow. by apply elem_of_nil in Hrow. }
  assert (∀ v, v ≠ t → v ≠ u → rows_of db' v = rows_of db v) as H3.
  { intros v Hvt Hvu. unfold db'. rewrite rows_of_cascade_step. 
    replace (rows_of gone v) with (rows_of db v) by (unfold gone; by rewrite rows_of_insert_ne).
    apply filter_keep, Forall_forall. intros row Hrow.
    apply forallb_forall. intros fk' Hin%list_elem_of_In.
    destruct (Hstay v row fk' Hvt Hvu Hrow Hin) as (Hn & _ & Hres).
    destruct (fk_action fk'); try done. rewrite <-Hres. apply resolves_ext, rows_of_insert_ne. done. }
  assert (intact db') as Hi'.
  { intros v row Hrow. destruct (decide (v = t)) as [->|Hvt]; [rewrite H1 in Hrow; by apply elem_of_nil in Hrow|].
    destruct (decide (v = u)) as [->|Hvu]; [rewrite H2 in Hrow; by apply elem_of_nil in Hrow|].
    rewrite H3 in Hrow by done. apply forallb_forall. intros fk' Hin%list_elem_of_In.
    destruct (Hstay v row fk' Hvt Hvu Hrow Hin) as (Hn1 & Hn2 & Hres). rewrite <-Hres.
    apply resolves_ext, H3; done. }
  exists db'. split_and!; [by apply delete_from_step|done..].
Qed.
