(* ===== verification/Backup.v ===== *)
(** * Backups

    The configuration backups of [internal/api/v2/settings.go]: what a backup holds,
    which backups and which selections of tables may be restored, the restore
    transaction, and the handlers over the backup directory.  The tables are those
    of [Relations]. *)

From S2P Require Import Prelude GoStr Records Store PublicNetwork Sessions Relations.

Open Scope Z_scope.

(** ** Manifests *)

(** What [encoding/json] makes of a value: a number has its value when that is
    an integer, and a number, array or object carries the text [fmt] prints or
    [encoding/json] renders. *)
Inductive bvalue :=
  | BNull
  | BBool (b : bool)
  | BNumber (integral : option Z) (printed : string)
  | BString (s : string)
  | BArray (items : list string) (rendered : string)
  | BObject (printed rendered : string).
Abbreviation backup_item := (gmap string bvalue).
Inductive backup_row := RowObject (item : backup_item) | RowOther.

Record backupManifest := mkManifest {
  mf_Version : string;
  mf_CreatedAt : string;
  mf_CreatedBy : string;
  mf_SensitiveRedacted : bool;
  mf_Tables : gmap string (list backup_row);
}.
#[export] Instance backupManifest_eta : Eta backupManifest := λ m,
  mkManifest (mf_Version m) (mf_CreatedAt m) (mf_CreatedBy m) (mf_SensitiveRedacted m) (mf_Tables m).
Definition manifest_rows (m : backupManifest) (t : string) : list backup_row :=
  default [] (mf_Tables m !! t).

Definition Join (sep : string) (l : list string) : string := String.concat sep l.
Definition Sprint (v : bvalue) : string :=
  match v with
  | BNull => "<nil>"
  | BBool b => if b then "true" else "false"
  | BNumber _ printed => printed
  | BString s => s
  | BArray items _ => "[" +:+ Join " " items +:+ "]"
  | BObject printed _ => printed
  end.
Fixpoint eventDetailString (detail : backup_item) (keys : list string) : string :=
  match keys with
  | [] => ""
  | key :: keys =>
    match detail !! key with
    | None | Some BNull => eventDetailString detail keys
    | Some value =>
      let text := TrimSpace (Sprint value) in
      if negb (text =? "")%string && negb (text =? "<nil>")%string then text
      else eventDetailString detail keys
    end
  end.

Definition backupRestoreConfirmPhrase : string := "RESTORE ARIA CONFIG".
Definition backupSensitiveExportConfirmPhrase : string := "EXPORT SENSITIVE ARIA BACKUP".
Definition redactedSensitiveValue : string := "<redacted>".

Record backupTableSpec := mkSpec { bt_Name : string; bt_Columns : list string }.
Definition backupRestoreTables : list backupTableSpec :=
  [mkSpec "tenants" ["id"; "name"; "code"; "status"; "resource_quota"; "created_at"; "updated_at"];
   mkSpec "roles" ["id"; "tenant_id"; "name"; "description"; "is_system"; "permissions"; "created_at"; "updated_at"];
   mkSpec "users" ["id"; "username"; "password_hash"; "tenant_id"; "role"; "email"; "must_change_password";
     "created_at"; "last_login"];
   mkSpec "tokens" ["id"; "token"; "tag"; "tenant_id"; "max_uses"; "used_count"; "expires_at"; "created_at";
     "created_by"; "status"; "last_used_at"; "last_used_by"];
   mkSpec "nodes" ["id"; "public_key"; "machine_id"; "tenant_id"; "endpoint"; "private_ip"; "public_ip"; "region";
     "vpc_id"; "hostname"; "assigned_ip"; "ip_offset"; "last_seen"; "registered_at"; "role"; "runtime_mode";
     "kernel_version"; "has_aesni"; "status"; "offline_since"; "advertised_routes"; "enrolled_with_token";
     "created_at"; "updated_at"];
   mkSpec "ip_groups" ["id"; "tenant_id"; "name"; "description"; "kind"; "created_by"; "created_at"; "updated_at"];
   mkSpec "ip_group_members" ["id"; "tenant_id"; "group_id"; "cidr"; "note"; "created_at"];
   mkSpec "acl_rules" ["id"; "tenant_id"; "node_id"; "name"; "action"; "src_group_id"; "dst_group_id"; "src_cidr";
     "dst_cidr"; "dst_port"; "protocol"; "direction"; "ports"; "priority"; "enabled"; "description"; "created_at";
     "updated_at"];
   mkSpec "qos_rules" ["id"; "tenant_id"; "node_id"; "group_id"; "src_cidr"; "dst_cidr"; "src_port"; "dst_port";
     "protocol"; "bandwidth_mbps"; "direction"; "rate_bps"; "burst_bytes"; "priority"; "mode"; "enabled";
     "description"; "created_at"; "updated_at"];
   mkSpec "blacklist_rules" ["id"; "tenant_id"; "node_id"; "scope"; "cidr"; "port"; "enabled"; "description";
     "created_at"; "updated_at"]].
(** The exports select the same columns, in the order of the schema; of
    [must_change_password] NULL is exported as false. *)
Definition backupExportTables : list string :=
  ["tenants"; "users"; "roles"; "tokens"; "nodes"; "ip_groups"; "ip_group_members"; "acl_rules"; "qos_rules";
   "blacklist_rules"].
Definition backupRestoreCleanupTables : list string :=
  ["policy_deliveries"; "agent_commands"; "alerts"; "audit_events"; "blacklist_rules"; "qos_rules"; "acl_rules";
   "ip_group_members"; "ip_groups"; "node_control_states"; "node_certificates"; "device_configs"; "tunnel_links";
   "ip_allocations"; "ip_pools"; "users"; "roles"; "tokens"; "nodes"; "tenants"].
(** The map, in some order: Go's is random. *)
Definition backupSensitiveFields : list (string * list string) :=
  [("users", ["password_hash"]); ("tokens", ["token"]); ("nodes", ["enrolled_with_token"])].

(** ** Exports *)

(** The float64 nearest to an integer. *)
Definition float64 (n : Z) : Z :=
  let a := Z.abs n in
  let e := Z.log2 a - 52 in
  if e <=? 0 then n else
  let q := a / 2 ^ e in
  let r := a mod 2 ^ e in
  let up := (2 ^ (e - 1) <? r) || ((2 ^ (e - 1) =? r) && Z.odd q) in
  Z.sgn n * ((if up then q + 1 else q) * 2 ^ e).
(** [%v] of an integral float64, up to 2^53. *)
Fixpoint strip_zeros (rev_digits : text) : text :=
  match rev_digits with "0"%char :: l => strip_zeros l | l => l end.
Definition float_text (n : Z) : string :=
  let digits := String.list_ascii_of_string (Itoa (Z.abs n)) in
  let sign := if n <? 0 then "-" else "" in
  let exponent := Z.of_nat (length digits) - 1 in
  if exponent <? 6 then sign +:+ String.string_of_list_ascii digits else
  match digits with
  | d :: rest =>
    let mantissa := rev (strip_zeros (rev rest)) in
    sign +:+ String d "" +:+ (if bool_decide (mantissa = []) then "" else "." +:+ String.string_of_list_ascii mantissa)
    +:+ "e+" +:+ pad 2 exponent
  | [] => ""
  end.

(** [queryRowsAsObjects]: the value the driver gives for a column, with
    [normalizeSQLValue].  A text is a Go string; an array comes as the bytes of its
    literal, which are JSON exactly when it is empty; a JSON column as its decoded
    object. *)
Section exports.
Context (array_literal : list string → string).

Definition normalizeSQLValue (column : string) (v : option sqlval) : bvalue :=
  match v with
  | None => if (column =? "must_change_password")%string then BBool false else BNull
  | Some (SqlInt n) => BNumber (Some n) (Itoa n)
  | Some (SqlFloat printed) => BNumber None printed
  | Some (SqlBool b) => BBool b
  | Some (SqlText s) => if (column =? "resource_quota")%string then BObject s s else BString s
  | Some (SqlArray []) => BObject "map[]" "{}"
  | Some (SqlArray items) => BString (array_literal items)
  end.
Definition export_row (cols : list string) (row : columns) : backup_row :=
  RowObject (list_to_map ((λ c, (c, normalizeSQLValue c (row !! c))) <$> cols)).
Definition backup_columns (t : string) : list string :=
  match find (λ s, (bt_Name s =? t)%string) backupRestoreTables with
  | Some s => bt_Columns s
  | None => []
  end.
Definition queryRowsAsObjects (db : tables) (t : string) : list backup_row :=
  export_row (backup_columns t) <$> rows_of db t.

Definition redact_row (fields : list string) (row : backup_row) : backup_row :=
  match row with
  | RowObject item =>
    RowObject (foldr (λ field (item : backup_item),
      match item !! field with
      | Some _ => <[field := BString redactedSensitiveValue]> item
      | None => item
      end) item fields)
  | RowOther => RowOther
  end.
Definition redactBackupSensitiveFields (ts : gmap string (list backup_row)) : gmap string (list backup_row) :=
  foldr (λ tf acc, alter (map (redact_row tf.2)) tf.1 acc) ts backupSensitiveFields.

(** The manifest of the exported tables. *)
Definition assemble (now : Time) (createdBy : string) (includeSensitive : bool)
    (exported : list (string * list backup_row)) : backupManifest :=
  let ts := list_to_map exported in
  mkManifest "v0.1.0" (RFC3339 now) createdBy (negb includeSensitive)
    (if includeSensitive then ts else redactBackupSensitiveFields ts).
End exports.

(** A manifest written to a file and read again: numbers come back as float64. *)
Definition reread_value (v : bvalue) : bvalue :=
  match v with
  | BNumber (Some n) _ => BNumber (Some (float64 n)) (float_text (float64 n))
  | v => v
  end.
Definition reread_row (row : backup_row) : backup_row :=
  match row with RowObject item => RowObject (reread_value <$> item) | RowOther => RowOther end.
Definition reread (m : backupManifest) : backupManifest :=
  mkManifest (mf_Version m) (mf_CreatedAt m) (mf_CreatedBy m) (mf_SensitiveRedacted m)
    (map reread_row <$> mf_Tables m).

(** ** Validation *)

Definition not_object (t : string) : error := ErrorString (t +:+ " rows must be objects").
Definition check_row (t : string) (fields : list string) (row : backup_row) : result unit :=
  match row with
  | RowOther => Err (not_object t)
  | RowObject item =>
    match find (λ field, (eventDetailString item [field] =? redactedSensitiveValue)%string) fields with
    | Some field => Err (ErrorString (t +:+ "." +:+ field +:+ " is redacted and cannot be restored"))
    | None => Ok ()
    end
  end.
(** Runs a check on every element, up to the first error. *)
Fixpoint check_all {A} (f : A → result unit) (l : list A) : result unit :=
  match l with [] => Ok () | x :: l' => _ ← f x; check_all f l' end.
Definition validateNoRedactedSensitiveFields (m : backupManifest) : result unit :=
  check_all (λ tf, check_all (check_row tf.1 tf.2) (manifest_rows m tf.1)) backupSensitiveFields.

Definition check_user (row : backup_row) : result unit :=
  match row with
  | RowOther => Err (not_object "users")
  | RowObject item =>
    if (TrimSpace (eventDetailString item ["password_hash"]) =? "")%string
    then Err (ErrorString "users backup rows must include password_hash") else Ok ()
  end.
Definition validateBackupManifest (m : backupManifest) (requireRestoreFields : bool) : result unit :=
  if (TrimSpace (mf_Version m) =? "")%string then Err (ErrorString "version is required") else
  if bool_decide (mf_Tables m = ∅) then Err (ErrorString "tables are required") else
  match find (λ t, bool_decide (mf_Tables m !! t = None))
    ["tenants"; "users"; "roles"; "tokens"; "nodes"; "ip_groups"; "ip_group_members"; "acl_rules"; "qos_rules";
     "blacklist_rules"] with
  | Some t => Err (ErrorString ("missing table " +:+ Quote t))
  | None =>
    if negb requireRestoreFields then Ok () else
    if mf_SensitiveRedacted m
    then Err (ErrorString "backup contains redacted sensitive fields and cannot be restored") else
    _ ← validateNoRedactedSensitiveFields m;
    check_all check_user (manifest_rows m "users")
  end.

(** ** Selecting tables *)

Definition validateRestoreTableDependencyClosure (selected : string → bool) : result unit :=
  if selected "ip_group_members" && negb (selected "ip_groups")
  then Err (ErrorString "restore table dependency closure incomplete: ip_group_members requires ip_groups") else
  if selected "ip_groups" then
    match filter (λ t, selected t = false) ["ip_group_members"; "acl_rules"; "qos_rules"] with
    | [] => Ok ()
    | missing => Err (ErrorString ("restore table dependency closure incomplete: ip_groups requires "
                                   +:+ Join ", " missing))
    end
  else Ok ().

(** The loop over the request: the names seen, or the first unknown one. *)
Fixpoint seen_tables (requested : list string) : result (list string) :=
  match requested with
  | [] => Ok []
  | raw :: rest =>
    let name := TrimSpace raw in
    if (name =? "")%string then seen_tables rest else
    if negb (existsb (λ s, (bt_Name s =? name)%string) backupRestoreTables)
    then Err (ErrorString ("unknown restore table: " +:+ name)) else
    seen ← seen_tables rest;
    Ok (name :: seen)
  end.
Definition selectedRestoreTables (requested : list string) : result (list backupTableSpec) :=
  if bool_decide (requested = []) then Ok backupRestoreTables else
  seen ← seen_tables requested;
  if bool_decide (seen = []) then Err (ErrorString "at least one restore table is required") else
  let selected t := bool_decide (t ∈ seen) in
  _ ← validateRestoreTableDependencyClosure selected;
  Ok (filter (λ s, selected (bt_Name s) = true) backupRestoreTables).

Definition cleanupTablesForRestore (selected : list backupTableSpec) : list string :=
  if (length selected =? 0)%nat || (length selected =? length backupRestoreTables)%nat
  then backupRestoreCleanupTables
  else filter (λ t, t ∈ (bt_Name <$> selected)) backupRestoreCleanupTables.

Definition tableNamesFromSpecs (specs : list backupTableSpec) : list string := bt_Name <$> specs.

(** ** The values a restore writes *)

Section values.
Context (parse_array : string → option (list string)).    (* pq.StringArray *)

Definition normalizeRestoreJSON (v : bvalue) : option sqlval :=
  match v with
  | BNull => None
  | BString s => Some (SqlText s)
  | BBool b => Some (SqlText (if b then "true" else "false"))
  | BNumber (Some n) _ => Some (SqlText (Itoa n))
  | BNumber None printed => Some (SqlText printed)
  | BArray _ rendered | BObject _ rendered => Some (SqlText rendered)
  end.
Definition normalizeRestoreTextArray (v : bvalue) : result (option sqlval) :=
  match v with
  | BNull => Ok None
  | BString s => Ok (Some (SqlArray (default [s] (parse_array s))))
  | BArray items _ => Ok (Some (SqlArray (TrimSpace <$> items)))
  | _ => Err (ErrorString "unsupported array value")
  end.
(** The conversion of a float64 to an [int64]: out of range, the value amd64
    gives. *)
Definition int64_of_float (n : Z) : Z := if int64_range n then n else - 2 ^ 63.
Definition normalizeRestoreValue (column : string) (v : bvalue) : result (option sqlval) :=
  match v with
  | BNull => Ok None
  | _ =>
    if (column =? "resource_quota")%string then Ok (normalizeRestoreJSON v) else
    if (column =? "permissions")%string || (column =? "advertised_routes")%string
    then normalizeRestoreTextArray v else
    match v with
    | BNumber (Some n) _ => Ok (Some (SqlInt (int64_of_float n)))
    | BNumber None printed => Ok (Some (SqlFloat printed))
    | BArray _ _ | BObject _ _ => Ok (normalizeRestoreJSON v)
    | BString s => Ok (Some (SqlText s))
    | BBool b => Ok (Some (SqlBool b))
    | BNull => Ok None
    end
  end.
(** The arguments of the INSERT of one row. *)
Fixpoint restore_args (t : string) (cols : list string) (item : backup_item)
    : result (list (string * option sqlval)) :=
  match cols with
  | [] => Ok []
  | column :: rest =>
    match normalizeRestoreValue column (default BNull (item !! column)) with
    | Err _ => Err (ErrorString (t +:+ "." +:+ column))
    | Ok normalized =>
      args ← restore_args t rest item;
      Ok ((column, normalized) :: args)
    end
  end.
End values.

(** ** State

    The tables, the files of the backup directory by name, with the manifest a
    JSON file decodes to, and the number of statements and file operations so
    far. *)
Record File := mkFile { f_IsDir : bool; f_ModTime : Time; f_Manifest : option backupManifest }.
Record BSt := mkBSt { b_tables : tables; b_files : gmap string File; b_tick : nat }.
#[export] Instance BSt_eta : Eta BSt := λ s, mkBSt (b_tables s) (b_files s) (b_tick s).
Definition B (A : Type) : Type := Env → BSt → result A * BSt.
#[export] Instance B_ret : MRet B := λ A a e st, (Ok a, st).
#[export] Instance B_bind : MBind B := λ A C k m e st,
  match m e st with
  | (Ok a, st') => k a e st'
  | (Err x, st') => (Err x, st')
  end.
Definition bfail {A} (x : error) : B A := λ e st, (Err x, st).
Definition battempt {A} (m : B A) : B (result A) := λ e st, let (r, st') := m e st in (Ok r, st').
Definition blift {A} (r : result A) : B A := λ e st, (r, st).
Definition bask {A} (f : Env → A) : B A := λ e st, (Ok (f e), st).
(** A statement or file operation: it may fail, and then changes nothing. *)
Definition bstep {A} (f : Env → UUID → BSt → result (A * BSt)) : B A := λ e st,
  let t := b_tick st in
  if env_fault e t then (Err ErrDriver, st <| b_tick := S t |>) else
  match f e (env_uuid e t 0%nat) st with
  | Ok (a, st') => (Ok a, st' <| b_tick := S t |>)
  | Err x => (Err x, st <| b_tick := S t |>)
  end.
Definition bexec (f : Env → UUID → tables → result tables) : B unit :=
  bstep (λ e id st, db ← f e id (b_tables st); Ok (tt, st <| b_tables := db |>)).
Definition bquery {A} (f : BSt → A) : B A := bstep (λ _ _ st, Ok (f st, st)).
(** [Begin], the body and [Commit], or the deferred rollback. *)
Definition btx {A} (body : B A) : B A := λ e st,
  if env_fault e (b_tick st) then (Err ErrDriver, st <| b_tick := S (b_tick st) |>) else
  match body e (st <| b_tick := S (b_tick st) |>) with
  | (Err x, st') => (Err x, st <| b_tick := b_tick st' |>)
  | (Ok a, st') =>
    if env_fault e (b_tick st') then (Err ErrDriver, st <| b_tick := S (b_tick st') |>)
    else (Ok a, st' <| b_tick := S (b_tick st') |>)
  end.
Fixpoint beach {A} (l : list A) (f : A → B unit) : B unit :=
  match l with [] => mret tt | x :: l' => _ ← f x; beach l' f end.

Definition bwrite_error {A} (status : Z) (code message : string) : B A := bfail (HTTPError status code message).
Definition bad_request {A} (message : string) : B A := bwrite_error 400 "BAD_REQUEST" message.
Definition internal_error {A} (message : string) : B A := bwrite_error 500 "INTERNAL_ERROR" message.

(** ** The restore *)

Section backups.
Context (accepts : string → columns → bool) (array_literal : list string → string)
  (parse_array : string → option (list string)) (uuid_Parse : string → option UUID).

Definition insert_args (t : string) (args : list (string * option sqlval)) : B unit :=
  bexec (λ e id db, insert_row accepts t (new_row (env_now e) id t args) db).
Definition restore_row (spec : backupTableSpec) (row : backup_row) : B unit :=
  match row with
  | RowOther => bfail (not_object (bt_Name spec))
  | RowObject item =>
    args ← blift (restore_args parse_array (bt_Name spec) (bt_Columns spec) item);
    insert_args (bt_Name spec) args
  end.
Definition restoreBackupTable (spec : backupTableSpec) (rows : list backup_row) : B Z :=
  _ ← beach rows (restore_row spec);
  mret (Z.of_nat (length rows)).

(** The tenants of the manifest, each once. *)
Fixpoint tenant_ids (seen : list string) (rows : list backup_row) : list string :=
  match rows with
  | [] => []
  | RowOther :: rest => tenant_ids seen rest
  | RowObject item :: rest =>
    let id := TrimSpace (Sprint (default BNull (item !! "id"))) in
    if (id =? "")%string || bool_decide (uuid_Parse id = None) || bool_decide (id ∈ seen)
    then tenant_ids seen rest
    else id :: tenant_ids (id :: seen) rest
  end.
Definition collectManifestTenantIDs (m : backupManifest) : list string :=
  tenant_ids [] (manifest_rows m "tenants").

(** The detail as JSON. *)
Definition restore_detail (backupID : string) (selected : list string) (restored : list (string * Z)) : string :=
  "{" +:+ Quote "backup_id" +:+ ":" +:+ Quote backupID
  +:+ "," +:+ Quote "restored_tables" +:+ ":{"
  +:+ Join "," ((λ tn, Quote tn.1 +:+ ":" +:+ Itoa tn.2) <$> SliceStable (λ a b, str_ltb a.1 b.1) restored)
  +:+ "}," +:+ Quote "selected_tables" +:+ ":[" +:+ Join "," (Quote <$> selected) +:+ "]}".
Definition audit_args (tenantID eventType actor summary detail : string) : list (string * option sqlval) :=
  [("tenant_id", Some (SqlText tenantID)); ("node_id", None); ("event_type", Some (SqlText eventType));
   ("actor", Some (SqlText actor)); ("summary", Some (SqlText summary)); ("detail", Some (SqlText detail))].
Definition recordBackupRestoreAuditEvents (m : backupManifest) (backupID actor : string) (selected : list string)
    (restored : list (string * Z)) : B unit :=
  beach (collectManifestTenantIDs m) (λ tenantID,
    insert_args "audit_events" (audit_args tenantID "settings_backup_restored" actor
      "Configuration backup restored" (restore_detail backupID selected restored))).

Fixpoint restore_tables (m : backupManifest) (selected : list backupTableSpec) : B (list (string * Z)) :=
  match selected with
  | [] => mret []
  | spec :: rest =>
    count ← restoreBackupTable spec (manifest_rows m (bt_Name spec));
    counts ← restore_tables m rest;
    mret ((bt_Name spec, count) :: counts)
  end.
Definition restoreBackupManifest (m : backupManifest) (backupID actor : string) (selected : list backupTableSpec)
    : B (list (string * Z)) :=
  btx (_ ← beach (cleanupTablesForRestore selected) (λ t, bexec (λ _ _ db, delete_from t db));
       restoredTables ← restore_tables m selected;
       _ ← recordBackupRestoreAuditEvents m backupID actor (tableNamesFromSpecs selected) restoredTables;
       mret restoredTables).

(** ** Preflight *)

Definition sql_text (row : columns) (c : string) : option string :=
  match row !! c with Some (SqlText s) => Some s | _ => None end.
Definition online_node (row : columns) : bool := (default "online" (sql_text row "status") =? "online")%string.
Definition open_status (column : string) (row : columns) : bool :=
  match sql_text row column with
  | Some s => bool_decide (s ∈ ["pending"; "sent"; "acknowledged"])
  | None => false
  end.
Definition count_rows (t : string) (p : columns → bool) : B Z :=
  bquery (λ st, Z.of_nat (length (filter (λ r, p r = true) (rows_of (b_tables st) t)))).

Record backupRestorePreflight := mkPreflight {
  pf_Blocked : bool;
  pf_ActiveNodes : Z;
  pf_IncompleteCommands : Z;
  pf_IncompleteDeliveries : Z;
  pf_Warnings : list string;
}.
Definition warning (n : Z) (message : string) : list string := if 0 <? n then [Itoa n +:+ message] else [].
Definition runBackupRestorePreflight : B backupRestorePreflight :=
  active ← count_rows "nodes" online_node;
  commands ← count_rows "agent_commands" (open_status "status");
  deliveries ← count_rows "policy_deliveries" (open_status "command_status");
  let warnings := warning active " active Agent node(s) are online"
    ++ warning commands " incomplete Agent command(s) are pending"
    ++ warning deliveries " incomplete policy delivery record(s) are pending" in
  mret (mkPreflight (negb (bool_decide (warnings = []))) active commands deliveries warnings).

Record backupRestorePlan := mkPlan {
  pl_BackupID : string;
  pl_Blocked : bool;
  pl_SelectedTables : list string;
  pl_TableCounts : list (string * Z);
  pl_Warnings : list string;
}.
Definition buildRestorePlan (m : backupManifest) (backupID : string) (selected : list backupTableSpec)
    (pf : backupRestorePreflight) : backupRestorePlan :=
  mkPlan backupID (pf_Blocked pf) (tableNamesFromSpecs selected)
    ((λ s, (bt_Name s, Z.of_nat (length (manifest_rows m (bt_Name s))))) <$> selected)
    (["restore replaces selected control-plane configuration tables";
      "active Agent runtime state may need a sync after restore"] ++ pf_Warnings pf).

(** ** The backup directory *)

(** [os.MkdirAll] may fail. *)
Definition backupDir : B unit := bquery (λ _, tt).
Definition HasSuffix (s suffix : string) : bool :=
  String.prefix (String.string_of_list_ascii (rev (String.list_ascii_of_string suffix)))
    (String.string_of_list_ascii (rev (String.list_ascii_of_string s))).
Definition json_name (id : string) : string := id +:+ ".json".
Definition id_of_name (name : string) : string :=
  String.substring 0 (String.length name - String.length ".json") name.

(** Size and time of a file are for display and left out. *)
Record backupFile := mkBackupFile {
  bf_ID : string;
  bf_Filename : string;
  bf_CreatedBy : string;
  bf_ModTime : Time;
  bf_Manifest : option backupManifest;
}.
Definition describe_file (name : string) (f : File) : backupFile :=
  mkBackupFile (id_of_name name) name
    (match f_Manifest f with
     | Some m => if (mf_CreatedBy m =? "")%string then "system" else mf_CreatedBy m
     | None => "system"
     end) (f_ModTime f) (f_Manifest f).
(** The directory by name, the newest file first. *)
Definition listBackupFiles : B (list backupFile) :=
  _ ← backupDir;
  entries ← bquery (λ st, SliceStable (λ a b, str_ltb a.1 b.1) (map_to_list (b_files st)));
  mret (SliceStable (λ a b, bf_ModTime b <? bf_ModTime a)
    ((λ nf, describe_file nf.1 nf.2) <$>
      filter (λ nf, negb (f_IsDir nf.2) && HasSuffix nf.1 ".json" = true) entries)).
Definition findBackupFile (backupID : string) : B backupFile :=
  backups ← listBackupFiles;
  match find (λ b, (bf_ID b =? backupID)%string) backups with
  | Some b => mret b
  | None => bfail ErrNoRows
  end.
(** The lookup as the handlers report it. *)
Definition backup_of_request (backupID : string) : B backupFile :=
  r ← battempt (findBackupFile backupID);
  match r with
  | Ok b => mret b
  | Err ErrNoRows => bwrite_error 404 "ENDPOINT_NOT_FOUND" "Backup not found"
  | Err _ => internal_error "Failed to load backup"
  end.
Definition write_file (name : string) (m : backupManifest) : B unit :=
  bstep (λ e _ st, Ok (tt, st <| b_files := <[name := mkFile false (env_go_now e) (Some (reread m))]> (b_files st) |>)).

(** [filepath.Base] and [filepath.Ext]. *)
Fixpoint last_element (l acc : text) : text :=
  match l with
  | [] => rev acc
  | "/"%char :: l' => last_element l' []
  | c :: l' => last_element l' (c :: acc)
  end.
Fixpoint strip_slashes (rev_path : text) : text :=
  match rev_path with "/"%char :: l => strip_slashes l | l => l end.
Definition Base (path : string) : string :=
  let l := String.list_ascii_of_string path in
  match l with
  | [] => "."
  | _ =>
    match rev (strip_slashes (rev l)) with
    | [] => "/"
    | l' => String.string_of_list_ascii (last_element l' [])
    end
  end.
Definition Ext (path : string) : string :=
  match cut_last "."%char (last_element (String.list_ascii_of_string path) []) with
  | Some (_, ext) => String "." (String.string_of_list_ascii ext)
  | None => ""
  end.
Definition TrimSuffix (s suffix : string) : string :=
  if HasSuffix s suffix then String.substring 0 (String.length s - String.length suffix) s else s.

Definition alnum (c : ascii) : bool :=
  let n := N_of_ascii c in ((97 <=? n) && (n <=? 122) || (48 <=? n) && (n <=? 57))%N.
(** The loop: a run of other characters becomes one dash. *)
Fixpoint dashed (lastDash : bool) (l : text) : text :=
  match l with
  | [] => []
  | c :: l' =>
    if alnum c then c :: dashed false l'
    else if lastDash then dashed true l' else "-"%char :: dashed true l'
  end.
Definition uploadedBackupID (filename : string) : string :=
  let base := ToLower (TrimSpace (TrimSuffix (Base filename) (Ext filename))) in
  let base := if (base =? "")%string then "uploaded-backup" else base in
  let id := Trim (String.string_of_list_ascii (dashed false (String.list_ascii_of_string base))) ["-"%char] in
  if (id =? "")%string then "uploaded-backup" else id.

(** [t.UTC().Format("20060102-150405")]. *)
Definition compact_time (t : Time) : string :=
  let secs := t / 1000000 in
  let '(y, m, d) := civil_date (secs / 86400) in
  let s := secs mod 86400 in
  pad 4 y +:+ pad 2 m +:+ pad 2 d +:+ "-" +:+ pad 2 (s / 3600) +:+ pad 2 ((s / 60) mod 60) +:+ pad 2 (s mod 60).

(** ** Handlers *)

Definition actor_of (ctx : Context) : string :=
  let username := default "" (Username ctx) in
  if (TrimSpace username =? "")%string then "system" else username.
(** [CreateAuditEvent], whose error the handlers drop. *)
Definition record_event (ctx : Context) (eventType summary backupID filename : string) : B unit :=
  match TenantID ctx with
  | None => mret tt
  | Some tenantID =>
    _ ← battempt (insert_args "audit_events" (audit_args tenantID eventType (actor_of ctx) summary
          ("{" +:+ Quote "backup_id" +:+ ":" +:+ Quote backupID +:+ "," +:+ Quote "filename" +:+ ":"
           +:+ Quote filename +:+ "}")));
    mret tt
  end.

Record BackupRequest := mkBackupRequest {
  br_Method : string;
  br_Path : string;
  br_IncludeSensitive : string;
  br_Confirm : string;                              (* the query parameter *)
  br_Restore : option (bool * list string * string);    (* dry_run, tables, confirm *)
  br_Upload : option (option (string * Z * option backupManifest));
}.
Inductive backup_answer :=
  | ABackups (l : list backupFile)
  | ABackup (id filename : string)
  | AContent (m : option backupManifest)
  | ADeleted (id : string)
  | APlan (p : backupRestorePlan)
  | ARestored (backupID : string) (restored : list (string * Z)).

Definition parseBackupSensitiveExport (r : BackupRequest) : result bool :=
  if negb (EqualFold (TrimSpace (br_IncludeSensitive r)) "true") then Ok false else
  if negb (TrimSpace (br_Confirm r) =? backupSensitiveExportConfirmPhrase)%string
  then Err (ErrorString "Sensitive backup export confirmation phrase is required") else Ok true.

Fixpoint export_tables (names : list string) : B (list (string * list backup_row)) :=
  match names with
  | [] => mret []
  | t :: rest =>
    rows ← bquery (λ st, queryRowsAsObjects array_literal (b_tables st) t);
    exported ← export_tables rest;
    mret ((t, rows) :: exported)
  end.
Definition buildBackupManifest (createdBy : string) (includeSensitive : bool) : B backupManifest :=
  exported ← export_tables backupExportTables;
  now ← bask env_go_now;
  mret (assemble now createdBy includeSensitive exported).

Definition createBackup (ctx : Context) (r : BackupRequest) : B backup_answer :=
  match parseBackupSensitiveExport r with
  | Err _ => bad_request "Sensitive backup export confirmation phrase is required"
  | Ok includeSensitive =>
    d ← battempt backupDir;
    match d with
    | Err _ => internal_error "Failed to prepare backup directory"
    | Ok _ =>
      b ← battempt (buildBackupManifest (actor_of ctx) includeSensitive);
      match b with
      | Err _ => internal_error "Failed to build backup"
      | Ok manifest =>
        now ← bask env_go_now;
        let id := "aria-config-backup-" +:+ compact_time now in
        w ← battempt (write_file (json_name id) manifest);
        match w with
        | Err _ => internal_error "Failed to write backup"
        | Ok _ =>
          _ ← record_event ctx "settings_backup_created" "Configuration backup created" id (json_name id);
          mret (ABackup id (json_name id))
        end
      end
    end
  end.

Definition maxBackupUploadBytes : Z := 10 * 2 ^ 20.
Definition uploadBackup (ctx : Context) (r : BackupRequest) : B backup_answer :=
  match br_Upload r with
  | None => bad_request "Failed to parse backup upload"
  | Some None => bad_request "Backup file is required"
  | Some (Some (name, size, content)) =>
    if maxBackupUploadBytes <? size then bad_request "Uploaded backup is too large" else
    match content with
    | None => bad_request "Uploaded file is not a valid backup manifest"
    | Some manifest =>
      match validateBackupManifest manifest true with
      | Err _ => bad_request "Uploaded backup is invalid"
      | Ok _ =>
        d ← battempt backupDir;
        match d with
        | Err _ => internal_error "Failed to prepare backup directory"
        | Ok _ =>
          let id := uploadedBackupID name in
          s ← battempt (bquery (λ st, b_files st !! json_name id));
          now ← bask env_go_now;
          let id := match s with Ok (Some _) => id +:+ "-" +:+ compact_time now | _ => id end in
          w ← battempt (write_file (json_name id) manifest);
          match w with
          | Err _ => internal_error "Failed to store uploaded backup"
          | Ok _ =>
            f ← battempt (findBackupFile id);
            match f with
            | Err _ => internal_error "Failed to load uploaded backup metadata"
            | Ok backup =>
              _ ← record_event ctx "settings_backup_uploaded" "Configuration backup uploaded" id (json_name id);
              mret (ABackup (bf_ID backup) (bf_Filename backup))
            end
          end
        end
      end
    end
  end.

Definition downloadBackup (backupID : string) : B backup_answer :=
  backup ← backup_of_request backupID;
  c ← battempt (bquery (λ st, f_Manifest <$> b_files st !! bf_Filename backup));
  match c with
  | Ok (Some content) => mret (AContent content)
  | _ => internal_error "Failed to read backup file"
  end.
Definition deleteBackup (ctx : Context) (backupID : string) : B backup_answer :=
  backup ← backup_of_request backupID;
  d ← battempt (bstep (λ _ _ st, Ok (tt, st <| b_files := delete (bf_Filename backup) (b_files st) |>)));
  match d with
  | Err _ => internal_error "Failed to delete backup"
  | Ok _ =>
    _ ← record_event ctx "settings_backup_deleted" "Configuration backup deleted" backupID (bf_Filename backup);
    mret (ADeleted backupID)
  end.

(** The preflight as the handler reports its failure. *)
Definition preflight_of_request : B backupRestorePreflight :=
  p ← battempt runBackupRestorePreflight;
  match p with
  | Ok p => mret p
  | Err _ => internal_error "Backup restore preflight failed"
  end.
(** A manifest read from the directory and accepted for a restore. *)
Definition restorable_manifest (backup : backupFile) : B backupManifest :=
  c ← battempt (bquery (λ st, b_files st !! bf_Filename backup ≫= f_Manifest));
  match c with
  | Ok (Some manifest) =>
    match validateBackupManifest manifest true with
    | Ok _ => mret manifest
    | Err _ => bad_request "Backup restore validation failed"
    end
  | _ => bad_request "Failed to decode backup manifest"
  end.
Definition restoreBackup (ctx : Context) (r : BackupRequest) (backupID : string) : B backup_answer :=
  backup ← backup_of_request backupID;
  manifest ← restorable_manifest backup;
  match br_Restore r with
  | None => bad_request "Invalid restore request body"
  | Some (dryRun, requested, confirm) =>
    match selectedRestoreTables requested with
    | Err x => bad_request (match x with ErrorString msg => msg | _ => "" end)
    | Ok selected =>
      if dryRun then
        preflight ← preflight_of_request;
        mret (APlan (buildRestorePlan manifest backupID selected preflight))
      else if negb (TrimSpace confirm =? backupRestoreConfirmPhrase)%string
      then bad_request "Restore confirmation phrase is required" else
      preflight ← preflight_of_request;
      if pf_Blocked preflight
      then bwrite_error 409 "CONFLICT" "Backup restore preflight blocked destructive restore" else
      t ← battempt (restoreBackupManifest manifest backupID (actor_of ctx) selected);
      match t with
      | Err _ => internal_error "Failed to restore backup"
      | Ok restoredTables => mret (ARestored backupID restoredTables)
      end
    end
  end.

(** ** Routes *)

Definition no_method {A} : B A := bwrite_error 405 "METHOD_NOT_ALLOWED" "Method not allowed".
(** [strings.TrimPrefix]. *)
Definition TrimPrefix (s prefix : string) : string :=
  if HasPrefix s prefix
  then String.substring (String.length prefix) (String.length s - String.length prefix) s else s.
Definition handleBackups (ctx : Context) (r : BackupRequest) (path : string) : B backup_answer :=
  let rest := TrimPrefix path "/backups" in
  if (rest =? "")%string || (rest =? "/")%string then
    if (br_Method r =? "GET")%string then
      l ← battempt listBackupFiles;
      match l with
      | Ok backups => mret (ABackups backups)
      | Err _ => internal_error "Failed to list backups"
      end
    else if (br_Method r =? "POST")%string then createBackup ctx r
    else no_method
  else if (rest =? "/upload")%string then
    if (br_Method r =? "POST")%string then uploadBackup ctx r else no_method
  else
    match Split (Trim rest ["/"%char]) "/"%char with
    | [backupID] => if (br_Method r =? "DELETE")%string then deleteBackup ctx backupID else no_method
    | backupID :: action :: _ =>
      if (action =? "download")%string && (br_Method r =? "GET")%string then downloadBackup backupID else
      if (action =? "restore")%string
      then if (br_Method r =? "POST")%string then restoreBackup ctx r backupID else no_method
      else bwrite_error 404 "ENDPOINT_NOT_FOUND" "Unknown backup endpoint"
    | [] => no_method
    end.
Definition HandleSettings (ctx : Context) (r : BackupRequest) : B backup_answer :=
  match UserRole ctx with
  | None => bwrite_error 403 "ACCESS_DENIED" "Access denied"
  | Some role =>
    if negb (role =? "super_admin")%string
    then bwrite_error 403 "ACCESS_DENIED" (if (role =? "")%string then "Access denied"
                                           else "Access denied: super_admin only") else
    let path := TrimPrefix (br_Path r) "/api/v2/settings" in
    if HasPrefix path "/backups" then handleBackups ctx r path
    else bwrite_error 404 "ENDPOINT_NOT_FOUND" "Unknown settings endpoint"
  end.
End backups.
