(* ===== verification/BackupSpec.v ===== *)
(** * When a backup may replace the configuration

    Only a confirmed request of a platform administrator, on a controller without
    online nodes or open commands, restores a backup; a redacted backup is never
    restored; the names of uploads stay in the backup directory. *)

From S2P Require Import Prelude GoStr Records Store PublicNetwork Sessions Relations Backup.

Open Scope Z_scope.

(** ** Runs *)

Lemma bbind_inv {A C} (m : B A) (k : A → B C) e st :
  (m ≫= k) e st = match (m e st).1 with Ok a => k a e (m e st).2 | Err x => (Err x, (m e st).2) end.
Proof. unfold mbind, B_bind. by destruct (m e st) as [[a|x] st1]. Qed.
Lemma bbind_ok {A C} (m : B A) (k : A → B C) e st c st' :
  (m ≫= k) e st = (Ok c, st') → ∃ a st1, m e st = (Ok a, st1) ∧ k a e st1 = (Ok c, st').
Proof. unfold mbind, B_bind. destruct (m e st) as [[a|x] st1]; [|done]. eauto. Qed.
Lemma bbind_run {A C} (m : B A) (k : A → B C) e st a st1 :
  m e st = (Ok a, st1) → (m ≫= k) e st = k a e st1.
Proof. unfold mbind, B_bind. by intros ->. Qed.
Lemma bstep_ok {A} (f : Env → UUID → BSt → result (A * BSt)) e st a st' :
  bstep f e st = (Ok a, st') →
  ∃ st1, f e (env_uuid e (b_tick st) 0%nat) st = Ok (a, st1) ∧ st' = st1 <| b_tick := S (b_tick st) |>.
Proof.
  unfold bstep. destruct (env_fault e (b_tick st)); [done|].
  destruct (f _ _ _) as [[a' st1]|x] eqn:Hf; [|done]. intros [= <- <-]. eauto.
Qed.

(** A call that leaves the rows of a table alone, whatever its result. *)
Definition spares {A} (t : string) (m : B A) : Prop :=
  ∀ e st, rows_of (b_tables (m e st).2) t = rows_of (b_tables st) t.

Section spares.
Context (t : string).

Lemma spares_ret {A} (a : A) : spares t (mret a).
Proof. done. Qed.
Lemma spares_fail {A} x : spares t (bfail (A:=A) x).
Proof. done. Qed.
Lemma spares_ask {A} (f : Env → A) : spares t (bask f).
Proof. done. Qed.
Lemma spares_bind {A C} (m : B A) (k : A → B C) : spares t m → (∀ a, spares t (k a)) → spares t (m ≫= k).
Proof.
  intros Hm Hk e st. rewrite bbind_inv. destruct ((m e st).1); simpl; [rewrite Hk|]; apply Hm.
Qed.
Lemma spares_attempt {A} (m : B A) : spares t m → spares t (battempt m).
Proof. intros Hm e st. specialize (Hm e st). unfold battempt. by destruct (m e st). Qed.
Lemma spares_bstep {A} (f : Env → UUID → BSt → result (A * BSt)) :
  (∀ e id st a st', f e id st = Ok (a, st') → rows_of (b_tables st') t = rows_of (b_tables st) t) →
  spares t (bstep f).
Proof.
  intros Hf e st. unfold bstep. destruct (env_fault e (b_tick st)); [done|].
  destruct (f _ _ _) as [[a st']|x] eqn:Heq; [|done]. simpl. by apply Hf in Heq.
Qed.
Lemma spares_bquery {A} (f : BSt → A) : spares t (bquery f).
Proof. apply spares_bstep. by intros e id st a st' [= _ <-]. Qed.
Lemma spares_btx_err {A} (body : B A) e st x st' :
  btx body e st = (Err x, st') → b_tables st' = b_tables st.
Proof.
  unfold btx. destruct (env_fault e (b_tick st)); [by intros [= <- <-]|].
  destruct (body _ _) as [[a|y] st1]; [|by intros [= <- <-]].
  destruct (env_fault e (b_tick st1)); [by intros [= <- <-]|done].
Qed.
End spares.
#[export] Hint Resolve spares_ret spares_fail spares_ask spares_bquery : aria.

Ltac spare_step :=
  match goal with
  | |- spares _ (_ ≫= _) => apply spares_bind; [|intros ?]
  | |- spares _ (battempt _) => apply spares_attempt
  | |- spares _ (match ?x with _ => _ end) => destruct x
  | |- spares _ (let _ := _ in _) => cbv zeta
  | |- spares _ _ => solve [auto with aria]
  end.
Ltac spare := repeat spare_step.

Section backups.
Context (accepts : string → columns → bool) (array_literal : list string → string)
  (parse_array : string → option (list string)) (uuid_Parse : string → option UUID).

Lemma insert_row_other t row db db' u :
  insert_row accepts t row db = Ok db' → u ≠ t → rows_of db' u = rows_of db u.
Proof. unfold insert_row. intros H Hu. cases. by apply rows_of_insert_ne. Qed.
Lemma insert_args_spares t u args : u ≠ t → spares u (insert_args accepts t args).
Proof.
  intros Hu. apply spares_bstep. intros e id st a st'. cbn [mbind result_bind].
  destruct (insert_row _ _ _ _) as [db|] eqn:Hi; cbn; [|done]. intros [= _ <-]. simpl.
  by eapply insert_row_other.
Qed.

(** ** Only a guarded restore changes the configuration *)

Section other_handlers.
Context (t : string) (Ht : t ≠ "audit_events").

Lemma record_event_spares ctx ty summary id name :
  spares t (record_event accepts ctx ty summary id name).
Proof. unfold record_event. spare. by apply insert_args_spares. Qed.
Lemma write_file_spares name m : spares t (write_file name m).
Proof. apply spares_bstep. by intros e id st a st' [= _ <-]. Qed.
Lemma listBackupFiles_spares : spares t listBackupFiles.
Proof. unfold listBackupFiles, backupDir. spare. Qed.
#[local] Hint Resolve record_event_spares write_file_spares listBackupFiles_spares : aria.
Lemma findBackupFile_spares id : spares t (findBackupFile id).
Proof. unfold findBackupFile. spare. Qed.
#[local] Hint Resolve findBackupFile_spares : aria.
Lemma backup_of_request_spares id : spares t (backup_of_request id).
Proof. unfold backup_of_request, bwrite_error, internal_error, bwrite_error. spare. Qed.
#[local] Hint Resolve backup_of_request_spares : aria.
Lemma export_tables_spares names : spares t (export_tables array_literal names).
Proof. induction names as [|n l IH]; cbn [export_tables]; spare. Qed.
#[local] Hint Resolve export_tables_spares : aria.
Lemma createBackup_spares ctx r : spares t (createBackup accepts array_literal ctx r).
Proof.
  unfold createBackup, buildBackupManifest, bad_request, internal_error, bwrite_error, backupDir. spare.
Qed.
Lemma uploadBackup_spares ctx r : spares t (uploadBackup accepts ctx r).
Proof. unfold uploadBackup, bad_request, internal_error, bwrite_error, backupDir. spare. Qed.
Lemma downloadBackup_spares id : spares t (downloadBackup id).
Proof. unfold downloadBackup, internal_error, bwrite_error. spare. Qed.
Lemma deleteBackup_spares ctx id : spares t (deleteBackup accepts ctx id).
Proof.
  unfold deleteBackup, internal_error, bwrite_error. spare.
  apply spares_bstep. by intros e i st a' st' [= _ <-].
Qed.
Lemma preflight_spares : spares t preflight_of_request.
Proof.
  unfold preflight_of_request, runBackupRestorePreflight, count_rows, internal_error, bwrite_error. spare.
Qed.
Lemma restorable_manifest_spares b : spares t (restorable_manifest b).
Proof. unfold restorable_manifest, bad_request, bwrite_error. spare. Qed.
End other_handlers.

(** A call that changes neither tables nor files. *)
Definition only_reads {A} (m : B A) : Prop :=
  ∀ e st, b_tables (m e st).2 = b_tables st ∧ b_files (m e st).2 = b_files st.
Lemma reads_ret {A} (a : A) : only_reads (mret a).
Proof. done. Qed.
Lemma reads_fail {A} x : only_reads (bfail (A:=A) x).
Proof. done. Qed.
Lemma reads_bquery {A} (f : BSt → A) : only_reads (bquery f).
Proof. intros e st. unfold bquery, bstep. by destruct (env_fault e (b_tick st)). Qed.
Lemma reads_bind {A C} (m : B A) (k : A → B C) : only_reads m → (∀ a, only_reads (k a)) → only_reads (m ≫= k).
Proof.
  intros Hm Hk e st. rewrite bbind_inv. destruct (Hm e st) as [Ht Hf].
  destruct ((m e st).1); simpl; [|done]. destruct (Hk a e (m e st).2) as [-> ->]. done.
Qed.
Lemma reads_attempt {A} (m : B A) : only_reads m → only_reads (battempt m).
Proof. intros Hm e st. specialize (Hm e st). unfold battempt. by destruct (m e st). Qed.
Ltac read_step :=
  match goal with
  | |- only_reads (_ ≫= _) => apply reads_bind; [|intros ?]
  | |- only_reads (battempt _) => apply reads_attempt
  | |- only_reads (match ?x with _ => _ end) => destruct x
  | |- only_reads (let _ := _ in _) => cbv zeta
  | |- only_reads (mret _) => apply reads_ret
  | |- only_reads (bfail _) => apply reads_fail
  | |- only_reads (bquery _) => apply reads_bquery
  end.
Lemma backup_of_request_reads id : only_reads (backup_of_request id).
Proof.
  unfold backup_of_request, findBackupFile, listBackupFiles, backupDir, internal_error, bwrite_error.
  repeat read_step.
Qed.
Lemma restorable_manifest_reads b : only_reads (restorable_manifest b).
Proof. unfold restorable_manifest, bad_request, bwrite_error. repeat read_step. Qed.
Lemma preflight_of_request_reads : only_reads preflight_of_request.
Proof.
  unfold preflight_of_request, runBackupRestorePreflight, count_rows, internal_error, bwrite_error.
  repeat read_step.
Qed.

Lemma battempt_inv {A} (m : B A) e st : battempt m e st = (Ok (m e st).1, (m e st).2).
Proof. unfold battempt. by destruct (m e st). Qed.
Lemma bquery_ok {A} (f : BSt → A) e st a st' : bquery f e st = (Ok a, st') → a = f st.
Proof. unfold bquery. intros (st1 & [= -> ->] & _)%bstep_ok. done. Qed.

Lemma restorable_manifest_ok b e st m st' :
  restorable_manifest b e st = (Ok m, st') →
  validateBackupManifest m true = Ok tt ∧ ∃ f, b_files st !! bf_Filename b = Some f ∧ f_Manifest f = Some m.
Proof.
  unfold restorable_manifest. intros (c & st1 & Hc & Hk)%bbind_ok.
  rewrite battempt_inv in Hc. injection Hc as Hc Hst.
  destruct c as [[m'|]|x]; [|done|done].
  destruct (validateBackupManifest m' true) as [[]|x] eqn:Hv; [|done].
  injection Hk as -> ->. split; [done|].
  destruct (bquery _ e st) as [r st2] eqn:Hq. simpl in Hc. subst r.
  apply bquery_ok in Hq. destruct (b_files st !! bf_Filename b) as [f|]; [|done]. by exists f.
Qed.

Lemma count_rows_ok t p e st n st' :
  count_rows t p e st = (Ok n, st') → n <= 0 → ∀ row, row ∈ rows_of (b_tables st) t → p row = false.
Proof.
  unfold count_rows. intros ->%bquery_ok Hn row Hrow. destruct (p row) eqn:Hp; [|done]. exfalso.
  assert (row ∈ filter (λ r, p r = true) (rows_of (b_tables st) t)) as Hin by by apply elem_of_filter_list.
  destruct (filter (λ r, p r = true) (rows_of (b_tables st) t)); [by apply elem_of_nil in Hin|]. simpl in Hn. lia.
Qed.
(** What a preflight that does not block has seen. *)
Definition quiet (db : tables) : Prop :=
  (∀ row, row ∈ rows_of db "nodes" → online_node row = false) ∧
  (∀ row, row ∈ rows_of db "agent_commands" → open_status "status" row = false) ∧
  (∀ row, row ∈ rows_of db "policy_deliveries" → open_status "command_status" row = false).
Lemma warning_none n msg : warning n msg = [] → n <= 0.
Proof. unfold warning. destruct (0 <? n) eqn:Hn; [done|]. bools. lia. Qed.
Lemma preflight_quiet e st p st' :
  runBackupRestorePreflight e st = (Ok p, st') → pf_Blocked p = false → quiet (b_tables st).
Proof.
  unfold runBackupRestorePreflight.
  intros (a & st1 & Ha & (c & st2 & Hc & (d & st3 & Hd & Hp)%bbind_ok)%bbind_ok)%bbind_ok Hb.
  injection Hp as <- <-. simpl in Hb. bools. apply app_nil in Hb as [Hw1 Hb]. apply app_nil in Hb as [Hw2 Hw3].
  pose proof (reads_bquery (λ st, Z.of_nat (length (filter (λ r, online_node r = true)
    (rows_of (b_tables st) "nodes")))) e st) as [Ht1 _].
  pose proof (reads_bquery (λ st, Z.of_nat (length (filter (λ r, open_status "status" r = true)
    (rows_of (b_tables st) "agent_commands")))) e st1) as [Ht2 _].
  fold (count_rows "nodes" online_node) in Ht1. rewrite Ha in Ht1.
  fold (count_rows "agent_commands" (open_status "status")) in Ht2. rewrite Hc in Ht2. simpl in Ht1, Ht2.
  split_and!.
  - eapply count_rows_ok; [exact Ha|by eapply warning_none].
  - rewrite <-Ht1. eapply count_rows_ok; [exact Hc|by eapply warning_none].
  - rewrite <-Ht1, <-Ht2. eapply count_rows_ok; [exact Hd|by eapply warning_none].
Qed.

Record guarded (ctx : Context) (r : BackupRequest) (st : BSt) : Prop := {
  by_super_admin : UserRole ctx = Some "super_admin";
  confirmed : ∃ tables selected confirm, br_Restore r = Some (false, tables, confirm) ∧
    selectedRestoreTables tables = Ok selected ∧ TrimSpace confirm = backupRestoreConfirmPhrase;
  from_valid_backup : ∃ name f m, b_files st !! name = Some f ∧ f_Manifest f = Some m ∧
    validateBackupManifest m true = Ok tt;
  while_quiet : quiet (b_tables st);
}.

Lemma preflight_of_request_ok e st p st' :
  preflight_of_request e st = (Ok p, st') → ∃ st1, runBackupRestorePreflight e st = (Ok p, st1).
Proof.
  unfold preflight_of_request. intros (c & st1 & Hc & Hk)%bbind_ok. rewrite battempt_inv in Hc.
  injection Hc as Hc _. destruct c as [p'|x]; [|done]. injection Hk as -> ->.
  destruct (runBackupRestorePreflight e st) as [q st2]. simpl in Hc. subst. by exists st2.
Qed.
(** A read followed by the rest of a handler: the rest runs on the same tables. *)
Lemma read_then {A C} (m : B A) (k : A → B C) e st res st' :
  only_reads m → (m ≫= k) e st = (res, st') → b_tables st' ≠ b_tables st →
  ∃ a st1, m e st = (Ok a, st1) ∧ k a e st1 = (res, st') ∧
    b_tables st1 = b_tables st ∧ b_files st1 = b_files st.
Proof.
  intros Hm Hr Hne. specialize (Hm e st) as [Ht Hf]. rewrite bbind_inv in Hr.
  destruct (m e st) as [[a|x] st1]; simpl in *; [by exists a, st1|].
  injection Hr as _ <-. done.
Qed.
Ltac read_on Hr lem a st1 Ha :=
  let Ht := fresh "Ht" in let Hf := fresh "Hf" in let Hk := fresh "Hk" in
  apply read_then in Hr as (a & st1 & Ha & Hk & Ht & Hf);
  [|apply lem|first [done|congruence]]; rename Hk into Hr.

Lemma restoreBackup_guarded ctx r id e st res st' :
  restoreBackup accepts parse_array uuid_Parse ctx r id e st = (res, st') →
  b_tables st' ≠ b_tables st → UserRole ctx = Some "super_admin" →
  guarded ctx r st ∧ ∃ counts, res = Ok (ARestored id counts).
Proof.
  unfold restoreBackup. intros Hr Hne Hrole.
  read_on Hr backup_of_request_reads b st1 Hb. read_on Hr restorable_manifest_reads m st2 Hm.
  destruct (br_Restore r) as [[[dry requested] confirm]|] eqn:Hreq; [|by injection Hr as _ <-; congruence].
  destruct (selectedRestoreTables requested) as [selected|x] eqn:Hsel; [|by injection Hr as _ <-; congruence].
  destruct dry.
  { read_on Hr preflight_of_request_reads p st3 Hp. injection Hr as _ <-. congruence. }
  destruct (negb _) eqn:Hconf; [by injection Hr as _ <-; congruence|]. bools.
  read_on Hr preflight_of_request_reads p st3 Hp.
  destruct (pf_Blocked p) eqn:Hbl; [by injection Hr as _ <-; congruence|].
  apply restorable_manifest_ok in Hm as (Hv & f & Hf' & Hmf).
  apply preflight_of_request_ok in Hp as [st4 Hp]. apply (preflight_quiet _ _ _ _ Hp) in Hbl.
  rewrite bbind_inv, battempt_inv in Hr. simpl in Hr. split.
  - split; [done|by exists requested, selected, confirm|..].
    + exists (bf_Filename b), f, m. split_and!; [congruence|done|done].
    + by replace (b_tables st) with (b_tables st2) by congruence.
  - destruct (restoreBackupManifest _ _ _ _ _ _ _ e st3) as [[c|x] st5] eqn:Ht5; simpl in Hr.
    + injection Hr as <- <-. by exists c.
    + injection Hr as _ <-. apply spares_btx_err in Ht5. congruence.
Qed.

Lemma handleBackups_guarded ctx r path t e st res st' :
  handleBackups accepts array_literal parse_array uuid_Parse ctx r path e st = (res, st') →
  t ≠ "audit_events" → rows_of (b_tables st') t ≠ rows_of (b_tables st) t →
  UserRole ctx = Some "super_admin" →
  guarded ctx r st ∧ ∃ id counts, res = Ok (ARestored id counts).
Proof.
  intros Hr Ht Hne Hrole.
  assert (∀ m : B backup_answer, m e st = (res, st') → spares t m → False) as Hspare.
  { intros m Hm Hs. specialize (Hs e st). rewrite Hm in Hs. done. }
  unfold handleBackups, no_method, bwrite_error in Hr.
  repeat match type of Hr with
  | (if ?b then _ else _) e st = _ => destruct b
  | (match ?l with _ => _ end) e st = _ => destruct l
  end; try (exfalso; eapply Hspare; [exact Hr|]; first
    [ apply createBackup_spares; assumption | apply uploadBackup_spares; assumption
    | apply downloadBackup_spares | apply deleteBackup_spares; assumption | apply spares_fail
    | solve [unfold internal_error, bwrite_error, listBackupFiles, backupDir; spare] ]).
  edestruct restoreBackup_guarded as [Hg [c Hc]]; [exact Hr|congruence|done|]. eauto.
Qed.
End backups.

(** C17. Whatever is asked of the settings API and whichever statements fail, the
    tables other than the audit events change only in a restore that succeeds, asked
    for by a platform administrator with the confirmation phrase, from a stored
    backup that passes validation, while no node is online and no command or
    delivery is open. *)
Theorem restore_guarded accepts array_literal parse_array uuid_Parse ctx r e st res st' t :
  HandleSettings accepts array_literal parse_array uuid_Parse ctx r e st = (res, st') →
  t ≠ "audit_events" → rows_of (b_tables st') t ≠ rows_of (b_tables st) t →
  guarded ctx r st ∧ ∃ id counts, res = Ok (ARestored id counts).
Proof.
  unfold HandleSettings. intros Hr Ht Hne.
  destruct (UserRole ctx) as [role|] eqn:Hrole; [|by injection Hr as _ <-].
  destruct (negb _) eqn:Hsa; [by injection Hr as _ <-|]. bools. subst role.
  destruct (HasPrefix _ _); [|by injection Hr as _ <-].
  by eapply handleBackups_guarded.
Qed.

(** ** Redacted backups *)

Section redaction.
Context (array_literal : list string → string).

(** The manifest of a backup of [db] as its file holds it. *)
Definition stored_backup (now : Time) (db : tables) (createdBy : string) (includeSensitive : bool) : backupManifest :=
  reread (assemble now createdBy includeSensitive
    ((λ t, (t, queryRowsAsObjects array_literal db t)) <$> backupExportTables)).

Lemma lookup_export {A} (f : string → A) l c :
  (list_to_map ((λ t, (t, f t)) <$> l) : gmap string A) !! c = if decide (c ∈ l) then Some (f c) else None.
Proof.
  induction l as [|x l IH]; [done|]. rewrite fmap_cons, list_to_map_cons.
  destruct (decide (c = x)) as [->|Hne].
  - rewrite lookup_insert_eq. rewrite decide_True by (by left). done.
  - rewrite lookup_insert_ne, IH by done. destruct (decide (c ∈ l)).
    + rewrite decide_True by (by right). done.
    + rewrite decide_False; [done|]. by intros [|]%elem_of_cons.
Qed.

(** A field of a redacted row. *)
Lemma redact_row_field t fields field row :
  field ∈ fields → field ∈ backup_columns t →
  ∃ item, reread_row (redact_row fields (export_row array_literal (backup_columns t) row)) = RowObject item ∧
    item !! field = Some (BString redactedSensitiveValue).
Proof.
  intros Hin Hcol. unfold export_row. cbn [redact_row reread_row]. eexists. split; [done|].
  rewrite lookup_fmap.
  set (item := list_to_map _ : backup_item).
  assert (is_Some (item !! field)) as Hs.
  { unfold item. rewrite lookup_export. rewrite decide_True by done. done. }
  generalize dependent item. intros item Hs.
  assert (foldr (λ field (item : backup_item), match item !! field with
      | Some _ => <[field := BString redactedSensitiveValue]> item | None => item end) item fields !! field
    = Some (BString redactedSensitiveValue)) as ->; [|done].
  induction fields as [|g l IH]; [by apply elem_of_nil in Hin|]. cbn [foldr].
  set (rest := foldr _ item l) in *.
  assert (is_Some (rest !! field)) as Hr.
  { unfold rest. clear -Hs. induction l as [|g l IH]; [done|]. cbn [foldr].
    destruct (foldr _ item l !! g) eqn:?; [|done].
    destruct (decide (g = field)) as [->|]; [by rewrite lookup_insert_eq|by rewrite lookup_insert_ne]. }
  destruct (decide (g = field)) as [->|Hne].
  - destruct Hr as [v ->]. by rewrite lookup_insert_eq.
  - assert (field ∈ l) as Hl by (by apply elem_of_cons in Hin as [|]).
    destruct (rest !! g); [rewrite lookup_insert_ne by done|]; by apply IH.
Qed.

Lemma redacted_rows now db createdBy t fields :
  (t, fields) ∈ backupSensitiveFields →
  manifest_rows (stored_backup now db createdBy false) t
  = map (λ row, reread_row (redact_row fields (export_row array_literal (backup_columns t) row))) (rows_of db t).
Proof.
  intros Hin. unfold manifest_rows, stored_backup, assemble, reread. cbn [mf_Tables].
  rewrite lookup_fmap. unfold redactBackupSensitiveFields, backupSensitiveFields in *.
  assert (∃ ts, ((list_to_map ((λ t, (t, queryRowsAsObjects array_literal db t)) <$> backupExportTables)
    : gmap string (list backup_row)) = ts) ∧ ts !! t = Some (queryRowsAsObjects array_literal db t)) as (ts & -> & Ht).
  { eexists. split; [done|]. rewrite lookup_export. apply decide_True.
    repeat (apply elem_of_cons in Hin as [[= -> ->]|Hin]; [set_solver|]). by apply elem_of_nil in Hin. }
  cbn [foldr fst snd].
  repeat (apply elem_of_cons in Hin as [[= -> ->]|Hin]);
    [..|by apply elem_of_nil in Hin];
    repeat first [rewrite lookup_alter_ne by done | rewrite lookup_alter_eq];
    rewrite Ht; cbn [fmap option_fmap option_map default]; unfold queryRowsAsObjects;
    rewrite !map_map; reflexivity.
Qed.
End redaction.

Lemma check_all_ok {A} (f : A → result unit) l : check_all f l = Ok tt → Forall (λ x, f x = Ok tt) l.
Proof.
  induction l as [|x l IH]; [constructor|]. cbn [check_all]. destruct (f x) as [[]|e] eqn:Hf; [|done].
  intros Hl. constructor; [done|by apply IH].
Qed.
Lemma validate_ok m :
  validateBackupManifest m true = Ok tt →
  mf_SensitiveRedacted m = false ∧
  Forall (λ tf, Forall (λ row, check_row tf.1 tf.2 row = Ok tt) (manifest_rows m tf.1)) backupSensitiveFields.
Proof.
  unfold validateBackupManifest. intros H.
  destruct (TrimSpace (mf_Version m) =? "")%string; [done|].
  destruct (bool_decide (mf_Tables m = ∅)); [done|]. destruct (find _ _); [done|].
  cbn [negb] in H. destruct (mf_SensitiveRedacted m); [done|].
  destruct (validateNoRedactedSensitiveFields m) as [[]|] eqn:Hn; [|done].
  split; [done|]. apply check_all_ok in Hn. eapply Forall_impl; [exact Hn|].
  intros tf. apply check_all_ok.
Qed.
Lemma sensitive_exported t fields field :
  (t, fields) ∈ backupSensitiveFields → field ∈ fields → field ∈ backup_columns t.
Proof.
  unfold backupSensitiveFields. intros Hin Hf.
  repeat (apply elem_of_cons in Hin as [[= -> ->]|Hin]); [..|by apply elem_of_nil in Hin];
    apply list_elem_of_singleton in Hf as ->; vm_compute; repeat constructor.
Qed.

(** The columns whose values let a reader act as somebody else. *)
Definition secrets : list (string * string) :=
  [("users", "password_hash"); ("tokens", "token"); ("nodes", "enrolled_with_token")].
Lemma secret_sensitive t field :
  (t, field) ∈ secrets → ∃ fields, (t, fields) ∈ backupSensitiveFields ∧ field ∈ fields.
Proof.
  unfold secrets. intros Hin.
  repeat (apply elem_of_cons in Hin as [[= -> ->]|Hin]); [..|by apply elem_of_nil in Hin];
    [exists ["password_hash"]|exists ["token"]|exists ["enrolled_with_token"]];
    (split; [unfold backupSensitiveFields; set_solver|by left]).
Qed.

(** A backup made without the secrets holds, for every password hash, enrolment
    token and token of a node, only the mark of redaction, and as soon as there is one
    such row no manifest with these tables is accepted for a restore, even when its
    header claims that nothing was redacted. *)
Theorem redacted_backup_refused array_literal now db createdBy m t field row :
  mf_Tables m = mf_Tables (stored_backup array_literal now db createdBy false) →
  (t, field) ∈ secrets → row ∈ rows_of db t →
  Forall (λ r, ∃ item, r = RowObject item ∧ item !! field = Some (BString redactedSensitiveValue))
    (manifest_rows m t) ∧
  is_ok (validateBackupManifest m true) = false.
Proof.
  intros Hm (fields & Hin & Hf)%secret_sensitive Hrow.
  assert (manifest_rows m t = manifest_rows (stored_backup array_literal now db createdBy false) t) as Hr
    by (unfold manifest_rows; by rewrite Hm).
  rewrite (redacted_rows _ _ _ _ _ _ Hin) in Hr. rewrite Hr.
  assert (∀ r, ∃ item,
    reread_row (redact_row fields (export_row array_literal (backup_columns t) r)) = RowObject item ∧
    item !! field = Some (BString redactedSensitiveValue)) as Hfield.
  { intros r. eapply (redact_row_field array_literal t); [exact Hf|by eapply sensitive_exported]. }
  split.
  - apply Forall_forall. intros r (r0 & <- & _)%list_elem_of_In%in_map_iff. apply Hfield.
  - destruct (validateBackupManifest m true) as [[]|] eqn:Hv; [exfalso|done].
    apply validate_ok in Hv as [_ Hall]. rewrite Forall_forall in Hall. specialize (Hall _ Hin).
    rewrite Forall_forall in Hall. destruct (Hfield row) as (item & Hi & Hl).
    specialize (Hall (RowObject item)). cbn [fst snd check_row] in Hall.
    destruct (find _ fields) eqn:Hfind.
    + discriminate Hall. rewrite Hr, <-Hi. apply list_elem_of_In, in_map_iff. exists row.
      split; [done|by apply list_elem_of_In].
    + apply list_elem_of_In, (find_none _ _ Hfind) in Hf.
      cbn [eventDetailString] in Hf. rewrite Hl in Hf. vm_compute in Hf. done.
Qed.

(** ** Uploads *)

Definition name_char (c : ascii) : Prop := alnum c = true ∨ c = "-"%char.
Lemma dashed_chars b l : Forall name_char (dashed b l).
Proof.
  revert b. induction l as [|c l IH]; intros b; [constructor|]. cbn [dashed].
  destruct (alnum c) eqn:?; [constructor; [by left|apply IH]|]. destruct b; [apply IH|].
  constructor; [by right|apply IH].
Qed.
Lemma trim_set_left_Forall (P : ascii → Prop) set l : Forall P l → Forall P (trim_set_left set l).
Proof. induction 1; simpl; [constructor|]. destruct (in_set _ _); [done|by constructor]. Qed.

(** Whatever file name an upload carries, the backup is stored under a name of
    small letters, digits and dashes, so the file is in the backup directory. *)
Theorem uploadedBackupID_safe filename :
  uploadedBackupID filename ≠ "" ∧
  Forall name_char (String.list_ascii_of_string (uploadedBackupID filename)).
Proof.
  unfold uploadedBackupID. cbv zeta. set (id := Trim _ _).
  assert (Forall name_char (String.list_ascii_of_string id)) as Hid.
  { unfold id, Trim. rewrite !list_string_list. apply Forall_rev, trim_set_left_Forall, Forall_rev,
      trim_set_left_Forall, dashed_chars. }
  destruct (id =? "")%string eqn:He; bools; [|done]. split; [done|].
  vm_compute. repeat (constructor; [first [by left|by right]|]). constructor.
Qed.

(** ** Backups with access rules *)

Section access_rules.
Context (accepts : string → columns → bool) (parse_array : string → option (list string))
  (uuid_Parse : string → option UUID).

Lemma restore_args_names t cols item args :
  restore_args parse_array t cols item = Ok args → args.*1 = cols.
Proof.
  revert args. induction cols as [|c l IH]; intros args; cbn [restore_args]; [by intros [= <-]|].
  destruct (normalizeRestoreValue _ _ _); [|done].
  destruct (restore_args _ t l item); [|done]. intros [= <-]. rewrite fmap_cons. simpl. f_equal. by apply IH.
Qed.
(** A column that an INSERT does not name and that has no default stays NULL. *)
Lemma new_row_unset now id t args c :
  c ∉ args.*1 → c ∉ (match schema_of t with Some s => ts_defaults s | None => [] end).*1 →
  new_row now id t args !! c = None.
Proof.
  intros Ha Hd. unfold new_row. apply lookup_union_None. split.
  - rewrite lookup_omap. rewrite not_elem_of_list_to_map_1; done.
  - apply not_elem_of_list_to_map_1. intros ([c' v] & -> & (cd & [= -> ->] & Hin)%list_elem_of_fmap)%list_elem_of_fmap.
    apply Hd. apply elem_of_filter_list in Hin as [_ Hin]. apply list_elem_of_fmap. by exists cd.
Qed.

Lemma acl_row_refused row e st : is_ok (restore_row accepts parse_array (mkSpec "acl_rules" (backup_columns "acl_rules")) row e st).1 = false.
Proof.
  destruct row as [item|]; [|done]. unfold restore_row. rewrite bbind_inv. cbn [bt_Name bt_Columns].
  destruct (restore_args _ _ _ _) as [args|x] eqn:Hargs; [|done]. cbn [blift fst snd].
  unfold insert_args, bexec, bstep. destruct (env_fault e (b_tick st)); [done|]. cbn [mbind result_bind].
  unfold insert_row. destruct (negb (accepts _ _)); [done|].
  assert (filled "acl_rules" (new_row (env_now e) (env_uuid e (b_tick st) 0%nat) "acl_rules" args) = false) as ->; [|done].
  apply not_true_iff_false. intros Hf. unfold filled in Hf. rewrite forallb_forall in Hf.
  specialize (Hf "src_net" ltac:(vm_compute; auto)). bools.
  rewrite new_row_unset in Hf; [by destruct Hf|..].
  - rewrite (restore_args_names _ _ _ _ Hargs). vm_compute. set_solver.
  - vm_compute. set_solver.
Qed.

Lemma restore_tables_acl m selected e st :
  manifest_rows m "acl_rules" ≠ [] → mkSpec "acl_rules" (backup_columns "acl_rules") ∈ selected →
  is_ok (restore_tables accepts parse_array m selected e st).1 = false.
Proof.
  intros Hm. revert st. induction selected as [|spec l IH]; intros st Hin; [by apply elem_of_nil in Hin|].
  cbn [restore_tables]. rewrite bbind_inv.
  destruct (restoreBackupTable _ _ _ _ e st) as [[n|x] st1] eqn:Ht; [|done]. cbn [fst snd].
  rewrite bbind_inv. destruct (restore_tables _ _ m l e st1) as [[c|x] st2] eqn:Hl; [|done]. exfalso.
  apply elem_of_cons in Hin as [<-|Hin].
  - unfold restoreBackupTable in Ht. apply bbind_ok in Ht as (u & st3 & Hb & _). cbn [bt_Name] in Hb.
    destruct (manifest_rows m "acl_rules") as [|row rows]; [done|]. cbn [beach] in Hb.
    apply bbind_ok in Hb as (u' & st4 & Hrow & _). pose proof (acl_row_refused row e st) as Hx.
    by rewrite Hrow in Hx.
  - specialize (IH st1 Hin). by rewrite Hl in IH.
Qed.

(** A backup that holds an access rule cannot be restored with its access
    rules: the columns src_net and dst_net are neither exported nor optional, so the
    first INSERT fails and the transaction leaves every table as it was. *)
Theorem acl_backup_refused m backupID actor selected e st :
  manifest_rows m "acl_rules" ≠ [] → "acl_rules" ∈ (bt_Name <$> selected) → selected ⊆ backupRestoreTables →
  ∃ x st', restoreBackupManifest accepts parse_array uuid_Parse m backupID actor selected e st = (Err x, st') ∧
    b_tables st' = b_tables st.
Proof.
  intros Hm (spec & Hn & Hin)%list_elem_of_fmap Hsub.
  assert (spec = mkSpec "acl_rules" (backup_columns "acl_rules")) as ->.
  { apply Hsub in Hin. unfold backupRestoreTables in Hin.
    repeat (apply elem_of_cons in Hin as [->|Hin]; [first [done|discriminate Hn]|]). by apply elem_of_nil in Hin. }
  destruct (restoreBackupManifest _ _ _ m backupID actor selected e st) as [[c|x] st'] eqn:Hr.
  - exfalso. unfold restoreBackupManifest, btx in Hr. destruct (env_fault e (b_tick st)); [done|].
    rewrite bbind_inv in Hr. destruct (beach _ _ _ _) as [[u|x] st1] in Hr; [|done]. cbn [fst snd] in Hr.
    rewrite bbind_inv in Hr. pose proof (restore_tables_acl m selected e st1 Hm Hin) as Hx.
    destruct (restore_tables _ _ m selected e st1) as [[c'|x] st2]; [done|]. done.
  - exists x, st'. split; [done|]. by eapply spares_btx_err.
Qed.
End access_rules.
