(* ===== verification/BackupRestoreSpec.v ===== *)
(** * What a restore writes

    A full restore empties every table of the schema and loads the manifest; it
    succeeds whenever the rows of the manifest make up a database, and so a backup with
    its secrets restores what it was made of, access rules and empty arrays
    excepted. *)

From S2P Require Import Prelude GoStr Records Store PublicNetwork Sessions Relations Backup BackupSpec.

Open Scope Z_scope.

(** ** Emptying the tables *)

(** The key of a row of [node_policy_stats] is not NULL. *)
Definition stats_keyed (db : tables) : Prop :=
  ∀ row, row ∈ rows_of db "node_policy_stats" → is_Some (row !! "node_id").

Ltac decided := apply (bool_decide_unpack _); vm_compute; exact I.

(** The first tables of the clean-up, which nothing refers to when they go. *)
Definition leaf_tables : list string := take 18 backupRestoreCleanupTables.
Definition root_or_leaf (t : string) : Prop := t = "nodes" ∨ t = "node_policy_stats" ∨ t ∈ leaf_tables.
Lemma referrers_known : Forall root_or_leaf (referrers "nodes" ++ referrers "tenants").
Proof. unfold root_or_leaf. decided. Qed.
Lemma schema_known : Forall (λ t, t = "tenants" ∨ root_or_leaf t) (ts_name <$> schema).
Proof. unfold root_or_leaf. decided. Qed.

Lemma cleanup_split : backupRestoreCleanupTables = leaf_tables ++ ["nodes"; "tenants"].
Proof. vm_compute. reflexivity. Qed.
Lemma leaves_first : children_first [] leaf_tables = true.
Proof. vm_compute. reflexivity. Qed.
Lemma stats_of_nodes : referrers "node_policy_stats" = [] ∧ (belongs "node_id" "nodes") ∈ foreign_keys "node_policy_stats".
Proof. split; [vm_compute; reflexivity|]. vm_compute. by left. Qed.
Lemma roots_no_leaf : ("nodes" ∉ leaf_tables) ∧ ("node_policy_stats" ∉ leaf_tables).
Proof. decided. Qed.

Lemma cleanup_empties db :
  intact db → stats_keyed db →
  ∃ db', delete_each backupRestoreCleanupTables db = Ok db' ∧ intact db' ∧
    ∀ t, t ∈ (ts_name <$> schema) → rows_of db' t = [].
Proof.
  intros Hi Hs. rewrite cleanup_split. destruct roots_no_leaf as [Hnl Hsl].
  pose proof referrers_known as Hr. apply Forall_app in Hr as [Hrn Hrt]. destruct stats_of_nodes as [Hrs Hfk].
  destruct (delete_each_children_first leaf_tables [] db) as (db1 & Hd1 & Hi1 & He1 & Hk1);
    [done|by intros u ?%elem_of_nil|exact leaves_first|].
  rewrite (delete_each_after _ _ _ _ Hd1).
  destruct (delete_cascading "nodes" "node_policy_stats" db1 (belongs "node_id" "nodes"))
    as (db2 & Hd2 & Hi2 & Hn2 & Hp2 & Hk2); [done|done| |by rewrite Hrs|exact Hfk|done|done| |].
  - eapply Forall_impl; [exact Hrn|]. intros u [->|[->|Hu]]; [by left|by right; left|right; right; by apply He1].
  - intros row. rewrite Hk1 by done. apply Hs.
  - rewrite (delete_each_cons _ _ _ _ Hd2).
    assert (∀ t, root_or_leaf t → rows_of db2 t = []) as He2.
    { intros t [->|[->|Ht]]; [done|done|]. rewrite Hk2; [by apply He1|by intros ->..]. }
    assert (unreferenced db2 "tenants") as Hu.
    { apply unreferenced_by. eapply Forall_impl; [exact Hrt|]. intros u Hu. right. by apply He2. }
    rewrite (delete_each_cons _ _ _ _ (delete_unreferenced _ _ Hi2 Hu)).
    eexists. split; [reflexivity|].
    split; [by apply intact_without|]. intros t Ht.
    destruct (decide (t = "tenants")) as [->|]; [apply rows_of_insert|].
    rewrite rows_of_insert_ne by done. pose proof schema_known as Hk. rewrite Forall_forall in Hk.
    destruct (Hk t Ht); [done|by apply He2].
Qed.

(** ** Runs without failing statements *)

Lemma bexec_run f e st db :
  no_faults e → f e (env_uuid e (b_tick st) 0%nat) (b_tables st) = Ok db →
  bexec f e st = (Ok tt, mkBSt db (b_files st) (S (b_tick st))).
Proof. intros He Hf. unfold bexec, bstep. rewrite He. cbn [mbind result_bind]. by rewrite Hf. Qed.
Lemma beach_cons_run {A} (f : A → B unit) x l e st st1 :
  f x e st = (Ok tt, st1) → beach (x :: l) f e st = beach l f e st1.
Proof. intros Hf. cbn [beach]. by rewrite (bbind_run _ _ _ _ _ _ Hf). Qed.

Lemma cleanup_run l e st db :
  no_faults e → delete_each l (b_tables st) = Ok db →
  ∃ n, beach l (λ t, bexec (λ _ _ db, delete_from t db)) e st = (Ok tt, mkBSt db (b_files st) n).
Proof.
  intros He. revert st. induction l as [|t l IH]; intros st; cbn [delete_each].
  { intros [= <-]. exists (b_tick st). by destruct st. }
  destruct (delete_from t (b_tables st)) as [db1|x] eqn:Hd; [|done]. cbn [mbind result_bind]. intros Hl.
  destruct (IH (mkBSt db1 (b_files st) (S (b_tick st))) Hl) as [n Hn]. exists n. cbn [b_files] in Hn. rewrite <-Hn.
  apply beach_cons_run. by apply bexec_run.
Qed.

Section restore.
Context (accepts : string → columns → bool) (parse_array : string → option (list string))
  (uuid_Parse : string → option UUID).

(** ** Loading rows *)

(** The row a restore makes of one row of a manifest. *)
Definition restored_row (now : Time) (spec : backupTableSpec) (raw : backup_row) : result columns :=
  match raw with
  | RowOther => Err (not_object (bt_Name spec))
  | RowObject item =>
    args ← restore_args parse_array (bt_Name spec) (bt_Columns spec) item;
    Ok (new_row now "" (bt_Name spec) args)
  end.
(** Rows that can be added one after another to a table that holds [before],
    when their keys refer to the rows of [g]. *)
Fixpoint loadable (g : tables) (t : string) (before rows : list columns) : Prop :=
  match rows with
  | [] => True
  | row :: rest =>
    accepts t row = true ∧ filled t row = true ∧ distinct_from t row before = true ∧
    intact_row g t row = true ∧ loadable g t (before ++ [row]) rest
  end.

(** The tables a restore names have their identifier among the columns, so no
    identifier is generated. *)
Definition default_ids (t : string) : bool :=
  forallb (λ cd, match cd.2 with DefaultUUID => (cd.1 =? "id")%string | _ => true end)
    (match schema_of t with Some s => ts_defaults s | None => [] end).
Lemma default_ids_all : forallb (λ s, default_ids (bt_Name s) && bool_decide ("id" ∈ bt_Columns s)) backupRestoreTables = true.
Proof. vm_compute. reflexivity. Qed.
Lemma new_row_fresh now id id' t args :
  default_ids t = true → "id" ∈ args.*1 → new_row now id t args = new_row now id' t args.
Proof.
  unfold default_ids, new_row. intros Hd Hin. f_equal. f_equal. apply list_fmap_ext.
  intros i cd Hcd. apply list_elem_of_lookup_2, elem_of_filter_list in Hcd as [Hn Hcd].
  rewrite forallb_forall in Hd. specialize (Hd cd (proj1 (list_elem_of_In _ _) Hcd)).
  destruct cd as [c d]. destruct d; try done. simpl in *. bools. by subst.
Qed.

Lemma insert_row_run t row db :
  accepts t row = true → filled t row = true → distinct_from t row (rows_of db t) = true →
  intact_row db t row = true → insert_row accepts t row db = Ok (<[t := rows_of db t ++ [row]]> db).
Proof. unfold insert_row. by intros -> -> -> ->. Qed.
Lemma intact_row_ext db db' t row :
  (∀ fk, fk ∈ foreign_keys t → rows_of db' (fk_parent fk) = rows_of db (fk_parent fk)) →
  intact_row db' t row = intact_row db t row.
Proof.
  intros H. unfold intact_row. induction (foreign_keys t) as [|fk l IH]; [done|]. cbn [forallb].
  rewrite (resolves_ext db db') by (apply H; by left). f_equal. apply IH. intros fk' Hin. apply H. by right.
Qed.

Lemma load_rows_run spec raws rows g e st :
  no_faults e → spec ∈ backupRestoreTables →
  (∀ fk, fk ∈ foreign_keys (bt_Name spec) →
    fk_parent fk ≠ bt_Name spec ∧ rows_of (b_tables st) (fk_parent fk) = rows_of g (fk_parent fk)) →
  Forall2 (λ raw row, restored_row (env_now e) spec raw = Ok row) raws rows →
  loadable g (bt_Name spec) (rows_of (b_tables st) (bt_Name spec)) rows →
  ∃ st', beach raws (restore_row accepts parse_array spec) e st = (Ok tt, st') ∧
    rows_of (b_tables st') (bt_Name spec) = rows_of (b_tables st) (bt_Name spec) ++ rows ∧
    (∀ u, u ≠ bt_Name spec → rows_of (b_tables st') u = rows_of (b_tables st) u) ∧
    b_files st' = b_files st.
Proof.
  intros He Hspec Hp Hall. revert st Hp.
  pose proof default_ids_all as Hids. rewrite forallb_forall in Hids.
  specialize (Hids spec (proj1 (list_elem_of_In _ _) Hspec)). bools. rename H into Hid. rename H0 into Hcol.
  set (t := bt_Name spec) in *. induction Hall as [|raw row raws rows Hraw Hall IH]; intros st Hp Hl.
  { exists st. rewrite app_nil_r. split_and!; done. }
  destruct Hl as (Ha & Hf & Hd & Hi & Hl).
  destruct raw as [item|]; [|done]. unfold restored_row in Hraw.
  destruct (restore_args _ _ _ item) as [args|x] eqn:Hargs; [|done].
  cbn [mbind result_bind] in Hraw. injection Hraw as <-.
  set (row := new_row (env_now e) "" t args) in *.
  set (st1 := mkBSt (<[t := rows_of (b_tables st) t ++ [row]]> (b_tables st)) (b_files st) (S (b_tick st))).
  assert (restore_row accepts parse_array spec (RowObject item) e st = (Ok tt, st1)) as Hrun.
  { unfold restore_row. rewrite (bbind_run _ _ e st args st) by (by rewrite Hargs).
    unfold insert_args. apply bexec_run; [done|]. fold t.
    rewrite (new_row_fresh _ _ "" t args); [|done|by rewrite (restore_args_names _ _ _ _ _ Hargs)].
    apply insert_row_run; [done|done|done|]. rewrite <-Hi. apply intact_row_ext. intros fk Hfk. by apply Hp. }
  destruct (IH st1) as (st' & Hb & Hr & Hk & Hfl).
  - intros fk Hfk. destruct (Hp fk Hfk) as [Hn Hq]. split; [done|]. unfold st1. cbn [b_tables].
    by rewrite rows_of_insert_ne.
  - unfold st1. cbn [b_tables]. by rewrite rows_of_insert.
  - exists st'. rewrite (beach_cons_run _ _ _ _ _ _ Hrun). split_and!; [done|..].
    + rewrite Hr. unfold st1. cbn [b_tables]. rewrite rows_of_insert, <-(assoc_L (++)). done.
    + intros u Hu. rewrite Hk by done. unfold st1. cbn [b_tables]. by rewrite rows_of_insert_ne.
    + by rewrite Hfl.
Qed.

(** ** Loading tables *)

Fixpoint parents_first (loaded l : list string) : bool :=
  match l with
  | [] => true
  | t :: l' => forallb (λ fk, bool_decide (fk_parent fk ≠ t) && bool_decide (fk_parent fk ∈ loaded)) (foreign_keys t)
               && bool_decide (t ∉ l') && parents_first (t :: loaded) l'
  end.
Lemma restore_order : parents_first [] (bt_Name <$> backupRestoreTables) = true.
Proof. vm_compute. reflexivity. Qed.

(** [g] has the rows a restore makes of the manifest, and they can be loaded. *)
Definition image (now : Time) (m : backupManifest) (g : tables) (spec : backupTableSpec) : Prop :=
  Forall2 (λ raw row, restored_row now spec raw = Ok row) (manifest_rows m (bt_Name spec)) (rows_of g (bt_Name spec)) ∧
  loadable g (bt_Name spec) [] (rows_of g (bt_Name spec)).

Definition row_count (m : backupManifest) (spec : backupTableSpec) : string * Z :=
  (bt_Name spec, Z.of_nat (length (manifest_rows m (bt_Name spec)))).
Lemma restore_tables_run m g l loaded e st :
  no_faults e → l ⊆ backupRestoreTables → Forall (image (env_now e) m g) l →
  parents_first loaded (bt_Name <$> l) = true →
  (∀ t, t ∈ loaded → rows_of (b_tables st) t = rows_of g t) →
  (∀ t, t ∈ (bt_Name <$> l) → rows_of (b_tables st) t = []) →
  ∃ st', restore_tables accepts parse_array m l e st = (Ok (row_count m <$> l), st') ∧
    (∀ t, t ∈ loaded ++ (bt_Name <$> l) → rows_of (b_tables st') t = rows_of g t) ∧
    (∀ u, u ∉ (bt_Name <$> l) → rows_of (b_tables st') u = rows_of (b_tables st) u) ∧
    b_files st' = b_files st.
Proof.
  intros He. revert loaded st. induction l as [|spec l IH]; intros loaded st Hsub Him Hp Hl Hnil.
  { exists st. rewrite app_nil_r. split_and!; done. }
  apply Forall_cons in Him as [[Hall Hload] Him]. cbn [fmap list_fmap parents_first] in Hp. bools.
  rename H into Hpar. rename H1 into Hnot. rename H0 into Hrest.
  assert (∀ fk, fk ∈ foreign_keys (bt_Name spec) →
    fk_parent fk ≠ bt_Name spec ∧ rows_of (b_tables st) (fk_parent fk) = rows_of g (fk_parent fk)) as Hparents.
  { intros fk Hfk. rewrite forallb_forall in Hpar.
    specialize (Hpar fk (proj1 (list_elem_of_In _ _) Hfk)). bools. split; [done|by apply Hl]. }
  assert (rows_of (b_tables st) (bt_Name spec) = []) as Hempty by (apply Hnil; by left).
  rewrite <-Hempty in Hload.
  destruct (load_rows_run spec _ _ g e st He ltac:(apply Hsub; by left) Hparents Hall Hload)
    as (st1 & Hb & Hr & Hk & Hf).
  rewrite Hempty in Hr. cbn [app] in Hr.
  destruct (IH (bt_Name spec :: loaded) st1) as (st2 & Hrun & Hdone & Hkeep & Hfiles).
  - intros s Hs. apply Hsub. by right.
  - done.
  - done.
  - intros t Ht. destruct (decide (t = bt_Name spec)) as [->|Hne]; [done|].
    rewrite Hk by done. apply Hl. by apply elem_of_cons in Ht as [|].
  - intros t Ht. rewrite Hk; [apply Hnil; by right|]. by intros ->.
  - exists st2. cbn [restore_tables]. unfold restoreBackupTable.
    erewrite bbind_run; [|by rewrite (bbind_run _ _ _ _ _ _ Hb)].
    rewrite (bbind_run _ _ _ _ _ _ Hrun). split_and!; [done|..].
    + intros t Ht. apply Hdone. set_solver.
    + intros u Hu. rewrite Hkeep by set_solver. apply Hk. set_solver.
    + congruence.
Qed.

(** ** The audit events of a restore *)

Definition audit_ok (e : Env) : Prop :=
  (∀ row, accepts "audit_events" row = true) ∧
  (∀ i j, env_uuid e i 0%nat = env_uuid e j 0%nat → i = j).
(** Events with identifiers of earlier statements. *)
Definition earlier_ids (e : Env) (n : nat) (rows : list columns) : Prop :=
  Forall (λ row : columns, ∃ i, (i < n)%nat ∧ row !! "id" = Some (SqlText (env_uuid e i 0%nat))) rows.

Lemma audit_insert_run e st tenantID ty actor summary detail :
  no_faults e → audit_ok e → earlier_ids e (b_tick st) (rows_of (b_tables st) "audit_events") →
  (∃ row, row ∈ rows_of (b_tables st) "tenants" ∧ row !! "id" = Some (SqlText tenantID)) →
  ∃ row, insert_args accepts "audit_events" (audit_args tenantID ty actor summary detail) e st =
    (Ok tt, mkBSt (<["audit_events" := rows_of (b_tables st) "audit_events" ++ [row]]> (b_tables st))
              (b_files st) (S (b_tick st))) ∧
    row !! "id" = Some (SqlText (env_uuid e (b_tick st) 0%nat)).
Proof.
  intros He [Ha Hu] Hids (tr & Htr & Hid).
  set (row := new_row (env_now e) (env_uuid e (b_tick st) 0%nat) "audit_events"
    (audit_args tenantID ty actor summary detail)).
  assert (row !! "id" = Some (SqlText (env_uuid e (b_tick st) 0%nat))) as Hrid by reflexivity.
  exists row. split; [|done]. unfold insert_args. apply bexec_run; [done|]. apply insert_row_run.
  - apply Ha.
  - reflexivity.
  - change (negb (existsb (same_key ["id"] row) (rows_of (b_tables st) "audit_events")) && true = true).
    rewrite andb_true_r. apply negb_true_iff, not_true_iff_false. intros (other & Hin & Hs)%existsb_exists.
    apply list_elem_of_In in Hin. unfold earlier_ids in Hids. rewrite Forall_forall in Hids.
    destruct (Hids other Hin) as (i & Hi & Hoid). unfold same_key in Hs. cbn [forallb] in Hs. bools.
    rewrite Hrid, Hoid in *. assert (env_uuid e (b_tick st) 0%nat = env_uuid e i 0%nat) as Heq by congruence.
    apply Hu in Heq. lia.
  - change (resolves (b_tables st) row (refers "tenant_id" "tenants") &&
      (resolves (b_tables st) row (refers "node_id" "nodes") && true) = true).
    assert (row !! "node_id" = None) as Hn by reflexivity.
    assert (row !! "tenant_id" = Some (SqlText tenantID)) as Ht by reflexivity.
    unfold resolves. cbn [fk_column fk_parent]. rewrite Hn, Ht. rewrite !andb_true_r.
    apply existsb_exists. exists tr. split; [by apply list_elem_of_In|]. by apply bool_decide_eq_true.
Qed.

Lemma audit_run e st ids ty actor summary detail :
  no_faults e → audit_ok e → earlier_ids e (b_tick st) (rows_of (b_tables st) "audit_events") →
  (∀ id, id ∈ ids → ∃ row, row ∈ rows_of (b_tables st) "tenants" ∧ row !! "id" = Some (SqlText id)) →
  ∃ st', beach ids (λ id, insert_args accepts "audit_events" (audit_args id ty actor summary detail)) e st
      = (Ok tt, st') ∧
    (∀ t, t ≠ "audit_events" → rows_of (b_tables st') t = rows_of (b_tables st) t) ∧ b_files st' = b_files st.
Proof.
  intros He Ha. revert st. induction ids as [|id l IH]; intros st Hids Hten.
  { exists st. split_and!; done. }
  destruct (audit_insert_run e st id ty actor summary detail He Ha Hids) as (row & Hrun & Hid).
  { apply Hten. by left. }
  set (st1 := mkBSt _ _ _) in Hrun.
  destruct (IH st1) as (st' & Hb & Hk & Hf).
  - unfold st1, earlier_ids. cbn [b_tables b_tick]. rewrite rows_of_insert. apply Forall_app. split.
    + eapply Forall_impl; [exact Hids|]. intros r (i & Hi & Hr). exists i. split; [lia|done].
    + apply Forall_singleton. exists (b_tick st). split; [lia|done].
  - intros id' Hin. unfold st1. cbn [b_tables]. rewrite rows_of_insert_ne by done. apply Hten. by right.
  - exists st'. 
    rewrite (beach_cons_run (λ id, insert_args accepts "audit_events" (audit_args id ty actor summary detail)) id l
      e st st1 Hrun). split_and!; [done| |done].
    intros t Ht. rewrite Hk by done. unfold st1. cbn [b_tables]. by rewrite rows_of_insert_ne.
Qed.

Lemma restored_in_schema : Forall (λ s, bt_Name s ∈ (ts_name <$> schema) ∧ bt_Name s ≠ "audit_events") backupRestoreTables.
Proof. decided. Qed.

(** A full restore of a manifest whose rows can be loaded. *)
Lemma restore_loads m backupID actor g e st :
  no_faults e → audit_ok e → intact (b_tables st) → stats_keyed (b_tables st) →
  Forall (image (env_now e) m g) backupRestoreTables →
  (∀ id, id ∈ collectManifestTenantIDs uuid_Parse m →
    ∃ row, row ∈ rows_of g "tenants" ∧ row !! "id" = Some (SqlText id)) →
  ∃ st', restoreBackupManifest accepts parse_array uuid_Parse m backupID actor backupRestoreTables e st
      = (Ok (row_count m <$> backupRestoreTables), st') ∧
    (∀ t, t ∈ (bt_Name <$> backupRestoreTables) → rows_of (b_tables st') t = rows_of g t) ∧
    (∀ t, t ∈ (ts_name <$> schema) → t ∉ (bt_Name <$> backupRestoreTables) → t ≠ "audit_events" →
      rows_of (b_tables st') t = []) ∧
    b_files st' = b_files st.
Proof.
  intros He Ha Hi Hs Him Hten. pose proof restored_in_schema as Hin. rewrite Forall_forall in Hin.
  set (st0 := st <| b_tick := S (b_tick st) |>).
  destruct (cleanup_empties (b_tables st0)) as (db & Hd & _ & Hempty); [done|done|].
  destruct (cleanup_run _ e st0 db He Hd) as [n Hclean].
  set (st1 := mkBSt db (b_files st0) n) in *.
  destruct (restore_tables_run m g backupRestoreTables [] e st1) as (st2 & Hload & Hrows & Hkeep & Hf2);
    [done|done|done|exact restore_order|by intros t ?%elem_of_nil| |].
  { intros t (s & -> & Hspec)%list_elem_of_fmap. apply Hempty. by apply Hin. }
  assert (rows_of (b_tables st2) "audit_events" = []) as Haudit.
  { rewrite Hkeep; [|decided]. apply Hempty. decided. }
  destruct (audit_run e st2 (collectManifestTenantIDs uuid_Parse m) "settings_backup_restored" actor
    "Configuration backup restored" (restore_detail backupID (tableNamesFromSpecs backupRestoreTables)
      (row_count m <$> backupRestoreTables))) as (st3 & Hev & Hk3 & Hf3);
    [done|done|rewrite Haudit; constructor| |].
  { intros id Hid. rewrite Hrows; [by apply Hten|]. decided. }
  exists (st3 <| b_tick := S (b_tick st3) |>). split_and!.
  - unfold restoreBackupManifest, btx. rewrite He. fold st0.
    change (cleanupTablesForRestore backupRestoreTables) with backupRestoreCleanupTables.
    rewrite (bbind_run _ _ _ _ _ _ Hclean), (bbind_run _ _ _ _ _ _ Hload).
    unfold recordBackupRestoreAuditEvents. rewrite (bbind_run _ _ _ _ _ _ Hev). cbn [mret B_ret].
    by rewrite He.
  - intros t Ht. cbn. rewrite Hk3; [by apply Hrows|]. apply list_elem_of_fmap in Ht as (s & -> & Hspec).
    by apply Hin.
  - intros t Ht Hn Hne. cbn. rewrite Hk3, Hkeep by done. by apply Hempty.
  - cbn. by rewrite Hf3, Hf2.
Qed.
End restore.

(** ** From a backup back to its database *)

Section roundtrip.
Context (array_literal : list string → string) (parse_array : string → option (list string))
  (parse_literal : ∀ l, l ≠ [] → parse_array (array_literal l) = Some l).

Definition array_column (c : string) : bool := (c =? "permissions")%string || (c =? "advertised_routes")%string.
(** The values a backup carries over: integers a float64 holds exactly, no empty
    array, and each kind of value in a column of its kind. *)
Definition portable (c : string) (v : sqlval) : bool :=
  match v with
  | SqlArray items => array_column c && negb (bool_decide (items = []))
  | SqlText _ => negb (array_column c)
  | SqlInt n => negb (array_column c) && negb (c =? "resource_quota")%string && (Z.abs n <? 2 ^ 53)
  | _ => negb (array_column c) && negb (c =? "resource_quota")%string
  end.
(** A backup turns the NULL of [must_change_password] into false. *)
Definition kept_value (c : string) (v : option sqlval) : option sqlval :=
  match v with
  | None => if (c =? "must_change_password")%string then Some (SqlBool false) else None
  | Some v => Some v
  end.

Lemma float64_exact n : Z.abs n < 2 ^ 53 → float64 n = n.
Proof.
  intros Hn. unfold float64. destruct (Z.log2 (Z.abs n) - 52 <=? 0) eqn:He; [done|]. bools.
  destruct (decide (n = 0)) as [->|]; [done|].
  assert (Z.log2 (Z.abs n) < 53) by (apply Z.log2_lt_pow2; lia). lia.
Qed.
Lemma value_roundtrip c v :
  (∀ x, v = Some x → portable c x = true) →
  normalizeRestoreValue parse_array c (reread_value (normalizeSQLValue array_literal c v)) = Ok (kept_value c v).
Proof.
  intros Hp. destruct v as [x|].
  - specialize (Hp x eq_refl). unfold portable, array_column in Hp.
    destruct (c =? "permissions")%string eqn:Hpm, (c =? "advertised_routes")%string eqn:Har,
      (c =? "resource_quota")%string eqn:Hq; try (bools; simplify_eq; done);
      destruct x as [n|p|b|s|[|i items]]; try discriminate Hp;
      cbn [normalizeSQLValue reread_value kept_value]; rewrite ?Hq;
      cbn [normalizeRestoreValue reread_value]; rewrite ?Hq, ?Hpm, ?Har; cbn [orb]; try done.
    all: try (cbn [normalizeRestoreTextArray]; by rewrite parse_literal).
    cbn [orb negb andb] in Hp. bools. rewrite float64_exact by done. unfold int64_of_float.
    assert (int64_range n = true) as ->; [|done]. unfold int64_range.
    apply andb_true_iff. split; [apply Z.leb_le|apply Z.ltb_lt]; lia.
  - cbn [normalizeSQLValue kept_value]. destruct (c =? "must_change_password")%string eqn:Hm; [|done].
    bools. by subst.
Qed.

(** The row a restored backup has for a row it was made of. *)
Definition kept_row (now : Time) (t : string) (row : columns) : columns :=
  new_row now "" t ((λ c, (c, kept_value c (row !! c))) <$> backup_columns t).

Lemma restore_args_exported t cols cols' (row : columns) :
  cols' ⊆ cols → (∀ c v, row !! c = Some v → portable c v = true) →
  restore_args parse_array t cols'
    (reread_value <$> (list_to_map ((λ c, (c, normalizeSQLValue array_literal c (row !! c))) <$> cols) : backup_item))
  = Ok ((λ c, (c, kept_value c (row !! c))) <$> cols').
Proof.
  intros Hsub Hp. induction cols' as [|c l IH]; [done|]. cbn [restore_args fmap list_fmap].
  rewrite lookup_fmap, lookup_export. rewrite decide_True by (apply Hsub; by left).
  cbn [fmap option_fmap option_map default]. cbn [id].
  rewrite value_roundtrip by (intros x; apply Hp). rewrite IH; [done|].
  intros c' Hc. apply Hsub. by right.
Qed.
Lemma specs_columns : Forall (λ s, bt_Columns s = backup_columns (bt_Name s)) backupRestoreTables.
Proof. decided. Qed.
Lemma restored_row_exported now spec (row : columns) :
  spec ∈ backupRestoreTables → (∀ c v, row !! c = Some v → portable c v = true) →
  restored_row parse_array now spec (reread_row (export_row array_literal (backup_columns (bt_Name spec)) row))
  = Ok (kept_row now (bt_Name spec) row).
Proof.
  intros Hs Hp. pose proof specs_columns as Hc. rewrite Forall_forall in Hc. specialize (Hc _ Hs).
  unfold export_row, reread_row, restored_row. rewrite Hc.
  rewrite (restore_args_exported _ (backup_columns (bt_Name spec)) (backup_columns (bt_Name spec)) row); done.
Qed.

(** What a kept row holds. *)
Lemma lookup_pairs (f : string → option sqlval) l c :
  (omap id (list_to_map ((λ c, (c, f c)) <$> l) : gmap string (option sqlval)) : columns) !! c
  = if decide (c ∈ l) then f c else None.
Proof. rewrite lookup_omap, lookup_export. by destruct (decide (c ∈ l)). Qed.
Lemma kept_names t (row : columns) : ((λ c, (c, kept_value c (row !! c))) <$> backup_columns t).*1 = backup_columns t.
Proof. rewrite <-list_fmap_compose. apply list_fmap_id. Qed.
Lemma kept_lookup now t row c :
  c ∈ backup_columns t → kept_row now t row !! c = kept_value c (row !! c).
Proof.
  intros Hc. unfold kept_row, new_row. rewrite lookup_union, lookup_pairs, decide_True by done.
  rewrite kept_names. rewrite (not_elem_of_list_to_map_1 _ c); [by destruct (kept_value _ _)|].
  intros ([c' v] & -> & (cd & [= -> ->] & Hin)%list_elem_of_fmap)%list_elem_of_fmap.
  by apply elem_of_filter_list in Hin as [Hn _].
Qed.
Lemma kept_lookup_id now t row c :
  c ∈ backup_columns t → c ≠ "must_change_password" → kept_row now t row !! c = row !! c.
Proof.
  intros Hc Hn. rewrite kept_lookup by done. destruct (row !! c); [done|]. cbn [kept_value].
  by rewrite (proj2 (String.eqb_neq _ _) Hn).
Qed.
Lemma kept_default now t row c :
  c ∉ backup_columns t → c ∈ (match schema_of t with Some s => ts_defaults s | None => [] end).*1 →
  is_Some (kept_row now t row !! c).
Proof.
  intros Hn Hd. unfold kept_row, new_row. rewrite lookup_union, lookup_pairs, decide_False by done.
  rewrite kept_names. apply list_elem_of_fmap in Hd as (cd & -> & Hcd).
  destruct (list_to_map _ !! cd.1) as [v|] eqn:Hl; [by eexists|]. exfalso.
  apply not_elem_of_list_to_map in Hl. apply Hl. apply list_elem_of_fmap.
  exists (cd.1, default_value now "" cd.2). split; [done|]. apply list_elem_of_fmap. exists cd.
  split; [done|]. apply elem_of_filter_list. by split.
Qed.

(** The default the schema gives a column; identifiers, which a database makes up,
    are among the exported columns. *)
Definition schema_default (now : Time) (t c : string) : option sqlval :=
  default_value now "" <$>
    (list_to_map (match schema_of t with Some s => ts_defaults s | None => [] end) : gmap string column_default) !! c.
Lemma lookup_unnamed now (l : list (string * column_default)) (names : list string) c : c ∉ names →
  (list_to_map ((λ cd, (cd.1, default_value now "" cd.2)) <$> filter (λ cd, cd.1 ∉ names) l) : columns) !! c
  = default_value now "" <$> (list_to_map l : gmap string column_default) !! c.
Proof.
  intros Hn. induction l as [|[k d] l IH]; [done|]. rewrite filter_cons. cbn [fst].
  destruct (decide (c = k)) as [<-|Hne].
  - rewrite decide_True by done. cbn [fmap list_fmap list_to_map foldr fst snd uncurry].
    by rewrite !lookup_insert_eq.
  - cbn [list_to_map foldr uncurry fst snd]. rewrite lookup_insert_ne by done. fold (list_to_map (M := gmap string column_default) l).
    destruct (decide (k ∉ names)); [|done]. cbn [fmap list_fmap list_to_map foldr fst snd uncurry].
    by rewrite lookup_insert_ne.
Qed.
Lemma kept_lookup_default now t row c :
  c ∉ backup_columns t → kept_row now t row !! c = schema_default now t c.
Proof.
  intros Hn. unfold kept_row, new_row. rewrite lookup_union, lookup_pairs, decide_False by done.
  rewrite kept_names, lookup_unnamed by done. unfold schema_default. by destruct (default_value now "" <$> _).
Qed.
(** What a restore makes of a row: the exported columns as they were, except that a
    password whose change is not known to be due is not due, and the others as a
    new row has them. *)
Definition comes_back (now : Time) (t : string) (row row' : columns) : Prop := ∀ c,
  (c ∈ backup_columns t → c ≠ "must_change_password" → row' !! c = row !! c) ∧
  (c ∈ backup_columns t → c = "must_change_password" → row' !! c = Some (default (SqlBool false) (row !! c))) ∧
  (c ∉ backup_columns t → row' !! c = schema_default now t c).
Lemma kept_row_comes_back now t row : comes_back now t row (kept_row now t row).
Proof.
  intros c. split_and!; [by apply kept_lookup_id| |by apply kept_lookup_default].
  intros Hc ->. rewrite kept_lookup by done. by destruct (row !! _).
Qed.

(** What the schema must give for a table to come back from a backup: it does for
    every restored table but [acl_rules]. *)
Definition recoverable (t : string) : bool :=
  forallb (λ c, bool_decide (c ∈ backup_columns t) ||
    bool_decide (c ∈ (match schema_of t with Some s => ts_defaults s | None => [] end).*1)) (not_null_of t) &&
  forallb (λ key, forallb (λ c, bool_decide (c ∈ backup_columns t) && negb (c =? "must_change_password")%string) key)
    (match schema_of t with Some s => ts_unique s | None => [] end) &&
  forallb (λ fk, bool_decide (fk_column fk ∈ backup_columns t) && negb (fk_column fk =? "must_change_password")%string &&
    bool_decide (fk_parent fk ∈ (bt_Name <$> backupRestoreTables)) &&
    bool_decide ("id" ∈ backup_columns (fk_parent fk))) (foreign_keys t).
Lemma all_recoverable :
  Forall (λ s, bt_Name s = "acl_rules" ∨ recoverable (bt_Name s) = true) backupRestoreTables.
Proof. decided. Qed.

(** A database that keeps its constraints. *)
Fixpoint all_distinct (t : string) (before rows : list columns) : bool :=
  match rows with
  | [] => true
  | row :: rest => distinct_from t row before && all_distinct t (before ++ [row]) rest
  end.
Record sound (db : tables) : Prop := {
  sound_filled : ∀ t row, row ∈ rows_of db t → filled t row = true;
  sound_distinct : ∀ t, all_distinct t [] (rows_of db t) = true;
  sound_intact : intact db;
}.

Lemma forallb_elem {A} (f : A → bool) l x : forallb f l = true → x ∈ l → f x = true.
Proof. intros Hl Hx. rewrite forallb_forall in Hl. by apply Hl, list_elem_of_In. Qed.

Lemma kept_filled now t row : recoverable t = true → filled t row = true → filled t (kept_row now t row) = true.
Proof.
  unfold recoverable. intros Hr Hf. bools. apply forallb_forall. intros c Hc%list_elem_of_In.
  pose proof (forallb_elem _ _ c H Hc) as Hx. cbn beta in Hx. apply bool_decide_eq_true.
  destruct (decide (c ∈ backup_columns t)) as [Hin|Hn].
  - rewrite kept_lookup by done. pose proof (forallb_elem _ _ c Hf Hc) as Hs. cbn beta in Hs. bools.
    destruct Hs as [v ->]. by eexists.
  - apply kept_default; [done|]. apply orb_true_iff in Hx as [Hx|Hx]; bools; done.
Qed.
Lemma kept_same_key now t key a b :
  forallb (λ c, bool_decide (c ∈ backup_columns t) && negb (c =? "must_change_password")%string) key = true →
  same_key key (kept_row now t a) (kept_row now t b) = same_key key a b.
Proof.
  unfold same_key. induction key as [|c key IH]; [done|]. cbn [forallb]. intros H. bools.
  rewrite !kept_lookup_id by done. by rewrite IH.
Qed.
Lemma kept_distinct now t row before :
  recoverable t = true → distinct_from t (kept_row now t row) (kept_row now t <$> before) = distinct_from t row before.
Proof.
  unfold recoverable, distinct_from. intros [[_ Hkeys]%andb_true_iff _]%andb_true_iff.
  induction (match schema_of t with Some s => ts_unique s | None => [] end) as [|key l IH]; [done|].
  cbn [forallb] in *. bools. rewrite IH by done. f_equal. f_equal. clear IH.
  induction before as [|b before IHb]; [done|]. cbn [fmap list_fmap existsb]. by rewrite kept_same_key, IHb.
Qed.

(** The tables a backup of [db] restores. *)
Definition kept_tables (now : Time) (db : tables) : tables :=
  list_to_map ((λ t, (t, kept_row now t <$> rows_of db t)) <$> (bt_Name <$> backupRestoreTables)).
Lemma rows_of_kept now db t :
  t ∈ (bt_Name <$> backupRestoreTables) → rows_of (kept_tables now db) t = kept_row now t <$> rows_of db t.
Proof. intros Ht. unfold rows_of at 1, kept_tables. rewrite lookup_export. by rewrite decide_True. Qed.

Lemma kept_intact now db t row :
  recoverable t = true → intact_row (kept_tables now db) t (kept_row now t row) = intact_row db t row.
Proof.
  unfold recoverable, intact_row. intros [_ Hk]%andb_true_iff.
  induction (foreign_keys t) as [|fk l IH]; [done|]. cbn [forallb] in *.
  apply andb_true_iff in Hk as [Hfk Hk]. rewrite IH by done. f_equal.
  apply andb_true_iff in Hfk as [[[Hc Hm]%andb_true_iff Hp]%andb_true_iff Hid]. bools.
  unfold resolves. rewrite kept_lookup_id by done. destruct (row !! fk_column fk) as [v|]; [|done].
  rewrite rows_of_kept by done. induction (rows_of db (fk_parent fk)) as [|p ps IHp]; [done|].
  cbn [fmap list_fmap existsb]. rewrite IHp. by rewrite kept_lookup_id.
Qed.

Lemma kept_loadable accepts now db t before rows :
  recoverable t = true →
  (∀ row, row ∈ rows → filled t row = true ∧ intact_row db t row = true ∧ accepts t (kept_row now t row) = true) →
  all_distinct t before rows = true →
  loadable accepts (kept_tables now db) t (kept_row now t <$> before) (kept_row now t <$> rows).
Proof.
  intros Hr. revert before. induction rows as [|row rows IH]; intros before Hrows Hd; [done|].
  apply andb_true_iff in Hd as [Hd Hrest]. destruct (Hrows row) as (Hf & Hi & Ha); [by left|].
  cbn [fmap list_fmap loadable]. split_and!.
  - done.
  - by apply kept_filled.
  - by rewrite kept_distinct.
  - by rewrite kept_intact.
  - specialize (IH (before ++ [row])). rewrite fmap_app in IH. apply IH; [|done].
    intros r Hin. apply Hrows. by right.
Qed.

Lemma stored_rows now db createdBy t :
  t ∈ backupExportTables →
  manifest_rows (stored_backup array_literal now db createdBy true) t
  = (λ row, reread_row (export_row array_literal (backup_columns t) row)) <$> rows_of db t.
Proof.
  intros Ht. unfold manifest_rows, stored_backup, assemble, reread. cbn [mf_Tables].
  rewrite lookup_fmap, lookup_export, decide_True by done. cbn [fmap option_fmap option_map default].
  unfold queryRowsAsObjects. cbn [id]. by rewrite <-list_fmap_compose.
Qed.
Lemma exports_restores : Forall (λ s, bt_Name s ∈ backupExportTables) backupRestoreTables.
Proof. decided. Qed.

Lemma tenant_ids_elem parse seen rows id :
  id ∈ tenant_ids parse seen rows →
  ∃ item, RowObject item ∈ rows ∧ id = TrimSpace (Sprint (default BNull (item !! "id"))).
Proof.
  revert seen. induction rows as [|[item|] rows IH]; intros seen; cbn [tenant_ids]; [by intros ?%elem_of_nil|..].
  - cbv zeta. destruct (_ || _).
    + intros (i & Hi & He)%IH. exists i. split; [by right|done].
    + intros [->|Hin]%elem_of_cons; [exists item; split; [by left|done]|].
      apply IH in Hin as (i & Hi & He). exists i. split; [by right|done].
  - intros (i & Hi & He)%IH. exists i. split; [by right|done].
Qed.
Lemma stored_tenant_ids parse now now' db createdBy id :
  (∀ row, row ∈ rows_of db "tenants" → ∃ u, row !! "id" = Some (SqlText u) ∧ TrimSpace u = u) →
  id ∈ collectManifestTenantIDs parse (stored_backup array_literal now db createdBy true) →
  ∃ row, row ∈ rows_of (kept_tables now' db) "tenants" ∧ row !! "id" = Some (SqlText id).
Proof.
  intros Hids (item & Hin & ->)%tenant_ids_elem. rewrite stored_rows in Hin by decided.
  apply list_elem_of_fmap in Hin as (row & Hi & Hrow). destruct (Hids row Hrow) as (u & Hu & Ht).
  exists (kept_row now' "tenants" row). rewrite rows_of_kept by decided. split; [by apply list_elem_of_fmap_2|].
  rewrite kept_lookup_id by decided. rewrite Hu. do 2 f_equal.
  unfold export_row in Hi. cbn [reread_row] in Hi. injection Hi as ->.
  rewrite lookup_fmap, lookup_insert_eq, Hu. symmetry. exact Ht.
Qed.
End roundtrip.

(** What a database must be like for its backup to restore it. *)
Record restorable (accepts : string → columns → bool) (now : Time) (db : tables) : Prop := {
  rs_sound : sound db;
  rs_no_acl : rows_of db "acl_rules" = [];
  rs_portable : ∀ t row c v, row ∈ rows_of db t → row !! c = Some v → portable c v = true;
  rs_accepted : ∀ t row, row ∈ rows_of db t → accepts t (kept_row now t row) = true;
  rs_tenants : ∀ row, row ∈ rows_of db "tenants" → ∃ u, row !! "id" = Some (SqlText u) ∧ TrimSpace u = u;
}.

(** C21. A backup with its secrets restores the database it was made of into any
    other: when no statement fails and the old database has no access rules, no
    empty array and no integer past 2^53, the restore succeeds and each of the ten
    tables has the old rows in the old order, as far as a backup holds them: the
    exported columns have their old values - [must_change_password] false where it
    was NULL - and the columns that are not exported, the token versions among
    them, have the defaults of the schema.  The other tables are empty, but for the
    audit events, which record the restore. *)
Theorem backup_roundtrip accepts array_literal parse_array uuid_Parse made old createdBy backupID actor e st :
  (∀ l, l ≠ [] → parse_array (array_literal l) = Some l) →
  no_faults e → audit_ok accepts e → intact (b_tables st) → stats_keyed (b_tables st) →
  restorable accepts (env_now e) old →
  ∃ counts st', restoreBackupManifest accepts parse_array uuid_Parse
      (stored_backup array_literal made old createdBy true) backupID actor backupRestoreTables e st = (Ok counts, st') ∧
    (∀ t, t ∈ (bt_Name <$> backupRestoreTables) →
      Forall2 (comes_back (env_now e) t) (rows_of old t) (rows_of (b_tables st') t)) ∧
    (∀ t, t ∈ (ts_name <$> schema) → t ∉ (bt_Name <$> backupRestoreTables) → t ≠ "audit_events" →
      rows_of (b_tables st') t = []).
Proof.
  intros Hlit He Ha Hi Hs [[Hfill Hdist Hint] Hacl Hport Hacc Hten].
  destruct (restore_loads accepts parse_array uuid_Parse (stored_backup array_literal made old createdBy true)
    backupID actor (kept_tables (env_now e) old) e st) as (st' & Hrun & Hrows & Hempty & _); try done.
  - pose proof exports_restores as Hexp. pose proof all_recoverable as Hrec.
    rewrite Forall_forall in Hexp, Hrec. apply Forall_forall. intros spec Hspec.
    assert (bt_Name spec ∈ (bt_Name <$> backupRestoreTables)) as Hname by by apply list_elem_of_fmap_2.
    unfold image. rewrite stored_rows, rows_of_kept by auto. split.
    + apply Forall2_fmap_l, Forall2_fmap_r. apply Forall_Forall2_diag, Forall_forall. intros row Hrow.
      apply restored_row_exported; [done|done|]. intros c v. by apply Hport with (t := bt_Name spec).
    + destruct (Hrec spec Hspec) as [Hn|Hr]; [rewrite Hn, Hacl; done|].
      apply (kept_loadable accepts _ _ _ []); [done| |done]. intros row Hrow. split_and!; auto.
  - intros id. by apply stored_tenant_ids.
  - eexists _, st'. split; [exact Hrun|]. split; [|done]. intros t Ht. rewrite Hrows, rows_of_kept by done.
    apply Forall2_fmap_r, Forall_Forall2_diag, Forall_forall. intros row _. apply kept_row_comes_back.
Qed.

(** ** A database, backed up and restored *)

Lemma rows_all (P : string → columns → bool) db :
  forallb (λ tr, forallb (P tr.1) tr.2) (map_to_list db) = true →
  ∀ t row, row ∈ rows_of db t → P t row = true.
Proof.
  intros H t row (rs & Hrs & Hrow)%rows_of_lookup.
  apply elem_of_map_to_list in Hrs. pose proof (forallb_elem _ _ _ H Hrs) as Hr.
  by apply (forallb_elem _ _ _ Hr).
Qed.
Lemma columns_all (P : string → sqlval → bool) (row : columns) c v :
  forallb (λ cv, P cv.1 cv.2) (map_to_list row) = true → row !! c = Some v → P c v = true.
Proof. intros H Hv%elem_of_map_to_list. exact (forallb_elem _ _ _ H Hv). Qed.

Definition demo_tables : tables := list_to_map
  [("tenants", [list_to_map [("id", SqlText "t1"); ("name", SqlText "Acme"); ("code", SqlText "acme");
      ("status", SqlText "active"); ("resource_quota", SqlText "{}")]]);
   ("roles", [list_to_map [("id", SqlText "r1"); ("tenant_id", SqlText "t1"); ("name", SqlText "viewer");
      ("is_system", SqlBool true); ("permissions", SqlArray ["nodes:read"; "routes:read"])]]);
   ("users", [list_to_map [("id", SqlText "u1"); ("username", SqlText "ann"); ("password_hash", SqlText "$2a$10$x");
      ("tenant_id", SqlText "t1"); ("role", SqlText "viewer"); ("token_version", SqlInt 7)]]);
   ("tokens", [list_to_map [("id", SqlText "k1"); ("token", SqlText "secret"); ("tenant_id", SqlText "t1");
      ("max_uses", SqlInt 5); ("used_count", SqlInt 2); ("expires_at", SqlText "2030-01-01T00:00:00Z")]]);
   ("nodes", [list_to_map [("id", SqlText "n1"); ("public_key", SqlText "pk"); ("machine_id", SqlText "m");
      ("tenant_id", SqlText "t1"); ("ip_offset", SqlInt 3); ("last_seen", SqlInt 1700000000);
      ("registered_at", SqlInt 1600000000); ("runtime_token_version", SqlInt 4); ("status", SqlText "offline");
      ("advertised_routes", SqlArray ["10.1.0.0/16"])]]);
   ("ip_groups", [list_to_map [("id", SqlText "g1"); ("tenant_id", SqlText "t1"); ("name", SqlText "office");
      ("kind", SqlText "custom"); ("created_by", SqlText "u1")]]);
   ("qos_rules", [list_to_map [("id", SqlText "q1"); ("tenant_id", SqlText "t1"); ("node_id", SqlText "n1");
      ("group_id", SqlText "g1"); ("bandwidth_mbps", SqlInt 10); ("rate_bps", SqlInt 10000000)]]);
   ("node_policy_stats", [list_to_map [("node_id", SqlText "n1"); ("tenant_id", SqlText "t1")]])].
Definition any_row (t : string) (row : columns) : bool := true.
(** Arrays as numbers, for the sake of an exact inverse. *)
Definition coded_array (l : list string) : string := Itoa (Z.pos (encode l)).
Definition decoded_array (s : string) : option (list string) :=
  z ← digits_val 0 (String.list_ascii_of_string s); decode (Z.to_pos z).
Lemma decoded_coded l : decoded_array (coded_array l) = Some l.
Proof.
  unfold decoded_array, coded_array. rewrite Itoa_val by done. cbn [mbind option_bind Z.to_pos]. apply decode_encode.
Qed.
Definition demo_restore_env : Env :=
  mkEnv 1700000000000000 1700000000000000 (λ i _, pretty (N.of_nat i)) (λ _, false).

Definition trimmed_id (t : string) (row : columns) : bool :=
  negb (t =? "tenants")%string
  || match row !! "id" with Some (SqlText u) => (TrimSpace u =? u)%string | _ => false end.
Definition keyed (t : string) (row : columns) : bool :=
  negb (t =? "node_policy_stats")%string || bool_decide (is_Some (row !! "node_id")).
Lemma demo_restorable now : restorable any_row now demo_tables.
Proof.
  split; [split| | | |].
  - apply (rows_all filled). vm_compute. reflexivity.
  - intros t. unfold rows_of. destruct (demo_tables !! t) as [rs|] eqn:Hrs; [|done]. cbn [default].
    apply elem_of_map_to_list in Hrs.
    apply (forallb_elem (λ tr, all_distinct tr.1 [] tr.2) (map_to_list demo_tables) (t, rs)); [|done].
    vm_compute. reflexivity.
  - apply intactb_spec. vm_compute. reflexivity.
  - vm_compute. reflexivity.
  - intros t row c v Hrow. apply columns_all. revert t row Hrow.
    apply (rows_all (λ _ row, forallb (λ cv, portable cv.1 cv.2) (map_to_list row))). vm_compute. reflexivity.
  - done.
  - intros row Hrow. assert (trimmed_id "tenants" row = true) as Hid.
    { apply (rows_all trimmed_id demo_tables); [vm_compute; reflexivity|exact Hrow]. }
    unfold trimmed_id in Hid. simpl in Hid.
    destruct (row !! "id") as [[| | |u|]|]; try discriminate Hid. exists u. by bools.
Qed.

Lemma backup_roundtrip_witness :
  ∃ counts st', restoreBackupManifest any_row decoded_array Some
      (stored_backup coded_array 0 demo_tables "admin" true) "backup" "admin" backupRestoreTables demo_restore_env
      (mkBSt demo_tables ∅ 0%nat) = (Ok counts, st') ∧ length (rows_of (b_tables st') "qos_rules") = 1%nat.
Proof.
  destruct (backup_roundtrip any_row coded_array decoded_array Some 0 demo_tables "admin" "backup" "admin"
    demo_restore_env (mkBSt demo_tables ∅ 0%nat)) as (counts & st' & Hrun & Hrows & _).
  - intros l _. apply decoded_coded.
  - done.
  - split; [done|]. intros i j Hij. change (pretty (N.of_nat i) = pretty (N.of_nat j)) in Hij. apply (inj pretty) in Hij. lia.
  - apply intactb_spec. vm_compute. reflexivity.
  - intros row Hrow. assert (keyed "node_policy_stats" row = true) as Hk.
    { apply (rows_all keyed demo_tables); [vm_compute; reflexivity|exact Hrow]. }
    unfold keyed in Hk. simpl in Hk. by bools.
  - apply demo_restorable.
  - exists counts, st'. split; [exact Hrun|].
    assert (Forall2 (comes_back (env_now demo_restore_env) "qos_rules") (rows_of demo_tables "qos_rules")
      (rows_of (b_tables st') "qos_rules")) as Hq.
    { apply Hrows. decided. }
    apply Forall2_length in Hq. rewrite <-Hq. vm_compute. reflexivity.
Defined.

(** The version counters are not in a backup: they start over, so tokens that were
    ended before the restore are accepted again. *)
Lemma restored_versions_start_over now row :
  kept_row now "users" row !! "token_version" = Some (SqlInt 0) ∧
  kept_row now "nodes" row !! "runtime_token_version" = Some (SqlInt 0).
Proof.
  unfold kept_row, new_row. rewrite !lookup_union, !lookup_pairs, !decide_False by decided. by rewrite !kept_names.
Qed.
(** The empty array comes out of the database as an object, which no restore
    takes for an array. *)
Lemma empty_array_not_restorable parse_array array_literal :
  normalizeRestoreValue parse_array "advertised_routes"
    (reread_value (normalizeSQLValue array_literal "advertised_routes" (Some (SqlArray []))))
  = Err (ErrorString "unsupported array value").
Proof. reflexivity. Qed.

Definition demo_backup : backupManifest := stored_backup (λ _, "{a}") 0 demo_tables "admin" true.
Definition demo_state : BSt :=
  mkBSt demo_tables {[ "nightly.json" := mkFile false 0 (Some demo_backup) ]} 0%nat.
Definition demo_restore : BackupRequest :=
  mkBackupRequest "POST" "/api/v2/settings/backups/nightly/restore" "" ""
    (Some (false, [], "RESTORE ARIA CONFIG")) None.
Definition platform_admin : Context := mkContext None (Some "root") (Some "super_admin") None.

Lemma restore_guarded_witness :
  ∃ res st', HandleSettings any_row (λ _, "{a}") (λ _, None) Some platform_admin demo_restore demo_restore_env
      demo_state = (res, st') ∧
    guarded platform_admin demo_restore demo_state ∧ ∃ id counts, res = Ok (ARestored id counts).
Proof.
  destruct (HandleSettings any_row (λ _, "{a}") (λ _, None) Some platform_admin demo_restore demo_restore_env
    demo_state) as [res st'] eqn:Hrun.
  exists res, st'. split; [reflexivity|].
  apply (restore_guarded any_row (λ _, "{a}") (λ _, None) Some platform_admin demo_restore demo_restore_env
    demo_state res st' "users" Hrun); [done|].
  assert ((λ row : columns, row !! "token_version") <$> rows_of (b_tables st') "users" = [Some (SqlInt 0)]) as Hnew.
  { change st' with (res, st').2. rewrite <-Hrun. vm_compute. reflexivity. }
  intros Heq. rewrite Heq in Hnew. vm_compute in Hnew. discriminate Hnew.
Defined.

Lemma redacted_backup_refused_witness :
  is_ok (validateBackupManifest
    ((stored_backup (λ _, "{a}") 0 demo_tables "admin" false) <| mf_SensitiveRedacted := false |>) true) = false.
Proof.
  refine (proj2 (redacted_backup_refused (λ _, "{a}") 0 demo_tables "admin" _ "users" "password_hash"
    (list_to_map [("id", SqlText "u1"); ("username", SqlText "ann"); ("password_hash", SqlText "$2a$10$x");
      ("tenant_id", SqlText "t1"); ("role", SqlText "viewer"); ("token_version", SqlInt 7)]) _ _ _)).
  - reflexivity.
  - by left.
  - unfold rows_of. replace (demo_tables !! "users") with (Some (default [] (demo_tables !! "users"))) by reflexivity.
    cbn [default]. vm_compute. by left.
Defined.

Lemma acl_backup_refused_witness :
  ∃ x st', restoreBackupManifest any_row (λ _, None) Some
      (mkManifest "v0.1.0" "" "" false {[ "acl_rules" := [RowObject {[ "id" := BString "a1" ]}] ]})
      "backup" "admin" backupRestoreTables demo_restore_env demo_state = (Err x, st') ∧ b_tables st' = demo_tables.
Proof.
  apply (acl_backup_refused any_row (λ _, None) Some).
  - vm_compute. discriminate.
  - decided.
  - done.
Defined.
