(* ===== verification/AgentRest.v ===== *)
(** * The endpoints of an agent

    The REST endpoints of [internal/cli/controller_serve.go] an agent or an
    operator of routes calls ([HandleRegister], [HandleUnregister],
    [HandleNetworkManage]) and [Register] of [internal/controller/grpc/server.go]
    with its adapter.  A request is given by its method, its remote address, its
    Authorization header and what [encoding/json] makes of its body.  Notices
    published on Redis are left out. *)

From S2P Require Import Prelude GoStr Netip NetipText Records PolicyConflict CidrColumn Store Events Tokens ControlState AgentCommands PolicySync Nodes IPGroups PolicyRules Addressing Lifecycle PublicNetwork Routes RuntimeAuth Tenants Registration Sessions Access Dispatch AgentSync.

Open Scope Z_scope.

(** [http.Error]: a status and a text. *)
Definition http_Error {A} (message : string) (status : Z) : M A := write_error status "" message.
Definition require_POST (method : string) : M unit :=
  if (method =? "POST")%string then mret () else http_Error "Method not allowed" 405.
(** The text of a decoding error is left out. *)
Definition decoded {A} (body : option A) : M A :=
  match body with Some b => mret b | None => http_Error "" StatusBadRequest end.

(** [runtimeBearerTokenFromRequest] and [registrationRuntimeTokenFromContext]
    strip the scheme alike. *)
Definition strip_bearer (value : string) : string :=
  let authz := TrimSpace value in
  if HasPrefix (ToLower authz) "bearer " then TrimSpace (drop_prefix 7 authz) else authz.
Definition runtimeBearerTokenFromRequest (authorization : string) : option string :=
  if (TrimSpace authorization =? "")%string then None else nullif (strip_bearer authorization).
Definition registrationRuntimeTokenFromRequest (authorization : string) (req : RegisterRequest)
    : string :=
  if negb (TrimSpace (rq_RuntimeToken req) =? "")%string then TrimSpace (rq_RuntimeToken req)
  else default "" (runtimeBearerTokenFromRequest authorization).

(** ** Access rules in the old form *)

(** [fmt.Sscanf] with [%d] into a [*uint16]: white space but no newline is
    skipped, the digits are read as 64 bits and must fit into 16. *)
Fixpoint scan_space (l : text) : option text :=
  match l with
  | [] => Some []
  | c :: l' =>
    if Ascii.eqb c "010" then None else if is_space c then scan_space l' else Some l
  end.
Fixpoint scan_digits (l : text) : text * text :=
  match l with
  | [] => ([], [])
  | c :: l' =>
    match digit_val c with
    | Some _ => let (digits, rest) := scan_digits l' in (c :: digits, rest)
    | None => ([], l)
    end
  end.
Definition scan_uint16 (l : text) : option (Z * text) :=
  l ← scan_space l;
  let (digits, rest) := scan_digits l in
  v ← unsigned_val digits;
  if v <=? MaxUint16 then Some (v, rest) else None.
Definition scan_range (l : text) : option (Z * Z) :=
  '(minPort, rest) ← scan_uint16 l;
  match rest with
  | "-"%char :: rest => '(maxPort, _) ← scan_uint16 rest; Some (minPort, maxPort)
  | _ => None
  end.

Definition parsePortRange (portStr : string) : Z * Z :=
  let l := String.list_ascii_of_string portStr in
  if (portStr =? "")%string then (0, 65535) else
  match scan_range l with
  | Some (minPort, maxPort) => (minPort, maxPort)
  | None =>
    match scan_uint16 l with
    | Some (minPort, _) => (minPort, minPort)
    | None => (0, 65535)
    end
  end.
Example parsePortRange_examples :
  map parsePortRange [""; "22"; "80-443"; "22,80-443"; "all"; " 80- 90"; "70000"; "80-70000"]
  = [(0, 65535); (22, 22); (80, 443); (22, 22); (0, 65535); (80, 90); (0, 65535); (80, 80)].
Proof. reflexivity. Qed.

Record ACLRuleJSON := mkACLRuleJSON {
  aj_ID : string;
  aj_SrcNet : string;
  aj_DstNet : string;
  aj_Protocol : Z;
  aj_MinPort : Z;
  aj_MaxPort : Z;
  aj_Action : string;
  aj_Direction : string;
  aj_Ports : string;
}.
#[export] Instance eta_ACLRuleJSON : Eta ACLRuleJSON := λ r,
  mkACLRuleJSON (aj_ID r) (aj_SrcNet r) (aj_DstNet r) (aj_Protocol r) (aj_MinPort r) (aj_MaxPort r)
    (aj_Action r) (aj_Direction r) (aj_Ports r).

Definition defaultRegistrationACLAction (action : string) : string :=
  let action := ToLower (TrimSpace action) in
  if (action =? "")%string then "allow" else action.
Definition aclPortsForSync (rule : ACLRuleRecord) : Z * Z :=
  if (0 <? a_DstPort rule) && (a_DstPort rule <=? 65535) then (a_DstPort rule, a_DstPort rule)
  else if (TrimSpace (a_Ports rule) =? "")%string then (0, 0)
  else parsePortRange (a_Ports rule).
Definition aclRuleRecordForSync (rule : ACLRuleRecord) : ACLRuleJSON :=
  let '(minPort, maxPort) := aclPortsForSync rule in
  mkACLRuleJSON (a_ID rule) (a_SrcCIDR rule) (a_DstCIDR rule) (a_Protocol rule mod 2 ^ 8)
    minPort maxPort (defaultRegistrationACLAction (a_Action rule)) (a_Direction rule) (a_Ports rule).
Definition aclSyncRuleHasPortFilter (rule : ACLRuleJSON) : bool :=
  let ports := TrimSpace (aj_Ports rule) in
  if negb (ports =? "")%string && negb (EqualFold ports "all") then true
  else (0 <? aj_MinPort rule) || (0 <? aj_MaxPort rule).
(** The messages one rule of the loop appends. *)
Definition acl_rule_messages (rule : ACLRuleRecord) : list ACLRuleJSON :=
  if negb (a_Enabled rule) then [] else
  let syncRule := aclRuleRecordForSync rule in
  if (aj_Protocol syncRule =? 0) && aclSyncRuleHasPortFilter syncRule
  then [syncRule <| aj_Protocol := 6 |>; syncRule <| aj_Protocol := 17 |>]
  else [syncRule].
Definition aclRuleRecordsForSync (rules : list ACLRuleRecord) : list ACLRuleJSON :=
  rules ≫= acl_rule_messages.

(** ** The answer to a registration *)

Record NodeInfo := mkNodeInfo {
  ni_PublicKey : string;
  ni_Endpoint : string;
  ni_PrivateIP : string;
  ni_PublicIP : string;
  ni_Region : string;
  ni_VPCID : string;
  ni_Hostname : string;
  ni_LastSeen : Z;
  ni_AssignedIP : string;
  ni_Role : string;
  ni_RuntimeMode : string;
  ni_KernelVersion : string;
}.
(** [SnapshotComplete] is always set. *)
Record RegisterAnswer := mkRegisterAnswer {
  an_Peers : list NodeInfo;
  an_AssignedIP : string;
  an_LastUpdate : Z;
  an_ACLRules : list ACLRuleJSON;
  an_MetricsPushGateway : string;
  an_DomainVersions : strmap;
  an_CertificatePEM : string;
  an_CertificateCA : string;
  an_CertificateNotAfter : Z;
}.
#[export] Instance eta_RegisterAnswer : Eta RegisterAnswer := λ r,
  mkRegisterAnswer (an_Peers r) (an_AssignedIP r) (an_LastUpdate r) (an_ACLRules r)
    (an_MetricsPushGateway r) (an_DomainVersions r) (an_CertificatePEM r) (an_CertificateCA r)
    (an_CertificateNotAfter r).

Definition node_info (peer : Node) : NodeInfo :=
  mkNodeInfo (N_PublicKey peer) (N_PublicIP peer +:+ ":51820") (N_PrivateIP peer) (N_PublicIP peer)
    (N_Region peer) (N_VPCID peer) (N_Hostname peer) (N_LastSeen peer) (N_AssignedIP peer)
    (if (N_Role peer =? "")%string then "spoke" else N_Role peer) (N_RuntimeMode peer)
    (N_KernelVersion peer).

(** The nodes of a tenant that take part in synchronisation. *)
Definition active_tenant_nodes (tenantID : UUID) : M (list Node) :=
  query (λ _ db, (λ kn, scanNode kn.1 kn.2) <$> select_where (active_in tenantID) (nodes db)).

Definition registrationDomainVersionsFromDesiredVersion : string → strmap :=
  domainVersionsFromDesiredVersion.

Definition ensureRESTDesiredStateVersion (node : Node) : M string :=
  if (N_ID node =? uuid_Nil)%string || (N_TenantID node =? uuid_Nil)%string then mret "" else
  state ← GetNodeControlState (N_TenantID node) (N_ID node);
  let known := match state with Some s => ncs_DesiredStateVersion s | None => "" end in
  if negb (TrimSpace known =? "")%string then mret known else
  version ← NewDesiredStateVersion;
  created ← UpsertNodeDesiredState (N_TenantID node) (N_ID node) version
              (Some {["source" := JString "sync-baseline"]});
  mret (ncs_DesiredStateVersion created).

(** The certificate that is issued and not expired, if any; errors leave the
    answer as it is. *)
Definition attachNodeCertificateToSyncResponse (certService : option CertService) (publicKey : string)
    (resp : RegisterAnswer) : M RegisterAnswer :=
  match certService with
  | None => mret resp
  | Some _ =>
    if (publicKey =? "")%string then mret resp else
    node ← or_nil (GetNode publicKey);
    match node with
    | None => mret resp
    | Some node =>
      cert ← or_nil (GetNodeCertificate (N_ID node));
      now ← ask env_go_now;
      match cert with
      | Some cert =>
        if (nc_Status cert =? CertStatusIssued)%string && (now <? nc_NotAfter cert)
        then mret (resp <| an_CertificatePEM := nc_CertPEM cert |>
                        <| an_CertificateCA := nc_CAPEM cert |>
                        <| an_CertificateNotAfter := unix (nc_NotAfter cert) |>)
        else mret resp
      | None => mret resp
      end
    end
  end.

Definition tenant_information {A} : M A :=
  http_Error "Failed to get tenant information" StatusInternalServerError.
(** The tenant of the enrolment token, or without a token that of the node. *)
Definition answering_tenant (req : RegisterRequest) : M UUID :=
  r ← attempt (GetTenantIDByToken (rq_Token req));
  match r with
  | Ok tenantID => mret tenantID
  | Err _ =>
    if negb (rq_Token req =? "")%string then tenant_information else
    existingNode ← or_nil (GetNode (rq_PublicKey req));
    match existingNode with
    | Some node => mret (N_TenantID node)
    | None => tenant_information
    end
  end.
(** [http.Error] in place of the error of a call. *)
Definition or_http_Error {A} (message : string) (status : Z) (m : M A) : M A :=
  r ← attempt m;
  match r with Ok a => mret a | Err _ => http_Error message status end.

Definition syncNode `{CidrText} (certService : option CertService) (metricsPushGateway : string)
    (req : RegisterRequest) (assignedIP : string) : M RegisterAnswer :=
  nodeTenantID ← answering_tenant req;
  peers ← or_http_Error "Failed to load tenant peers" StatusInternalServerError
            (active_tenant_nodes nodeTenantID);
  let own := λ peer, (N_PublicKey peer =? rq_PublicKey req)%string in
  let peerInfos := node_info <$> filter (λ peer, own peer = false) peers in
  match last (filter (λ peer, own peer = true) peers) with
  | None => http_Error "Registered node not found in active peer set" StatusInternalServerError
  | Some requestingNode =>
    aclRules ← or_http_Error "Failed to load ACL rules" StatusInternalServerError
      (GetEnabledTenantNodeACLRules nodeTenantID (N_ID requestingNode));
    desiredVersion ← or_http_Error "Failed to determine desired state version"
      StatusInternalServerError (ensureRESTDesiredStateVersion requestingNode);
    now ← ask env_go_now;
    attachNodeCertificateToSyncResponse certService (rq_PublicKey req)
      (mkRegisterAnswer peerInfos assignedIP (unix now) (aclRuleRecordsForSync aclRules)
         metricsPushGateway (registrationDomainVersionsFromDesiredVersion desiredVersion) "" "" 0)
  end.

(** ** Registration over HTTP *)

Definition writeRegistrationError {A} (err : error) : M A :=
  match err with
  | RegistrationAuthError status message => http_Error message status
  | RouteConflictError _ _ _ _ _ _ _ =>
    http_Error ("failed to validate advertised routes: " +:+ error_message err) StatusConflict
  | _ =>
    if strings_Contains (error_message err) "invalid CIDR"
    then http_Error (error_message err) StatusBadRequest
    else http_Error "Failed to register node" StatusInternalServerError
  end.

Definition with_runtime_token (req : RegisterRequest) (token : string) : RegisterRequest :=
  mkRegisterRequest (rq_PublicKey req) (rq_Endpoint req) (rq_PrivateIP req) (rq_PublicIP req)
    (rq_Region req) (rq_VPCID req) (rq_Hostname req) (rq_MachineID req) (rq_RegisteredAt req)
    (rq_Token req) token (rq_AdvertisedRoutes req) (rq_RuntimeMode req) (rq_KernelVersion req)
    (rq_HasAESNI req) (rq_CSRPEM req).

Section endpoints.
Context `{JWT, X509, UserJWT, CidrText} (secret jwtSecret : string) (uuid_Parse : string → option UUID).
Context (baseIP : string) (certService : option CertService) (serial : result string).
Context (metricsPushGateway : string).

Definition HandleRegister (method remoteAddr authorization : string) (body : option RegisterRequest)
    : M RegisterAnswer :=
  _ ← require_POST method;
  req ← decoded body;
  if (rq_PublicKey req =? "")%string then http_Error "Public key required" StatusBadRequest else
  let publicIP := match SplitHostPort remoteAddr with Some (host, _) => host | None => remoteAddr end in
  let req := with_runtime_token req (registrationRuntimeTokenFromRequest authorization req) in
  r ← attempt (processRegistration secret uuid_Parse baseIP certService serial req publicIP);
  match r with
  | Err err => writeRegistrationError err
  | Ok assignedIP => syncNode certService metricsPushGateway req assignedIP
  end.

(** ** Leaving *)

(** The claims of a runtime token against the node it is used for. *)
Definition check_rest_claims (claims : RuntimeClaims) (node : Node) : M unit :=
  match uuid_Parse (cl_NodeID claims) with
  | None => http_Error "Invalid runtime token node id" StatusUnauthorized
  | Some tokenNodeID =>
    if negb (tokenNodeID =? N_ID node)%string
    then http_Error "Runtime token node mismatch" StatusForbidden else
    if (TrimSpace (cl_TenantID claims) =? "")%string
    then http_Error "Runtime token tenant missing" StatusUnauthorized else
    match uuid_Parse (cl_TenantID claims) with
    | None => http_Error "Invalid runtime token tenant" StatusUnauthorized
    | Some tokenTenantID =>
      if negb (tokenTenantID =? N_TenantID node)%string
      then http_Error "Runtime token tenant mismatch" StatusForbidden else mret ()
    end
  end.
Definition authorizeRuntimeNodeByPublicKey (runtimeToken publicKey : string) : M Node :=
  if (TrimSpace publicKey =? "")%string then http_Error "Public key required" StatusBadRequest else
  claims ← or_http_Error "Invalid runtime token" StatusUnauthorized
             (ValidateRuntimeToken secret runtimeToken);
  node ← or_nil (GetNode publicKey);
  match node with
  | None => http_Error "Node not found" StatusNotFound
  | Some node =>
    _ ← check_rest_claims claims node;
    if nodeCertificateRequestForbidden node
    then http_Error ("Node access denied: current status is '"
           +:+ ToLower (TrimSpace (N_Status node)) +:+ "'") StatusForbidden
    else mret node
  end.

Definition unregister_transition (node : Node) : NodeLifecycleTransition :=
  mkNodeTransition "deleted" "node unregistered" "node_unregistered" "agent" "Node unregistered"
    {["assigned_ip" := JString (N_AssignedIP node)]}.
(** [body] is the public key of the body. *)
Definition HandleUnregister (method authorization : string) (body : option string) : M unit :=
  _ ← require_POST method;
  match runtimeBearerTokenFromRequest authorization with
  | None => http_Error "Runtime token required" StatusUnauthorized
  | Some runtimeToken =>
    publicKey ← decoded body;
    node ← authorizeRuntimeNodeByPublicKey runtimeToken publicKey;
    _ ← or_http_Error "Failed to delete node" StatusInternalServerError
          (ApplyNodeLifecycleTransition publicKey (unregister_transition node));
    mret ()
  end.

(** ** Routes of a node *)

Definition authorizeJWTPermission (authorization permission : string) : M Claims :=
  match runtimeBearerTokenFromRequest authorization with
  | None => http_Error "Authorization header required" StatusUnauthorized
  | Some tokenString =>
    claims ← or_http_Error "Invalid token" StatusUnauthorized (ValidateToken jwtSecret tokenString);
    if c_MustChangePassword claims
    then http_Error "You must change your password before proceeding" StatusForbidden else
    if (c_Role claims =? "super_admin")%string then mret claims else
    if (c_TenantID claims =? "")%string then http_Error "Tenant context required" StatusForbidden else
    match uuid_Parse (c_TenantID claims) with
    | None => http_Error "Invalid tenant context" StatusForbidden
    | Some tenantID =>
      permissions ← or_http_Error "Role not found" StatusForbidden
        (GetRolePermissions tenantID (NormalizeRoleName (c_Role claims)));
      if one_of permission permissions then mret claims
      else http_Error "Insufficient permissions" StatusForbidden
    end
  end.

Definition networkManageInactiveNodeStatus (status : string) : bool :=
  one_of (ToLower (TrimSpace status)) ["deleted"; "suspended"; "banned"].

Definition route_metadata (node : Node) (action cidr desiredVersion : string) : object :=
  <["domain" := JString "route"]> (<["action" := JString action]>
  (<["node_id" := JString (N_ID node)]> (<["hostname" := JString (N_Hostname node)]>
  (<["route" := JString cidr]> (<["policy_ref" := JString cidr]>
  (<["policy_name" := JString cidr]> {["desired_state_version" := JString desiredVersion]})))))).
Definition queueNetworkRoutePolicySync (node : Node) (action cidr : string) (routes : list string)
    : M PolicySyncResult :=
  desiredVersion ← NewDesiredStateVersion;
  let metadata := route_metadata node action cidr desiredVersion in
  MutatePolicyAndQueueSync (
    _ ← UpdateTenantNodeRoutes (N_ID node) (N_TenantID node) routes;
    mret (mkPolicySyncRequest (N_TenantID node) (N_ID node) (N_PublicKey node) "route" action cidr cidr
            desiredVersion (Some metadata) (Some metadata) (Some metadata) 1 60)).

Record networkBody := mkNetworkBody {
  nb_TenantID : string;
  nb_Hostname : string;
  nb_CIDR : string;
  nb_Action : string;
}.

Definition network_tenant (claims : Claims) (req : networkBody) : M UUID :=
  if (c_Role claims =? "super_admin")%string then
    match uuid_Parse (TrimSpace (nb_TenantID req)) with
    | Some t => mret t
    | None => http_Error "tenant_id is required for super_admin network changes" StatusBadRequest
    end
  else
    match uuid_Parse (c_TenantID claims) with
    | Some t => mret t
    | None => http_Error "Invalid tenant context" StatusForbidden
    end.
Definition network_node (tenantID : UUID) (hostname : string) : M Node :=
  matched ← or_http_Error "Failed to get node" StatusInternalServerError
              (ListTenantNodesByHostname tenantID hostname 1);
  match head matched with
  | None => http_Error ("Node " +:+ hostname +:+ " not found") StatusNotFound
  | Some node =>
    if networkManageInactiveNodeStatus (N_Status node)
    then http_Error ("node " +:+ hostname +:+ " is not active: status '" +:+ N_Status node +:+ "'")
           StatusConflict
    else mret node
  end.

(** The routes the node has after the change; [IPNet.String] of a parsed network
    writes it as [Prefix.String] does. *)
Definition added_routes (tenantID : UUID) (node : Node) (req : networkBody) : M (list string) :=
  match ParseCIDR (nb_CIDR req) with
  | None => http_Error ("Invalid CIDR format: " +:+ nb_CIDR req) StatusBadRequest
  | Some newNetwork =>
    if one_of (nb_CIDR req) (N_AdvertisedRoutes node)
    then http_Error ("Route " +:+ nb_CIDR req +:+ " already advertised by " +:+ nb_Hostname req)
           StatusBadRequest else
    r ← attempt (FindTenantAdvertisedRouteConflict tenantID (N_PublicKey node) (N_Region node)
                   [Prefix_String newNetwork]);
    match r with
    | Ok _ => mret (N_AdvertisedRoutes node ++ [nb_CIDR req])
    | Err (RouteConflictError _ _ hostname region _ _ _) =>
      http_Error ("请勿在不同 Region 添加重叠路由！路由 " +:+ nb_CIDR req +:+ " 与 Region " +:+ region
        +:+ " 的节点 " +:+ hostname +:+ " 冲突") StatusConflict
    | Err err => http_Error (error_message err) StatusBadRequest
    end
  end.
Definition removed_routes (node : Node) (req : networkBody) : M (list string) :=
  if one_of (nb_CIDR req) (N_AdvertisedRoutes node)
  then mret (filter (λ route, (route =? nb_CIDR req)%string = false) (N_AdvertisedRoutes node))
  else http_Error ("Route " +:+ nb_CIDR req +:+ " not found on node " +:+ nb_Hostname req)
         StatusNotFound.

Definition HandleNetworkManage (method authorization : string) (body : option networkBody)
    : M PolicySyncResult :=
  _ ← require_POST method;
  claims ← authorizeJWTPermission authorization "routes:write";
  req ← decoded body;
  if negb (one_of (nb_Action req) ["add"; "remove"])
  then http_Error "action must be 'add' or 'remove'" StatusBadRequest else
  tenantID ← network_tenant claims req;
  node ← network_node tenantID (nb_Hostname req);
  routes ← (if (nb_Action req =? "add")%string then added_routes tenantID node req
            else removed_routes node req);
  r ← attempt (queueNetworkRoutePolicySync node
        (if (nb_Action req =? "remove")%string then "delete" else "create") (nb_CIDR req) routes);
  match r with
  | Ok syncResult => mret syncResult
  | Err ErrNoRows => http_Error ("node " +:+ nb_Hostname req +:+ " is not active") StatusConflict
  | Err _ => http_Error "Failed to update node routes" StatusInternalServerError
  end.

(** ** Registration over gRPC *)

(** [CustomerID] is read by nobody; the request of the message has no runtime
    token. *)
Record RegistrationResult := mkRegistrationResult {
  rr_AssignedIP : string;
  rr_MetricsPushGateway : string;
  rr_NodeID : string;
  rr_RuntimeToken : string;
  rr_RuntimeTokenExpiresAt : Z;
  rr_CertificatePEM : string;
  rr_CertificateCA : string;
  rr_CertificateNotAfter : Z;
  rr_CertificateRenewBefore : Z;
}.
#[export] Instance eta_RegistrationResult : Eta RegistrationResult := λ r,
  mkRegistrationResult (rr_AssignedIP r) (rr_MetricsPushGateway r) (rr_NodeID r) (rr_RuntimeToken r)
    (rr_RuntimeTokenExpiresAt r) (rr_CertificatePEM r) (rr_CertificateCA r)
    (rr_CertificateNotAfter r) (rr_CertificateRenewBefore r).

Definition attach_certificate (service : CertService) (node : Node) (result : RegistrationResult)
    : M RegistrationResult :=
  cert ← wrap "failed to load issued node certificate" (GetNodeCertificate (N_ID node));
  match cert with
  | Some cert =>
    if EqualFold (TrimSpace (nc_Status cert)) CertStatusIssued
    then mret (result <| rr_CertificatePEM := nc_CertPEM cert |>
                      <| rr_CertificateCA := nc_CAPEM cert |>
                      <| rr_CertificateNotAfter := unix (nc_NotAfter cert) |>
                      <| rr_CertificateRenewBefore := sv_renewBefore service / 1000000 |>)
    else fail (ErrorString "issued node certificate was not found")
  | None => fail (ErrorString "issued node certificate was not found")
  end.

(** The address a request comes from is not known here. *)
Definition createRegisterAdapter (req : RegisterRequest) : M RegistrationResult :=
  assignedIP ← processRegistration secret uuid_Parse baseIP certService serial req "";
  node ← wrap "failed to load registered node" (GetNode (rq_PublicKey req));
  match node with
  | None => fail (ErrorString "registered node was not found")
  | Some node =>
    version ← wrap "failed to load runtime token version" (GetNodeRuntimeTokenVersion (N_ID node));
    '(token, expiresAt) ← wrap "failed to issue runtime token"
      (GenerateRuntimeTokenWithVersion secret (N_ID node) (N_TenantID node) version);
    let result := mkRegistrationResult assignedIP metricsPushGateway (N_ID node) token
      (unix expiresAt) "" "" 0 0 in
    match certService with
    | Some service =>
      if negb (TrimSpace (rq_CSRPEM req) =? "")%string then attach_certificate service node result
      else mret result
    | None => mret result
    end
  end.

Definition registrationRuntimeTokenFromContext (md : option (list string)) : string :=
  match md with Some (value :: _) => strip_bearer value | _ => "" end.

Definition Register (registerHandler : RegisterRequest → M RegistrationResult)
    (md : option (list string)) (req : RegisterRequest) : M RegistrationResult :=
  let req := if (TrimSpace (rq_RuntimeToken req) =? "")%string
             then with_runtime_token req (registrationRuntimeTokenFromContext md) else req in
  result ← wrap "registration failed" (registerHandler req);
  if (TrimSpace (rr_NodeID result) =? "")%string
  then fail (ErrorString "registration failed: registered node was not persisted") else
  if (TrimSpace (rr_RuntimeToken result) =? "")%string
  then fail (ErrorString "registration failed: runtime token was not issued")
  else mret result.
End endpoints.
