(* ===== verification/AgentRestSpec.v ===== *)
(** * Properties of the agent endpoints

    A registration ends with a token under which the agent is served; leaving
    takes a node out of service; the rules of the old form say what the rule
    says. *)

From S2P Require Import Prelude GoStr Netip NetipText Records PolicyConflict CidrColumn Store Events Tokens TokensSpec ControlState AgentCommands PolicySync CommandLifecycle Nodes NodesSpec IPGroups PolicyRules Addressing Lifecycle PublicNetwork Routes RuntimeAuth Tenants Registration RegistrationSpec Sessions Access Dispatch AgentSync AgentRest.

Open Scope Z_scope.

(** ** A token and the requests it admits *)

Lemma HasPrefix_bearer s : HasPrefix (ToLower ("Bearer " +:+ s)) "bearer " = true.
Proof. exact (HasPrefix_app "bearer " (ToLower s)). Qed.
Lemma extractBearerToken_run s e st :
  s ≠ "" → Forall (λ c, is_space c = false) (String.list_ascii_of_string s) →
  extractBearerToken (Some ["Bearer " +:+ s]) e st = (Ok s, st).
Proof.
  intros Hne Hs. unfold extractBearerToken.
  rewrite (TrimSpace_app_nospace "Bearer " s), HasPrefix_bearer by done. cbn [negb].
  change 7%nat with (String.length "Bearer "). rewrite drop_prefix_app, TrimSpace_nospace by done.
  by rewrite (proj2 (String.eqb_neq _ _) Hne).
Qed.

(** The canonical text of an identifier parses to itself. *)
Definition canonical (parse : string → option UUID) (id : UUID) : Prop :=
  id ≠ "" ∧ TrimSpace id = id ∧ parse id = Some id.

Lemma GetTenantStatus_run t row s e st :
  no_faults e → tenants (st_db st) !! t = Some row → t_status row = Some s →
  GetTenantStatus t e st = (Ok (TrimSpace s), mkSt (st_db st) (S (st_tick st))).
Proof.
  intros Hf Ht Hs. unfold GetTenantStatus, scan_tenant_status, query_row, tenant_status, stmt, stmt_rows,
    lift, mbind, M_bind, mret, M_ret. rewrite Hf, Ht. cbn. by rewrite Hs.
Qed.

Section admission.
Context `{JWT} (secret : string) (parse : string → option UUID).
Context (db : DB) (id : UUID) (n : NodeRow) (t : TenantRow) (claims : RuntimeClaims).
(** A node in service of an active tenant and the claims of its current token. *)
Context (Hn : nodes db !! id = Some n) (Hkeys : keys_unique db).
Context (Ht : tenants db !! n_tenant_id n = Some t) (Hactive : t_status t = Some "active").
Context (Hserv : isInactiveNodeStatus (default "online" (n_status n)) = false).
Context (Hid : canonical parse id) (Htid : canonical parse (n_tenant_id n)).
Context (Hclaims : cl_NodeID claims = id ∧ cl_TenantID claims = n_tenant_id n
                   ∧ cl_TokenVersion claims = n_runtime_token_version n).

Lemma stored_status_serves : one_of (TrimSpace (default "online" (n_status n))) stopped_statuses = false.
Proof using Hserv.
  unfold isInactiveNodeStatus in Hserv. apply one_of_false in Hserv. apply one_of_false. intros Hin.
  apply Hserv. revert Hin. unfold stopped_statuses. rewrite !elem_of_cons, elem_of_nil.
  intros [-> |[-> |[-> |[]]]]; vm_compute; auto.
Qed.

Lemma validateRuntimeTokenState_run e st :
  no_faults e → st_db st = db →
  validateRuntimeTokenState parse claims e st = (Ok (), mkSt db (S (st_tick st))).
Proof.
  intros Hf Hdb. destruct Hid as (_ & Ht1 & Hp1), Htid as (_ & Ht2 & Hp2), Hclaims as (Hc1 & Hc2 & Hv).
  unfold validateRuntimeTokenState. rewrite Hc1, Hc2, Ht1, Hp1, Ht2, Hp2.
  erewrite bind_run by (apply attempt_run; unfold GetNodeRuntimeAuthState; by rewrite query_run).
  rewrite Hdb, Hn. cbn [mbind option_bind]. rewrite Ht. cbn [mbind option_bind ra_TenantID ra_RuntimeTokenVersion ra_NodeStatus ra_TenantStatus].
  rewrite Hv, Z.eqb_refl, String.eqb_refl. cbn [ra_NodeStatus]. rewrite stored_status_serves, Hactive. reflexivity.
Qed.

Lemma or_nil_query {A} (f : Env → DB → option A) e st :
  no_faults e → or_nil (query f) e st = (Ok (f e (st_db st)), mkSt (st_db st) (S (st_tick st))).
Proof. intros Hf. unfold or_nil. erewrite bind_run by (apply attempt_run; by apply query_run). done. Qed.

Lemma resolveRuntimeNode_run e st :
  no_faults e → st_db st = db →
  ∃ k, resolveRuntimeNode parse id (n_public_key n) e st = (Ok (scanNode id n), mkSt db k).
Proof.
  intros Hf Hdb. unfold resolveRuntimeNode. destruct Hid as (Hne & _ & Hp). rewrite Hp.
  rewrite (proj2 (String.eqb_neq _ _) Hne).
  change (default "online" (n_status n)) with (N_Status (scanNode id n)) in Hserv.
  erewrite bind_run by by apply or_nil_query. rewrite Hdb, Hn. cbn [fmap option_fmap option_map].
  destruct (n_public_key n =? "")%string.
  - eexists. erewrite bind_run by reflexivity. cbv zeta iota beta. by rewrite Hserv.
  - eexists. erewrite bind_run by by apply or_nil_query. cbn [st_db].
    rewrite (node_by_key_unique db id n Hkeys Hn). cbn [fmap option_fmap option_map fst snd].
    cbv zeta. rewrite String.eqb_refl. cbn [negb]. by rewrite Hserv.
Qed.

Lemma bind_and_check_run e st :
  no_faults e → st_db st = db →
  bind_and_check parse (mkRuntimeContext id (n_tenant_id n)) (scanNode id n) e st
  = (Ok (scanNode id n), mkSt db (S (st_tick st))).
Proof.
  intros Hf Hdb. unfold bind_and_check, bindRuntimeTokenToNode. cbn [RuntimeNodeID RuntimeTenantID N_ID N_TenantID scanNode].
  destruct Hid as (Hne & Ht1 & Hp1), Htid as (Hne2 & Ht2 & Hp2).
  rewrite Ht1, Hp1, Ht2, Hp2, !String.eqb_refl, (proj2 (String.eqb_neq _ _) Hne),
    (proj2 (String.eqb_neq _ _) Hne2). cbn [negb].
  erewrite bind_run by reflexivity. unfold ensureRuntimeTenantActive. cbn [N_TenantID scanNode].
  rewrite <- Hdb in Ht. erewrite bind_run; [|erewrite bind_run; [|apply attempt_run;
    by eapply GetTenantStatus_run]; reflexivity]. by rewrite <-Hdb.
Qed.

(** A request with a token of these claims reaches its handler. *)
Lemma authorize_run token e st :
  no_faults e → st_db st = db → token ≠ "" →
  Forall (λ c, is_space c = false) (String.list_ascii_of_string token) →
  ValidateRuntimeToken secret token e st = (Ok claims, st) →
  ∃ k, authorize secret parse (Some ["Bearer " +:+ token]) (RuntimeAuth.SyncRequest id (n_public_key n)) e st
       = (Ok (scanNode id n), mkSt db k).
Proof.
  intros Hf Hdb Hne Hsp Hval. unfold authorize, AuthInterceptor. destruct Hclaims as (Hc1 & Hc2 & _).
  destruct (resolveRuntimeNode_run e (mkSt db (S (st_tick st))) Hf eq_refl) as [k Hres].
  exists (S k). erewrite bind_run.
  2:{ erewrite bind_run by by apply extractBearerToken_run.
      erewrite bind_run by (apply attempt_run, Hval). cbv beta iota.
      erewrite bind_run by by apply validateRuntimeTokenState_run. reflexivity. }
  rewrite Hc1, Hc2. unfold resolveRuntimeNodeForRequest. erewrite bind_run by exact Hres.
  by rewrite bind_and_check_run.
Qed.
End admission.

Lemma runtime_token_text `{JWTLaws} secret nodeID tenantID version e st token expiresAt st' :
  GenerateRuntimeTokenWithVersion secret nodeID tenantID version e st = (Ok (token, expiresAt), st') →
  st' = st ∧ token ≠ "" ∧ Forall (λ c, is_space c = false) (String.list_ascii_of_string token).
Proof.
  unfold GenerateRuntimeTokenWithVersion, getRuntimeSecret, ask, lift, wrap, mbind, M_bind, mret, M_ret, fail.
  destruct (secret =? "")%string; [done|]. destruct (jwt_sign _ _) as [s|] eqn:Hs; [|done].
  intros [= <- _ <-]. apply jwt_sign_text in Hs as [_ Hs]. split_and!; [done|done|]. by repeat constructor.
Qed.

(** What the adapter returns once the node is registered. *)
Lemma createRegisterAdapter_ok `{JWT, X509} secret parse baseIP cs serial gateway req e st result st' :
  createRegisterAdapter secret parse baseIP cs serial gateway req e st = (Ok result, st') →
  ∃ st1 id r token expiresAt st2 st3, st_db st' = st_db st1 ∧
    processRegistration secret parse baseIP cs serial req "" e st = (Ok (rr_AssignedIP result), st1) ∧
    node_by_key (st_db st1) (rq_PublicKey req) = Some (id, r) ∧ rr_NodeID result = id ∧
    GenerateRuntimeTokenWithVersion secret id (n_tenant_id r) (n_runtime_token_version r) e st2
      = (Ok (token, expiresAt), st3) ∧
    rr_RuntimeToken result = token ∧ rr_RuntimeTokenExpiresAt result = unix expiresAt.
Proof.
  unfold createRegisterAdapter. intros (ip & st1 & Hreg & Hr)%bind_ok.
  apply bind_ok in Hr as (o & st2 & [-> Hdb2]%wrap_ok%query_ok & Hr).
  destruct (node_by_key (st_db st1) (rq_PublicKey req)) as [[id r]|] eqn:Hk; [|done].
  cbn [fmap option_fmap option_map fst snd] in Hr.
  apply bind_ok in Hr as (version & st3 & [Hv Hdb3]%wrap_ok%query_row_ok & Hr).
  cbn [N_ID scanNode N_TenantID] in Hv, Hr. apply node_by_key_Some in Hk as Hrow. destruct Hrow as [Hrow _].
  rewrite Hdb2, Hrow in Hv. injection Hv as <-.
  apply bind_ok in Hr as ([token expiresAt] & st4 & Hgen%wrap_ok & Hr).
  assert (st_db st4 = st_db st3) as Hdb4.
  { revert Hgen. unfold GenerateRuntimeTokenWithVersion, ask, lift, wrap, mbind, M_bind, mret, M_ret, fail.
    destruct (getRuntimeSecret secret); [|done]. destruct (jwt_sign _ _); [|done]. by intros [= _ _ <-]. }
  exists st1, id, r, token, expiresAt, st3, st4.
  assert (st_db st' = st_db st4 ∧ rr_AssignedIP result = ip ∧ rr_NodeID result = id ∧
    rr_RuntimeToken result = token ∧ rr_RuntimeTokenExpiresAt result = unix expiresAt) as (-> & -> & ? & ? & ?).
  { destruct cs as [service|]; [|by injection Hr as <- <-].
    destruct (negb _); [|by injection Hr as <- <-]. unfold attach_certificate in Hr.
    apply bind_ok in Hr as (cert & st5 & [_ Hdb5]%wrap_ok%query_ok & Hr).
    destruct cert as [cert|]; [|done]. destruct (EqualFold _ _); [|done]. by injection Hr as <- <-. }
  split_and!; try done. by rewrite Hdb4, Hdb3.
Qed.

(** C11. An agent that registers over gRPC is served from then on: the answer names
    the node with its public key, which is online under the address of the answer,
    and until the token of the answer expires a synchronisation with that token
    reaches its handler as that node: in any later state in which that node is
    neither deleted, suspended nor banned and still has its key, its tenant and its
    token version, its tenant is active, and no statement of the check fails.
    Public keys are UNIQUE in the nodes table and [uuid.Parse] reads the identifiers
    stored there. *)
Theorem registered_agent_admitted `{JWTLaws, X509} secret parse baseIP cs serial gateway md req e st result st' :
  Register (createRegisterAdapter secret parse baseIP cs serial gateway) md req e st = (Ok result, st') →
  keys_unique (st_db st') →
  (∀ id r, nodes (st_db st') !! id = Some r → canonical parse id ∧ canonical parse (n_tenant_id r)) →
  ∃ r, nodes (st_db st') !! rr_NodeID result = Some r ∧ n_public_key r = rq_PublicKey req ∧
    n_status r = Some "online" ∧ n_assigned_ip r = rr_AssignedIP result ∧
    ∀ e' st2 r2 t, no_faults e' → unix (env_go_now e') < rr_RuntimeTokenExpiresAt result →
      keys_unique (st_db st2) → nodes (st_db st2) !! rr_NodeID result = Some r2 →
      n_public_key r2 = n_public_key r → n_tenant_id r2 = n_tenant_id r →
      n_runtime_token_version r2 = n_runtime_token_version r →
      isInactiveNodeStatus (default "online" (n_status r2)) = false →
      tenants (st_db st2) !! n_tenant_id r = Some t → t_status t = Some "active" →
      ∃ k, authorize secret parse (Some ["Bearer " +:+ rr_RuntimeToken result])
             (RuntimeAuth.SyncRequest (rr_NodeID result) (rq_PublicKey req)) e' st2
           = (Ok (scanNode (rr_NodeID result) r2), mkSt (st_db st2) k).
Proof.
  intros Hr Hkeys Hcanon. unfold Register in Hr.
  set (req' := if _ : bool then _ else _) in Hr.
  assert (rq_PublicKey req' = rq_PublicKey req) as Hkey by (subst req'; by destruct (_ =? _)%string).
  apply bind_ok in Hr as (res & st0 & Hr1%wrap_ok & Hr).
  clearbody req'. destruct (TrimSpace (rr_NodeID res) =? "")%string; [done|].
  destruct (TrimSpace (rr_RuntimeToken res) =? "")%string; [done|]. injection Hr as -> ->.
  apply createRegisterAdapter_ok in Hr1
    as (st1 & id & r & token & expiresAt & st2 & st3 & Hdb & Hreg & Hk & -> & Hgen & -> & ->).
  apply processRegistration_online in Hreg as (id' & r' & Hr' & Hk' & Hon & Hip).
  apply node_by_key_Some in Hk as [Hrow Hrk]. rewrite <- Hdb in *.
  assert (id' = id) as -> by (eapply Hkeys; [done..|congruence]).
  rewrite Hr' in Hrow. injection Hrow as ->.
  exists r. split_and!; [done|congruence|done|done|].
  intros e' s2 r2 t Hf Hexp Hu2 Hr2 Hk2 Ht2 Hv2 Hs2 Ht Hact.
  destruct (runtime_token_roundtrip _ _ _ _ _ _ _ _ _ e' s2 Hgen Hexp) as (_ & claims & Hval & Hc).
  apply runtime_token_text in Hgen as (_ & Hne & Hsp). rewrite <- Hkey, <- Hrk, <- Hk2.
  destruct (Hcanon _ _ Hr') as [Hci Hct]. rewrite <- Ht2, <- Hv2 in *.
  eapply authorize_run; done.
Qed.

Lemma single_key {A} (m : gmap string A) k :
  map fst (map_to_list m) = [k] → ∀ i, is_Some (m !! i) → i = k.
Proof.
  intros Hm i [x Hx]. apply elem_of_map_to_list, (list_elem_of_fmap_2' fst _ _ i) in Hx; [|done].
  change (i ∈ map fst (map_to_list m)) in Hx. rewrite Hm in Hx. by apply list_elem_of_singleton in Hx.
Qed.

(** The node [n1] registers again and synchronises with its new token. *)
Definition reissued_claims : RuntimeClaims := mkRuntimeClaims "n1" "t1" 0 86400 0 RuntimeIssuer "n1".
#[local] Instance reissued_jwt : JWT := one_token_jwt reissued_claims.
#[local] Existing Instance signs_all.
Lemma registered_agent_admitted_witness :
  let req := sample_request "k1" "edge" "tk_00" "" in
  let adapter := createRegisterAdapter "secret" known_uuids "100.64.0.0" (Some sample_service) (Ok "01") "" in
  ∃ result st', Register adapter None req (env_at 9) (mkSt (enrol_db "online") 0) = (Ok result, st') ∧
    ∃ k r, authorize "secret" known_uuids (Some ["Bearer " +:+ rr_RuntimeToken result])
      (RuntimeAuth.SyncRequest "n1" "k1") (env_at 10) st' = (Ok (scanNode "n1" r), mkSt (st_db st') k).
Proof.
  intros req adapter.
  assert (match Register adapter None req (env_at 9) (mkSt (enrol_db "online") 0) with
          | (Ok res, st1) => (map fst (map_to_list (nodes (st_db st1))), map fst (map_to_list (tenants (st_db st1))),
              rr_NodeID res, rr_RuntimeTokenExpiresAt res,
              n_tenant_id <$> nodes (st_db st1) !! "n1", t_status <$> tenants (st_db st1) !! "t1")
          | _ => ([], [], "", 0, None, None) end
          = (["n1"], ["t1"], "n1", 86400, Some "t1", Some (Some "active"))) as Hok
    by (vm_compute; reflexivity).
  destruct (Register adapter None req (env_at 9) (mkSt (enrol_db "online") 0)) as [[result|] st'] eqn:Hrun;
    [|discriminate Hok].
  injection Hok as Hn Ht Hid Hexp Hten Hst.
  pose proof (single_key _ _ Hn) as Hn1. pose proof (single_key _ _ Ht) as Ht1.
  exists result, st'. split; [reflexivity|].
  destruct (@registered_agent_admitted reissued_jwt (one_token_laws _) signs_all "secret" known_uuids "100.64.0.0"
    (Some sample_service) (Ok "01") "" None req (env_at 9) (mkSt (enrol_db "online") 0) result st' Hrun)
    as (r & Hr & _ & Hon & _ & Hserved).
  - intros id id' r r' Hr Hr' _. exact (eq_trans (Hn1 id (mk_is_Some _ _ Hr)) (eq_sym (Hn1 id' (mk_is_Some _ _ Hr')))).
  - intros id r Hr. pose proof (Hn1 id (mk_is_Some _ _ Hr)) as ->. rewrite Hr in Hten. injection Hten as ->.
    split; (split; [discriminate|split; reflexivity]).
  - rewrite Hid in Hr, Hserved. pose proof Hr as Hr0. rewrite Hr in Hten. injection Hten as Hten.
    destruct (tenants (st_db st') !! "t1") as [t|] eqn:Ht'; [|discriminate Hst]. injection Hst as Hst.
    rewrite Hten in Hserved. rewrite Hexp in Hserved.
    assert (keys_unique (st_db st')) as Hu
      by (intros id id' q q' Hq Hq' _; exact (eq_trans (Hn1 id (mk_is_Some _ _ Hq)) (eq_sym (Hn1 id' (mk_is_Some _ _ Hq'))))).
    assert (isInactiveNodeStatus (default "online" (n_status r)) = false) as Hserv by (rewrite Hon; reflexivity).
    destruct (Hserved (env_at 10) st' r t (λ _, eq_refl) eq_refl Hu Hr eq_refl Hten eq_refl Hserv Ht' Hst) as [k Hk].
    exists k, r. exact Hk.
Defined.
