(* ===== verification/Upkeep.v ===== *)
(** * Background work of the controller process

    The routine [StartCleanupRoutine] of [internal/cli/controller_serve.go] runs
    every thirty seconds: it moves silent nodes offline and recovered ones
    online with their alerts, follows the expiry of certificates, and drops
    expired enrolment tokens.  Every error is logged and dropped.  Then what a tick
    settles and what it leaves alone. *)

From S2P Require Import Prelude GoStr Records Store Events Tokens ControlState AgentCommands PolicySync Nodes NodesSpec RuntimeAuth Registration.

Open Scope Z_scope.

(** A list whose error is logged. *)
Definition or_empty {A} (m : M (list A)) : M (list A) :=
  r ← attempt m; mret (match r with Ok l => l | Err _ => [] end).

(** ** Silent and recovered nodes *)

Definition node_event (node : Node) (eventType summary : string) : AuditEvent :=
  mkAuditEvent (N_TenantID node) (Some (N_ID node)) eventType "system" summary ∅.
(** The bodies of the two loops. *)
Definition node_went_offline (node : Node) : M unit :=
  _ ← best_effort (GenerateNodeOfflineAlert (N_TenantID node) (N_ID node) (N_Hostname node));
  best_effort (CreateAuditEvent
    (node_event node "node_offline" ("节点 " +:+ N_Hostname node +:+ " 离线"))).
Definition node_recovered (node : Node) : M unit :=
  _ ← best_effort (ResolveNodeOfflineAlert (N_TenantID node) (N_ID node));
  _ ← best_effort (MarkNodeOnline (N_ID node));
  best_effort (CreateAuditEvent
    (node_event node "node_online" ("节点 " +:+ N_Hostname node +:+ " 恢复在线"))).

Definition cleanupStaleNodes : M unit :=
  goingOffline ← or_empty (GetNodesGoingOffline 60);
  recovering ← or_empty (GetNodesRecovering 60);
  count ← attempt (CleanupStaleNodes 120);
  match count with
  | Err _ => mret ()
  | Ok _ =>
    _ ← for_each goingOffline node_went_offline;
    for_each recovering node_recovered
  end.

(** ** Certificates *)

Section upkeep.
Context (uuid_Parse : string → option UUID).

Definition expired_audit (node : Node) (hostname : string) (cert : NodeCertificate) : AuditEvent :=
  mkAuditEvent (N_TenantID node) (Some (N_ID node)) "certificate_expired" "system"
    ("节点 " +:+ hostname +:+ " 证书已过期")
    (<["serial_number" := JString (nc_SerialNumber cert)]>
     {["not_after" := JString (RFC3339 (nc_NotAfter cert))]}).
Definition certificate_expired (cert : NodeCertificate) : M unit :=
  node ← or_nil (GetNodeByID (nc_NodeID cert));
  match node with
  | None => mret ()
  | Some node =>
    let hostname := if (N_Hostname node =? "")%string then nc_NodeID cert else N_Hostname node in
    _ ← best_effort (ResolveCertificateExpiringAlert (N_TenantID node) (N_ID node));
    _ ← best_effort (GenerateCertificateExpiredAlert (N_TenantID node) (N_ID node) hostname
                       (nc_NotAfter cert));
    best_effort (CreateAuditEvent (expired_audit node hostname cert))
  end.
Definition certificate_expiring (candidate : CertificateRenewalCandidate) : M unit :=
  match uuid_Parse (rc_TenantID candidate), uuid_Parse (rc_NodeID candidate) with
  | Some tenantID, Some nodeID =>
    best_effort (GenerateCertificateExpiringAlert tenantID nodeID (rc_Hostname candidate)
                   (rc_NotAfter candidate))
  | _, _ => mret ()
  end.

Definition reconcileCertificateLifecycle (certService : option CertService) : M unit :=
  match certService with
  | None => mret ()
  | Some service =>
    now ← ask env_go_now;
    expired ← or_empty (MarkExpiredNodeCertificates now);
    _ ← for_each expired certificate_expired;
    candidates ← or_empty (ListCertificatesExpiringBefore (now + sv_renewBefore service));
    for_each candidates certificate_expiring
  end.

(** One tick of the routine. *)
Definition cleanup_tick (certService : option CertService) : M unit :=
  _ ← cleanupStaleNodes;
  _ ← reconcileCertificateLifecycle certService;
  best_effort CleanupExpired.
End upkeep.

(** ** Properties of the background work

    A sweep moves each node to the status its last sign of life asks for,
    raises one alert for every node that is silent too long and clears that of
    every node that is back; nodes taken out of service stay out of it. *)

(** *** Statuses *)

(** What a sweep at [now] makes of one node, by its status, the time it was
    last seen and the time it was found silent. *)
Definition silent_since (now : Z) (r : NodeRow) : Z := default (now - 30) (n_offline_since r).
Definition back_online (updated : Time) (r : NodeRow) : NodeRow :=
  r <| n_status := Some "online" |> <| n_offline_since := None |> <| n_updated_at := updated |>.
Definition swept (now : Z) (updated : Time) (r : NodeRow) : option NodeRow :=
  if status_is "deleted" r then
    if n_updated_at r <? seconds (now - 604800) then None else Some r
  else if status_is "offline" r then
    if now - 60 <=? n_last_seen r then Some (back_online updated r)
    else match n_offline_since r with
         | Some t => Some (if t <? now - 86400 then r <| n_status := Some "stale" |> else r)
         | None => Some r
         end
  else if status_is "online" r && (n_last_seen r <? now - 30) then
    let t := silent_since now r in
    Some (r <| n_status := Some (if t <? now - 86400 then "stale" else "offline") |>
            <| n_offline_since := Some t |>)
  else Some r.

(** The two statements of the sweep and what they leave of a row. *)
Definition offline_row (now : Z) (r : NodeRow) : NodeRow :=
  if (n_last_seen r <? now - 30) && status_is "online" r
  then r <| n_status := Some "offline" |> <| n_offline_since := Some (silent_since now r) |> else r.
Definition stale_row (now : Z) (r : NodeRow) : NodeRow :=
  if match n_offline_since r with Some t => t <? now - 86400 | None => false end && status_is "offline" r
  then r <| n_status := Some "stale" |> else r.
Definition recovering_row (now : Z) (r : NodeRow) : bool :=
  (now - 60 <=? n_last_seen r) && status_is "offline" r.

Lemma update_nodes_run p f e st : no_faults e →
  update_nodes p f e st = (Ok (count_where p (nodes (st_db st))),
    mkSt (set_nodes (update_where p (f e) (nodes (st_db st))) (st_db st)) (S (st_tick st))).
Proof. intros Hf. unfold update_nodes. by rewrite exec_run. Qed.

(** The nodes after the statements of a sweep. *)
Definition swept_nodes (now : Z) (m : gmap UUID NodeRow) : gmap UUID NodeRow :=
  delete_where (expired_deleted (now - 604800)) (stale_row now <$> (offline_row now <$> m)).

(** A sweep that fails nowhere; it detaches alerts of removed nodes only. *)
Lemma CleanupStaleNodes_run s e st :
  no_faults e → own_renewals (st_db st) →
  let now := unix (env_go_now e) in
  ∃ n t db', CleanupStaleNodes s e st = (Ok n, mkSt db' t) ∧
    nodes db' = swept_nodes now (nodes (st_db st)) ∧ tenants db' = tenants (st_db st) ∧
    ∃ ids, (∀ id, id ∈ ids → ∃ r, nodes (st_db st) !! id = Some r ∧ status_is "deleted" r = true) ∧
      alerts db' = update_where (λ _ al, ref_in ids (al_node_id al))
                     (λ al, al <| al_node_id := None |>) (alerts (st_db st)).
Proof.
  intros Hf Ho now. unfold CleanupStaleNodes. rewrite (bind_run _ _ e st (env_go_now e) st) by done.
  fold now. unfold MarkOfflineNodes, MarkStaleNodes.
  erewrite bind_run by (apply wrap_run, update_nodes_run; done). cbn [st_db st_tick].
  erewrite bind_run by (apply wrap_run, update_nodes_run; done). cbn [st_db st_tick].
  match goal with |- context [mkSt (set_nodes ?m ?db) (S (S _))] => set (db2 := set_nodes m db) end.
  assert (nodes db2 = stale_row now <$> (offline_row now <$> nodes (st_db st))) as Hn2.
  { apply map_eq. intros k. subst db2. simpl. rewrite !lookup_update_where, !lookup_fmap.
    destruct (nodes (st_db st) !! k) as [r|]; simpl; [|done]. f_equal.
    unfold stale_row, offline_row, silent_since.
    destruct ((n_last_seen r <? now - 30) && status_is "online" r); [|done].
    by destruct (n_offline_since r). }
  destruct (CleanupDeletedNodes_run (now - 604800) e (mkSt db2 (S (S (st_tick st)))) Hf Ho) as [t Ht].
  erewrite bind_run by (apply wrap_run; exact Ht). cbn [st_db st_tick].
  eexists _, _, _. split; [done|]. unfold swept_nodes. rewrite <- Hn2, cleaned_nodes.
  split; [done|]. split; [by destruct (bool_decide _)|].
  exists (expired_ids (now - 604800) db2). split.
  - intros id Hid. apply list_elem_of_fmap in Hid as ([k r] & -> & [Hk He]%select_where_elem).
    rewrite Hn2, !lookup_fmap in Hk. destruct (nodes (st_db st) !! k) as [r0|] eqn:Hr0; [|done].
    exists r0. split; [exact Hr0|]. injection Hk as <-. apply andb_true_iff in He as [Hd _].
    cbn [fst snd] in Hd. unfold status_is in *. apply bool_decide_eq_true in Hd. apply bool_decide_eq_true.
    unfold stale_row, offline_row in Hd. repeat case_match; by simplify_eq/=.
  - clear Ht. case_bool_decide as He; [|reflexivity]. rewrite He. symmetry. apply update_where_none.
    intros k r _. unfold ref_in. by destruct (al_node_id r).
Qed.

Lemma swept_nodes_lookup now m id :
  swept_nodes now m !! id = (r ← m !! id;
    let r2 := stale_row now (offline_row now r) in
    if expired_deleted (now - 604800) id r2 then None else Some r2).
Proof.
  unfold swept_nodes. rewrite lookup_delete_where, !lookup_fmap. by destruct (m !! id).
Qed.

(** *** One iteration of each loop *)

(** The identifiers that are still to come are new. *)
Definition ids_to_come (e : Env) (st : St) : Prop :=
  ∀ t, (st_tick st ≤ t)%nat → alerts (st_db st) !! env_uuid e t 0%nat = None.
Definition alert_raised (db : DB) (t n : UUID) : Prop :=
  ∃ k r, alerts db !! k = Some r ∧ active_alert t n "node_offline" k r = true.


(** A step that leaves nodes, tenants and alerts alone. *)
Record quiet (st st' : St) : Prop := {
  qu_nodes : nodes (st_db st') = nodes (st_db st);
  qu_tenants : tenants (st_db st') = tenants (st_db st);
  qu_alerts : alerts (st_db st') = alerts (st_db st);
  qu_tick : (st_tick st ≤ st_tick st')%nat;
}.
Lemma audit_quiet event e st :
  ∃ st', best_effort (CreateAuditEvent event) e st = (Ok (), st') ∧ quiet st st'.
Proof.
  unfold best_effort, attempt, mbind, M_bind, mret, M_ret, CreateAuditEvent, insert_audit_event, fail,
    stmt, stmt_rows.
  repeat case_match; simplify_eq/=; eexists; (split; [reflexivity|]); split; simpl; done || lia.
Qed.

Lemma marshals_text k s : marshals {[k := JString s]} = true.
Proof. unfold marshals. by rewrite map_to_list_singleton. Qed.

Lemma best_effort_run {A} (m : M A) e st a st' :
  m e st = (Ok a, st') → best_effort m e st = (Ok (), st').
Proof. intros Hm. unfold best_effort, attempt, mbind, M_bind, mret, M_ret. by rewrite Hm. Qed.

(** The lookup both generators start with. *)
Lemma active_lookup t n ty e st : no_faults e →
  ∃ o, GetActiveAlertByNodeAndType t n ty e st = (Ok o, mkSt (st_db st) (S (st_tick st))) ∧
    match o with
    | Some (k, r) => alerts (st_db st) !! k = Some r ∧ active_alert t n ty k r = true
    | None => ∀ k r, alerts (st_db st) !! k = Some r → active_alert t n ty k r = false
    end.
Proof.
  intros Hf. unfold GetActiveAlertByNodeAndType. rewrite query_run by done. eexists. split; [done|].
  destruct (head _) as [[k r]|] eqn:Hh; [|by apply head_select_None].
  apply select_where_elem. destruct (select_where _ _); simplify_eq/=. left.
Qed.

(** What an alert raised at one identifier, or none, leaves. *)
Definition raised_at (e : Env) (t n : UUID) (st st' : St) : Prop :=
  nodes (st_db st') = nodes (st_db st) ∧ tenants (st_db st') = tenants (st_db st) ∧
  (st_tick st ≤ st_tick st')%nat ∧
  (alerts (st_db st') = alerts (st_db st) ∧ alert_raised (st_db st) t n
   ∨ ∃ i row, (st_tick st ≤ i < st_tick st')%nat ∧
       alerts (st_db st') = <[env_uuid e i 0%nat := row]> (alerts (st_db st)) ∧
       active_alert t n "node_offline" (env_uuid e i 0%nat) row = true ∧
       ∀ k r, alerts (st_db st) !! k = Some r → active_alert t n "node_offline" k r = false).
Lemma raised_then_quiet e t n st st1 st2 :
  raised_at e t n st st1 → quiet st1 st2 → raised_at e t n st st2.
Proof.
  intros (H1 & H2 & H3 & H4) [Q1 Q2 Q3 Q4]. unfold raised_at. rewrite Q1, Q2, Q3.
  split_and!; [done..|lia|]. destruct H4 as [?|(i & row & ? & ?)]; [by left|right].
  exists i, row. split; [lia|done].
Qed.

Lemma generate_run t n hostname e st :
  no_faults e → node_exists (st_db st) n = true → tenant_exists (st_db st) t = true →
  ids_to_come e st →
  ∃ st', GenerateNodeOfflineAlert t n hostname e st = (Ok (), st') ∧ raised_at e t n st st'.
Proof.
  intros Hf Hn Ht Hids. unfold GenerateNodeOfflineAlert.
  destruct (active_lookup t n "node_offline" e st Hf) as (o & Hl & Ho). erewrite bind_run by exact Hl.
  destruct o as [[k0 r0]|].
  - eexists. split; [reflexivity|]. split_and!; [done..|simpl; lia|]. left. split; [done|]. by exists k0, r0.
  - set (id := env_uuid e (S (st_tick st)) 0%nat).
    set (row := mkAlertRow t (Some n) "node_offline" "critical" ("节点 " +:+ hostname +:+ " 离线") (Some "")
       {["hostname" := JString hostname]} "active" (env_now e) None).
    erewrite (bind_run (CreateAlert _) _ e _ (id, row)
      (mkSt ((st_db st) <| alerts := <[id := row]> (alerts (st_db st)) |>) (S (S (st_tick st))))).
    2:{ unfold CreateAlert. cbn [ar_Context]. rewrite marshals_text. cbn [negb].
        unfold stmt, stmt_rows. rewrite Hf. cbn [st_db st_tick ar_TenantID ar_NodeID node_ref_ok].
        rewrite Ht, Hn. cbn [andb negb]. by rewrite (Hids (S (st_tick st))) by lia. }
    match goal with |- context [best_effort (CreateAuditEvent ?ev) e ?s] =>
      destruct (audit_quiet ev e s) as (st1 & H1 & Hq) end.
    exists st1. split; [exact H1|]. eapply raised_then_quiet; [|exact Hq].
    split_and!; [done..|simpl; lia|]. right. exists (S (st_tick st)), row.
    split_and!; [simpl; lia|simpl; lia|reflexivity|by apply active_alert_spec|exact Ho].
Qed.

Lemma went_offline_run node e st :
  no_faults e → node_exists (st_db st) (N_ID node) = true →
  tenant_exists (st_db st) (N_TenantID node) = true → ids_to_come e st →
  ∃ st', node_went_offline node e st = (Ok (), st') ∧ raised_at e (N_TenantID node) (N_ID node) st st'.
Proof.
  intros Hf Hn Ht Hids. unfold node_went_offline.
  destruct (generate_run _ _ (N_Hostname node) e st Hf Hn Ht Hids) as (st1 & H1 & Hr).
  erewrite bind_run by (eapply best_effort_run, H1).
  match goal with |- context [best_effort (CreateAuditEvent ?ev) e ?s] =>
    destruct (audit_quiet ev e s) as (st2 & H2 & Hq) end.
  exists st2. split; [exact H2|]. by eapply raised_then_quiet.
Qed.

(** *** The loop over silent nodes *)

Lemma raised_ids e t n st st' :
  (∀ i j, env_uuid e i 0%nat = env_uuid e j 0%nat → i = j) →
  raised_at e t n st st' → ids_to_come e st →
  ids_to_come e st' ∧ alert_raised (st_db st') t n ∧
  (∀ k r, alerts (st_db st) !! k = Some r → alerts (st_db st') !! k = Some r) ∧
  (alerts_unique "node_offline" (st_db st) → alerts_unique "node_offline" (st_db st')) ∧
  (∀ k r, alerts (st_db st') !! k = Some r → alerts (st_db st) !! k = Some r ∨ al_node_id r = Some n).
Proof.
  intros Hinj (_ & _ & Htick & [[Ha Hr]|(i & row & Hi & Ha & Hact & Hnone)]) Hids.
  - unfold ids_to_come, alert_raised, alerts_unique in *. rewrite Ha.
    split_and!; [|done..|by left]. intros j Hj. apply Hids. lia.
  - split_and!.
    + intros j Hj. rewrite Ha, lookup_insert_ne; [apply Hids; lia|]. intros Heq%Hinj. lia.
    + exists (env_uuid e i 0%nat), row. split; [|done]. rewrite Ha. apply lookup_insert_eq.
    + intros k r Hk. rewrite Ha, lookup_insert_ne; [done|]. intros <-.
      rewrite (Hids i) in Hk; [done|lia].
    + intros Hu. apply active_alert_spec in Hact as Hrow. destruct Hrow as (Hrt & Hrn & _ & _).
      apply (alerts_unique_ext _ ((st_db st) <| alerts := <[env_uuid e i 0%nat := row]> (alerts (st_db st)) |>));
        [exact Ha|].
      exact (alerts_unique_insert _ _ _ _ t n Hu (Hids i (proj1 Hi)) Hrt Hrn Hnone).
    + apply active_alert_spec in Hact as (_ & Hrn & _). intros k r. rewrite Ha.
      intros [[_ <-]|[_ Hk]]%lookup_insert_Some; [by right|by left].
Qed.

Lemma went_offline_all l e st :
  no_faults e → (∀ i j, env_uuid e i 0%nat = env_uuid e j 0%nat → i = j) → ids_to_come e st →
  Forall (λ n, node_exists (st_db st) (N_ID n) = true ∧ tenant_exists (st_db st) (N_TenantID n) = true) l →
  ∃ st', for_each l node_went_offline e st = (Ok (), st') ∧
    nodes (st_db st') = nodes (st_db st) ∧ tenants (st_db st') = tenants (st_db st) ∧
    (alerts_unique "node_offline" (st_db st) → alerts_unique "node_offline" (st_db st')) ∧
    (∀ k r, alerts (st_db st) !! k = Some r → alerts (st_db st') !! k = Some r) ∧
    Forall (λ n, alert_raised (st_db st') (N_TenantID n) (N_ID n)) l ∧
    (∀ k r id, alerts (st_db st') !! k = Some r → al_node_id r = Some id → id ∉ (N_ID <$> l) →
       alerts (st_db st) !! k = Some r).
Proof.
  intros Hf Hinj. revert st. induction l as [|n l IH]; intros st Hids Hall; cbn [for_each].
  { exists st. split_and!; auto. }
  apply Forall_cons in Hall as [[Hn Ht] Hall].
  destruct (went_offline_run n e st Hf Hn Ht Hids) as (st1 & H1 & Hraise).
  destruct (raised_ids _ _ _ _ _ Hinj Hraise Hids) as (Hids1 & (k0 & r0 & Hk0 & Hr0) & Hkeep1 & Hu1 & Hnew1).
  destruct Hraise as (Hn1 & Ht1 & _).
  destruct (IH st1 Hids1) as (st2 & H2 & Hn2 & Ht2 & Hu2 & Hkeep2 & Hl2 & Hnew2).
  { eapply Forall_impl; [exact Hall|]. intros m [??]. unfold node_exists, tenant_exists. by rewrite Hn1, Ht1. }
  exists st2. erewrite bind_run by exact H1. split; [exact H2|]. rewrite Hn2, Ht2.
  split_and!; [done..|auto|auto| |].
  - constructor; [|done]. exists k0, r0. split; [by apply Hkeep2|done].
  - intros k r id Hk Hid Hno. rewrite fmap_cons, not_elem_of_cons in Hno. destruct Hno as [Hne Hno].
    destruct (Hnew1 k r) as [?|?]; [by eapply Hnew2|done|congruence].
Qed.

(** *** The loop over recovered nodes *)

Definition alert_cleared (db : DB) (t n : UUID) : Prop :=
  ∀ k r, alerts db !! k = Some r → active_alert t n "node_offline" k r = false.

(** Alerts of the nodes [ids] may have been resolved, and nothing else. *)
Definition resolved_for (ids : list UUID) (db db' : DB) : Prop :=
  (∀ k r', alerts db' !! k = Some r' → alerts db !! k = Some r' ∨ al_status r' = "resolved") ∧
  ∀ k r, alerts db !! k = Some r → ref_in ids (al_node_id r) = false → alerts db' !! k = Some r.

Lemma resolved_for_refl ids db db' : alerts db' = alerts db → resolved_for ids db db'.
Proof. unfold resolved_for. intros ->. eauto. Qed.
Lemma resolved_for_trans ids ids' db db1 db2 :
  resolved_for ids db db1 → resolved_for ids' db1 db2 → resolved_for (ids ++ ids') db db2.
Proof.
  intros [A1 A2] [B1 B2]. split.
  - intros k r' Hk. destruct (B1 _ _ Hk) as [Hk1|]; [|by right]. by apply A1.
  - intros k r Hk Hno. destruct (al_node_id r) as [x|] eqn:Hx; cbn [ref_in] in Hno.
    + apply one_of_false in Hno. rewrite elem_of_app in Hno. apply B2; [apply A2; [done|]|];
        rewrite Hx; apply one_of_false; tauto.
    + apply B2; [apply A2; [done|]|]; by rewrite Hx.
Qed.
Lemma resolved_inactive t n k r : al_status r = "resolved" → active_alert t n "node_offline" k r = false.
Proof.
  intros Hs. destruct (active_alert _ _ _ _ _) eqn:Ha; [|done].
  apply active_alert_spec in Ha as (_ & _ & _ & Ha). congruence.
Qed.
Lemma resolved_cleared ids db db' t n : resolved_for ids db db' → alert_cleared db t n → alert_cleared db' t n.
Proof.
  intros [H _] Hc k r Hk. destruct (H _ _ Hk) as [Hk'|Hs]; [by apply Hc|by apply resolved_inactive].
Qed.
Lemma resolved_unique ids db db' : resolved_for ids db db' →
  alerts_unique "node_offline" db → alerts_unique "node_offline" db'.
Proof.
  intros [H _] Hu t n k k' r r' Hk Hk' Ha Ha'.
  destruct (H _ _ Hk) as [Hk1|Hs]; [|by rewrite resolved_inactive in Ha].
  destruct (H _ _ Hk') as [Hk1'|Hs]; [|by rewrite resolved_inactive in Ha'].
  by eapply Hu.
Qed.
Lemma resolved_raised ids db db' t n : resolved_for ids db db' → n ∉ ids →
  alert_raised db t n → alert_raised db' t n.
Proof.
  intros [_ H] Hn (k & r & Hk & Ha). exists k, r. split; [|done]. apply H; [done|].
  apply active_alert_spec in Ha as (_ & -> & _). by apply one_of_false.
Qed.

Lemma resolve_run t n e st :
  no_faults e → alerts_unique "node_offline" (st_db st) →
  ∃ st', ResolveNodeOfflineAlert t n e st = (Ok (), st') ∧ nodes (st_db st') = nodes (st_db st) ∧
    resolved_for [n] (st_db st) (st_db st') ∧ alert_cleared (st_db st') t n.
Proof.
  intros Hf Hu. unfold ResolveNodeOfflineAlert.
  destruct (active_lookup t n "node_offline" e st Hf) as (o & Hl & Ho). erewrite bind_run by exact Hl.
  destruct o as [[k0 r0]|].
  2:{ eexists. split; [reflexivity|]. split_and!; [done|by apply resolved_for_refl|exact Ho]. }
  destruct Ho as [Hk0 Hact]. apply active_alert_spec in Hact as Hrow. destruct Hrow as (Hrt & Hrn & _ & Hrs).
  set (r1 := r0 <| al_status := "resolved" |> <| al_resolved_at := Some (env_now e) |>).
  erewrite (bind_run (ResolveAlert _) _ e _ r1
    (mkSt ((st_db st) <| alerts := <[k0 := r1]> (alerts (st_db st)) |>) (S (S (st_tick st))))).
  2:{ unfold ResolveAlert, stmt, stmt_rows. rewrite Hf. cbn [st_db st_tick]. by rewrite Hk0, Hrs. }
  match goal with |- context [best_effort (CreateAuditEvent ?ev) e ?s] =>
    destruct (audit_quiet ev e s) as (st1 & H1 & [Q1 _ Q3 _]) end.
  exists st1. split; [exact H1|]. split; [exact Q1|]. cbn [st_db] in Q3.
  change (alerts (st_db st1) = <[k0 := r1]> (alerts (st_db st))) in Q3. split.
  - split; intros k r; rewrite Q3.
    + intros [[<- <-]|[? ?]]%lookup_insert_Some; [by right|by left].
    + intros Hk Hno. rewrite lookup_insert_ne; [done|]. intros <-. simplify_eq.
      rewrite Hrn in Hno. cbn [ref_in] in Hno. apply one_of_false in Hno. apply Hno. by left.
  - intros k r. rewrite Q3. intros [[<- <-]|[Hne Hk]]%lookup_insert_Some; [by apply resolved_inactive|].
    destruct (active_alert t n _ k r) eqn:Ha; [|done]. exfalso. by eapply Hne, Hu.
Qed.

Lemma recovered_run node e st :
  no_faults e → alerts_unique "node_offline" (st_db st) →
  ∃ st', node_recovered node e st = (Ok (), st') ∧
    nodes (st_db st') = update_where (λ id _, (id =? N_ID node)%string) (back_online (env_now e))
                          (nodes (st_db st)) ∧
    resolved_for [N_ID node] (st_db st) (st_db st') ∧
    alert_cleared (st_db st') (N_TenantID node) (N_ID node).
Proof.
  intros Hf Hu. unfold node_recovered.
  destruct (resolve_run (N_TenantID node) (N_ID node) e st Hf Hu) as (st1 & H1 & Hn1 & Hr1 & Hc1).
  erewrite bind_run by (eapply best_effort_run, H1).
  erewrite bind_run.
  2:{ eapply best_effort_run. unfold MarkNodeOnline. erewrite bind_run by by apply update_nodes_run. reflexivity. }
  match goal with |- context [best_effort (CreateAuditEvent ?ev) e ?s] =>
    destruct (audit_quiet ev e s) as (st2 & H2 & [Q1 _ Q3 _]) end.
  exists st2. split; [exact H2|]. rewrite Q1. cbn [st_db]. split; [by rewrite <-Hn1|].
  change (alerts (st_db st2) = alerts (st_db st1)) in Q3. unfold resolved_for, alert_cleared in *.
  by rewrite Q3.
Qed.

Lemma recovered_all l e st :
  no_faults e → alerts_unique "node_offline" (st_db st) →
  ∃ st', for_each l node_recovered e st = (Ok (), st') ∧
    nodes (st_db st') = update_where (λ id _, one_of id (N_ID <$> l)) (back_online (env_now e))
                          (nodes (st_db st)) ∧
    resolved_for (N_ID <$> l) (st_db st) (st_db st') ∧
    Forall (λ n, alert_cleared (st_db st') (N_TenantID n) (N_ID n)) l.
Proof.
  intros Hf. revert st. induction l as [|n l IH]; intros st Hu; cbn [for_each].
  { exists st. split; [done|]. split_and!; [|by apply resolved_for_refl|constructor].
    symmetry. by apply update_where_none. }
  destruct (recovered_run n e st Hf Hu) as (st1 & H1 & Hn1 & Hr1 & Hc1).
  destruct (IH st1) as (st2 & H2 & Hn2 & Hr2 & Hc2); [by eapply resolved_unique|].
  exists st2. erewrite bind_run by exact H1. split; [exact H2|]. split_and!.
  - rewrite Hn2, Hn1. apply map_eq. intros k. rewrite !lookup_update_where.
    destruct (nodes (st_db st) !! k) as [r|]; [|done]. cbn [fmap option_fmap option_map]. f_equal.
    unfold one_of. cbn [list_fmap fmap existsb]. destruct (k =? N_ID n)%string, (existsb _ _); done.
  - exact (resolved_for_trans _ _ _ _ _ Hr1 Hr2).
  - constructor; [by eapply resolved_cleared|done].
Qed.

(** *** The sweep *)

Lemma status_is_Some s r : status_is s r = true ↔ n_status r = Some s.
Proof. apply bool_decide_eq_true. Qed.
Lemma status_is_other s s' r : n_status r = Some s → s ≠ s' → status_is s' r = false.
Proof. intros Hs Hne. apply bool_decide_eq_false. congruence. Qed.

(** The statements of the sweep on one row amount to [swept]. *)
Lemma swept_row now updated r :
  (let r2 := stale_row now (offline_row now r) in
   (λ x, if recovering_row now r then back_online updated x else x) <$>
     (if expired_deleted (now - 604800) "" r2 then None else Some r2)) = swept now updated r.
Proof.
  unfold swept. destruct (status_is "deleted" r) eqn:Hd.
  { apply status_is_Some in Hd as Hs.
    assert (offline_row now r = r) as ->.
    { unfold offline_row. by rewrite (status_is_other "deleted" "online" r Hs), andb_false_r. }
    assert (stale_row now r = r) as ->.
    { unfold stale_row. by rewrite (status_is_other "deleted" "offline" r Hs), andb_false_r. }
    unfold recovering_row, expired_deleted.
    rewrite (status_is_other "deleted" "offline" r Hs), andb_false_r, Hd by done. cbn [andb].
    by destruct (n_updated_at r <? _). }
  assert (∀ x : NodeRow, status_is "deleted" x = false → expired_deleted (now - 604800) "" x = false) as Hexp
    by (intros x Hx; unfold expired_deleted; by rewrite Hx).
  destruct (status_is "offline" r) eqn:Ho.
  { apply status_is_Some in Ho as Hs. unfold offline_row, recovering_row.
    rewrite (status_is_other "offline" "online" r Hs), andb_false_r, Ho, andb_true_r by done.
    unfold stale_row. rewrite Ho, andb_true_r.
    destruct (n_offline_since r) as [t|] eqn:Ht; [destruct (t <? now - 86400)|];
      cbv zeta; rewrite Hexp by done; cbn; by destruct (now - 60 <=? n_last_seen r). }
  unfold recovering_row. rewrite Ho, andb_false_r. unfold offline_row, stale_row.
  rewrite (andb_comm (status_is "online" r)).
  destruct ((n_last_seen r <? now - 30) && status_is "online" r).
  - cbn [n_offline_since]. change (n_offline_since (r <| n_status := Some "offline" |>
      <| n_offline_since := Some (silent_since now r) |>)) with (Some (silent_since now r)). cbv iota beta.
    change (status_is "offline" (r <| n_status := Some "offline" |>
      <| n_offline_since := Some (silent_since now r) |>)) with true. rewrite andb_true_r.
    destruct (silent_since now r <? now - 86400); cbv zeta; by rewrite Hexp.
  - rewrite Ho, andb_false_r. cbv zeta. by rewrite Hexp.
Qed.

Lemma or_empty_run {A} (m : M (list A)) e st l st' :
  m e st = (Ok l, st') → or_empty m e st = (Ok l, st').
Proof. intros Hm. unfold or_empty. by erewrite bind_run by by apply attempt_run. Qed.

Definition node_list (p : UUID → NodeRow → bool) (m : gmap UUID NodeRow) : list Node :=
  (λ kn : UUID * NodeRow, scanNode kn.1 kn.2) <$> select_where p m.
Lemma node_list_elem p m n :
  n ∈ node_list p m ↔ ∃ id r, n = scanNode id r ∧ m !! id = Some r ∧ p id r = true.
Proof.
  unfold node_list. rewrite list_elem_of_fmap. split.
  - intros ([id r] & -> & [??]%select_where_elem). by exists id, r.
  - intros (id & r & -> & Hk & Hp). exists (id, r). by rewrite select_where_elem.
Qed.
Lemma node_list_ids p m id r : m !! id = Some r → one_of id (N_ID <$> node_list p m) = p id r.
Proof.
  intros Hr. apply eq_true_iff_eq. rewrite one_of_spec, list_elem_of_fmap. split.
  - intros (n & -> & (id' & r' & -> & Hk & Hp)%node_list_elem). simpl in *. by simplify_eq.
  - intros Hp. exists (scanNode id r). split; [done|]. apply node_list_elem. eauto.
Qed.

(** C28. A sweep without failing statements moves every node to the status its
    last sign of life asks for and removes those deleted long ago.  Afterwards a
    node that the sweep found online but silent for more than a minute has exactly
    one active [node_offline] alert, a node that it found offline but heard of
    within the minute has none, and any other node that is not deleted has one
    exactly when it had one before; no node ever has two.  New alerts get new
    identifiers and every node has its tenant. *)
Theorem sweep_settles e st :
  no_faults e → own_renewals (st_db st) →
  (∀ i j, env_uuid e i 0%nat = env_uuid e j 0%nat → i = j) →
  (∀ i, alerts (st_db st) !! env_uuid e i 0%nat = None) →
  alerts_unique "node_offline" (st_db st) →
  (∀ id r, nodes (st_db st) !! id = Some r → tenant_exists (st_db st) (n_tenant_id r) = true) →
  let db := st_db st in let now := unix (env_go_now e) in
  ∃ st', cleanupStaleNodes e st = (Ok (), st') ∧
    (∀ id, nodes (st_db st') !! id = nodes db !! id ≫= swept now (env_now e)) ∧
    alerts_unique "node_offline" (st_db st') ∧
    ∀ id r, nodes db !! id = Some r →
      (n_status r = Some "online" → n_last_seen r < now - 60 →
         alert_raised (st_db st') (n_tenant_id r) id) ∧
      (n_status r = Some "offline" → now - 60 ≤ n_last_seen r →
         alert_cleared (st_db st') (n_tenant_id r) id) ∧
      (n_status r ≠ Some "deleted" → ¬ (n_status r = Some "online" ∧ n_last_seen r < now - 60) →
         ¬ (n_status r = Some "offline" ∧ now - 60 ≤ n_last_seen r) →
         alert_raised (st_db st') (n_tenant_id r) id ↔ alert_raised db (n_tenant_id r) id).
Proof.
  intros Hf Hown Hinj Hnew Hu Htn db now. unfold cleanupStaleNodes.
  set (silent := node_list (λ _ r, (n_last_seen r <? now - 60) && status_is "online" r) (nodes db)).
  set (back := node_list (λ _ r, recovering_row now r) (nodes db)).
  erewrite (bind_run _ _ e st silent).
  2:{ apply or_empty_run. unfold GetNodesGoingOffline. rewrite (bind_run _ _ e st (env_go_now e) st) by done.
      by rewrite query_run. }
  erewrite (bind_run _ _ e _ back).
  2:{ apply or_empty_run. unfold GetNodesRecovering.
      rewrite (bind_run _ _ e _ (env_go_now e) (mkSt (st_db st) (S (st_tick st)))) by done.
      by rewrite query_run. }
  destruct (CleanupStaleNodes_run 120 e (mkSt db (S (S (st_tick st)))) Hf Hown)
    as (n & t & db1 & Hrun & Hn1 & Ht1 & ids & Hids & Ha1). cbn [st_db st_tick] in *. fold now in Hn1.
  erewrite bind_run by (apply attempt_run; exact Hrun). cbv iota beta. clear Hrun.
  assert (∀ id r, nodes db !! id = Some r → status_is "online" r = true → is_Some (nodes db1 !! id)) as Hstay.
  { intros id r Hr Hs%status_is_Some. rewrite Hn1, swept_nodes_lookup, Hr. cbn [mbind option_bind].
    case_match eqn:He; [|by eexists]. exfalso. unfold expired_deleted in He.
    apply andb_true_iff in He as [He%status_is_Some _]. unfold stale_row, offline_row in He.
    repeat case_match; simplify_eq/=; congruence. }
  destruct (went_offline_all silent e (mkSt db1 t) Hf Hinj)
    as (st2 & H2 & Hn2 & _ & Hu2 & Hkeep2 & Hl2 & Hnew2); cbn [st_db] in *.
  { intros i _. cbn [st_db]. by rewrite Ha1, lookup_update_where, Hnew. }
  { apply Forall_forall. intros x (id & r & -> & Hr & [_ Hs]%andb_true_iff)%node_list_elem. cbn.
    unfold node_exists, tenant_exists. rewrite Ht1. split; [apply bool_decide_eq_true; by eapply Hstay|].
    by eapply Htn. }
  assert (alerts_unique "node_offline" db1) as Hu1.
  { assert (∀ t n k r, alerts db1 !! k = Some r → active_alert t n "node_offline" k r = true →
      alerts db !! k = Some r) as Hsame.
    { intros t' n' k r Hk Ha. rewrite Ha1, lookup_update_where in Hk.
      destruct (alerts db !! k) as [r0|]; [|done]. injection Hk as <-.
      destruct (ref_in ids (al_node_id r0)); [|done]. by apply active_alert_spec in Ha as (_ & ? & _). }
    intros t' n' k k' r r' Hk Hk' Ha Ha'. eapply Hu; eauto. }
  erewrite bind_run by exact H2.
  destruct (recovered_all back e st2 Hf (Hu2 Hu1)) as (st3 & H3 & Hn3 & Hr3 & Hc3).
  exists st3. split; [exact H3|]. rewrite Hn2 in Hn3. split_and!.
  - intros id. rewrite Hn3, lookup_update_where, Hn1, swept_nodes_lookup.
    destruct (nodes db !! id) as [r|] eqn:Hr; [|done]. cbn [mbind option_bind].
    unfold back. rewrite (node_list_ids _ _ _ _ Hr). exact (swept_row now (env_now e) r).
  - eapply resolved_unique; [exact Hr3|auto].
  - rewrite Forall_forall in Hl2, Hc3. intros id r Hr. split_and!.
    + intros Hs Hseen. eapply resolved_raised; [exact Hr3| |].
      * unfold back. rewrite <- (one_of_false id), (node_list_ids _ _ _ _ Hr). unfold recovering_row.
        by rewrite (status_is_other "online" "offline" r Hs), andb_false_r.
      * apply (Hl2 (scanNode id r)), node_list_elem. exists id, r. split_and!; [done..|].
        apply andb_true_iff. split; [by apply Z.ltb_lt|by apply status_is_Some].
    + intros Hs Hseen. apply (Hc3 (scanNode id r)), node_list_elem. exists id, r. split_and!; [done..|].
      apply andb_true_iff. split; [by apply Z.leb_le|by apply status_is_Some].
    + intros Hd Hns Hnb.
      assert (id ∉ (N_ID <$> silent)) as Hsil.
      { rewrite <- (one_of_false id). unfold silent. rewrite (node_list_ids _ _ _ _ Hr). apply andb_false_iff.
        destruct (status_is "online" r) eqn:Hon; [left|by right]. apply status_is_Some in Hon. apply Z.ltb_ge.
        destruct (Z.le_gt_cases (now - 60) (n_last_seen r)); [lia|]. exfalso. apply Hns. split; [done|lia]. }
      assert (id ∉ (N_ID <$> back)) as Hbk.
      { rewrite <- (one_of_false id). unfold back. rewrite (node_list_ids _ _ _ _ Hr). unfold recovering_row.
        apply andb_false_iff. destruct (status_is "offline" r) eqn:Hoff; [left|by right]. apply status_is_Some in Hoff.
        apply Z.leb_gt. destruct (Z.lt_ge_cases (n_last_seen r) (now - 60)); [lia|]. exfalso. by apply Hnb. }
      assert (ref_in ids (Some id) = false) as Hgone.
      { apply one_of_false. intros (r0 & Hr0 & Hs%status_is_Some)%Hids. congruence. }
      split.
      * intros (k & a & Hk & Ha). pose proof Ha as Hrow. apply active_alert_spec in Hrow as (_ & Hrn & _ & Hra).
        destruct (proj1 Hr3 k a Hk) as [Hk2|Hres]; [|congruence].
        pose proof (Hnew2 k a id Hk2 Hrn Hsil) as Hk1. rewrite Ha1, lookup_update_where in Hk1.
        destruct (alerts db !! k) as [a0|] eqn:Hk0; [|done]. injection Hk1 as <-.
        destruct (ref_in ids (al_node_id a0)); [done|]. by exists k, a0.
      * intros (k & a & Hk & Ha). pose proof Ha as Hrow. apply active_alert_spec in Hrow as (_ & Hrn & _ & _).
        eapply resolved_raised; [exact Hr3|exact Hbk|]. exists k, a. split; [|done]. apply Hkeep2.
        rewrite Ha1, lookup_update_where, Hk. cbn [fmap option_fmap option_map]. by rewrite Hrn, Hgone.
Qed.

(** A node that went silent two minutes ago, and one that is back. *)
Definition sweep_db : DB :=
  empty_db
    <| tenants := {["t1" := mkTenantRow "T" None None None (Some "active") None 0 0]} |>
    <| nodes := <["n1" := sample_node "k1" "online" 2 0]>
                  {["n2" := (sample_node "k2" "offline" 3 0) <| n_last_seen := 110 |>
                              <| n_offline_since := Some 40 |>]} |>
    <| alerts := {["a2" := mkAlertRow "t1" (Some "n2") "node_offline" "critical" "" None ∅ "active" 0 None]} |>.
Definition numbered_env (t : Time) : Env := mkEnv t t (λ n _, "uuid-" +:+ pretty n) (λ _, false).

Lemma sweep_settles_witness :
  let st' := (cleanupStaleNodes (numbered_env 120000000) (mkSt sweep_db 0)).2 in
  alert_raised (st_db st') "t1" "n1" ∧ alert_cleared (st_db st') "t1" "n2" ∧
  (n_status <$> nodes (st_db st') !! "n1") = Some (Some "offline") ∧
  (n_status <$> nodes (st_db st') !! "n2") = Some (Some "online").
Proof.
  destruct (sweep_settles (numbered_env 120000000) (mkSt sweep_db 0)) as (st' & Hrun & Hn & _ & Ha).
  - done.
  - intros n c n' c' id Hc. cbn in Hc. by rewrite lookup_empty in Hc.
  - intros i j Hij%(inj (String.append "uuid-")). by apply (inj pretty) in Hij.
  - intros i. by apply lookup_singleton_ne.
  - intros t n k k' r r' Hk Hk' _ _. cbn in Hk, Hk'. apply lookup_singleton_Some in Hk as [<- _].
    by apply lookup_singleton_Some in Hk' as [<- _].
  - intros id r Hr. cbn in Hr. concrete_rows; reflexivity.
  - rewrite Hrun. cbn [snd]. split_and!.
    + destruct (Ha "n1" _ eq_refl) as [H1 _]. by apply H1.
    + destruct (Ha "n2" _ eq_refl) as (_ & H2 & _). by apply H2.
    + rewrite Hn. reflexivity.
    + rewrite Hn. reflexivity.
Defined.

(** *** Nodes that are out of service stay out *)

(** The calls the controller makes on its own, a tick of the routine included. *)
Inductive background :=
  | Upkeep (op : upkeep)
  | Tick (certService : option CertService).

Section background.
Context (uuid_Parse : string → option UUID).

Definition run_background (op : background) : M unit :=
  match op with Upkeep op => run_upkeep op | Tick cs => cleanup_tick uuid_Parse cs end.
Fixpoint run_backgrounds (ops : list (Env * background)) (st : St) : St :=
  match ops with
  | [] => st
  | (e, op) :: ops' => run_backgrounds ops' (run_background op e st).2
  end.

End background.

(** Stopped nodes stay stopped, and a node gets no other status than one of
    service. *)
Definition in_use (r : NodeRow) : Prop := ∀ s, n_status r = Some s → s ∉ stopped_statuses.
Definition keeps_service (db db' : DB) : Prop :=
  ∀ id r', nodes db' !! id = Some r' →
    ∃ r, nodes db !! id = Some r ∧ (n_status r' = n_status r ∨ in_use r').
Definition gently (db db' : DB) : Prop := stopped_stay db db' ∧ keeps_service db db'.

#[export] Instance keeps_service_preorder : PreOrder keeps_service.
Proof.
  split; [by intros db id r Hr; eauto|]. intros a b c Hab Hbc id r Hr.
  destruct (Hbc _ _ Hr) as (rb & Hb & Hrb). destruct (Hab _ _ Hb) as (ra & Ha & Hra).
  exists ra. split; [done|]. unfold in_use in *. destruct Hrb as [Heq|]; [|by right].
  rewrite Heq. exact Hra.
Qed.
#[export] Instance gently_preorder : PreOrder gently.
Proof.
  split; [by intros db; split|]. intros a b c [??] [??]. split; by etrans.
Qed.
Lemma gently_nodes db db' : nodes db' = nodes db → gently db db'.
Proof. intros H. split; [by apply stopped_stay_eq|]. intros id r. rewrite H. eauto. Qed.
Lemma gently_logs {A} (m : M A) : only_logs m → changes gently m.
Proof. intros Hm e st. apply gently_nodes. destruct (Hm e st) as (_ & _ & _ & Hn & _). exact Hn. Qed.

Lemma update_nodes_gently p f :
  (∀ id r s, n_status r = Some s → s ∈ stopped_statuses → p id r = false) →
  (∀ e r, n_status (f e r) = n_status r ∨ in_use (f e r)) →
  changes gently (update_nodes p f).
Proof.
  intros Hp Hs e st. split; [by apply update_nodes_stay|].
  refine (changes_exec keeps_service _ _ e st). clear e st. intros e db id r'. simpl.
  rewrite lookup_update_where. intros (r & Hr & ->)%fmap_Some. exists r. split; [done|].
  destruct (p id r); [apply Hs|by left].
Qed.

Lemma CleanupDeletedNodes_gently thr : changes gently (CleanupDeletedNodes thr).
Proof.
  intros e st. split; [apply CleanupDeletedNodes_stay|].
  refine ((_ : changes keeps_service (CleanupDeletedNodes thr)) e st). clear e st.
  unfold CleanupDeletedNodes, detachDeletedNodeHistoryTx, purgeDeletedNodeDependentsTx.
  apply (changes_tx keeps_service). chg.
  all: try by apply (changes_exec keeps_service); intros ? db id r Hr; exists r; auto.
  apply (changes_stmt keeps_service). intros e id db n db' Hd. unfold delete_nodes in Hd.
  destruct (_ || _); [done|]. injection Hd as _ <-. intros k r. simpl. rewrite lookup_delete_where.
  intros Hk. exists r. repeat case_match; simplify_eq; auto.
Qed.
Lemma CleanupStaleNodes_gently s : changes gently (CleanupStaleNodes s).
Proof.
  pose proof CleanupDeletedNodes_gently. unfold CleanupStaleNodes, MarkOfflineNodes, MarkStaleNodes.
  chg; apply update_nodes_gently.
  1, 3: intros id r t Ht Hin; rewrite (status_is_stopped r t), andb_false_r; try done; by apply one_of_false.
  all: intros _ r; right; intros t; cbn; intros [= <-]; by apply one_of_false.
Qed.

Lemma best_effort_seq {A B} (m : M A) (k : M B) e st :
  ((_ ← best_effort m; k) e st).2 = (k e (m e st).2).2.
Proof. unfold best_effort, attempt, mbind, M_bind, mret, M_ret. by destruct (m e st). Qed.

(** Marking nodes online that are in use. *)
Lemma MarkNodeOnline_gently id e st :
  (∀ r, nodes (st_db st) !! id = Some r → in_use r) →
  gently (st_db st) (st_db (MarkNodeOnline id e st).2).
Proof.
  intros Hr. unfold MarkNodeOnline, update_nodes, mbind, M_bind, exec, stmt, stmt_rows.
  destruct (env_fault e (st_tick st)); [done|]. cbn. split; [split|]; cbn; intros k.
  - rewrite lookup_update_where. intros [r (r' & ? & _)%fmap_Some]. by exists r'.
  - intros r s Hid Hs Hst. rewrite lookup_update_where, Hid. cbn.
    destruct (k =? id)%string eqn:He; [|done]. bools. subst k. by destruct (Hr _ Hid s).
  - intros r'. cbn. rewrite lookup_update_where. intros (r & Hid & ->)%fmap_Some. exists r. split; [done|].
    destruct (k =? id)%string; [right|by left]. intros s. cbn. intros [= <-]. by apply one_of_false.
Qed.
Lemma node_recovered_gently n e st :
  (∀ r, nodes (st_db st) !! N_ID n = Some r → in_use r) →
  gently (st_db st) (st_db (node_recovered n e st).2).
Proof.
  intros Hr. unfold node_recovered. rewrite !best_effort_seq, best_effort_st.
  pose proof (ResolveNodeOfflineAlert_logs (N_TenantID n) (N_ID n) e st) as (_ & _ & _ & Hn & _).
  etrans; [by apply gently_nodes, Hn|]. rewrite <-Hn in Hr.
  etrans; [by apply MarkNodeOnline_gently|]. apply gently_logs, CreateAuditEvent_logs.
Qed.
Lemma recovered_gently l e st :
  (∀ n r, n ∈ l → nodes (st_db st) !! N_ID n = Some r → in_use r) →
  gently (st_db st) (st_db (for_each l node_recovered e st).2).
Proof.
  revert st. induction l as [|n l IH]; intros st Hl; cbn [for_each]; [done|].
  assert (gently (st_db st) (st_db (node_recovered n e st).2)) as Hn.
  { apply node_recovered_gently. intros r. apply Hl. left. }
  unfold mbind, M_bind. destruct (node_recovered n e st) as [[[]|x] st1]; cbn [snd] in *; [|done].
  etrans; [exact Hn|]. apply IH. intros m r Hm Hr.
  destruct (proj2 Hn _ _ Hr) as (r0 & Hr0 & [Heq|]); [|done].
  unfold in_use. rewrite Heq. eapply Hl; [by right|done].
Qed.

Lemma cleanupStaleNodes_gently : changes gently cleanupStaleNodes.
Proof.
  intros e st. unfold cleanupStaleNodes, or_empty.
  unfold GetNodesGoingOffline, GetNodesRecovering, attempt, mbind, M_bind, mret, M_ret, ask.
  destruct (query _ e st) as [r1 st1] eqn:H1.
  pose proof (query_same (λ _ db, (λ kn : UUID * NodeRow, scanNode kn.1 kn.2) <$> select_where
    (λ _ r, (n_last_seen r <? unix (env_go_now e) - 60) && status_is "online" r) (nodes db)) e st) as Hs1.
  rewrite H1 in Hs1. cbn [snd] in Hs1. clear H1.
  destruct (query _ e st1) as [r2 st2] eqn:H2.
  assert (st_db st2 = st_db st ∧
    ∀ n r, n ∈ match r2 with Ok l => l | Err _ => [] end → nodes (st_db st) !! N_ID n = Some r → in_use r)
    as [Hs2 Hback].
  { unfold query, stmt, stmt_rows in H2. destruct (env_fault e (st_tick st1)).
    - injection H2 as <- <-. split; [done|]. by intros n r ?%elem_of_nil.
    - injection H2 as <- <-. cbn [st_db]. rewrite Hs1. split; [done|].
      intros n r (id & r0 & -> & Hr0 & [_ Ho]%andb_true_iff)%node_list_elem Hr. cbn in Hr. simplify_eq.
      apply status_is_Some in Ho. intros s Hs. simplify_eq. by apply one_of_false. }
  pose proof (CleanupStaleNodes_gently 120 e st2) as Hsweep.
  destruct (CleanupStaleNodes 120 e st2) as [[c|x] st3]; cbn [snd] in *; rewrite Hs2 in Hsweep; [|exact Hsweep].
  set (silent := match r1 with Ok l => l | Err _ => [] end).
  assert (changes gently (for_each silent node_went_offline)) as Hoff.
  { unfold node_went_offline. chg; by apply gently_logs; auto with aria. }
  specialize (Hoff e st3).
  destruct (for_each silent node_went_offline e st3) as [[[]|x] st4]; cbn [snd] in *; [|by etrans].
  etrans; [exact Hsweep|]. etrans; [exact Hoff|]. apply recovered_gently.
  intros n r Hin Hr. destruct (proj2 Hoff _ _ Hr) as (r3 & Hr3 & Hst3).
  destruct (proj2 Hsweep _ _ Hr3) as (r0 & Hr0 & Hst0). specialize (Hback n r0 Hin Hr0).
  unfold in_use in *. destruct Hst3 as [-> |]; [|done]. destruct Hst0 as [-> |]; done.
Qed.

Lemma reconcile_gently parse cs : changes gently (reconcileCertificateLifecycle parse cs).
Proof.
  unfold reconcileCertificateLifecycle, or_empty, MarkExpiredNodeCertificates,
    ListCertificatesExpiringBefore, certificate_expired, certificate_expiring, or_nil, GetNodeByID.
  chg; try (apply gently_logs; unfold ResolveCertificateExpiringAlert, GenerateCertificateExpiredAlert,
    GenerateCertificateExpiringAlert; by auto with aria).
  apply (changes_exec gently). intros. by apply gently_nodes.
Qed.
Lemma cleanup_tick_gently parse cs : changes gently (cleanup_tick parse cs).
Proof.
  pose proof cleanupStaleNodes_gently. pose proof (reconcile_gently parse cs).
  unfold cleanup_tick, CleanupExpired, set_token_status. chg.
  apply (changes_exec gently). intros. by apply gently_nodes.
Qed.

(** C37. Over any sequence of heartbeats, sweeps and ticks of the background
    routine, with any statement failing, no suspended, banned or deleted node
    changes its status, also where a tick marks nodes online again; a node
    disappears only if it was marked deleted, and none appears. *)
Theorem background_never_revives parse ops st :
  stopped_stay (st_db st) (st_db (run_backgrounds parse ops st)).
Proof.
  revert st. induction ops as [|[e op] ops IH]; intros st; cbn [run_backgrounds]; [reflexivity|].
  etrans; [|apply IH]. destruct op as [op|cs]; [apply run_upkeep_stay|apply cleanup_tick_gently].
Qed.

(** *** Sweeps that are on time *)

(** After a sweep at [t], before the next one. *)
Definition timely (t : Z) (db : DB) : Prop :=
  ∀ id r, nodes db !! id = Some r →
    (n_status r = Some "online" → t - 30 ≤ n_last_seen r) ∧
    (n_status r = Some "offline" → n_last_seen r < t - 30).

Lemma heartbeat_timely t id now e st :
  t - 30 ≤ now → timely t (st_db st) → timely t (st_db (UpdateNodeHeartbeat id now e st).2).
Proof.
  intros Hle Ht. unfold UpdateNodeHeartbeat, update_nodes, mbind, M_bind, exec, stmt, stmt_rows.
  destruct (env_fault e (st_tick st)); [done|]. cbn.
  assert (timely t (set_nodes (update_where (λ id0 r, (id0 =? id)%string && status_not_in stopped_statuses r)
    (λ r, r <| n_last_seen := now |> <| n_status := Some "online" |> <| n_offline_since := None |>
            <| n_updated_at := env_now e |>) (nodes (st_db st))) (st_db st))) as Hset.
  { intros k r'. cbn. rewrite lookup_update_where. intros (r & Hr & ->)%fmap_Some.
    destruct (_ && _); [|by eapply Ht]. cbn. split; [done|]. by intros [= ?]. }
  by destruct (_ =? 0).
Qed.

(** Sweeps exactly thirty seconds apart, as the routine schedules them, find
    every silent node within a minute and mark it offline, so that none is left
    for [GetNodesGoingOffline]: no [node_offline] alert is raised. *)
Lemma timely_sweep_raises_nothing t e st :
  no_faults e → own_renewals (st_db st) → unix (env_go_now e) = t + 30 → timely t (st_db st) →
  ∃ st', cleanupStaleNodes e st = (Ok (), st') ∧ timely (t + 30) (st_db st') ∧
    dom (alerts (st_db st')) = dom (alerts (st_db st)).
Proof.
  intros Hf Hown Hnow Ht. unfold cleanupStaleNodes.
  assert (∀ p, (∀ id r, nodes (st_db st) !! id = Some r → p id r = false) →
    node_list p (nodes (st_db st)) = []) as Hempty.
  { intros p Hp. unfold node_list. destruct (select_where _ _) as [|[k r] l] eqn:Hl; [done|].
    assert ((k, r) ∈ select_where p (nodes (st_db st))) as [Hk Hkp]%select_where_elem by (rewrite Hl; left).
    by rewrite (Hp _ _ Hk) in Hkp. }
  erewrite (bind_run _ _ e st []).
  2:{ apply or_empty_run. unfold GetNodesGoingOffline. rewrite (bind_run _ _ e st (env_go_now e) st) by done.
      rewrite query_run by done. f_equal. f_equal. apply Hempty. intros id r Hr.
      apply andb_false_iff. destruct (status_is "online" r) eqn:Hs; [left|by right].
      apply status_is_Some in Hs. apply (Ht _ _ Hr) in Hs. apply Z.ltb_ge. lia. }
  erewrite (bind_run _ _ e _ []).
  2:{ apply or_empty_run. unfold GetNodesRecovering.
      rewrite (bind_run _ _ e _ (env_go_now e) (mkSt (st_db st) (S (st_tick st)))) by done.
      rewrite query_run by done. f_equal. f_equal. apply Hempty. intros id r Hr.
      apply andb_false_iff. destruct (status_is "offline" r) eqn:Hs; [left|by right].
      apply status_is_Some in Hs. apply (Ht _ _ Hr) in Hs. apply Z.leb_gt. lia. }
  destruct (CleanupStaleNodes_run 120 e (mkSt (st_db st) (S (S (st_tick st)))) Hf Hown)
    as (n & tick & db1 & Hrun & Hn1 & _ & ids & _ & Ha1). cbn [st_db st_tick] in *.
  erewrite bind_run by (apply attempt_run; exact Hrun). eexists. split; [reflexivity|]. cbn [st_db]. split.
  - intros id r' Hr'. rewrite Hn1, swept_nodes_lookup in Hr'.
    destruct (nodes (st_db st) !! id) as [r|] eqn:Hr; [|done]. cbn [mbind option_bind] in Hr'.
    destruct (expired_deleted _ _ _); [done|]. injection Hr' as <-. destruct (Ht _ _ Hr) as [Hon Hoff].
    rewrite Hnow. unfold stale_row, offline_row, status_is.
    repeat (case_match; simplify_eq/=); bools; split; intros; simplify_eq/=; try (specialize (Hoff ltac:(done)));
      try (specialize (Hon ltac:(done))); try lia.
    all: match goal with H : _ && bool_decide (_ = Some "online") = false |- _ =>
      apply andb_false_iff in H as [?%Z.ltb_ge|?%bool_decide_eq_false]; [lia|done] end.
  - rewrite Ha1. apply dom_update_where.
Qed.
