(* ===== verification/Durations.v ===== *)
(** * Durations

    [time.ParseDuration] of Go: texts such as 24h or 1.5h30m, in nanoseconds.
    The fraction of a unit is computed in 64-bit floating point, as Go does; the
    arithmetic is that of [SpecFloat]. *)

From Stdlib Require Import SpecFloat.
From S2P Require Import Prelude GoStr.

Open Scope Z_scope.

(** ** 64-bit floating point *)

(** [float64(z)]. *)
Definition float64_of (z : Z) : spec_float := binary_normalize 53 1024 z 0 false.
Definition float64_mul : spec_float → spec_float → spec_float := SFmul 53 1024.
Definition float64_div : spec_float → spec_float → spec_float := SFdiv 53 1024.
(** [uint64(x)] of a number that is not negative. *)
Definition float64_trunc (x : spec_float) : Z :=
  match x with S754_finite false m e => Z.shiftl (Zpos m) e | _ => 0 end.

(** ** Digits *)

Definition two63 : Z := 2 ^ 63.

(** [leadingInt]: the number a text starts with, unless it exceeds [2^63]. *)
Fixpoint leadingInt (x : Z) (s : text) : option (Z * text) :=
  match s with
  | c :: s' =>
    match digit_val c with
    | None => Some (x, s)
    | Some d =>
      if two63 / 10 <? x then None else
      let x := x * 10 + d in
      if two63 <? x then None else leadingInt x s'
    end
  | [] => Some (x, [])
  end.
(** [leadingFraction]: the digits after the point and the power of ten they are
    divided by; digits past the range are dropped. *)
Fixpoint leadingFraction (x scale : Z) (overflow : bool) (s : text) : Z * Z * text :=
  match s with
  | c :: s' =>
    match digit_val c with
    | None => (x, scale, s)
    | Some d =>
      if overflow || ((two63 - 1) / 10 <? x) then leadingFraction x scale true s' else
      let y := x * 10 + d in
      if two63 <? y then leadingFraction x scale true s' else leadingFraction y (scale * 10) false s'
    end
  | [] => (x, scale, [])
  end.

(** ** Units *)

Definition unit_end (c : ascii) : bool := (c =? "."%char)%char || bool_decide (is_Some (digit_val c)).
Fixpoint span_unit (s : text) : text * text :=
  match s with
  | c :: s' => if unit_end c then ([], s) else let (u, rest) := span_unit s' in (c :: u, rest)
  | [] => ([], [])
  end.
Definition Hour : Z := 3600 * 1000000000.
(** [unitMap]; the micro sign has two encodings. *)
Definition unitMap (u : string) : option Z :=
  if (u =? "ns")%string then Some 1 else
  if (u =? "us")%string || (u =? "µs")%string || (u =? "μs")%string then Some 1000 else
  if (u =? "ms")%string then Some 1000000 else
  if (u =? "s")%string then Some 1000000000 else
  if (u =? "m")%string then Some (60 * 1000000000) else
  if (u =? "h")%string then Some Hour else None.

(** The value [v] and fraction [f / scale] of a unit. *)
Definition scaled (v f scale unit : Z) : option Z :=
  if two63 / unit <? v then None else
  let v := v * unit in
  if 0 <? f then
    let v := v + float64_trunc (float64_mul (float64_of f) (float64_div (float64_of unit) (float64_of scale))) in
    if two63 <? v then None else Some v
  else Some v.

(** The point and the digits after it, and whether there are any. *)
Definition fraction (s : text) : Z * Z * text * bool :=
  match s with
  | c :: s' =>
    if (c =? "."%char)%char then
      let '(f, scale, rest) := leadingFraction 0 1 false s' in
      (f, scale, rest, negb (length rest =? length s')%nat)
    else (0, 1, s, false)
  | [] => (0, 1, [], false)
  end.

(** One number with its unit. *)
Definition duration_part (s : text) : option (Z * text) :=
  '(v, s1) ← leadingInt 0 s;
  let pre := negb (length s1 =? length s)%nat in
  let '(f, scale, s2, post) := fraction s1 in
  if negb (pre || post) then None else
  let (u, s3) := span_unit s2 in
  unit ← unitMap (String.string_of_list_ascii u);
  v ← scaled v f scale unit;
  Some (v, s3).

(** Every part takes at least one character. *)
Fixpoint duration_parts (fuel : nat) (d : Z) (s : text) : option Z :=
  match s, fuel with
  | [], _ => Some d
  | _, O => None
  | _, S fuel =>
    '(v, s') ← duration_part s;
    let d := uint64 (d + v) in
    if two63 <? d then None else duration_parts fuel d s'
  end.

Definition ParseDuration (str : string) : option Z :=
  let s := String.list_ascii_of_string str in
  let '(neg, s) :=
    match s with
    | c :: s' => if (c =? "-"%char)%char then (true, s') else if (c =? "+"%char)%char then (false, s') else (false, s)
    | [] => (false, s)
    end in
  if bool_decide (s = ["0"%char]) then Some 0 else
  if bool_decide (s = []) then None else
  d ← duration_parts (length s) 0 s;
  if neg then Some (- d) else
  if two63 - 1 <? d then None else Some d.

Example ParseDuration_examples :
  ParseDuration <$> ["1h"; "1.5h"; "1h30m"; "-2.5s"; "0"; "+7us"; "9223372036854775808ns"; "h"; ".s"; "1"; ""; "3d"; "0.3s"]
  = [Some Hour; Some (3 * Hour / 2); Some (3 * Hour / 2); Some (-2500000000); Some 0; Some 7000; None; None; None;
     None; None; None; Some 300000000].
Proof. vm_compute. reflexivity. Qed.

(** ** The parser consumes its input *)

Lemma leadingInt_rest x s v s' : leadingInt x s = Some (v, s') → (length s' ≤ length s)%nat.
Proof.
  revert x. induction s as [|c s IH]; intros x; simpl; [by intros [= _ <-]|].
  destruct (digit_val c); [|by intros [= _ <-]].
  destruct (_ <? x); [done|]. destruct (two63 <? _); [done|]. intros ?%IH. lia.
Qed.
Lemma leadingFraction_rest x scale o s : (length (leadingFraction x scale o s).2 ≤ length s)%nat.
Proof.
  revert x scale o. induction s as [|c s IH]; intros x scale o; simpl; [lia|].
  destruct (digit_val c) as [d|]; [|simpl; lia].
  destruct (o || _); [|destruct (two63 <? _)]; apply le_S, IH.
Qed.
Lemma fraction_rest s : (length (fraction s).1.2 ≤ length s)%nat.
Proof.
  destruct s as [|c s]; [done|]. simpl. destruct (c =? ".")%char; [|done].
  pose proof (leadingFraction_rest 0 1 false s) as Hr.
  destruct (leadingFraction 0 1 false s) as [[f scale] rest]. simpl in *. lia.
Qed.
Lemma span_unit_length s : (length (span_unit s).1 + length (span_unit s).2 = length s)%nat.
Proof.
  induction s as [|c s IH]; simpl; [done|]. destruct (unit_end c); [done|].
  destruct (span_unit s) as [u rest]. simpl in *. lia.
Qed.
Lemma unitMap_empty u z : unitMap u = Some z → u ≠ "".
Proof. intros H ->. by vm_compute in H. Qed.
Lemma duration_part_rest s v s' : duration_part s = Some (v, s') → (length s' < length s)%nat.
Proof.
  unfold duration_part. intros H.
  destruct (leadingInt 0 s) as [[n s1]|] eqn:Hl; [|done]. cbn [mbind option_bind] in H.
  apply leadingInt_rest in Hl.
  pose proof (fraction_rest s1) as Hf.
  destruct (fraction s1) as [[[f scale] s2] post]. cbn [fst snd] in Hf. destruct (negb _); [done|].
  pose proof (span_unit_length s2) as Hu. destruct (span_unit s2) as [u s3]. cbn [fst snd] in Hu.
  destruct (unitMap _) as [z|] eqn:Hz; [|done]. cbn [mbind option_bind] in H.
  destruct (scaled _ _ _ _); [|done]. injection H as _ <-. apply unitMap_empty in Hz.
  destruct u; [done|]. simpl in Hu. lia.
Qed.

(** The fuel of [ParseDuration] is enough: with more, the answer is the same. *)
Lemma duration_parts_fuel n m d s :
  (length s ≤ n)%nat → (length s ≤ m)%nat → duration_parts n d s = duration_parts m d s.
Proof.
  revert m d s. induction n as [|n IH]; intros m d s Hn Hm.
  { destruct s; simpl in Hn; [|lia]. by destruct m. }
  destruct s as [|c s]; [by destruct m|]. destruct m as [|m]; [simpl in Hm; lia|].
  cbn [duration_parts]. destruct (duration_part (c :: s)) as [[v s']|] eqn:Hp; [|done].
  cbn [mbind option_bind]. destruct (two63 <? _); [done|]. apply duration_part_rest in Hp.
  simpl in *. apply IH; lia.
Qed.
