(* ===== verification/TokenAdmin.v ===== *)
(** * Enrolment tokens of a tenant

    The token pages of [internal/api/v2/platform.go]: an operator lists the
    tokens of a tenant, issues one, reads one and deletes one.  A token is shown
    in full only in the answer that issues it. *)

From S2P Require Import Prelude GoStr Records Store Events Tokens IPGroups PolicyRules Lifecycle RuntimeAuth Tenants Sessions Access Dispatch PolicyValidation PolicyAdmin NodeAdmin Durations.

Open Scope Z_scope.

Definition PermTokensRead : string := "tokens:read".
Definition PermTokensWrite : string := "tokens:write".

(** ** What is shown of a token *)

Definition tokenSecretPreview (tokenStr : string) : string :=
  let tokenStr := TrimSpace tokenStr in
  if (tokenStr =? "")%string then "" else
  if (String.length tokenStr <=? 10)%nat then "redacted" else
  String.substring 0 6 tokenStr +:+ "..." +:+ String.substring (String.length tokenStr - 4) 4 tokenStr.

(** The map [redactedTenantTokenResponse] builds. *)
Record TokenView := mkTokenView {
  tv_id : UUID;
  tv_token_preview : string;
  tv_tag : string;
  tv_max_uses : Z;
  tv_used_count : Z;
  tv_expires_at : Time;
  tv_created_at : Time;
  tv_status : string;
}.
Definition redactedTenantTokenResponse (id : UUID) (tokenStr tag : string) (maxUses usedCount : Z)
    (expiresAt createdAt : Time) (status : string) : TokenView :=
  mkTokenView id (tokenSecretPreview tokenStr) tag maxUses usedCount expiresAt createdAt status.

(** The map of [tokenDetailResponse]; the token itself only on demand. *)
Record TokenDetail := mkTokenDetail {
  td_view : TokenView;
  td_tenant_id : string;
  td_created_by : string;
  td_last_used_at : option Time;
  td_last_used_by : string;
  td_token : option string;
}.
Definition tokenDetailResponse (t : Token) (includeSecret : bool) : TokenDetail :=
  mkTokenDetail
    (redactedTenantTokenResponse (tok_ID t) (tok_Token t) (tok_Tag t) (tok_MaxUses t) (tok_UsedCount t)
       (tok_ExpiresAt t) (tok_CreatedAt t) (tok_Status t))
    (tok_TenantID t) (tok_CreatedBy t) (tok_LastUsedAt t) (tok_LastUsedBy t)
    (if includeSecret then Some (tok_Token t) else None).

Inductive token_answer :=
  | TokensListed (l : list TokenView)
  | TokenIssued (t : Token)
  | TokenShown (d : TokenDetail)
  | TokenDeleted (id : string).

(** ** The fields of a request *)

(** The body of a request for a token. *)
Record tokenBody := mkTokenBody {
  tb_Tag : string;
  tb_MaxUses : option Z;
  tb_TTL : string;
}.

(** In nanoseconds. *)
Definition defaultTenantTokenTTL : Z := 30 * 24 * Hour.
Definition maxTenantTokenTTL : Z := 365 * 24 * Hour.
Definition maxTenantTokenTagLen : nat := 128.

Definition normalizeTenantTokenTag (raw : string) : result string :=
  let tag := TrimSpace raw in
  if (tag =? "")%string then Ok "" else
  if (maxTenantTokenTagLen <? RuneCountInString tag)%nat
  then Err (ErrorString "tag must be at most 128 characters") else
  if existsb isControlRune (String.list_ascii_of_string tag)
  then Err (ErrorString "tag cannot contain control characters") else Ok tag.

Definition parseTenantTokenTTL (raw : string) : result Z :=
  let raw := TrimSpace raw in
  if (raw =? "")%string then Ok defaultTenantTokenTTL else
  match ParseDuration raw with
  | None => Err (ErrorString "invalid ttl format; use values like 1h, 24h, or 168h")
  | Some ttl =>
    if ttl <=? 0 then Err (ErrorString "ttl must be greater than 0") else
    if maxTenantTokenTTL <? ttl then Err (ErrorString "ttl cannot exceed 8760h") else Ok ttl
  end.

(** ** The handlers *)

Section tokens.
Context (enforcement : string).
(** [uuid.Parse], and what [rand.Read] gives for a new token. *)
Context (uuid_Parse : string → result UUID) (bytes : result text).

(** [ORDER BY created_at DESC]. *)
Definition tokens_of (tenantID : UUID) (db : DB) : list (UUID * TokenRow) :=
  SliceStable token_newer (select_where (λ _ r, bool_decide (tk_tenant_id r = Some tenantID)) (tokens db)).
Definition view_row (kr : UUID * TokenRow) : TokenView :=
  let r := kr.2 in
  redactedTenantTokenResponse kr.1 (tk_token r) (tk_tag r) (tk_max_uses r) (tk_used_count r)
    (tk_expires_at r) (tk_created_at r) (tk_status r).
Definition listTenantTokens (tenantID : UUID) : M (list TokenView) :=
  r ← attempt (query (λ _ db, view_row <$> tokens_of tenantID db));
  match r with
  | Ok l => mret l
  | Err _ => write_error 500 "INTERNAL_ERROR" "Failed to list tokens"
  end.

(** [if body.MaxUses != nil]. *)
Definition requested_uses (maxUses : option Z) : M Z :=
  match maxUses with
  | None => mret 1
  | Some n => if n <? 0 then invalid "max_uses cannot be negative" else mret n
  end.
Definition require_active_tenant (tenantID : UUID) : M unit :=
  r ← attempt (GetTenantStatus tenantID);
  match r with
  | Err ErrNoRows => write_error 404 "TENANT_NOT_FOUND" "Tenant not found"
  | Err _ => write_error 500 "INTERNAL_ERROR" "Failed to verify tenant status"
  | Ok status =>
    if negb (EqualFold (TrimSpace status) "active")
    then write_error 403 "ACCESS_DENIED" "Tenant is not active" else mret ()
  end.
Definition createTenantToken (body : option tokenBody) (tenantID : UUID) : M Token :=
  body ← body_of body;
  tag ← or_invalid (normalizeTenantTokenTag (tb_Tag body));
  maxUses ← requested_uses (tb_MaxUses body);
  ttl ← or_invalid (parseTenantTokenTTL (tb_TTL body));
  _ ← require_active_tenant tenantID;
  g ← attempt (Generate uuid_Parse bytes (mkGenerateOptions tag tenantID maxUses (ttl / 1000) ""));
  match g with
  | Err _ => write_error 500 "INTERNAL_ERROR" "Failed to generate token"
  | Ok t =>
    c ← attempt (Create t);
    match c with
    | Err _ => write_error 500 "INTERNAL_ERROR" "Failed to save token"
    | Ok t => mret t
    end
  end.

(** The lookup at the head of the two handlers of one token. *)
Definition token_of_request (tenantID : UUID) (tokenIDStr : string) : M Token :=
  r ← attempt (GetByID tokenIDStr);
  match r with
  | Ok (Some t) =>
    if negb (tok_TenantID t =? tenantID)%string
    then write_error 403 "ACCESS_DENIED" "Access denied" else mret t
  | _ => write_error 404 "NODE_NOT_FOUND" "Token not found"
  end.
Definition getTenantTokenDetail (tenantID : UUID) (tokenIDStr : string) : M TokenDetail :=
  t ← token_of_request tenantID tokenIDStr; mret (tokenDetailResponse t false).
Definition deleteTenantToken (tenantID : UUID) (tokenIDStr : string) : M string :=
  t ← token_of_request tenantID tokenIDStr;
  r ← attempt (Delete (tok_Token t));
  match r with
  | Err _ => write_error 500 "INTERNAL_ERROR" "Failed to delete token"
  | Ok _ => mret tokenIDStr
  end.

(** [handleTenantTokens] below api/v2/tenants/tid/tokens. *)
Definition handleTenantTokens (r : Request) (ctx : Context) (body : option tokenBody) (tenantID : UUID)
    : M token_answer :=
  let parts := splitPath (Path r) in
  let require p := authorizeTenantPermission enforcement ctx tenantID p in
  if (length parts =? 5)%nat then
    if (Method r =? "GET")%string then
      _ ← require PermTokensRead; l ← listTenantTokens tenantID; mret (TokensListed l)
    else if (Method r =? "POST")%string then
      _ ← require PermTokensWrite; t ← createTenantToken body tenantID; mret (TokenIssued t)
    else method_not_allowed
  else if (length parts =? 6)%nat then
    let tokenID := default "" (parts !! 5%nat) in
    if (Method r =? "GET")%string then
      _ ← require PermTokensRead; d ← getTenantTokenDetail tenantID tokenID; mret (TokenShown d)
    else if (Method r =? "DELETE")%string then
      _ ← require PermTokensWrite; id ← deleteTenantToken tenantID tokenID; mret (TokenDeleted id)
    else method_not_allowed
  else write_error 400 "INVALID_PATH" "Invalid token path".
End tokens.
