(* ===== verification/TokenAdminSpec.v ===== *)
(** * What the token pages of a tenant promise

    Whatever an operator asks of the token pages of a tenant, the tokens of other
    tenants stay as they are, and a token that is new belongs to the tenant and
    lives a year at most.  A token that was issued enrols a device. *)

From S2P Require Import Prelude GoStr Records Store Events Tokens TokensSpec IPGroups PolicyRules Lifecycle RuntimeAuth Tenants Sessions Access AccessSpec Dispatch PolicyValidation PolicyAdmin NodeAdmin PolicyAdminSpec Durations TokenAdmin.

Open Scope Z_scope.

(** A year in microseconds. *)
Definition year : Z := 365 * 24 * 3600 * 1000000.

(** A row as it is issued. *)
Record issued (t : UUID) (now : Time) (r : TokenRow) : Prop := {
  is_tenant : tk_tenant_id r = Some t;
  is_active : tk_status r = "active";
  is_unused : tk_used_count r = 0;
  is_budget : 0 ≤ tk_max_uses r < 2 ^ 31;
  is_life : now ≤ tk_expires_at r ≤ now + year;
}.

(** What a request for the tokens of [t] may do to the table, at one of the times [clock]. *)
Record own_tokens (clock : Time → Prop) (t : UUID) (db db' : DB) : Prop := {
  ow_others : ∀ id r, tk_tenant_id r ≠ Some t → tokens db !! id = Some r ↔ tokens db' !! id = Some r;
  ow_new : ∀ id r, tokens db' !! id = Some r → tokens db !! id = Some r ∨ ∃ now, clock now ∧ issued t now r;
}.
Definition token_step_ok (clock : Time → Prop) (t : UUID) (db db' : DB) : Prop :=
  tokens_wf db → tokens_wf db' ∧ own_tokens clock t db db'.
#[export] Instance token_step_ok_preorder clock t : PreOrder (token_step_ok clock t).
Proof.
  split.
  - intros db Hwf. split; [done|]. split; [done|]. by left.
  - intros db1 db2 db3 H12 H23 H1. destruct (H12 H1) as [H2 [A1 A2]]. destruct (H23 H2) as [H3 [B1 B2]].
    split; [done|]. split.
    + intros id r Hr. by rewrite A1, B1.
    + intros id r [Hr | ?]%B2; [by apply A2|by right].
Qed.

(** ** Issuing *)

Lemma hour_positive : 0 < Hour. Proof. done. Qed.
Lemma year_hours : maxTenantTokenTTL / 1000 = year. Proof. done. Qed.

Lemma parseTenantTokenTTL_bounds raw ttl : parseTenantTokenTTL raw = Ok ttl → 0 ≤ ttl / 1000 ≤ year.
Proof.
  unfold parseTenantTokenTTL. intros H.
  assert (0 < ttl ≤ maxTenantTokenTTL) as Httl.
  { destruct (_ =? "")%string; [by injection H as <-|]. destruct (ParseDuration _) as [d|]; [|done].
    destruct (d <=? 0) eqn:H1; [done|]. destruct (maxTenantTokenTTL <? d) eqn:H2; [done|].
    injection H as <-. lia. }
  rewrite <- year_hours. split; [apply Z.div_pos; lia|apply Z.div_le_mono; lia].
Qed.

Lemma Generate_ok parse bytes opts e st tok st' :
  Generate parse bytes opts e st = (Ok tok, st') →
  st' = st ∧ tok_TenantID tok = go_TenantID opts ∧ tok_Status tok = StatusActive ∧ tok_UsedCount tok = 0 ∧
  tok_MaxUses tok = go_MaxUses opts ∧ tok_ExpiresAt tok = env_go_now e + go_TTL opts.
Proof.
  unfold Generate. intros (u & st1 & Hu & H)%bind_ok.
  assert (st1 = st) as ->.
  { destruct (_ =? "")%string; [by injection Hu|]. by destruct (parse _); injection Hu. }
  destruct bytes; [|done]. by injection H as <- <-.
Qed.

(** The row [Create] inserts. *)
Lemma Create_ok tok e st tok' st' :
  Create tok e st = (Ok tok', st') → tok_TenantID tok ≠ "" →
  let id := tok_ID tok' in
  tok_Token tok' = tok_Token tok ∧ int4 (tok_MaxUses tok) = true ∧ tokens (st_db st) !! id = None ∧
  (∀ k r, tokens (st_db st) !! k = Some r → tk_token r ≠ tok_Token tok) ∧
  st_db st' = (st_db st) <| tokens := <[id := mkTokenRow (tok_Token tok) (tok_Tag tok) (Some (tok_TenantID tok))
    (tok_MaxUses tok) (tok_UsedCount tok) (tok_ExpiresAt tok) (env_now e) (tok_CreatedBy tok) (tok_Status tok)
    None None]> (tokens (st_db st)) |>.
Proof.
  intros (H & _ & _)%stmt_ok Hne. rewrite (proj2 (String.eqb_neq _ _) Hne) in H.
  destruct (int4 (tok_MaxUses tok)) eqn:Hint; [|done]. destruct (int4 (tok_UsedCount tok)); [|done].
  destruct (tenant_exists _ _); [|done]. cbn [andb negb] in H.
  destruct (exists_where _ _) eqn:Hx; [done|]. destruct (tokens (st_db st) !! _) eqn:Hid; [done|].
  injection H as <- Hdb. cbn. split_and!; [done..| |by symmetry].
  intros k r Hk. rewrite exists_where_false in Hx. apply Hx in Hk. unfold is_token in Hk.
  by apply String.eqb_neq in Hk.
Qed.

Lemma insert_issued (clock : Time → Prop) t now id r db : clock now →
  issued t now r → tokens db !! id = None → (∀ k x, tokens db !! k = Some x → tk_token x ≠ tk_token r) →
  token_step_ok clock t db (db <| tokens := <[id := r]> (tokens db) |>).
Proof.
  intros Hnow [H1 H2 H3 H4 H5] Hid Hnew [Hu Hok]. split; [split|split]; cbn.
  - intros k k' x x' [[<- <-] | [Hn Hx]]%lookup_insert_Some [[<- <-] | [Hn' Hx']]%lookup_insert_Some Heq; try done.
    + by destruct (Hnew _ _ Hx').
    + by destruct (Hnew _ _ Hx).
    + by eapply Hu.
  - intros k x [[<- <-] | [_ Hx]]%lookup_insert_Some; [|by eapply Hok].
    split; [lia|]. rewrite H2. vm_compute. by repeat constructor.
  - intros k x Hne. rewrite lookup_insert_Some. split; [|by intros [[_ <-] | [_ ?]]].
    intros Hx. right. split; [|done]. intros <-. congruence.
  - intros k x [[<- <-] | [_ Hx]]%lookup_insert_Some; [right; by exists now|by left].
Qed.

Section requests.
Context (enforcement : string) (parse : string → result UUID) (bytes : result text) (t : UUID).

Lemma require_active_tenant_reads : changes (same (λ db, db)) (require_active_tenant t).
Proof. unfold require_active_tenant, GetTenantStatus, scan_tenant_status. chg. Qed.
Lemma token_of_request_reads id : changes (same (λ db, db)) (token_of_request t id).
Proof. unfold token_of_request, GetByID. chg. Qed.
Lemma clean_stmt {A} (f : Env → UUID → DB → result (A * DB)) : clean (stmt f).
Proof.
  intros e st x st'. unfold stmt, stmt_rows. destruct (env_fault e _); [by intros [= _ <-]|].
  destruct (f _ _ _) as [[a db']|y]; [done|by intros [= _ <-]].
Qed.
Lemma or_invalid_inv {A} (r : result A) e st a st' : or_invalid r e st = (Ok a, st') → r = Ok a ∧ st' = st.
Proof. unfold or_invalid. destruct r; [by intros [= <- <-]|done]. Qed.
Lemma requested_uses_inv o e st n st' :
  requested_uses o e st = (Ok n, st') → n = default 1 o ∧ 0 ≤ n ∧ st' = st.
Proof.
  unfold requested_uses. destruct o as [m|]; [|by intros [= <- <-]].
  destruct (m <? 0) eqn:Hm; [done|]. intros [= <- <-]. split_and!; [done|lia|done].
Qed.

(** What a request that is answered with a new token has done. *)
Lemma createTenantToken_ok body e st tok st' :
  t ≠ "" → createTenantToken parse bytes body t e st = (Ok tok, st') →
  ∃ b ttl row, body = Some b ∧ parseTenantTokenTTL (tb_TTL b) = Ok ttl ∧
    tokens (st_db st) !! tok_ID tok = None ∧
    (∀ k x, tokens (st_db st) !! k = Some x → tk_token x ≠ tk_token row) ∧
    st_db st' = (st_db st) <| tokens := <[tok_ID tok := row]> (tokens (st_db st)) |> ∧
    tk_token row = tok_Token tok ∧ issued t (env_go_now e) row ∧
    tk_max_uses row = default 1 (tb_MaxUses b) ∧ tk_expires_at row = env_go_now e + ttl / 1000.
Proof.
  intros Hne. unfold createTenantToken. intros (b & st1 & Hb & H)%bind_ok.
  destruct body as [b'|]; [|done]. injection Hb as -> <-.
  apply bind_ok in H as (tag & st1 & [_ ->]%or_invalid_inv & H).
  apply bind_ok in H as (uses & st1 & (Huses & Hpos & ->)%requested_uses_inv & H).
  apply bind_ok in H as (ttl & st1 & [Httl ->]%or_invalid_inv & H).
  apply bind_ok in H as ([] & st1 & Hact & H).
  pose proof (require_active_tenant_reads e st) as Hdb. rewrite Hact in Hdb. unfold same in Hdb. cbn in Hdb.
  apply bind_ok in H as (g & st2 & Hg & H). unfold attempt in Hg.
  destruct (Generate _ _ _ e st1) as [[tok0|] st3] eqn:Hgen; injection Hg as <- <-; [|done].
  apply Generate_ok in Hgen as (-> & Ht & Hs & Hu & Hm & He). cbn [go_TenantID go_MaxUses go_TTL] in *.
  apply bind_ok in H as (c & st4 & Hc & H). unfold attempt in Hc.
  destruct (Create tok0 e st1) as [[tok1|] st5] eqn:Hcr; injection Hc as <- <-; [|done].
  injection H as -> ->. apply Create_ok in Hcr as (Htok & Hint & Hid & Hnew & Hst); [|by rewrite Ht].
  rewrite Hdb in *. pose proof (parseTenantTokenTTL_bounds _ _ Httl) as Hb.
  match type of Hst with context [<[_ := ?r]> _] => exists b, ttl, r end.
  split_and!; [done|done|done|exact Hnew|exact Hst|by symmetry| |cbn; congruence|cbn; lia].
  unfold int4 in Hint. split; cbn; [congruence|done|done|lia|lia].
Qed.

Lemma createTenantToken_clean body : clean (createTenantToken parse bytes body t).
Proof.
  unfold createTenantToken, requested_uses, or_invalid, body_of, invalid, require_active_tenant, Generate,
    GetTenantStatus, scan_tenant_status. cln.
  apply clean_attempt; [apply clean_stmt|intros; unfold write_error; chg|intros; by auto with aria].
Qed.
Lemma createTenantToken_own clock e body :
  t ≠ "" → clock (env_go_now e) → changes_at e (token_step_ok clock t) (createTenantToken parse bytes body t).
Proof.
  intros Hne Hnow st. destruct (createTenantToken parse bytes body t e st) as [[tok|x] st'] eqn:H; cbn [snd].
  - apply createTenantToken_ok in H as (b & ttl & row & _ & _ & Hid & Hnew & -> & _ & Hi & _); [|done].
    by eapply insert_issued.
  - enough (st_db st' = st_db st) as -> by reflexivity.
    exact (createTenantToken_clean body e st x st' H).
Qed.

(** ** Deleting *)

Lemma token_of_request_ok id e st tok st' :
  t ≠ "" → token_of_request t id e st = (Ok tok, st') →
  st_db st' = st_db st ∧ ∃ r, tokens (st_db st) !! id = Some r ∧ tk_token r = tok_Token tok ∧ tk_tenant_id r = Some t.
Proof.
  intros Hne H. pose proof (token_of_request_reads id e st) as Hdb. rewrite H in Hdb. split; [exact Hdb|].
  unfold token_of_request in H. apply bind_ok in H as (g & st1 & Hg & H). unfold attempt in Hg.
  destruct (GetByID id e st) as [[[tok0|]|] st2] eqn:Hget; injection Hg as <- <-; [|done..].
  destruct (_ =? t)%string eqn:Ht; [|done]. injection H as -> _. apply String.eqb_eq in Ht.
  unfold GetByID in Hget. destruct (id =? "")%string; [done|]. apply query_ok in Hget as [Hget _].
  destruct (tokens (st_db st) !! id) as [r|]; [|done]. injection Hget as ->. exists r.
  split_and!; [done|done|]. cbn in Ht. destruct (tk_tenant_id r); cbn in Ht; congruence.
Qed.
Lemma delete_own clock s id r db :
  tokens db !! id = Some r → tk_token r = s → tk_tenant_id r = Some t →
  token_step_ok clock t db (db <| tokens := delete_where (is_token s) (tokens db) |>).
Proof.
  intros Hid Hs Ht [Hu Hok].
  assert (∀ k x, delete_where (is_token s) (tokens db) !! k = Some x ↔ tokens db !! k = Some x ∧ k ≠ id) as Hd.
  { intros k x. rewrite lookup_delete_where. unfold is_token. split.
    - destruct (tokens db !! k) as [y|] eqn:Hy; [|done]. destruct (_ =? s)%string eqn:He; [done|].
      intros [= ->]. split; [done|]. intros ->. simplify_eq. by rewrite String.eqb_refl in He.
    - intros [Hk Hne]. rewrite Hk, (proj2 (String.eqb_neq _ _)); [done|].
      intros He. apply Hne. eapply Hu; [done..|congruence]. }
  split; [split|split]; cbn.
  - intros k k' x x' [Hk _]%Hd [Hk' _]%Hd. by eapply Hu.
  - intros k x [Hk _]%Hd. by eapply Hok.
  - intros k x Hne. rewrite Hd. split; [|by intros []]. intros Hk. split; [done|]. intros ->. congruence.
  - intros k x [Hk _]%Hd. by left.
Qed.
Lemma deleteTenantToken_own clock id : t ≠ "" → changes (token_step_ok clock t) (deleteTenantToken t id).
Proof.
  intros Hne e st. unfold deleteTenantToken. unfold mbind at 1, M_bind at 1.
  pose proof (token_of_request_reads id e st) as Hdb.
  destruct (token_of_request t id e st) as [[tok|x] st1] eqn:Hr; unfold same in Hdb; cbn [snd] in *;
    [|by rewrite Hdb].
  apply token_of_request_ok in Hr as (_ & r & Hid & Hs & Ht); [|done].
  unfold Delete, attempt, exec, stmt, stmt_rows, mbind, M_bind, mret, M_ret, write_error, fail.
  destruct (env_fault e (st_tick st1)); cbn [snd st_db]; rewrite Hdb; [reflexivity|by eapply delete_own].
Qed.

Lemma handleTenantTokens_own (clock : Time → Prop) e r ctx body : t ≠ "" → clock (env_go_now e) →
  changes_at e (token_step_ok clock t) (handleTenantTokens enforcement parse bytes r ctx body t).
Proof.
  intros Hne Hnow. pose proof (createTenantToken_own clock e body Hne Hnow) as Hcreate.
  pose proof (λ id, deleteTenantToken_own clock id Hne).
  pose proof (λ p, authorizeTenantPermission_reads enforcement (token_step_ok clock t) ctx t p).
  assert (∀ id, changes (token_step_ok clock t) (token_of_request t id)) as Hreq
    by (intros id; unfold token_of_request, GetByID; chg).
  unfold handleTenantTokens, listTenantTokens, getTenantTokenDetail, method_not_allowed. cbv zeta.
  destruct (_ =? 5)%nat; [|by apply changes_at_all; chg].
  destruct (_ =? "GET")%string; [by apply changes_at_all; chg|].
  destruct (_ =? "POST")%string; [|by apply changes_at_all; chg].
  apply (changes_at_bind e _ _ _ (λ _, True)); [by apply changes_at_all; eauto|done|intros _ _].
  apply (changes_at_bind e _ _ _ (λ _, True)); [done|done|intros ? _; apply changes_at_all; chg].
Qed.
End requests.

(** ** Any number of requests *)

Record token_request := mkTokenRequest {
  trq_env : Env;
  trq_bytes : result text;
  trq_request : Request;
  trq_context : Context;
  trq_body : option tokenBody;
}.
Definition run_token_requests (enforcement : string) (parse : string → result UUID) (t : UUID)
    (l : list token_request) (st : St) : St :=
  foldl (λ st q, (handleTenantTokens enforcement parse (trq_bytes q) (trq_request q) (trq_context q)
                    (trq_body q) t (trq_env q) st).2) st l.

Lemma run_token_requests_own (clock : Time → Prop) enforcement parse t l st :
  t ≠ "" → Forall (λ q, clock (env_go_now (trq_env q))) l →
  token_step_ok clock t (st_db st) (st_db (run_token_requests enforcement parse t l st)).
Proof.
  intros Hne Hl. revert st. induction Hl as [|q l Hq _ IH]; intros st; [reflexivity|]. cbn. etrans; [|apply IH].
  by apply handleTenantTokens_own.
Qed.

(** C13. Over any sequence of requests for the tokens of a tenant, by anybody and
    with any statement failing, the token of every other tenant stays as it is,
    token texts stay unique, and a token that is new belongs to the tenant, is
    unused and active, and was given between no time and a year from the clock of
    one of the requests on. *)
Theorem token_requests_stay_in_tenant enforcement parse t l st :
  t ≠ "" → tokens_wf (st_db st) →
  let st' := run_token_requests enforcement parse t l st in
  tokens_wf (st_db st') ∧
  (∀ id r, tk_tenant_id r ≠ Some t → tokens (st_db st) !! id = Some r ↔ tokens (st_db st') !! id = Some r) ∧
  (∀ id r, tokens (st_db st') !! id = Some r → tokens (st_db st) !! id = Some r ∨
     ∃ q, q ∈ l ∧ issued t (env_go_now (trq_env q)) r).
Proof.
  intros Hne Hwf. cbv zeta.
  pose proof (run_token_requests_own (λ now, ∃ q, q ∈ l ∧ now = env_go_now (trq_env q)) enforcement parse t l st
    Hne) as Hstep. destruct Hstep as [Hwf' [H1 H2]]; [apply Forall_forall; eauto|done|].
  split_and!; [done..|]. intros id r [?|(? & (q & ? & ->) & ?)]%H2; [by left|right; by exists q].
Qed.

(** A token that was issued enrols a device, whatever budget it was given, as long
    as its row is as it was issued. *)
Lemma issued_token_enrols parse bytes body t e st tok st' device e' st2 :
  t ≠ "" → tokens_wf (st_db st) → createTenantToken parse bytes body t e st = (Ok tok, st') →
  no_faults e' → tokens (st_db st2) = tokens (st_db st') →
  ∃ st3, ConsumeToken (tok_Token tok) device e' st2 = (Ok (), st3).
Proof.
  intros Hne Hwf H Hf Hst2.
  apply createTenantToken_ok in H as (b & ttl & row & _ & _ & Hid & Hnew & Hdb & Htok & Hi & _); [|done].
  assert (tokens_wf (st_db st')) as Hwf' by (rewrite Hdb; by eapply (insert_issued (λ _, True))).
  assert (tokens_wf (st_db st2)) as Hwf2 by (destruct Hwf' as [? ?]; unfold tokens_wf; by rewrite Hst2).
  assert (token_row (tok_Token tok) (st_db st2) = Some (tok_ID tok, row)) as Hrow.
  { assert (tokens (st_db st2) !! tok_ID tok = Some row) as Hl
      by (rewrite Hst2, Hdb; apply lookup_insert_eq).
    destruct (token_row (tok_Token tok) (st_db st2)) as [[k x]|] eqn:Hr.
    - apply token_row_Some in Hr as [Hk Hs]. destruct Hwf2 as [Hu _].
      assert (k = tok_ID tok) as -> by (eapply Hu; [done..|congruence]). congruence.
    - exfalso. by eapply token_row_None. }
  pose proof (IncrementUsage_run (tok_Token tok) device e' st2 (tok_ID tok) row Hf Hwf2 Hrow) as Hrun.
  destruct Hi as [_ Ha Hu Hb _]. rewrite Hu in Hrun. specialize (Hrun eq_refl).
  assert (usable (tok_Token tok) (tok_ID tok) row = true) as Hus.
  { apply usable_spec. rewrite Ha, Hu. split_and!; [done|done|]. lia. }
  rewrite Hus in Hrun. eexists. unfold ConsumeToken. erewrite bind_run by (apply attempt_run, Hrun). done.
Qed.

(** An operator of [t1] issues a token and asks to delete that of another tenant. *)
Definition token_pages_db : DB :=
  (TokensSpec.token_db (TokensSpec.sample_token 2 0))
    <| tenants := {["t1" := mkTenantRow "T" None None None (Some "active") None 0 0]} |>.
Definition token_requests : list token_request :=
  let admin := mkContext (Some "u1") (Some "root") (Some "super_admin") (Some "t1") in
  [mkTokenRequest (env_at 5) (Ok ["a"%char]) (mkRequest "POST" "/api/v2/tenants/t1/tokens" "" "") admin
     (Some (mkTokenBody " gate " (Some 3) "36h"));
   mkTokenRequest (env_at 6) (Ok []) (mkRequest "DELETE" "/api/v2/tenants/t1/tokens/id1" "" "") admin None].
Lemma token_requests_stay_in_tenant_witness :
  let st' := run_token_requests "" Ok "t1" token_requests (mkSt token_pages_db 0) in
  size (tokens (st_db st')) = 2%nat ∧ tokens_wf (st_db st') ∧
  tokens (st_db st') !! "id1" = Some (TokensSpec.sample_token 2 0).
Proof.
  intros st'.
  assert (tokens_wf token_pages_db) as Hwf by exact sample_token_wf.
  destruct (token_requests_stay_in_tenant "" Ok "t1" token_requests (mkSt token_pages_db 0)
    ltac:(discriminate) Hwf) as (Hwf' & Hother & _).
  split; [vm_compute; reflexivity|]. split; [exact Hwf'|].
  apply Hother; [discriminate|]. reflexivity.
Defined.
