(* ===== verification/Monitoring.v ===== *)
(** * Monitoring of a tenant

    [alerts.go], [audit_events.go] and [monitoring_queries.go] of
    [pkg/controllerstorage], and the pages of [internal/api/v2/monitoring.go] that
    read the database: counts and rates, the event feed, the list of alerts and
    their resolution by hand, and the mesh of the topology.  The identifier of an
    audit event is not modelled. *)

From Stdlib Require Import SpecFloat.
From S2P Require Import Prelude GoStr Records Store Events Tokens ControlState AgentCommands PolicySync Nodes Sessions Access Dispatch Durations.

Open Scope Z_scope.

(** ** Alerts *)

(** A row as it is read; a NULL message is empty. *)
Record AlertRecord := mkAlertRecord {
  alr_ID : UUID;
  alr_TenantID : UUID;
  alr_NodeID : option UUID;
  alr_AlertType : string;
  alr_Severity : string;
  alr_Title : string;
  alr_Message : string;
  alr_Context : object;
  alr_Status : string;
  alr_CreatedAt : Time;
  alr_ResolvedAt : option Time;
}.
Definition scanAlertRow (id : UUID) (r : AlertRow) : AlertRecord :=
  mkAlertRecord id (al_tenant_id r) (al_node_id r) (al_alert_type r) (al_severity r) (al_title r)
    (coalesce (al_message r)) (al_context r) (al_status r) (al_created_at r) (al_resolved_at r).

Record AlertFilter := mkAlertFilter {
  af_Status : string;
  af_AlertType : string;
  af_NodeID : option UUID;
  af_Limit : Z;
  af_Offset : Z;
}.

(** The limits of the listings: fifty unless asked, two hundred at most. *)
Definition page_limit (limit : Z) : Z :=
  let limit := if limit <=? 0 then 50 else limit in if 200 <? limit then 200 else limit.
Definition page_offset (offset : Z) : Z := if offset <? 0 then 0 else offset.
(** [LIMIT limit OFFSET offset]. *)
Definition page_of {A} (limit offset : Z) (l : list A) : list A :=
  take (Z.to_nat limit) (drop (Z.to_nat offset) l).
(** A condition on a column that is only there when the filter asks for it. *)
Definition asked (filter : string) (column : string) : bool :=
  (filter =? "")%string || (column =? filter)%string.
Definition asked_node (filter : option UUID) (column : option UUID) : bool :=
  match filter with None => true | Some n => bool_decide (column = Some n) end.

Definition alert_listed (tenantID : UUID) (f : AlertFilter) (_ : UUID) (r : AlertRow) : bool :=
  (al_tenant_id r =? tenantID)%string
  && ((af_Status f =? "all")%string || asked (af_Status f) (al_status r))
  && asked (af_AlertType f) (al_alert_type r) && asked_node (af_NodeID f) (al_node_id r).
(** [ORDER BY created_at DESC]. *)
Definition alert_newer (a b : UUID * AlertRow) : bool := al_created_at b.2 <? al_created_at a.2.
Definition alerts_where (p : UUID → AlertRow → bool) (db : DB) : list AlertRecord :=
  (λ kr, scanAlertRow kr.1 kr.2) <$> SliceStable alert_newer (select_where p (alerts db)).

Definition ListAlerts (tenantID : UUID) (f : AlertFilter) : M (list AlertRecord * Z) :=
  let p := alert_listed tenantID f in
  total ← wrap "failed to count alerts" (query (λ _ db, count_where p (alerts db)));
  rows ← wrap "failed to query alerts"
    (query (λ _ db, page_of (page_limit (af_Limit f)) (page_offset (af_Offset f)) (alerts_where p db)));
  mret (rows, total).

Definition ListRecentNodeAlerts (tenantID nodeID : UUID) (status : string) (limit : Z) : M (list AlertRecord) :=
  let limit := if limit <=? 0 then 10 else limit in
  let limit := if 200 <? limit then 200 else limit in
  let status := TrimSpace status in
  let status := if (status =? "")%string then "active" else status in
  wrap "failed to query recent node alerts" (query (λ _ db, page_of limit 0
    (alerts_where (λ _ r, (al_tenant_id r =? tenantID)%string && (al_status r =? status)%string
                          && bool_decide (al_node_id r = Some nodeID)) db))).

Definition CountActiveAlerts (tenantID : UUID) : M Z :=
  query (λ _ db, count_where (λ _ r, (al_tenant_id r =? tenantID)%string && (al_status r =? "active")%string)
                   (alerts db)).
Definition GetAlertByID (alertID : UUID) : M AlertRecord :=
  query_row (λ _ db, scanAlertRow alertID <$> alerts db !! alertID).

(** ** Audit events *)

Record AuditEventFilter := mkAuditEventFilter {
  aef_NodeID : option UUID;
  aef_EventType : string;
  aef_Since : option Time;
  aef_Limit : Z;
  aef_Offset : Z;
}.
Definition asked_since (since : option Time) (column : Time) : bool :=
  match since with None => true | Some t => t <=? column end.
Definition audit_listed (tenantID : UUID) (f : AuditEventFilter) (r : AuditRow) : bool :=
  (ae_tenant_id r =? tenantID)%string && asked_node (aef_NodeID f) (ae_node_id r)
  && asked (aef_EventType f) (ae_event_type r) && asked_since (aef_Since f) (ae_created_at r).
Definition audit_newer (a b : AuditRow) : bool := ae_created_at b <? ae_created_at a.
Definition audits_where (p : AuditRow → bool) (db : DB) : list AuditRow :=
  List.filter p (audit_events db).

Definition ListAuditEvents (tenantID : UUID) (f : AuditEventFilter) : M (list AuditRow * Z) :=
  let p := audit_listed tenantID f in
  total ← wrap "failed to count audit events" (query (λ _ db, Z.of_nat (length (audits_where p db))));
  rows ← wrap "failed to query audit events"
    (query (λ _ db, page_of (page_limit (aef_Limit f)) (page_offset (aef_Offset f))
                      (SliceStable audit_newer (audits_where p db))));
  mret (rows, total).

(** [DISTINCT ON (event_type) ... ORDER BY event_type, created_at DESC]. *)
Definition certificate_event_types : list string :=
  ["certificate_renewed"; "certificate_renew_failed"; AuditCertRevoked].
Definition latest_event (tenantID nodeID : UUID) (db : DB) (eventType : string) : option AuditRow :=
  head (SliceStable audit_newer (audits_where
    (λ r, (ae_tenant_id r =? tenantID)%string && bool_decide (ae_node_id r = Some nodeID)
          && (ae_event_type r =? eventType)%string) db)).
Definition GetLatestNodeCertificateActivity (tenantID nodeID : UUID) : M (gmap string AuditRow) :=
  query (λ _ db, list_to_map (omap (λ ty, (λ r, (ty, r)) <$> latest_event tenantID nodeID db ty)
                                certificate_event_types)).

(** ** The event feed *)

Record EventFeedFilter := mkEventFeedFilter {
  ff_NodeID : option UUID;
  ff_EventType : string;
  ff_Severity : string;
  ff_Since : option Time;
  ff_Limit : Z;
  ff_Offset : Z;
}.
Record EventFeedItem := mkEventFeedItem {
  fi_ID : option UUID;               (* of an alert *)
  fi_Source : string;
  fi_EventType : string;
  fi_Severity : string;
  fi_NodeID : string;
  fi_Title : string;
  fi_Detail : object;
  fi_CreatedAt : Time;
}.
Definition feed_alert (tenantID : UUID) (f : EventFeedFilter) (_ : UUID) (r : AlertRow) : bool :=
  (al_tenant_id r =? tenantID)%string && asked_node (ff_NodeID f) (al_node_id r)
  && asked (ff_EventType f) (al_alert_type r) && asked (ff_Severity f) (al_severity r)
  && asked_since (ff_Since f) (al_created_at r).
(** An audit event has no severity: a filter on it excludes them all. *)
Definition feed_audit (tenantID : UUID) (f : EventFeedFilter) (r : AuditRow) : bool :=
  (ae_tenant_id r =? tenantID)%string && asked_node (ff_NodeID f) (ae_node_id r)
  && asked (ff_EventType f) (ae_event_type r) && (ff_Severity f =? "")%string
  && asked_since (ff_Since f) (ae_created_at r).
Definition alert_item (kr : UUID * AlertRow) : EventFeedItem :=
  let r := kr.2 in
  mkEventFeedItem (Some kr.1) "alert" (al_alert_type r) (al_severity r) (default "" (al_node_id r))
    (al_title r) (al_context r) (al_created_at r).
Definition audit_item (r : AuditRow) : EventFeedItem :=
  mkEventFeedItem None "audit" (ae_event_type r) "" (default "" (ae_node_id r)) (ae_summary r)
    (ae_detail r) (ae_created_at r).
Definition item_newer (a b : EventFeedItem) : bool := fi_CreatedAt b <? fi_CreatedAt a.
(** The order in which the database meets the rows of one page's statement, given
    its LIMIT and OFFSET: PostgreSQL promises none, and the statement sorts by
    [created_at] alone, so rows of one time come as they were met. *)
Class TieOrder := {
  tie_order : Env → Z → Z → list EventFeedItem → list EventFeedItem;
  tie_order_rows e limit offset rows : tie_order e limit offset rows ≡ₚ rows;
}.
(** The rows of the UNION ALL, and these newest first. *)
Definition feed_rows (tenantID : UUID) (f : EventFeedFilter) (db : DB) : list EventFeedItem :=
  (alert_item <$> select_where (feed_alert tenantID f) (alerts db))
  ++ (audit_item <$> audits_where (feed_audit tenantID f) db).
Definition feed_items `{TieOrder} (e : Env) (tenantID : UUID) (f : EventFeedFilter) (db : DB) : list EventFeedItem :=
  SliceStable item_newer (tie_order e (page_limit (ff_Limit f)) (page_offset (ff_Offset f)) (feed_rows tenantID f db)).
Definition ListEventFeed `{TieOrder} (tenantID : UUID) (f : EventFeedFilter) : M (list EventFeedItem * Z) :=
  total ← wrap "failed to count event feed" (query (λ _ db,
    count_where (feed_alert tenantID f) (alerts db)
    + Z.of_nat (length (audits_where (feed_audit tenantID f) db))));
  items ← wrap "failed to query event feed" (query (λ e db,
    page_of (page_limit (ff_Limit f)) (page_offset (ff_Offset f)) (feed_items e tenantID f db)));
  mret (items, total).

(** ** Counts and rates *)

Definition offline_statuses : list string := ["deleted"; "suspended"; "banned"].
Definition barred_statuses : list string := ["suspended"; "banned"].
Definition node_status (r : NodeRow) : string := default "online" (n_status r).
(** [last_seen >= EXTRACT(EPOCH FROM NOW()) - 60]. *)
Definition seen_lately (now : Time) (r : NodeRow) : bool := now - 60 * 1000000 <=? n_last_seen r * 1000000.
Definition counted (tenantID : UUID) (_ : UUID) (r : NodeRow) : bool :=
  (n_tenant_id r =? tenantID)%string && negb (node_status r =? "deleted")%string.
Definition CountNodesByTenantAndStatus (tenantID : UUID) : M (Z * Z * Z) :=
  query (λ e db,
    let now := env_now e in
    let count p := count_where (λ id r, counted tenantID id r && p r) (nodes db) in
    (count (λ _, true),
     count (λ r, negb (one_of (node_status r) offline_statuses) && seen_lately now r),
     count (λ r, one_of (node_status r) barred_statuses || negb (seen_lately now r)))).

(** The control states of the nodes of a tenant. *)
Definition tenant_state (tenantID : UUID) (db : DB) (p : ControlRow → bool) (nodeID : UUID) (s : ControlRow) : bool :=
  match nodes db !! nodeID with
  | Some n => (n_tenant_id n =? tenantID)%string && p s
  | None => false
  end.
(** A NULL version is in neither count. *)
Definition has_desired (s : ControlRow) : bool :=
  match cs_desired_state_version s with Some v => negb (v =? "")%string | None => false end.
Definition in_sync (s : ControlRow) : bool :=
  has_desired s && bool_decide (cs_desired_state_version s = cs_applied_state_version s).
(** The rate is a 64-bit float: [float64(synced) * 100.0 / float64(totalDesired)]. *)
Definition percentage (part whole : Z) : spec_float :=
  float64_div (float64_mul (float64_of part) (float64_of 100)) (float64_of whole).
Definition CalcSyncSuccessRate (tenantID : UUID) : M spec_float :=
  '(synced, totalDesired) ← query (λ _ db,
    (count_where (tenant_state tenantID db in_sync) (node_control_states db),
     count_where (tenant_state tenantID db has_desired) (node_control_states db)));
  if totalDesired =? 0 then mret (float64_of 100) else mret (percentage synced totalDesired).

Definition CountACLRulesByTenant (tenantID : UUID) : M Z :=
  query (λ _ db, count_where (λ _ r, (ar_tenant_id r =? tenantID)%string) (acl_rules db)).
Definition CountQoSRulesByTenant (tenantID : UUID) : M Z :=
  query (λ _ db, count_where (λ _ r, (qr_tenant_id r =? tenantID)%string) (qos_rules db)).
(** The JOIN with the nodes pairs each failed command with the node of its key. *)
Definition failed_on (tenantID : UUID) (key : string) (db : DB) : Z :=
  count_where (λ _ n, (n_tenant_id n =? tenantID)%string && (n_public_key n =? key)%string) (nodes db).
Definition CountFailedCommandsByTenant (tenantID : UUID) : M Z :=
  query (λ _ db, foldr (λ kr acc, failed_on tenantID (ac_node_public_key kr.2) db + acc) 0
    (select_where (λ _ r, (ac_status r =? "failed")%string) (agent_commands db))).

(** [math.Round]: half away from zero. *)
Definition float64_round (x : spec_float) : spec_float :=
  match x with
  | S754_finite s m e =>
    if 0 <=? e then x else
    let v := Z.shiftr (Zpos m + Z.shiftl 1 (- e - 1)) (- e) in
    if v =? 0 then S754_zero s else float64_of (if s then - v else v)
  | _ => x
  end.
(** [math.Round(x*10) / 10]. *)
Definition one_decimal (x : spec_float) : spec_float :=
  float64_div (float64_round (float64_mul x (float64_of 10))) (float64_of 10).

(** ** Pages *)

(** A value of a query parameter, and its use where it is a number of its kind. *)
Abbreviation params := (string → string).
Definition query_number (raw : string) (ok : Z → bool) (fallback : Z) : Z :=
  if (raw =? "")%string then fallback else
  match Atoi raw with Some n => if ok n then n else fallback | None => fallback end.
Definition limit_param (q : params) : Z := Z.min 200 (query_number (q "limit") (Z.ltb 0) 50).
Definition offset_param (q : params) : Z := query_number (q "offset") (Z.leb 0) 0.

Definition bad_request {A} (message : string) : M A := write_error 400 "BAD_REQUEST" message.
Definition failed {A} (message : string) : M A := write_error 500 "INTERNAL_ERROR" message.
Definition or_failed {A} (message : string) (m : M A) : M A :=
  r ← attempt m; match r with Ok a => mret a | Err _ => failed message end.

Record MonitoringStats := mkMonitoringStats {
  ms_total_nodes : Z;
  ms_online_nodes : Z;
  ms_offline_nodes : Z;
  ms_sync_success_rate : spec_float;
  ms_total_peers : Z;
  ms_total_acl_rules : Z;
  ms_total_qos_rules : Z;
  ms_failed_commands_count : Z;
  ms_active_alerts_count : Z;
}.
Definition handleMonitoringStats (tenantID : UUID) : M MonitoringStats :=
  '(total, online, offline) ← or_failed "Failed to count nodes" (CountNodesByTenantAndStatus tenantID);
  syncRate ← or_failed "Failed to calculate sync rate" (CalcSyncSuccessRate tenantID);
  aclCount ← or_failed "Failed to count ACL rules" (CountACLRulesByTenant tenantID);
  qosCount ← or_failed "Failed to count QoS rules" (CountQoSRulesByTenant tenantID);
  failedCmds ← or_failed "Failed to count failed commands" (CountFailedCommandsByTenant tenantID);
  activeAlerts ← or_failed "Failed to count active alerts" (CountActiveAlerts tenantID);
  mret (mkMonitoringStats total online offline syncRate online aclCount qosCount failedCmds activeAlerts).

Record MonitoringHealth := mkMonitoringHealth {
  mh_node_online_rate : spec_float;
  mh_sync_success_rate : spec_float;
  mh_active_alerts_count : Z;
  mh_failed_commands_count : Z;
}.
Definition handleMonitoringHealth (tenantID : UUID) : M MonitoringHealth :=
  '(total, online, _) ← or_failed "Failed to count nodes" (CountNodesByTenantAndStatus tenantID);
  let nodeOnlineRate := if 0 <? total then percentage online total else float64_of 100 in
  syncRate ← or_failed "Failed to calculate sync rate" (CalcSyncSuccessRate tenantID);
  activeAlerts ← or_failed "Failed to count active alerts" (CountActiveAlerts tenantID);
  failedCmds ← or_failed "Failed to count failed commands" (CountFailedCommandsByTenant tenantID);
  mret (mkMonitoringHealth (one_decimal nodeOnlineRate) (one_decimal syncRate) activeAlerts failedCmds).

(** A page of a listing. *)
Record Page (A : Type) := mkPage {
  pg_items : list A;
  pg_total : Z;
  pg_limit : Z;
  pg_offset : Z;
}.
Arguments mkPage {A} _ _ _ _.
Arguments pg_items {A} _.
Arguments pg_total {A} _.
Arguments pg_limit {A} _.
Arguments pg_offset {A} _.

Section pages.
(** [uuid.Parse], and [time.Parse] with the layout RFC 3339. *)
Context (uuid_Parse : string → option UUID) (time_Parse : string → option Time).

(** An optional parameter that has to parse. *)
Definition parsed_param {A} (parse : string → option A) (message raw : string) : M (option A) :=
  if (raw =? "")%string then mret None else
  match parse raw with Some a => mret (Some a) | None => bad_request message end.
Definition node_param (q : params) : M (option UUID) :=
  parsed_param uuid_Parse "Invalid node_id format" (q "node_id").

Definition handleMonitoringEvents `{TieOrder} (q : params) (tenantID : UUID) : M (Page EventFeedItem) :=
  let limit := limit_param q in
  let offset := offset_param q in
  nodeID ← node_param q;
  since ← parsed_param time_Parse "Invalid since format, use ISO 8601" (q "since");
  '(items, total) ← or_failed "Failed to query events" (ListEventFeed tenantID
     (mkEventFeedFilter nodeID (q "event_type") (q "severity") since limit offset));
  mret (mkPage items total limit offset).

Definition handleMonitoringAlerts (q : params) (tenantID : UUID) : M (Page AlertRecord) :=
  let status := if (q "status" =? "")%string then "active" else q "status" in
  let limit := limit_param q in
  let offset := offset_param q in
  nodeID ← node_param q;
  '(alerts, total) ← or_failed "Failed to query alerts" (ListAlerts tenantID
     (mkAlertFilter status (q "alert_type") nodeID limit offset));
  mret (mkPage alerts total limit offset).

(** The body of a resolution; [None] is one that does not decode. *)
Record resolveBody := mkResolveBody {
  rb_Reason : string;
  rb_Source : string;
  rb_CommandID : string;
}.
Definition with_text (key value : string) (detail : object) : object :=
  if negb (TrimSpace value =? "")%string then <[key := JString (TrimSpace value)]> detail else detail.
Definition alertResolveAuditDetail (alert : AlertRecord) (reason source commandID : string) : object :=
  with_text "command_id" commandID (with_text "source" source (with_text "reason" reason
    (<["alert_type" := JString (alr_AlertType alert)]> {["alert_id" := JString (alr_ID alert)]}))).

Definition alert_not_found {A} : M A := write_error 404 "ALERT_NOT_FOUND" "Alert not found".
Definition alert_of_request (tenantID alertID : UUID) : M AlertRecord :=
  r ← attempt (GetAlertByID alertID);
  match r with
  | Err ErrNoRows => alert_not_found
  | Err _ => failed "Failed to get alert"
  | Ok existing =>
    if negb (alr_TenantID existing =? tenantID)%string then alert_not_found else
    if (alr_Status existing =? "resolved")%string
    then write_error 400 "ALERT_ALREADY_RESOLVED" "Alert is already resolved" else mret existing
  end.
Definition handleMonitoringAlertResolve (body : option resolveBody) (tenantID : UUID) (alertID : string)
    : M AlertRecord :=
  match uuid_Parse alertID with
  | None => bad_request "Invalid alert_id format"
  | Some alertUUID =>
    match body with
    | None => bad_request "Invalid request body"
    | Some body =>
      existing ← alert_of_request tenantID alertUUID;
      resolved ← or_failed "Failed to resolve alert" (ResolveAlert alertUUID);
      _ ← best_effort (CreateAuditEvent (mkAuditEvent tenantID (alr_NodeID existing) "alert_resolved" "user"
            ("Alert resolved: " +:+ alr_Title existing)
            (alertResolveAuditDetail existing (rb_Reason body) (rb_Source body) (rb_CommandID body))));
      mret (scanAlertRow alertUUID resolved)
    end
  end.
End pages.

(** ** Topology *)

Definition maxMonitoringTopologyNodes : Z := 200.
Definition maxGeneratedTopologyLinks : Z := 256.
Definition monitoringRuntimeEligibleNode (node : Node) : bool :=
  negb (one_of (ToLower (TrimSpace (N_Status node))) no_policy_statuses).
Definition filterMonitoringRuntimeEligibleNodes (nodes : list Node) : list Node :=
  List.filter monitoringRuntimeEligibleNode nodes.

Record TopologyNode := mkTopologyNode {
  tn_id : UUID;
  tn_hostname : string;
  tn_region : string;
  tn_status : string;
  tn_assigned_ip : string;
}.
Record TopologyLink := mkTopologyLink {
  tl_source : UUID;
  tl_target : UUID;
  tl_status : string;
  tl_traffic : spec_float;
}.
Definition topology_node (now : Time) (n : Node) : TopologyNode :=
  mkTopologyNode (N_ID n) (N_Hostname n) (N_Region n) (nodeAvailabilityStatus now n) (N_AssignedIP n).
Section links.
(** What flows between two nodes, and the time. *)
Context (traffic : Node → Node → spec_float) (now : Time).
Definition topology_link (a b : Node) : TopologyLink :=
  mkTopologyLink (N_ID a) (N_ID b)
    (if (nodeAvailabilityStatus now a =? "online")%string && (nodeAvailabilityStatus now b =? "online")%string
     then "active" else "inactive") (traffic a b).
(** The loop over [j]: it stops when there are enough links. *)
Fixpoint links_from (a : Node) (rest : list Node) (links : list TopologyLink) : list TopologyLink * bool :=
  match rest with
  | [] => (links, false)
  | b :: rest =>
    if maxGeneratedTopologyLinks <=? Z.of_nat (length links) then (links, true)
    else links_from a rest (links ++ [topology_link a b])
  end.
(** The loop over [i]. *)
Fixpoint topology_links (nodes : list Node) (links : list TopologyLink) : list TopologyLink * bool :=
  match nodes with
  | [] => (links, false)
  | a :: rest =>
    let '(links, truncated) := links_from a rest links in
    if truncated then (links, true) else topology_links rest links
  end.
End links.
