(* ===== verification/MonitoringSpec.v ===== *)
(** * What the monitoring pages promise

    The event feed is complete, the counts of nodes add up, the topology has the
    first links of the mesh, and an alert that was resolved by hand stays part of
    the history of its tenant. *)

From S2P Require Import Prelude GoStr Records Store Events Tokens ControlState AgentCommands PolicySync Nodes Sessions Access Dispatch Monitoring.

Open Scope Z_scope.

Lemma or_failed_run {A} msg (m : M A) e st a st' :
  m e st = (Ok a, st') → or_failed msg m e st = (Ok a, st').
Proof. intros H. unfold or_failed. by erewrite bind_run by (apply attempt_run, H). Qed.
Lemma or_failed_ok {A} msg (m : M A) e st a st' :
  or_failed msg m e st = (Ok a, st') → m e st = (Ok a, st').
Proof.
  unfold or_failed, attempt, mbind, M_bind, failed, write_error, fail, mret, M_ret.
  by destruct (m e st) as [[b|x] st1]; intros [= <- <-].
Qed.

Lemma Sorted_weaken {A} (R R' : A → A → Prop) l : (∀ a b, R a b → R' a b) → Sorted R l → Sorted R' l.
Proof.
  intros H. induction 1 as [|a l _ IH Hhd]; constructor; [done|].
  destruct Hhd as [|b l Hab]; constructor. by apply H.
Qed.

(** ** The event feed, page by page *)

Section feed.
Context {ties : TieOrder} (uuid_Parse : string → option UUID) (time_Parse : string → option Time).
Context (q : params) (t : UUID).

(** The request for the page that starts at an offset. *)
Definition at_offset (offset : Z) : params := λ k, if (k =? "offset")%string then Itoa offset else q k.
(** The client goes on from the end of each page until it has the total. *)
Fixpoint follow_feed (fuel : nat) (offset : Z) : M (list EventFeedItem) :=
  match fuel with
  | O => fail (ErrorString "out of fuel")
  | S fuel =>
    page ← handleMonitoringEvents uuid_Parse time_Parse (at_offset offset) t;
    let next := pg_offset page + Z.of_nat (length (pg_items page)) in
    if next <? pg_total page then
      rest ← follow_feed fuel next; mret (pg_items page ++ rest)
    else mret (pg_items page)
  end.

(** The filter of the request, when its parameters parse. *)
Definition request_filter (node : option UUID) (since : option Time) (limit offset : Z) : EventFeedFilter :=
  mkEventFeedFilter node (q "event_type") (q "severity") since limit offset.
Definition parses {A} (parse : string → option A) (raw : string) (o : option A) : Prop :=
  if (raw =? "")%string then o = None else parse raw = o ∧ is_Some o.

Lemma parsed_param_run {A} (parse : string → option A) msg raw o e st :
  parses parse raw o → parsed_param parse msg raw e st = (Ok o, st).
Proof.
  unfold parses, parsed_param. destruct (raw =? "")%string; [by intros ->|].
  intros [-> [a ->]]. done.
Qed.
Lemma limit_param_range : 1 ≤ limit_param q ≤ 200.
Proof.
  unfold limit_param, query_number. destruct (_ =? "")%string; [lia|]. destruct (Atoi _) as [n|]; [|lia].
  destruct (0 <? n) eqn:Hn; lia.
Qed.
Lemma offset_param_at o : 0 ≤ o < 2 ^ 63 → offset_param (at_offset o) = o.
Proof.
  intros Hr. unfold offset_param, at_offset, query_number. cbv beta.
  change ("offset" =? "offset")%string with true. cbv iota.
  assert (Itoa o ≠ "") as Hne.
  { intros H. pose proof (Atoi_Itoa o Hr) as Ha. rewrite H in Ha. discriminate. }
  rewrite (proj2 (String.eqb_neq _ _) Hne), (Atoi_Itoa o Hr). by rewrite (proj2 (Z.leb_le _ _) (proj1 Hr)).
Qed.

Lemma feed_items_perm e f db : feed_items e t f db ≡ₚ feed_rows t f db.
Proof. unfold feed_items. by rewrite SliceStable_Permutation, tie_order_rows. Qed.
Lemma feed_length f db :
  Z.of_nat (length (feed_rows t f db)) =
  count_where (feed_alert t f) (alerts db) + Z.of_nat (length (audits_where (feed_audit t f) db)).
Proof. unfold feed_rows. rewrite length_app, !length_fmap. unfold count_where. lia. Qed.
(** The times of the events, newest first, are the same in every order of ties. *)
Lemma feed_items_sorted e f db : Sorted (λ a b, fi_CreatedAt b ≤ fi_CreatedAt a) (feed_items e t f db).
Proof.
  apply (Sorted_weaken (in_order item_newer)).
  - intros a b Hab. unfold in_order, item_newer in Hab. by apply Z.ltb_ge in Hab.
  - apply SliceStable_Sorted. unfold item_newer. intros a b Hab. lia.
Qed.
Lemma newest_first_unique (l l' : list Z) : StronglySorted Z.ge l → StronglySorted Z.ge l' → l ≡ₚ l' → l = l'.
Proof. intros Hl Hl' Hp. apply (StronglySorted_unique_strong Z.ge); [intros; lia|done..]. Qed.
Lemma item_times_sorted l : Sorted (λ a b, fi_CreatedAt b ≤ fi_CreatedAt a) l → StronglySorted Z.ge (fi_CreatedAt <$> l).
Proof.
  intros Hs. apply Sorted_StronglySorted; [intros a b c; lia|].
  induction Hs as [|a l _ IH Hhd]; cbn; constructor; [done|]. destruct Hhd; cbn; constructor; lia.
Qed.
Lemma feed_times e e' f f' db : feed_rows t f db = feed_rows t f' db →
  fi_CreatedAt <$> feed_items e t f db = fi_CreatedAt <$> feed_items e' t f' db.
Proof.
  intros Hf. apply newest_first_unique; [apply item_times_sorted, feed_items_sorted..|].
  by rewrite !feed_items_perm, Hf.
Qed.

Lemma severity_leaves_alerts f db i : ff_Severity f ≠ "" → i ∈ feed_rows t f db →
  fi_Source i = "alert" ∧ fi_Severity i = ff_Severity f.
Proof.
  intros Hsev%String.eqb_neq. unfold feed_rows. intros [Hi|Hi]%elem_of_app; apply list_elem_of_fmap in Hi as (r & -> & Hr).
  - destruct r as [k r]. apply select_where_elem in Hr as [_ Hr]. unfold feed_alert in Hr. cbn in *.
    rewrite !andb_true_iff in Hr. destruct Hr as [[_ Hr] _]. unfold asked in Hr.
    rewrite Hsev in Hr. by apply String.eqb_eq in Hr.
  - apply list_elem_of_In, filter_In in Hr as [_ Hr]. unfold feed_audit in Hr. rewrite Hsev in Hr.
    by rewrite andb_false_r in Hr.
Qed.
Lemma item_times_sorted_inv l : StronglySorted Z.ge (fi_CreatedAt <$> l) → Sorted (λ a b, fi_CreatedAt b ≤ fi_CreatedAt a) l.
Proof.
  induction l as [|a l IH]; cbn; intros Hs; [constructor|]. apply StronglySorted_inv in Hs as [Hs Ha].
  constructor; [by apply IH|]. destruct l as [|b l]; constructor. cbn in Ha. apply Forall_cons in Ha as [? _]. lia.
Qed.
(** A list of elements of another as long as it, with distinct images, is that list. *)
Lemma distinct_image {A B} (g : A → B) (l l' : list A) :
  NoDup (g <$> l) → Forall (λ x, x ∈ l') l → length l = length l' → l ≡ₚ l'.
Proof.
  intros Hnd%NoDup_fmap_1 Hall Hlen. apply submseteq_length_Permutation; [|lia].
  apply NoDup_submseteq; [done|]. by rewrite Forall_forall in Hall.
Qed.

Context (node : option UUID) (since : option Time).
Context (Hnode : parses uuid_Parse (q "node_id") node) (Hsince : parses time_Parse (q "since") since).

Lemma events_page offset e st :
  no_faults e → 0 ≤ offset < 2 ^ 63 →
  let f := request_filter node since (limit_param q) offset in
  let items := feed_items e t f (st_db st) in
  ∃ st', handleMonitoringEvents uuid_Parse time_Parse (at_offset offset) t e st =
      (Ok (mkPage (page_of (limit_param q) offset items) (Z.of_nat (length (feed_rows t f (st_db st))))
             (limit_param q) offset), st') ∧
    st_db st' = st_db st.
Proof.
  intros Hf Hr f items. unfold handleMonitoringEvents. rewrite (offset_param_at offset Hr).
  change (limit_param (at_offset offset)) with (limit_param q).
  unfold node_param.
  erewrite bind_run by (apply parsed_param_run; exact Hnode).
  erewrite bind_run by (apply parsed_param_run; exact Hsince).
  pose proof limit_param_range as Hl. eexists. split.
  - erewrite bind_run.
    2:{ apply or_failed_run. unfold ListEventFeed. cbv zeta.
        erewrite bind_run by (apply wrap_run, query_run; done).
        erewrite bind_run by (apply wrap_run, query_run; done). reflexivity. }
    cbn [st_db st_tick ff_Limit ff_Offset]. cbv beta iota.
    assert (page_limit (limit_param q) = limit_param q) as Hlim.
    { unfold page_limit. rewrite (proj2 (Z.leb_gt _ _)) by lia. by rewrite (proj2 (Z.ltb_ge _ _)) by lia. }
    assert (page_offset offset = offset) as Hoff
      by (unfold page_offset; by rewrite (proj2 (Z.ltb_ge offset 0)) by lia).
    rewrite Hlim, Hoff, <- feed_length. reflexivity.
  - done.
Qed.

(** Limit and offset are no conditions of the feed. *)
Lemma feed_rows_page l l' o o' db :
  feed_rows t (request_filter node since l o) db = feed_rows t (request_filter node since l' o') db.
Proof. done. Qed.

(** What the pages from an offset on give: events of the feed, with the times that
    follow. *)
Lemma follow_feed_from fuel offset e st :
  no_faults e → 0 ≤ offset →
  let f := request_filter node since 0 0 in
  let found := feed_rows t f (st_db st) in
  Z.of_nat (length found) < 2 ^ 62 → offset ≤ Z.of_nat (length found) →
  (length found - Z.to_nat offset < fuel)%nat →
  ∃ items st', follow_feed fuel offset e st = (Ok items, st') ∧ st_db st' = st_db st ∧
    Forall (λ i, i ∈ found) items ∧
    fi_CreatedAt <$> items = drop (Z.to_nat offset) (fi_CreatedAt <$> feed_items e t f (st_db st)).
Proof.
  intros Hf. revert offset st. induction fuel as [|fuel IH]; intros offset st Ho f found Hsmall Hle Hfuel; [lia|].
  pose proof limit_param_range as Hl. cbn [follow_feed].
  destruct (events_page offset e st Hf) as (st1 & Hpage & Hdb); [lia|].
  rewrite (feed_rows_page _ 0 _ 0) in Hpage. fold f found in Hpage.
  erewrite bind_run by exact Hpage. cbn [pg_items pg_total pg_offset]. clear Hpage.
  set (page := feed_items e t (request_filter node since (limit_param q) offset) (st_db st)).
  assert (page ≡ₚ found) as Hperm by apply feed_items_perm.
  assert (fi_CreatedAt <$> page = fi_CreatedAt <$> feed_items e t f (st_db st)) as Htimes by by apply feed_times.
  rewrite <- Htimes, <- fmap_drop. clearbody page.
  assert (Forall (λ i, i ∈ found) (page_of (limit_param q) offset page)) as Hin.
  { apply Forall_forall. intros i Hi. rewrite <- Hperm. unfold page_of in Hi.
    by eapply subseteq_drop, subseteq_take. }
  unfold page_of in *. rewrite length_take, length_drop, (Permutation_length Hperm).
  destruct (Z.ltb_spec (offset + Z.of_nat (Z.to_nat (limit_param q) `min` (length found - Z.to_nat offset)))
    (Z.of_nat (length found))) as [Hlt|Hge].
  - replace (offset + Z.of_nat (Z.to_nat (limit_param q) `min` (length found - Z.to_nat offset)))
      with (offset + limit_param q) in * by lia.
    destruct (IH (offset + limit_param q) st1) as (rest & st2 & Hrest & Hdb2 & Hall & Hrt); rewrite ?Hdb; fold f found; try lia.
    erewrite bind_run by exact Hrest. eexists _, st2. split; [reflexivity|]. split; [congruence|].
    rewrite Hdb in Hall, Hrt. fold f found in Hall. split; [by apply Forall_app|].
    rewrite fmap_app, Hrt. fold f. rewrite <- Htimes, <- fmap_drop, <- fmap_app. f_equal.
    replace (Z.to_nat (offset + limit_param q)) with (Z.to_nat offset + Z.to_nat (limit_param q))%nat by lia.
    rewrite <- drop_drop. apply take_drop.
  - eexists _, st1. split; [reflexivity|]. split; [done|]. split; [done|]. f_equal. apply take_ge.
    rewrite length_drop, (Permutation_length Hperm). lia.
Qed.

(** C26. The event feed, read page by page with any limit and any filters, and in
    whatever order the database gives events of one time: the client stops after at
    most one request more than there are events, nothing has changed, and it has
    received as many events as the tenant has that the filters ask for, each one of
    these, with exactly their times, newest first.  When no two of them have the
    same time these are the events, each once.  A filter on the severity leaves no
    audit events. *)
Theorem event_feed_complete fuel e st :
  no_faults e →
  let f := request_filter node since 0 0 in
  let found := (alert_item <$> select_where (feed_alert t f) (alerts (st_db st)))
               ++ (audit_item <$> List.filter (feed_audit t f) (audit_events (st_db st))) in
  Z.of_nat (length found) < 2 ^ 62 → (length found < fuel)%nat →
  ∃ items st', follow_feed fuel 0 e st = (Ok items, st') ∧ st_db st' = st_db st ∧
    Forall (λ i, i ∈ found) items ∧ fi_CreatedAt <$> items ≡ₚ fi_CreatedAt <$> found ∧
    Sorted (λ a b, fi_CreatedAt b ≤ fi_CreatedAt a) items ∧
    (NoDup (fi_CreatedAt <$> found) → items ≡ₚ found) ∧
    (q "severity" ≠ "" → Forall (λ i, fi_Source i = "alert" ∧ fi_Severity i = q "severity") items).
Proof.
  intros Hf f found Hsmall Hfuel. change found with (feed_rows t f (st_db st)) in *. clear found.
  destruct (follow_feed_from fuel 0 e st Hf) as (items & st' & Hrun & Hdb & Hall & Ht); fold f; try lia.
  fold f in Hall, Ht. rewrite drop_0 in Ht.
  assert (fi_CreatedAt <$> items ≡ₚ fi_CreatedAt <$> feed_rows t f (st_db st)) as Htp
    by (by rewrite Ht, feed_items_perm).
  exists items, st'. split_and!; [exact Hrun|done|done|done| | |].
  - apply item_times_sorted_inv. rewrite Ht. apply item_times_sorted, feed_items_sorted.
  - intros Hnd. apply (distinct_image fi_CreatedAt); [by rewrite Htp|done|].
    apply (f_equal (length (A:=Z))) in Ht. apply Permutation_length in Htp. by rewrite !length_fmap in Htp.
  - intros Hsev. eapply Forall_impl; [exact Hall|]. intros i Hi. by apply (severity_leaves_alerts f (st_db st)).
Qed.
End feed.

(** The database that gives the rows of one time in one order. *)
Definition rows_in_order : TieOrder := {|
  tie_order _ _ _ rows := rows;
  tie_order_rows _ _ _ rows := reflexivity rows;
|}.
(** Two alerts and an audit event of [t1], read in pages of two. *)
Definition feed_db : DB :=
  let alert ty at_ := mkAlertRow "t1" None ty "warning" "title" None ∅ "active" at_ None in
  empty_db <| alerts := <["a1" := alert "sync_failed" 5]> {["a2" := alert "node_offline" 7]} |>
    <| audit_events := [mkAuditRow "t1" None "node_online" "system" "s" ∅ 6;
                        mkAuditRow "t2" None "node_online" "system" "s" ∅ 6] |>.
Lemma event_feed_complete_witness :
  let q := λ k, if (k =? "limit")%string then "2" else "" in
  ∃ items st', @follow_feed rows_in_order (λ _, None) (λ _, None) q "t1" 4 0 (env_at 9) (mkSt feed_db 0) = (Ok items, st') ∧
    fi_EventType <$> items = ["node_offline"; "node_online"; "sync_failed"].
Proof.
  intros q.
  assert (no_faults (env_at 9)) as Hf by (intros n; reflexivity).
  destruct (@event_feed_complete rows_in_order (λ _, None) (λ _, None) q "t1" None None eq_refl eq_refl 4 (env_at 9)
    (mkSt feed_db 0) Hf) as (items & st' & Hrun & _ & _ & _); [vm_compute; reflexivity|vm_compute; lia|].
  assert (fi_EventType <$> match (@follow_feed rows_in_order (λ _, None) (λ _, None) q "t1" 4 0 (env_at 9) (mkSt feed_db 0)).1 with
            Ok l => l | Err _ => [] end = ["node_offline"; "node_online"; "sync_failed"]) as Hitems
    by (vm_compute; reflexivity).
  rewrite Hrun in Hitems. exists items, st'. exact (conj Hrun Hitems).
Defined.

(** With two events of one time a client can be shown one of them twice and never the
    other: here the database meets the rows of the second page in the other order. *)
Definition rows_turned : TieOrder.
Proof.
  refine {| tie_order _ _ offset rows := if offset =? 0 then rows else rev rows |}.
  abstract (intros e limit offset rows; destruct (offset =? 0); [reflexivity|symmetry; apply Permutation_rev]).
Defined.
Example tied_events_skipped :
  let audit summary := mkAuditRow "t1" None "policy_changed" "system" summary ∅ 6 in
  let st := mkSt (empty_db <| audit_events := [audit "one"; audit "two"] |>) 0 in
  let q := λ k, if (k =? "limit")%string then "1" else "" in
  match (@follow_feed rows_turned (λ _, None) (λ _, None) q "t1" 3 0 (env_at 9) st).1 with
  | Ok items => fi_Title <$> items | Err _ => [] end = ["one"; "one"].
Proof. vm_compute. reflexivity. Qed.

(** ** Counts *)

Lemma count_where_split {R} (p q r : UUID → R → bool) m :
  (∀ k x, p k x = q k x || r k x) → (∀ k x, q k x && r k x = false) →
  count_where p m = count_where q m + count_where r m.
Proof.
  intros Hp Hd. unfold count_where, select_where. rewrite <- Nat2Z.inj_add. f_equal.
  induction (map_to_list m) as [|[k x] l IH]; [done|]. rewrite !filter_cons. cbn [fst snd].
  specialize (Hp k x). specialize (Hd k x).
  destruct (p k x), (q k x), (r k x); try done; cbn in *;
    repeat (case_decide || case_guard); try done; cbn; lia.
Qed.

(** Every node of a tenant that is not deleted counts as online or as offline, and
    none as both. *)
Lemma monitoring_counts_add_up tenantID e st total online offline st' :
  CountNodesByTenantAndStatus tenantID e st = (Ok (total, online, offline), st') → total = online + offline.
Proof.
  intros [[= -> -> ->] _]%query_ok. apply count_where_split; intros k r; destruct (counted tenantID k r) eqn:Hc; try done;
    cbn; unfold counted in Hc; apply andb_true_iff in Hc as [_ Hc%negb_true_iff];
    unfold offline_statuses, barred_statuses, one_of in *; cbn;
    destruct (node_status r =? "deleted")%string eqn:?; try done;
    destruct (node_status r =? "suspended")%string, (node_status r =? "banned")%string, (seen_lately (env_now e) r);
    try done; cbn; try done.
Qed.

(** ** The topology *)

(** The pairs of the mesh, in the order of the loops. *)
Fixpoint pairs {A} (l : list A) : list (A * A) :=
  match l with
  | [] => []
  | a :: rest => (pair a <$> rest) ++ pairs rest
  end.

Definition first_links (all : list TopologyLink) : list TopologyLink * bool :=
  (take (Z.to_nat maxGeneratedTopologyLinks) all, maxGeneratedTopologyLinks <? Z.of_nat (length all)).
Lemma first_links_all all : Z.of_nat (length all) ≤ maxGeneratedTopologyLinks → first_links all = (all, false).
Proof. intros Hl. unfold first_links. rewrite take_ge by lia. by rewrite (proj2 (Z.ltb_ge _ _)). Qed.
Lemma first_links_more all l : maxGeneratedTopologyLinks ≤ Z.of_nat (length all) → l ≠ [] →
  first_links (all ++ l) = (take (Z.to_nat maxGeneratedTopologyLinks) all, true).
Proof.
  intros Hl Hne. unfold first_links. rewrite take_app_le by lia. f_equal. apply Z.ltb_lt.
  rewrite length_app. destruct l; [done|]. cbn [length]. lia.
Qed.

Section links.
Context (traffic : Node → Node → spec_float) (now : Time).
Lemma links_from_take a rest links : Z.of_nat (length links) ≤ maxGeneratedTopologyLinks →
  links_from traffic now a rest links = first_links (links ++ (topology_link traffic now a <$> rest)).
Proof.
  revert links. induction rest as [|b rest IH]; intros links Hlen.
  - rewrite fmap_nil, app_nil_r. by rewrite first_links_all.
  - cbn [links_from]. destruct (Z.leb_spec maxGeneratedTopologyLinks (Z.of_nat (length links))) as [Hge|Hlt].
    + rewrite first_links_more by done. by rewrite take_ge by lia.
    + rewrite IH by (rewrite length_app; cbn [length]; lia). by rewrite <- app_assoc.
Qed.
Lemma topology_links_take nodes links : Z.of_nat (length links) ≤ maxGeneratedTopologyLinks →
  topology_links traffic now nodes links = first_links (links ++ ((λ ab, topology_link traffic now ab.1 ab.2) <$> pairs nodes)).
Proof.
  revert links. induction nodes as [|a rest IH]; intros links Hlen.
  - cbn [pairs]. rewrite fmap_nil, app_nil_r. by rewrite first_links_all.
  - cbn [topology_links pairs]. rewrite links_from_take by done.
    rewrite fmap_app, <- list_fmap_compose, app_assoc.
    change (compose _ (pair a)) with (topology_link traffic now a).
    set (now_links := links ++ _).
    destruct (Z.leb_spec (Z.of_nat (length now_links)) maxGeneratedTopologyLinks) as [Hle|Hgt].
    + rewrite first_links_all by done. by apply IH.
    + unfold first_links at 1. rewrite (proj2 (Z.ltb_lt _ _)) by lia.
      unfold first_links. rewrite take_app_le, length_app by lia. by rewrite (proj2 (Z.ltb_lt _ _)) by lia.
Qed.
End links.

(** ** Resolving an alert *)

(** A resolution by hand that succeeds closes an active alert of the tenant and
    touches no other alert; one that is refused or fails changes no alert. *)
Lemma alert_resolved_by_hand uuid_Parse body tenantID alertID e st r st' :
  handleMonitoringAlertResolve uuid_Parse body tenantID alertID e st = (r, st') →
  match r with
  | Ok a => ∃ id row, uuid_Parse alertID = Some id ∧ alerts (st_db st) !! id = Some row ∧
      al_tenant_id row = tenantID ∧ al_status row = "active" ∧ alr_ID a = id ∧
      alerts (st_db st') = <[id := row <| al_status := "resolved" |>
                                       <| al_resolved_at := Some (env_now e) |>]> (alerts (st_db st))
  | Err _ => st_db st' = st_db st
  end.
Proof.
  unfold handleMonitoringAlertResolve. destruct (uuid_Parse alertID) as [id|]; [|by intros [= <- <-]].
  destruct body as [body|]; [|by intros [= <- <-]]. unfold alert_of_request, GetAlertByID, query_row, ResolveAlert,
    or_failed, alert_not_found, failed, write_error, attempt, stmt, stmt_rows, fail, mbind, M_bind, mret, M_ret.
  destruct (env_fault e (st_tick st)); [by intros [= <- <-]|].
  destruct (alerts (st_db st) !! id) as [row|] eqn:Hid; cbn [fmap option_fmap option_map alr_TenantID alr_Status scanAlertRow];
    [|by intros [= <- <-]].
  destruct (al_tenant_id row =? tenantID)%string eqn:Ht; cbn [negb]; [|by intros [= <- <-]].
  destruct (al_status row =? "resolved")%string eqn:Hs; [by intros [= <- <-]|]. cbn [st_db st_tick].
  destruct (env_fault e (S (st_tick st))); [by intros [= <- <-]|]. rewrite Hid.
  destruct (al_status row =? "active")%string eqn:Ha; [|by intros [= <- <-]]. bools.
  match goal with |- context [best_effort (CreateAuditEvent ?ev) e ?s] =>
    pose proof (CreateAuditEvent_alerts ev e s) as Hal; set (ev0 := ev) in *; set (s0 := s) in * end.
  unfold best_effort at 1, attempt, mbind at 1, M_bind, mret, M_ret.
  destruct (CreateAuditEvent ev0 e s0) as [x st1]; cbn [snd] in Hal. intros [= <- <-].
  exists id, row. rewrite Hal. done.
Qed.
