(* ===== verification/MetricsServer.v ===== *)
(** * The metrics server

    The pages of [internal/api/v2/monitoring.go] that ask VictoriaMetrics through
    [pkg/victoriametrics]: the traffic of a tenant, the metrics of a node and the
    traffic on the links of the topology.  The server is a parameter, any function of
    the query and its range; so is [strconv.ParseFloat], whose error the pages drop. *)

From Stdlib Require Import SpecFloat.
From S2P Require Import Prelude GoStr Records Store Nodes Sessions Access Dispatch Durations Monitoring.

Open Scope Z_scope.

(** ** Queries *)

Definition escape_each (f : ascii → text) (s : string) : string :=
  String.string_of_list_ascii (String.list_ascii_of_string s ≫= f).
(** [strings.ReplaceAll] of one character. *)
Definition replace_char (c : ascii) (new : text) : string → string :=
  escape_each (λ d, if bool_decide (d = c) then new else [d]).
Definition backslash : ascii := "092"%char.
Definition quote_mark : ascii := "034"%char.
Definition newline : ascii := "010"%char.
Definition promQLRegexString (pattern : string) : string :=
  replace_char newline [backslash; "n"%char]
    (replace_char quote_mark [backslash; quote_mark] (replace_char backslash [backslash; backslash] pattern)).

(** [regexp.QuoteMeta]. *)
Definition is_meta (c : ascii) : bool :=
  bool_decide (c ∈ backslash :: String.list_ascii_of_string ".+*?()|[]{}^$").
Definition QuoteMeta : string → string := escape_each (λ c, if is_meta c then [backslash; c] else [c]).

Definition promQLInstanceRegex (host : string) : string :=
  let host := TrimSpace host in
  if (host =? "")%string then "" else promQLRegexString (QuoteMeta host +:+ ":.*").
(** The hosts in the order of the nodes, each once. *)
Fixpoint first_occurrences (seen : list string) (l : list string) : list string :=
  match l with
  | [] => []
  | x :: l' => if one_of x seen then first_occurrences seen l' else x :: first_occurrences (x :: seen) l'
  end.
Definition promQLInstanceFilterForNodes (nodes : list Node) : string :=
  String.concat "|" (first_occurrences []
    (filter (.≠ "") ((λ n, promQLInstanceRegex (N_PublicIP n)) <$> nodes))).

(** [metric{instance=~(filter)}], the filter in quotation marks. *)
Definition with_instances (metric filter : string) : string :=
  metric +:+ "{instance=~" +:+ String.String quote_mark (filter +:+ String.String quote_mark "}").
Definition rate_sum (metric filter : string) : string :=
  "sum(rate(" +:+ with_instances metric filter +:+ "[5m]))".
Definition handshake_query (filter : string) : string :=
  "min(" +:+ with_instances "wireguard_peer_last_handshake_secs" filter +:+ ")".
Definition topology_query (filter : string) : string :=
  "rate(" +:+ with_instances "wireguard_peer_tx_bytes" filter +:+ "[5m]) * 8".

(** ** The client *)

(** A value of a decoded sample. *)
Inductive vm_value :=
  | VNumber (x : spec_float)
  | VText (s : string)
  | VOther.
Record RangeResultItem := mkRangeItem { ri_Metric : strmap; ri_Values : list (list vm_value) }.
Record InstantResultItem := mkInstantItem { ii_Metric : strmap; ii_Value : list vm_value }.
(** [QueryRange] takes start, end and step in seconds. *)
Record VMClient := mkClient {
  QueryRange : string → Z → Z → Z → result (list RangeResultItem);
  QueryInstant : string → result (list InstantResultItem);
}.

Definition backend_unavailable {A} : M A :=
  write_error 503 "SERVICE_UNAVAILABLE" "VictoriaMetrics client is not configured".
(** [Value[1].(string)]: a sample without a second value panics. *)
Definition sample_text (v : list vm_value) : M (option string) :=
  match v !! 1%nat with
  | Some (VText s) => mret (Some s)
  | Some _ => mret None
  | None => fail (Panic "index out of range [1]")
  end.
(** [int64(ts)]. *)
Definition float64_int (x : spec_float) : Z :=
  match x with
  | S754_finite s m e => (if s then -1 else 1) * Z.shiftl (Zpos m) e
  | _ => 0
  end.
Definition finite (x : spec_float) : bool :=
  match x with S754_finite _ _ _ | S754_zero _ => true | _ => false end.

Section pages.
Context (vmClient : option VMClient) (ParseFloat : string → spec_float).

Definition mbps (f : spec_float) : spec_float := float64_div (float64_mul f (float64_of 8)) (float64_of 1000000).
(** [math.Round(x*100) / 100]. *)
Definition two_decimals (x : spec_float) : spec_float :=
  float64_div (float64_round (float64_mul x (float64_of 100))) (float64_of 100).

(** ** Traffic of a tenant *)

Definition maxMonitoringTrafficNodes : Z := MaxNodeListLimit.
Record TrafficPage := mkTraffic {
  tf_timestamps : list Z;
  tf_upload_bytes : list spec_float;
  tf_download_bytes : list spec_float;
  tf_peak_bandwidth_mbps : spec_float;
  tf_traffic_nodes_truncated : bool;
}.
(** The duration and the step of a range, in seconds. *)
Definition traffic_range (range : string) : option (Z * Z) :=
  let range := if (range =? "")%string then "24h" else range in
  if (range =? "1h")%string then Some (3600, 60)
  else if (range =? "24h")%string then Some (24 * 3600, 5 * 60)
  else if (range =? "7d")%string then Some (7 * 24 * 3600, 30 * 60)
  else if (range =? "30d")%string then Some (30 * 24 * 3600, 2 * 3600)
  else None.

Definition higher_peak (peak f : spec_float) : spec_float :=
  let m := mbps f in if SFltb peak m then m else peak.
(** Samples of fewer than two values are skipped. *)
Definition upload_sample (acc : list Z * list spec_float * spec_float) (v : list vm_value) : list Z * list spec_float * spec_float :=
  let '(timestamps, bytes, peak) := acc in
  match v with
  | ts :: val :: _ =>
    let timestamps := match ts with VNumber x => timestamps ++ [float64_int x] | _ => timestamps end in
    match val with
    | VText s => let f := ParseFloat s in (timestamps, bytes ++ [f], higher_peak peak f)
    | _ => (timestamps, bytes, peak)
    end
  | _ => acc
  end.
(** A time is taken from the download where the upload has none. *)
Fixpoint download_samples (i : nat) (values : list (list vm_value)) (acc : list Z * list spec_float * spec_float)
    : list Z * list spec_float * spec_float :=
  match values with
  | [] => acc
  | v :: values =>
    let '(timestamps, bytes, peak) := acc in
    download_samples (S i) values
      (match v with
       | ts :: val :: _ =>
         let timestamps := if (length timestamps <=? i)%nat
                           then match ts with VNumber x => timestamps ++ [float64_int x] | _ => timestamps end
                           else timestamps in
         match val with
         | VText s => let f := ParseFloat s in (timestamps, bytes ++ [f], higher_peak peak f)
         | _ => (timestamps, bytes, peak)
         end
       | _ => acc
       end)
  end.
Definition first_series (l : list RangeResultItem) : list (list vm_value) :=
  match l with item :: _ => ri_Values item | [] => [] end.
Definition traffic_series (tx rx : list RangeResultItem) (truncated : bool) : TrafficPage :=
  let '(timestamps, upload, peak) := foldl upload_sample ([], [], S754_zero false) (first_series tx) in
  let '(timestamps, download, peak) := download_samples 0 (first_series rx) (timestamps, [], peak) in
  mkTraffic timestamps (upload ++ replicate (length timestamps - length upload) (S754_zero false)) download
    (two_decimals peak) truncated.

Definition handleMonitoringTraffic (range : string) (tenantID : UUID) : M TrafficPage :=
  match traffic_range range with
  | None => bad_request "Invalid range parameter, must be 1h/24h/7d/30d"
  | Some (duration, step) =>
    now ← ask env_go_now;
    nodes ← or_failed "Failed to load tenant nodes" (GetNodesByTenantPage tenantID maxMonitoringTrafficNodes 0);
    let truncated := Z.of_nat (length nodes) =? maxMonitoringTrafficNodes in
    let eligibleNodes := filterMonitoringRuntimeEligibleNodes nodes in
    let nothing := mkTraffic [] [] [] (S754_zero false) truncated in
    if bool_decide (eligibleNodes = []) then mret nothing else
    let instanceFilter := promQLInstanceFilterForNodes eligibleNodes in
    if (instanceFilter =? "")%string then mret nothing else
    match vmClient with
    | None => backend_unavailable
    | Some vm =>
      let ask_range metric := QueryRange vm (rate_sum metric instanceFilter) (unix now - duration) (unix now) step in
      tx ← or_failed "Failed to query upload traffic" (lift (λ _, ask_range "wireguard_total_tx_bytes"));
      rx ← or_failed "Failed to query download traffic" (lift (λ _, ask_range "wireguard_total_rx_bytes"));
      mret (traffic_series tx rx truncated)
    end
  end.

(** ** Metrics of a node *)

Record NodeMetrics := mkNodeMetrics {
  nm_upload_mbps : spec_float;
  nm_download_mbps : spec_float;
  nm_latency_ms : spec_float;
}.
(** The first sample of an instant query, or 0. *)
Definition instant_value (vm : VMClient) (message query : string) (f : spec_float → spec_float) : M spec_float :=
  items ← or_failed message (lift (λ _, QueryInstant vm query));
  match items with
  | [] => mret (S754_zero false)
  | item :: _ =>
    text ← sample_text (ii_Value item);
    mret (match text with Some s => f (ParseFloat s) | None => S754_zero false end)
  end.
Definition ask_node_metrics (vm : VMClient) (publicIP : string) : M NodeMetrics :=
  if (publicIP =? "")%string then mret (mkNodeMetrics (S754_zero false) (S754_zero false) (S754_zero false)) else
  let instanceFilter := promQLInstanceRegex publicIP in
  tx ← instant_value vm "Failed to query upload metrics" (rate_sum "wireguard_peer_tx_bytes" instanceFilter) mbps;
  rx ← instant_value vm "Failed to query download metrics" (rate_sum "wireguard_peer_rx_bytes" instanceFilter) mbps;
  latency ← instant_value vm "Failed to query latency metrics" (handshake_query instanceFilter)
              (λ f, float64_mul f (float64_of 1000));
  mret (mkNodeMetrics tx rx latency).
Definition handleMonitoringNodeMetrics (uuid_Parse : string → option UUID) (tenantID : UUID) (nodeID : string)
    : M NodeMetrics :=
  r ← attempt (getTenantNodeRecord uuid_Parse nodeID tenantID);
  match r with
  | Err ErrNoRows => write_error 404 "NODE_NOT_FOUND" "Node not found"
  | Err _ => failed "Failed to get node"
  | Ok node =>
    match vmClient with
    | None => backend_unavailable
    | Some vm =>
      m ← ask_node_metrics vm (N_PublicIP node);
      mret (mkNodeMetrics (two_decimals (nm_upload_mbps m)) (two_decimals (nm_download_mbps m))
              (two_decimals (nm_latency_ms m)))
    end
  end.

(** ** Topology *)

(** The sender is the host of the instance, the receiver the key of the peer. *)
Definition peer_sample (acc : gmap string spec_float) (item : InstantResultItem) : M (gmap string spec_float) :=
  text ← sample_text (ii_Value item);
  mret (match text with
        | None => acc
        | Some s =>
          let instance := default "" (ii_Metric item !! "instance") in
          let remotePubKey := default "" (ii_Metric item !! "public_key") in
          if negb (instance =? "")%string && negb (remotePubKey =? "")%string then
            let host := match Cut instance ":"%char with Some (host, _) => host | None => instance end in
            <[host +:+ ":" +:+ remotePubKey := ParseFloat s]> acc
          else acc
        end).
Fixpoint peer_samples (items : list InstantResultItem) (acc : gmap string spec_float) : M (gmap string spec_float) :=
  match items with
  | [] => mret acc
  | item :: items => acc ← peer_sample acc item; peer_samples items acc
  end.
Definition peerTraffic (nodes : list Node) : M (gmap string spec_float) :=
  match vmClient with
  | None => mret ∅
  | Some vm =>
    let instanceFilter := promQLInstanceFilterForNodes nodes in
    if (instanceFilter =? "")%string then mret ∅ else
    items ← or_failed "Failed to query topology traffic" (lift (λ _, QueryInstant vm (topology_query instanceFilter)));
    peer_samples items ∅
  end.
Definition link_traffic (traffic : gmap string spec_float) (a b : Node) : spec_float :=
  let from x y := default (S754_zero false) (traffic !! (N_PublicIP x +:+ ":" +:+ N_PublicKey y)) in
  two_decimals (SFadd 53 1024 (from a b) (from b a)).

Definition handleMonitoringTopology (tenantID : UUID) : M (list TopologyNode * list TopologyLink * bool) :=
  nodes ← or_failed "Failed to get nodes" (GetNodesByTenantPage tenantID maxMonitoringTopologyNodes 0);
  let nodes := filterMonitoringRuntimeEligibleNodes nodes in
  now ← ask env_go_now;
  traffic ← peerTraffic nodes;
  let '(links, truncated) := topology_links (link_traffic traffic) now nodes [] in
  mret (topology_node now <$> nodes, links, truncated).
End pages.

(** An answer whose numbers JSON has no text for is sent without a body. *)
Definition encodes (numbers : list spec_float) : bool := forallb finite numbers.
