(* ===== verification/Metrics.v ===== *)
(** * Metrics of agents

    [ReportMetrics] of [internal/controller/grpc/server.go]: a report of an agent
    counts as a heartbeat, and its custom metrics about the policies are kept in
    [pkg/controllerstorage/node_policy_stats.go] for the pages that list rules.
    The gauges of the host that a report also carries are not looked at. *)

From Stdlib Require Import SpecFloat.
From S2P Require Import Prelude GoStr Netip Records Store Events Tokens ControlState AgentCommands PolicySync Nodes RuntimeAuth.

Open Scope Z_scope.

(** ** What is kept of a report *)

Abbreviation metrics := (gmap string spec_float).
Abbreviation policy_stats := (gmap string stat).

Definition node_metrics : list string :=
  ["acl_packets"; "acl_bytes"; "acl_dropped_packets"; "acl_dropped_bytes"; "qos_passed_bytes"; "qos_dropped_bytes";
   "qos_shaped_bytes"].
Definition allowedACLRuleStatMetric (metric : string) : bool :=
  one_of metric ["packets"; "bytes"; "dropped_packets"; "dropped_bytes"].
Definition allowedQoSRuleStatMetric (metric : string) : bool :=
  one_of metric ["passed_bytes"; "dropped_bytes"; "shaped_bytes"].

(** [rules[ruleID][metric] = value]. *)
Definition set_rule_metric (ruleID metric : string) (value : spec_float) (rules : gmap string metrics)
    : gmap string metrics := <[ruleID := <[metric := value]> (default ∅ (rules !! ruleID))]> rules.
(** One round of the loop over the metrics, with [aclRules] and [qosRules]. *)
Definition add_rule_metric (key : string) (value : spec_float) (acc : gmap string metrics * gmap string metrics)
    : gmap string metrics * gmap string metrics :=
  match Split key "." with
  | [domain; ruleID; metric] =>
    if (TrimSpace ruleID =? "")%string then acc
    else if (domain =? "acl_rule")%string then
      if allowedACLRuleStatMetric metric then (set_rule_metric ruleID metric value acc.1, acc.2) else acc
    else if (domain =? "qos_rule")%string then
      if allowedQoSRuleStatMetric metric then (acc.1, set_rule_metric ruleID metric value acc.2) else acc
    else acc
  | _ => acc
  end.
(** No rules leave no entry. *)
Definition with_rules (key : string) (rules : gmap string metrics) (stats : policy_stats) : policy_stats :=
  if bool_decide (rules = ∅) then stats else <[key := StatRules rules]> stats.
Definition policyStatsFromCustomMetrics (now : Time) (reported : metrics) : policy_stats :=
  let stats := StatNumber <$> filter (λ kv, kv.1 ∈ node_metrics) reported in
  let '(aclRules, qosRules) := map_fold add_rule_metric (∅, ∅) reported in
  let stats := with_rules "qos_rules" qosRules (with_rules "acl_rules" aclRules stats) in
  if (size stats =? 0)%nat then ∅ else <["reported_at" := StatText (RFC3339 now)]> stats.

(** ** Storage *)

(** [json.Marshal] refuses a number that is not finite; a numeric of the database
    has no negative zero. *)
Definition finite_number (x : spec_float) : bool :=
  match x with S754_nan | S754_infinity _ => false | _ => true end.
Definition finite_stat (s : stat) : Prop :=
  match s with
  | StatNumber x => finite_number x = true
  | StatText _ => True
  | StatRules rules => map_Forall (λ _ m, map_Forall (λ _ x, finite_number x = true) m) rules
  end.
#[export] Instance finite_stat_dec s : Decision (finite_stat s).
Proof. destruct s; simpl; apply _. Defined.
Definition stored_number (x : spec_float) : spec_float :=
  match x with S754_zero _ => S754_zero false | _ => x end.
Definition stored_stat (s : stat) : stat :=
  match s with
  | StatNumber x => StatNumber (stored_number x)
  | StatText t => StatText t
  | StatRules rules => StatRules ((λ m : metrics, stored_number <$> m) <$> rules)
  end.

Definition set_stats (nodeID : UUID) (row : StatsRow) (db : DB) : DB :=
  db <| node_policy_stats := <[nodeID := row]> (node_policy_stats db) |>.
(** [ON CONFLICT (node_id) DO UPDATE] sets every column. *)
Definition UpsertNodePolicyStats (tenantID nodeID : UUID) (stats : policy_stats) : M unit :=
  if negb (bool_decide (map_Forall (λ _, finite_stat) stats)) then fail (ErrorString "marshal policy stats") else
  stmt (λ e _ db,
    if negb (control_refs_ok db tenantID nodeID) then Err (ErrConstraint "node_policy_stats foreign key") else
    Ok ((), set_stats nodeID (mkStatsRow tenantID (stored_stat <$> stats) (env_now e)) db)).

Record NodePolicyStats := mkNodePolicyStats {
  nps_TenantID : UUID;
  nps_NodeID : UUID;
  nps_Stats : policy_stats;
  nps_UpdatedAt : Time;
}.
Definition stats_of (tenantID nodeID : UUID) (db : DB) : option NodePolicyStats :=
  r ← node_policy_stats db !! nodeID;
  if (ns_tenant_id r =? tenantID)%string
  then Some (mkNodePolicyStats tenantID nodeID (ns_stats r) (ns_updated_at r)) else None.
Definition GetNodePolicyStats (tenantID nodeID : UUID) : M (option NodePolicyStats) :=
  query (λ _ db, stats_of tenantID nodeID db).

Definition nestedPolicyRuleStats (stats : NodePolicyStats) (domain : string) (ruleID : UUID) : option metrics :=
  match nps_Stats stats !! domain with Some (StatRules rules) => rules !! ruleID | _ => None end.
Definition ACLRuleStats (stats : NodePolicyStats) (ruleID : UUID) : option metrics :=
  nestedPolicyRuleStats stats "acl_rules" ruleID.
Definition QoSRuleStats (stats : NodePolicyStats) (ruleID : UUID) : option metrics :=
  nestedPolicyRuleStats stats "qos_rules" ruleID.

(** ** The handler *)

(** The identity and the custom metrics of a [MetricsReportRequest]. *)
Record MetricsReportRequest := mkMetricsReportRequest {
  mr_NodeId : string;
  mr_PublicKey : string;
  mr_AgentId : string;
  mr_CustomMetrics : metrics;
}.
Record MetricsReportResponse := mkMetricsReportResponse {
  mrs_Success : bool;
  mrs_Message : string;
}.

Section report.
Context (uuid_Parse : string → option UUID).

Definition ReportMetrics (ctx : RuntimeContext) (req : MetricsReportRequest) : M MetricsReportResponse :=
  r ← attempt (resolveMetricsNodeForRequest uuid_Parse ctx (mr_NodeId req) (mr_PublicKey req) (mr_AgentId req));
  match r with
  | Err _ => mret (mkMetricsReportResponse false "Unauthorized node")
  | Ok node =>
    now ← ask env_go_now;
    _ ← wrap "failed to persist metrics" (UpdateNodeHeartbeat (N_ID node) (unix now));
    let stats := policyStatsFromCustomMetrics now (mr_CustomMetrics req) in
    _ ← (if (0 <? size stats)%nat
         then wrap "failed to persist policy stats" (UpsertNodePolicyStats (N_TenantID node) (N_ID node) stats)
         else mret ());
    mret (mkMetricsReportResponse true "Metrics reported successfully")
  end.
End report.
