(* ===== verification/DeliveryStatus.v ===== *)
(** * The delivery status of policies

    The pages of [internal/api/v2/security.go] and [setup.go] that list the rules
    and routes of a node show with each the status of its last delivery, the
    history and what is still under way; an error the agent reports about a network
    that two rules use is replaced by one that names the rules.  A rule also has the
    statistics the agent reported last. *)

From S2P Require Import Prelude GoStr Netip Records CidrColumn Store Events Tokens ControlState AgentCommands PolicySync Nodes IPGroups PolicyRules RuntimeAuth Sessions Access Dispatch PolicyValidation PolicyAdmin NodeAdmin Metrics.

Open Scope Z_scope.

(** ** The network a report complains about *)

(** [\s] and [\d] of a regular expression. *)
Definition re_space (c : ascii) : bool :=
  let n := N_of_ascii c in ((n =? 9) || (n =? 10) || (n =? 12) || (n =? 13) || (n =? 32))%N.
Definition re_digit (c : ascii) : bool := bool_decide (is_Some (digit_val c)).
(** A longest run of characters of a class, and the rest. *)
Fixpoint run_of (p : ascii → bool) (l : text) : text * text :=
  match l with
  | c :: l' => if p c then let (u, rest) := run_of p l' in (c :: u, rest) else ([], l)
  | [] => ([], [])
  end.
(** A run of at least one character; what follows it in the expressions below
    starts with a character of another class, so that no shorter run matches. *)
Definition run1 (p : ascii → bool) (l : text) : option (text * text) :=
  let (u, rest) := run_of p l in match u with [] => None | _ => Some (u, rest) end.
Definition spaces1 (l : text) : option text := snd <$> run1 re_space l.
Definition word1 (l : text) : option (text * text) := run1 (λ c, negb (re_space c)) l.
Fixpoint literal (p l : text) : option text :=
  match p, l with
  | [], _ => Some l
  | c :: p', d :: l' => if (c =? d)%char then literal p' l' else None
  | _, [] => None
  end.
Definition lit (s : string) : text → option text := literal (String.list_ascii_of_string s).

(** The two expressions of [runtimeGroupCIDRConflictRes], matched at the start. *)
Definition match_belongs (l : text) : option text :=
  l ← lit "CIDR" l; l ← spaces1 l; '(cidr, l) ← word1 l; l ← spaces1 l;
  l ← lit "already belongs to runtime group" l; l ← spaces1 l; _ ← run1 re_digit l; Some cidr.
Definition match_duplicate (l : text) : option text :=
  l ← lit "duplicate CIDR" l; l ← spaces1 l; '(cidr, l) ← word1 l; l ← spaces1 l;
  l ← lit "in runtime groups" l; l ← spaces1 l; '(_, l) ← word1 l; l ← spaces1 l;
  l ← lit "and" l; l ← spaces1 l; _ ← word1 l; Some cidr.
(** The leftmost match. *)
Fixpoint find_match (m : text → option text) (l : text) : option text :=
  match m l with
  | Some u => Some u
  | None => match l with _ :: l' => find_match m l' | [] => None end
  end.
Definition runtimeGroupConflictCIDR (raw : string) : string :=
  let l := String.list_ascii_of_string raw in
  match find_match match_belongs l with
  | Some u => TrimSpace (String.string_of_list_ascii u)
  | None => match find_match match_duplicate l with
            | Some u => TrimSpace (String.string_of_list_ascii u)
            | None => "" end
  end.
Example runtimeGroupConflictCIDR_examples :
  runtimeGroupConflictCIDR <$>
    ["apply failed: CIDR  10.0.0.0/8 already belongs to runtime group 3"; "duplicate CIDR 10.1.0.0/16 in runtime groups a and b";
     "CIDR x already belongs to runtime group x"; "no conflict"]
  = ["10.0.0.0/8"; "10.1.0.0/16"; ""; ""].
Proof. vm_compute. reflexivity. Qed.

(** ** The networks the rules use *)

Record policyCIDRUsage := mkUsage {
  us_policyRef : string;
  us_policyName : string;
  us_domain : string;
  us_cidr : string;
}.
#[export] Instance policyCIDRUsage_eq_dec : EqDecision policyCIDRUsage.
Proof. solve_decision. Defined.

Definition policyErrorCIDRIsAny (cidr : string) : bool :=
  one_of (ToLower (TrimSpace cidr)) [""; "any"; "0.0.0.0/0"; "::/0"].
Definition policy_usage (domain ref name cidr : string) : list policyCIDRUsage :=
  let cidr := TrimSpace cidr in
  if policyErrorCIDRIsAny cidr then []
  else [mkUsage (TrimSpace ref) (TrimSpace name) (TrimSpace (ToLower domain)) cidr].
Definition appendPolicyCIDRUsage (usages : list policyCIDRUsage) (domain ref name cidr : string)
    : list policyCIDRUsage := usages ++ policy_usage domain ref name cidr.
Definition appendPolicyGroupCIDRUsages (usages : list policyCIDRUsage) (domain ref name : string)
    (cidrs : list string) : list policyCIDRUsage :=
  foldl (λ usages cidr, appendPolicyCIDRUsage usages domain ref name cidr) usages cidrs.

Fixpoint firstNonEmpty (values : list string) : string :=
  match values with
  | [] => ""
  | v :: rest => if (v =? "")%string then firstNonEmpty rest else v
  end.

Section usages.
Context `{CidrText}.

(** An error of the lookup counts as no group. *)
Definition policyIPGroupCIDRs (tenantID : UUID) (groupID : NullUUID) (group : option IPGroupRecord)
    : M (list string) :=
  group ← match group, groupID with
          | None, Some id => r ← attempt (GetIPGroup tenantID id); mret (match r with Ok g => Some g | Err _ => None end)
          | _, _ => mret group
          end;
  mret (match group with Some g => m_CIDR <$> g_Members g | None => [] end).

Definition acl_usages (tenantID : UUID) (rule : ACLRuleRecord) : M (list policyCIDRUsage) :=
  let ref := a_ID rule in
  let name := firstNonEmpty [TrimSpace (a_Name rule); TrimSpace (a_Description rule); ref] in
  src ← policyIPGroupCIDRs tenantID (a_SrcGroupID rule) (a_SrcGroup rule);
  dst ← policyIPGroupCIDRs tenantID (a_DstGroupID rule) (a_DstGroup rule);
  let usages := appendPolicyCIDRUsage (policy_usage "acl" ref name (a_SrcCIDR rule)) "acl" ref name (a_DstCIDR rule) in
  mret (appendPolicyGroupCIDRUsages (appendPolicyGroupCIDRUsages usages "acl" ref name src) "acl" ref name dst).
Definition aclPolicyCIDRUsages (tenantID : UUID) (rules : list ACLRuleRecord) : M (list policyCIDRUsage) :=
  l ← map_each (acl_usages tenantID) rules; mret (concat l).
Definition qos_usages (tenantID : UUID) (rule : QoSRuleRecord) : M (list policyCIDRUsage) :=
  let ref := q_ID rule in
  let name := firstNonEmpty [TrimSpace (q_Description rule); ref] in
  group ← policyIPGroupCIDRs tenantID (q_GroupID rule) (q_Group rule);
  let usages := appendPolicyCIDRUsage (policy_usage "qos" ref name (q_SrcCIDR rule)) "qos" ref name (q_DstCIDR rule) in
  mret (appendPolicyGroupCIDRUsages usages "qos" ref name group).
Definition qosPolicyCIDRUsages (tenantID : UUID) (rules : list QoSRuleRecord) : M (list policyCIDRUsage) :=
  l ← map_each (qos_usages tenantID) rules; mret (concat l).

(** Rules the caller has not read are read; an error counts as none. *)
Definition known_or {A} (known : option (list A)) (m : M (list A)) : M (list A) :=
  match known with
  | Some l => mret l
  | None => r ← attempt m; mret (match r with Ok l => l | Err _ => [] end)
  end.
Definition policyCIDRUsagesForNode (tenantID nodeID : UUID) (knownACLRules : option (list ACLRuleRecord))
    (knownQoSRules : option (list QoSRuleRecord)) : M (list policyCIDRUsage) :=
  aclRules ← known_or knownACLRules (ListTenantNodeACLRules tenantID nodeID);
  qosRules ← known_or knownQoSRules (ListTenantNodeQoSRules tenantID nodeID);
  a ← aclPolicyCIDRUsages tenantID aclRules;
  q ← qosPolicyCIDRUsages tenantID qosRules;
  mret (a ++ q).

(** ** The message *)

Definition usage_matches (cidr currentRef : string) (excludeCurrent : bool) (u : policyCIDRUsage) : bool :=
  EqualFold (TrimSpace (us_cidr u)) cidr
  && negb (excludeCurrent && negb (currentRef =? "")%string && EqualFold (TrimSpace (us_policyRef u)) currentRef).
Definition usage_key (u : policyCIDRUsage) : string * string * string :=
  (ToLower (TrimSpace (us_domain u)), TrimSpace (us_policyRef u), TrimSpace (us_policyName u)).
(** The first usage of each policy. *)
Fixpoint first_of_each (seen : list (string * string * string)) (l : list policyCIDRUsage) : list policyCIDRUsage :=
  match l with
  | [] => []
  | u :: l => if bool_decide (usage_key u ∈ seen) then first_of_each seen l
              else u :: first_of_each (usage_key u :: seen) l
  end.
Definition policyCIDRUsageMatches (usages : list policyCIDRUsage) (cidr : string) (delivery : PolicyDelivery)
    (excludeCurrent : bool) : list policyCIDRUsage :=
  first_of_each [] (List.filter (usage_matches cidr (TrimSpace (d_PolicyRef delivery)) excludeCurrent) usages).

Definition upper_char (c : ascii) : ascii :=
  let n := N_of_ascii c in if ((97 <=? n) && (n <=? 122))%N then ascii_of_N (n - 32) else c.
Definition ToUpper (s : string) : string :=
  String.string_of_list_ascii (upper_char <$> String.list_ascii_of_string s).
Definition policyDomainLabel (domain : string) : string :=
  let d := ToLower (TrimSpace domain) in
  if (d =? "acl")%string then "ACL" else if (d =? "qos")%string then "QoS" else
  if (TrimSpace domain =? "")%string then "Policy" else ToUpper (TrimSpace domain).
Definition usage_label (u : policyCIDRUsage) : option string :=
  let name := firstNonEmpty [TrimSpace (us_policyName u); TrimSpace (us_policyRef u)] in
  if (name =? "")%string then None
  else Some (policyDomainLabel (us_domain u) +:+ " 策略 " +:+ Quote name).
Definition formatPolicyCIDRConflictError (cidr : string) (found : list policyCIDRUsage) : string :=
  match omap usage_label found with
  | [] => ""
  | [label] => "CIDR " +:+ cidr +:+ " 已被 " +:+ label +:+ " 使用，请修改或删除该策略后再同步。"
  | labels => "CIDR " +:+ cidr +:+ " 已被多个策略使用：" +:+ String.concat "、" labels
              +:+ "，请修改或删除冲突策略后再同步。"
  end.

Definition policyDeliveryCIDRErrorResolver (usages : list policyCIDRUsage) (delivery : PolicyDelivery)
    (raw : string) : string :=
  let cidr := runtimeGroupConflictCIDR raw in
  if (cidr =? "")%string then raw else
  let found := match policyCIDRUsageMatches usages cidr delivery true with
               | [] => policyCIDRUsageMatches usages cidr delivery false
               | l => l end in
  match found with [] => raw | _ => formatPolicyCIDRConflictError cidr found end.

(** A resolver keeps the usages it has read once; without one the error stays. *)
Record resolver := mkResolver {
  rs_read : M (list policyCIDRUsage);
  rs_usages : option (list policyCIDRUsage);
}.
Definition policyDeliveryErrorResolverForNodeRules (tenantID nodeID : UUID)
    (knownACLRules : option (list ACLRuleRecord)) (knownQoSRules : option (list QoSRuleRecord)) : resolver :=
  mkResolver (policyCIDRUsagesForNode tenantID nodeID knownACLRules knownQoSRules) None.
Definition resolve (r : resolver) (delivery : PolicyDelivery) (raw : string) : M (string * resolver) :=
  if (runtimeGroupConflictCIDR raw =? "")%string then mret (raw, r) else
  usages ← match rs_usages r with Some l => mret l | None => rs_read r end;
  mret (policyDeliveryCIDRErrorResolver usages delivery raw, mkResolver (rs_read r) (Some usages)).

Definition aclPolicyDeliveryErrorResolver (tenantID nodeID : UUID) (rules : list ACLRuleRecord) : resolver :=
  policyDeliveryErrorResolverForNodeRules tenantID nodeID (Some rules) None.
Definition qosPolicyDeliveryErrorResolver (tenantID nodeID : UUID) (rules : list QoSRuleRecord) : resolver :=
  policyDeliveryErrorResolverForNodeRules tenantID nodeID None (Some rules).
Definition policyDeliveryErrorResolverForNode (tenantID nodeID : UUID) : resolver :=
  policyDeliveryErrorResolverForNodeRules tenantID nodeID None None.

(** ** Deliveries as they are shown *)

(** The delivery with the error in its place, and the raw one when they differ. *)
Record DeliveryView := mkDeliveryView {
  dv_delivery : PolicyDelivery;
  dv_last_error : string;
  dv_raw_last_error : option string;
}.
Definition policyDeliveryToMapWithErrorResolver (delivery : PolicyDelivery) (r : option resolver)
    : M (DeliveryView * option resolver) :=
  let raw := d_LastError delivery in
  '(lastError, r) ← match r with
    | Some rs =>
      if (TrimSpace raw =? "")%string then mret (raw, r) else
      '(resolved, rs) ← resolve rs delivery raw;
      let resolved := TrimSpace resolved in
      mret (if negb (resolved =? "")%string && negb (resolved =? raw)%string then resolved else raw, Some rs)
    | None => mret (raw, r)
    end;
  mret (mkDeliveryView delivery lastError
          (if negb (lastError =? raw)%string && negb (TrimSpace raw =? "")%string then Some raw else None), r).
Definition policyDeliveryToMap (delivery : PolicyDelivery) : DeliveryView :=
  mkDeliveryView delivery (d_LastError delivery) None.
Fixpoint serialize (l : list PolicyDelivery) (r : option resolver) : M (list DeliveryView * option resolver) :=
  match l with
  | [] => mret ([], r)
  | d :: l =>
    '(v, r) ← policyDeliveryToMapWithErrorResolver d r;
    '(vs, r) ← serialize l r;
    mret (v :: vs, r)
  end.

(** The deliveries of each reference, in the order of the listing. *)
Definition delivery_key (d : PolicyDelivery) : string := TrimSpace (d_PolicyRef d).
Definition history_of (ref : string) (l : list PolicyDelivery) : list PolicyDelivery :=
  List.filter (λ d, negb (delivery_key d =? "")%string && (delivery_key d =? ref)%string) l.
Fixpoint dedup_refs (seen : list string) (l : list PolicyDelivery) : list string :=
  match l with
  | [] => []
  | d :: l =>
    let ref := delivery_key d in
    if (ref =? "")%string || bool_decide (ref ∈ seen) then dedup_refs seen l
    else ref :: dedup_refs (ref :: seen) l
  end.
Definition pending_of (l : list PolicyDelivery) : Z :=
  foldr (λ d n, pendingCountForCommandStatus (d_CommandStatus d) + n) 0 l.

Record policyDeliveryFields := mkFields {
  df_status : string;
  df_pending : Z;
  df_last : option DeliveryView;
  df_history : list DeliveryView;
  df_lastError : string;
}.
(** What a rule without deliveries shows. *)
Definition idle_fields : policyDeliveryFields := mkFields "idle" 0 None [] "".
Definition fields_of (history : list PolicyDelivery) (views : list DeliveryView) : policyDeliveryFields :=
  mkFields (match history with d :: _ => mapCommandStatusToPolicyStatus (d_CommandStatus d) | [] => "" end)
    (pending_of history) (head views) views (match views with v :: _ => dv_last_error v | [] => "" end).
(** The loop over the map of histories, whose order is that of the listing here. *)
Fixpoint load_fields (refs : list string) (l : list PolicyDelivery) (r : option resolver)
    : M (gmap string policyDeliveryFields) :=
  match refs with
  | [] => mret ∅
  | ref :: refs =>
    '(views, r) ← serialize (history_of ref l) r;
    m ← load_fields refs l r;
    mret (<[ref := fields_of (history_of ref l) views]> m)
  end.
Definition loadPolicyDeliveryStatusByRef (tenantID nodeID : UUID) (domain : string) (r : resolver)
    : M (gmap string policyDeliveryFields) :=
  deliveries ← ListPolicyDeliveriesByNodeAndDomain tenantID nodeID domain 100;
  load_fields (dedup_refs [] deliveries) deliveries (Some r).

End usages.

(** A zero value of the map counts as idle. *)
Definition applyPolicyDeliveryFields (fields : option policyDeliveryFields) : policyDeliveryFields :=
  match fields with
  | Some f => if (df_status f =? "")%string then idle_fields else f
  | None => idle_fields
  end.

(** A rule with what is attached to it. *)
Record Listed (A : Type) := mkListed {
  li_item : A;
  li_stats : option metrics;
  li_policy_id : string;
  li_policy_domain : string;
  li_policy_ref : string;
  li_fields : policyDeliveryFields;
}.
Arguments mkListed {A} _ _ _ _ _ _.
Arguments li_item {A} _.
Arguments li_stats {A} _.
Arguments li_policy_id {A} _.
Arguments li_policy_domain {A} _.
Arguments li_policy_ref {A} _.
Arguments li_fields {A} _.
Definition listed {A} (domain : string) (id : A → string) (m : gmap string policyDeliveryFields)
    (x : A * option metrics) : Listed A :=
  mkListed x.1 x.2 (domain +:+ ":" +:+ id x.1) domain (id x.1) (applyPolicyDeliveryFields (m !! id x.1)).

(** Without a report no rule has statistics. *)
Definition attachRuleStats {A} (rule_stats : NodePolicyStats → UUID → option metrics) (id : A → UUID)
    (tenantID nodeID : UUID) (rules : list A) : M (list (A * option metrics)) :=
  policyStats ← GetNodePolicyStats tenantID nodeID;
  mret ((λ rule, (rule, s ← policyStats; rule_stats s (id rule))) <$> rules).
Definition attachACLRuleStats : UUID → UUID → list ACLRuleRecord → M (list (ACLRuleRecord * option metrics)) :=
  attachRuleStats ACLRuleStats a_ID.
Definition attachQoSRuleStats : UUID → UUID → list QoSRuleRecord → M (list (QoSRuleRecord * option metrics)) :=
  attachRuleStats QoSRuleStats q_ID.

Section pages.
Context `{CidrText}.

Definition attachACLRuleDeliveryStatus (tenantID nodeID : UUID) (rules : list (ACLRuleRecord * option metrics))
    : M (list (Listed ACLRuleRecord)) :=
  statusByRef ← loadPolicyDeliveryStatusByRef tenantID nodeID "acl"
    (aclPolicyDeliveryErrorResolver tenantID nodeID rules.*1);
  mret (listed "acl" a_ID statusByRef <$> rules).
Definition attachQoSRuleDeliveryStatus (tenantID nodeID : UUID) (rules : list (QoSRuleRecord * option metrics))
    : M (list (Listed QoSRuleRecord)) :=
  statusByRef ← loadPolicyDeliveryStatusByRef tenantID nodeID "qos"
    (qosPolicyDeliveryErrorResolver tenantID nodeID rules.*1);
  mret (listed "qos" q_ID statusByRef <$> rules).

Definition or_internal {A} (message : string) (m : M A) : M A :=
  r ← attempt m; match r with Ok a => mret a | Err _ => write_error 500 "INTERNAL_ERROR" message end.

Definition listTenantNodeACLs (tenantID nodeID : UUID) : M (list (Listed ACLRuleRecord)) :=
  rules ← or_internal "Failed to list ACL rules" (ListTenantNodeACLRules tenantID nodeID);
  rules ← or_internal "Failed to load ACL stats" (attachACLRuleStats tenantID nodeID rules);
  or_internal "Failed to load ACL delivery status" (attachACLRuleDeliveryStatus tenantID nodeID rules).
Definition listTenantNodeQoS (tenantID nodeID : UUID) : M (list (Listed QoSRuleRecord)) :=
  rules ← or_internal "Failed to list QoS rules" (ListTenantNodeQoSRules tenantID nodeID);
  rules ← or_internal "Failed to load QoS stats" (attachQoSRuleStats tenantID nodeID rules);
  or_internal "Failed to load QoS delivery status" (attachQoSRuleDeliveryStatus tenantID nodeID rules).
Definition listTenantNodeBlacklistRules (tenantID nodeID : UUID) (scope : string) : M (list BlacklistRuleRecord) :=
  or_internal "Failed to list blacklist rules" (ListTenantNodeBlacklistRules tenantID nodeID scope).
End pages.
