(* ===== verification/DeliveryStatusSpec.v ===== *)
(** * What the delivery status of policies shows

    Each listed rule shows its own deliveries among the newest ones of the node and
    nothing of the agent's report is lost when a message names the rules instead. *)

From S2P Require Import Prelude GoStr Netip Records CidrColumn Store Events Tokens ControlState AgentCommands PolicySync Nodes NodesSpec IPGroups PolicyRules RuntimeAuth Sessions Access Dispatch PolicyValidation PolicyAdmin NodeAdmin PolicyMachineSpec Metrics DeliveryStatus.

Open Scope Z_scope.

Section spec.
Context `{CidrText}.

#[local] Hint Resolve get_group_reads : aria.
Lemma group_cidrs_reads (R : DB → DB → Prop) `{!PreOrder R} t gid g : changes R (policyIPGroupCIDRs t gid g).
Proof. unfold policyIPGroupCIDRs. chg; try (by apply (changes_attempt R), get_group_reads); destruct g, gid; chg; by apply (changes_attempt R), get_group_reads. Qed.
Lemma acl_rules_read (R : DB → DB → Prop) `{!PreOrder R} t n : changes R (ListTenantNodeACLRules t n).
Proof. unfold ListTenantNodeACLRules, listTenantNodeACLRules. chg. Qed.
Lemma qos_rules_read (R : DB → DB → Prop) `{!PreOrder R} t n : changes R (ListTenantNodeQoSRules t n).
Proof. unfold ListTenantNodeQoSRules, listTenantNodeQoSRules. chg. Qed.
#[local] Hint Resolve group_cidrs_reads acl_rules_read qos_rules_read : aria.
Lemma usages_read (R : DB → DB → Prop) `{!PreOrder R} t n ka kq : changes R (policyCIDRUsagesForNode t n ka kq).
Proof.
  unfold policyCIDRUsagesForNode, known_or, aclPolicyCIDRUsages, qosPolicyCIDRUsages, acl_usages, qos_usages.
  chg.
Qed.

(** ** The views of deliveries *)

(** What a view shows was reported: the raw text is its error unless it is shown
    beside a message in its place. *)
Definition raw_error (v : DeliveryView) : string := default (dv_last_error v) (dv_raw_last_error v).
Definition quiet_resolver (rs : resolver) : Prop := changes (same id) (rs_read rs) ∧ total (rs_read rs).
Definition reads_only (r : option resolver) : Prop :=
  match r with Some rs => quiet_resolver rs | None => True end.

Lemma resolve_ok rs d raw text rs' e st st' :
  resolve rs d raw e st = (Ok (text, rs'), st') → quiet_resolver rs →
  st_db st' = st_db st ∧ quiet_resolver rs' ∧
  (text = raw ∨ ∃ usages, text = policyDeliveryCIDRErrorResolver usages d raw).
Proof.
  unfold resolve. intros Hr Hro. destruct (_ =? "")%string; [injection Hr as <- <- <-; by auto|].
  apply bind_ok in Hr as (usages & st1 & Hu & Hr). injection Hr as <- <- <-.
  split; [|split; [done|by eauto]].
  destruct (rs_usages rs); [by injection Hu as _ <-|]. destruct Hro as [Hro _]. specialize (Hro e st). by rewrite Hu in Hro.
Qed.

Lemma view_ok d r v r' e st st' :
  policyDeliveryToMapWithErrorResolver d r e st = (Ok (v, r'), st') → reads_only r →
  st_db st' = st_db st ∧ reads_only r' ∧ dv_delivery v = d ∧ raw_error v = d_LastError d ∧
  (is_Some (dv_raw_last_error v) →
    ∃ usages, dv_last_error v = TrimSpace (policyDeliveryCIDRErrorResolver usages d (d_LastError d))).
Proof.
  unfold policyDeliveryToMapWithErrorResolver. intros Hr Hro.
  apply bind_ok in Hr as ([text r1] & st1 & Ht & Hr). injection Hr as <- <- <-. unfold raw_error. cbn [dv_delivery dv_last_error dv_raw_last_error].
  assert (st_db st1 = st_db st ∧ reads_only r1 ∧
    (text = d_LastError d ∨ TrimSpace (d_LastError d) ≠ "" ∧
      ∃ usages, text = TrimSpace (policyDeliveryCIDRErrorResolver usages d (d_LastError d)))) as (? & ? & Hx).
  { destruct r as [rs|]; [|injection Ht as <- <- <-; by auto].
    destruct (TrimSpace (d_LastError d) =? "")%string eqn:Hb; [injection Ht as <- <- <-; by auto|].
    apply bind_ok in Ht as ([res rs'] & st2 & (? & ? & Hres)%resolve_ok & Ht); [|done].
    injection Ht as <- <- <-. split_and!; [done..|].
    destruct (_ && _) eqn:Hc; [|by left]. apply andb_true_iff in Hc as [_ Hc].
    apply String.eqb_neq in Hb. destruct Hres as [->|[us ->]]; [|right; eauto].
    right. split; [done|]. exists []. unfold policyDeliveryCIDRErrorResolver. by destruct (_ =? "")%string. }
  split_and!; [done..| |].
  - destruct Hx as [->|[Hb _]]; [by rewrite String.eqb_refl|]. rewrite (proj2 (String.eqb_neq _ _) Hb).
    destruct (text =? d_LastError d)%string eqn:Ht'; [by apply String.eqb_eq in Ht'|done].
  - destruct Hx as [->|[_ Hu]]; [rewrite String.eqb_refl; by intros [? [=]]|done].
Qed.

Lemma is_ok_bind {A B} (m : M A) (k : A → M B) e st :
  is_ok (m e st).1 = true → (∀ a st1, m e st = (Ok a, st1) → is_ok (k a e st1).1 = true) →
  is_ok ((m ≫= k) e st).1 = true.
Proof. unfold mbind, M_bind. destruct (m e st) as [[a|x] st1]; [by intros _ Hk; apply Hk|done]. Qed.
Lemma view_total d r e st : reads_only r → is_ok (policyDeliveryToMapWithErrorResolver d r e st).1 = true.
Proof.
  intros Hro. unfold policyDeliveryToMapWithErrorResolver. apply is_ok_bind; [|by intros [? ?]].
  destruct r as [rs|]; [|done]. destruct (_ =? "")%string; [done|]. apply is_ok_bind; [|by intros [? ?]].
  unfold resolve. destruct (_ =? "")%string; [done|]. apply is_ok_bind; [|done].
  destruct (rs_usages rs); [done|]. by apply Hro.
Qed.

(** The views of a list of deliveries, in its order. *)
Definition views_of (l : list PolicyDelivery) (vs : list DeliveryView) : Prop :=
  Forall2 (λ d v, dv_delivery v = d ∧ raw_error v = d_LastError d ∧
    (is_Some (dv_raw_last_error v) →
      ∃ usages, dv_last_error v = TrimSpace (policyDeliveryCIDRErrorResolver usages d (d_LastError d)))) l vs.
Lemma serialize_ok l r vs r' e st st' :
  serialize l r e st = (Ok (vs, r'), st') → reads_only r →
  st_db st' = st_db st ∧ reads_only r' ∧ views_of l vs.
Proof.
  revert r vs r' st st'. induction l as [|d l IH]; intros r vs r' st st' Hr Hro; cbn [serialize] in Hr.
  { injection Hr as <- <- <-. split_and!; [done..|constructor]. }
  apply bind_ok in Hr as ([v r1] & st1 & (Hdb & Hro1 & Hv)%view_ok & Hr); [|done].
  apply bind_ok in Hr as ([vs1 r2] & st2 & (Hdb' & Hro2 & Hvs)%IH & Hr); [|done].
  injection Hr as <- <- <-. split_and!; [congruence|done|by constructor].
Qed.

Lemma serialize_total l r e st : reads_only r → is_ok (serialize l r e st).1 = true.
Proof.
  revert r st. induction l as [|d l IH]; intros r st Hro; [done|]. cbn [serialize].
  apply is_ok_bind; [by apply view_total|]. intros [v r1] st1 (_ & Hro1 & _)%view_ok; [|done].
  apply is_ok_bind; [by apply IH|by intros [? ?]].
Qed.

(** ** The table of statuses *)

Lemma dedup_refs_elem seen l ref :
  ref ∈ dedup_refs seen l ↔ ref ∉ seen ∧ ref ≠ "" ∧ ∃ d, d ∈ l ∧ delivery_key d = ref.
Proof.
  revert seen. induction l as [|d l IH]; intros seen; cbn [dedup_refs].
  { rewrite elem_of_nil. split; [done|intros (_ & _ & d & []%elem_of_nil & _)]. }
  destruct (String.eqb_spec (delivery_key d) "") as [Hk|Hk]; cbn [orb].
  { rewrite IH. setoid_rewrite elem_of_cons. naive_solver. }
  case_bool_decide as Hs.
  { rewrite IH. setoid_rewrite elem_of_cons. naive_solver. }
  rewrite elem_of_cons, IH. setoid_rewrite elem_of_cons.
  destruct (decide (ref = delivery_key d)) as [->|]; naive_solver.
Qed.
Lemma filter_none {A} (p : A → bool) l : (∀ x, x ∈ l → p x = false) → List.filter p l = [].
Proof.
  induction l as [|x l IH]; intros Hp; [done|]. cbn [List.filter]. rewrite Hp by apply list_elem_of_here.
  apply IH. intros y Hy. by apply Hp, list_elem_of_further.
Qed.
Lemma history_empty ref l : ref ∉ dedup_refs [] l → history_of ref l = [].
Proof.
  rewrite dedup_refs_elem. intros Hn. apply filter_none. intros d Hd. apply andb_false_iff.
  destruct (String.eqb_spec (delivery_key d) ref) as [<-|]; [left|by right].
  destruct (String.eqb_spec (delivery_key d) "") as [|]; [done|]. exfalso. apply Hn. split_and!; [by intros []%elem_of_nil|done|by eauto].
Qed.
Lemma history_nonempty ref l : ref ∈ dedup_refs [] l → history_of ref l ≠ [].
Proof.
  rewrite dedup_refs_elem. intros (_ & Hne & d & Hd & Hk) Hh.
  assert (In d (history_of ref l)) as Hin; [|by rewrite Hh in Hin].
  apply filter_In. split; [by apply list_elem_of_In|]. rewrite Hk, String.eqb_refl.
  by rewrite (proj2 (String.eqb_neq _ _) Hne).
Qed.

Lemma load_fields_ok refs l r m e st st' :
  load_fields refs l r e st = (Ok m, st') → reads_only r →
  st_db st' = st_db st ∧
  (∀ ref, if decide (ref ∈ refs)
          then ∃ vs, m !! ref = Some (fields_of (history_of ref l) vs) ∧ views_of (history_of ref l) vs
          else m !! ref = None).
Proof.
  revert r m st st'. induction refs as [|ref refs IH]; intros r m st st' Hr Hro; cbn [load_fields] in Hr.
  { injection Hr as <- <-. by split; [|intros ref; rewrite decide_False by (by intros []%elem_of_nil)]. }
  apply bind_ok in Hr as ([vs r1] & st1 & (Hdb & Hro1 & Hvs)%serialize_ok & Hr); [|done].
  apply bind_ok in Hr as (m1 & st2 & (Hdb' & Hm)%IH & Hr); [|done].
  injection Hr as <- <-. split; [congruence|]. intros ref'. specialize (Hm ref').
  destruct (decide (ref = ref')) as [<-|Hne].
  - rewrite decide_True by apply list_elem_of_here. rewrite lookup_insert_eq. eauto.
  - rewrite lookup_insert_ne by done. destruct (decide (ref' ∈ refs)).
    + by rewrite decide_True by (by apply list_elem_of_further).
    + rewrite decide_False; [done|]. intros [Heq|]%elem_of_cons; congruence.
Qed.

(** What a rule shows, from its own deliveries, the newest first. *)
Definition shows (mine : list PolicyDelivery) (f : policyDeliveryFields) : Prop :=
  match mine with
  | [] => f = idle_fields
  | newest :: _ =>
    df_status f = mapCommandStatusToPolicyStatus (d_CommandStatus newest) ∧
    df_pending f = Z.of_nat (length (List.filter (λ d, one_of (d_CommandStatus d)
      [AgentCommandStatusPending; AgentCommandStatusSent; AgentCommandStatusAcknowledged]) mine)) ∧
    views_of mine (df_history f) ∧ df_last f = head (df_history f) ∧
    Some (df_lastError f) = dv_last_error <$> df_last f
  end.
Lemma pending_of_count l :
  pending_of l = Z.of_nat (length (List.filter (λ d, one_of (d_CommandStatus d)
    [AgentCommandStatusPending; AgentCommandStatusSent; AgentCommandStatusAcknowledged]) l)).
Proof.
  induction l as [|d l IH]; [done|]. unfold pending_of in *. cbn [foldr List.filter]. rewrite IH.
  unfold pendingCountForCommandStatus. destruct (one_of _ _); cbn [length]; lia.
Qed.
Lemma fields_show mine vs : views_of mine vs → mine ≠ [] →
  shows mine (applyPolicyDeliveryFields (Some (fields_of mine vs))).
Proof.
  intros Hv Hne. unfold applyPolicyDeliveryFields, fields_of, shows. destruct Hv as [|d v mine vs Hd Hv]; [done|].
  cbn [df_status]. assert ((mapCommandStatusToPolicyStatus (d_CommandStatus d) =? "")%string = false) as ->.
  { unfold mapCommandStatusToPolicyStatus. by repeat case_match. }
  cbn [df_status df_pending df_history df_last df_lastError head fmap option_fmap option_map].
  split_and!; [done|apply pending_of_count|by constructor|done|done].
Qed.

(** The deliveries the page of a domain works with. *)
Definition recent_deliveries (t n : UUID) (domain : string) (db : DB) : list PolicyDelivery :=
  (λ kd, scanPolicyDelivery kd.1 kd.2) <$> take 100
    (newest_deliveries (λ _ d, (pd_tenant_id d =? t)%string && (pd_node_id d =? n)%string
       && (pd_policy_domain d =? domain)%string) db).
Lemma statuses_ok t n domain rs m e st st' :
  loadPolicyDeliveryStatusByRef t n domain rs e st = (Ok m, st') → quiet_resolver rs →
  st_db st' = st_db st ∧
  ∀ ref, shows (history_of ref (recent_deliveries t n domain (st_db st))) (applyPolicyDeliveryFields (m !! ref)).
Proof.
  unfold loadPolicyDeliveryStatusByRef. intros Hr Hro.
  apply bind_ok in Hr as (l & st1 & Hl & Hr). apply query_ok in Hl as [-> Hdb].
  apply load_fields_ok in Hr as [Hdb' Hm]; [|done]. split; [congruence|]. intros ref.
  change (Z.to_nat (if 100 <=? 0 then 100 else 100)) with 100%nat in Hm.
  fold (recent_deliveries t n domain (st_db st)) in Hm. specialize (Hm ref).
  destruct (decide (ref ∈ _)) as [Hin|Hin].
  - destruct Hm as (vs & -> & Hv). apply fields_show; [done|]. by apply history_nonempty.
  - rewrite Hm, (history_empty _ _ Hin). reflexivity.
Qed.
Lemma load_fields_total refs l r e st : reads_only r → is_ok (load_fields refs l r e st).1 = true.
Proof.
  revert r st. induction refs as [|ref refs IH]; intros r st Hro; [done|]. cbn [load_fields].
  apply is_ok_bind; [by apply serialize_total|]. intros [vs r1] st1 (_ & Hro1 & _)%serialize_ok; [|done].
  apply is_ok_bind; [by apply IH|done].
Qed.
Lemma statuses_run t n domain rs e st :
  no_faults e → quiet_resolver rs →
  ∃ m st', loadPolicyDeliveryStatusByRef t n domain rs e st = (Ok m, st') ∧ st_db st' = st_db st ∧
    ∀ ref, shows (history_of ref (recent_deliveries t n domain (st_db st))) (applyPolicyDeliveryFields (m !! ref)).
Proof.
  intros Hf Hro. destruct (loadPolicyDeliveryStatusByRef t n domain rs e st) as [r st'] eqn:Hr.
  assert (is_ok r = true) as Hok.
  { change r with (r, st').1. rewrite <- Hr. unfold loadPolicyDeliveryStatusByRef.
    erewrite bind_run by (apply query_run; done). by apply load_fields_total. }
  destruct r as [m|]; [|done]. exists m, st'. split; [done|]. by eapply statuses_ok.
Qed.

Lemma known_or_total {A} (known : option (list A)) m : total (known_or known m).
Proof. destruct known; [done|]. apply total_bind; [apply total_attempt|done]. Qed.
Lemma map_each_total {A B} (f : A → M B) l : (∀ x, total (f x)) → total (map_each f l).
Proof. intros Hf. induction l as [|x l IH]; [done|]. cbn [map_each]. by apply total_bind; [|intros; apply total_bind]. Qed.
Lemma group_cidrs_total t gid g : total (policyIPGroupCIDRs t gid g).
Proof.
  unfold policyIPGroupCIDRs. apply total_bind; [|done]. destruct g, gid; [done..| |done].
  apply total_bind; [apply total_attempt|done].
Qed.
Lemma node_resolver_quiet t n ka kq : quiet_resolver (policyDeliveryErrorResolverForNodeRules t n ka kq).
Proof.
  split; [apply (usages_read (same id) t n)|]. unfold policyDeliveryErrorResolverForNodeRules, policyCIDRUsagesForNode, aclPolicyCIDRUsages, qosPolicyCIDRUsages, acl_usages, qos_usages.
  cbn [rs_read].
  repeat match goal with
  | |- total (_ ≫= _) => apply total_bind; [|intros ?]
  | |- total (map_each _ _) => apply map_each_total; intros ?
  | |- total (mret _) => apply total_ret
  | |- _ => first [apply known_or_total | apply group_cidrs_total]
  end.
Qed.

Lemma or_internal_run {A} message (m : M A) e st a st' :
  m e st = (Ok a, st') → or_internal message m e st = (Ok a, st').
Proof. intros Hm. unfold or_internal. by erewrite bind_run by (apply attempt_run, Hm). Qed.

(** What the page of a domain lists: the rules in their order, each with its key,
    the statistics of the last report and its deliveries. *)
Definition lists_rules {A} (domain : string) (id : A → string) (rule_stats : NodePolicyStats → UUID → option metrics)
    (rules : list A) (t n : UUID) (db : DB) (page : list (Listed A)) : Prop :=
  li_item <$> page = rules ∧
  Forall (λ x, let ref := id (li_item x) in
    li_policy_ref x = ref ∧ li_policy_id x = domain +:+ ":" +:+ ref ∧
    li_stats x = (s ← stats_of t n db; rule_stats s ref) ∧
    shows (history_of ref (recent_deliveries t n domain db)) (li_fields x)) page.
Lemma lists_rules_listed {A} domain (id : A → string) rule_stats rules t n db m :
  (∀ ref, shows (history_of ref (recent_deliveries t n domain db)) (applyPolicyDeliveryFields (m !! ref))) →
  lists_rules domain id rule_stats rules t n db
    (listed domain id m <$> ((λ rule, (rule, s ← stats_of t n db; rule_stats s (id rule))) <$> rules)).
Proof.
  intros Hm. split.
  - rewrite <- !list_fmap_compose. by apply list_fmap_id.
  - apply Forall_fmap, Forall_fmap, Forall_true. intros x. cbn. by split_and!.
Qed.

(** Both pages read the rules, then the statistics, and attach what
    [loadPolicyDeliveryStatusByRef] found. *)
Lemma listing_run {A} (list_rules : M (list A)) rule_stats rs domain (id : A → string) msg msg' msg'' rules t n e st :
  no_faults e → list_rules e st = (Ok rules, mkSt (st_db st) (S (st_tick st))) → (∀ l, quiet_resolver (rs l)) →
  ∃ page st', (l ← or_internal msg list_rules;
      l ← or_internal msg' (attachRuleStats rule_stats id t n l);
      or_internal msg'' (m ← loadPolicyDeliveryStatusByRef t n domain (rs l); mret (listed domain id m <$> l))) e st
    = (Ok page, st') ∧ st_db st' = st_db st ∧ lists_rules domain id rule_stats rules t n (st_db st) page.
Proof.
  intros Hf Hl Hrs. set (l := (λ rule, (rule, s ← stats_of t n (st_db st); rule_stats s (id rule))) <$> rules).
  destruct (statuses_run t n domain (rs l) e (mkSt (st_db st) (S (S (st_tick st)))) Hf (Hrs _))
    as (m & st' & Hm & Hdb & Hs).
  exists (listed domain id m <$> l), st'. split; [|split; [done|by apply lists_rules_listed, Hs]].
  erewrite bind_run by (apply or_internal_run, Hl).
  erewrite bind_run by (apply or_internal_run; unfold attachRuleStats, GetNodePolicyStats;
    erewrite bind_run by (apply query_run; done); reflexivity).
  apply or_internal_run. fold l. by erewrite bind_run by exact Hm.
Qed.

(** The pages of the ACL and of the QoS rules of a node answer and change
    nothing.  They list the rules of the node in the order of their priority, and
    each rule shows the statistics of the last report and its own deliveries among
    the hundred newest ones of the node: the status is that of the newest of them and the number of pending commands
    counts those still under way; a rule without one is idle.  Where a message that
    names the rules that use a network stands in for the error the agent reported,
    the text of the report is shown beside it. *)
Theorem rules_show_deliveries t n e st :
  no_faults e →
  (∃ page st', listTenantNodeACLs t n e st = (Ok page, st') ∧ st_db st' = st_db st ∧
    lists_rules "acl" a_ID ACLRuleStats ((λ kr, scanACLRuleRecord kr.1 kr.2) <$>
      SliceStable acl_before (select_where (acl_of t n) (acl_rules (st_db st)))) t n (st_db st) page) ∧
  (∃ page st', listTenantNodeQoS t n e st = (Ok page, st') ∧ st_db st' = st_db st ∧
    lists_rules "qos" q_ID QoSRuleStats ((λ kr, scanQoSRule kr.1 kr.2) <$>
      SliceStable qos_before (select_where (qos_of t n) (qos_rules (st_db st)))) t n (st_db st) page).
Proof.
  intros Hf. split.
  - apply listing_run; [done| |intros; apply node_resolver_quiet].
    unfold ListTenantNodeACLRules, listTenantNodeACLRules. rewrite query_run by done. do 2 f_equal.
    by rewrite (select_where_ext _ (acl_of t n)) by (intros; apply andb_true_r).
  - apply listing_run; [done| |intros; apply node_resolver_quiet].
    unfold ListTenantNodeQoSRules, listTenantNodeQoSRules. rewrite query_run by done. do 2 f_equal.
    by rewrite (select_where_ext _ (qos_of t n)) by (intros; apply andb_true_r).
Qed.
End spec.

(** Two rules use a network; the delivery of the first failed because of it. *)
Definition conflict_db : DB :=
  let acl name := mkACLRow "t1" "n1" name "deny" None None (Some (mkPrefix (mkAddr true 167772160 "") 8)) None None 6
    "ingress" "" 10 true "" (mkPrefix (mkAddr true 167772160 "") 8) (mkPrefix (mkAddr true 0 "") 0) 0 65535 0 0 in
  let delivery status error created := mkDeliveryRow "t1" "n1" "acl" "r1" (Some "web") "upsert" "c1" status error ∅
    None created created in
  empty_db <| acl_rules := <["r1" := acl "web"]> {["r2" := acl "db"]} |>
    <| policy_deliveries :=
         <["d1" := delivery "completed" None 1]>
         {["d2" := delivery "failed" (Some "CIDR 10.0.0.0/8 already belongs to runtime group 3") 2]} |>.
Definition shown (page : list (Listed ACLRuleRecord)) : list (string * string * Z * nat) :=
  (λ x, (li_policy_id x, df_status (li_fields x), df_pending (li_fields x), length (df_history (li_fields x)))) <$> page.
Lemma rules_show_deliveries_example :
  ∃ page st', @listTenantNodeACLs go_cidr "t1" "n1" (env_at 3) (mkSt conflict_db 0) = (Ok page, st') ∧
    st_db st' = conflict_db ∧
    shown page = [("acl:r1", "error", 0, 2%nat); ("acl:r2", "idle", 0, O)] ∧
    df_lastError ∘ li_fields <$> page
    = [("CIDR 10.0.0.0/8 已被 ACL 策略 " +:+ Quote "db" +:+ " 使用，请修改或删除该策略后再同步。")%string; ""%string].
Proof.
  assert (no_faults (env_at 3)) as Hf by (intros n; reflexivity).
  destruct (proj1 (@rules_show_deliveries go_cidr "t1" "n1" (env_at 3) (mkSt conflict_db 0) Hf))
    as (page & st' & Hr & Hdb & _).
  exists page, st'. split; [exact Hr|]. split; [exact Hdb|].
  assert (match (@listTenantNodeACLs go_cidr "t1" "n1" (env_at 3) (mkSt conflict_db 0)).1 with
          | Ok page => shown page = [("acl:r1", "error", 0, 2%nat); ("acl:r2", "idle", 0, O)] ∧
              df_lastError ∘ li_fields <$> page
    = [("CIDR 10.0.0.0/8 已被 ACL 策略 " +:+ Quote "db" +:+ " 使用，请修改或删除该策略后再同步。")%string; ""%string]
          | Err _ => False end) as Hc by (vm_compute; split; reflexivity).
  rewrite Hr in Hc. exact Hc.
Defined.
