(* ===== verification/MetricsSpec.v ===== *)
(** * What becomes of the metrics of an agent

    A report that succeeds is a heartbeat of the node, and the pages of its rules
    then show exactly the numbers the report has for each rule. *)

From Stdlib Require Import SpecFloat.
From S2P Require Import Prelude GoStr Netip Records CidrColumn Store Events Tokens ControlState AgentCommands PolicySync Nodes NodesSpec IPGroups PolicyRules RuntimeAuth AgentSync Metrics DeliveryStatus DeliveryStatusSpec.

Open Scope Z_scope.

(** ** The keys of a report *)

Fixpoint join_char (sep : ascii) (fields : list text) : text :=
  match fields with
  | [] => []
  | [f] => f
  | f :: fields => f ++ sep :: join_char sep fields
  end.
Lemma join_split_char sep l : join_char sep (split_char sep l) = l.
Proof.
  induction l as [|c l IH]; [done|]. cbn [split_char].
  destruct (Ascii.eqb_spec c sep) as [->|Hc].
  - cbn [join_char]. destruct (split_char sep l) eqn:Hs; [by destruct l as [|d l]; [|cbn [split_char] in Hs; repeat case_match]|].
    rewrite IH. done.
  - destruct (split_char sep l) as [|f fs] eqn:Hs; [cbn in IH; by rewrite <- IH|].
    rewrite <- IH. by destruct fs.
Qed.
Lemma Split_inj s s' sep : Split s sep = Split s' sep → s = s'.
Proof.
  unfold Split. intros Heq. apply (f_equal (fmap String.list_ascii_of_string)) in Heq.
  rewrite <- !list_fmap_compose in Heq.
  rewrite !(list_fmap_ext (String.list_ascii_of_string ∘ String.string_of_list_ascii) id) in Heq
    by (intros; apply String.list_ascii_of_string_of_list_ascii).
  rewrite !list_fmap_id in Heq. apply (f_equal (join_char sep)) in Heq. rewrite !join_split_char in Heq.
  rewrite <- (String.string_of_list_ascii_of_string s), Heq. apply String.string_of_list_ascii_of_string.
Qed.

(** ** The loop over the metrics *)

(** A report has a number for a metric of a rule. *)
Definition reports (domain : string) (allowed : string → bool) (reported : metrics) (rule metric : string)
    (v : spec_float) : Prop :=
  ∃ key, reported !! key = Some v ∧ Split key "." = [domain; rule; metric] ∧ TrimSpace rule ≠ "" ∧ allowed metric = true.
(** [rules] has exactly these numbers, and no rule without one. *)
Definition rules_hold (domain : string) (allowed : string → bool) (reported : metrics) (rules : gmap string metrics) : Prop :=
  (∀ rule metric v, (m ← rules !! rule; m !! metric) = Some v ↔ reports domain allowed reported rule metric v) ∧
  (∀ rule m, rules !! rule = Some m → m ≠ ∅).

Lemma set_rule_metric_lookup rules r m v r' m' :
  (x ← set_rule_metric r m v rules !! r'; x !! m') =
  if decide (r = r' ∧ m = m') then Some v else (x ← rules !! r'; x !! m').
Proof.
  unfold set_rule_metric. destruct (decide (r = r')) as [<-|Hr].
  - rewrite lookup_insert_eq. cbn. destruct (decide (m = m')) as [<-|Hm].
    + by rewrite lookup_insert_eq, decide_True.
    + rewrite lookup_insert_ne, decide_False by naive_solver. by destruct (rules !! r).
  - rewrite lookup_insert_ne, decide_False by naive_solver. done.
Qed.
Lemma rules_hold_set domain allowed reported rules key r m v :
  rules_hold domain allowed reported rules → reported !! key = None →
  Split key "." = [domain; r; m] → TrimSpace r ≠ "" → allowed m = true →
  rules_hold domain allowed (<[key := v]> reported) (set_rule_metric r m v rules).
Proof.
  intros [Hr Hne] Hkey Hs Hb Ha. split.
  - intros r' m' v'. rewrite set_rule_metric_lookup. destruct (decide _) as [[<- <-]|Hd].
    + split; [intros [= <-]; exists key; by rewrite lookup_insert_eq|].
      intros (key' & Hl & Hs' & _). assert (key' = key) as -> by (apply (Split_inj _ _ "."); congruence).
      by rewrite lookup_insert_eq in Hl.
    + rewrite Hr. unfold reports. split; intros (key' & Hl & Hs' & ? & ?); exists key'; split_and!; try done.
      * rewrite lookup_insert_ne; [done|]. intros <-. congruence.
      * rewrite lookup_insert_ne in Hl; [done|]. intros <-. apply Hd. rewrite Hs in Hs'. by injection Hs'.
  - intros r' m'. unfold set_rule_metric. rewrite lookup_insert_Some. intros [[_ <-]|[_ Hl]]; [|by eapply Hne].
    apply insert_non_empty.
Qed.
Lemma rules_hold_skip domain allowed reported rules key v :
  rules_hold domain allowed reported rules → reported !! key = None →
  (∀ r m, Split key "." = [domain; r; m] → TrimSpace r = "" ∨ allowed m = false) →
  rules_hold domain allowed (<[key := v]> reported) rules.
Proof.
  intros [Hr Hne] Hkey Hskip. split; [|done]. intros r m w. rewrite Hr. unfold reports.
  split; intros (key' & Hl & Hs & Hb & Ha); exists key'; split_and!; try done.
  - rewrite lookup_insert_ne; [done|]. intros <-. congruence.
  - rewrite lookup_insert_ne in Hl; [done|]. intros <-. destruct (Hskip _ _ Hs); congruence.
Qed.

Lemma rule_metrics_hold reported :
  let acc := map_fold add_rule_metric (∅, ∅) reported in
  rules_hold "acl_rule" allowedACLRuleStatMetric reported acc.1 ∧
  rules_hold "qos_rule" allowedQoSRuleStatMetric reported acc.2.
Proof.
  cbv zeta. apply (map_fold_weak_ind (λ (acc : gmap string metrics * gmap string metrics) reported,
    rules_hold "acl_rule" allowedACLRuleStatMetric reported acc.1 ∧
    rules_hold "qos_rule" allowedQoSRuleStatMetric reported acc.2)).
  { assert (∀ d a, rules_hold d a ∅ ∅) as He; [|by split].
    intros d a. split; [|by intros r m Hl; rewrite lookup_empty in Hl].
    intros r m v. rewrite lookup_empty. split; [done|]. intros (k & Hk & _). by rewrite lookup_empty in Hk. }
  intros key v reported' [a q] Hkey [Ha Hq]. cbn [fst snd] in *.
  assert (∀ d al rules, rules_hold d al reported' rules →
    (∀ r m, Split key "." = [d; r; m] → TrimSpace r = "" ∨ al m = false) →
    rules_hold d al (<[key:=v]> reported') rules) as Hskip by (intros; by apply rules_hold_skip).
  assert (∀ d al rules, rules_hold d al reported' rules → (∀ r m, Split key "." ≠ [d; r; m]) →
    rules_hold d al (<[key:=v]> reported') rules) as Hother by (intros ???? Hn; apply Hskip; [done|]; intros ?? Hs; by destruct (Hn _ _ Hs)).
  unfold add_rule_metric. destruct (Split key ".") as [|d [|r [|m [|]]]] eqn:Hs; [by split; apply Hother..| |by split; apply Hother].
  destruct (String.eqb_spec (TrimSpace r) "") as [Hb|Hb].
  { split; (apply Hskip; [done|]); intros ?? [= -> -> ->]; by left. }
  destruct (String.eqb_spec d "acl_rule") as [->|Hd].
  { destruct (allowedACLRuleStatMetric m) eqn:Hm; cbn [fst snd]; (split; [|by apply Hother]); [by apply rules_hold_set|].
    apply Hskip; [done|]. intros ?? [= -> ->]. by right. }
  destruct (String.eqb_spec d "qos_rule") as [->|Hd']; [|split; (apply Hother; [done|]); congruence].
  destruct (allowedQoSRuleStatMetric m) eqn:Hm; cbn [fst snd]; (split; [by apply Hother|]); [by apply rules_hold_set|].
  apply Hskip; [done|]. intros ?? [= -> ->]. by right.
Qed.

(** ** What is kept *)

Definition rule_stats_of (stats : policy_stats) (domain rule : string) : option metrics :=
  match stats !! domain with Some (StatRules rules) => rules !! rule | _ => None end.
Lemma with_rules_lookup key rules stats k :
  with_rules key rules stats !! k =
  if decide (key = k) then if bool_decide (rules = ∅) then stats !! k else Some (StatRules rules) else stats !! k.
Proof.
  unfold with_rules. case_bool_decide; [by destruct (decide _)|].
  destruct (decide (key = k)) as [<-|]; [apply lookup_insert_eq|by apply lookup_insert_ne].
Qed.
Lemma rules_entry rules rule :
  match (if bool_decide (rules = ∅) then None else Some (StatRules rules)) with
  | Some (StatRules rules) => rules !! rule | _ => None end = rules !! rule :> option metrics.
Proof. case_bool_decide; [by subst|done]. Qed.
Lemma stats_rules now reported rule metric v :
  let stats := policyStatsFromCustomMetrics now reported in
  ((m ← rule_stats_of stats "acl_rules" rule; m !! metric) = Some v ↔
     reports "acl_rule" allowedACLRuleStatMetric reported rule metric v) ∧
  ((m ← rule_stats_of stats "qos_rules" rule; m !! metric) = Some v ↔
     reports "qos_rule" allowedQoSRuleStatMetric reported rule metric v).
Proof.
  cbv zeta. unfold policyStatsFromCustomMetrics. pose proof (rule_metrics_hold reported) as [[Ha _] [Hq _]].
  destruct (map_fold add_rule_metric (∅, ∅) reported) as [a q]. cbn [fst snd] in *.
  rewrite <- Ha, <- Hq. set (top := StatNumber <$> _).
  assert (∀ k, bool_decide (k ∈ node_metrics) = false → top !! k = None) as Htop.
  { intros k Hk%bool_decide_eq_false. unfold top. rewrite lookup_fmap. destruct (filter _ reported !! k) eqn:Hf; [|done].
    by apply map_lookup_filter_Some in Hf as [_ ?]. }
  set (W := with_rules "qos_rules" q _).
  assert (W !! "acl_rules" = if bool_decide (a = ∅) then None else Some (StatRules a)) as Hwa.
  { unfold W. rewrite !with_rules_lookup. cbn. by rewrite Htop by reflexivity. }
  assert (W !! "qos_rules" = if bool_decide (q = ∅) then None else Some (StatRules q)) as Hwq.
  { unfold W. rewrite !with_rules_lookup. cbn. by rewrite Htop by reflexivity. }
  cut (∀ k rules, W !! k = (if bool_decide (rules = ∅) then None else Some (StatRules rules)) → k ≠ "reported_at" →
    rule_stats_of (if (size W =? 0)%nat then ∅ else <["reported_at" := StatText (RFC3339 now)]> W) k rule = rules !! rule).
  { intros Hr. by rewrite (Hr _ _ Hwa), (Hr _ _ Hwq). }
  intros k rules Hk Hne. unfold rule_stats_of. rewrite <- (rules_entry rules rule), <- Hk.
  destruct (size W =? 0)%nat eqn:Hz; [|by rewrite lookup_insert_ne by done].
  apply Nat.eqb_eq, map_size_empty_iff in Hz. by rewrite Hz.
Qed.

(** ** The handler *)

Lemma heartbeat_row id now e st u st' : UpdateNodeHeartbeat id now e st = (Ok u, st') →
  ∀ r, nodes (st_db st) !! id = Some r → ∃ r', nodes (st_db st') !! id = Some r' ∧
    n_status r' = Some "online" ∧ n_last_seen r' = now ∧ n_offline_since r' = None.
Proof.
  unfold UpdateNodeHeartbeat, update_nodes. intros Hr r Hrow.
  apply bind_ok in Hr as (n & st1 & [Hn Hdb]%exec_ok & Hr). destruct (n =? 0) eqn:Hz; [done|]. injection Hr as _ <-.
  rewrite Hdb. simpl. rewrite lookup_update_where, Hrow. simpl. rewrite String.eqb_refl. cbn [andb].
  destruct (status_not_in stopped_statuses r) eqn:Hs; [by eexists|]. exfalso. apply Z.eqb_neq in Hz. apply Hz.
  rewrite Hn. simpl. apply count_where_0. intros k r' Hk. destruct (String.eqb_spec k id) as [-> |]; [|done].
  by simplify_eq.
Qed.

Lemma heartbeat_stats id now e st u st' : UpdateNodeHeartbeat id now e st = (Ok u, st') →
  node_policy_stats (st_db st') = node_policy_stats (st_db st).
Proof.
  unfold UpdateNodeHeartbeat, update_nodes. intros Hr.
  apply bind_ok in Hr as (n & st1 & [_ Hdb]%exec_ok & Hr). destruct (n =? 0); [done|]. injection Hr as _ <-. by rewrite Hdb.
Qed.

(** What a number of the report is shown as: zero has no sign. *)
Definition shown_numbers (reports : string → spec_float → Prop) (stats : option metrics) : Prop :=
  ∀ metric v, (m ← stats; m !! metric) = Some v ↔ ∃ w, reports metric w ∧ v = stored_number w.

Section metrics.
Context (uuid_Parse : string → option UUID) `{CidrText}.

Lemma upsert_stats_ok t n stats e st u st' :
  UpsertNodePolicyStats t n stats e st = (Ok u, st') →
  nodes (st_db st') = nodes (st_db st) ∧
  stats_of t n (st_db st') = Some (mkNodePolicyStats t n (stored_stat <$> stats) (env_now e)).
Proof.
  unfold UpsertNodePolicyStats. destruct (negb _); [done|]. intros (Hf & _)%stmt_ok.
  destruct (negb _); [done|]. injection Hf as _ <-. split; [done|]. unfold stats_of, set_stats. simpl.
  rewrite lookup_insert_eq. cbn [mbind option_bind ns_tenant_id ns_stats ns_updated_at]. by rewrite String.eqb_refl.
Qed.
Lemma stored_rule_stats t n stats now domain rule :
  nestedPolicyRuleStats (mkNodePolicyStats t n (stored_stat <$> stats) now) domain rule =
  (λ m : metrics, stored_number <$> m) <$> rule_stats_of stats domain rule.
Proof.
  unfold nestedPolicyRuleStats, rule_stats_of. cbn [nps_Stats]. rewrite lookup_fmap.
  destruct (stats !! domain) as [[]|]; cbn; [done..| |done]. by rewrite lookup_fmap.
Qed.
Lemma shown_numbers_stored (stats : option metrics) (P : string → spec_float → Prop) :
  (∀ metric v, (m ← stats; m !! metric) = Some v ↔ P metric v) →
  shown_numbers P ((λ m : metrics, stored_number <$> m) <$> stats).
Proof.
  intros Hs metric v. destruct stats as [m|]; cbn.
  - rewrite lookup_fmap, fmap_Some. setoid_rewrite <- Hs. cbn. naive_solver.
  - split; [done|]. intros (w & Hw & _). by apply Hs in Hw.
Qed.

(** C30. A report of metrics that succeeds reaches the pages.  The node it is from
    is online, seen at that moment.  If the report has any number the controller
    keeps, the pages of the ACL and of the QoS rules of the node answer next, no
    statement failing, and each rule they list shows exactly the numbers the report
    has under its identifier for the metrics its kind allows, none of an earlier
    report.  A report without any leaves the statistics of every node as they are
    stored, so the numbers of an earlier report of the node stay on show. *)
Theorem metrics_reach_rules ctx req e st message st' e' :
  ReportMetrics uuid_Parse ctx req e st = (Ok (mkMetricsReportResponse true message), st') → no_faults e' →
  ∃ node row, uuid_Parse (RuntimeNodeID ctx) = Some (N_ID node) ∧ uuid_Parse (RuntimeTenantID ctx) = Some (N_TenantID node) ∧
    nodes (st_db st') !! N_ID node = Some row ∧
    n_status row = Some "online" ∧ n_last_seen row = unix (env_go_now e) ∧
    (policyStatsFromCustomMetrics (env_go_now e) (mr_CustomMetrics req) = ∅ →
     node_policy_stats (st_db st') = node_policy_stats (st_db st)) ∧
    (policyStatsFromCustomMetrics (env_go_now e) (mr_CustomMetrics req) ≠ ∅ →
     (∃ page st2, listTenantNodeACLs (N_TenantID node) (N_ID node) e' st' = (Ok page, st2) ∧
       ∀ x, x ∈ page → shown_numbers (reports "acl_rule" allowedACLRuleStatMetric (mr_CustomMetrics req) (a_ID (li_item x)))
                         (li_stats x)) ∧
     (∃ page st2, listTenantNodeQoS (N_TenantID node) (N_ID node) e' st' = (Ok page, st2) ∧
       ∀ x, x ∈ page → shown_numbers (reports "qos_rule" allowedQoSRuleStatMetric (mr_CustomMetrics req) (q_ID (li_item x)))
                         (li_stats x))).
Proof.
  unfold ReportMetrics. intros Hr Hf.
  apply bind_ok in Hr as (r & st1 & Hres & Hr). unfold attempt in Hres.
  destruct (resolveMetricsNodeForRequest _ _ _ _ _ e st) as [[node|x] st1'] eqn:Hnode; injection Hres as <- <-; [|done].
  apply bind_ok in Hr as (now & st2 & Hnow & Hr). injection Hnow as <- <-.
  apply bind_ok in Hr as (u & st3 & Hbeat%wrap_ok & Hr).
  apply bind_ok in Hr as (u' & st4 & Hup & Hr). injection Hr as <- <-.
  unfold resolveMetricsNodeForRequest in Hnode. apply bind_ok in Hnode as (n0 & st0 & Hn0 & Hb).
  apply resolveMetricsNode_finds in Hn0 as (Hdb0 & _ & row0 & Hrow0 & _).
  apply bind_and_check_ok in Hb as (-> & Hdb1 & Hid & Hten).
  rewrite <- Hdb0, <- Hdb1 in Hrow0. destruct (heartbeat_row _ _ _ _ _ _ Hbeat _ Hrow0) as (row & Hrow & Hst & Hseen & _).
  set (stats := policyStatsFromCustomMetrics _ _) in *.
  destruct (Nat.ltb_spec 0 (size stats)) as [Hz|Hz].
  - apply wrap_ok, upsert_stats_ok in Hup as [Hnodes Hstats].
    exists n0, row. rewrite Hnodes. split_and!; [done..| |].
    { intros Hk. apply map_size_empty_iff in Hk. fold stats in Hk. lia. }
    intros _. destruct (rules_show_deliveries (N_TenantID n0) (N_ID n0) e' st4 Hf)
      as [(page & s2 & Hpage & _ & _ & Hl) (page' & s2' & Hpage' & _ & _ & Hl')].
    rewrite Hstats in Hl, Hl'. cbn [mbind option_bind] in Hl, Hl'.
    split; [exists page, s2; split; [done|]|exists page', s2'; split; [done|]].
    + intros x Hx. rewrite Forall_forall in Hl. destruct (Hl x Hx) as (_ & _ & Hs & _). rewrite Hs.
      unfold ACLRuleStats. rewrite stored_rule_stats. apply shown_numbers_stored. intros metric v. apply stats_rules.
    + intros x Hx. rewrite Forall_forall in Hl'. destruct (Hl' x Hx) as (_ & _ & Hs & _). rewrite Hs.
      unfold QoSRuleStats. rewrite stored_rule_stats. apply shown_numbers_stored. intros metric v. apply stats_rules.
  - injection Hup as _ <-. exists n0, row. split_and!; [done..| |].
    { intros _. rewrite (heartbeat_stats _ _ _ _ _ _ Hbeat). by rewrite Hdb1, Hdb0. }
    intros Hne. exfalso. apply Hne, map_size_empty_iff. lia.
Qed.

(** A number that JSON cannot render fails the report; the statistics stay. *)
Lemma infinite_report_refused t n stats e st :
  ¬ map_Forall (λ _, finite_stat) stats →
  ∃ x, UpsertNodePolicyStats t n stats e st = (Err x, st).
Proof. intros Hn. unfold UpsertNodePolicyStats. rewrite bool_decide_false by done. by eexists. Qed.
End metrics.

(** A node with one rule reports on it, on a rule it does not have, and on itself. *)
Definition metrics_db : DB :=
  let acl name := mkACLRow "t1" "n1" name "deny" None None None None None 6 "ingress" "" 10 true ""
    (mkPrefix (mkAddr true 0 "") 0) (mkPrefix (mkAddr true 0 "") 0) 0 65535 0 0 in
  sync_db <| acl_rules := {["r1" := acl "web"]} |>.
Definition demo_report : MetricsReportRequest :=
  mkMetricsReportRequest "n1" "k1" ""
    (list_to_map [("acl_packets", S754_finite false 5 0); ("acl_rule.r1.packets", S754_finite false 7 0);
                  ("acl_rule.r1.owner", S754_finite false 1 0); ("acl_rule.r9.bytes", S754_zero true)]).
Lemma metrics_reach_rules_witness :
  ∃ message st' page st2 stats,
    ReportMetrics Some (mkRuntimeContext "n1" "t1") demo_report (env_at 5000000) (mkSt metrics_db 0)
      = (Ok (mkMetricsReportResponse true message), st') ∧
    @listTenantNodeACLs go_cidr "t1" "n1" (env_at 6000000) st' = (Ok page, st2) ∧
    li_stats <$> page = [Some stats] ∧
    (∀ v, stats !! "packets" = Some v ↔ v = S754_finite false 7 0).
Proof.
  assert (no_faults (env_at 6000000)) as Hf by (intros n; reflexivity).
  set (run := ReportMetrics Some (mkRuntimeContext "n1" "t1") demo_report (env_at 5000000) (mkSt metrics_db 0)).
  assert (run = (Ok (mkMetricsReportResponse true "Metrics reported successfully"), run.2)) as Hr
    by (vm_compute; reflexivity).
  assert (match (@listTenantNodeACLs go_cidr "t1" "n1" (env_at 6000000) run.2).1 with
          | Ok page => (λ x, (a_ID (li_item x), size <$> li_stats x)) <$> page = [("r1", Some 1%nat)]
          | Err _ => False end) as Hpage by (vm_compute; reflexivity).
  assert (policyStatsFromCustomMetrics (env_go_now (env_at 5000000)) (mr_CustomMetrics demo_report) ≠ ∅) as Hkept.
  { intros Hk. apply map_size_empty_iff in Hk. vm_compute in Hk. discriminate Hk. }
  destruct (@metrics_reach_rules Some go_cidr (mkRuntimeContext "n1" "t1") demo_report (env_at 5000000)
    (mkSt metrics_db 0) _ _ (env_at 6000000) Hr Hf) as (node & row & Hid & Hten & _ & _ & _ & _ & Hpages).
  injection Hid as Hid. injection Hten as Hten. destruct (Hpages Hkept) as [(page & st2 & Hl & Hshown) _].
  rewrite <- Hid, <- Hten in Hl. rewrite Hl in Hpage. cbn [fst] in Hpage.
  destruct page as [|x [|]]; try discriminate Hpage. injection Hpage as Hrule Hsize.
  specialize (Hshown x (list_elem_of_here _ _)). rewrite Hrule in Hshown.
  destruct (li_stats x) as [stats|] eqn:Hs; [|discriminate Hsize].
  exists "Metrics reported successfully", run.2, [x], st2, stats.
  split; [exact Hr|]. split; [exact Hl|]. split; [cbn; by rewrite Hs|].
  intros v. rewrite (Hshown "packets" v). split.
  - intros (w & (key & Hkey & Hsplit & _) & ->).
    assert (key = "acl_rule.r1.packets") as -> by (apply (Split_inj _ _ "."); rewrite Hsplit; reflexivity).
    vm_compute in Hkey. injection Hkey as <-. reflexivity.
  - intros ->. exists (S754_finite false 7 0). split; [|reflexivity].
    exists "acl_rule.r1.packets". split_and!; [reflexivity|reflexivity|discriminate|reflexivity].
Defined.
