(* ===== verification/PolicyPages.v ===== *)
(** * The pages of policies

    The reading side of [internal/api/v2/setup.go] and [security.go]: the rules and
    routes of a node, the policies of a tenant with their deliveries, and the status
    of deliveries by reference. *)

From S2P Require Import Prelude GoStr Netip Records CidrColumn Store Events Tokens ControlState AgentCommands PolicySync Nodes IPGroups PolicyRules RuntimeAuth Sessions Access Dispatch PolicyValidation PolicyAdmin NodeAdmin Monitoring Metrics DeliveryStatus.

Open Scope Z_scope.

Definition PermPoliciesRead : string := "policies:read".

(** ** Deliveries of items *)

(** What [attachPolicyDeliveriesToItems] sets. *)
Record ItemDeliveries := mkItemDeliveries {
  id_policy_ref : string;
  id_policy_id : string;
  id_policy_domain : string;
  id_policy_status : string;
  id_pending_cmds : Z;
  id_last_delivery : option DeliveryView;
  id_delivery_history : list DeliveryView;
}.
Definition item_deliveries (domain ref : string) (history : list PolicyDelivery) (views : list DeliveryView)
    : ItemDeliveries :=
  let item := mkItemDeliveries ref (domain +:+ ":" +:+ ref) domain in
  match history with
  | [] => item "idle" 0 None []
  | d :: _ => item (mapCommandStatusToPolicyStatus (d_CommandStatus d)) (pending_of history) (head views) views
  end.
(** The loop over the items, by their references; an item without one gets an empty
    history and nothing else. *)
Fixpoint attach_items (domain : string) (refs : list string) (deliveries : list PolicyDelivery) (r : option resolver)
    : M (list (option ItemDeliveries)) :=
  match refs with
  | [] => mret []
  | ref :: refs =>
    if (ref =? "")%string then rest ← attach_items domain refs deliveries r; mret (None :: rest) else
    let history := history_of ref deliveries in
    '(views, r) ← serialize history r;
    rest ← attach_items domain refs deliveries r;
    mret (Some (item_deliveries domain ref history views) :: rest)
  end.
Definition attachPolicyDeliveriesToItems (tenantID nodeID : UUID) (domain : string) (refs : list string)
    (r : option resolver) : M (list (option ItemDeliveries)) :=
  if bool_decide (refs = []) then mret [] else
  deliveries ← ListPolicyDeliveriesByNodeAndDomain tenantID nodeID domain 100;
  attach_items domain refs deliveries r.

(** ** Policies of a tenant *)

Inductive policy_detail :=
  | ACLDetail (src_net dst_net action direction ports : string) (priority : Z)
  | QoSDetail (src_cidr dst_cidr : string) (src_port dst_port protocol bandwidth_mbps : Z) (direction : string)
      (rate_bps burst_bytes priority : Z) (mode : string)
  | RouteDetail.
Record PolicyItem := mkPolicyItem {
  pi_id : string;
  pi_node_id : UUID;
  pi_node_name : string;
  pi_kind : string;
  pi_name : string;
  pi_detail : policy_detail;
  pi_enabled : bool;
  pi_times : option (Time * Time);         (* created_at and updated_at *)
  pi_deliveries : option ItemDeliveries;
}.
Definition policy_node_name (node : Node) : string := firstNonEmpty [N_Hostname node; N_PublicKey node].

Section policies.
Context `{CidrText}.

Definition acl_policy (node : Node) (rule : ACLRuleRecord) : option ItemDeliveries → PolicyItem :=
  mkPolicyItem (a_ID rule) (N_ID node) (policy_node_name node) "acl" (a_Description rule)
    (ACLDetail (a_SrcCIDR rule) (a_DstCIDR rule) (a_Action rule) (a_Direction rule) (a_Ports rule) (a_Priority rule))
    (a_Enabled rule) (Some (a_CreatedAt rule, a_UpdatedAt rule)).
Definition buildTenantNodeACLPolicies (tenantID : UUID) (node : Node) : M (list PolicyItem) :=
  rules ← ListTenantNodeACLRules tenantID (N_ID node);
  ds ← attachPolicyDeliveriesToItems tenantID (N_ID node) "acl" (a_ID <$> rules)
         (Some (policyDeliveryErrorResolverForNodeRules tenantID (N_ID node) (Some rules) None));
  mret (zip_with (acl_policy node) rules ds).

(** The ports and the protocol are shown as zero. *)
Definition qos_policy (node : Node) (rule : QoSRuleRecord) : option ItemDeliveries → PolicyItem :=
  mkPolicyItem (q_ID rule) (N_ID node) (policy_node_name node) "qos" (q_Description rule)
    (QoSDetail (q_SrcCIDR rule) (q_DstCIDR rule) 0 0 0 (q_BandwidthMbps rule) (q_Direction rule) (q_RateBps rule)
       (q_BurstBytes rule) (q_Priority rule) (qosModeOrDefault (q_Mode rule)))
    (q_Enabled rule) (Some (q_CreatedAt rule, q_UpdatedAt rule)).
Definition buildTenantNodeQoSPolicies (tenantID : UUID) (node : Node) : M (list PolicyItem) :=
  rules ← wrap "failed to load QoS rules" (ListTenantNodeQoSRules tenantID (N_ID node));
  ds ← attachPolicyDeliveriesToItems tenantID (N_ID node) "qos" (q_ID <$> rules)
         (Some (policyDeliveryErrorResolverForNodeRules tenantID (N_ID node) None (Some rules)));
  mret (zip_with (qos_policy node) rules ds).

Definition route_policy (node : Node) (route : string) : option ItemDeliveries → PolicyItem :=
  mkPolicyItem route (N_ID node) (policy_node_name node) "route" route RouteDetail true None.
Definition buildTenantNodeRoutePolicies (tenantID : UUID) (node : Node) : M (list PolicyItem) :=
  ds ← attachPolicyDeliveriesToItems tenantID (N_ID node) "route" (N_AdvertisedRoutes node) None;
  mret (zip_with (route_policy node) (N_AdvertisedRoutes node) ds).

(** The three kinds of one node; an empty filter asks for all. *)
Definition of_kind {A} (kindFilter kind code message : string) (m : M (list A)) : M (list A) :=
  if (kindFilter =? "")%string || (kindFilter =? kind)%string then
    r ← attempt m; match r with Ok l => mret l | Err _ => write_error 500 code message end
  else mret [].
Definition node_policies (tenantID : UUID) (kindFilter : string) (node : Node) : M (list PolicyItem) :=
  _ ← failTimedOutNodeCommands node;
  a ← of_kind kindFilter "acl" "GET_ACL_RULES_FAILED" "Failed to load ACL policies"
        (buildTenantNodeACLPolicies tenantID node);
  q ← of_kind kindFilter "qos" "GET_LIMITS_FAILED" "Failed to load QoS policies"
        (buildTenantNodeQoSPolicies tenantID node);
  rt ← of_kind kindFilter "route" "GET_NODES_FAILED" "Failed to load route policies"
        (buildTenantNodeRoutePolicies tenantID node);
  mret (a ++ q ++ rt).

Definition parseNodeListPagination (q : params) : Z * Z :=
  (Z.min MaxNodeListLimit (query_number (q "limit") (Z.ltb 0) DefaultNodeListLimit),
   query_number (q "offset") (Z.ltb 0) 0).

Section requests.
Context (uuid_Parse : string → option UUID) (enforcement : string).

(** The nodes a listing is about: the one that is asked for, or a page of them. *)
Definition policy_nodes (nodeFilter : string) (tenantID : UUID) (limit offset : Z) : M (list Node) :=
  if negb (nodeFilter =? "")%string then
    node ← node_of_request uuid_Parse nodeFilter tenantID; mret [node]
  else
    r ← attempt (GetNodesByTenantPage tenantID limit offset);
    match r with Ok l => mret l | Err _ => write_error 500 "GET_NODES_FAILED" "Failed to load tenant nodes" end.
(** Any text but true asks for what is not enabled. *)
Definition enabled_kept (enabledFilter : string) (p : PolicyItem) : bool :=
  (enabledFilter =? "")%string || Bool.eqb (pi_enabled p) (enabledFilter =? "true")%string.
Definition listTenantPolicies (q : params) (tenantID : UUID) : M (Page PolicyItem) :=
  let kindFilter := TrimSpace (q "kind") in
  let nodeFilter := TrimSpace (q "node_id") in
  let enabledFilter := TrimSpace (q "enabled") in
  let '(limit, offset) := parseNodeListPagination q in
  nodes ← policy_nodes nodeFilter tenantID limit offset;
  policies ← map_each (node_policies tenantID kindFilter) nodes;
  let policies := List.filter (enabled_kept enabledFilter) (concat policies) in
  mret (mkPage policies (Z.of_nat (length policies)) limit offset).

(** [handleTenantPolicies] but for the path policies/retry. *)
Definition handleTenantPolicies (r : Request) (ctx : Context) (q : params) (tenantID : UUID) : M (Page PolicyItem) :=
  _ ← authorizeTenantPermission enforcement ctx tenantID PermPoliciesRead;
  if (Method r =? "GET")%string then listTenantPolicies q tenantID else method_not_allowed.

(** ** Status by reference *)

Record policyDeliveryStatusRequestItem := mkStatusItem {
  si_NodeID : string;
  si_PolicyDomain : string;
  si_PolicyRef : string;
}.
Definition policyStatusReadPermission (domain : string) : option string :=
  let d := ToLower (TrimSpace domain) in
  if (d =? "acl")%string then Some PermAclsRead
  else if (d =? "qos")%string then Some PermQosRead
  else if (d =? "route")%string then Some PermRoutesRead else None.
(** One round of the loop over the items: the reference and the permission. *)
Definition status_ref (item : policyDeliveryStatusRequestItem) : result (PolicyDeliveryRef * string) :=
  match uuid_Parse (TrimSpace (si_NodeID item)) with
  | None => Err (ErrorString "node_id must be a valid UUID")
  | Some nodeID =>
    let domain := ToLower (TrimSpace (si_PolicyDomain item)) in
    match policyStatusReadPermission domain with
    | None => Err (ErrorString "policy_domain must be acl, qos, or route")
    | Some permission =>
      let policyRef := TrimSpace (si_PolicyRef item) in
      if (policyRef =? "")%string || (255 <? String.length policyRef)%nat
      then Err (ErrorString "policy_ref must be 1-255 characters")
      else Ok (mkPolicyDeliveryRef nodeID domain policyRef, permission)
    end
  end.
Fixpoint status_refs (items : list policyDeliveryStatusRequestItem) : result (list (PolicyDeliveryRef * string)) :=
  match items with
  | [] => Ok []
  | item :: items => match status_ref item with
                     | Err x => Err x
                     | Ok r => match status_refs items with Ok rs => Ok (r :: rs) | Err x => Err x end
                     end
  end.
(** The set of permissions; the order of the loop over it is free. *)
Definition required_permissions (refs : list (PolicyDeliveryRef * string)) : list string := remove_dups refs.*2.
Record StatusItem := mkStatus {
  st_ref : PolicyDeliveryRef;
  st_policy_status : string;
  st_pending_cmds : Z;
  st_last_delivery : option DeliveryView;
}.
Definition status_item (deliveries : gmap PolicyDeliveryRef PolicyDelivery) (ref : PolicyDeliveryRef) : StatusItem :=
  match deliveries !! ref with
  | Some d => mkStatus ref (mapCommandStatusToPolicyStatus (d_CommandStatus d))
                (pendingCountForCommandStatus (d_CommandStatus d)) (Some (policyDeliveryToMap d))
  | None => mkStatus ref "idle" 0 None
  end.
Definition handleTenantPolicyDeliveries (r : Request) (ctx : Context)
    (body : option (list policyDeliveryStatusRequestItem)) (tenantID : UUID) : M (list StatusItem) :=
  let parts := splitPath (Path r) in
  if negb ((length parts =? 6)%nat && bool_decide (parts !! 4%nat = Some "policy-deliveries")
           && bool_decide (parts !! 5%nat = Some "status"))
  then write_error 404 "ENDPOINT_NOT_FOUND" "Unknown policy delivery endpoint" else
  if negb (Method r =? "POST")%string then method_not_allowed else
  match body with
  | None => bad_request "Invalid request body"
  | Some items =>
    if bool_decide (items = []) || (100 <? length items)%nat then invalid "items must contain 1-100 entries" else
    refs ← or_invalid (status_refs items);
    _ ← for_each (required_permissions refs) (λ permission,
          _ ← authorizeTenantAnyPermission enforcement ctx tenantID [permission; PermPoliciesRead]; mret ());
    deliveries ← or_internal "Failed to load policy delivery status" (ListLatestPolicyDeliveriesByRefs tenantID refs.*1);
    mret (status_item deliveries <$> refs.*1)
  end.

(** ** Policies of a node *)

Record RouteItem := mkRouteItem {
  rt_cidr : string;
  rt_tenant_id : UUID;
  rt_node_id : UUID;
  rt_node_name : string;
  rt_deliveries : option ItemDeliveries;
  rt_summary : option (string * string);      (* availability and convergence of the node *)
}.
(** [attachNodeSummaryToPolicyItems]: the status, the synchronisation status and
    the availability of the summary are the same. *)
Definition attachNodeSummaryToPolicyItems (items : list RouteItem) (summary : NodeSummary) : list RouteItem :=
  (λ i, mkRouteItem (rt_cidr i) (rt_tenant_id i) (rt_node_id i) (rt_node_name i) (rt_deliveries i)
          (Some (ns_availability_status summary, ns_state_convergence summary))) <$> items.
Definition listTenantNodeRoutes (tenantID : UUID) (node : Node) : M (list RouteItem) :=
  let routes := N_AdvertisedRoutes node in
  d ← attempt (attachPolicyDeliveriesToItems tenantID (N_ID node) "route" routes None);
  match d with
  | Err _ => write_error 500 "GET_NODES_FAILED" "Failed to load route delivery history"
  | Ok ds =>
    let items := zip_with (λ route d, mkRouteItem route tenantID (N_ID node)
                    (firstNonEmpty [N_Hostname node; N_PublicKey node; N_ID node]) d None) routes ds in
    s ← attempt (buildNodeOperationsSummary node);
    mret (match s with Ok summary => attachNodeSummaryToPolicyItems items summary | Err _ => items end)
  end.

Inductive policy_page :=
  | ACLPage (l : list (Listed ACLRuleRecord))
  | QoSPage (l : list (Listed QoSRuleRecord))
  | BlacklistPage (l : list BlacklistRuleRecord)
  | RoutePage (l : list RouteItem)
  | OneRoute (route : payload).
(** The GET requests of [handleTenantNodeACLs], [handleTenantNodeBlacklist],
    [handleTenantNodeQoS] and [handleTenantNodeRoutes]. *)
Definition read_acls (ctx : Context) (tenantID : UUID) (node : Node) : M policy_page :=
  _ ← authorizeTenantPermission enforcement ctx tenantID PermAclsRead;
  _ ← failTimedOutNodeCommands node;
  l ← listTenantNodeACLs tenantID (N_ID node); mret (ACLPage l).
Definition read_blacklist (ctx : Context) (tenantID : UUID) (node : Node) (parts : list string) : M policy_page :=
  _ ← authorizeTenantPermission enforcement ctx tenantID PermBlacklistRead;
  match parts !! 8%nat with
  | None => write_error 400 "INVALID_PATH" "Blacklist scope is required (src, dst, ports)"
  | Some scope =>
    _ ← writePolicyValidationError (ValidateBlacklistScope scope);
    l ← listTenantNodeBlacklistRules tenantID (N_ID node) scope; mret (BlacklistPage l)
  end.
Definition read_qos (ctx : Context) (tenantID : UUID) (node : Node) (parts : list string) : M policy_page :=
  _ ← authorizeTenantPermission enforcement ctx tenantID PermQosRead;
  if (8 <? length parts)%nat then write_error 404 "ENDPOINT_NOT_FOUND" "Unknown QoS endpoint" else
  match parts !! 7%nat with
  | Some ruleIDStr =>
    if bool_decide (uuid_Parse ruleIDStr = None) then write_error 404 "ENDPOINT_NOT_FOUND" "Unknown QoS endpoint"
    else method_not_allowed
  | None =>
    _ ← failTimedOutNodeCommands node;
    l ← listTenantNodeQoS tenantID (N_ID node); mret (QoSPage l)
  end.
Definition read_routes (ctx : Context) (tenantID : UUID) (parts : list string) : M policy_page :=
  _ ← authorizeTenantPermission enforcement ctx tenantID PermRoutesRead;
  let nodeID := default "" (parts !! 5%nat) in
  node ← node_of_request uuid_Parse nodeID tenantID;
  let routeID := join_slash (drop 7 parts) in
  if (routeID =? "")%string then l ← listTenantNodeRoutes tenantID node; mret (RoutePage l)
  else p ← getTenantNodeRoute uuid_Parse tenantID nodeID routeID; mret (OneRoute p).
(** [handleTenantNodes] for a GET of the policies of a node. *)
Definition read_node_policy (path : policy_path) (r : Request) (ctx : Context) (tenantID : UUID) : M policy_page :=
  let parts := splitPath (Path r) in
  node ← node_of_request uuid_Parse (default "" (parts !! 5%nat)) tenantID;
  match path with
  | SecurityPath =>
    match parts !! 7%nat with
    | None => write_error 400 "INVALID_PATH" "Invalid security path"
    | Some part =>
      if (part =? "acls")%string then read_acls ctx tenantID node
      else if (part =? "blacklist")%string then read_blacklist ctx tenantID node parts
      else write_error 404 "ENDPOINT_NOT_FOUND" "Unknown security sub-endpoint"
    end
  | QoSPath => read_qos ctx tenantID node parts
  | RoutesPath => read_routes ctx tenantID parts
  end.
End requests.
End policies.
