(* ===== verification/PolicyPagesSpec.v ===== *)
(** * What the pages of policies promise

    The status of a reference is that of its newest delivery, whatever else was
    delivered since, and the pages of the rules agree with it. *)

From S2P Require Import Prelude GoStr Netip Records CidrColumn Store Events Tokens ControlState AgentCommands PolicySync Nodes NodesSpec IPGroups PolicyRules RuntimeAuth Sessions Access AccessSpec Dispatch PolicyValidation PolicyAdmin NodeAdmin Monitoring Metrics DeliveryStatus DeliveryStatusSpec PolicyPages.

Open Scope Z_scope.

(** ** The newest delivery of a reference *)

Definition delivery_newer (a b : UUID * DeliveryRow) : bool := pd_created_at b.2 <? pd_created_at a.2.
Lemma newest_filter (p q : UUID → DeliveryRow → bool) db :
  newest_deliveries (λ k d, p k d && q k d) db = filter (λ kd, q kd.1 kd.2 = true) (newest_deliveries p db).
Proof.
  unfold newest_deliveries. rewrite SliceStable_filter; [|intros ??; lia|intros ???; lia]. f_equal.
  unfold select_where. rewrite list_filter_filter. apply list_filter_iff. intros [k d]. cbn.
  by rewrite andb_true_iff, (comm and).
Qed.
Definition newest_of (t : UUID) (ref : PolicyDeliveryRef) (db : DB) : option PolicyDelivery :=
  (λ kd, scanPolicyDelivery kd.1 kd.2) <$>
    head (newest_deliveries (λ _ d, (pd_tenant_id d =? t)%string && bool_decide (delivery_ref d = ref)) db).

Definition latest_step (t : UUID) (db : DB) (m : gmap PolicyDeliveryRef PolicyDelivery) (ref : PolicyDeliveryRef)
    : gmap PolicyDeliveryRef PolicyDelivery :=
  match head (newest_deliveries (λ _ d, (pd_tenant_id d =? t)%string && bool_decide (delivery_ref d = ref)) db) with
  | Some (id, d) => <[ref := scanPolicyDelivery id d]> m
  | None => m
  end.
Lemma latest_lookup t refs db m ref :
  foldl (latest_step t db) m refs !! ref =
  if decide (ref ∈ refs) then match newest_of t ref db with Some d => Some d | None => m !! ref end else m !! ref.
Proof.
  revert m. induction refs as [|r refs IH]; intros m; cbn [foldl].
  { by rewrite decide_False by (by intros []%elem_of_nil). }
  rewrite IH. unfold latest_step, newest_of.
  destruct (decide (r = ref)) as [->|Hr].
  - rewrite (decide_True (P := ref ∈ ref :: refs)) by apply list_elem_of_here.
    destruct (head _) as [[id d]|]; cbn; [|by destruct (decide _)]. rewrite lookup_insert_eq. by destruct (decide _).
  - assert (match head (newest_deliveries (λ _ d, (pd_tenant_id d =? t)%string && bool_decide (delivery_ref d = r)) db) with
       | Some (id, d) => <[r := scanPolicyDelivery id d]> m | None => m end !! ref = m !! ref) as ->.
    { destruct (head _) as [[id d]|]; [by apply lookup_insert_ne|done]. }
    destruct (decide (ref ∈ refs)).
    + by rewrite decide_True by (by apply list_elem_of_further).
    + rewrite decide_False; [done|]. intros [?|?]%elem_of_cons; congruence.
Qed.
Lemma latest_ok t refs e st m st' :
  ListLatestPolicyDeliveriesByRefs t refs e st = (Ok m, st') →
  st_db st' = st_db st ∧ ∀ ref, ref ∈ refs → m !! ref = newest_of t ref (st_db st).
Proof.
  unfold ListLatestPolicyDeliveriesByRefs. set (all := refs). destruct refs as [|r refs].
  { intros [= <- <-]. split; [done|]. by intros ref []%elem_of_nil. }
  intros [-> Hdb]%query_ok. split; [done|]. intros ref Hin.
  change (foldl (latest_step t (st_db st)) ∅ all !! ref = newest_of t ref (st_db st)).
  rewrite latest_lookup, decide_True, lookup_empty by done. by destruct (newest_of _ _ _).
Qed.

(** The first of a history among the newest deliveries of the domain is the newest
    delivery of the reference. *)
Lemma filter_take_head {A} (P : A → Prop) `{∀ x, Decision (P x)} n (l : list A) x l' :
  filter P (take n l) = x :: l' → head (filter P l) = Some x.
Proof. intros Hf. rewrite <- (take_drop n l), filter_app, Hf. done. Qed.
Definition trimmed_refs (db : DB) : Prop :=
  ∀ id d, policy_deliveries db !! id = Some d → TrimSpace (pd_policy_ref d) = pd_policy_ref d.
Lemma history_newest t n domain ref db d l :
  trimmed_refs db → history_of ref (recent_deliveries t n domain db) = d :: l →
  newest_of t (mkPolicyDeliveryRef n domain ref) db = Some d.
Proof.
  intros Htrim Hh. unfold newest_of.
  assert (newest_deliveries (λ _ d, (pd_tenant_id d =? t)%string && bool_decide (delivery_ref d = mkPolicyDeliveryRef n domain ref)) db
    = filter (λ kd, (pd_policy_ref kd.2 =? ref)%string = true) (newest_deliveries (λ _ d, (pd_tenant_id d =? t)%string
        && (pd_node_id d =? n)%string && (pd_policy_domain d =? domain)%string) db)) as ->.
  { etransitivity; [|apply (newest_filter _ (λ _ d, pd_policy_ref d =? ref)%string)].
    unfold newest_deliveries. f_equal. apply select_where_ext. intros k r _.
    rewrite <- !andb_assoc. f_equal. apply eq_bool_prop_intro. unfold delivery_ref.
    rewrite bool_decide_spec, !andb_True, !Is_true_true, !String.eqb_eq. naive_solver. }
  set (rows := newest_deliveries _ _) in *.
  assert (∀ kd, kd ∈ rows → delivery_key (scanPolicyDelivery kd.1 kd.2) = pd_policy_ref kd.2) as Hkey.
  { intros [k r] Hin. unfold rows, newest_deliveries in Hin. rewrite SliceStable_Permutation in Hin.
    apply select_where_elem in Hin as [Hin _]. by apply (Htrim k r). }
  unfold history_of, recent_deliveries in Hh. fold rows in Hh. rewrite list_filter_bool, filter_fmap_list in Hh.
  apply fmap_cons_inv in Hh as (kd & l1 & -> & _ & Hh).
  assert (ref ≠ "") as Hne.
  { intros ->. assert (kd ∈ kd :: l1) as Hin by apply list_elem_of_here. rewrite <- Hh in Hin.
    apply list_elem_of_filter in Hin as [Hin _]. cbn beta in Hin. by destruct (delivery_key _ =? "")%string. }
  rewrite (filter_ext_in _ (λ kd, (pd_policy_ref kd.2 =? ref)%string = true)) in Hh.
  - by rewrite (filter_take_head _ _ _ _ _ Hh).
  - intros kd' Hin. rewrite Hkey by (rewrite <- (take_drop 100 rows); apply elem_of_app; by left).
    rewrite andb_true_iff, negb_true_iff, String.eqb_neq, String.eqb_eq. naive_solver.
Qed.

(** ** The two pages *)

Section status.
Context `{CidrText} (uuid_Parse : string → option UUID) (enforcement : string).

#[local] Hint Resolve GetRolePermissions_reads GetTenantStatus_reads : aria.
Lemma authorizeTenantAny_reads (R : DB → DB → Prop) `{!PreOrder R} ctx t l :
  changes R (authorizeTenantAnyPermission enforcement ctx t l).
Proof. unfold authorizeTenantAnyPermission, authorizeTenant, forbidden. chg. Qed.

(** What an item of the answer has to show. *)
Definition shows_newest (newest : option PolicyDelivery) (i : StatusItem) : Prop :=
  match newest with
  | Some d => st_policy_status i = mapCommandStatusToPolicyStatus (d_CommandStatus d) ∧
      st_pending_cmds i = pendingCountForCommandStatus (d_CommandStatus d) ∧ st_last_delivery i = Some (policyDeliveryToMap d)
  | None => st_policy_status i = "idle" ∧ st_pending_cmds i = 0 ∧ st_last_delivery i = None
  end.

Lemma status_refs_length asked refs : status_refs uuid_Parse asked = Ok refs → length refs = length asked.
Proof.
  revert refs. induction asked as [|a asked IH]; intros refs; cbn [status_refs]; [by intros [= <-]|].
  destruct (status_ref uuid_Parse a); [|done]. destruct (status_refs uuid_Parse asked) as [rs|]; [|done].
  intros [= <-]. cbn [length]. by rewrite (IH rs).
Qed.
(** A rule that shows a delivery shows the newest of its reference. *)
Lemma shown_is_newest t n domain ref db f i :
  trimmed_refs db → shows (history_of ref (recent_deliveries t n domain db)) f → df_history f ≠ [] →
  shows_newest (newest_of t (mkPolicyDeliveryRef n domain ref) db) i → df_status f = st_policy_status i.
Proof.
  intros Htrim Hs Hne Hi. destruct (history_of ref _) as [|d l] eqn:Hh; [cbn in Hs; by subst f|].
  rewrite (history_newest _ _ _ _ _ _ _ Htrim Hh) in Hi. destruct Hs as (-> & _), Hi as (-> & _). done.
Qed.

(** Both depend on the table of deliveries only. *)
Lemma trimmed_refs_same db db' : policy_deliveries db = policy_deliveries db' → trimmed_refs db ↔ trimmed_refs db'.
Proof. unfold trimmed_refs. by intros ->. Qed.
Lemma newest_of_same t ref db db' : policy_deliveries db = policy_deliveries db' → newest_of t ref db = newest_of t ref db'.
Proof. unfold newest_of, newest_deliveries. by intros ->. Qed.

(** What the handlers of the lists show is read after the commands whose time is
    over were failed. *)
Lemma read_acls_shows ctx t node e st page st' :
  no_faults e → read_acls enforcement ctx t node e st = (Ok (ACLPage page), st') →
  ∀ x, x ∈ page → shows (history_of (a_ID (li_item x)) (recent_deliveries t (N_ID node) "acl" (st_db st'))) (li_fields x).
Proof.
  intros Hf Hr. unfold read_acls in Hr. apply bind_ok in Hr as (u & st1 & _ & Hr).
  apply bind_ok in Hr as (u' & st2 & _ & Hr). apply bind_ok in Hr as (l & st3 & Hl & [= -> <-]).
  destruct (rules_show_deliveries t (N_ID node) e st2 Hf) as [(p & s & Hp & Hdb & _ & Ha) _].
  rewrite Hp in Hl. injection Hl as -> ->. rewrite Hdb. rewrite Forall_forall in Ha. intros x Hx. by apply Ha.
Qed.
Lemma read_qos_shows ctx t node parts e st page st' :
  no_faults e → read_qos uuid_Parse enforcement ctx t node parts e st = (Ok (QoSPage page), st') →
  ∀ x, x ∈ page → shows (history_of (q_ID (li_item x)) (recent_deliveries t (N_ID node) "qos" (st_db st'))) (li_fields x).
Proof.
  intros Hf Hr. unfold read_qos in Hr. apply bind_ok in Hr as (u & st1 & _ & Hr).
  destruct (8 <? length parts)%nat; [done|]. destruct (parts !! 7%nat); [by destruct (bool_decide _)|].
  apply bind_ok in Hr as (u' & st2 & _ & Hr). apply bind_ok in Hr as (l & st3 & Hl & [= -> <-]).
  destruct (rules_show_deliveries t (N_ID node) e st2 Hf) as [_ (p & s & Hp & Hdb & _ & Ha)].
  rewrite Hp in Hl. injection Hl as -> ->. rewrite Hdb. rewrite Forall_forall in Ha. intros x Hx. by apply Ha.
Qed.

(** C31. The status of deliveries by reference is exact: the page answers the
    references that are asked for, in their order and normalised, and for each the
    status of the newest delivery of just that node, domain and reference, however
    many others there are; nothing changes, not even a command whose time is over.
    The handlers of the ACL and of the QoS rules of a node fail those commands
    first.  If such a request, no statement failing, leaves the deliveries the status
    is asked in, so that nothing was left to fail in between, and the deliveries are
    stored under references without outer blanks, then each rule it lists with a
    delivery has the status of its reference. *)
Theorem delivery_status_exact r ctx body t e st items st' :
  handleTenantPolicyDeliveries uuid_Parse enforcement r ctx body t e st = (Ok items, st') →
  (∃ asked refs, body = Some asked ∧ status_refs uuid_Parse asked = Ok refs ∧ st_ref <$> items = refs.*1 ∧
     length items = length asked) ∧
  st_db st' = st_db st ∧
  Forall (λ i, shows_newest (newest_of t (st_ref i) (st_db st)) i) items ∧
  (trimmed_refs (st_db st) → ∀ ctx' node e' st0 st1, no_faults e' →
     policy_deliveries (st_db st1) = policy_deliveries (st_db st) →
     (∀ page, read_acls enforcement ctx' t node e' st0 = (Ok (ACLPage page), st1) →
        ∀ x i, x ∈ page → i ∈ items → st_ref i = mkPolicyDeliveryRef (N_ID node) "acl" (a_ID (li_item x)) →
          df_history (li_fields x) ≠ [] → df_status (li_fields x) = st_policy_status i) ∧
     (∀ parts page, read_qos uuid_Parse enforcement ctx' t node parts e' st0 = (Ok (QoSPage page), st1) →
        ∀ x i, x ∈ page → i ∈ items → st_ref i = mkPolicyDeliveryRef (N_ID node) "qos" (q_ID (li_item x)) →
          df_history (li_fields x) ≠ [] → df_status (li_fields x) = st_policy_status i)).
Proof.
  unfold handleTenantPolicyDeliveries. intros Hr. destruct (negb _); [done|]. destruct (negb _); [done|].
  destruct body as [asked|]; [|done]. destruct (_ || _); [done|].
  apply bind_ok in Hr as (refs & st1 & Hrefs & Hr). unfold or_invalid in Hrefs.
  destruct (status_refs uuid_Parse asked) as [refs'|] eqn:Hs; [|done]. injection Hrefs as -> <-.
  apply bind_ok in Hr as (u & st2 & Hauth & Hr).
  assert (st_db st2 = st_db st) as Hdb2.
  { match type of Hauth with ?m _ _ = _ => assert (changes (same id) m) as Hc by (chg; apply authorizeTenantAny_reads; apply _) end.
    specialize (Hc e st). by rewrite Hauth in Hc. }
  apply bind_ok in Hr as (m & st3 & Hm & Hr). injection Hr as <- <-.
  assert (st_db st3 = st_db st ∧ ∀ ref, ref ∈ refs.*1 → m !! ref = newest_of t ref (st_db st)) as [Hdb Hl].
  { unfold or_internal in Hm. apply bind_ok in Hm as (res & st3' & Ha & Hm). unfold attempt in Ha.
    destruct (ListLatestPolicyDeliveriesByRefs t refs.*1 e st2) as [[m'|x] st3''] eqn:Hq; injection Ha as <- <-; [|done].
    injection Hm as -> <-. rewrite <- Hdb2. apply latest_ok in Hq as [-> Hq]. by split. }
  assert (∀ ref, st_ref (status_item m ref) = ref) as Href by (intros ref; unfold status_item; by destruct (m !! ref)).
  assert (∀ i, i ∈ status_item m <$> refs.*1 → shows_newest (newest_of t (st_ref i) (st_db st)) i) as Hshow.
  { intros i (ref & -> & Hin)%list_elem_of_fmap. rewrite Href, <- (Hl ref Hin). unfold status_item, shows_newest.
    by destruct (m !! ref). }
  split_and!.
  - exists asked, refs. split_and!; [done|done| |].
    + rewrite <- list_fmap_compose. erewrite list_fmap_ext; [apply list_fmap_id|]. intros; apply Href.
    + rewrite !length_fmap. by apply status_refs_length.
  - done.
  - by apply Forall_forall.
  - intros Htrim ctx' node e' st0 st1 Hf Hpd. rewrite <- (trimmed_refs_same _ _ Hpd) in Htrim.
    assert (∀ i, i ∈ status_item m <$> refs.*1 → shows_newest (newest_of t (st_ref i) (st_db st1)) i) as Hshow1.
    { intros i Hi. rewrite (newest_of_same _ _ _ _ Hpd). by apply Hshow. }
    split.
    + intros page Hacl x i Hx Hi Hri Hne. apply Hshow1 in Hi. rewrite Hri in Hi.
      pose proof (read_acls_shows _ _ _ _ _ _ _ Hf Hacl) as Hsh.
      eapply shown_is_newest; [exact Htrim|exact (Hsh x Hx)|exact Hne|exact Hi].
    + intros parts page Hqos x i Hx Hi Hri Hne. apply Hshow1 in Hi. rewrite Hri in Hi.
      pose proof (read_qos_shows _ _ _ _ _ _ _ _ Hf Hqos) as Hsh.
      eapply shown_is_newest; [exact Htrim|exact (Hsh x Hx)|exact Hne|exact Hi].
Qed.
End status.

(** The rule with the failed delivery, and a reference nothing was delivered for. *)
Definition asked_items : list policyDeliveryStatusRequestItem :=
  [mkStatusItem " n1" "ACL" "r1"; mkStatusItem "n1" "qos" "r1"].
Definition super_admin : Context := mkContext (Some "u1") None (Some "super_admin") None.
Definition status_request : Request :=
  mkRequest "POST" "/api/v2/tenants/t1/policy-deliveries/status" "" "".
Definition asked_status : M (list StatusItem) :=
  handleTenantPolicyDeliveries Some "" status_request super_admin (Some asked_items) "t1".
(** The list of the rules is asked for first, then the status. *)
Definition conflict_node : Node := scanNode "n1" (sample_node "k1" "online" 2 0).
Definition listed_rules : M policy_page := @read_acls go_cidr "" super_admin "t1" conflict_node.
Lemma delivery_status_exact_witness :
  ∃ page items st' st'', listed_rules (env_at 3) (mkSt conflict_db 0) = (Ok (ACLPage page), st') ∧
    asked_status (env_at 4) st' = (Ok items, st'') ∧ st_db st'' = conflict_db ∧
    st_policy_status <$> items = ["error"; "idle"] ∧
    ∃ x, head page = Some x ∧ a_ID (li_item x) = "r1" ∧ df_status (li_fields x) = "error".
Proof.
  assert (no_faults (env_at 3)) as Hf by (intros n; reflexivity).
  set (run := listed_rules (env_at 3) (mkSt conflict_db 0)).
  assert (∃ page, run = (Ok (ACLPage page), run.2)
            ∧ (λ x, (a_ID (li_item x), length (df_history (li_fields x)))) <$> page = [("r1", 2%nat); ("r2", O)])
    as (page & Hl & Hids) by (eexists; split; vm_compute; reflexivity).
  assert (st_db run.2 = conflict_db) as Hrun by (vm_compute; reflexivity).
  set (run2 := asked_status (env_at 4) run.2).
  assert (∃ items, run2 = (Ok items, run2.2) ∧ st_policy_status <$> items = ["error"; "idle"] ∧
            head (st_ref <$> items) = Some (mkPolicyDeliveryRef "n1" "acl" "r1")) as (items & Hr & Hst & Href).
  { eexists. split; [vm_compute; reflexivity|split; reflexivity]. }
  assert (trimmed_refs (st_db run.2)) as Htrim.
  { rewrite Hrun. intros id d Hd. unfold conflict_db in Hd. simpl in Hd.
    rewrite lookup_insert_Some, lookup_singleton_Some in Hd. by destruct Hd as [[_ <-]|[_ [_ <-]]]. }
  destruct (@delivery_status_exact go_cidr Some "" status_request super_admin (Some asked_items) "t1" (env_at 4)
    run.2 items run2.2 Hr) as (_ & Hdb & _ & Hagree).
  exists page, items, run.2, run2.2. split; [exact Hl|]. split; [exact Hr|].
  split; [rewrite Hdb; exact Hrun|]. split; [exact Hst|].
  destruct page as [|x page]; [discriminate Hids|]. injection Hids as Hid Hlen _.
  exists x. split; [reflexivity|]. split; [exact Hid|].
  destruct items as [|i items]; [discriminate Hst|]. injection Hst as Hi _. injection Href as Hiref.
  rewrite <- Hi.
  apply (proj1 (Hagree Htrim super_admin conflict_node (env_at 3) (mkSt conflict_db 0) run.2 Hf eq_refl)
           (x :: page) Hl x i (list_elem_of_here _ _) (list_elem_of_here _ _)).
  - rewrite Hiref, Hid. reflexivity.
  - intros Hnil. rewrite Hnil in Hlen. discriminate Hlen.
Defined.
