(* ===== verification/NodePages.v ===== *)
(** * The pages of nodes

    The reading side of nodes in [internal/api/v2/setup.go]: the list of the nodes
    of a tenant, one node, how far its set-up has come, and the status of many; and
    the detail page and the paths of [monitoring.go].  The two pages that ask the
    metrics server are parameters of the paths. *)

From S2P Require Import Prelude GoStr Netip Records CidrColumn Store Events Tokens ControlState AgentCommands PolicySync Nodes IPGroups PolicyRules RuntimeAuth Sessions Access Dispatch PolicyValidation PolicyAdmin NodeAdmin AgentAdmin TokenAdmin Monitoring MetricsServer Metrics DeliveryStatus PolicyPages.

Open Scope Z_scope.

Definition PermNodesRead : string := "nodes:read".

(** ** How far the set-up of a node has come *)

Definition onboardingObservedMessageIsError (observedState configurationStatus observedMessage : string) : bool :=
  if (TrimSpace observedMessage =? "")%string then false else
  let o := ToLower (TrimSpace observedState) in
  if one_of o ["failed"; "error"; "degraded"] then true
  else if one_of o ["applied"; "healthy"; "ok"] then false
  else one_of (ToLower (TrimSpace configurationStatus)) ["failed"; "degraded"].

(** The entries of the summary the page reads; without a summary they are empty. *)
Definition summary_text (summary : option NodeSummary) (f : NodeSummary → string) : string :=
  match summary with Some s => TrimSpace (f s) | None => "" end.
Definition control_text (f : NodeControlState → string) (s : NodeSummary) : string :=
  match ns_control_state s with Some c => f c | None => "" end.
Definition last_error (summary : option NodeSummary) : string :=
  let observedState := ToLower (summary_text summary ns_observed_state) in
  let configurationStatus := ToLower (summary_text summary ns_configuration_status) in
  let observedMessage := summary_text summary (control_text ncs_ObservedMessage) in
  firstNonEmpty [summary_text summary (control_text ncs_LastSyncError); summary_text summary ns_last_command_error;
    if onboardingObservedMessageIsError observedState configurationStatus observedMessage then observedMessage else ""].
Record Onboarding := mkOnboarding {
  ob_phase : string;
  ob_last_error : string;
  ob_token_preview : option string;
  ob_first_seen_at : Z + Time;               (* seconds, or a time *)
  ob_last_sync_at : option (Time + Z);
}.
Definition onboarding_phase (availability : string) (summary : option NodeSummary) : string :=
  let desiredVersion := summary_text summary (control_text ncs_DesiredStateVersion) in
  let appliedVersion := summary_text summary (control_text ncs_AppliedStateVersion) in
  let observedState := ToLower (summary_text summary ns_observed_state) in
  let configurationStatus := ToLower (summary_text summary ns_configuration_status) in
  if negb (TrimSpace (last_error summary) =? "")%string then "degraded"
  else if negb (desiredVersion =? "")%string && negb (appliedVersion =? "")%string
          && negb (desiredVersion =? appliedVersion)%string then "syncing"
  else if (availability =? "online")%string
          && (negb (appliedVersion =? "")%string || one_of observedState ["healthy"; "applied"]
              || (configurationStatus =? "applied")%string) then "online"
  else if (availability =? "online")%string then "syncing" else "registered".
(** The text of [next_action], which the phase and the availability determine, is
    left out; a row has the time it was created at. *)
Definition buildNodeOnboardingStatus (now : Time) (node : Node) (summary : option NodeSummary) : Onboarding :=
  mkOnboarding (onboarding_phase (nodeAvailabilityStatus now node) summary) (last_error summary)
    (nullif (tokenSecretPreview (N_EnrolledWithToken node)))
    (if 0 <? N_RegisteredAt node then inl (N_RegisteredAt node) else inr (N_CreatedAt node))
    (ns_last_sync_at <$> summary).

(** The entries of the answer that are computed; the others copy the node, its
    summary and its last command. *)
Record NodeResponse := mkNodeResponse {
  nr_node : Node;
  nr_availability_status : string;
  nr_operations : option NodeSummary;
  nr_convergence_status : string;
  nr_onboarding : Onboarding;
}.
Definition buildTenantNodeResponse (node : Node) : M NodeResponse :=
  s ← attempt (buildNodeOperationsSummary node);
  now ← ask env_go_now;
  let availability := nodeAvailabilityStatus now node in
  let summary := match s with Ok s => Some s | Err _ => None end in
  let convergence := match summary with
    | Some s => ns_state_convergence s
    | None => convergence_text (if (availability =? "online")%string then StatusConverged else StatusOffline)
    end in
  mret (mkNodeResponse node availability summary convergence (buildNodeOnboardingStatus now node summary)).

Definition listTenantNodes (q : params) (tenantID : UUID) : M (Page NodeResponse) :=
  let '(limit, offset) := parseNodeListPagination q in
  r ← attempt (GetNodesByTenantPage tenantID limit offset);
  match r with
  | Err _ => write_error 500 "GET_NODES_FAILED" "Failed to get nodes"
  | Ok nodes =>
    items ← map_each buildTenantNodeResponse nodes;
    mret (mkPage items (Z.of_nat (length items)) limit offset)
  end.

(** ** The detail of a node *)

Record LearnedRoute := mkLearnedRoute {
  lr_CIDR : string;
  lr_NextHop : string;
  lr_NextHopIP : string;
  lr_Region : string;
  lr_NodeStatus : string;
  lr_LastSeen : Z;
}.
(** The query selects [COALESCE(n.assigned_ip, '')] of a column of type INET, and
    PostgreSQL refuses to take the empty text for an address: the statement fails
    before it reads a row, so it gives none to go on with. *)
Definition learned_routes_query (tenantID excludeNodeID : UUID) (queryLimit : Z) : M (list LearnedRoute) :=
  stmt (λ _ _ _, Err (ErrorString "invalid input syntax for type inet")).
Definition ListTenantLearnedRoutes (tenantID excludeNodeID : UUID) (limit : Z) : M (list LearnedRoute * bool) :=
  let normalizedLimit := normalizeNodeListLimit limit in
  routes ← learned_routes_query tenantID excludeNodeID (normalizedLimit + 1);
  if normalizedLimit <? Z.of_nat (length routes)
  then mret (take (Z.to_nat normalizedLimit) routes, true) else mret (routes, false).

Record NodeMonitoringDetailState := mkDetailState {
  ds_ControlState : option NodeControlState;
  ds_PolicyStats : option NodePolicyStats;
  ds_Certificate : option NodeCertificate;
}.
(** The control state and the statistics are those of the tenant; the certificate
    is that of the node. *)
Definition GetNodeMonitoringDetailState (tenantID nodeID : UUID) : M NodeMonitoringDetailState :=
  query (λ _ db, mkDetailState
    (r ← node_control_states db !! nodeID;
     if (cs_tenant_id r =? tenantID)%string then Some (scanNodeControlState nodeID r) else None)
    (stats_of tenantID nodeID db)
    (scanNodeCertificate nodeID <$> node_certificates db !! nodeID)).

Definition computeStateConvergence (cs : NodeControlState) : string :=
  let desired := ncs_DesiredStateVersion cs in
  let applied := ncs_AppliedStateVersion cs in
  if (desired =? "")%string then "idle" else
  if (desired =? applied)%string && negb (applied =? "")%string then "converged" else
  if negb (desired =? applied)%string && negb (ncs_LastSyncError cs =? "")%string then "diverged" else "pending".

Definition ListRecentPolicyDeliveriesByNode (tenantID nodeID : UUID) (limit : Z) : M (list PolicyDelivery) :=
  let limit := if limit <=? 0 then 20 else limit in
  query (λ _ db, (λ kd, scanPolicyDelivery kd.1 kd.2) <$> take (Z.to_nat limit)
    (newest_deliveries (λ _ d, (pd_tenant_id d =? tenantID)%string && (pd_node_id d =? nodeID)%string) db)).

(** [eventDetailString] on the detail of an event, whose values are texts; a value
    that is neither a text nor a boolean is shown as it is stored. *)
Definition event_value (v : json) : option string :=
  match v with
  | JString s => Some s
  | JBool b => Some (if b then "true" else "false")
  | JOther rendered => Some rendered
  | JNull | JUnsupported => None
  end.
Fixpoint event_text (detail : object) (keys : list string) : string :=
  match keys with
  | [] => ""
  | key :: keys =>
    match v ← detail !! key; event_value v with
    | None => event_text detail keys
    | Some value =>
      let text := TrimSpace value in
      if negb (text =? "")%string && negb (text =? "<nil>")%string then text else event_text detail keys
    end
  end.
(** [time.Time] values are given by the event they are of. *)
Record CertificateActivity := mkActivity {
  ca_last_renewed : option (Time * string * string * string);   (* at, serial number, predecessor, not after *)
  ca_last_renew_failed : option (Time * string);                (* at, why *)
  ca_last_revoked : option (Time * string * string);            (* at, why, the status of the node *)
}.
Definition buildNodeCertificateActivity (tenantID nodeID : UUID) : M (option CertificateActivity) :=
  events ← GetLatestNodeCertificateActivity tenantID nodeID;
  let text (r : AuditRow) keys := event_text (ae_detail r) keys in
  let renewed := (λ r, (ae_created_at r, text r ["serial_number"], text r ["renewed_from"], text r ["not_after"]))
                   <$> events !! "certificate_renewed" in
  let failed := (λ r, (ae_created_at r, text r ["error"; "message"])) <$> events !! "certificate_renew_failed" in
  let revoked := (λ r, (ae_created_at r, text r ["reason"; "message"], text r ["node_status"; "status"]))
                   <$> events !! AuditCertRevoked in
  mret (match renewed, failed, revoked with
        | None, None, None => None
        | _, _, _ => Some (mkActivity renewed failed revoked) end).

Definition maxMonitoringLearnedRoutes : Z := 1000.
Record NodeDetail := mkNodeDetail {
  nd_node : Node;
  nd_availability_status : string;
  nd_state : NodeMonitoringDetailState;
  nd_state_convergence : string;
  nd_certificate_activity : option CertificateActivity;
  nd_recent_commands : list AgentCommand;
  nd_recent_policy_deliveries : list DeliveryView;
  nd_active_alerts : list AlertRecord;
  nd_learned_routes : list (LearnedRoute * string);             (* with the availability of its node *)
  nd_learned_routes_truncated : bool;
}.

Section detail.
Context `{CidrText, TieOrder} (uuid_Parse : string → option UUID).

Definition handleMonitoringNodeDetail (tenantID : UUID) (nodeID : string) : M NodeDetail :=
  node ← node_of_request uuid_Parse nodeID tenantID;
  detailState ← or_failed "Failed to get node detail state" (GetNodeMonitoringDetailState tenantID (N_ID node));
  activity ← or_failed "Failed to get certificate activity" (buildNodeCertificateActivity tenantID (N_ID node));
  commands ← or_failed "Failed to list commands" (ListRecentAgentCommands (N_PublicKey node) 20);
  deliveries ← or_failed "Failed to list policy deliveries" (ListRecentPolicyDeliveriesByNode tenantID (N_ID node) 20);
  '(views, _) ← serialize deliveries (Some (policyDeliveryErrorResolverForNode tenantID (N_ID node)));
  alerts ← or_failed "Failed to list active alerts" (ListRecentNodeAlerts tenantID (N_ID node) "active" 10);
  '(routes, truncated) ← or_failed "Failed to load learned routes"
    (ListTenantLearnedRoutes tenantID (N_ID node) maxMonitoringLearnedRoutes);
  now ← ask env_go_now;
  let of_hop (r : LearnedRoute) := nodeAvailabilityStatus now (node <| N_Status := lr_NodeStatus r |> <| N_LastSeen := lr_LastSeen r |>) in
  mret (mkNodeDetail node (nodeAvailabilityStatus now node) detailState
    (match ds_ControlState detailState with Some c => computeStateConvergence c | None => "idle" end)
    activity commands views alerts ((λ r, (r, of_hop r)) <$> routes) truncated).

(** ** The status of many nodes *)

Inductive NodeStatusItem :=
  | MissingNode (node_id : UUID)
  | PresentNode (summary : NodeSummary).
Definition node_status_item (tenantID : UUID) (rawNodeID : string) : M NodeStatusItem :=
  let nodeID := TrimSpace rawNodeID in
  match uuid_Parse nodeID with
  | None => invalid "node_id must be a valid UUID"
  | Some parsedNodeID =>
    r ← attempt (getTenantNodeRecord uuid_Parse nodeID tenantID);
    match r with
    | Err ErrNoRows => mret (MissingNode parsedNodeID)
    | Err x => writeNodeLookupError x
    | Ok node =>
      _ ← failTimedOutNodeCommands node;
      s ← or_internal "Failed to load node status" (buildNodeOperationsSummary node);
      mret (PresentNode s)
    end
  end.
Context (enforcement : string).
Definition handleTenantNodeStatus (r : Request) (ctx : Context) (body : option (list string)) (tenantID : UUID)
    : M (list NodeStatusItem) :=
  if negb (Method r =? "POST")%string then method_not_allowed else
  _ ← authorizeTenantPermission enforcement ctx tenantID PermNodesRead;
  match body with
  | None => bad_request "Invalid request body"
  | Some nodeIDs =>
    if bool_decide (nodeIDs = []) || (100 <? length nodeIDs)%nat then invalid "node_ids must contain 1-100 entries"
    else map_each (node_status_item tenantID) nodeIDs
  end.

(** ** Paths *)

(** [handleTenantNodes] for a GET of the list or of a node, and for the status. *)
Inductive node_page :=
  | NodeList (p : Page NodeResponse)
  | OneNode (n : NodeResponse)
  | NodeStatuses (l : list NodeStatusItem).
Definition getTenantNodeByID (tenantID : UUID) (nodeID : string) : M NodeResponse :=
  node ← node_of_request uuid_Parse nodeID tenantID;
  buildTenantNodeResponse node.
Definition read_nodes (r : Request) (ctx : Context) (q : params) (body : option (list string)) (tenantID : UUID)
    : M node_page :=
  let parts := splitPath (Path r) in
  if (length parts =? 5)%nat then
    _ ← authorizeTenantPermission enforcement ctx tenantID PermNodesRead;
    if (Method r =? "GET")%string then l ← listTenantNodes q tenantID; mret (NodeList l) else method_not_allowed
  else if (length parts =? 6)%nat && bool_decide (parts !! 5%nat = Some "status") then
    l ← handleTenantNodeStatus r ctx body tenantID; mret (NodeStatuses l)
  else match parts !! 5%nat with
  | None => write_error 400 "INVALID_PATH" "Invalid node path"
  | Some nodeID =>
    _ ← node_of_request uuid_Parse nodeID tenantID;
    _ ← authorizeTenantPermission enforcement ctx tenantID PermNodesRead;
    n ← getTenantNodeByID tenantID nodeID; mret (OneNode n)
  end.

Inductive monitoring_page :=
  | StatsPage (s : MonitoringStats)
  | EventsPage (p : Page EventFeedItem)
  | AlertsPage (p : Page AlertRecord)
  | DetailPage (d : NodeDetail)
  | HealthPage (h : MonitoringHealth)
  | TopologyPage (t : list TopologyNode * list TopologyLink * bool)
  | ResolvedAlert (a : AlertRecord)
  | SeriesPage (p : TrafficPage)
  | MetricsPage (m : NodeMetrics)
  | EmptyBody.
Context (time_Parse : string → option Time).
Context (vmClient : option VMClient) (ParseFloat : string → spec_float).
(** A page whose numbers JSON has no text for is answered without a body. *)
Definition encoded (page : monitoring_page) : monitoring_page :=
  let numbers := match page with
    | SeriesPage p => tf_peak_bandwidth_mbps p :: tf_upload_bytes p ++ tf_download_bytes p
    | MetricsPage m => [nm_upload_mbps m; nm_download_mbps m; nm_latency_ms m]
    | TopologyPage t => tl_traffic <$> t.1.2
    | _ => []
    end in
  if encodes numbers then page else EmptyBody.
Definition handleTenantMonitoring (r : Request) (ctx : Context) (q : params) (body : option resolveBody) (tenantID : UUID)
    : M monitoring_page :=
  _ ← authorizeTenantPermission enforcement ctx tenantID
        (if (Method r =? "POST")%string then PermCommandsWrite else PermMonitoringRead);
  let parts := splitPath (Path r) in
  let get := (Method r =? "GET")%string in
  let at_ n s := bool_decide (parts !! n = Some s) in
  let part n := default "" (parts !! n) in
  let page n s := (length parts =? n)%nat && at_ 5%nat s && get in
  if page 6%nat "stats" then s ← handleMonitoringStats tenantID; mret (StatsPage s)
  else if page 6%nat "events" then
    p ← handleMonitoringEvents uuid_Parse time_Parse q tenantID; mret (EventsPage p)
  else if page 6%nat "alerts" then p ← handleMonitoringAlerts uuid_Parse q tenantID; mret (AlertsPage p)
  else if page 7%nat "nodes" then d ← handleMonitoringNodeDetail tenantID (part 6%nat); mret (DetailPage d)
  else if page 8%nat "nodes" && at_ 7%nat "metrics" then
    m ← handleMonitoringNodeMetrics vmClient ParseFloat uuid_Parse tenantID (part 6%nat); mret (encoded (MetricsPage m))
  else if page 6%nat "traffic" then p ← handleMonitoringTraffic vmClient ParseFloat (q "range") tenantID; mret (encoded (SeriesPage p))
  else if page 6%nat "health" then h ← handleMonitoringHealth tenantID; mret (HealthPage h)
  else if page 6%nat "topology" then t ← handleMonitoringTopology vmClient ParseFloat tenantID; mret (encoded (TopologyPage t))
  else if (length parts =? 8)%nat && at_ 5%nat "alerts" && at_ 7%nat "resolve" && (Method r =? "POST")%string then
    a ← handleMonitoringAlertResolve uuid_Parse body tenantID (part 6%nat); mret (ResolvedAlert a)
  else write_error 400 "INVALID_PATH" "Invalid monitoring path".
End detail.
