(* ===== verification/NodePagesSpec.v ===== *)
(** * What the detail page of a node does

    It reads all it shows of a node and then fails on the routes the node learns. *)

From S2P Require Import Prelude GoStr Netip Records CidrColumn Store Events Tokens ControlState AgentCommands PolicySync Nodes NodesSpec IPGroups PolicyRules RuntimeAuth Sessions Access Dispatch PolicyValidation PolicyAdmin NodeAdmin AgentAdmin TokenAdmin Monitoring MonitoringSpec Metrics DeliveryStatus DeliveryStatusSpec PolicyPages NodePages.

Open Scope Z_scope.

Section detail.
Context `{CidrText, TieOrder} (uuid_Parse : string → option UUID).

Lemma node_of_request_run nodeID id row t e st :
  no_faults e → uuid_Parse nodeID = Some id → nodes (st_db st) !! id = Some row → n_tenant_id row = t →
  EqualFold (TrimSpace (N_Status (scanNode id row))) "deleted" = false →
  node_of_request uuid_Parse nodeID t e st = (Ok (scanNode id row), mkSt (st_db st) (S (st_tick st))).
Proof.
  intros Hf Hp Hn Ht Hd.
  assert (getTenantNodeRecord uuid_Parse nodeID t e st = (Ok (scanNode id row), mkSt (st_db st) (S (st_tick st)))) as Hr.
  { unfold getTenantNodeRecord. rewrite Hp. unfold GetNodeByID.
    erewrite bind_run by (apply query_run; done). rewrite Hn. cbn [fmap option_fmap option_map].
    rewrite Hd. change (N_TenantID (scanNode id row)) with (n_tenant_id row). by rewrite Ht, String.eqb_refl. }
  unfold node_of_request. by erewrite bind_run by (apply attempt_run, Hr).
Qed.

(** The steps of the page, each one statement. *)
Definition after (st : St) (n : nat) : St := mkSt (st_db st) (n + st_tick st).
Lemma activity_run t n e st : no_faults e → ∃ a, buildNodeCertificateActivity t n e st = (Ok a, after st 1).
Proof.
  intros Hf. unfold buildNodeCertificateActivity, GetLatestNodeCertificateActivity.
  eexists. by erewrite bind_run by (apply query_run; done).
Qed.
Lemma deliveries_run t n l e st : ∃ vs r st',
  serialize l (Some (policyDeliveryErrorResolverForNode t n)) e st = (Ok (vs, r), st') ∧ st_db st' = st_db st ∧ views_of l vs.
Proof.
  destruct (serialize l (Some (policyDeliveryErrorResolverForNode t n)) e st) as [res s] eqn:Hs.
  assert (reads_only (Some (policyDeliveryErrorResolverForNode t n))) as Hq by apply node_resolver_quiet.
  pose proof (serialize_total l _ e st Hq) as Hok. rewrite Hs in Hok.
  destruct res as [[vs r]|]; [|done]. exists vs, r, s. by apply serialize_ok in Hs as (Hdb & _ & Hv).
Qed.

(** The detail page answers an internal error for every node that is not deleted,
    although everything else it shows was read: PostgreSQL refuses the statement of
    the learned routes. *)
Lemma node_detail_fails nodeID id row t e st :
  no_faults e → uuid_Parse nodeID = Some id → nodes (st_db st) !! id = Some row → n_tenant_id row = t →
  EqualFold (TrimSpace (N_Status (scanNode id row))) "deleted" = false →
  ∃ st', handleMonitoringNodeDetail uuid_Parse t nodeID e st =
    (Err (HTTPError 500 "INTERNAL_ERROR" "Failed to load learned routes"), st') ∧ st_db st' = st_db st.
Proof.
  intros Hf Hp Hn Ht Hd. destruct (activity_run t id e (after st 2) Hf) as [activity Hact].
  set (l := (λ kd, scanPolicyDelivery kd.1 kd.2) <$> take 20 (newest_deliveries
      (λ _ r, (pd_tenant_id r =? t)%string && (pd_node_id r =? id)%string) (st_db st))).
  destruct (deliveries_run t id l e (after st 5)) as (vs & r & st5 & Hs & Hdb & Hv).
  eexists. split.
  - unfold handleMonitoringNodeDetail. erewrite bind_run by (by apply (node_of_request_run nodeID id row t)).
    change (N_ID (scanNode id row)) with id. change (N_PublicKey (scanNode id row)) with (n_public_key row).
    erewrite bind_run by (apply or_failed_run, query_run; done).
    erewrite bind_run by (apply or_failed_run; exact Hact).
    erewrite bind_run by (apply or_failed_run; unfold ListRecentAgentCommands; apply query_run; done).
    erewrite bind_run by (apply or_failed_run; unfold ListRecentPolicyDeliveriesByNode; apply query_run; done).
    erewrite bind_run by exact Hs. cbv beta iota.
    erewrite bind_run by (apply or_failed_run, wrap_run, query_run; done).
    unfold or_failed, ListTenantLearnedRoutes, learned_routes_query, attempt, stmt, stmt_rows, mbind, M_bind.
    rewrite Hf. reflexivity.
  - exact Hdb.
Qed.
End detail.
