(* ===== verification/TenantAdmin.v ===== *)
(** * Tenants of the controller

    The tenant pages of [internal/api/v2/setup.go]: a platform administrator lists
    the tenants, an administrator reads the own one, and a tenant is renamed,
    suspended, taken up again and deleted. *)

From S2P Require Import Prelude GoStr Records Store Events ControlState AgentCommands PolicySync Nodes Lifecycle Tenants Sessions Access.

Open Scope Z_scope.

Definition PermSettingsRead : string := "settings:read".
Definition PermSettingsWrite : string := "settings:write".
Definition AuditTenantSuspended : string := "tenant.suspended".
Definition AuditTenantDeleted : string := "tenant.deleted".

(** ** Reading *)

(** A NULL status or quota does not scan. *)
Definition tenant_info (kr : UUID * TenantRow) : option TenantInfo :=
  let t := kr.2 in
  status ← t_status t; quota ← t_resource_quota t;
  Some (mkTenantInfo kr.1 (t_name t) (default "" (t_code t)) status quota (t_created_at t) (t_updated_at t)).
(** [ORDER BY created_at DESC]. *)
Definition tenant_newer (a b : UUID * TenantRow) : bool := t_created_at b.2 <? t_created_at a.2.
Definition listAllTenants : M (list TenantInfo) :=
  r ← attempt (query (λ _ db, SliceStable tenant_newer (select_where (λ _ _, true) (tenants db))));
  match r with
  | Err _ => write_error 500 "LIST_TENANTS_FAILED" "Failed to list tenants"
  | Ok rows =>
    match mapM tenant_info rows with
    | None => write_error 500 "SCAN_TENANT_FAILED" "Failed to scan tenant"
    | Some l => mret l
    end
  end.
Definition listSingleTenant (tenantID : UUID) : M TenantInfo :=
  r ← attempt (GetTenantInfo tenantID);
  match r with
  | Err _ => write_error 404 "TENANT_NOT_FOUND" "Tenant not found"
  | Ok t => mret t
  end.

(** ** Updates *)

(** The quota is the text [json.Marshal] makes of it; without one it is empty. *)
Record tenantUpdateRequest := mkTenantUpdate {
  tu_Name : string;
  tu_Code : string;
  tu_Status : string;
  tu_ResourceQuota : string;
}.
(** A field that is given and blank. *)
Definition blank (raw value : string) : bool := negb (raw =? "")%string && (value =? "")%string.
Definition check_name (raw name : string) : option string :=
  if blank raw name then Some "tenant name cannot be blank" else
  let nameLen := RuneCountInString name in
  if negb (name =? "")%string && ((nameLen <? 2) || (50 <? nameLen))%nat
  then Some "tenant name must be between 2 and 50 characters" else None.
Definition check_code (raw code : string) : option string :=
  if blank raw code then Some "tenant code cannot be blank" else
  if (code =? "")%string then None else
  if ((String.length code <? 2) || (20 <? String.length code))%nat
  then Some "tenant code must be between 2 and 20 characters" else
  if negb (tenantCodePattern code)
  then Some "tenant code must start and end with a lowercase alphanumeric character and may contain hyphens"
  else None.
Definition check_status (raw status : string) : option string :=
  if blank raw status then Some "tenant status cannot be blank" else
  if one_of status [""; "active"; "suspended"] then None else
  if (status =? "deleted")%string then Some "tenant deletion must use DELETE /api/v2/tenants/{id}"
  else Some "tenant status must be active or suspended".
Definition normalizeTenantUpdateRequest (body : tenantUpdateRequest) : result tenantUpdateRequest :=
  let name := TrimSpace (tu_Name body) in
  let code := TrimSpace (tu_Code body) in
  let status := ToLower (TrimSpace (tu_Status body)) in
  match check_name (tu_Name body) name, check_code (tu_Code body) code, check_status (tu_Status body) status with
  | Some msg, _, _ | None, Some msg, _ | None, None, Some msg => Err (ErrorString msg)
  | None, None, None => Ok (mkTenantUpdate name code status (tu_ResourceQuota body))
  end.

Section update.
(** Whether the database accepts a CASE whose branches are a text parameter and a
    JSONB column; PostgreSQL does not. *)
Context (case_accepted : bool).

(** Both UPDATE statements; the one of [updateTenantMetadata] leaves the status. *)
Definition update_tenant_row (tenantID : UUID) (name code status resourceQuota : string) : M Z :=
  stmt (λ e _ db,
    if negb case_accepted then Err (ErrorString "CASE types jsonb and text cannot be matched") else
    if negb (code =? "")%string && tenant_exists db tenantID
       && exists_where (λ id t, negb (id =? tenantID)%string && bool_decide (t_code t = Some code)) (tenants db)
    then Err (ErrConstraint "tenants_code_key") else
    Ok (count_where (λ id _, (id =? tenantID)%string) (tenants db),
        db <| tenants := update_where (λ id _, (id =? tenantID)%string)
          (λ t, t <| t_name := or_keep name (t_name t) |>
                  <| t_code := if (code =? "")%string then t_code t else Some code |>
                  <| t_status := if (status =? "")%string then t_status t else Some status |>
                  <| t_resource_quota := if (resourceQuota =? "")%string then t_resource_quota t
                                         else Some resourceQuota |>
                  <| t_updated_at := env_now e |>) (tenants db) |>)).
(** The statement with its answers. *)
Definition update_tenant_fields (tenantID : UUID) (name code status resourceQuota : string) : M unit :=
  r ← attempt (update_tenant_row tenantID name code status resourceQuota);
  match r with
  | Err _ => write_error 500 "CREATE_TENANT_FAILED" "Failed to update tenant"
  | Ok rowsAffected =>
    if rowsAffected =? 0 then write_error 404 "TENANT_NOT_FOUND" "Tenant not found" else mret ()
  end.
Definition updateTenantMetadata (tenantID : UUID) (name code resourceQuota : string) : M unit :=
  update_tenant_fields tenantID name code "" resourceQuota.

(** A change of the lifecycle, with its errors as the handlers report them. *)
Definition change_tenant (code message : string) (tenantID : UUID) (transition : TenantLifecycleTransition) : M unit :=
  r ← attempt (ApplyTenantLifecycleTransition tenantID transition);
  match r with
  | Ok _ => mret ()
  | Err ErrNoRows => write_error 404 "TENANT_NOT_FOUND" "Tenant not found"
  | Err _ => write_error 500 code message
  end.

Definition updateTenant (body : option tenantUpdateRequest) (tenantID : UUID) (role : string) : M UUID :=
  body ← body_of body;
  match normalizeTenantUpdateRequest body with
  | Err x => invalid (error_text x)
  | Ok body =>
    let name := tu_Name body in
    let code := tu_Code body in
    let resourceQuota := tu_ResourceQuota body in
    if (tu_Status body =? "suspended")%string then
      _ ← (if negb (name =? "")%string || negb (code =? "")%string || negb (resourceQuota =? "")%string
           then updateTenantMetadata tenantID name code resourceQuota else mret ());
      _ ← change_tenant "CREATE_TENANT_FAILED" "Failed to update tenant" tenantID
            (mkTenantTransition "suspended" AuditTenantSuspended role "Tenant suspended" ∅);
      mret tenantID
    else
      _ ← update_tenant_fields tenantID name code (tu_Status body) resourceQuota; mret tenantID
  end.

(** ** Paths *)

Context (enforcement : string).

Inductive tenant_answer :=
  | TenantsListed (l : list TenantInfo)
  | TenantShown (t : TenantInfo)
  | TenantCreated (t : TenantResponse)
  | TenantReturned (t : TenantResponse)
  | TenantUpdated (id : UUID)
  | TenantDeleted (id : UUID).

(** [withTenantContext]. *)
Definition withTenantContext (ctx : Context) (tenantID : UUID) : Context :=
  mkContext (UserID ctx) (Username ctx) (UserRole ctx) (Some tenantID).

Definition HandleTenants (r : Request) (ctx : Context) (body : option TenantCreateRequest) : M tenant_answer :=
  if negb (Path r =? "/api/v2/tenants")%string
  then write_error 404 "ENDPOINT_NOT_FOUND" "Unknown endpoint" else
  match UserRole ctx with
  | None => forbidden "Access denied"
  | Some role =>
    if (Method r =? "GET")%string then
      if (role =? "super_admin")%string then l ← listAllTenants; mret (TenantsListed l)
      else if (NormalizeRoleName role =? SystemRoleAdmin)%string then
        match TenantID ctx with
        | None => write_error 401 "TENANT_CONTEXT_NOT_FOUND" "请先选择租户：当前未设置租户上下文"
        | Some tenantID =>
          _ ← authorizeTenantPermission enforcement ctx tenantID PermSettingsRead;
          t ← listSingleTenant tenantID; mret (TenantShown t)
        end
      else forbidden "Access denied: admin or super_admin only"
    else if (Method r =? "POST")%string then
      if negb (role =? "super_admin")%string then forbidden "Access denied: super_admin only"
      else t ← CreateTenant r body; mret (TenantCreated t)
    else method_not_allowed
  end.

Definition handleSingleTenant (r : Request) (ctx : Context) (body : option tenantUpdateRequest) (tenantID : UUID)
    (role : string) : M tenant_answer :=
  if (Method r =? "GET")%string then
    _ ← authorizeTenantPermission enforcement ctx tenantID PermSettingsRead;
    t ← GetTenant r (withTenantContext ctx tenantID); mret (TenantReturned t)
  else if (Method r =? "PUT")%string then
    _ ← authorizeTenantPermission enforcement ctx tenantID PermSettingsWrite;
    id ← updateTenant body tenantID role; mret (TenantUpdated id)
  else if (Method r =? "DELETE")%string then
    if negb (role =? "super_admin")%string then forbidden "Access denied: super_admin only" else
    _ ← change_tenant "DELETE_TOKEN_FAILED" "Failed to delete tenant" tenantID
          (mkTenantTransition "deleted" AuditTenantDeleted role "Tenant deleted" ∅);
    mret (TenantDeleted tenantID)
  else method_not_allowed.
End update.
