(* ===== verification/AssistantTools.v ===== *)
(** * The tools of the assistant

    [internal/agent/tools]: what the assistant can ask the controller to do.  A tool
    gets the arguments a language model or a user chose and answers with a text;
    cards, which are shown instead of handed to the model again, begin with a mark.
    The JSON text of an answer and the number a JSON number stands for are
    parameters, the clock of [generateRandomToken] is one of nanoseconds. *)

From S2P Require Import Prelude GoStr Netip Records CidrColumn Store Tokens ControlState Nodes PolicyRules Routes Durations.

Open Scope Z_scope.

(** ** Arguments *)

(** What [json.Unmarshal] makes of a text of arguments: the text is blank, does not
    decode to an object, is null, or is an object. *)
Inductive ToolArgs :=
  | ArgsBlank
  | ArgsMalformed
  | ArgsNull
  | ArgsObject (o : object).

(** [json.Unmarshal([]byte(args), &req)] into a map; null leaves it nil. *)
Definition decode_args (args : ToolArgs) : result object :=
  match args with
  | ArgsObject o => Ok o
  | ArgsNull => Ok ∅
  | _ => Err (ErrorString "参数解析失败")
  end.
(** [req[key].(string)], an empty text refused. *)
Definition text_arg (req : object) (key : string) : result string :=
  match req !! key with
  | Some (JString s) => if (s =? "")%string then Err (ErrorString ("缺少必需参数: " +:+ key)) else Ok s
  | _ => Err (ErrorString ("缺少必需参数: " +:+ key))
  end.
Definition region_filter (req : object) : string :=
  match req !! "region" with Some (JString s) => s | _ => "" end.

(** The fields of a struct in a decoded object: a key matches the name of a field
    whatever its case, a later key of the text overrides an earlier one, and
    [json.Marshal] wrote the keys in order.  A field that is no text is an error. *)
Definition later_key (a b : string * string) : bool := str_ltb b.1 a.1.
Definition field_values (name : string) (o : object) : list (string * json) :=
  filter (λ kv, EqualFold kv.1 name = true) (map_to_list o).
Definition struct_field (name : string) (o : object) : result string :=
  let values := field_values name o in
  if forallb (λ kv, match kv.2 with JString _ | JNull => true | _ => false end) values
  then Ok (default "" (snd <$> first_by later_key
             (omap (λ kv, match kv.2 with JString s => Some (kv.1, s) | _ => None end) values)))
  else Err (ErrorString "参数解析失败").

Section tools.
Context (uuid_Parse : string → option UUID).

(** The tenant and whether there is one. *)
Definition parseOptionalTenantID (req : object) : result (option UUID) :=
  match req !! "tenant_id" with
  | None | Some JNull => Ok None
  | Some (JString text) =>
    let text := TrimSpace text in
    if (text =? "")%string then Ok None else
    match uuid_Parse text with
    | Some tenantID => Ok (Some tenantID)
    | None => Err (ErrorString "invalid tenant_id")
    end
  | Some _ => Err (ErrorString "tenant_id must be a string")
  end.
Definition required_tenant (req : object) : result UUID :=
  tenant ← parseOptionalTenantID req;
  match tenant with Some t => Ok t | None => Err (ErrorString "tenant_id is required") end.

(** ** Nodes *)

Definition aiToolNodeReadLimit : Z := MaxNodeListLimit.

Definition in_tenant (tenant : option UUID) (node : Node) : bool :=
  match tenant with Some t => (N_TenantID node =? t)%string | None => true end.
Definition filterNodesByTenant (nodes : list Node) (tenant : option UUID) : list Node :=
  filter (λ n, in_tenant tenant n = true) nodes.
(** The first node of that name and how many there are. *)
Definition findUniqueNodeByHostnameInNodesForScope (nodes : list Node) (hostname : string) (tenant : option UUID)
    : option Node * nat :=
  let matched := filter (λ n, (N_Hostname n =? hostname)%string && in_tenant tenant n = true) nodes in
  (head matched, length matched).
Definition findUniqueNodeByHostnameForScope (hostname : string) (tenant : option UUID) : M (option Node * nat) :=
  nodes ← (match tenant with
           | Some t => ListTenantNodesByHostname t hostname 2
           | None => ListNodesByHostname hostname 2
           end);
  mret (findUniqueNodeByHostnameInNodesForScope nodes hostname tenant).
Definition listNodesForToolScope (tenant : option UUID) : M (list Node) :=
  match tenant with
  | Some t => GetNodesByTenantPage t aiToolNodeReadLimit 0
  | None => GetAllNodesPage aiToolNodeReadLimit 0
  end.
Definition listNodesForEnrollmentToken (tenantID : UUID) (enrollmentToken : string) : M (list Node) :=
  ListTenantNodesByEnrollmentToken tenantID enrollmentToken aiToolNodeReadLimit.
Definition tool_nodes (tenant : option UUID) : M (list Node) := wrap "查询节点失败" (listNodesForToolScope tenant).
(** The node a tool of one node is asked about. *)
Definition tool_node (hostname : string) (tenant : option UUID) : M (option Node) :=
  '(node, matchCount) ← wrap "查询节点失败" (findUniqueNodeByHostnameForScope hostname tenant);
  if (1 <? matchCount)%nat
  then fail (ErrorString ("节点名称 [" +:+ hostname +:+ "] 在多个租户中重复，请提供 tenant_id"))
  else mret node.
Definition of_region (region : string) (nodes : list Node) : list Node :=
  if (region =? "")%string then nodes else filter (λ n, (N_Region n =? region)%string = true) nodes.

(** ** Answers *)

Record NodeCard := mkNodeCard {
  nc_name : string; nc_public_key : string; nc_endpoint : string; nc_assigned_ip : string; nc_region : string;
  nc_status : string; nc_convergence_status : option ConvergenceStatus; nc_role : string; nc_last_seen : Z;
  nc_last_sync_error : string; nc_public_ip : string;
}.
Record NodeDetailCard := mkNodeDetailCard {
  nd_name : string; nd_tenant_id : UUID; nd_public_key : string; nd_endpoint : string; nd_assigned_ip : string;
  nd_private_ip : string; nd_public_ip : string; nd_region : string; nd_vpc_id : string; nd_role : string;
  nd_runtime_mode : string; nd_kernel_version : string; nd_status : string; nd_last_seen : Z;
  nd_advertised_routes : list string; nd_registered_at : Z; nd_created_at : Time; nd_updated_at : Time;
}.
Record TokenCard := mkTokenCard {
  tc_token : string; tc_tag : string; tc_max_uses : Z; tc_used_count : Z; tc_status : string;
  tc_expires_at : string; tc_created_at : string; tc_nodes : list (string * string * string * string);
}.
(** A line of the report on a connection. *)
Inductive finding :=
  | Between (source target : string)
  | SourceOnline (b : bool) (hostname : string) (last_seen : Z)
  | TargetOnline (b : bool) (hostname : string) (last_seen : Z)
  | SourceState (status : ConvergenceStatus) (lastSyncError : string)
  | TargetState (status : ConvergenceStatus) (lastSyncError : string)
  | RulesUnread (source target : bool)
  | SourceBlocks (id : UUID) (name source target : string)
  | TargetBlocks (id : UUID) (name source target : string)
  | NothingBlocks
  | ControlPlaneFine
  | ResolveFirst.
Inductive Answer :=
  | NodeCards (l : list NodeCard)
  | NoNodes
  | NodeDetailed (d : NodeDetailCard)
  | NodeRoutes (hostname : string) (tenant : UUID) (region : string) (routes : list string)
  | AllRoutes (l : list (string * string * list string * string))
  | MonitorStats (total online offline : Z) (by_region by_status : gmap string Z)
  | NetworkConfig (base_ip cidr : string)
  | TokenCards (l : list Token)
  | TokenDetailed (d : TokenCard)
  | TokenMade (d : TokenCard)
  | RouteAdded (hostname : string) (tenant : UUID) (cidr region : string) (routes : list string)
  | RouteRemoved (hostname : string) (tenant : UUID) (cidr : string) (routes : list string)
  | Report (l : list finding).

Context (json_Marshal : Answer → string).
Definition card (a : Answer) : M string := mret ("CARD_DATA:" +:+ json_Marshal a).
Definition no_such_node (hostname : string) : M string := mret ("节点 [" +:+ hostname +:+ "] 不存在").

(** ** Tools of nodes *)

Definition node_card (node : Node) : M NodeCard :=
  let status := if negb (N_Status node =? "")%string && negb (N_Status node =? "online")%string
                then N_Status node else "online" in
  state ← attempt (GetNodeControlState (N_TenantID node) (N_ID node));
  let '(convergence, lastSyncError) :=
    match state with
    | Ok (Some s) => (Some (GetConvergenceStatus s (status =? "online")%string), ncs_LastSyncError s)
    | _ => (None, "")
    end in
  mret (mkNodeCard (N_Hostname node) (N_PublicKey node) (N_Endpoint node) (N_AssignedIP node) (N_Region node) status
          convergence (N_Role node) (N_LastSeen node) lastSyncError (N_PublicIP node)).
(** Arguments that do not decode are no arguments here. *)
Definition list_nodes (args : ToolArgs) : M string :=
  let req := match args with ArgsObject o => o | _ => ∅ end in
  tenant ← lift (λ _, parseOptionalTenantID req);
  nodes ← tool_nodes tenant;
  let nodes := of_region (region_filter req) (filterNodesByTenant nodes tenant) in
  infos ← map_each node_card nodes;
  card (if bool_decide (infos = []) then NoNodes else NodeCards infos).

Definition node_detail (node : Node) : NodeDetailCard :=
  mkNodeDetailCard (N_Hostname node) (N_TenantID node) (N_PublicKey node) (N_Endpoint node) (N_AssignedIP node)
    (N_PrivateIP node) (N_PublicIP node) (N_Region node) (N_VPCID node) (N_Role node) (N_RuntimeMode node)
    (N_KernelVersion node) (N_Status node) (N_LastSeen node) (N_AdvertisedRoutes node) (N_RegisteredAt node)
    (N_CreatedAt node) (N_UpdatedAt node).
Definition get_node_detail (args : ToolArgs) : M string :=
  req ← lift (λ _, decode_args args);
  nodeName ← lift (λ _, text_arg req "node_name");
  tenant ← lift (λ _, parseOptionalTenantID req);
  node ← tool_node nodeName tenant;
  match node with None => no_such_node nodeName | Some node => card (NodeDetailed (node_detail node)) end.

Definition get_network_config (base_ip cidr : string) (_ : ToolArgs) : M string := card (NetworkConfig base_ip cidr).

Definition count_in (key : string) (m : gmap string Z) : gmap string Z := <[key := default 0 (m !! key) + 1]> m.
Definition shown_status (node : Node) : string :=
  if (N_Status node =? "")%string then "online" else N_Status node.
Definition count_status (status : string) (nodes : list Node) : Z :=
  Z.of_nat (length (filter (λ n, (shown_status n =? status)%string = true) nodes)).
Definition get_monitor_stats (args : ToolArgs) : M string :=
  req ← lift (λ _, decode_args args);
  tenantID ← lift (λ _, required_tenant req);
  nodes ← tool_nodes (Some tenantID);
  card (MonitorStats (Z.of_nat (length nodes)) (count_status "online" nodes) (count_status "offline" nodes)
    (foldl (λ m n, if (N_Region n =? "")%string then m else count_in (N_Region n) m) ∅ nodes)
    (foldl (λ m n, count_in (shown_status n) m) ∅ nodes)).

(** ** Tools of tokens *)

Definition current_status (now : Time) (t : Token) : string :=
  if (tok_Status t =? StatusActive)%string then
    if IsExpired now t then StatusExpired
    else if (tok_MaxUses t <=? tok_UsedCount t) && (0 <? tok_MaxUses t) then StatusExhausted else tok_Status t
  else tok_Status t.
Definition list_tokens (args : ToolArgs) : M string :=
  req ← lift (λ _, decode_args args);
  tenantID ← lift (λ _, required_tenant req);
  tokens ← wrap "查询 Token 失败" (List "");
  now ← ask env_go_now;
  card (TokenCards ((λ t, t <| tok_Status := current_status now t |>)
          <$> filter (λ t, (tok_TenantID t =? tenantID)%string = true) tokens)).

Definition no_such_token (tokenStr : string) : M string := mret ("Token [" +:+ tokenStr +:+ "] 不存在").
Definition get_token_detail (args : ToolArgs) : M string :=
  req ← lift (λ _, decode_args args);
  tokenStr ← lift (λ _, text_arg req "token");
  tenantID ← lift (λ _, required_tenant req);
  tkn ← attempt (GetByToken tokenStr);
  match tkn with
  | Ok (Some t) =>
    if negb (tok_TenantID t =? tenantID)%string then no_such_token tokenStr else
    now ← ask env_go_now;
    nodes ← wrap "查询节点失败" (listNodesForEnrollmentToken tenantID tokenStr);
    card (TokenDetailed (mkTokenCard (tok_Token t) (tok_Tag t) (tok_MaxUses t) (tok_UsedCount t) (current_status now t)
      (RFC3339 (tok_ExpiresAt t)) (RFC3339 (tok_CreatedAt t))
      ((λ n, (N_Hostname n, N_AssignedIP n, N_Region n, N_Status n)) <$> nodes)))
  | _ => no_such_token tokenStr
  end.

Section create.
(** [int(n)] of a JSON number by its text, and the readings of the clock. *)
Context (json_int : string → option Z) (nanos : nat → Z).

Definition Minute : Z := 60 * 1000000000.
Definition charset : text := String.list_ascii_of_string "abcdefghijklmnopqrstuvwxyz0123456789".
(** Every character is taken from the clock. *)
Definition generateRandomToken : string :=
  "tk_" +:+ String.string_of_list_ascii
    ((λ i, nth (Z.to_nat (nanos i mod Z.of_nat (length charset))) charset "a"%char) <$> seq 0 16).

(** [fmt.Sscanf(s, "%d", &value)]: a number after spaces, or 0. *)
Fixpoint leading_digits (l : text) : text :=
  match l with
  | c :: l' => match digit_val c with Some _ => c :: leading_digits l' | None => [] end
  | [] => []
  end.
Fixpoint skip_space (l : text) : text :=
  match l with
  | c :: l' => if is_space c && negb (bool_decide (c = "010"%char)) then skip_space l' else l
  | [] => []
  end.
Definition scan_int (l : text) : Z :=
  let l := skip_space l in
  default 0 (atoi_text (match l with
                        | ("+"%char as c) :: l' | ("-"%char as c) :: l' => c :: leading_digits l'
                        | _ => leading_digits l
                        end)).
(** A duration in nanoseconds, 64 bits wide. *)
Definition parseTTL (ttl : string) : Z :=
  let l := String.list_ascii_of_string ttl in
  match reverse l with
  | unit :: ((_ :: _) as value) =>
    let value := scan_int (reverse value) in
    match lower_char unit with
    | "h"%char => int64 (value * Hour)
    | "d"%char => int64 (value * (24 * Hour))
    | "m"%char => int64 (value * Minute)
    | _ => 24 * Hour
    end
  | _ => 24 * Hour
  end.

Definition create_token (args : ToolArgs) : M string :=
  req ← lift (λ _, decode_args args);
  tag ← lift (λ _, text_arg req "tag");
  tenantID ← lift (λ _, required_tenant req);
  let maxUses := match req !! "max_uses" with Some (JOther n) => default 1 (json_int n) | _ => 1 end in
  let ttl := match req !! "ttl" with Some (JString s) => if (s =? "")%string then "24h" else s | _ => "24h" end in
  now ← ask env_go_now;
  t ← wrap "创建 Token 失败" (Create (mkToken uuid_Nil generateRandomToken tag tenantID maxUses 0
         (now + parseTTL ttl / 1000) now "" StatusActive None ""));
  card (TokenMade (mkTokenCard (tok_Token t) (tok_Tag t) (tok_MaxUses t) 0 (tok_Status t) (RFC3339 (tok_ExpiresAt t))
                     (RFC3339 (tok_CreatedAt t)) [])).
End create.

(** ** Tools of routes *)

Definition add_route (args : ToolArgs) : M string :=
  req ← lift (λ _, decode_args args);
  hostname ← lift (λ _, text_arg req "hostname");
  cidr ← lift (λ _, text_arg req "cidr");
  match ParseCIDR cidr with
  | None => fail (ErrorString ("无效的 CIDR 格式: " +:+ cidr))
  | Some _ =>
    tenant ← lift (λ _, parseOptionalTenantID req);
    node ← tool_node hostname tenant;
    match node with
    | None => no_such_node hostname
    | Some target =>
      if one_of cidr (N_AdvertisedRoutes target)
      then mret ("路由 " +:+ cidr +:+ " 已存在于节点 " +:+ hostname) else
      conflict ← attempt (FindTenantAdvertisedRouteConflict (N_TenantID target) (N_PublicKey target) (N_Region target) [cidr]);
      match conflict with
      | Err (RouteConflictError _ _ other region _ _ _) =>
        mret ("路由 " +:+ cidr +:+ " 与 Region " +:+ region +:+ " 的节点 " +:+ other
              +:+ " 冲突（不同 Region 不能有重叠路由）")
      | Err _ => fail (ErrorString "检查路由冲突失败")
      | Ok _ =>
        let target := target <| N_AdvertisedRoutes := N_AdvertisedRoutes target ++ [cidr] |> in
        _ ← wrap "保存节点失败" (SaveNode (Some target));
        card (RouteAdded hostname (N_TenantID target) cidr (N_Region target) (N_AdvertisedRoutes target))
      end
    end
  end.

Definition remove_route (args : ToolArgs) : M string :=
  req ← lift (λ _, decode_args args);
  hostname ← lift (λ _, text_arg req "hostname");
  cidr ← lift (λ _, text_arg req "cidr");
  tenant ← lift (λ _, parseOptionalTenantID req);
  node ← tool_node hostname tenant;
  match node with
  | None => no_such_node hostname
  | Some target =>
    if negb (one_of cidr (N_AdvertisedRoutes target))
    then mret ("路由 " +:+ cidr +:+ " 不存在于节点 " +:+ hostname) else
    let target := target <| N_AdvertisedRoutes := filter (.≠ cidr) (N_AdvertisedRoutes target) |> in
    _ ← wrap "保存节点失败" (SaveNode (Some target));
    mret (json_Marshal (RouteRemoved hostname (N_TenantID target) cidr (N_AdvertisedRoutes target)))
  end.

Definition get_node_routes (args : ToolArgs) : M string :=
  req ← lift (λ _, decode_args args);
  hostname ← lift (λ _, text_arg req "hostname");
  tenant ← lift (λ _, parseOptionalTenantID req);
  node ← tool_node hostname tenant;
  match node with
  | None => no_such_node hostname
  | Some node => card (NodeRoutes hostname (N_TenantID node) (N_Region node) (N_AdvertisedRoutes node))
  end.

(** The nodes are not filtered again here. *)
Definition list_all_routes (args : ToolArgs) : M string :=
  let req := match args with ArgsObject o => o | _ => ∅ end in
  tenant ← lift (λ _, parseOptionalTenantID req);
  nodes ← tool_nodes tenant;
  card (AllRoutes ((λ n, (N_Hostname n, N_Region n, N_AdvertisedRoutes n, N_PublicIP n))
                     <$> of_region (region_filter req) nodes)).

(** ** Diagnosis of a connection *)

Definition aclDirectionApplies (direction want : string) : bool :=
  let normalized := ToLower (TrimSpace direction) in
  if one_of normalized [""; "both"; "all"] then true
  else if (normalized =? "in")%string then (want =? "ingress")%string
  else if (normalized =? "out")%string then (want =? "egress")%string
  else (normalized =? want)%string.

(** An IPv4-mapped address is the IPv4 address. *)
Definition unmapped_ip (a : Addr) : Addr :=
  match To4 a with Some v => mkAddr true v "" | None => a end.
Definition aclCIDRMatchesIP (cidr ip : string) : bool :=
  let cidr := TrimSpace cidr in
  if (cidr =? "")%string || EqualFold cidr "any" || (cidr =? "0.0.0.0/0")%string || (cidr =? "::/0")%string then true else
  match ParseIP (TrimSpace ip) with
  | None => false
  | Some parsedIP =>
    match Cut cidr "/"%char with
    | Some _ => match ParseCIDR cidr with Some network => Contains network (unmapped_ip parsedIP) | None => false end
    | None => match ParseIP cidr with Some ruleIP => bool_decide (unmapped_ip ruleIP = unmapped_ip parsedIP) | None => false end
    end
  end.
Definition aclDenyRuleMatchesPath (rule : ACLRuleRecord) (srcIP dstIP : string) : bool :=
  if negb (a_Enabled rule) || negb (ToLower (TrimSpace (a_Action rule)) =? "deny")%string then false
  else aclCIDRMatchesIP (a_SrcCIDR rule) srcIP && aclCIDRMatchesIP (a_DstCIDR rule) dstIP.

(** The last node of a name, as the loop leaves it. *)
Definition last_named (hostname : string) (nodes : list Node) : option Node :=
  last (filter (λ n, (N_Hostname n =? hostname)%string = true) nodes).
Definition state_finding (line : ConvergenceStatus → string → finding) (state : result (option NodeControlState))
    (isOnline : bool) : list finding :=
  match state with
  | Ok (Some s) => let status := GetConvergenceStatus s isOnline in
                   [line status (if bool_decide (status = StatusConverged) then "" else ncs_LastSyncError s)]
  | _ => []
  end.
Definition rules_of `{CidrText} (node : Node) : M (result (list ACLRuleRecord)) :=
  attempt (GetEnabledTenantNodeACLRules (N_TenantID node) (N_ID node)).
Definition read_rules (rules : result (list ACLRuleRecord)) : list ACLRuleRecord :=
  match rules with Ok l => l | Err _ => [] end.
Definition blocking (want : string) (src dst : Node) (rules : list ACLRuleRecord) : option ACLRuleRecord :=
  List.find (λ rule, aclDirectionApplies (a_Direction rule) want
                     && aclDenyRuleMatchesPath rule (N_AssignedIP src) (N_AssignedIP dst)) rules.
Definition block_finding (src dst : Node) (srcRules dstRules : list ACLRuleRecord) : finding :=
  match blocking "egress" src dst srcRules with
  | Some rule => SourceBlocks (a_ID rule) (a_Name rule) (N_Hostname src) (N_Hostname dst)
  | None =>
    match blocking "ingress" src dst dstRules with
    | Some rule => TargetBlocks (a_ID rule) (a_Name rule) (N_Hostname src) (N_Hostname dst)
    | None => NothingBlocks
    end
  end.

Definition diagnose_connectivity `{CidrText} (args : ToolArgs) : M string :=
  req ← lift (λ _, decode_args args);
  sourceHostname ← lift (λ _, struct_field "source_hostname" req);
  targetHostname ← lift (λ _, struct_field "target_hostname" req);
  tenant ← lift (λ _, struct_field "tenant_id" req);
  tenantID ← lift (λ _, required_tenant {["tenant_id" := JString tenant]});
  nodes ← tool_nodes (Some tenantID);
  match last_named sourceHostname nodes, last_named targetHostname nodes with
  | None, _ => mret ("未找到源节点: " +:+ sourceHostname)
  | Some _, None => mret ("未找到目标节点: " +:+ targetHostname)
  | Some src, Some dst =>
    if negb (N_TenantID src =? N_TenantID dst)%string
    then mret "诊断失败：两个节点属于不同的租户，默认无法互通。" else
    now ← ask env_go_now;
    let isSrcOnline := unix now - N_LastSeen src <=? 60 in
    let isDstOnline := unix now - N_LastSeen dst <=? 60 in
    srcState ← attempt (GetNodeControlState (N_TenantID src) (N_ID src));
    dstState ← attempt (GetNodeControlState (N_TenantID dst) (N_ID dst));
    srcRules ← rules_of src;
    dstRules ← rules_of dst;
    let block := block_finding src dst (read_rules srcRules) (read_rules dstRules) in
    let blocked := negb (match block with NothingBlocks => true | _ => false end) in
    mret (json_Marshal (Report (
      [Between (N_Hostname src) (N_Hostname dst);
       SourceOnline isSrcOnline (N_Hostname src) (N_LastSeen src);
       TargetOnline isDstOnline (N_Hostname dst) (N_LastSeen dst)]
      ++ state_finding SourceState srcState isSrcOnline ++ state_finding TargetState dstState isDstOnline
      ++ (if is_ok srcRules && is_ok dstRules then [] else [RulesUnread (is_ok srcRules) (is_ok dstRules)])
      ++ [block; if isSrcOnline && isDstOnline && negb blocked then ControlPlaneFine else ResolveFirst])))
  end.
End tools.
