(* ===== verification/Assistant.v ===== *)
(** * The assistant

    [internal/agent/brain/agent.go], [internal/service/ai_service.go] and
    [internal/api/handlers/chat.go]: a conversation with a language model that may
    call the tools of [AssistantTools], and the run of one tool a user confirms.  The
    language model is a parameter: any function of the messages and the tools it is
    given.  The memory of conversations is a map from the session a client names. *)

From S2P Require Import Prelude GoStr Netip Records CidrColumn Store Tokens ControlState Nodes PolicyRules Routes Tenants Sessions Access AssistantTools.

Open Scope Z_scope.

(** ** Cleaning the answer of the model *)

(** [strings.ReplaceAll(s, old, '')]; [skip] characters belong to a match. *)
Fixpoint remove_all (old : text) (skip : nat) (l : text) : text :=
  match l with
  | [] => []
  | c :: l' =>
    match skip with
    | S k => remove_all old k l'
    | O => if bool_decide (old `prefix_of` l) then remove_all old (length old - 1) l' else c :: remove_all old 0 l'
    end
  end.
(** [strings.Index] and [strings.LastIndex]. *)
Fixpoint index_of (sub l : text) : option nat :=
  if bool_decide (sub `prefix_of` l) then Some 0%nat else
  match l with [] => None | _ :: l' => S <$> index_of sub l' end.
Fixpoint last_index (c : ascii) (l : text) : option nat :=
  match l with
  | [] => None
  | d :: l' => match last_index c l' with
               | Some i => Some (S i)
               | None => if bool_decide (d = c) then Some 0%nat else None
               end
  end.
(** The shortest matches of [(?s)<think>.*?</think>], from the left. *)
Definition think_open : text := String.list_ascii_of_string "<think>".
Definition think_close : text := String.list_ascii_of_string "</think>".
Fixpoint remove_thoughts (skip : nat) (l : text) : text :=
  match l with
  | [] => []
  | c :: l' =>
    match skip with
    | S k => remove_thoughts k l'
    | O =>
      if bool_decide (think_open `prefix_of` l) then
        match index_of think_close (drop (length think_open) l) with
        | Some i => remove_thoughts (length think_open + i + length think_close - 1) l'
        | None => c :: remove_thoughts 0 l'
        end
      else c :: remove_thoughts 0 l'
    end
  end.

(** A brace that closes before one opens makes the slice panic. *)
Definition CleanLLMResponse (raw : string) : result string :=
  if (raw =? "")%string then Ok raw else
  let remove old l := remove_all (String.list_ascii_of_string old) 0 l in
  let cleaned := remove_thoughts 0 (String.list_ascii_of_string raw) in
  let cleaned := remove "```" (remove "```text" (remove "```" (remove "```json" cleaned))) in
  let cleaned := trim cleaned in
  match index_of ["{"%char] cleaned, last_index "}"%char cleaned with
  | Some first, Some last =>
    if (last + 1 <? first)%nat then Err (Panic "slice bounds out of range")
    else Ok (String.string_of_list_ascii (take (last + 1 - first) (drop first cleaned)))
  | _, _ => Ok (String.string_of_list_ascii cleaned)
  end.

(** ** The conversation *)

Record ToolCall := mkToolCall {
  call_ID : string;
  call_Name : string;
  call_Arguments : string;
}.
Record Choice := mkChoice {
  ch_Content : string;
  ch_ToolCalls : list ToolCall;
}.
Inductive MessageContent :=
  | FromSystem (s : string)
  | FromHuman (s : string)
  | FromAI (s : string)
  | CallsTool (c : ToolCall)
  | ToolAnswers (id name content : string).
Record Message := mkMessage {
  Role : string;
  Content : string;
}.

Abbreviation memory := (gmap string (list Message)).

Record Tool := mkTool {
  tl_Name : string;
  tl_RequiredPermission : string;
  tl_TenantScoped : bool;
  tl_Run : ToolArgs → M string;
}.

(** A panic ends the request whatever its callers do with errors. *)
Definition caught {A} (m : M A) : M (result A) := λ e st,
  match m e st with
  | (Err (Panic msg), st') => (Err (Panic msg), st')
  | (r, st') => (Ok r, st')
  end.

Section brain.
(** The model, which answers or fails; nothing when it is not configured. *)
Context (llm : option (list MessageContent → list string → result (list Choice))).
Context (systemPrompt : string).
(** What [json.Unmarshal] makes of a text that is not blank. *)
Context (json_args : string → ToolArgs).

Definition tool_args (args : string) : ToolArgs :=
  if (TrimSpace args =? "")%string then ArgsBlank else json_args args.

Definition runTool (toolList : list Tool) (name args : string) : M string :=
  match List.find (λ t, (tl_Name t =? name)%string) toolList with
  | Some t =>
    res ← caught (tl_Run t (tool_args args));
    mret (match res with Ok text => text | Err x => "Tool Error: " +:+ error_text x end)
  | None => mret "Error: Tool not found"
  end.

(** [resp.Choices[0]]. *)
Definition first_choice (resp : list Choice) : M Choice :=
  match resp with
  | choice :: _ => mret choice
  | [] => fail (Panic "index out of range [0] with length 0")
  end.
Definition is_card (s : string) : bool := (10 <? String.length s)%nat && HasPrefix s "CARD_DATA:".

Definition think (generate : list MessageContent → list string → result (list Choice)) (messages : list MessageContent)
    (toolList : list Tool) : M string :=
  resp ← lift (λ _, generate messages (tl_Name <$> toolList));
  choice ← first_choice resp;
  match ch_ToolCalls choice with
  | [] => mret (ch_Content choice)
  | call :: _ =>
    cleanedArgs ← lift (λ _, CleanLLMResponse (call_Arguments call));
    executionResult ← runTool toolList (call_Name call) cleanedArgs;
    if is_card executionResult then mret executionResult else
    final ← lift (λ _, generate (messages ++ [CallsTool call; ToolAnswers (call_ID call) (call_Name call) executionResult]) []);
    choice ← first_choice final;
    mret (ch_Content choice)
  end.
Definition unconfigured : string := "AI 服务未正确配置，请检查 DEEPSEEK_API_KEY 环境变量".
Definition ThinkWithTools (prompt : string) (toolList : list Tool) : M string :=
  match llm with
  | None => mret unconfigured
  | Some generate => think generate [FromSystem systemPrompt; FromHuman prompt] toolList
  end.
Definition history_message (msg : Message) : option MessageContent :=
  if (Role msg =? "user")%string then Some (FromHuman (Content msg))
  else if (Role msg =? "assistant")%string then Some (FromAI (Content msg)) else None.
Definition ThinkWithHistoryTools (prompt : string) (history : list Message) (toolList : list Tool) : M string :=
  match llm with
  | None => mret unconfigured
  | Some generate =>
    think generate (FromSystem systemPrompt :: omap history_message history ++ [FromHuman prompt]) toolList
  end.

(** ** The service *)

Context `{CidrText} (uuid_Parse : string → option UUID) (json_Marshal : Answer → string).
Context (json_int : string → option Z) (nanos : nat → Z) (base_ip cidr : string).

(** The tools [NewAIService] registers. *)
Definition registered_tools : list Tool :=
  [mkTool "list_nodes" "nodes:read" true (list_nodes uuid_Parse json_Marshal);
   mkTool "get_node_detail" "nodes:read" true (get_node_detail uuid_Parse json_Marshal);
   mkTool "get_network_config" "routes:read" false (get_network_config json_Marshal base_ip cidr);
   mkTool "list_tokens" "tokens:read" true (list_tokens uuid_Parse json_Marshal);
   mkTool "get_token_detail" "tokens:read" true (get_token_detail uuid_Parse json_Marshal);
   mkTool "create_token" "tokens:write" true (create_token uuid_Parse json_Marshal json_int nanos);
   mkTool "add_route" "routes:write" true (add_route uuid_Parse json_Marshal);
   mkTool "remove_route" "routes:write" true (remove_route uuid_Parse json_Marshal);
   mkTool "get_node_routes" "routes:read" true (get_node_routes uuid_Parse json_Marshal);
   mkTool "list_all_routes" "routes:read" true (list_all_routes uuid_Parse json_Marshal);
   mkTool "get_monitor_stats" "monitoring:read" true (get_monitor_stats uuid_Parse json_Marshal);
   mkTool "diagnose_connectivity" "monitoring:read" true (diagnose_connectivity uuid_Parse json_Marshal)].

(** Writing to the nil map that null leaves panics. *)
Definition injectTenantIDArg (args : ToolArgs) (tenantID : UUID) : result ToolArgs :=
  let inject o := Ok (ArgsObject (<["tenant_id" := JString tenantID]> o)) in
  match args with
  | ArgsBlank => inject ∅
  | ArgsMalformed => Err (ErrorString "invalid tool params")
  | ArgsNull => Err (Panic "assignment to entry in nil map")
  | ArgsObject o => inject o
  end.
Definition runScopedTool (ctx : Context) (tool : Tool) (args : ToolArgs) : M string :=
  _ ← authorizeTool ctx (tl_RequiredPermission tool);
  if tl_TenantScoped tool then
    match TenantID ctx with
    | None => fail (ErrorString "tenant context is required for this AI tool")
    | Some tenantID =>
      if (tenantID =? uuid_Nil)%string then fail (ErrorString "tenant context is required for this AI tool") else
      args ← lift (λ _, injectTenantIDArg args tenantID);
      tl_Run tool args
    end
  else tl_Run tool args.
Definition scopedTools (ctx : Context) : list Tool :=
  (λ t, mkTool (tl_Name t) (tl_RequiredPermission t) (tl_TenantScoped t) (runScopedTool ctx t)) <$> registered_tools.
(** [strings.HasSuffix]. *)
Definition HasSuffix (s suffix : string) : bool :=
  bool_decide (String.list_ascii_of_string suffix `suffix_of` String.list_ascii_of_string s).
Definition legacyAIWriteTool (tool : Tool) : bool := HasSuffix (TrimSpace (tl_RequiredPermission tool)) ":write".
Definition scopedReadOnlyTools (ctx : Context) : list Tool := filter (λ t, legacyAIWriteTool t = false) (scopedTools ctx).

Definition Chat (ctx : Context) (prompt : string) : M string := ThinkWithTools prompt (scopedReadOnlyTools ctx).

Definition maxTokens : nat := 20.
(** The answer and the memory after it, which holds the last messages. *)
Definition ChatWithContext (memo : memory) (ctx : Context) (chatID prompt : string) : M (string * memory) :=
  let history := default [] (memo !! chatID) in
  answer ← ThinkWithHistoryTools prompt history (scopedReadOnlyTools ctx);
  mret (answer,
    if (chatID =? "")%string then memo else
    let history := history ++ [mkMessage "user" prompt; mkMessage "assistant" answer] in
    <[chatID := drop (length history - maxTokens) history]> memo).

(** [json.Marshal] of parameters that came with a request; an absent map is null. *)
Definition ExecuteTool (ctx : Context) (toolName : string) (params : option object) : M (string * string) :=
  match List.find (λ t, (tl_Name t =? toolName)%string) (scopedTools ctx) with
  | None => fail (ErrorString ("tool not found: " +:+ toolName))
  | Some selectedTool =>
    if legacyAIWriteTool selectedTool
    then fail (ErrorString "AI write tools are disabled until Hermes confirmation and policy delivery workflow is available")
    else
    result ← caught (tl_Run selectedTool (match params with Some o => ArgsObject o | None => ArgsNull end));
    match result with
    | Ok text => mret (text, toolName)
    | Err _ => fail (ErrorString "tool execution failed")
    end
  end.

(** ** The handlers *)

Record ChatBody := mkChatBody { cb_Message : string; cb_SessionID : string }.
Record ConfirmBody := mkConfirmBody { cf_ToolName : string; cf_Params : option object }.
Inductive assistant_answer :=
  | Replied (session reply : string) (memo : memory)
  | Executed (text tool : string).

Definition service_error {A} (m : M A) : M A :=
  r ← caught m;
  match r with
  | Ok a => mret a
  | Err x => write_error 500 "AI_SERVICE_ERROR" (error_text x)
  end.
Definition HandleChat (memo : memory) (r : Request) (ctx : Context) (body : option ChatBody) : M assistant_answer :=
  if negb (Method r =? "POST")%string then method_not_allowed else
  req ← body_of body;
  if (cb_Message req =? "")%string then write_error 400 "MESSAGE_EMPTY" "Message cannot be empty" else
  '(reply, memo) ← service_error (ChatWithContext memo ctx (cb_SessionID req) (cb_Message req));
  mret (Replied (cb_SessionID req) reply memo).
Definition HandleConfirm (r : Request) (ctx : Context) (body : option ConfirmBody) : M assistant_answer :=
  if negb (Method r =? "POST")%string then method_not_allowed else
  req ← body_of body;
  '(text, tool) ← service_error (ExecuteTool ctx (cf_ToolName req) (cf_Params req));
  mret (Executed text tool).
End brain.

(** ** The assistant as the dispatch of a tenant is given it *)

Record AssistantConfig := mkAssistant {
  as_llm : option (list MessageContent → list string → result (list Choice));
  as_systemPrompt : string;
  as_json_args : string → ToolArgs;
  as_json_Marshal : Answer → string;
  as_json_int : string → option Z;
  as_nanos : nat → Z;
  as_base_ip : string;
  as_cidr : string;
  as_history : memory;
}.
Section service.
Context `{CidrText} (uuid_Parse : string → option UUID) (a : AssistantConfig).
Definition chat : Request → Context → option ChatBody → M assistant_answer :=
  HandleChat (as_llm a) (as_systemPrompt a) (as_json_args a) uuid_Parse (as_json_Marshal a) (as_json_int a) (as_nanos a)
    (as_base_ip a) (as_cidr a) (as_history a).
Definition confirm : Request → Context → option ConfirmBody → M assistant_answer :=
  HandleConfirm uuid_Parse (as_json_Marshal a) (as_json_int a) (as_nanos a) (as_base_ip a) (as_cidr a).
End service.

Example cleaned :
  CleanLLMResponse "<think>a } b</think> ```json {x} ``` y" = Ok "{x}" ∧ CleanLLMResponse "null" = Ok "null" ∧
  CleanLLMResponse "} {" = Err (Panic "slice bounds out of range") ∧ CleanLLMResponse "}{" = Ok "" ∧
  CleanLLMResponse "<think><think>a</think>b" = Ok "b" ∧ CleanLLMResponse "<think>{" = Ok "<think>{".
Proof. vm_compute. split_and!; reflexivity. Qed.
