(* ===== verification/TenantApi.v ===== *)
(** * The interface below a tenant

    [HandleTenants] and [HandleTenantScoped] of [internal/api/v2/setup.go] behind
    [JWTAuthMiddlewareWithStore]: every request below api/v2/tenants, whose first
    part names a tenant, and the handler it is given to. *)

From S2P Require Import Prelude GoStr Netip Records CidrColumn Store Events Tokens ControlState AgentCommands PolicySync Nodes IPGroups PolicyRules Lifecycle RuntimeAuth Tenants Sessions Access Dispatch PolicyValidation PolicyAdmin GroupAdmin NodeAdmin AgentAdmin TokenAdmin Monitoring MetricsServer DeliveryStatus PolicyPages NodePages TenantAdmin Assistant.

Open Scope Z_scope.

Definition PermAiUse : string := "ai:use".
Definition PermNodesWrite : string := "nodes:write".

(** [splitTenantPath]: the text of the tenant and what follows it. *)
Definition splitTenantPath (path : string) : option (string * string) :=
  match splitPath path with
  | api :: v2 :: tenants :: tenantID :: rest =>
    if (api =? "api")%string && (v2 =? "v2")%string && (tenants =? "tenants")%string
    then Some (tenantID, join_slash rest) else None
  | _ => None
  end.

(** What the body of a request decodes to, by the handler that decodes it. *)
Record ApiBody := mkApiBody {
  bd_create_tenant : option TenantCreateRequest;
  bd_tenant : option tenantUpdateRequest;
  bd_statuses : option (list policyDeliveryStatusRequestItem);
  bd_retry : option RetryBody;
  bd_users : Body;
  bd_token : option tokenBody;
  bd_role : option RoleBody;
  bd_group : option ipGroupPayload;
  bd_node_ids : option (list string);
  bd_policy : PolicyBody;
  bd_route : option RouteBody;
  bd_node : option NodeBody;
  bd_command : option v2AgentCommandRequest;
  bd_batch : option v2BatchAgentCommandRequest;
  bd_resolve : option resolveBody;
  bd_chat : option ChatBody;
  bd_confirm : option ConfirmBody;
}.

Inductive nodes_answer :=
  | NodesRead (p : node_page)
  | NodePolicyRead (p : policy_page)
  | NodePolicyChanged (p : payload)
  | NodeAgent (a : agent_answer)
  | NodeUpdated (x : UUID * string * list string)
  | NodeDeleted (id : string).
Inductive api_answer :=
  | ATenant (a : tenant_answer)
  | AStatuses (l : list StatusItem)
  | APolicies (p : Page PolicyItem)
  | ARetried (p : payload)
  | AUsers (a : users_response)
  | ATokens (a : token_answer)
  | ARoles (a : roles_response)
  | AGroups (a : group_answer)
  | ANodes (a : nodes_answer)
  | AAgents (a : agent_answer)
  | AMonitoring (p : monitoring_page)
  | AAssistant (a : assistant_answer).

Section api.
Context `{CidrText, TieOrder, Sha256, Bcrypt} (salt : string) (uuid_Parse : string → option UUID) (enforcement : string).
(** [time.Parse], what [rand.Read] gives, and whether the database accepts the
    statement of [update_tenant_row]. *)
Context (time_Parse : string → option Time) (bytes : result text) (case_accepted : bool).
Context (vmClient : option VMClient) (ParseFloat : string → spec_float).
Context (assistant : AssistantConfig).

(** The subpaths of a node that are not its own page. *)
Definition node_policy_page (path : policy_path) (r : Request) (ctx : Context) (body : ApiBody) (tenantID : UUID)
    : M nodes_answer :=
  if (Method r =? "GET")%string
  then p ← read_node_policy uuid_Parse enforcement path r ctx tenantID; mret (NodePolicyRead p)
  else p ← change_node_policy uuid_Parse enforcement path r ctx (bd_policy body) (bd_route body) tenantID;
       mret (NodePolicyChanged p).
Definition handleTenantNodes (r : Request) (ctx : Context) (q : params) (body : ApiBody) (tenantID : UUID)
    : M nodes_answer :=
  let parts := splitPath (Path r) in
  let read := p ← read_nodes uuid_Parse enforcement r ctx q (bd_node_ids body) tenantID; mret (NodesRead p) in
  match parts !! 5%nat with
  | None => read
  | Some nodeID =>
    let sub := default "" (parts !! 6%nat) in
    if (length parts =? 6)%nat && (nodeID =? "status")%string then read
    else if (sub =? "security")%string then node_policy_page SecurityPath r ctx body tenantID
    else if (sub =? "qos")%string then node_policy_page QoSPath r ctx body tenantID
    else if (sub =? "routes")%string then node_policy_page RoutesPath r ctx body tenantID
    else if (sub =? "agent")%string then
      _ ← node_of_request uuid_Parse nodeID tenantID;
      a ← handleTenantNodeAgent uuid_Parse enforcement r ctx (bd_command body) (q "limit") tenantID parts;
      mret (NodeAgent a)
    else if (Method r =? "GET")%string then read
    else
      _ ← node_of_request uuid_Parse nodeID tenantID;
      if (Method r =? "PUT")%string then
        _ ← authorizeTenantPermission enforcement ctx tenantID PermNodesWrite;
        x ← updateTenantNode uuid_Parse (bd_node body) tenantID nodeID; mret (NodeUpdated x)
      else if (Method r =? "DELETE")%string then
        _ ← authorizeTenantPermission enforcement ctx tenantID PermNodesWrite;
        id ← deleteTenantNode uuid_Parse tenantID nodeID; mret (NodeDeleted id)
      else method_not_allowed
  end.

(** [handleTenantPolicies] with the path policies/retry. *)
Definition tenant_policies (r : Request) (ctx : Context) (q : params) (body : ApiBody) (tenantID : UUID)
    : M api_answer :=
  let parts := splitPath (Path r) in
  if (length parts =? 6)%nat && bool_decide (parts !! 4%nat = Some "policies")
     && bool_decide (parts !! 5%nat = Some "retry") then
    if negb (Method r =? "POST")%string then method_not_allowed
    else p ← retryTenantPolicySync uuid_Parse enforcement ctx (bd_retry body) tenantID; mret (ARetried p)
  else p ← handleTenantPolicies uuid_Parse enforcement r ctx q tenantID; mret (APolicies p).

Definition handleTenantAI (r : Request) (ctx : Context) (body : ApiBody) (tenantID : UUID) : M assistant_answer :=
  _ ← authorizeTenantPermission enforcement ctx tenantID PermAiUse;
  let parts := splitPath (Path r) in
  match parts !! 5%nat with
  | None => write_error 400 "INVALID_PATH" "Invalid AI path"
  | Some part =>
    let ctx := withTenantContext ctx tenantID in
    if (part =? "chat")%string then chat uuid_Parse assistant r ctx (bd_chat body)
    else if (part =? "confirm")%string then confirm uuid_Parse assistant r ctx (bd_confirm body)
    else write_error 404 "ENDPOINT_NOT_FOUND" "Unknown AI endpoint"
  end.

Definition HandleTenantScoped (r : Request) (ctx : Context) (q : params) (body : ApiBody) : M api_answer :=
  match splitTenantPath (Path r) with
  | None => write_error 400 "INVALID_PATH" "Invalid tenant path"
  | Some (tenantIDStr, rest) =>
    match uuid_Parse tenantIDStr with
    | None => write_error 400 "INVALID_TENANT_ID" "Invalid tenant ID"
    | Some tenantID =>
      match UserRole ctx with
      | None => forbidden "Access denied"
      | Some role =>
        if (rest =? "")%string then
          a ← handleSingleTenant case_accepted enforcement r ctx (bd_tenant body) tenantID role; mret (ATenant a)
        else if HasPrefix rest "policy-deliveries" then
          l ← handleTenantPolicyDeliveries uuid_Parse enforcement r ctx (bd_statuses body) tenantID; mret (AStatuses l)
        else if HasPrefix rest "policies" then tenant_policies r ctx q body tenantID
        else if HasPrefix rest "users" then
          a ← handleTenantUsers salt uuid_Parse enforcement r ctx (bd_users body) tenantID; mret (AUsers a)
        else if HasPrefix rest "tokens" then
          a ← handleTenantTokens enforcement
                (λ s, match uuid_Parse s with Some u => Ok u | None => Err (ErrorString "invalid UUID") end)
                bytes r ctx (bd_token body) tenantID; mret (ATokens a)
        else if HasPrefix rest "roles" then
          a ← handleTenantRoles uuid_Parse enforcement r ctx (bd_role body) tenantID; mret (ARoles a)
        else if HasPrefix rest "ip-groups" then
          a ← handleTenantIPGroups uuid_Parse enforcement r ctx (bd_group body) (q "limit") (q "offset") tenantID;
          mret (AGroups a)
        else if HasPrefix rest "nodes" then a ← handleTenantNodes r ctx q body tenantID; mret (ANodes a)
        else if HasPrefix rest "agents" then
          a ← handleTenantAgents uuid_Parse enforcement r ctx (bd_batch body) tenantID; mret (AAgents a)
        else if HasPrefix rest "monitoring" then
          p ← handleTenantMonitoring uuid_Parse enforcement time_Parse vmClient ParseFloat r ctx q
                (bd_resolve body) tenantID; mret (AMonitoring p)
        else if HasPrefix rest "ai" then a ← handleTenantAI r ctx body tenantID; mret (AAssistant a)
        else write_error 404 "ENDPOINT_NOT_FOUND" "Unknown endpoint"
      end
    end
  end.

Context `{UserJWT} (jwtSecret : string).
(** The two routes as [SetupRoutes] wraps them. *)
Definition serve_tenants (r : Request) (body : ApiBody) : M tenant_answer :=
  ctx ← jwtAuthMiddleware jwtSecret uuid_Parse r; HandleTenants enforcement r ctx (bd_create_tenant body).
Definition serve_tenant (r : Request) (q : params) (body : ApiBody) : M api_answer :=
  ctx ← jwtAuthMiddleware jwtSecret uuid_Parse r; HandleTenantScoped r ctx q body.
End api.
