(* ===== verification/TenantApiSpec.v ===== *)
(** * Who gets through to a tenant

    Every request below a tenant is refused, and changes nothing, unless it carries
    the token of an open session of a platform administrator or of a user of that
    very tenant, which is active: the composition of the middleware, the dispatch and
    the checks of every handler of [TenantApi]. *)

From S2P Require Import Prelude GoStr Netip Records CidrColumn Store Events Tokens ControlState AgentCommands PolicySync Nodes IPGroups PolicyRules Lifecycle RuntimeAuth Tenants Sessions Access AccessSpec RolesSpec Dispatch PolicyValidation PolicyAdmin GroupAdmin NodeAdmin AgentAdmin PolicyAdminSpec TokenAdmin Monitoring MonitoringSpec MetricsServer DeliveryStatus PolicyPages PolicyPagesSpec NodePages TenantAdmin AssistantTools Assistant TenantApi.

Open Scope Z_scope.

(** ** Gates *)

(** Neither a platform administrator nor of the tenant, or the tenant is not active. *)
Definition insider (ctx : Context) (t : UUID) (db : DB) : Prop :=
  UserRole ctx = Some "super_admin" ∨
  (TenantID ctx = Some t ∧ ∃ row, tenants db !! t = Some row ∧
     EqualFold (TrimSpace (default "" (t_status row))) "active" = true).
(** A computation that turns everybody else away. *)
Definition shut {A} (ctx : Context) (t : UUID) (m : M A) : Prop :=
  ∀ e st, insider ctx t (st_db st) ∨ ∃ x st', m e st = (Err x, st') ∧ st_db st' = st_db st.

Section gates.
Context (ctx : Context) (t : UUID).

Lemma shut_fail {A} x : shut ctx t (fail (A:=A) x).
Proof. intros e st. right. by eexists _, _. Qed.
Lemma shut_bind {A B} (m : M A) (k : A → M B) : shut ctx t m → shut ctx t (m ≫= k).
Proof.
  intros Hm e st. destruct (Hm e st) as [?|(x & st' & Hr & Hdb)]; [by left|right].
  exists x, st'. unfold mbind, M_bind. by rewrite Hr.
Qed.
Lemma shut_after {A B} (m : M A) (k : A → M B) :
  changes (same id) m → (∀ a, shut ctx t (k a)) → shut ctx t (m ≫= k).
Proof.
  intros Hm Hk e st. unfold mbind, M_bind. specialize (Hm e st). destruct (m e st) as [[a|x] st1]; cbn in Hm.
  - destruct (Hk a e st1) as [Hi|(x & st' & Hr & Hdb)].
    + left. unfold same, id in Hm. by rewrite <- Hm.
    + right. exists x, st'. split; [done|]. unfold same, id in Hm. congruence.
  - right. by exists x, st1.
Qed.

Lemma shut_ret {A B} (a : A) (k : A → M B) : shut ctx t (k a) → shut ctx t (mret a ≫= k).
Proof. done. Qed.

Lemma shut_authorize_tenant admin : shut ctx t (authorizeTenant ctx t admin).
Proof.
  unfold shut, insider, authorizeTenant. intros e st. destruct (UserRole ctx) as [role|]; [|right; by eexists _, _].
  destruct (String.eqb_spec role "super_admin") as [->|]; [by left; left|].
  destruct (TenantID ctx) as [own|]; [|right; by eexists _, _].
  destruct (String.eqb_spec own t) as [->|]; [|right; by eexists _, _]. cbn [negb].
  unfold mbind, M_bind, attempt. destruct (GetTenantStatus t e st) as [[s|x] st1] eqn:Hs.
  - apply GetTenantStatus_ok in Hs as (Hdb & row & Hrow & ->).
    destruct (EqualFold (TrimSpace (default "" (t_status row))) "active") eqn:Ha.
    + left. right. split; [done|]. by exists row.
    + right. by eexists _, _.
  - right. pose proof (GetTenantStatus_reads (same id) t e st) as Hdb. rewrite Hs in Hdb.
    destruct x; by eexists _, _.
Qed.
Lemma shut_authorize enforcement p : shut ctx t (authorizeTenantPermission enforcement ctx t p).
Proof. apply shut_bind, shut_authorize_tenant. Qed.
Lemma shut_authorize_any enforcement l : shut ctx t (authorizeTenantAnyPermission enforcement ctx t l).
Proof. apply shut_bind, shut_authorize_tenant. Qed.
End gates.

Lemma same_body_of {A} (b : option A) : changes (same id) (body_of b).
Proof. apply changes_body_of. apply _. Qed.
Lemma same_node_of_request parse id t : changes (same Datatypes.id) (node_of_request parse id t).
Proof. apply node_of_request_reads. apply _. Qed.
#[local] Hint Resolve same_body_of same_node_of_request : aria.

Ltac shut_step :=
  match goal with
  | |- shut _ _ (authorizeTenantPermission _ _ _ _ ≫= _) => apply shut_bind, shut_authorize
  | |- shut _ _ (let _ := _ in _) => cbv zeta
  | |- shut _ _ (match ?x with _ => _ end) => destruct x eqn:?
  | |- shut _ _ (_ ≫= _) => first
      [ apply shut_bind; solve [repeat shut_step; eauto with aria]
      | apply shut_after; [solve [eauto with aria]|intros ?] ]
  | |- shut _ _ _ => first [apply shut_fail | solve [eauto with aria]]
  end.
Ltac turned_away := repeat shut_step.

(** ** The handlers *)

Section handlers.
Context `{CidrText, TieOrder, Sha256, Bcrypt} (salt : string) (uuid_Parse : string → option UUID) (enforcement : string).
Context (time_Parse : string → option Time) (bytes : result text) (case_accepted : bool).
Context (vmClient : option VMClient) (ParseFloat : string → spec_float).
Context (assistant : AssistantConfig).
Context (ctx : Context) (t : UUID).

Lemma single_tenant_shut r body role : UserRole ctx = Some role →
  shut ctx t (handleSingleTenant case_accepted enforcement r ctx body t role).
Proof.
  intros Hrole. unfold handleSingleTenant. destruct (_ =? "GET")%string; [turned_away|].
  destruct (_ =? "PUT")%string; [turned_away|]. destruct (_ =? "DELETE")%string; [|turned_away].
  destruct (String.eqb_spec role "super_admin") as [->|]; cbn [negb]; [|apply shut_fail].
  intros e st. by left; left.
Qed.

Lemma required_first refs : refs ≠ [] → ∃ p l, required_permissions refs = p :: l.
Proof.
  intros Hne. unfold required_permissions. destruct (remove_dups refs.*2) as [|p l] eqn:Hr; [|by exists p, l].
  exfalso. destruct refs as [|[a p] refs]; [done|].
  assert (p ∈ remove_dups ((a, p) :: refs).*2) as Hp by (apply elem_of_remove_dups; by left).
  rewrite Hr in Hp. by apply not_elem_of_nil in Hp.
Qed.
Lemma statuses_shut r body : shut ctx t (handleTenantPolicyDeliveries uuid_Parse enforcement r ctx body t).
Proof.
  unfold handleTenantPolicyDeliveries. cbv zeta. destruct (negb _); [turned_away|]. destruct (negb _); [turned_away|].
  destruct body as [items|]; [|turned_away].
  destruct (_ || _) eqn:Hn; [turned_away|]. apply orb_false_iff in Hn as [Hn _]. apply bool_decide_eq_false in Hn.
  destruct (status_refs uuid_Parse items) as [refs|x] eqn:Hs; [|apply shut_bind; turned_away].
  apply (shut_ret _ _ refs). apply status_refs_length in Hs.
  destruct (required_first refs) as (p & l & ->).
  { intros ->. by destruct items. }
  apply shut_bind. cbn [for_each]. do 2 apply shut_bind. apply shut_authorize_any.
Qed.

Lemma retry_shut body : shut ctx t (retryTenantPolicySync uuid_Parse enforcement ctx body t).
Proof. unfold retryTenantPolicySync, bad_retry_domain. turned_away. Qed.
Lemma policies_shut r q body : shut ctx t (tenant_policies uuid_Parse enforcement r ctx q body t).
Proof.
  unfold tenant_policies. cbv zeta. destruct (_ && _).
  - destruct (negb _); [turned_away|]. apply shut_bind, retry_shut.
  - apply shut_bind. unfold handleTenantPolicies. turned_away.
Qed.
Lemma users_shut r body : shut ctx t (handleTenantUsers salt uuid_Parse enforcement r ctx body t).
Proof. unfold handleTenantUsers. turned_away. Qed.
Lemma tokens_shut parse r body : shut ctx t (handleTenantTokens enforcement parse bytes r ctx body t).
Proof. unfold handleTenantTokens. turned_away. Qed.
Lemma roles_shut r body : shut ctx t (handleTenantRoles uuid_Parse enforcement r ctx body t).
Proof. unfold handleTenantRoles. turned_away. Qed.
Lemma groups_shut r body limit offset : shut ctx t (handleTenantIPGroups uuid_Parse enforcement r ctx body limit offset t).
Proof. unfold handleTenantIPGroups. turned_away. Qed.
Lemma agents_shut r body : shut ctx t (handleTenantAgents uuid_Parse enforcement r ctx body t).
Proof. unfold handleTenantAgents. turned_away. Qed.
Lemma monitoring_shut r q body :
  shut ctx t (handleTenantMonitoring uuid_Parse enforcement time_Parse vmClient ParseFloat r ctx q body t).
Proof. unfold handleTenantMonitoring. turned_away. Qed.
Lemma assistant_shut r body : shut ctx t (handleTenantAI uuid_Parse enforcement assistant r ctx body t).
Proof. unfold handleTenantAI. turned_away. Qed.

Lemma node_policy_shut path r body : shut ctx t (node_policy_page uuid_Parse enforcement path r ctx body t).
Proof.
  unfold node_policy_page. destruct (_ =? "GET")%string; apply shut_bind.
  - unfold read_node_policy, read_acls, read_blacklist, read_qos, read_routes. turned_away.
  - unfold change_node_policy, change_security, change_acls, change_blacklist, change_qos, change_routes. turned_away.
Qed.
Lemma read_nodes_shut r q ids : shut ctx t (read_nodes uuid_Parse enforcement r ctx q ids t).
Proof. unfold read_nodes, handleTenantNodeStatus. turned_away. Qed.
Lemma nodes_shut r q body : shut ctx t (handleTenantNodes uuid_Parse enforcement r ctx q body t).
Proof.
  pose proof node_policy_shut. pose proof read_nodes_shut. unfold handleTenantNodes, handleTenantNodeAgent. turned_away.
Qed.

Lemma scoped_shut r q body t' tid rest : splitTenantPath (Path r) = Some (tid, rest) → uuid_Parse tid = Some t' → t' = t →
  shut ctx t (HandleTenantScoped salt uuid_Parse enforcement time_Parse bytes case_accepted vmClient ParseFloat
                assistant r ctx q body).
Proof.
  intros Hp Ht ->. unfold HandleTenantScoped. rewrite Hp, Ht. destruct (UserRole ctx) as [role|] eqn:Hrole; [|turned_away].
  pose proof (λ r b, single_tenant_shut r b role Hrole).
  pose proof statuses_shut. pose proof policies_shut. pose proof users_shut. pose proof tokens_shut.
  pose proof roles_shut. pose proof groups_shut. pose proof nodes_shut. pose proof agents_shut.
  pose proof monitoring_shut. pose proof assistant_shut. turned_away.
Qed.
End handlers.

(** ** From the token on *)

Section api.
Context `{CidrText, TieOrder, Sha256, Bcrypt, UserJWT} (jwtSecret salt : string) (uuid_Parse : string → option UUID).
Context (enforcement : string).
Context (time_Parse : string → option Time) (bytes : result text) (case_accepted : bool).
Context (vmClient : option VMClient) (ParseFloat : string → spec_float).
Context (assistant : AssistantConfig).

#[local] Hint Resolve ValidateToken_reads GetUserTokenVersion_reads check_version_reads : aria.
Lemma jwtAuthMiddleware_reads r : changes (same id) (jwtAuthMiddleware jwtSecret uuid_Parse r).
Proof. unfold jwtAuthMiddleware, token_error. chg. Qed.

(** The claims [c] are those of a token that is valid now and has the version of
    its user, who does not have to choose a new password first. *)
Definition open_session (r : Request) (now : Time) (db : DB) (c : Claims) : Prop :=
  user_parse now (getSecret jwtSecret) (token_of r) = UserClaims c ∧
  (c_MustChangePassword c = true → containsPath mcpWhitelist (Path r) = true) ∧
  ∃ id u, uuid_Parse (TrimSpace (c_UserID c)) = Some id ∧ users db !! id = Some u ∧
    u_token_version u = c_TokenVersion c.
Lemma jwtAuthMiddleware_ok r e st ctx st' :
  jwtAuthMiddleware jwtSecret uuid_Parse r e st = (Ok ctx, st') →
  ∃ c, open_session r (env_go_now e) (st_db st) c ∧ UserRole ctx = Some (c_Role c) ∧
    TenantID ctx = request_tenant uuid_Parse r (c_Role c) (c_TenantID c).
Proof.
  unfold jwtAuthMiddleware, write_error, token_error. destruct (_ =? "")%string; [done|]. cbv zeta.
  fold (token_of r). destruct (token_of r =? "")%string; [done|].
  intros (v & st1 & Hv%attempt_ok & Hr)%bind_ok. destruct v as [c|x]; [|by destruct x].
  apply ValidateToken_ok in Hv as [-> Hc].
  apply bind_ok in Hr as (v & st2 & (_ & _ & Hu)%check_version_ok & Hr).
  destruct (_ && _) eqn:Hm; [done|]. injection Hr as <- _. exists c. split_and!; [|done..].
  split_and!; [done| |done]. intros Hmust. rewrite Hmust in Hm. by apply negb_false_iff.
Qed.
(** No path of a tenant is open to a user who has to choose a new password. *)
Lemma whitelist_outside path : containsPath mcpWhitelist path = true → splitTenantPath path = None.
Proof.
  unfold containsPath. rewrite one_of_spec. unfold mcpWhitelist. rewrite !elem_of_cons, elem_of_nil.
  by intros [->|[->|[->|[->|[->|[]]]]]].
Qed.

(** C5. The interface below a tenant is guarded.  Whatever is asked of a path of it,
    by whomever and whichever statements fail, the request is answered with an error
    and no table changes, unless it carries a valid token of the current version of
    its user, who has no password to change first, and the user is a platform
    administrator or belongs to the very tenant of the path, which is active. *)
Theorem tenant_api_guarded r q body e st :
  let run := serve_tenant salt uuid_Parse enforcement time_Parse bytes case_accepted vmClient ParseFloat
               assistant jwtSecret r q body e st in
  (∃ x, run.1 = Err x ∧ st_db run.2 = st_db st) ∨
  ∃ tid rest t c, splitTenantPath (Path r) = Some (tid, rest) ∧ uuid_Parse tid = Some t ∧
    open_session r (env_go_now e) (st_db st) c ∧ c_MustChangePassword c = false ∧
    (c_Role c = "super_admin" ∨
     uuid_Parse (c_TenantID c) = Some t ∧ ∃ row, tenants (st_db st) !! t = Some row ∧
       EqualFold (TrimSpace (default "" (t_status row))) "active" = true).
Proof.
  cbv zeta. unfold serve_tenant, mbind, M_bind.
  pose proof (jwtAuthMiddleware_reads r e st) as Hdb.
  destruct (jwtAuthMiddleware jwtSecret uuid_Parse r e st) as [[ctx|x] st1] eqn:Hm; cbn [snd] in Hdb; [|left; by exists x].
  apply jwtAuthMiddleware_ok in Hm as (c & Hc & Hrole & Hten). unfold same, id in Hdb.
  destruct (splitTenantPath (Path r)) as [[tid rest]|] eqn:Hp.
  2: { left. unfold HandleTenantScoped. rewrite Hp. by eexists. }
  destruct (uuid_Parse tid) as [t|] eqn:Ht.
  2: { left. unfold HandleTenantScoped. rewrite Hp, Ht. by eexists. }
  pose proof (scoped_shut salt uuid_Parse enforcement time_Parse bytes case_accepted vmClient ParseFloat
    assistant ctx t r q body t tid rest Hp Ht eq_refl e st1) as [Hin|(x & st' & -> & Hdb')].
  2: { left. exists x. split; [done|]. cbn. congruence. }
  right. exists tid, rest, t, c. split_and!; [done|done|done| |].
  - destruct Hc as (_ & Hmust & _). destruct (c_MustChangePassword c); [|done].
    apply whitelist_outside in Hmust; [|done]. congruence.
  - rewrite Hdb in Hin. unfold insider in Hin. rewrite Hrole, Hten in Hin.
    destruct Hin as [[= Hs]|[Hin Hact]]; [by left|].
    unfold request_tenant in Hin. destruct (String.eqb_spec (c_Role c) "super_admin"); [by left|].
    right. split; [|done]. cbn [andb] in Hin. by destruct (_ =? "")%string.
Qed.

(** The list of all tenants is for platform administrators, and an administrator of
    a tenant is shown the own one. *)
Lemma tenants_listing_own r ctx body e st a st' :
  HandleTenants enforcement r ctx body e st = (Ok a, st') →
  match a with
  | TenantsListed _ | TenantCreated _ => UserRole ctx = Some "super_admin"
  | TenantShown t => TenantID ctx = Some (ti_ID t)
  | _ => False
  end.
Proof.
  unfold HandleTenants, forbidden, write_error, method_not_allowed. destruct (negb _); [done|].
  destruct (UserRole ctx) as [role|]; [|done]. destruct (_ =? "GET")%string; [|destruct (_ =? "POST")%string; [|done]].
  - destruct (String.eqb_spec role "super_admin") as [->|].
    + by intros (l & st1 & _ & [= <- _])%bind_ok.
    + destruct (_ =? SystemRoleAdmin)%string; [|done]. destruct (TenantID ctx) as [t|]; [|done].
      intros (x & st1 & _ & (i & st2 & Hi & [= <- _])%bind_ok)%bind_ok.
      unfold listSingleTenant, GetTenantInfo in Hi. apply bind_ok in Hi as (y & st3 & Hy%attempt_ok & Hi).
      destruct y as [y|]; [|done]. injection Hi as -> _.
      apply bind_ok in Hy as (row & st4 & _ & Hy). destruct (t_status row), (t_resource_quota row); try done.
      by injection Hy as <- _.
  - destruct (String.eqb_spec role "super_admin") as [->|]; [|done].
    by intros (l & st1 & _ & [= <- _])%bind_ok.
Qed.
End api.

(** ** Updates of a tenant *)

(** PostgreSQL refuses both UPDATE statements: every update but a mere suspension
    fails and changes nothing. *)
Lemma tenant_update_refused body b t role e st :
  normalizeTenantUpdateRequest body = Ok b →
  tu_Status b ≠ "suspended" ∨ tu_Name b ≠ "" ∨ tu_Code b ≠ "" ∨ tu_ResourceQuota b ≠ "" →
  ∃ x st', updateTenant false (Some body) t role e st = (Err x, st') ∧ st_db st' = st_db st.
Proof.
  intros Hb Hwhat.
  assert (∀ {A} n c s q (k : unit → M A), ∃ x st', (update_tenant_fields false t n c s q ≫= k) e st = (Err x, st') ∧
            st_db st' = st_db st) as Hrefused.
  { intros A n c s q k. unfold update_tenant_fields, update_tenant_row, attempt, stmt, stmt_rows, mbind, M_bind.
    destruct (env_fault e (st_tick st)); by eexists _, _. }
  unfold updateTenant, body_of. change (mret body ≫= ?k) with (k body). cbv beta. rewrite Hb.
  destruct (String.eqb_spec (tu_Status b) "suspended"); [|apply Hrefused].
  replace (negb (tu_Name b =? "")%string || _ || _) with true; [apply Hrefused|].
  symmetry. rewrite !orb_true_iff, !negb_true_iff, !String.eqb_neq. naive_solver.
Qed.
(** Were the CASE accepted, the fields that are given would replace the old ones. *)
Lemma tenant_update_sets body b t row role e st :
  normalizeTenantUpdateRequest body = Ok b → tu_Status b ≠ "suspended" → tu_Code b = "" →
  tenants (st_db st) !! t = Some row → no_faults e →
  ∃ st' row', updateTenant true (Some body) t role e st = (Ok t, st') ∧ tenants (st_db st') !! t = Some row' ∧
    t_name row' = or_keep (tu_Name b) (t_name row) ∧ t_code row' = t_code row ∧
    (∀ t', t' ≠ t → tenants (st_db st') !! t' = tenants (st_db st) !! t').
Proof.
  intros Hb Hs Hc Hrow Hf. unfold updateTenant, body_of. change (mret body ≫= ?k) with (k body). cbv beta. rewrite Hb.
  rewrite (proj2 (String.eqb_neq _ _) Hs). unfold update_tenant_fields, update_tenant_row. rewrite Hc.
  eexists _, _. split_and!.
  - erewrite bind_run; [reflexivity|]. erewrite bind_run; [|apply attempt_run; unfold stmt, stmt_rows; rewrite Hf; reflexivity].
    cbv beta iota. destruct (count_where _ _ =? 0) eqn:Hn; [exfalso|reflexivity].
    apply Z.eqb_eq in Hn. rewrite count_where_0 in Hn. specialize (Hn _ _ Hrow). by rewrite String.eqb_refl in Hn.
  - cbn. rewrite lookup_update_where, Hrow. cbn. by rewrite String.eqb_refl.
  - done.
  - done.
  - intros t' Hne. cbn. rewrite lookup_update_where. destruct (tenants (st_db st) !! t') as [x|]; [|done]. cbn.
    by rewrite (proj2 (String.eqb_neq _ _) Hne).
Qed.

(** A viewer of [t1] reads the nodes of it and is turned away from [t2]. *)
Definition no_body : ApiBody :=
  mkApiBody None None None None (mkBody None None) None None None None (mkPolicyBody None None None None None) None None
    None None None None None.
Definition viewer_reads (path : string) : result api_answer :=
  (@serve_tenant go_cidr rows_in_order demo_sha plain_bcrypt "" Some "" (λ _, None) (Ok []) false None (λ _, SpecFloat.S754_zero false)
     (mkAssistant None "" (λ _, ArgsNull) (λ _, "") (λ _, None) (λ _, 0) "" "" ∅) (one_user_jwt (ann_claims "viewer")) "key" (with_token "GET" path)
     (λ _, "") no_body (env_at 9) (access_st "viewer")).1.
Example viewer_reads_own :
  is_ok (viewer_reads "/api/v2/tenants/t1/nodes") = true ∧
  viewer_reads "/api/v2/tenants/t1/tokens" = Err (HTTPError 403 "ACCESS_DENIED" "Insufficient permissions") ∧
  viewer_reads "/api/v2/tenants/t2/nodes" = Err (HTTPError 403 "ACCESS_DENIED" "Access denied to this tenant").
Proof. vm_compute. split_and!; reflexivity. Qed.
