(* ===== verification/AssistantSpec.v ===== *)
(** * What the assistant can do

    Whatever the language model and the client ask for, the assistant changes no
    table, and what it answers depends on the rows of the caller's tenant alone: two
    databases that agree on that tenant are indistinguishable through it. *)

From S2P Require Import Prelude GoStr Netip Records CidrColumn Store Events Tokens ControlState AgentCommands PolicySync Nodes PolicyRules Lifecycle Routes Tenants Sessions Access AccessSpec RolesSpec Dispatch PolicyValidation PolicyAdmin GroupAdmin NodeAdmin AgentAdmin TenantAdmin AssistantTools Assistant TenantApi.

Open Scope Z_scope.

(** ** Databases that agree on a tenant *)

Section agree.
Context {R : Type} (own : R → bool).
Definition own_rows (m : gmap UUID R) : list (UUID * R) := select_where (λ _ r, own r) m.
Lemma select_own p m : (∀ k r, p k r = true → own r = true) →
  select_where p m = filter (λ kr, p kr.1 kr.2 = true) (own_rows m).
Proof.
  intros Hp. unfold own_rows, select_where. rewrite list_filter_filter. apply list_filter_iff.
  intros [k r]. cbn. split; [|tauto]. intros Hr. split; [done|by eapply Hp].
Qed.
Lemma lookup_own k m m' r : own_rows m = own_rows m' → m !! k = Some r → own r = true → m' !! k = Some r.
Proof.
  intros Heq Hk Ho. assert ((k, r) ∈ own_rows m) as Hin by by apply select_where_elem.
  rewrite Heq in Hin. by apply select_where_elem in Hin as [Hin _].
Qed.
Lemma lookup_own_bind {A} k m m' (f : R → option A) : own_rows m = own_rows m' → (∀ r, own r = false → f r = None) →
  (m !! k) ≫= f = (m' !! k) ≫= f.
Proof.
  intros Heq Hf.
  assert (∀ m1 m2, own_rows m1 = own_rows m2 → ∀ r, m1 !! k = Some r → f r ≠ None → m2 !! k = Some r) as Hgo.
  { intros m1 m2 H12 r Hr Hn. eapply lookup_own; [done|done|]. destruct (own r) eqn:Ho; [done|]. by apply Hf in Ho. }
  destruct (m !! k) as [r|] eqn:Hr; cbn.
  - destruct (f r) eqn:Hfr; [by erewrite Hgo; [exact (eq_sym Hfr)|..]; [| |rewrite Hfr]|].
    destruct (m' !! k) as [r'|] eqn:Hr'; [|done]. cbn. destruct (f r') eqn:Hfr'; [|done].
    erewrite Hgo in Hr; [|by symmetry|done|by rewrite Hfr']. naive_solver.
  - destruct (m' !! k) as [r'|] eqn:Hr'; [|done]. cbn. destruct (f r') eqn:Hfr'; [|done].
    erewrite Hgo in Hr; [|by symmetry|done|by rewrite Hfr']. done.
Qed.
End agree.

(** The unique key of [tokens]. *)
Definition unique_texts (db : DB) : Prop := ∀ k k' r r',
  tokens db !! k = Some r → tokens db !! k' = Some r' → tk_token r = tk_token r' → k = k'.
(** The rows of the tenant are the same, read in the same order; a text names at
    most one token. *)
Record agree (t : UUID) (db db' : DB) : Prop := {
  ag_tenant : tenants db !! t = tenants db' !! t;
  ag_nodes : own_rows (λ r, (n_tenant_id r =? t)%string) (nodes db) = own_rows (λ r, (n_tenant_id r =? t)%string) (nodes db');
  ag_states : own_rows (λ r, (cs_tenant_id r =? t)%string) (node_control_states db) =
              own_rows (λ r, (cs_tenant_id r =? t)%string) (node_control_states db');
  ag_rules : own_rows (λ r, (ar_tenant_id r =? t)%string) (acl_rules db) = own_rows (λ r, (ar_tenant_id r =? t)%string) (acl_rules db');
  ag_roles : own_rows (λ r, (rl_tenant_id r =? t)%string) (roles db) = own_rows (λ r, (rl_tenant_id r =? t)%string) (roles db');
  ag_tokens : own_rows (λ r, (default "" (tk_tenant_id r) =? t)%string) (tokens db) =
              own_rows (λ r, (default "" (tk_tenant_id r) =? t)%string) (tokens db');
  ag_texts : unique_texts db ∧ unique_texts db';
}.

Lemma agree_sym t db db' : agree t db db' → agree t db' db.
Proof. intros [? ? ? ? ? ? [? ?]]. by split. Qed.

(** A computation that changes nothing and does not tell such databases apart. *)
Definition blind {A} (t : UUID) (m : M A) : Prop := ∀ e n db db', agree t db db' →
  ∃ r n', m e (mkSt db n) = (r, mkSt db n') ∧ m e (mkSt db' n) = (r, mkSt db' n').

Section blind.
Context (t : UUID).

Lemma blind_ret {A} (a : A) : blind t (mret a).
Proof. intros e n db db' _. by eexists _, _. Qed.
Lemma blind_fail {A} x : blind t (fail (A:=A) x).
Proof. intros e n db db' _. by eexists _, _. Qed.
Lemma blind_ask {A} (f : Env → A) : blind t (ask f).
Proof. intros e n db db' _. by eexists _, _. Qed.
Lemma blind_lift {A} (f : Env → result A) : blind t (lift f).
Proof. intros e n db db' _. by eexists _, _. Qed.
Lemma blind_bind_when {A B} (P : A → Prop) (m : M A) (k : A → M B) :
  blind t m → (∀ e st a st', m e st = (Ok a, st') → P a) → (∀ a, P a → blind t (k a)) → blind t (m ≫= k).
Proof.
  intros Hm HP Hk e n db db' Hag. destruct (Hm e n db db' Hag) as (r & n' & H1 & H2). unfold mbind, M_bind.
  rewrite H1, H2. destruct r as [a|x]; [|by eexists _, _]. eapply Hk; [by eapply HP|done].
Qed.
Lemma blind_bind {A B} (m : M A) (k : A → M B) : blind t m → (∀ a, blind t (k a)) → blind t (m ≫= k).
Proof. intros Hm Hk. by apply (blind_bind_when (λ _, True)). Qed.
Lemma blind_given {A B} (r : result A) (k : A → M B) : (∀ a, r = Ok a → blind t (k a)) → blind t (lift (λ _, r) ≫= k).
Proof. intros Hk. destruct r as [a|x]; [by apply Hk|apply (blind_fail x)]. Qed.
Lemma blind_run {A B} (f : result A → result B) (m : M A) (m' : M B) :
  (∀ e st, m' e st = (f (m e st).1, (m e st).2)) → blind t m → blind t m'.
Proof.
  intros Hf Hm e n db db' Hag. destruct (Hm e n db db' Hag) as (r & n' & H1 & H2).
  exists (f r), n'. by rewrite !Hf, H1, H2.
Qed.
Lemma blind_attempt {A} (m : M A) : blind t m → blind t (attempt m).
Proof. apply (blind_run Ok). intros e st. unfold attempt. by destruct (m e st). Qed.
Lemma blind_caught {A} (m : M A) : blind t m → blind t (caught m).
Proof.
  apply (blind_run (λ r, match r with Err (Panic msg) => Err (Panic msg) | _ => Ok r end)).
  intros e st. unfold caught. by destruct (m e st) as [[?|[]] ?].
Qed.
Lemma blind_wrap {A} msg (m : M A) : blind t m → blind t (wrap msg m).
Proof.
  apply (blind_run (λ r, match r with Ok a => Ok a | Err _ => Err (ErrorString msg) end)).
  intros e st. unfold wrap. by destruct (m e st) as [[?|?] ?].
Qed.
Lemma blind_wrap_rows {A} msg (m : M A) : blind t m → blind t (wrap_rows msg m).
Proof.
  apply (blind_run (λ r, match r with Ok a => Ok a | Err ErrNoRows => Err ErrNoRows | Err _ => Err (ErrorString msg) end)).
  intros e st. unfold wrap_rows, wrap. by destruct (m e st) as [[?|[]] ?].
Qed.
Lemma blind_query {A} (f : Env → DB → A) : (∀ e db db', agree t db db' → f e db = f e db') → blind t (query f).
Proof.
  intros Hf e n db db' Hag. unfold query, stmt, stmt_rows. cbn [st_tick st_db]. rewrite (Hf e db db' Hag).
  destruct (env_fault e n); by eexists _, _.
Qed.
Lemma blind_query_row {A} (f : Env → DB → option A) :
  (∀ e db db', agree t db db' → f e db = f e db') → blind t (query_row f).
Proof.
  intros Hf e n db db' Hag. unfold query_row, stmt, stmt_rows. cbn [st_tick st_db]. rewrite (Hf e db db' Hag).
  destruct (env_fault e n); [by eexists _, _|]. destruct (f e db'); by eexists _, _.
Qed.
Lemma blind_map_each {A B} (f : A → M B) l : (∀ x, x ∈ l → blind t (f x)) → blind t (map_each f l).
Proof.
  induction l as [|x l IH]; intros Hf; [apply blind_ret|]. cbn [map_each].
  apply blind_bind; [apply Hf; by left|]. intros y. apply blind_bind; [apply IH; intros z Hz; apply Hf; by right|].
  intros ys. apply blind_ret.
Qed.
End blind.

#[local] Hint Resolve blind_ret blind_fail blind_ask blind_lift blind_attempt blind_caught blind_wrap blind_wrap_rows : aria.
Ltac blind_step :=
  match goal with
  | |- blind _ (let _ := _ in _) => cbv zeta
  | |- blind _ (match ?x with _ => _ end) => destruct x eqn:?
  | |- blind _ (lift (λ _, ?r) ≫= _) => apply blind_given; intros ? ?
  | |- blind _ (_ ≫= _) => apply blind_bind; [solve [eauto 6 with aria]|intros ?]
  | |- blind _ _ => solve [eauto 6 with aria]
  end.
Ltac blinds := repeat blind_step.

(** ** Reading the rows of a tenant *)

Section reads.
Context (t : UUID).

Lemma nodes_agree p db db' : agree t db db' → (∀ k r, p k r = true → (n_tenant_id r =? t)%string = true) →
  nodes_by_last_seen p db = nodes_by_last_seen p db'.
Proof. intros Hag Hp. unfold nodes_by_last_seen. by rewrite !(select_own _ p _ Hp), (ag_nodes _ _ _ Hag). Qed.
Lemma tenant_page_blind limit offset : t ≠ uuid_Nil → blind t (GetNodesByTenantPage t limit offset).
Proof.
  intros Ht. apply blind_query. intros e db db' Hag. cbn [lo_TenantID lo_IncludeDeleted lo_Unbounded lo_Limit lo_Offset].
  rewrite (proj2 (String.eqb_neq _ _) Ht). erewrite nodes_agree; [done|done|].
  intros k r Hr. by apply andb_true_iff in Hr as [Hr _].
Qed.
Lemma tenant_page_own limit offset e st l st' : t ≠ uuid_Nil →
  GetNodesByTenantPage t limit offset e st = (Ok l, st') → Forall (λ n, N_TenantID n = t) l.
Proof.
  intros Ht [-> _]%query_ok. cbn [lo_TenantID lo_IncludeDeleted lo_Unbounded lo_Limit lo_Offset].
  rewrite (proj2 (String.eqb_neq _ _) Ht). apply Forall_take, Forall_drop, Forall_fmap, Forall_forall.
  intros [k r] Hin. rewrite SliceStable_Permutation in Hin. apply select_where_elem in Hin as [_ Hp].
  by apply andb_true_iff in Hp as [Hp%String.eqb_eq _].
Qed.
Lemma hostname_blind hostname limit : blind t (ListTenantNodesByHostname t hostname limit).
Proof.
  apply blind_query. intros e db db' Hag. erewrite nodes_agree; [done|done|].
  intros k r Hr. by apply andb_true_iff in Hr as [[Hr _]%andb_true_iff _].
Qed.
Lemma enrolled_blind token limit : blind t (ListTenantNodesByEnrollmentToken t token limit).
Proof.
  apply blind_query. intros e db db' Hag. erewrite nodes_agree; [done|done|].
  intros k r Hr. by apply andb_true_iff in Hr as [[Hr _]%andb_true_iff _].
Qed.
Lemma state_blind node : blind t (GetNodeControlState t node).
Proof.
  apply blind_query. intros e db db' Hag.
  apply (lookup_own_bind _ node _ _ _ (ag_states _ _ _ Hag)). intros r Hr. by rewrite Hr.
Qed.
Lemma rules_blind `{CidrText} node : blind t (GetEnabledTenantNodeACLRules t node).
Proof.
  apply blind_query. intros e db db' Hag. f_equal. f_equal.
  assert (∀ k r, acl_of t node k r && (negb true || ar_enabled r) = true → (ar_tenant_id r =? t)%string = true) as Hp.
  { intros k r Hr. unfold acl_of, of_node in Hr. by apply andb_true_iff in Hr as [[Hr _]%andb_true_iff _]. }
  by rewrite !(select_own _ _ _ Hp), (ag_rules _ _ _ Hag).
Qed.
Lemma permissions_blind role : blind t (GetRolePermissions t role).
Proof.
  apply blind_wrap_rows, blind_query_row. intros e db db' Hag. f_equal. f_equal.
  assert (∀ k r, role_alike t role k r = true → (rl_tenant_id r =? t)%string = true) as Hp.
  { intros k r Hr. unfold role_alike in Hr. by apply andb_true_iff in Hr as [Hr _]. }
  by rewrite !(select_own _ _ _ Hp), (ag_roles _ _ _ Hag).
Qed.
Lemma status_blind : blind t (GetTenantStatus t).
Proof.
  apply blind_bind; [apply blind_bind|]; intros; [|apply blind_lift|apply blind_ret].
  apply blind_query_row. intros e db db' Hag. unfold tenant_status. by rewrite (ag_tenant _ _ _ Hag).
Qed.
Lemma token_newer_order (a b : UUID * TokenRow) : token_newer a b = true → token_newer b a = false.
Proof. unfold token_newer. lia. Qed.
Lemma own_tokens db db' : agree t db db' →
  filter (λ x, (tok_TenantID x =? t)%string = true)
    (scanToken <$> SliceStable token_newer (select_where (λ _ (r : TokenRow), true || (tk_status r =? "")%string) (tokens db))) =
  filter (λ x, (tok_TenantID x =? t)%string = true)
    (scanToken <$> SliceStable token_newer (select_where (λ _ (r : TokenRow), true || (tk_status r =? "")%string) (tokens db'))).
Proof.
  intros Hag.
  assert (∀ d, filter (λ x, (tok_TenantID x =? t)%string = true)
      (scanToken <$> SliceStable token_newer (select_where (λ _ (r : TokenRow), true || (tk_status r =? "")%string) (tokens d))) =
    scanToken <$> SliceStable token_newer (own_rows (λ r, (default "" (tk_tenant_id r) =? t)%string) (tokens d))) as Hv.
  { intros d. rewrite filter_fmap_list, SliceStable_filter; [|apply token_newer_order|unfold token_newer; lia].
    do 2 f_equal. unfold own_rows, select_where. rewrite list_filter_filter. apply list_filter_iff. intros [id r]. cbn. tauto. }
  by rewrite !Hv, (ag_tokens _ _ _ Hag).
Qed.

(** The token of a text, unless it belongs to somebody else. *)
Definition own_token (x : option Token) : option Token :=
  x ← x; if (tok_TenantID x =? t)%string then Some x else None.
Lemma own_token_agree s db db' : agree t db db' →
  own_token (scanToken <$> head (select_where (is_token s) (tokens db))) =
  own_token (scanToken <$> head (select_where (is_token s) (tokens db'))).
Proof.
  assert (∀ d d', agree t d d' → ∀ x, own_token (scanToken <$> head (select_where (is_token s) (tokens d))) = Some x →
    own_token (scanToken <$> head (select_where (is_token s) (tokens d'))) = Some x) as Hgo.
  { intros d d' Hag x Hx.
    destruct (head (select_where (is_token s) (tokens d))) as [[id r]|] eqn:Hh; [|done]. cbn in Hx.
    destruct (String.eqb_spec (default "" (tk_tenant_id r)) t) as [Ho|]; [|done]. injection Hx as <-.
    apply head_Some_elem_of, select_where_elem in Hh as [Hid Hs].
    assert (tokens d' !! id = Some r) as Hid'.
    { eapply (lookup_own (λ r, (default "" (tk_tenant_id r) =? t)%string)); [apply (ag_tokens _ _ _ Hag)|done|].
      by apply String.eqb_eq. }
    destruct (head (select_where (is_token s) (tokens d'))) as [[id' r']|] eqn:Hh'.
    - apply head_Some_elem_of, select_where_elem in Hh' as [Hr' Hs']. unfold is_token in *.
      apply String.eqb_eq in Hs, Hs'. destruct (ag_texts _ _ _ Hag) as [_ Hu].
      assert (id' = id) as -> by (eapply Hu; [done|done|congruence]). simplify_eq.
      unfold own_token. cbn. by rewrite (proj2 (String.eqb_eq _ _) Ho).
    - exfalso. assert ((id, r) ∈ select_where (is_token s) (tokens d')) as Hin by by apply select_where_elem.
      destruct (select_where (is_token s) (tokens d')); [by apply elem_of_nil in Hin|done]. }
  intros Hag. pose proof (Hgo _ _ Hag) as H. pose proof (Hgo _ _ (agree_sym _ _ _ Hag)) as H0.
  destruct (own_token (scanToken <$> head (select_where (is_token s) (tokens db)))) as [x|]; [symmetry; auto|].
  destruct (own_token (scanToken <$> head (select_where (is_token s) (tokens db')))) as [y|]; [|done].
  discriminate (H0 y eq_refl).
Qed.

(** A SELECT of more than the tenant's rows, of which only those are used. *)
Lemma blind_select {A B} (f : Env → DB → A) (k : result A → M B) (m : M B) :
  (∀ e st, m e st = k (query f e st).1 e (query f e st).2) →
  (∀ e db db', agree t db db' → k (Ok (f e db)) = k (Ok (f e db'))) → (∀ r, blind t (k r)) → blind t m.
Proof.
  intros Hm Hk Hb e n db db' Hag. rewrite !Hm. unfold query, stmt, stmt_rows. cbn [st_tick st_db].
  destruct (env_fault e n); [by apply Hb|]. cbn. rewrite (Hk e db db' Hag). by apply Hb.
Qed.
End reads.

(** ** The tenant an argument names *)

Lemma lower_char_above c : lower_char c = c ∨ Ascii.compare c (lower_char c) = Lt.
Proof. destruct c as [[] [] [] [] [] [] [] []]; first [by left | by right]. Qed.
Lemma ascii_compare_refl c : Ascii.compare c c = Eq.
Proof. apply N.compare_refl. Qed.
(** Of the spellings of a name in lower case it is the last in the order of bytes. *)
Lemma fold_below n : ∀ k, ToLower n = n → ToLower k = n → k = n ∨ str_ltb k n = true.
Proof.
  induction n as [|d n IH]; intros [|c k] Hn Hk; try done; [by left|]. cbn in Hn, Hk.
  injection Hn as Hd Hn. injection Hk as Hc Hk. unfold str_ltb, String.ltb in *. cbn [String.compare].
  destruct (lower_char_above c) as [Heq|Hlt].
  - rewrite Heq in Hc. subst c. rewrite ascii_compare_refl. destruct (IH k Hn Hk) as [->|Hlt]; [by left|by right].
  - right. rewrite <- Hc at 1. by rewrite Hlt.
Qed.
Lemma str_ltb_asym a b : str_ltb a b = true → str_ltb b a = false.
Proof. unfold str_ltb, String.ltb. rewrite (String.compare_antisym b a). by destruct (String.compare a b). Qed.
Lemma str_ltb_irrefl a : str_ltb a a = false.
Proof. destruct (str_ltb a a) eqn:Ha; [|done]. by rewrite (str_ltb_asym _ _ Ha) in Ha. Qed.

Lemma last_spelling (n v : string) (l : list (string * string)) :
  (∀ x, x ∈ l → x = (n, v) ∨ str_ltb x.1 n = true) → (n, v) ∈ l → first_by later_key l = Some (n, v).
Proof.
  induction l as [|x l IH]; intros Hl Hin; [by apply elem_of_nil in Hin|].
  assert (∀ y, y ∈ l → y = (n, v) ∨ str_ltb y.1 n = true) as Hl' by (intros y Hy; apply Hl; by right).
  change (match first_by later_key l with Some y => if later_key y x then Some y else Some x | None => Some x end = Some (n, v)).
  unfold later_key at 2. destruct (Hl x (list_elem_of_here _ _)) as [->|Hx].
  - destruct (first_by later_key l) as [y|] eqn:Hy; [|done]. apply first_by_elem in Hy.
    destruct (Hl' y Hy) as [->|Hlt]; cbn [fst]; [by rewrite str_ltb_irrefl|by rewrite (str_ltb_asym _ _ Hlt)].
  - apply elem_of_cons in Hin as [<-|Hin]; [by rewrite str_ltb_irrefl in Hx|]. rewrite (IH Hl' Hin). cbn [fst]. by rewrite Hx.
Qed.
(** Whatever other spellings the arguments hold, the field is what [injectTenantIDArg] wrote. *)
Lemma struct_field_own n t o s : ToLower n = n → o !! n = Some (JString t) → struct_field n o = Ok s → s = t.
Proof.
  intros Hn Ho. unfold struct_field. destruct (forallb _ _); [|done].
  rewrite (last_spelling n t); [by intros [= <-]|..].
  - intros [k v] ([k' j] & Hj & Hv)%list_elem_of_omap. unfold field_values in Hj.
    apply list_elem_of_filter in Hj as [Hf Hin]. cbn in *. unfold EqualFold in Hf. apply String.eqb_eq in Hf.
    rewrite Hn in Hf. destruct j as [|s'| | |]; try done. injection Hv as <- <-. destruct (fold_below n k' Hn Hf) as [->|Hlt]; [|by right].
    apply elem_of_map_to_list in Hin. left. congruence.
  - apply list_elem_of_omap. exists (n, JString t). split; [|done]. unfold field_values.
    apply list_elem_of_filter. split; [apply EqualFold_refl|by apply elem_of_map_to_list].
Qed.

(** ** The tools that read *)

Section tools.
Context `{CidrText} (uuid_Parse : string → option UUID) (json_Marshal : Answer → string).
Context (t : UUID) (Ht : t ≠ uuid_Nil) (Htext : TrimSpace t = t ∧ t ≠ "" ∧ uuid_Parse t = Some t).
(** Arguments that name the tenant. *)
Context (o : object) (Ho : o !! "tenant_id" = Some (JString t)).

Lemma own_parse : parseOptionalTenantID uuid_Parse o = Ok (Some t).
Proof using Htext Ho.
  destruct Htext as (Htrim & Hne & Hp). unfold parseOptionalTenantID. rewrite Ho, Htrim.
  by rewrite (proj2 (String.eqb_neq _ _) Hne), Hp.
Qed.
Lemma own_required : required_tenant uuid_Parse o = Ok t.
Proof using Htext Ho. unfold required_tenant. by rewrite own_parse. Qed.
Lemma tool_nodes_blind : blind t (tool_nodes (Some t)).
Proof using Ht. apply blind_wrap, tenant_page_blind, Ht. Qed.
Lemma tool_node_blind hostname : blind t (tool_node hostname (Some t)).
Proof.
  apply blind_bind; [apply blind_wrap, blind_bind; [apply hostname_blind|intros; apply blind_ret]|].
  intros [node c]. blinds.
Qed.
#[local] Hint Resolve tool_nodes_blind tool_node_blind : aria.

Ltac own := cbn [decode_args]; rewrite ?own_parse, ?own_required; cbn [lift mret M_ret].
Lemma card_blind a : blind t (card json_Marshal a).
Proof. apply blind_ret. Qed.
Lemma no_node_blind h : blind t (no_such_node h).
Proof. apply blind_ret. Qed.
#[local] Hint Resolve card_blind no_node_blind : aria.

Lemma node_card_blind n : N_TenantID n = t → blind t (node_card n).
Proof.
  intros <-. unfold node_card. cbv zeta. apply blind_bind; [apply blind_attempt, state_blind|].
  intros [[s|]|x]; apply blind_ret.
Qed.
#[local] Hint Extern 1 (blind _ (node_card _)) => apply node_card_blind : aria.
Ltac asked_step :=
  match goal with
  | H : parseOptionalTenantID _ o = Ok _ |- _ => rewrite own_parse in H; injection H as <-
  | H : required_tenant _ o = Ok _ |- _ => rewrite own_required in H; injection H as <-
  | H : decode_args (ArgsObject o) = Ok _ |- _ => injection H as <-
  | |- _ => blind_step
  end.
Ltac asked := repeat asked_step.

Lemma list_nodes_blind : blind t (list_nodes uuid_Parse json_Marshal (ArgsObject o)).
Proof using All.
  unfold list_nodes. cbv zeta. rewrite own_parse. apply blind_given. intros _ [= <-].
  apply blind_bind; [apply tool_nodes_blind|]. intros nodes. apply blind_bind; [|intros; apply card_blind].
  apply blind_map_each. intros n Hn. apply node_card_blind.
  assert (n ∈ filterNodesByTenant nodes (Some t)) as Hin.
  { unfold of_region in Hn. destruct (_ =? "")%string; [done|]. by apply list_elem_of_filter in Hn as [_ Hn]. }
  unfold filterNodesByTenant in Hin. by apply list_elem_of_filter in Hin as [Hin%String.eqb_eq _].
Qed.
Lemma get_node_detail_blind : blind t (get_node_detail uuid_Parse json_Marshal (ArgsObject o)).
Proof using All. unfold get_node_detail. asked. Qed.
Lemma get_node_routes_blind : blind t (get_node_routes uuid_Parse json_Marshal (ArgsObject o)).
Proof using All. unfold get_node_routes. asked. Qed.
Lemma list_all_routes_blind : blind t (list_all_routes uuid_Parse json_Marshal (ArgsObject o)).
Proof using All. unfold list_all_routes. asked. Qed.
Lemma get_monitor_stats_blind : blind t (get_monitor_stats uuid_Parse json_Marshal (ArgsObject o)).
Proof using All. unfold get_monitor_stats. asked. Qed.
Lemma list_tokens_blind : blind t (list_tokens uuid_Parse json_Marshal (ArgsObject o)).
Proof using All.
  unfold list_tokens. do 4 asked_step.
  eapply (blind_select t (λ _ db, scanToken <$> SliceStable token_newer
            (select_where (λ _ (r : TokenRow), true || (tk_status r =? "")%string) (tokens db)))
    (λ r, match r with Ok l => now ← ask env_go_now; card json_Marshal (TokenCards ((λ x, x <| tok_Status := current_status now x |>)
          <$> filter (λ x, (tok_TenantID x =? t)%string = true) l)) | Err _ => fail (ErrorString "查询 Token 失败") end)).
  - intros e st. unfold mbind, M_bind, wrap, List. by destruct (query _ e st) as [[l|x] st'].
  - intros e db db' Hag. by rewrite (own_tokens t db db' Hag).
  - intros r. blinds.
Qed.
Lemma get_token_detail_blind : blind t (get_token_detail uuid_Parse json_Marshal (ArgsObject o)).
Proof using All.
  unfold get_token_detail. do 5 asked_step.
  match goal with |- blind _ (attempt (GetByToken ?s) ≫= ?k) =>
    eapply (blind_select t (λ _ db, scanToken <$> head (select_where (is_token s) (tokens db))) k);
      [|intros e db db' Hag; pose proof (own_token_agree t s db db' Hag) as Heq|] end.
  - intros e st. unfold mbind, M_bind, attempt, GetByToken. by destruct (query _ e st) as [[l|x] st'].
  - revert Heq. generalize (scanToken <$> head (select_where (is_token a) (tokens db))).
    generalize (scanToken <$> head (select_where (is_token a) (tokens db'))). intros x y. unfold own_token.
    destruct x as [x|], y as [y|]; cbn; try destruct (tok_TenantID x =? t)%string eqn:Hx; try destruct (tok_TenantID y =? t)%string eqn:Hy;
      intros [=]; subst; cbn; reflexivity.
  - intros r. pose proof (enrolled_blind t). unfold no_such_token, listNodesForEnrollmentToken. asked.
Qed.
Lemma rules_of_blind n : N_TenantID n = t → blind t (rules_of n).
Proof. intros <-. apply blind_attempt, rules_blind. Qed.
Lemma last_named_own h nodes n : Forall (λ x, N_TenantID x = t) nodes → last_named h nodes = Some n → N_TenantID n = t.
Proof.
  intros Hall Hn. rewrite Forall_forall in Hall. apply Hall. unfold last_named in Hn.
  apply last_Some_elem_of, list_elem_of_filter in Hn. tauto.
Qed.
Lemma diagnose_blind : blind t (diagnose_connectivity uuid_Parse json_Marshal (ArgsObject o)).
Proof using All.
  unfold diagnose_connectivity. do 2 asked_step. apply blind_given. intros source _. apply blind_given. intros target _.
  apply blind_given. intros name Hname.
  apply (struct_field_own "tenant_id" t) in Hname as ->; [|done|done].
  apply blind_given. intros tenantID Hid. unfold required_tenant, parseOptionalTenantID in Hid.
  destruct Htext as (Htrim & Hne & Hp). rewrite lookup_singleton_eq, Htrim, (proj2 (String.eqb_neq _ _) Hne), Hp in Hid.
  injection Hid as <-.
  apply (blind_bind_when t (Forall (λ n, N_TenantID n = t))).
  { apply tool_nodes_blind. }
  { intros e st l st' Hl%wrap_ok. by eapply tenant_page_own. }
  intros nodes Hall. destruct (last_named source nodes) as [src|] eqn:Hsrc; [|apply blind_ret].
  destruct (last_named target nodes) as [dst|] eqn:Hdst; [|apply blind_ret].
  apply last_named_own in Hsrc, Hdst; [|done..]. destruct (negb _); [apply blind_ret|].
  pose proof (rules_of_blind src Hsrc). pose proof (rules_of_blind dst Hdst). rewrite Hsrc, Hdst.
  pose proof (state_blind t). blinds.
Qed.
End tools.

(** ** The conversation *)

Section assistant.
Context `{CidrText} (uuid_Parse : string → option UUID) (enforcement : string) (a : AssistantConfig) (t : UUID).
Context (Htext : TrimSpace t = t ∧ t ≠ "" ∧ uuid_Parse t = Some t).

Lemma authorizeTenant_blind ctx admin : blind t (authorizeTenant ctx t admin).
Proof. pose proof (status_blind t). unfold authorizeTenant, forbidden, write_error. blinds. Qed.
Lemma authorize_blind ctx p : blind t (authorizeTenantPermission enforcement ctx t p).
Proof.
  pose proof (permissions_blind t). apply blind_bind; [apply authorizeTenant_blind|intros ?].
  unfold forbidden, write_error. blinds.
Qed.
Lemma authorizeTool_blind ctx p : TenantID ctx = Some t → blind t (authorizeTool ctx p).
Proof. intros Hctx. pose proof (permissions_blind t). unfold authorizeTool. rewrite Hctx. blinds. Qed.

Let tools := registered_tools uuid_Parse (as_json_Marshal a) (as_json_int a) (as_nanos a) (as_base_ip a) (as_cidr a).
(** What is asked of a tool that only reads. *)
Definition reads_own (tool : Tool) : Prop :=
  if tl_TenantScoped tool
  then t ≠ uuid_Nil → ∀ o, o !! "tenant_id" = Some (JString t) → blind t (tl_Run tool (ArgsObject o))
  else ∀ args, blind t (tl_Run tool args).
Lemma tools_read_own : Forall (λ tool, legacyAIWriteTool tool = false → reads_own tool) tools.
Proof using Htext.
  repeat apply List.Forall_cons; try apply List.Forall_nil; try (intros Hw; vm_compute in Hw; discriminate Hw);
    intros _; unfold reads_own; cbn [tl_TenantScoped tl_Run];
    lazymatch goal with |- _ ≠ _ → _ => intros Ht o Ho | _ => idtac end.
  - by apply list_nodes_blind.
  - by apply get_node_detail_blind.
  - intros args. apply blind_ret.
  - by apply list_tokens_blind.
  - by apply get_token_detail_blind.
  - by apply get_node_routes_blind.
  - by apply list_all_routes_blind.
  - by apply get_monitor_stats_blind.
  - by apply diagnose_blind.
Qed.
Lemma runScopedTool_blind ctx tool args : TenantID ctx = Some t → reads_own tool → blind t (runScopedTool ctx tool args).
Proof.
  intros Hctx Hr. apply blind_bind; [by apply authorizeTool_blind|intros _].
  unfold reads_own in Hr. destruct (tl_TenantScoped tool); [|apply Hr].
  rewrite Hctx. destruct (String.eqb_spec t uuid_Nil) as [|Ht]; [apply blind_fail|].
  apply blind_given. intros args' Hargs. unfold injectTenantIDArg in Hargs.
  destruct args; simplify_eq; by apply Hr, lookup_insert_eq.
Qed.
Lemma scoped_blind ctx : TenantID ctx = Some t →
  Forall (λ tool, legacyAIWriteTool tool = false → ∀ args, blind t (tl_Run tool args))
    (scopedTools uuid_Parse (as_json_Marshal a) (as_json_int a) (as_nanos a) (as_base_ip a) (as_cidr a) ctx).
Proof using Htext.
  intros Hctx. apply Forall_fmap. eapply Forall_impl; [apply tools_read_own|]. intros tool Hr Hw args.
  by apply runScopedTool_blind, Hr.
Qed.
Lemma read_only_blind ctx : TenantID ctx = Some t →
  Forall (λ tool, ∀ args, blind t (tl_Run tool args))
    (scopedReadOnlyTools uuid_Parse (as_json_Marshal a) (as_json_int a) (as_nanos a) (as_base_ip a) (as_cidr a) ctx).
Proof using Htext.
  intros Hctx. apply Forall_forall. intros tool [Hw Hin]%list_elem_of_filter.
  pose proof (scoped_blind ctx Hctx) as Hall. rewrite Forall_forall in Hall. by apply Hall.
Qed.

Lemma think_blind generate messages toolList : Forall (λ tool, ∀ args, blind t (tl_Run tool args)) toolList →
  blind t (think (as_json_args a) generate messages toolList).
Proof.
  intros Hall. assert (∀ name args, blind t (runTool (as_json_args a) toolList name args)) as Hrun.
  { intros name args. unfold runTool. destruct (List.find _ toolList) as [tool|] eqn:Hf; [|apply blind_ret].
    apply List.find_some in Hf as [Hin _]. rewrite Forall_forall in Hall. specialize (Hall tool (proj2 (list_elem_of_In _ _) Hin)).
    blinds. }
  assert (∀ l, blind t (first_choice l)) as Hfirst by (intros [|c l]; [apply blind_fail|apply blind_ret]).
  unfold think. blinds.
Qed.
Lemma service_error_blind {A} (m : M A) : blind t m → blind t (service_error m).
Proof.
  intros Hm. apply blind_bind; [by apply blind_caught|]. unfold write_error.
  intros [?|?]; [apply blind_ret|apply blind_fail].
Qed.
Lemma chat_blind r ctx body : TenantID ctx = Some t → blind t (chat uuid_Parse a r ctx body).
Proof using Htext.
  intros Hctx. pose proof (read_only_blind ctx Hctx) as Hall.
  pose proof (λ g m, think_blind g m _ Hall) as Hthink.
  unfold chat, HandleChat, method_not_allowed, body_of, write_error. destruct (negb _); [apply blind_fail|].
  destruct body as [req|]; [|apply blind_fail]. change (mret req ≫= ?k) with (k req). cbv beta.
  destruct (_ =? "")%string; [apply blind_fail|].
  apply blind_bind; [|intros [? ?]; apply blind_ret].
  apply service_error_blind, blind_bind; [|intros; apply blind_ret].
  unfold ThinkWithHistoryTools. destruct (as_llm a); [apply Hthink|apply blind_ret].
Qed.
Lemma ExecuteTool_blind ctx name params : TenantID ctx = Some t →
  blind t (ExecuteTool uuid_Parse (as_json_Marshal a) (as_json_int a) (as_nanos a) (as_base_ip a) (as_cidr a) ctx name params).
Proof using Htext.
  intros Hctx. pose proof (scoped_blind ctx Hctx) as Hall. rewrite Forall_forall in Hall. unfold ExecuteTool.
  destruct (List.find _ _) as [tool|] eqn:Hf; [|apply blind_fail]. apply List.find_some in Hf as [Hin _].
  specialize (Hall tool (proj2 (list_elem_of_In _ _) Hin)). destruct (legacyAIWriteTool tool); [apply blind_fail|].
  specialize (Hall eq_refl). blinds.
Qed.
Lemma confirm_blind r ctx body : TenantID ctx = Some t → blind t (confirm uuid_Parse a r ctx body).
Proof using Htext.
  intros Hctx. pose proof (λ n p, ExecuteTool_blind ctx n p Hctx).
  unfold confirm, HandleConfirm, method_not_allowed, body_of, write_error. destruct (negb _); [apply blind_fail|].
  destruct body as [req|]; [|apply blind_fail]. change (mret req ≫= ?k) with (k req). cbv beta.
  apply blind_bind; [by apply service_error_blind|]. intros [? ?]. apply blind_ret.
Qed.
Lemma handleTenantAI_blind r ctx body : blind t (handleTenantAI uuid_Parse enforcement a r ctx body t).
Proof using Htext.
  apply blind_bind; [apply authorize_blind|intros _]. cbv zeta. unfold write_error.
  destruct (_ !! 5%nat); [|apply blind_fail]. destruct (_ =? _)%string; [by apply chat_blind|].
  destruct (_ =? _)%string; [by apply confirm_blind|apply blind_fail].
Qed.

(** ** What a confirmed tool needs *)

Lemma caught_ok {A} (m : M A) e st x st' : caught m e st = (Ok x, st') → m e st = (x, st').
Proof. unfold caught. by destruct (m e st) as [[?|[]] ?]; intros [= <- <-]. Qed.

Definition permitted (ctx : Context) (db : DB) (permission : string) : Prop :=
  ∃ role, UserRole ctx = Some role ∧
    (NormalizeRoleName role = "super_admin" ∨
     ∃ id r, roles db !! id = Some r ∧ rl_tenant_id r = t ∧
       ToLower (rl_name r) = ToLower (NormalizeRoleName role) ∧ permission ∈ rl_permissions r).
Lemma authorizeTool_ok ctx p e st st' : TenantID ctx = Some t → p ≠ "" →
  authorizeTool ctx p e st = (Ok tt, st') → permitted ctx (st_db st) p.
Proof.
  unfold authorizeTool, permitted. intros -> Hp. rewrite (proj2 (String.eqb_neq _ _) Hp).
  destruct (UserRole ctx) as [role|]; [|done]. intros Hr. exists role. split; [done|]. revert Hr.
  destruct (String.eqb_spec (NormalizeRoleName role) "super_admin"); [by left|]. destruct (_ =? _)%string; [done|].
  intros (ps & st1 & (id & r & Hr & Ht & Hn & <-)%wrap_ok%GetRolePermissions_ok & Hc)%bind_ok.
  destruct (containsString _ _) eqn:Hin; [|done]. right. exists id, r. split_and!; try done. by apply one_of_spec.
Qed.
Definition tool_permissions : list (string * string) :=
  (λ tool, (tl_Name tool, tl_RequiredPermission tool)) <$> tools.
Lemma confirm_permitted r ctx body e st text name st' : TenantID ctx = Some t →
  confirm uuid_Parse a r ctx body e st = (Ok (Executed text name), st') →
  ∃ p, (name, p) ∈ tool_permissions ∧ p ∉ ["tokens:write"; "routes:write"] ∧ permitted ctx (st_db st) p.
Proof.
  intros Hctx. unfold confirm, HandleConfirm, method_not_allowed, body_of, write_error. destruct (negb _); [done|].
  destruct body as [req|]; [|done]. change (mret req ≫= ?k) with (k req). cbv beta.
  intros ([txt nm] & st1 & (x & st2 & Hx%caught_ok & Hr)%bind_ok & [= -> -> _])%bind_ok.
  destruct x as [[txt nm]|x]; [|done]. injection Hr as -> -> _. unfold ExecuteTool in Hx.
  destruct (List.find _ _) as [tool|] eqn:Hf; [|done]. apply List.find_some in Hf as [Hin Hname].
  destruct (legacyAIWriteTool tool) eqn:Hw; [done|].
  apply bind_ok in Hx as (y & st3 & Hy%caught_ok & Hx). destruct y as [y|]; [|done]. injection Hx as Ht1 Hn1 _. subst name.
  apply String.eqb_eq in Hname. apply list_elem_of_In, list_elem_of_fmap in Hin as (raw & -> & Hraw).
  exists (tl_RequiredPermission raw). cbn [tl_Run tl_Name] in Hy |- *. unfold runScopedTool in Hy.
  apply bind_ok in Hy as ([] & st4 & Ha & _). split_and!.
  - apply list_elem_of_fmap. exists raw. split; [|done]. f_equal. by rewrite <- Hname.
  - intros Hin. unfold legacyAIWriteTool in Hw. cbn [tl_RequiredPermission] in Hw.
    rewrite !elem_of_cons, elem_of_nil in Hin. destruct Hin as [Hp|[Hp|[]]]; rewrite Hp in Hw; by vm_compute in Hw.
  - eapply authorizeTool_ok; [done| |done]. intros Hp.
    assert (Forall (λ x, tl_RequiredPermission x ≠ "") tools) as Hall by (repeat constructor; done).
    rewrite Forall_forall in Hall. by eapply Hall.
Qed.
End assistant.

(** C6. The assistant is confined to reading the rows of the caller's tenant.  Whatever
    the language model, the client and its role are, and whichever statements fail, a
    request to it changes no table, and its answer and the memory it leaves are the
    same in every database with the same rows of that tenant; a tool a client confirms
    runs only when the role of the client has its permission, which is one to read. *)
Theorem assistant_confined `{CidrText} uuid_Parse enforcement a r ctx body t e n db db' :
  TrimSpace t = t ∧ t ≠ "" ∧ uuid_Parse t = Some t → agree t db db' →
  let run d := handleTenantAI uuid_Parse enforcement a r ctx body t e (mkSt d n) in
  (run db).1 = (run db').1 ∧ st_db (run db).2 = db ∧ st_db (run db').2 = db' ∧
  ∀ text name, (run db).1 = Ok (Executed text name) →
    ∃ p, (name, p) ∈ tool_permissions uuid_Parse a ∧ p ∉ ["tokens:write"; "routes:write"] ∧ permitted t ctx db p.
Proof.
  intros Htext Hag run. destruct (handleTenantAI_blind uuid_Parse enforcement a t Htext r ctx body e n db db' Hag) as (x & n' & H1 & H2).
  subst run. cbv beta. rewrite H1, H2. split_and!; [done..|]. cbn [fst]. intros text name ->.
  apply bind_ok in H1 as (au & st1 & Ha & Hr).
  assert (st_db st1 = db) as Hdb.
  { pose proof (authorizeTenantPermission_reads enforcement (same id) ctx t PermAiUse e (mkSt db n)) as Hs. by rewrite Ha in Hs. }
  cbv zeta in Hr. unfold write_error in Hr. destruct (_ !! 5%nat) as [part|]; [|done].
  destruct (part =? "chat")%string.
  - unfold chat, HandleChat, method_not_allowed, write_error in Hr. destruct (negb _); [done|].
    apply bind_ok in Hr as (req & st2 & _ & Hr). destruct (_ =? "")%string; [done|].
    by apply bind_ok in Hr as ([? ?] & st3 & _ & Hr).
  - destruct (part =? "confirm")%string; [|done]. apply confirm_permitted with (t := t) in Hr; [|reflexivity]. by rewrite Hdb in Hr.
Qed.

(** ** Examples *)

(** A model that calls [list_all_routes] for tenant t2, whoever asks. *)
Definition nosy (messages : list MessageContent) (tools : list string) : result (list Choice) :=
  match tools with
  | [] => Ok [mkChoice "done" []]
  | _ => Ok [mkChoice "" [mkToolCall "c1" "list_all_routes" "```json {t2}```"]]
  end.
(** A model that repeats what the assistant last said in the conversation. *)
Definition parrot (messages : list MessageContent) (tools : list string) : result (list Choice) :=
  Ok [mkChoice (default "nothing" (last (omap (λ m, match m with FromAI s => Some s | _ => None end) messages))) []].
Definition demo_assistant (llm : list MessageContent → list string → result (list Choice)) (memo : memory) : AssistantConfig :=
  mkAssistant (Some llm) "" (λ s, if (s =? "{t2}")%string then ArgsObject {["tenant_id" := JString "t2"]} else ArgsMalformed)
    (λ x, match x with AllRoutes l => String.concat "," ((λ r, r.1.1.1) <$> l) | _ => "{}" end)
    (λ _, None) (λ _, 0) "100.64.0.0" "100.64.0.0/10" memo.

Definition spoke (key tenant : string) : NodeRow :=
  mkNodeRow key "m" tenant "" "" "" "eu" "" key "100.64.0.2" 2 1 0 "agent" None None None (Some "online") None ["10.1.0.0/16"]
    None 3 0 0.
Definition one_tenant : DB := (st_db (access_st "viewer")) <| nodes := {["n1" := spoke "k1" "t1"]} |>.
Definition foreign_token : TokenRow := mkTokenRow "tk_1" "" (Some "t2") 1 0 9 0 "" "active" None None.
(** The same with a second tenant. *)
Definition two_tenants : DB :=
  one_tenant <| tenants := <["t2" := mkTenantRow "U" None None None (Some "active") None 0 0]> (tenants one_tenant) |>
    <| nodes := <["n2" := spoke "k2" "t2"]> (nodes one_tenant) |>
    <| tokens := {["k" := foreign_token]} |>.
Definition viewer_of (t : UUID) : Context := mkContext (Some "u1") (Some "ann") (Some "viewer") (Some t).
Definition asks (message session : string) : ApiBody :=
  mkApiBody None None None None (mkBody None None) None None None None (mkPolicyBody None None None None None) None None
    None None None (Some (mkChatBody message session)) None.
Definition confirms (tool : string) (params : option object) : ApiBody :=
  mkApiBody None None None None (mkBody None None) None None None None (mkPolicyBody None None None None None) None None
    None None None None (Some (mkConfirmBody tool params)).
Definition ask_ai (a : AssistantConfig) (endpoint : string) (body : ApiBody) (db : DB) : result assistant_answer :=
  (@handleTenantAI go_cidr Some "" a (with_token "POST" ("/api/v2/tenants/t1/ai/" +:+ endpoint)) (viewer_of "t1") body "t1"
     (env_at 9) (mkSt db 0)).1.

Lemma two_tenants_agree : agree "t1" one_tenant two_tenants.
Proof.
  split; [vm_compute; reflexivity..|]. split.
  - intros k k' r r' Hr. exfalso. exact (lookup_empty_Some (M:=gmap UUID) k r Hr).
  - assert (tokens two_tenants = {["k" := foreign_token]}) as Ht by reflexivity. unfold unique_texts. rewrite Ht.
    intros k k' r r' [<- _]%lookup_singleton_Some [<- _]%lookup_singleton_Some _. done.
Qed.
Lemma assistant_confined_witness :
  ask_ai (demo_assistant nosy ∅) "chat" (asks "routes?" "") one_tenant = Ok (Replied "" "CARD_DATA:k1" ∅) ∧
  ask_ai (demo_assistant nosy ∅) "chat" (asks "routes?" "") two_tenants = Ok (Replied "" "CARD_DATA:k1" ∅) ∧
  ask_ai (demo_assistant nosy ∅) "confirm" (confirms "list_all_routes" (Some ∅)) two_tenants =
    Ok (Executed "CARD_DATA:k1" "list_all_routes").
Proof.
  assert (ask_ai (demo_assistant nosy ∅) "chat" (asks "routes?" "") one_tenant = Ok (Replied "" "CARD_DATA:k1" ∅)) as H1
    by (vm_compute; reflexivity).
  split; [exact H1|].
  destruct (@assistant_confined go_cidr Some "" (demo_assistant nosy ∅) (with_token "POST" "/api/v2/tenants/t1/ai/chat")
    (viewer_of "t1") (asks "routes?" "") "t1" (env_at 9) 0 one_tenant two_tenants) as (Heq & _);
    [split_and!; by vm_compute|apply two_tenants_agree|].
  split; [|vm_compute; reflexivity]. rewrite <- H1. symmetry. exact Heq.
Defined.

(** The memory of conversations knows no tenants: whoever names a session gets what was said in it. *)
Example session_without_owner :
  ask_ai (demo_assistant parrot {["s" := [mkMessage "user" "a"; mkMessage "assistant" "secret of t2"]]}) "chat" (asks "b" "s") one_tenant =
  Ok (Replied "s" "secret of t2"
        {["s" := [mkMessage "user" "a"; mkMessage "assistant" "secret of t2"; mkMessage "user" "b";
                  mkMessage "assistant" "secret of t2"]]}).
Proof. vm_compute. reflexivity. Qed.
(** A confirmation without parameters panics; a tool that writes and one the role may not use are refused. *)
Example confirmations :
  ask_ai (demo_assistant nosy ∅) "confirm" (confirms "list_nodes" None) one_tenant = Err (Panic "assignment to entry in nil map") ∧
  ask_ai (demo_assistant nosy ∅) "confirm" (confirms "create_token" (Some ∅)) one_tenant =
    Err (HTTPError 500 "AI_SERVICE_ERROR"
           "AI write tools are disabled until Hermes confirmation and policy delivery workflow is available") ∧
  ask_ai (demo_assistant nosy ∅) "confirm" (confirms "list_tokens" (Some ∅)) one_tenant =
    Err (HTTPError 500 "AI_SERVICE_ERROR" "tool execution failed").
Proof. vm_compute. split_and!; reflexivity. Qed.
