(* ===== verification/Messaging.v ===== *)
(** * Chat platforms

    [internal/im]: the webhooks of Feishu and DingTalk, which pass a message to the
    assistant and its answer back, and the cards Feishu shows.  The transport to a
    platform, HMAC and the decoding of JSON texts are parameters; an object is the
    list of its entries in the order a loop visits them, which Go leaves open. *)

From Stdlib Require Import SpecFloat.
From S2P Require Import Prelude GoStr Netip Records CidrColumn Store Tokens ControlState Nodes Tenants PolicyRules Routes Durations Sessions Access Dispatch AssistantTools Assistant.

Open Scope Z_scope.

(** ** Cards *)

Inductive Element :=
  | Markdown (content : string)
  | DoubleColumn (left right : string).
Record Card := mkCard {
  cd_Title : string;
  cd_Template : string;
  cd_Elements : list Element;
}.
#[export] Instance eta_Card : Eta Card := λ c, mkCard (cd_Title c) (cd_Template c) (cd_Elements c).

Definition NewCard (title color : string) : Card :=
  mkCard title (if (color =? "")%string then "blue" else color) [].
Definition add_element (x : Element) (c : Card) : Card := c <| cd_Elements := cd_Elements c ++ [x] |>.
Definition AddMarkdown (content : string) : Card → Card := add_element (Markdown content).
Definition AddDoubleColumnText (left right : string) : Card → Card := add_element (DoubleColumn left right).

Record NodeInfo := mkNodeInfo {
  ni_Name : string;
  ni_Status : string;
  ni_AssignedIP : string;
  ni_PublicIP : string;
  ni_Region : string;
  ni_Version : string;
}.
(** [if s == "" { s = otherwise }]. *)
Definition or_text (s otherwise : string) : string := if (s =? "")%string then otherwise else s.
(** What is shown between two entries. *)
Definition separator (i : nat) {A} (l : list A) (c : Card) : Card :=
  if (i <? length l - 1)%nat then AddMarkdown "---" c else c.
Definition newlines (n : nat) : string := String.string_of_list_ascii (repeat "010"%char n).
Definition source_note {A} (l : list A) : string :=
  newlines 2 +:+ "---" +:+ newlines 2 +:+ "*数据来源: Aria Controller • 共 " +:+ Itoa (Z.of_nat (length l)) +:+ " 个节点*".

Definition list_entry (nodes : list NodeInfo) (i : nat) (node : NodeInfo) (c : Card) : Card :=
  let statusIcon := if EqualFold (ni_Status node) "online" then "🟢" else "🔴" in
  separator i nodes
    (AddDoubleColumnText ("**IP**: " +:+ or_text (ni_AssignedIP node) "N/A") ("**区域**: " +:+ or_text (ni_Region node) "Unknown")
      (AddMarkdown ("### " +:+ statusIcon +:+ " " +:+ ni_Name node) c)).
(** [for i, x := range l]. *)
Definition each {A} (f : nat → A → Card → Card) (l : list A) (c : Card) : Card :=
  foldl (λ c ix, f ix.1 ix.2 c) c (imap pair l).
Definition BuildNodeListCard (nodes : list NodeInfo) : Card :=
  AddMarkdown (source_note nodes) (each (list_entry nodes) nodes (NewCard "🌐 节点列表概览" "blue")).

Definition BuildNodeDetailCard (node : NodeInfo) : Card :=
  let online := EqualFold (ni_Status node) "online" in
  let card := NewCard ((if online then "🟢" else "🔴") +:+ " 节点详情: " +:+ ni_Name node) (if online then "green" else "red") in
  let card := AddDoubleColumnText "**Assigned IP**" (ni_AssignedIP node) card in
  let card := AddDoubleColumnText "**Public IP**" (ni_PublicIP node) card in
  let card := AddDoubleColumnText "**Region**" (ni_Region node) card in
  let card := AddDoubleColumnText "**Version**" (ni_Version node) card in
  let card := AddDoubleColumnText "**Status**" (if online then "在线 (Online)" else "离线 (Offline)") card in
  AddMarkdown "---" card.

(** ** Values *)

(** A decoded JSON value; an object is what [%v] prints of it. *)
Inductive card_value :=
  | CNull
  | CText (s : string)
  | CNumber (x : spec_float)
  | CBool (b : bool)
  | CArray (l : list card_value)
  | CObject (printed : string).
Abbreviation entries := (list (string * card_value)).
Definition entry (key : string) (o : entries) : option card_value :=
  snd <$> List.find (λ kv, (kv.1 =? key)%string) o.

(** The number when [v == float64(int(v))], by the conversion of amd64. *)
Definition whole_number (x : spec_float) : option Z :=
  match x with
  | S754_zero _ => Some 0
  | S754_finite s m e =>
    let z := (if s then -1 else 1) * Z.shiftl (Zpos m) e in
    if ((0 <=? e) || (Zpos m mod 2 ^ (- e) =? 0)) && int64_range z then Some z else None
  | _ => None
  end.
(** [%.2f]: the nearest number of hundredths, the even one of two. *)
Definition hundredths (m : positive) (e : Z) : Z :=
  if 0 <=? e then 100 * Z.shiftl (Zpos m) e else
  let d := 2 ^ (- e) in
  let q := 100 * Zpos m / d in
  let r := 100 * Zpos m mod d in
  if (d <? 2 * r) || ((2 * r =? d) && Z.odd q) then q + 1 else q.
Definition two_places (x : spec_float) : string :=
  match x with
  | S754_finite s m e =>
    let h := hundredths m e in
    (if s then "-" else "") +:+ Itoa (h / 100) +:+ "." +:+ pad 2 (h mod 100)
  | S754_zero s => (if s then "-" else "") +:+ "0.00"
  | _ => ""
  end.
Definition formatValueForCard (value : card_value) : string :=
  match value with
  | CNull => "null"
  | CText s =>
    if (s =? "")%string then "(空)" else
    if (50 <? String.length s)%nat then String.substring 0 50 s +:+ "..." else s
  | CNumber x => match whole_number x with Some z => Itoa z | None => two_places x end
  | CBool b => if b then "✅" else "❌"
  | CArray l => "[" +:+ Itoa (Z.of_nat (length l)) +:+ " 项]"
  | CObject printed => printed
  end.

Definition getStringField (m : entries) (key : string) : string :=
  match entry key m with Some (CText s) => s | _ => "" end.
(** [int(v)] rounds towards zero; amd64 makes the least integer of what is out of range. *)
Definition float_int (x : spec_float) : Z :=
  match x with
  | S754_finite s m e =>
    let z := (if s then -1 else 1) * Z.shiftl (Zpos m) e in if int64_range z then z else - 2 ^ 63
  | _ => 0
  end.
Definition getIntField (m : entries) (key : string) : Z :=
  match entry key m with Some (CNumber x) => float_int x | _ => 0 end.
Definition getStringSliceField (m : entries) (key : string) : list string :=
  match entry key m with
  | Some (CArray l) => omap (λ x, match x with CText s => Some s | _ => None end) l
  | _ => []
  end.

Definition route_entry (routes : list entries) (i : nat) (route : entries) (c : Card) : Card :=
  let publicIP := getStringField route "public_ip" in
  let region := "**区域**: " +:+ getStringField route "region" in
  let c := AddMarkdown ("### **" +:+ getStringField route "hostname" +:+ "**") c in
  let c := if (publicIP =? "")%string
           then AddDoubleColumnText region ("**路由数**: " +:+ Itoa (getIntField route "route_count")) c
           else AddDoubleColumnText ("**IP**: " +:+ publicIP) region c in
  let c := match getStringSliceField route "routes" with
           | [] => AddMarkdown "**路由**: *无配置路由*" c
           | l => foldl (λ c r, AddMarkdown ("  • " +:+ r) c) (AddMarkdown "**路由**:" c) l
           end in
  separator i routes c.
Definition BuildRouteListCard (routes : list entries) : Card :=
  AddMarkdown (source_note routes) (each (route_entry routes) routes (NewCard "🌐 节点路由列表" "blue")).

(** ** Answers as cards *)

Record Decoders := {
  json_nodes : string → option (list NodeInfo);
  json_node : string → option NodeInfo;
  json_object : string → option entries;         (* null decodes to an empty object *)
  json_objects : string → option (list entries);
  json_text : string → option string;            (* the field text of an object *)
  json_token : string → option (Z * string * string);    (* code, msg, app_access_token *)
}.

Section cards.
Context (json : Decoders).

Definition object_table (o : entries) : string :=
  "| 字段 | 值 |" +:+ newlines 1 +:+ "|---|---|" +:+ newlines 1 +:+
  String.concat "" ((λ kv, "| **" +:+ kv.1 +:+ "** | " +:+ formatValueForCard kv.2 +:+ " |" +:+ newlines 1) <$> o).
Definition list_row (headers : list string) (item : entries) : string :=
  String.concat "" ((λ h, " " +:+ formatValueForCard (default CNull (entry h item)) +:+ " |") <$> headers) +:+ newlines 1.
Definition list_table (first : entries) (arr : list entries) : string :=
  let headers := first.*1 in
  "|" +:+ String.concat "" ((λ h, " **" +:+ h +:+ "** |") <$> headers) +:+
  newlines 1 +:+ "|---|" +:+ String.concat "" ((λ _, "---|") <$> headers) +:+ newlines 1 +:+
  String.concat "" (list_row headers <$> arr).
Definition BuildGenericJSONCard (jsonStr : string) : Card :=
  AddMarkdown
    (match json_object json jsonStr, json_objects json jsonStr with
     | Some obj, _ => object_table obj
     | None, Some ((first :: _) as arr) => list_table first arr
     | None, _ => "```json" +:+ newlines 1 +:+ jsonStr +:+ newlines 1 +:+ "```"
     end)
    (NewCard "📊 数据报表" "cyan").

(** The first of the cards an answer can be shown as. *)
Definition or_else {A} (x y : option A) : option A := match x with Some a => Some a | None => y end.
Definition card_of_reply (reply : string) : option Card :=
  let trimmedReply := TrimSpace reply in
  let jsonData := if is_card trimmedReply
                  then TrimSpace (String.substring 10 (String.length trimmedReply - 10) trimmedReply) else trimmedReply in
  let about word := strings_Contains jsonData word in
  or_else (if about "assigned_ip" && HasPrefix jsonData "[" then BuildNodeListCard <$> json_nodes json jsonData else None)
  (or_else (if about "assigned_ip" && HasPrefix jsonData "{" then BuildNodeDetailCard <$> json_node json jsonData else None)
  (or_else (if about "src_net" && HasPrefix jsonData "[" then Some (BuildGenericJSONCard jsonData) else None)
  (or_else (if about "routes" && HasPrefix jsonData "[" then BuildRouteListCard <$> json_objects json jsonData else None)
  (if (0 <? String.length jsonData)%nat && negb (about "assigned_ip") && negb (about "routes")
   then (λ _, BuildGenericJSONCard jsonData) <$> json_object json jsonData else None)))).
End cards.

(** ** Feishu *)

Record FeishuConfig := mkFeishu {
  fs_appID : string;
  fs_appSecret : string;
  fs_verifyToken : string;
}.
Inductive Content :=
  | TextContent (s : string)
  | CardContent (c : Card).
(** The requests to the platform, with the fields of their bodies. *)
Inductive Call :=
  | GetAppAccessToken (app_id app_secret : string)
  | SendMessage (token receive_id : string) (content : Content).
(** Status and body of the answer of the platform, or a request that failed. *)
Abbreviation Transport := (Call → result (Z * string)).

(** What a computation returns and the calls it made. *)
Abbreviation called A := (result A * list Call)%type.

Section feishu.
Context (h : FeishuConfig) (json : Decoders).

Definition getAppAccessToken (transport : Transport) : called string :=
  let call := GetAppAccessToken (fs_appID h) (fs_appSecret h) in
  (match transport call with
   | Err _ => Err (ErrorString "failed to send request")
   | Ok (_, body) =>
     match json_token json body with
     | None => Err (ErrorString "failed to unmarshal response")
     | Some (code, msg, token) =>
       if code =? 0 then Ok token else Err (ErrorString ("failed to get token: " +:+ msg))
     end
   end, [call]).
Definition ReplyFeishu (transport : Transport) (chatID : string) (content : Content) : called unit :=
  if (fs_appID h =? "")%string || (fs_appSecret h =? "")%string
  then (Err (ErrorString "feishu app ID or secret not configured"), []) else
  match getAppAccessToken transport with
  | (Err _, calls) => (Err (ErrorString "failed to get app access token"), calls)
  | (Ok token, calls) =>
    let call := SendMessage token chatID content in
    (match transport call with
     | Err _ => Err (ErrorString "failed to send request")
     | Ok (status, body) => if status =? 200 then Ok () else Err (ErrorString ("Feishu API Error: " +:+ body))
     end, calls ++ [call])
  end.

(** The fields of an event the handler reads. *)
Record FeishuEvent := mkFeishuEvent {
  fe_EventID : string;
  fe_EventType : string;
  fe_HeaderToken : string;
  fe_ChatID : string;
  fe_Content : string;
  fe_Type : string;
  fe_Challenge : string;
  fe_Token : string;
}.
Inductive FeishuBody :=
  | BodyUnread
  | BodyMalformed
  | BodyEvent (event : FeishuEvent).

(** The events seen and the conversations of the assistant. *)
Record FeishuState := mkFeishuState {
  fs_processed : gmap string Time;
  fs_memory : memory;
}.
#[export] Instance eta_FeishuState : Eta FeishuState := λ s, mkFeishuState (fs_processed s) (fs_memory s).

(** Status and fields of an answer; nothing when the handler panicked, which ends the
    connection. *)
Abbreviation WebAnswer := (option (Z * list (string * string))).
(** What a request did: its answer, the calls to the platform, and the message the
    assistant was asked. *)
Record Handled := mkHandled {
  hd_Answer : WebAnswer;
  hd_Calls : list Call;
  hd_Asked : option string;
}.
Definition answers (status : Z) (payload : list (string * string)) : Handled := mkHandled (Some (status, payload)) [] None.

Definition verifyIncomingToken (event : FeishuEvent) : bool :=
  if (fs_verifyToken h =? "")%string then false else
  (or_text (fe_HeaderToken event) (fe_Token event) =? fs_verifyToken h)%string.

Definition apology (x : error) : string := "抱歉，处理您的请求时出错：" +:+ error_text x.
(** [processMessage] once the assistant has replied. *)
Definition deliver_reply (transport : Transport) (chatID message reply : string) : Handled :=
  let content := match card_of_reply json reply with Some c => CardContent c | None => TextContent reply end in
  let '(sent, calls) := ReplyFeishu transport chatID content in
  mkHandled (Some (match sent with
                   | Ok _ => (200, [("status", "success")])
                   | Err x => (500, [("error", error_message x)])
                   end)) calls (Some message).

(** A request without a user: webhooks stand before the authentication. *)
Definition background : Context := mkContext None None None None.

Context `{CidrText} (uuid_Parse : string → option UUID) (ai : AssistantConfig).
(** The language model of the configuration, its failures and answers as they come. *)
Context (llm : option (list MessageContent → list string → result (list Choice))) (transport : Transport).

Definition ask_in_chat (memo : memory) (chatID message : string) : M (string * memory) :=
  ChatWithContext llm (as_systemPrompt ai) (as_json_args ai) uuid_Parse (as_json_Marshal ai) (as_json_int ai) (as_nanos ai)
    (as_base_ip ai) (as_cidr ai) memo background chatID message.
Definition processMessage (s : FeishuState) (message chatID : string) : M (Handled * FeishuState) :=
  res ← attempt (ask_in_chat (fs_memory s) chatID message);
  mret (match res with
        | Ok (reply, memo) => (deliver_reply transport chatID message reply, s <| fs_memory := memo |>)
        | Err (Panic _) => (mkHandled None [] (Some message), s)
        | Err x => (deliver_reply transport chatID message (apology x), s)
        end).

(** The part of [HandleWebhook] behind the check for duplicates. *)
Definition handle_event (s : FeishuState) (event : FeishuEvent) : M (Handled * FeishuState) :=
  if (fe_Type event =? "url_verification")%string then mret (answers 200 [("challenge", fe_Challenge event)], s) else
  if negb (fe_EventType event =? "im.message.receive_v1")%string then mret (answers 200 [("status", "ok")], s) else
  match json_text json (fe_Content event) with
  | None => mret (answers 400 [("error", "Failed to parse message content")], s)
  | Some userMessage =>
    if (userMessage =? "")%string then mret (answers 200 [("status", "ok")], s) else
    processMessage s userMessage (fe_ChatID event)
  end.
Definition HandleWebhook (s : FeishuState) (body : FeishuBody) : M (Handled * FeishuState) :=
  match body with
  | BodyUnread => mret (answers 400 [("error", "Failed to read request body")], s)
  | BodyMalformed => mret (answers 400 [("error", "Failed to parse event")], s)
  | BodyEvent event =>
    if negb (verifyIncomingToken event) then mret (answers 401 [("error", "Invalid token")], s) else
    let eventID := fe_EventID event in
    if (eventID =? "")%string then handle_event s event else
    if decide (is_Some (fs_processed s !! eventID))
    then mret (answers 200 [("status", "ok"); ("reason", "duplicate")], s) else
    now ← ask env_go_now;
    handle_event (s <| fs_processed := <[eventID := now]> (fs_processed s) |>) event
  end.

(** ** DingTalk *)

(** Base64 of the HMAC-SHA256 of a text under a key. *)
Context (hmac : string → string → string).

Definition DingTalk_verifySign (secret timestamp sign : string) : bool :=
  if (secret =? "")%string then false else
  if (timestamp =? "")%string || (sign =? "")%string then false else
  (sign =? hmac secret (timestamp +:+ newlines 1 +:+ secret))%string.
(** The body as it came, with the text it decodes to. *)
Inductive DingTalkBody :=
  | DingTalkUnread
  | DingTalkText (raw : string) (decoded : option string).
Definition DingTalk_processMessage (message : string) : M Handled :=
  if (message =? "")%string then mret (answers 200 [("status", "ok")]) else
  res ← attempt (Chat llm (as_systemPrompt ai) (as_json_args ai) uuid_Parse (as_json_Marshal ai) (as_json_int ai)
                   (as_nanos ai) (as_base_ip ai) (as_cidr ai) background message);
  mret (mkHandled (match res with
                   | Ok reply => Some (200, [("status", "success"); ("reply", reply)])
                   | Err (Panic _) => None
                   | Err x => Some (200, [("status", "success"); ("reply", apology x)])
                   end) [] (Some message)).
Definition DingTalk_HandleWebhook (secret timestamp sign : string) (body : DingTalkBody) : M Handled :=
  match body with
  | DingTalkUnread => mret (answers 400 [("error", "Failed to read request body")])
  | DingTalkText raw decoded =>
    if negb (DingTalk_verifySign secret timestamp sign) then mret (answers 401 [("error", "Invalid signature")]) else
    DingTalk_processMessage (default raw decoded)
  end.
End feishu.

(** The routine [NewFeishuHandler] starts: every half hour it forgets old events. *)
Definition two_hours : Time := 7200000000.
Definition forget_old_events (now : Time) (s : FeishuState) : FeishuState :=
  s <| fs_processed := filter (λ kt, ¬ two_hours < now - kt.2) (fs_processed s) |>.

(** ** The process *)

Record MessagingConfig := mkMessaging {
  ms_Feishu : FeishuConfig;
  ms_DingTalkSecret : string;
  ms_json : Decoders;
  ms_hmac : string → string → string;
  ms_ai : AssistantConfig;
}.
(** What happens, with what the model, the platform and the clock do meanwhile. *)
Inductive happening :=
  | FeishuPosted (e : Env) (llm : option (list MessageContent → list string → result (list Choice))) (transport : Transport)
      (body : FeishuBody)
  | DingTalkPosted (e : Env) (llm : option (list MessageContent → list string → result (list Choice)))
      (timestamp sign : string) (body : DingTalkBody)
  | EventsForgotten (now : Time).

Section process.
Context `{CidrText} (uuid_Parse : string → option UUID) (c : MessagingConfig).

Definition no_answer : Handled := mkHandled None [] None.
Definition handle (x : happening) (s : FeishuState) (st : St) : Handled * FeishuState * St :=
  match x with
  | FeishuPosted e llm transport body =>
    let '(res, st') := HandleWebhook (ms_Feishu c) (ms_json c) uuid_Parse (ms_ai c) llm transport s body e st in
    (match res with Ok hs => hs | Err _ => (no_answer, s) end, st')
  | DingTalkPosted e llm timestamp sign body =>
    let '(res, st') :=
      DingTalk_HandleWebhook uuid_Parse (ms_ai c) llm (ms_hmac c) (ms_DingTalkSecret c) timestamp sign body e st in
    (match res with Ok hd => hd | Err _ => no_answer end, s, st')
  | EventsForgotten now => (no_answer, forget_old_events now s, st)
  end.
Fixpoint serve (l : list happening) (s : FeishuState) (st : St) : list Handled * FeishuState * St :=
  match l with
  | [] => ([], s, st)
  | x :: l =>
    let '(hd, s, st) := handle x s st in
    let '(hds, s, st) := serve l s st in
    (hd :: hds, s, st)
  end.
End process.
