(* ===== verification/MessagingSpec.v ===== *)
(** * What a chat platform can reach

    A webhook carries no user, so every tool of the assistant refuses: whatever is
    posted, nothing is written or read, a message is answered once, and its answer
    goes to the chat it came from. *)

From Stdlib Require Import SpecFloat.
From S2P Require Import Prelude GoStr Netip Records CidrColumn Store Events Tokens ControlState AgentCommands PolicySync Nodes Tenants PolicyRules Routes Sessions Access AccessSpec Dispatch AssistantTools Assistant Messaging.

Open Scope Z_scope.

(** ** Computations that stay off the tables *)

Definition offline {A} (m : M A) : Prop := ∀ e st st', m e st = ((m e st').1, st).

Lemma offline_ret {A} (a : A) : offline (mret a).
Proof. done. Qed.
Lemma offline_fail {A} x : offline (fail (A:=A) x).
Proof. done. Qed.
Lemma offline_ask {A} (f : Env → A) : offline (ask f).
Proof. done. Qed.
Lemma offline_lift {A} (f : Env → result A) : offline (lift f).
Proof. done. Qed.
Lemma offline_bind {A B} (m : M A) (k : A → M B) : offline m → (∀ a, offline (k a)) → offline (m ≫= k).
Proof.
  intros Hm Hk e st st'. unfold mbind, M_bind. rewrite (Hm e st st'). destruct (m e st') as [[a|x] st1]; [|done].
  cbn. by rewrite (Hk a e st st1).
Qed.
Lemma offline_attempt {A} (m : M A) : offline m → offline (attempt m).
Proof. intros Hm e st st'. unfold attempt. rewrite (Hm e st st'). by destruct (m e st'). Qed.
Lemma offline_caught {A} (m : M A) : offline m → offline (caught m).
Proof. intros Hm e st st'. unfold caught. rewrite (Hm e st st'). by destruct (m e st') as [[?|[]] ?]. Qed.
#[local] Hint Resolve offline_ret offline_fail offline_ask offline_lift offline_attempt offline_caught : aria.
Ltac offline_step :=
  match goal with
  | |- offline (let _ := _ in _) => cbv zeta
  | |- offline (match ?x with _ => _ end) => destruct x eqn:?
  | |- offline (_ ≫= _) => apply offline_bind; [solve [eauto 6 with aria]|intros ?]
  | |- offline _ => solve [eauto 6 with aria]
  end.
Ltac offlines := repeat offline_step.

(** ** The assistant without a user *)

Section assistant.
Context (llm : option (list MessageContent → list string → result (list Choice))).
Context (systemPrompt : string) (json_args : string → ToolArgs).
Context (ts : list Tool) (Hts : Forall (λ t, ∀ args, offline (tl_Run t args)) ts).

Lemma runTool_offline name args : offline (runTool json_args ts name args).
Proof using Hts.
  unfold runTool. destruct (List.find _ ts) as [t|] eqn:Hf; [|offlines].
  apply List.find_some in Hf as [Hin%list_elem_of_In _]. rewrite Forall_forall in Hts. pose proof (Hts t Hin).
  offlines.
Qed.
Lemma think_offline generate messages : offline (think json_args generate messages ts).
Proof using Hts.
  assert (∀ resp, offline (first_choice resp)) by (intros []; [apply offline_fail|apply offline_ret]).
  unfold think. pose proof runTool_offline. offlines.
Qed.
Lemma think_tools_offline prompt : offline (ThinkWithTools llm systemPrompt json_args prompt ts).
Proof using Hts. unfold ThinkWithTools. pose proof think_offline. offlines. Qed.
Lemma think_history_offline prompt history : offline (ThinkWithHistoryTools llm systemPrompt json_args prompt history ts).
Proof using Hts. unfold ThinkWithHistoryTools. pose proof think_offline. offlines. Qed.
End assistant.

Lemma run_without_user ctx tool args : UserRole ctx = None → tl_RequiredPermission tool ≠ "" →
  offline (runScopedTool ctx tool args).
Proof.
  intros Hctx Hp. unfold runScopedTool, authorizeTool. rewrite (proj2 (String.eqb_neq _ _) Hp), Hctx. done.
Qed.
Lemma tools_without_user `{CidrText} uuid_Parse json_Marshal json_int nanos base_ip cidr ctx : UserRole ctx = None →
  Forall (λ t, ∀ args, offline (tl_Run t args))
    (scopedReadOnlyTools uuid_Parse json_Marshal json_int nanos base_ip cidr ctx).
Proof.
  intros Hctx. unfold scopedReadOnlyTools. apply Forall_forall. intros t [_ Hin]%list_elem_of_filter args.
  unfold scopedTools in Hin. apply list_elem_of_fmap in Hin as (raw & -> & Hraw). cbn [tl_Run]. apply run_without_user; [done|].
  assert (Forall (λ x, tl_RequiredPermission x ≠ "")
    (registered_tools uuid_Parse json_Marshal json_int nanos base_ip cidr)) as Hall by (repeat constructor; done).
  rewrite Forall_forall in Hall. by apply Hall.
Qed.

(** ** The handlers *)

Section handlers.
Context `{CidrText} (h : FeishuConfig) (json : Decoders) (uuid_Parse : string → option UUID) (ai : AssistantConfig).
Context (llm : option (list MessageContent → list string → result (list Choice))) (transport : Transport).

Lemma ask_offline memo chatID message : offline (ask_in_chat uuid_Parse ai llm memo chatID message).
Proof.
  apply offline_bind; [|intros; apply offline_ret]. apply think_history_offline, tools_without_user. reflexivity.
Qed.
Lemma handle_event_offline s event : offline (handle_event h json uuid_Parse ai llm transport s event).
Proof. unfold handle_event, processMessage. pose proof ask_offline. offlines. Qed.
Lemma HandleWebhook_offline s body : offline (HandleWebhook h json uuid_Parse ai llm transport s body).
Proof. unfold HandleWebhook. pose proof handle_event_offline. offlines. Qed.
Lemma DingTalk_offline hmac secret timestamp sign body :
  offline (DingTalk_HandleWebhook uuid_Parse ai llm hmac secret timestamp sign body).
Proof.
  unfold DingTalk_HandleWebhook, DingTalk_processMessage. destruct body as [|raw decoded]; [apply offline_ret|].
  destruct (negb _); [apply offline_ret|]. destruct (_ =? "")%string; [apply offline_ret|].
  apply offline_bind; [|intros; apply offline_ret]. apply offline_attempt, think_tools_offline, tools_without_user. reflexivity.
Qed.

(** ** One event *)

(** The message an event asks the assistant. *)
Definition event_message (event : FeishuEvent) : option string :=
  if (fe_Type event =? "url_verification")%string || negb (fe_EventType event =? "im.message.receive_v1")%string then None else
  match json_text json (fe_Content event) with
  | Some m => if (m =? "")%string then None else Some m
  | None => None
  end.
Definition other_chats_kept (chatID : string) (s s' : FeishuState) : Prop :=
  ∀ chat, chat ≠ chatID → fs_memory s' !! chat = fs_memory s !! chat.
Definition to_chat (chatID : string) (call : Call) : Prop :=
  match call with SendMessage _ id _ => id = chatID | GetAppAccessToken _ _ => True end.

Lemma reply_to_chat chatID content : Forall (to_chat chatID) (ReplyFeishu h json transport chatID content).2.
Proof.
  unfold ReplyFeishu. destruct (_ || _); [constructor|]. unfold getAppAccessToken.
  destruct (match transport _ with Ok _ => _ | Err _ => _ end) as [token|x]; repeat constructor.
Qed.
Lemma deliver_asked chatID message reply :
  hd_Asked (deliver_reply h json transport chatID message reply) = Some message ∧
  Forall (to_chat chatID) (hd_Calls (deliver_reply h json transport chatID message reply)).
Proof.
  unfold deliver_reply. pose proof (reply_to_chat chatID) as Hto.
  destruct (card_of_reply json reply) as [card|];
    [specialize (Hto (CardContent card))|specialize (Hto (TextContent reply))];
    destruct (ReplyFeishu _ _ _ _ _) as [sent calls]; by split.
Qed.
Lemma ask_memory memo chatID message e st reply memo' st' chat : chat ≠ chatID →
  ask_in_chat uuid_Parse ai llm memo chatID message e st = (Ok (reply, memo'), st') → memo' !! chat = memo !! chat.
Proof.
  intros Hne (answer & st1 & _ & Hr)%bind_ok. injection Hr as _ <- _. destruct (_ =? "")%string; [done|].
  by rewrite lookup_insert_ne.
Qed.

(** What [handle_event] leaves besides its answer. *)
Definition handled_event (s : FeishuState) (event : FeishuEvent) (hd : Handled) (s' : FeishuState) : Prop :=
  hd_Asked hd = event_message event ∧ Forall (to_chat (fe_ChatID event)) (hd_Calls hd) ∧
  fs_processed s' = fs_processed s ∧ other_chats_kept (fe_ChatID event) s s'.
Lemma handle_event_spec s event e st : ∃ hd s' st',
  handle_event h json uuid_Parse ai llm transport s event e st = (Ok (hd, s'), st') ∧ handled_event s event hd s'.
Proof.
  assert (∀ status payload, event_message event = None → handled_event s event (answers status payload) s) as Hnone.
  { intros status payload Hn. split_and!; [by rewrite Hn|constructor|done..]. }
  unfold handle_event. unfold event_message in Hnone.
  destruct (fe_Type event =? _)%string eqn:H1; [eexists _, _, _; split; [done|by apply Hnone]|].
  destruct (fe_EventType event =? _)%string eqn:H2; cbn [negb orb] in Hnone |- *;
    [|eexists _, _, _; split; [done|by apply Hnone]].
  destruct (json_text json _) as [m|] eqn:H3; [|eexists _, _, _; split; [done|by apply Hnone]].
  destruct (m =? "")%string eqn:H4; [eexists _, _, _; split; [done|by apply Hnone]|].
  assert (event_message event = Some m) as Hm by (unfold event_message; by rewrite H1, H2, H3, H4).
  unfold processMessage, attempt, mbind, M_bind.
  destruct (ask_in_chat _ _ _ _ _ _ _ _) as [[[reply memo]|x] st1] eqn:Hask.
  - eexists _, _, _. split; [reflexivity|]. destruct (deliver_asked (fe_ChatID event) m reply) as [Ha Hc].
    split_and!; [by rewrite Ha|done|done|]. intros chat Hne. by eapply ask_memory.
  - assert (∀ hd, hd_Asked hd = Some m → Forall (to_chat (fe_ChatID event)) (hd_Calls hd) → handled_event s event hd s) as Hsame.
    { intros hd Ha Hc. split_and!; [by rewrite Ha|done|done|]. intros chat _. done. }
    destruct (deliver_asked (fe_ChatID event) m (apology x)) as [Ha Hc].
    destruct x; eexists _, _, _; (split; [reflexivity|]); apply Hsame; solve [done|constructor].
Qed.
End handlers.

(** ** The process *)

(** An event is looked at when it carries the token of the platform and was not seen. *)
Definition accepts (h : FeishuConfig) (s : FeishuState) (event : FeishuEvent) : bool :=
  verifyIncomingToken h event &&
  ((fe_EventID event =? "")%string || bool_decide (fs_processed s !! fe_EventID event = None)).
Lemma accepts_token h s event : accepts h s event = true →
  fs_verifyToken h ≠ "" ∧ or_text (fe_HeaderToken event) (fe_Token event) = fs_verifyToken h.
Proof.
  unfold accepts, verifyIncomingToken. intros [Hv _]%andb_true_iff.
  destruct (String.eqb_spec (fs_verifyToken h) ""); [done|]. by apply String.eqb_eq in Hv.
Qed.

Definition moment (x : happening) : Time :=
  match x with FeishuPosted e _ _ _ | DingTalkPosted e _ _ _ _ => env_go_now e | EventsForgotten now => now end.
(** The events whose message the assistant was asked, with their times. *)
Definition asked_events (l : list happening) (hds : list Handled) : list (string * Time) :=
  omap (λ xh, match xh.1, hd_Asked xh.2 with
              | FeishuPosted e _ _ (BodyEvent event), Some _ => Some (fe_EventID event, env_go_now e)
              | _, _ => None
              end) (zip l hds).
Definition apart (x y : string * Time) : Prop := x.1 = y.1 → x.1 ≠ "" → two_hours < y.2 - x.2.
Definition chats (l : list happening) : list string :=
  omap (λ x, match x with FeishuPosted _ _ _ (BodyEvent event) => Some (fe_ChatID event) | _ => None end) l.

Section process.
Context `{CidrText} (uuid_Parse : string → option UUID) (c : MessagingConfig).

(** Nobody is answered without the secret of the platform, and no chat but their own. *)
Definition genuine (x : happening) (hd : Handled) : Prop :=
  match x with
  | FeishuPosted _ _ _ (BodyEvent event) =>
    Forall (to_chat (fe_ChatID event)) (hd_Calls hd) ∧
    (hd_Asked hd ≠ None → hd_Asked hd = event_message (ms_json c) event ∧ fs_verifyToken (ms_Feishu c) ≠ "" ∧
       or_text (fe_HeaderToken event) (fe_Token event) = fs_verifyToken (ms_Feishu c))
  | DingTalkPosted _ _ timestamp sign _ =>
    hd_Calls hd = [] ∧
    (hd_Asked hd ≠ None → ms_DingTalkSecret c ≠ "" ∧
       sign = ms_hmac c (ms_DingTalkSecret c) (timestamp +:+ newlines 1 +:+ ms_DingTalkSecret c))
  | _ => hd_Calls hd = [] ∧ hd_Asked hd = None
  end.

Lemma handle_offline x s st st' : handle uuid_Parse c x s st = ((handle uuid_Parse c x s st').1, st).
Proof.
  destruct x as [e llm transport body|e llm timestamp sign body|now]; cbn [handle]; [..|done].
  - rewrite (HandleWebhook_offline (ms_Feishu c) (ms_json c) uuid_Parse (ms_ai c) llm transport s body e st st').
    by destruct (HandleWebhook _ _ _ _ _ _ _ _ _ st').
  - rewrite (DingTalk_offline uuid_Parse (ms_ai c) llm (ms_hmac c) (ms_DingTalkSecret c) timestamp sign body e st st').
    by destruct (DingTalk_HandleWebhook _ _ _ _ _ _ _ _ _ st').
Qed.
Lemma serve_offline l s st st' : serve uuid_Parse c l s st = ((serve uuid_Parse c l s st').1, st).
Proof.
  revert s. induction l as [|x l IH]; intros s; [done|]. cbn [serve]. rewrite (handle_offline x s st st').
  destruct (handle_offline x s st' st'). destruct (handle uuid_Parse c x s st') as [[hd s1] st1] eqn:Hx.
  assert (st1 = st') as -> by (pose proof (handle_offline x s st' st') as Ho; rewrite Hx in Ho; by injection Ho).
  cbn [fst]. rewrite (IH s1). by destruct (serve uuid_Parse c l s1 st') as [[hds s2] st2].
Qed.

Lemma feishu_event e llm transport event s st hd s' st' :
  handle uuid_Parse c (FeishuPosted e llm transport (BodyEvent event)) s st = (hd, s', st') →
  Forall (to_chat (fe_ChatID event)) (hd_Calls hd) ∧
  hd_Asked hd = (if accepts (ms_Feishu c) s event then event_message (ms_json c) event else None) ∧
  fs_processed s' = (if accepts (ms_Feishu c) s event && negb (fe_EventID event =? "")%string
                     then <[fe_EventID event := env_go_now e]> (fs_processed s) else fs_processed s) ∧
  other_chats_kept (fe_ChatID event) s s'.
Proof.
  cbn [handle HandleWebhook]. unfold accepts. destruct (verifyIncomingToken _ _); cbn [negb andb];
    [|intros [= <- <- <-]; split_and!; [constructor|done..]].
  destruct (fe_EventID event =? "")%string eqn:Hid; cbn [orb negb andb].
  - destruct (handle_event_spec (ms_Feishu c) (ms_json c) uuid_Parse (ms_ai c) llm transport s event e st)
      as (hd1 & s1 & st1 & -> & Ha & Hc & Hp & Hm). by intros [= <- <- <-].
  - destruct (decide (is_Some _)) as [[t Ht]|Hn].
    + rewrite bool_decide_eq_false_2 by congruence. intros [= <- <- <-]. split_and!; [constructor|done..].
    + apply eq_None_not_Some in Hn. rewrite bool_decide_eq_true_2 by done. unfold mbind, M_bind, ask. cbv beta iota.
      destruct (handle_event_spec (ms_Feishu c) (ms_json c) uuid_Parse (ms_ai c) llm transport
        (s <| fs_processed := <[fe_EventID event := env_go_now e]> (fs_processed s) |>) event e st)
        as (hd1 & s1 & st1 & -> & Ha & Hc & Hp & Hm). by intros [= <- <- <-].
Qed.

Lemma handle_genuine x s st : genuine x (handle uuid_Parse c x s st).1.1.
Proof.
  destruct x as [e llm transport [| |event]|e llm timestamp sign body|now]; try done.
  - destruct (handle _ _ _ s st) as [[hd s'] st'] eqn:Hx. apply feishu_event in Hx as (Hc & Ha & _). cbn [fst genuine].
    split; [done|]. rewrite Ha. destruct (accepts _ _ _) eqn:Hacc; [|done]. intros _. split; [done|by eapply accepts_token].
  - cbn [handle genuine]. unfold DingTalk_HandleWebhook. destruct body as [|raw decoded]; [done|].
    unfold DingTalk_verifySign. destruct (String.eqb_spec (ms_DingTalkSecret c) ""); [done|]. destruct (_ || _); [done|].
    destruct (String.eqb_spec sign (ms_hmac c (ms_DingTalkSecret c) (timestamp +:+ newlines 1 +:+ ms_DingTalkSecret c))); [|done].
    unfold DingTalk_processMessage. destruct (_ =? "")%string; [done|].
    cbn [negb]. unfold attempt, mbind, M_bind. by destruct (Chat _ _ _ _ _ _ _ _ _ _ _ e st).
Qed.
Lemma handle_chat x s st chat : chat ∉ chats [x] →
  fs_memory (handle uuid_Parse c x s st).1.2 !! chat = fs_memory s !! chat.
Proof.
  destruct x as [e llm transport [| |event]|e llm timestamp sign body|now]; try done; intros Hchat.
  - destruct (handle _ _ _ s st) as [[hd s'] st'] eqn:Hx. apply feishu_event in Hx as (_ & _ & _ & Hm). cbn [fst snd].
    apply Hm. intros ->. apply Hchat. by left.
  - cbn [handle]. by destruct (DingTalk_HandleWebhook _ _ _ _ _ _ _ _ _ st).
Qed.

Lemma serve_cons x l s st : serve uuid_Parse c (x :: l) s st =
  let '(hd, s1, _) := handle uuid_Parse c x s st in
  let '(hds, s2, _) := serve uuid_Parse c l s1 st in (hd :: hds, s2, st).
Proof.
  cbn [serve]. rewrite (handle_offline x s st st). destruct (handle uuid_Parse c x s st) as [[hd s1] st1]. cbn [fst].
  rewrite (serve_offline l s1 st st). by destruct (serve uuid_Parse c l s1 st) as [[hds s2] st2].
Qed.

Lemma serve_genuine l s st : Forall2 genuine l (serve uuid_Parse c l s st).1.1.
Proof.
  revert s. induction l as [|x l IH]; intros s; [constructor|]. rewrite serve_cons. pose proof (handle_genuine x s st) as Hx.
  destruct (handle uuid_Parse c x s st) as [[hd s1] st1]. specialize (IH s1).
  destruct (serve uuid_Parse c l s1 st) as [[hds s2] st2]. by constructor.
Qed.
Lemma serve_chat l s st chat : chat ∉ chats l → fs_memory (serve uuid_Parse c l s st).1.2 !! chat = fs_memory s !! chat.
Proof.
  revert s. induction l as [|x l IH]; intros s Hchat; [done|]. change (chats (x :: l)) with (chats ([x] ++ l)) in Hchat.
  unfold chats in Hchat. rewrite omap_app in Hchat. apply not_elem_of_app in Hchat as [Hx Hl]. rewrite serve_cons.
  pose proof (handle_chat x s st chat Hx) as Hkept. destruct (handle uuid_Parse c x s st) as [[hd s1] st1].
  specialize (IH s1 Hl). destruct (serve uuid_Parse c l s1 st) as [[hds s2] st2]. cbn in *. congruence.
Qed.

(** What the process remembers of an event it answered at time [t]. *)
Definition remembers (s : FeishuState) (id : string) (t now : Time) : Prop :=
  fs_processed s !! id = Some t ∨ two_hours < now - t.
Lemma handle_remembers x s st id t now : now ≤ moment x → remembers s id t now →
  remembers (handle uuid_Parse c x s st).1.2 id t (moment x).
Proof.
  intros Hle [Hs|Ht]; [|right; lia].
  destruct x as [e llm transport [| |event]|e llm timestamp sign body|m]; try by left.
  - destruct (handle _ _ _ s st) as [[hd s'] st'] eqn:Hx. apply feishu_event in Hx as (_ & _ & Hp & _). left. cbn [fst snd].
    rewrite Hp. destruct (accepts _ _ _) eqn:Hacc; cbn [andb]; [|done].
    destruct (String.eqb_spec (fe_EventID event) ""); cbn [negb]; [done|].
    rewrite lookup_insert_ne; [done|]. intros Hid. unfold accepts in Hacc. rewrite Hid, Hs, andb_true_iff, orb_true_iff in Hacc.
    destruct Hacc as [_ [Hacc%String.eqb_eq|Hacc%bool_decide_eq_true]]; congruence.
  - left. cbn [handle]. by destruct (DingTalk_HandleWebhook _ _ _ _ _ _ _ _ _ st).
  - unfold remembers. cbn [handle forget_old_events fst snd moment]. destruct (decide (two_hours < m - t)); [by right|left].
    by apply map_lookup_filter_Some_2.
Qed.
Lemma asked_cons x l hd hds : asked_events (x :: l) (hd :: hds) = asked_events [x] [hd] ++ asked_events l hds.
Proof. unfold asked_events. cbn [zip zip_with omap list_omap]. by destruct (match x with FeishuPosted _ _ _ _ => _ | _ => _ end). Qed.
(** An event that is answered was not known, and is known from then on. *)
Lemma handle_asked x s st y : y ∈ asked_events [x] [(handle uuid_Parse c x s st).1.1] → y.1 ≠ "" →
  y.2 = moment x ∧ fs_processed s !! y.1 = None ∧ fs_processed (handle uuid_Parse c x s st).1.2 !! y.1 = Some (moment x).
Proof.
  destruct x as [e llm transport [| |event]|e llm timestamp sign body|m]; try by intros ?%elem_of_nil.
  destruct (handle _ _ _ s st) as [[hd s'] st'] eqn:Hx. apply feishu_event in Hx as (_ & Ha & Hp & _).
  unfold asked_events. cbn [zip zip_with omap list_omap fst snd]. rewrite Hp. destruct (hd_Asked hd); [|by intros ?%elem_of_nil].
  intros ->%list_elem_of_singleton Hne. cbn [fst snd moment] in *. destruct (accepts _ _ _) eqn:Hacc; [|done].
  rewrite (proj2 (String.eqb_neq _ _) Hne). cbn [negb andb]. rewrite lookup_insert_eq. split_and!; [done| |done].
  unfold accepts in Hacc. rewrite (proj2 (String.eqb_neq _ _) Hne), andb_true_iff in Hacc. by destruct Hacc as [_ ?%bool_decide_eq_true].
Qed.
Lemma later_apart l s st id t now : id ≠ "" → remembers s id t now → Forall (Z.le now) (moment <$> l) →
  StronglySorted Z.le (moment <$> l) →
  Forall (apart (id, t)) (asked_events l (serve uuid_Parse c l s st).1.1).
Proof.
  intros Hid. revert s now. induction l as [|x l IH]; intros s now Hs Hnow Hsorted; [constructor|].
  cbn [fmap list_fmap] in Hnow, Hsorted. apply Forall_cons in Hnow as [Hx _]. apply StronglySorted_inv in Hsorted as [Hsorted Hle].
  pose proof (handle_remembers x s st id t now Hx Hs) as Hs1. pose proof (handle_asked x s st) as Hasked. rewrite serve_cons.
  destruct (handle uuid_Parse c x s st) as [[hd s1] st1]. cbn [fst snd] in Hs1, Hasked. specialize (IH s1 (moment x) Hs1 Hle Hsorted).
  destruct (serve uuid_Parse c l s1 st) as [[hds s2] st2]. cbn [fst]. rewrite asked_cons. apply Forall_app. split; [|done].
  apply Forall_forall. intros y Hy Heq _. cbn [fst snd] in *. subst id. destruct (Hasked y Hy Hid) as (-> & Hn & _).
  destruct Hs as [Hs|Hs]; [congruence|lia].
Qed.
Lemma serve_apart l s st : StronglySorted Z.le (moment <$> l) →
  StronglySorted apart (asked_events l (serve uuid_Parse c l s st).1.1).
Proof.
  revert s. induction l as [|x l IH]; intros s Hsorted; [constructor|].
  cbn [fmap list_fmap] in Hsorted. apply StronglySorted_inv in Hsorted as [Hsorted Hle].
  pose proof (handle_asked x s st) as Hasked. rewrite serve_cons. destruct (handle uuid_Parse c x s st) as [[hd s1] st1].
  cbn [fst snd] in Hasked. specialize (IH s1 Hsorted). pose proof (λ id t Hid Hs, later_apart l s1 st id t (moment x) Hid Hs Hle Hsorted) as Hl.
  destruct (serve uuid_Parse c l s1 st) as [[hds s2] st2]. cbn [fst] in *. rewrite asked_cons.
  assert (length (asked_events [x] [hd]) ≤ 1)%nat as Hone.
  { unfold asked_events. cbn [zip zip_with omap list_omap]. case_match; cbn; lia. }
  destruct (asked_events [x] [hd]) as [|[id t] [|]]; [done| |cbn in Hone; lia]. constructor; [done|].
  destruct (decide (id = "")) as [->|Hne]; [by apply Forall_forall; intros y _ _ []|].
  apply Hl; [done|]. destruct (Hasked (id, t) (list_elem_of_here _ _) Hne) as (Ht & _ & Hp). cbn [fst snd] in *. left. congruence.
Qed.
End process.

(** C15. Chat platforms reach nothing but the assistant.  Over any sequence of posts to
    both webhooks and clean-ups, whatever the language model and the platform answer, no
    table is read or written; nobody is answered without the secret of the platform and
    only the chat an event names gets messages; a conversation changes by the events of
    its chat alone; while the clock does not go back an event is answered at most once in
    two hours, and one that is new and genuine has its message put to the assistant. *)
Theorem webhooks_confined `{CidrText} uuid_Parse c l s st hds s' st' :
  serve uuid_Parse c l s st = (hds, s', st') →
  (st' = st ∧ ∀ other, serve uuid_Parse c l s other = (hds, s', other)) ∧
  Forall2 (genuine c) l hds ∧
  (∀ chat, chat ∉ chats l → fs_memory s' !! chat = fs_memory s !! chat) ∧
  (StronglySorted Z.le (moment <$> l) → StronglySorted apart (asked_events l hds)) ∧
  (∀ e llm transport event, accepts (ms_Feishu c) s' event = true →
     hd_Asked (handle uuid_Parse c (FeishuPosted e llm transport (BodyEvent event)) s' st').1.1 = event_message (ms_json c) event).
Proof.
  intros Hrun. pose proof (serve_offline uuid_Parse c l s) as Ho. pose proof (serve_genuine uuid_Parse c l s st) as Hg.
  pose proof (serve_chat uuid_Parse c l s st) as Hc. pose proof (serve_apart uuid_Parse c l s st) as Ha.
  rewrite Hrun in Hg, Hc, Ha. cbn [fst snd] in *. split_and!; try done.
  - specialize (Ho st st). rewrite Hrun in Ho. by injection Ho.
  - intros other. specialize (Ho other st). by rewrite Hrun in Ho.
  - intros e llm transport event Hacc. destruct (handle _ _ _ s' st') as [[hd s2] st2] eqn:Hx.
    apply feishu_event in Hx as (_ & Hasked & _). cbn [fst]. by rewrite Hasked, Hacc.
Qed.

(** ** Examples *)

(** A model that asks for the nodes and repeats what it is told. *)
Definition repeats (messages : list MessageContent) (tools : list string) : result (list Choice) :=
  match last messages with
  | Some (ToolAnswers _ _ content) => Ok [mkChoice content []]
  | _ => Ok [mkChoice "" [mkToolCall "c1" "list_nodes" ""]]
  end.
Definition demo_platform : Transport := λ call,
  match call with GetAppAccessToken _ _ => Ok (200, "tok") | SendMessage _ _ _ => Ok (200, "") end.
Definition demo_json : Decoders := {|
  json_nodes := λ _, None; json_node := λ _, None; json_object := λ _, None; json_objects := λ _, None;
  json_text := Some; json_token := λ body, Some (0, "", body) |}.
Definition demo_messaging : MessagingConfig :=
  mkMessaging (mkFeishu "app" "secret" "vt") "key" demo_json (λ key text, key +:+ text)
    (mkAssistant None "" (λ _, ArgsMalformed) (λ _, "{}") (λ _, None) (λ _, 0) "" "" ∅).
Definition demo_event (token : string) : FeishuEvent := mkFeishuEvent "ev1" "im.message.receive_v1" token "oc_1" "nodes?" "" "" "".
Definition posted (t : Time) (token : string) : happening :=
  FeishuPosted (env_at t) (Some repeats) demo_platform (BodyEvent (demo_event token)).
Definition refusal : string := "Tool Error: user role is required for AI tool execution".
Definition answered : Handled :=
  mkHandled (Some (200, [("status", "success")]))
    [GetAppAccessToken "app" "secret"; SendMessage "tok" "oc_1" (TextContent refusal)] (Some "nodes?").
Definition demo_posts : list happening :=
  [posted 9 ""; posted 9 "vt"; posted 10 "vt"; EventsForgotten (two_hours + 10); posted (two_hours + 11) "vt"].
Definition demo_served : list Handled * FeishuState * St :=
  @serve go_cidr Some demo_messaging demo_posts (mkFeishuState ∅ ∅) (mkSt empty_db 0).

Lemma webhooks_confined_witness :
  demo_served.1.1 = [answers 401 [("error", "Invalid token")]; answered;
    answers 200 [("status", "ok"); ("reason", "duplicate")]; no_answer; answered] ∧
  asked_events demo_posts demo_served.1.1 = [("ev1", 9); ("ev1", two_hours + 11)] ∧
  StronglySorted apart (asked_events demo_posts demo_served.1.1).
Proof.
  split_and!; [vm_compute; reflexivity..|].
  destruct demo_served as [[hds s'] st'] eqn:Hrun.
  destruct (@webhooks_confined go_cidr Some demo_messaging demo_posts (mkFeishuState ∅ ∅) (mkSt empty_db 0) hds s' st' Hrun)
    as (_ & _ & _ & Ha & _).
  apply Ha. cbv. repeat constructor; discriminate.
Defined.

(** A signature of DingTalk says nothing about the message and does not age: seen once,
    it carries any message at any time. *)
Example signature_replayed :
  let post t text := DingTalkPosted (env_at t) (Some repeats) "1700000000000"
    (demo_messaging.(ms_hmac) "key" ("1700000000000" +:+ newlines 1 +:+ "key")) (DingTalkText text None) in
  (@serve go_cidr Some demo_messaging [post 1 "nodes?"; post (10 * two_hours) "tokens?"] (mkFeishuState ∅ ∅) (mkSt empty_db 0)).1.1 =
  [mkHandled (Some (200, [("status", "success"); ("reply", refusal)])) [] (Some "nodes?");
   mkHandled (Some (200, [("status", "success"); ("reply", refusal)])) [] (Some "tokens?")].
Proof. vm_compute. reflexivity. Qed.
(** The reply to an event that could not be delivered is lost: when the platform posts the
    event again it is a duplicate. *)
Example undelivered_reply :
  let post t := FeishuPosted (env_at t) (Some repeats) (λ _, Err (ErrorString "timeout"))
    (BodyEvent (demo_event "vt")) in
  hd_Answer <$> (@serve go_cidr Some demo_messaging [post 9; post 10] (mkFeishuState ∅ ∅) (mkSt empty_db 0)).1.1 =
  [Some (500, [("error", "failed to get app access token")]); Some (200, [("status", "ok"); ("reason", "duplicate")])].
Proof. vm_compute. reflexivity. Qed.
(** A list renders with one cell more in its rule than in its head. *)
Example list_of_one_column :
  list_table [("a", CText "x")] [[("a", CText "x")]; [("a", CNumber (S754_finite false 9 (-3)))]; []] =
  "| **a** |" +:+ newlines 1 +:+ "|---|---|" +:+ newlines 1 +:+ " x |" +:+ newlines 1 +:+ " 1.12 |" +:+ newlines 1 +:+
  " null |" +:+ newlines 1.
Proof. vm_compute. reflexivity. Qed.
