(* ===== verification/Commands.v ===== *)
(** * The start of the controller and the command line

    [ensureSuperAdmin] of [internal/cli/controller_serve.go], which runs when the
    controller starts, and the commands of [internal/cli] that change tables: ban a
    node, create and revoke an enrolment token.  A variable of the environment, a flag
    or an argument is a parameter; what a command prints is left out. *)

From S2P Require Import Prelude GoStr Durations Records Store Events Tokens ControlState AgentCommands PolicySync Nodes NodesSpec Lifecycle Tenants Sessions Access AccessSpec.

Open Scope Z_scope.

(** ** The platform administrator *)

Definition envBool (value : string) : bool :=
  one_of (ToLower (TrimSpace value)) ["1"; "true"; "yes"; "y"; "on"].

(** [ARIA_SUPER_ADMIN], [ARIA_SUPER_ADMIN_PASSWORD] and [ARIA_SUPER_ADMIN_SYNC]. *)
Record SuperAdminEnv := mkSuperAdminEnv {
  se_username : string;
  se_password : option string;
  se_sync : string;
}.

Definition is_super_admin (_ : UUID) (u : UserRow) : bool := (u_role u =? "super_admin")%string.
Definition super_admin_named (username : string) (id : UUID) (u : UserRow) : bool :=
  (u_username u =? username)%string && is_super_admin id u.
(** An UPDATE of one user and the number of rows it changes. *)
Definition update_admin (userID : UUID) (f : UserRow → UserRow) : M Z :=
  stmt (λ _ _ db,
    match users db !! userID with
    | None => Ok (0, db)
    | Some u =>
      if exists_where (λ k v, negb (k =? userID)%string && (u_username v =? u_username (f u))%string) (users db)
      then Err (ErrConstraint "idx_users_username_unique") else
      Ok (1, db <| users := <[userID := f u]> (users db) |>)
    end).
Definition set_admin_password (hash : string) (u : UserRow) : UserRow :=
  u <| u_password_hash := hash |> <| u_must_change_password := Some true |>.
Definition insert_super_admin (username hash : string) : M unit :=
  stmt (λ e id db,
    if bool_decide (is_Some (users db !! id)) then Err (ErrConstraint "users_pkey") else
    if exists_where (λ _ v, (u_username v =? username)%string) (users db)
    then Err (ErrConstraint "idx_users_username_unique") else
    Ok ((), db <| users := <[id := mkUserRow username hash None "super_admin" None (Some true) 0 (env_now e) (env_now e)]>
                             (users db) |>)).
Definition user_older (a b : UUID * UserRow) : bool := u_created_at a.2 <? u_created_at b.2.

Section super_admin.
Context `{Bcrypt} (salt : string).

Definition admin_name (env : SuperAdminEnv) : string :=
  let username := TrimSpace (se_username env) in
  if (username =? "")%string then "sysadmin" else username.
(** The password, when one is configured. *)
Definition configured_password (env : SuperAdminEnv) : option string :=
  p ← se_password env;
  let password := TrimSpace p in
  if (password =? "")%string then None else Some password.

Definition hash_password (password : string) : M string :=
  wrap "failed to hash password" (lift (λ _, bcrypt_generate salt password)).
Definition updated (message : string) (m : M Z) : M unit :=
  affected ← wrap message m;
  if affected =? 0 then fail (ErrorString message) else mret ().

(** A platform administrator has the name. *)
Definition sync_super_admin (env : SuperAdminEnv) (existingUserID : UUID) (existingPasswordHash : string) : M unit :=
  match configured_password env with
  | None => mret ()
  | Some password =>
    if bcrypt_compare existingPasswordHash password then mret () else
    if negb (envBool (se_sync env)) then mret () else
    hash ← hash_password password;
    updated "failed to update super admin password" (update_admin existingUserID (set_admin_password hash))
  end.
(** None has. *)
Definition create_super_admin (env : SuperAdminEnv) (username : string) : M unit :=
  count ← wrap "failed to check super admin" (query (λ _ db, count_where is_super_admin (users db)));
  match configured_password env with
  | None =>
    if 0 <? count then mret ()
    else fail (ErrorString "ARIA_SUPER_ADMIN_PASSWORD is required when creating the initial super admin user")
  | Some password =>
    hash ← hash_password password;
    if count =? 1 then
      if negb (envBool (se_sync env)) then mret () else
      '(migrateUserID, _) ← wrap "failed to load existing super admin for migration"
        (query_row (λ _ db, first_by user_older (select_where is_super_admin (users db))));
      updated "failed to migrate super admin username"
        (update_admin migrateUserID (λ u, set_admin_password hash (u <| u_username := username |>)))
    else wrap "failed to create super admin" (insert_super_admin username hash)
  end.
Definition ensureSuperAdmin (env : SuperAdminEnv) : M unit :=
  let username := admin_name env in
  r ← attempt (query_row (λ _ db, head (select_where (super_admin_named username) (users db))));
  match r with
  | Ok (existingUserID, u) => sync_super_admin env existingUserID (u_password_hash u)
  | Err ErrNoRows => create_super_admin env username
  | Err _ => fail (ErrorString "failed to check super admin user")
  end.
End super_admin.

(** ** Commands *)

Section commands.
(** [uuid.Parse], and the text of an identifier as PostgreSQL reads it. *)
Context (uuid_Parse : string → result UUID) (pg_uuid : string → option UUID).

Definition active_tenant (_ : UUID) (t : TenantRow) : bool := (default "active" (t_status t) =? "active")%string.
Definition tenant_older (a b : UUID * TenantRow) : bool := t_created_at a.2 <? t_created_at b.2.
(** The answer is the canonical text of the identifier, as it is stored. *)
Definition resolveTokenTenantID (requestedTenantID : string) : M UUID :=
  let requestedTenantID := TrimSpace requestedTenantID in
  if negb (requestedTenantID =? "")%string then
    found ← wrap "failed to validate tenant" (stmt (λ _ _ db,
      match pg_uuid requestedTenantID with
      | None => Err ErrDriver
      | Some id => Ok (t ← tenants db !! id; if active_tenant id t then Some id else None, db)
      end));
    match found with
    | None => fail (ErrorString ("tenant " +:+ requestedTenantID +:+ " not found or inactive"))
    | Some id => mret id
    end
  else
  tenants ← wrap "failed to list active tenants"
    (query (λ _ db, take 2 (fst <$> SliceStable tenant_older (select_where active_tenant (tenants db)))));
  match tenants with
  | [id] => mret id
  | _ :: _ => fail (ErrorString "multiple active tenants found; pass --tenant-id explicitly")
  | [] => wrap "failed to create default tenant" (GetOrCreateTenantByCode "default" "default")
  end.

(** The flags [--ttl], [--tag], [--uses] and [--tenant-id]; times in microseconds. *)
Definition runTokenCreate (bytes : result text) (tokenTTL tokenTag : string) (tokenUses : Z) (tokenTenantID : string) : M Token :=
  match ParseDuration tokenTTL with
  | None => fail (ErrorString "invalid TTL format")
  | Some ttl =>
    tenantID ← resolveTokenTenantID tokenTenantID;
    t ← wrap "failed to generate token" (GenerateSimple uuid_Parse bytes tokenTag tokenUses (ttl `quot` 1000));
    wrap "failed to save token" (Create (t <| tok_TenantID := tenantID |>))
  end.
Definition runTokenRevoke (tokenRevokeID : string) (args : list string) : M unit :=
  if negb (tokenRevokeID =? "")%string then
    wrap "failed to revoke token"
      (match pg_uuid tokenRevokeID with
       | Some id => RevokeByID id
       | None => fail ErrDriver
       end)
  else
  match args with
  | [] => fail (ErrorString "token string or --id is required")
  | tokenStr :: _ =>
    if negb (HasPrefix tokenStr "tk_") then fail (ErrorString "invalid token format: must start with 'tk_'") else
    wrap "failed to revoke token" (Revoke tokenStr)
  end.

(** The nodes a name or the beginning of a key may mean. *)
Definition ban_candidates (banTenantID : string) : M (list Node) :=
  if negb (TrimSpace banTenantID =? "")%string then
    match uuid_Parse (TrimSpace banTenantID) with
    | Err _ => fail (ErrorString "invalid --tenant-id")
    | Ok tenantID => wrap "failed to get nodes" (GetNodesByTenant tenantID)
    end
  else wrap "failed to get nodes" GetAllNodes.
Definition device_named (banHostname banTenantID : string) : M Node :=
  nodes ← ban_candidates banTenantID;
  match filter (λ n, (N_Hostname n =? banHostname)%string = true) nodes with
  | [node] => mret node
  | [] => fail (ErrorString "device not found")
  | _ => fail (ErrorString "multiple devices use the hostname")
  end.
Definition device_with_key (deviceID : string) : M Node :=
  nodes ← wrap "failed to get nodes" GetAllNodes;
  match filter (λ n, HasPrefix (N_PublicKey n) deviceID = true) nodes with
  | [node] => mret node
  | [] => fail (ErrorString "device not found")
  | _ => fail (ErrorString "multiple devices match the prefix")
  end.
Definition ban_transition : NodeLifecycleTransition :=
  mkNodeTransition "banned" "node banned by admin" "node_banned" "admin" "Node banned by admin" ∅.
(** The last lines print the first sixteen characters of the key. *)
Definition runAdminBan (banHostname banTenantID : string) (args : list string) : M Node :=
  match banHostname, args with
  | "", [] => fail (ErrorString "device ID or --hostname is required")
  | _, _ =>
    node ← match banHostname, args with
           | "", deviceID :: _ => device_with_key deviceID
           | _, _ => device_named banHostname banTenantID
           end;
    _ ← wrap "failed to ban device" (ApplyNodeLifecycleTransition (N_PublicKey node) ban_transition);
    if (String.length (N_PublicKey node) <? 16)%nat then fail (Panic "slice bounds out of range") else mret node
  end.
End commands.

(** ** What a start leaves *)

Section start.
Context `{Bcrypt} (salt : string) (env : SuperAdminEnv).





(** The law of bcrypt a start relies on: a hash matches its password. *)
Context (Hlaw : ∀ salt p h, bcrypt_generate salt p = Ok h → bcrypt_compare h p = true).

End start.

(** ** What the commands do *)

Section commands_spec.
Context (uuid_Parse : string → result UUID) (pg_uuid : string → option UUID).

(** A token made on the command line belongs to an active tenant, or to the tenant with
    the code default when no tenant is active. *)
Theorem resolveTokenTenantID_ok requested e st t st' : resolveTokenTenantID pg_uuid requested e st = (Ok t, st') →
  (st_db st' = st_db st ∧ ∃ row, tenants (st_db st) !! t = Some row ∧ active_tenant t row = true) ∨
  (TrimSpace requested = "" ∧ (∀ k row, tenants (st_db st) !! k = Some row → active_tenant k row = false) ∧
   ∃ row, tenants (st_db st') !! t = Some row ∧ t_code row = Some "default").
Proof.
  unfold resolveTokenTenantID. destruct (String.eqb_spec (TrimSpace requested) "") as [Hr|Hr]; cbn [negb].
  - intros (l & st1 & [-> Hs]%wrap_ok%query_ok & Hk)%bind_ok.
    set (rows := select_where active_tenant (tenants (st_db st))) in *.
    assert (∀ x, x ∈ take 2 (fst <$> SliceStable tenant_older rows) →
      ∃ row, tenants (st_db st) !! x = Some row ∧ active_tenant x row = true) as Hrows.
    { intros x Hx. apply elem_of_take in Hx as (i & Hx & _).
      apply list_elem_of_lookup_2, list_elem_of_fmap in Hx as ([k row] & -> & Hx). rewrite SliceStable_Permutation in Hx.
      apply select_where_elem in Hx. eauto. }
    destruct (take 2 _) as [|x [|]] eqn:Ht; [| |done].
    + right. split_and!; [done| |].
      * intros k row Hk'. destruct (active_tenant k row) eqn:Ha; [|done]. exfalso.
        assert ((k, row) ∈ SliceStable tenant_older rows) as Hin by (rewrite SliceStable_Permutation; by apply select_where_elem).
        destruct (SliceStable tenant_older rows); [by apply elem_of_nil in Hin|done].
      * apply wrap_ok, stmt_ok in Hk as (Hk & _). destruct (head _) as [[id row]|] eqn:Hh.
        -- injection Hk as -> <-. apply head_Some_elem_of, select_where_elem in Hh as [_ Hc%bool_decide_eq_true].
           exists (row <| t_name := "default" |>). cbn. by rewrite lookup_insert_eq.
        -- destruct (tenant_exists _ _); [done|]. injection Hk as -> <-. eexists. cbn. by rewrite lookup_insert_eq.
    + injection Hk as <- <-. left. split; [done|]. apply Hrows. by left.
  - intros (found & st1 & (Hf & _)%wrap_ok%stmt_ok & Hk)%bind_ok. left. destruct (pg_uuid _) as [id|]; [|done].
    destruct (tenants (st_db st) !! id) as [row|] eqn:Hid; cbn in Hf; [|by injection Hf as <- _].
    destruct (active_tenant id row) eqn:Ha; injection Hf as <- Hdb; [|done]. injection Hk as <- <-. eauto.
Qed.

Lemma GetAllNodes_complete e st l st' : GetAllNodes e st = (Ok l, st') →
  st_db st' = st_db st ∧ ∀ id r, nodes (st_db st) !! id = Some r → not_deleted r = true → scanNode id r ∈ l.
Proof.
  intros [-> Hdb]%query_ok. split; [done|]. intros id r Hid Hr. cbn. apply list_elem_of_fmap. exists (id, r). split; [done|].
  unfold nodes_by_last_seen. rewrite SliceStable_Permutation. apply select_where_elem. by rewrite Hr.
Qed.
(** Banning by the beginning of a key takes the one node in the table whose key begins
    so, sets its status and changes no other node. *)
Theorem runAdminBan_bans tenantFlag deviceID args e st node st' : keys_unique (st_db st) →
  runAdminBan uuid_Parse "" tenantFlag (deviceID :: args) e st = (Ok node, st') →
  HasPrefix (N_PublicKey node) deviceID = true ∧
  (∀ id r, nodes (st_db st) !! id = Some r → not_deleted r = true → HasPrefix (n_public_key r) deviceID = true →
     n_public_key r = N_PublicKey node) ∧
  ∃ id r, nodes (st_db st) !! id = Some r ∧ n_public_key r = N_PublicKey node ∧
    nodes (st_db st') = <[id := r <| n_status := Some "banned" |> <| n_updated_at := env_now e |>]> (nodes (st_db st)).
Proof.
  intros Hu (n & st1 & Hn & Hrun)%bind_ok.
  apply bind_ok in Hn as (l & st2 & [Hdb Hall]%wrap_ok%GetAllNodes_complete & Hone).
  destruct (filter _ l) as [|m [|]] eqn:Hf; try done. injection Hone as -> <-.
  apply bind_ok in Hrun as (x & st3 & Hx%wrap_ok & Hrun). destruct (_ <? 16)%nat; [done|]. injection Hrun as <- <-.
  assert (n ∈ filter (λ n, HasPrefix (N_PublicKey n) deviceID = true) l) as [Hp _]%list_elem_of_filter by (rewrite Hf; by left).
  apply ApplyNodeLifecycleTransition_stops in Hx as ((r & Hr & Hk & Hn) & _); [|by rewrite Hdb|done]. rewrite Hdb in *.
  split_and!; [done| |by eexists _, r].
  intros id v Hv Hd Hpre. assert (scanNode id v ∈ filter (λ n, HasPrefix (N_PublicKey n) deviceID = true) l) as Hin
    by (apply list_elem_of_filter; split; [done|by apply Hall]).
  rewrite Hf in Hin. apply list_elem_of_singleton in Hin as <-. done.
Qed.
End commands_spec.

(** ** Examples *)

(** When no tenant is active the default one gets the token, whatever its status. *)
Example token_for_suspended_tenant :
  let db := empty_db <| tenants := {["t1" := mkTenantRow "D" (Some "default") None None (Some "suspended") None 0 0]} |> in
  (resolveTokenTenantID Some "" (env_at 9) (mkSt db 0)).1 = Ok "t1" ∧
  (resolveTokenTenantID Some "t1" (env_at 9) (mkSt db 0)).1 = Err (ErrorString "tenant t1 not found or inactive").
Proof. vm_compute. split; reflexivity. Qed.
(** The help of the command names a lifetime the parser refuses. *)
Example lifetime_in_days bytes :
  (runTokenCreate Ok Some bytes "7d" "" 1 "" (env_at 9) (mkSt empty_db 0)).1 = Err (ErrorString "invalid TTL format").
Proof. reflexivity. Qed.

Section start_examples.
#[local] Instance unsalted : Bcrypt := {| bcrypt_generate _ p := Ok p; bcrypt_compare h p := (h =? p)%string |}.
Definition admin_of (username password : string) : UserRow :=
  mkUserRow username password None "super_admin" None (Some true) 0 9 9.
Definition started (sync : string) (db : DB) : result unit * gmap UUID UserRow :=
  let '(r, st) := ensureSuperAdmin "" (mkSuperAdminEnv " root " (Some "pw") sync) (env_at 9) (mkSt db 0) in (r, users (st_db st)).
(** The first start makes the administrator; a name of another is taken over on demand,
    unless a user of a tenant has it. *)
Example starts :
  started "" empty_db = (Ok (), {["uuid-2-0" := admin_of "root" "pw"]}) ∧
  started "" (empty_db <| users := {["u1" := admin_of "old" "x"]} |>) = (Ok (), {["u1" := admin_of "old" "x"]}) ∧
  started "on" (empty_db <| users := {["u1" := admin_of "old" "x"]} |>) = (Ok (), {["u1" := admin_of "root" "pw"]}) ∧
  (started "on" (empty_db <| users := {["u1" := admin_of "old" "x";
     "u2" := mkUserRow "root" "y" (Some "t1") "viewer" None None 0 0 0]} |>)).1 =
    Err (ErrorString "failed to migrate super admin username").
Proof. vm_compute. split_and!; reflexivity. Qed.
End start_examples.
